(* ===== verification/_CoqProject ===== *)
-Q . S2P
Prelude.v
JsString.v
JsNum.v
Amount.v
Json.v
Hex.v
JsValue.v
JsDate.v
Python.v
Server.v
GatewayDb.v
Referral.v
Staking.v
GatewayServer.v
GatewayLemmas.v
GatewayIntegrity.v
PoolSafety.v
GatewayRaces.v
GatewayAmounts.v
GatewayAuth.v
StakeReward.v
ExplorerServer.v
RichList.v
Browser.v
Primitives.v
Base58.v
Bech32.v
Address.v
Faucet.v
Keys.v
NodeTx.v
NodeScript.v
Termination.v
ScriptLemmas.v
TxCodec.v
Der.v
Signing.v
Multisig.v
MultisigSpend.v
MultisigThreshold.v
BumpFee.v
Message.v
Storage.v
Gateway.v
Price.v
Qr.v
Checkout.v
Explorer.v
Issuer.v
ServiceWorker.v
App.v
AppHome.v
AppSend.v
AppSpend.v
SendProof.v
WalletGateway.v
Fee.v
AppBook.v
AppReceive.v
Derivation.v
AppHistory.v
AppStaking.v
AppMultisig.v
AppSettings.v
AppMain.v
AppEvents.v
AppLock.v
Dart.v
MobilePackages.v
MobileAddress.v
MobileTx.v
MobileMultisig.v
MobileWallet.v
MobileSend.v
MobileSession.v
MobilePay.v
MobileOffline.v
MobileMessage.v
BlockIndex.v
StakeKernel.v
