(* ===== verification/Prelude.v ===== *)
(** * CodexaCoin's clients and servers: a verification development

    The repository holds a node for the CAC chain (codexacoin-core, C++), a
    gateway, an explorer and a faucet (Python), a web wallet, a checkout
    widget, the explorer's page and the scripts that issue wrapped tokens
    (JavaScript), and a mobile wallet (Dart).  This development models all of the
    JavaScript and the three Python servers; of the mobile wallet its cryptography, its
    wallet service, its payments and its air-gapped payments; and of the node what
    decides whether a transaction of a wallet is valid, whether a coin may stake and
    what a coinstake may pay.

    ** The parts and how they interact

    web-wallet/app.js is the page: it keeps one [state] object, derives keys from
    a phrase, talks to the gateway, and builds transactions with crypto.js,
    messages with message.js, codes with qr.js and prices with price.js; the
    phrase is stored by storage.js, plainly or under a PIN.  The gateway hands
    transactions to the node.  checkout.js watches an address for a merchant.
    explorer/app.js shows what its server, explorer/app.py, reports.  The issuer
    scripts share a key file and a file with the token's address.

    vps-gateway/app.py answers the wallet out of a node and a database.  It also keeps
    a staking pool: a user signs up, gets a deposit address, watcher.py notices the
    deposit and the rewards it earns, and a withdrawal pays both out of the pool's
    wallet; a user who referred another is credited a share.  faucet/app.py pays test
    coins.  The rewards themselves are made by the node (pos.cpp, wallet/staking.cpp).

    cac_wallet is a second client of the same gateway with the same phrases, addresses
    and multisig proposals.  A phone without the seed can prepare a payment from an
    account key, which a phone that stays offline signs.

    ** Files

    The language.
    - Prelude: exceptions and the [result] monad, bytes, 32-bit operations, digits.
    - JsString, JsNum, JsValue, JsDate: texts (UTF-8 bytes), doubles with
      correct rounding, [Number], [BigInt], [String] and property access, dates.
    - Json: [JSON.parse] and [JSON.stringify] with their round trip.
    - Hex, Amount: bytesToHex/hexToBytes (crypto.js), formatCac and the
      amounts read from forms (app.js).
    - Browser: the browser as a state (storage, document, requests sent,
      random draws, timers, effects, the page's variables) and the monad [js]
      handlers run in; [Environment] is the server, the random stream and the user.
    - Primitives: the cryptographic libraries as the class [Primitives], their
      documented laws as [PrimitiveLaws], and a concrete instance of both.

    The wallet's cryptography (crypto.js, message.js).
    - Base58, Bech32, Address, Keys: encodings, addresses, derivation.
    - TxCodec, Der, Signing, BumpFee: serializeTx, legacySighash,
      derEncodeSignature, buildAndSignTransaction, buildBumpFeeTransaction.
    - Multisig, MultisigSpend, MultisigThreshold: the multisig
      functions, and redeem scripts for any threshold, not a number included.
    - Message: signMessage and verifyMessage.

    The node (codexacoin-core/src).
    - NodeTx: reading transactions, the signature hash, signature encodings.
    - NodeScript, ScriptLemmas: VerifyScript and the opcodes the wallet writes.
    - Fee: SerializeTransaction, CheckTxInputs, GetMinFee, GetFee.
    - Termination: the fuel of the JSON reader and of the script loops is enough
      (that of the interpreter itself in NodeScript).

    The page (app.js and its modules); each handler is a definition of type
    [js app unit] under the name of its function or button.
    - Storage, Gateway, Price, Qr, ServiceWorker: storage.js, gateway.js,
      price.js, qr.js, sw.js.
    - App: the state object, key cache, escapeHtml, parseBip21, gatherAllUtxos.
    - AppHome, AppSend, AppSpend, AppBook, AppReceive, AppHistory, AppStaking,
      AppMultisig, AppSettings, AppMain: the screens.
    - Derivation: ensureKey and its callers at their awaits, with the races of a
      network switch or a lock during a derivation.
    - SendProof: a payment from the button to the node.
    - AppEvents: every handler in one step relation, its invariant, polling.
    - AppLock: the PIN, the backup quiz, the network switch.

    The servers.  A Python handler is a program of type [prog D A]: a tree of calls
    to the outside (node, clock, random, push) and statements on a database of type
    [D], which ends in a value or an exception.
    - Python: the values and functions of the language the servers use.
    - Server: the node's calls with the replies the servers read, programs, and what
      they mean: alone ([exec], [run]), interleaved with others at every call and
      statement ([server_step], [interleave]), with the proof rules for each.
    - GatewayDb: db.py and rpc.py, and the SQL of the other modules.
    - Referral, Staking: referral.py; staking.py and push.py.
    - GatewayServer: app.py, auth.py and kyc.py; a definition per route, [view]; and
      the watcher (watcher.py, mobile_notify.py, push_mobile.py).
    - GatewayLemmas: rules for the handlers, and a pool with two users, used by the
      witnesses.
    - GatewayIntegrity, PoolSafety, GatewayRaces, GatewayAmounts, GatewayAuth: what
      the gateway keeps, owes, confuses, computes and hides.
    - ExplorerServer, RichList: explorer/app.py and rpc.py.
    - Faucet: faucet/app.py.
    - WalletGateway: the wallet's client against the gateway's routes.
    - StakeReward: the node's reward rule, the coinstakes its wallet builds, and the
      check of ConnectBlock.

    - BlockIndex: the block index with its skip list (chain.cpp, blockstorage.cpp).
    - StakeKernel: the proof-of-stake kernel and the staking wallet's cache (pos.cpp).

    The mobile wallet (cac_wallet/lib).  Asynchronous code is a [task]: it changes the
    wallet's state and pauses at every await, for a request of the gateway or for a turn.
    - Dart: 64-bit integers, parsing of numbers, hexadecimal helpers, exceptions.
    - MobilePackages: the packages bip32, bip39, bs58check, bech32 and pointycastle as
      the class [MobilePackages], their documented laws, and an instance of both.
    - MobileAddress: network_config.dart, address.dart, keys.dart, xpub.dart.
    - MobileTx, MobileMultisig: transaction.dart (the latter multisig and fee bumps).
    - MobileWallet: wallet_storage.dart, gateway_api.dart, wallet_service.dart.
    - MobileSend: the rest of the service, and the send screen.
    - MobileSession: every call of the service in one step relation ([session]).
    - MobilePay: payments and the list of transactions, proved.
    - MobileOffline: offline_signing.dart and the two screens around it.
    - MobileMessage: message.dart, with the curve's points as the class [CurvePackage].

    The other clients.
    - Checkout (checkout-widget/checkout.js), Explorer (explorer/app.js), Issuer
      (base-issuer/ and bnb-issuer/).

    ** What the theorems show

    - The node accepts what the wallet makes: its deserializer reads back the
      transaction that was meant, and its interpreter accepts every input of a
      payment, a fee bump, a two-key multisig spend.  [send_accepted] follows the
      send button through coin selection, change, signing and broadcast; the
      values add up exactly.
    - Where it does not: the fee of a send is below the node's minimum at the
      rates the gateway reports ([send_fee_not_enough]), a multisig of three keys
      cannot be spent, and one made with a threshold that is not a number can be spent
      by anyone ([nan_threshold_screen]).
    - Encodings invert each other and keep networks apart: Base58Check, Bech32,
      addresses, account keys, messages, amounts, payment codes, proposals, PINs.
    - Invariants of state machines, whatever the order of events: the page's key
      cache, timers and form rows ([page_invariant]), the QR scanner, the checkout
      widget, and the derivations of keys under way ([derivations_settle], which also
      end).  The widget refines a specification of what a list of balances pays;
      the scanner delivers, unless a frame fails; the explorer shows its location when
      replies come in order, and may show another page when they do not.
    - Termination: the quiz's rejection loop on fair random streams, the staking
      screen's retry, the script interpreter and the JSON reader.
    - The database of the gateway is well formed in every state its workers and the
      watcher can reach, at every interleaving ([database_integrity]).  Served one at a
      time, requests never make the pool pay a user more than was closed for them, but
      for payments whose confirmation is lost ([pool_solvent]); after such a payment, and
      when two overlap, a user is paid again ([lost_reply_paid_again],
      [withdrawals_race]).  A request touches
      only what its token's user owns ([request_isolated]), and an account can be
      signed in to ([signup_then_login]).
    - The wallet and the gateway fit: the coins the node lists are the coins the send
      screen spends ([wallet_sees_coins]); amounts are exact below 2^25 coins, the fee
      estimate stays between the floor and ten times the floor.
    - The explorer's rich list is the set of unspent outputs by address
      ([richlist_correct]), its supply chart follows the node's subsidy, and it never
      asks the node for anything but the public chain.  The faucet pays an address
      once per cooldown, as the text of the address goes and unless the node's reply to
      a payout is lost.
    - A coinstake of the node's wallet pays exactly what consensus allows
      ([coinstake_accepted]); the rule is exact in its 256-bit arithmetic, and splitting
      a coin earns nothing.
    - A coin the wallet finds to be a kernel passes the check of block validation
      ([staked_kernel_valid]), the wallet's cache never adds one ([stake_cache_safe]), and
      the skip list finds the block the parents lead to ([GetAncestor_correct]).  The
      weight of a coin is its value until the product with the target wraps
      ([kernel_proportional], [kernel_target_wraps]).
    - The two wallets are one: keys, addresses and account keys agree
      ([mobile_wallet_same]), transactions are equal to the byte ([mobile_signs_same]), and
      cosigners may mix devices ([mixed_cosigners]); signed messages are equal too, the
      phone's own key recovery included ([mobile_message_same]).  A payment of the phone, from the
      typed amount to the broadcast, is read and accepted by the node
      ([phone_send_accepted]), and so is one signed across the air gap
      ([airgap_accepted]), where the offline side signs only for its own coins
      ([offline_fails_closed]).  The phone's cached keys stay right however its calls
      interleave ([caches_consistent]), except while the network is switched
      ([switch_shows_old_address]); its fees have the fault of the browser's
      ([phone_fee_not_enough]).
    - Error paths are values: each theorem about a handler covers its throws.

    ** Bounds and fuel

    - Doubles are exact rationals with rounding to nearest even; the sign of
      zero is not kept.  Amount theorems hold below 2^25 coins or 2^53 satoshis as stated,
      and [parse_satoshis_inexact] shows the first bound matters.
    - [to_digits], [read_value] (JSON), [strip_separators], [find_and_delete]
      and the script interpreter run on fuel taken from the size of their input;
      Prelude, NodeScript and Termination prove that it is enough.  [dec_exp] counts 400 decimal places, more than a double
      has.  [load_staking] runs twice, which [loadStaking_terminates] shows is
      enough; the quiz loop's fuel is a parameter that [quiz_ends] discharges.
    - The node's 32-bit and 64-bit quantities wrap where its types do; the amounts of a
      coinstake do not for coins of up to forty billion CAC ([coinstake_accepted]).
      The sums of [CheckTxInputs] are plain integers, which it tests for their range.
    - Dart's integers wrap at 64 bits; the theorems on payments hold up to 2^53 satoshis
      and 100,000 coins, the amounts of JSON texts being exact up to there.
    - [walk] (the skip list) runs on fuel for the height, which [GetAncestor_correct] shows
      is enough.
    - Python's integers are unbounded, and a number bound to a statement that does not
      fit 64 bits raises, as does an integer too large for a double.  Upper and lower
      case and blanks are those of ASCII.  The limit on the digits [int] reads is left
      out.  Tables are those of a new database.
    - [series_heights] walks [range] with fuel for the height; the theorem on it shows
      that it reaches the tip.

    ** Concurrency

    A handler of the page runs to its end before the next event, so the page's
    step relation has whole handlers as steps.  The components in which replies
    and timers race (qr.js, checkout.js, explorer/app.js) have step relations whose
    steps end where the code awaits, and so has the derivation of keys: Derivation
    shows that the page settles when network and phrase change between derivations
    ([derivations_settle]), and that a switch or a lock during one leaves a wrong
    key ([switch_keeps_stale_key], [lock_keeps_key]).

    The calls of the phone's wallet service interleave at every await; [app_step] begins
    a call or resumes one that waits.  Theorems on one payment run it alone, for
    whatever the gateway answers.

    The servers run in several workers.  A step of a worker is one call or one
    statement; [reachable] allows any number of requests and watcher passes at a time,
    and integrity is proved for all of them by what each step relies on and keeps.
    Theorems on a single request hold for whatever the node answers, also when it has
    done what it was asked and the reply is lost ([Lost]).  Rate limits are left out, so
    that every sequence of requests is covered.  A statement on the database takes
    effect as a whole; one that fails for a lock or a full disk is not modelled.

    ** Not modelled

    The node beyond the rules above (mempool, network, wallet, chain work, signing of
    coinstakes), whose replies to the servers are typed by what they read of them;
    SQLite's files and locks, web frameworks, tokens, password hashes and encryption,
    which are parameters; of the mobile wallet payment links, prices, push messages,
    swaps, the address book and watch list, and widgets; the Stellar scripts and the
    Solidity constructors (calls into libraries outside the repository), the electrumx fork,
    static pages and deployment files; layout, colours and the drawing of codes;
    interleavings of two handlers of the wallet page at awaits other than the
    derivation of keys. *)

From Stdlib Require Export ZArith Lia Bool Ascii.
From stdpp Require Export base tactics list gmap strings numbers option.

#[global] Open Scope Z_scope.
#[global] Set Default Goal Selector "!".

(** ** Exceptions and the result monad

    A JavaScript [throw] is a value of [exn]; code that can throw returns a
    [result].  The constructors keep apart what the source distinguishes: a
    plain [Error], the [GatewayError] of gateway.js with its [code], and the
    errors the language itself raises. *)

Inductive exn :=
  | ExError (message : string)
  | ExGateway (code message : string)
  | ExType (message : string)
  | ExRange (message : string)
  | ExSyntax (message : string)
  | ExHost (name message : string).

#[export] Instance exn_eq_dec : EqDecision exn.
Proof. solve_decision. Defined.

(** [e.message] *)
Definition exn_message (e : exn) : string :=
  match e with
  | ExError m | ExGateway _ m | ExType m | ExRange m | ExSyntax m | ExHost _ m => m
  end.

(** [String(e)]: the error's name, a colon and its message.  [GatewayError]
    does not set [name], so it inherits ["Error"]. *)
Definition exn_to_string (e : exn) : string :=
  match e with
  | ExError m | ExGateway _ m => "Error: " +:+ m
  | ExType m => "TypeError: " +:+ m
  | ExRange m => "RangeError: " +:+ m
  | ExSyntax m => "SyntaxError: " +:+ m
  | ExHost n m => n +:+ ": " +:+ m
  end.

Inductive result (A : Type) :=
  | Ok (a : A)
  | Throw (e : exn).
Arguments Ok {A} a.
Arguments Throw {A} e.

#[export] Instance result_ret : MRet result := @Ok.
#[export] Instance result_bind : MBind result := λ A B f m,
  match m with Ok a => f a | Throw e => Throw e end.
#[export] Instance result_fmap : FMap result := λ A B f m,
  match m with Ok a => Ok (f a) | Throw e => Throw e end.

(** [if (b) throw new Error(msg);] *)
Definition throw_if (b : bool) (e : exn) : result unit :=
  if b then Throw e else Ok ().

Definition is_ok {A} (m : result A) : bool :=
  match m with Ok _ => true | Throw _ => false end.

(** [xs.map(f)] for a callback that can throw: left to right, the first throw
    wins. *)
Fixpoint mapR {A B} (f : A → result B) (l : list A) : result (list B) :=
  match l with
  | [] => Ok []
  | x :: xs => y ← f x; ys ← mapR f xs; Ok (y :: ys)
  end.

(** A [for] loop over a list that threads state and can throw. *)
Fixpoint foldR {A S} (f : S → A → result S) (s : S) (l : list A) : result S :=
  match l with
  | [] => Ok s
  | x :: xs => s' ← f s x; foldR f s' xs
  end.

(** ** Tactics *)

(** Split the goal on the first boolean test it branches on. *)
Ltac case_if :=
  match goal with
  | |- context [if ?b then _ else _] => let E := fresh "E" in destruct b eqn:E
  end.

(** Run a [result] computation whose head is known. *)
Ltac rsimpl := unfold mbind, result_bind, mret, result_ret, fmap, result_fmap, throw_if in *; simpl.

(** Invert an equation [m = Ok a] between monadic computations, one bind at a
    time, naming the outcome of each step. *)
Ltac inv_ok H :=
  match type of H with
  | mbind _ ?m = Ok _ => let E := fresh "E" in destruct m eqn:E; simpl in H; [|discriminate H]
  | Ok _ = Ok _ => injection H as H
  end.

(** Linear arithmetic after turning division and modulus into equations. *)
Ltac zdiv := Z.div_mod_to_equations; nia.

Create HintDb js.
Create HintDb bytes.
Create Rewrite HintDb bytes.

(** ** Results *)

Lemma bind_ok {A B} (f : A → result B) (m : result A) b :
  m ≫= f = Ok b ↔ ∃ a, m = Ok a ∧ f a = Ok b.
Proof. destruct m; simpl; split; [intros ?; by eexists | by intros (? & [= <-] & ?) | done | by intros (? & ? & ?)]. Qed.

Lemma mapR_ok {A B} (f : A → result B) l l' :
  mapR f l = Ok l' ↔ Forall2 (λ x y, f x = Ok y) l l'.
Proof.
  revert l'. induction l as [|x l IH]; intros l'; simpl.
  - split; [intros [= <-]; constructor | inversion 1; done].
  - rewrite bind_ok. split.
    + intros (y & Hy & H). apply bind_ok in H as (ys & Hys & [= <-]).
      constructor; [done | by apply IH].
    + inversion 1 as [|? y ? ys Hy Hys]; subst. exists y. split; [done|].
      apply bind_ok. exists ys. split; [by apply IH | done].
Qed.

Lemma mapR_total {A B} (f : A → result B) (g : A → B) l :
  (∀ x, x ∈ l → f x = Ok (g x)) → mapR f l = Ok (g <$> l).
Proof.
  induction l as [|x l IH]; intros H; [done|]. simpl.
  rewrite (H x) by set_solver. simpl. rewrite IH; [done | set_solver].
Qed.

Lemma length_mapR {A B} (f : A → result B) l l' :
  mapR f l = Ok l' → length l' = length l.
Proof. intros H%mapR_ok. symmetry. by eapply Forall2_length. Qed.

(** ** Bytes *)

(** The element type of a [Uint8Array]: an integer below 256. *)
Definition is_byte (b : Z) : Prop := 0 <= b < 256.
Abbreviation bytes := (list Z).
Definition all_bytes (l : bytes) : Prop := Forall is_byte l.

(** Storing a number in a [Uint8Array] keeps its value modulo 256. *)
Definition to_u8 (z : Z) : Z := z mod 256.

#[export] Instance is_byte_dec b : Decision (is_byte b).
Proof. unfold is_byte. apply _. Defined.

Lemma to_u8_byte z : is_byte (to_u8 z).
Proof. unfold is_byte, to_u8. apply Z.mod_pos_bound. lia. Qed.

Lemma to_u8_id b : is_byte b → to_u8 b = b.
Proof. unfold is_byte, to_u8. intros. by apply Z.mod_small. Qed.

Lemma all_bytes_app l k : all_bytes (l ++ k) ↔ all_bytes l ∧ all_bytes k.
Proof. apply Forall_app. Qed.

Lemma all_bytes_cons b l : all_bytes (b :: l) ↔ is_byte b ∧ all_bytes l.
Proof. apply Forall_cons_iff. Qed.

Lemma all_bytes_nil : all_bytes [].
Proof. constructor. Qed.

Lemma all_bytes_map_u8 l : all_bytes l → to_u8 <$> l = l.
Proof.
  induction 1 as [|b l Hb _ IH]; [done|]. rewrite fmap_cons, IH, to_u8_id; done.
Qed.

Lemma all_bytes_concat ls : Forall all_bytes ls → all_bytes (concat ls).
Proof. induction 1; simpl; [constructor|]. by apply all_bytes_app. Qed.

#[export] Hint Resolve to_u8_byte all_bytes_nil : bytes.
#[export] Hint Rewrite all_bytes_app all_bytes_cons : bytes.

(** Close a goal [all_bytes _] built from appends, conses and known parts. *)
Ltac solve_bytes :=
  repeat first
    [ apply all_bytes_nil | apply to_u8_byte | assumption
    | apply all_bytes_app; split | apply all_bytes_cons; split
    | (unfold is_byte; lia) ]; eauto with bytes.

(** ** Integers at a width *)

(** [ToUint32] and [ToInt32], the conversions the 32-bit operators apply. *)
Definition to_u32 (z : Z) : Z := z mod 2 ^ 32.
Definition to_i32 (z : Z) : Z :=
  let u := z mod 2 ^ 32 in if u <? 2 ^ 31 then u else u - 2 ^ 32.

(** The operators [<<], [>>], [>>>], [&], [|], [^] on numbers. *)
Definition js_shl (a n : Z) : Z := to_i32 (Z.shiftl (to_i32 a) (n mod 32)).
Definition js_sar (a n : Z) : Z := Z.shiftr (to_i32 a) (n mod 32).
Definition js_shr (a n : Z) : Z := Z.shiftr (to_u32 a) (n mod 32).
Definition js_and (a b : Z) : Z := to_i32 (Z.land (to_i32 a) (to_i32 b)).
Definition js_or (a b : Z) : Z := to_i32 (Z.lor (to_i32 a) (to_i32 b)).
Definition js_xor (a b : Z) : Z := to_i32 (Z.lxor (to_i32 a) (to_i32 b)).

Lemma to_u32_small z : 0 <= z < 2 ^ 32 → to_u32 z = z.
Proof. intros. unfold to_u32. by apply Z.mod_small. Qed.

Lemma to_i32_small z : 0 <= z < 2 ^ 31 → to_i32 z = z.
Proof.
  intros. unfold to_i32. rewrite Z.mod_small by lia.
  destruct (Z.ltb_spec z (2 ^ 31)); lia.
Qed.

Lemma to_i32_mod z : to_i32 z mod 2 ^ 32 = z mod 2 ^ 32.
Proof.
  unfold to_i32. destruct (z mod 2 ^ 32 <? 2 ^ 31).
  - apply Z.mod_mod. lia.
  - rewrite <- (Z_mod_plus_full (z mod 2 ^ 32 - 2 ^ 32) 1).
    rewrite <- (Z.mod_mod z (2 ^ 32)) at 2 by lia. f_equal. lia.
Qed.

Lemma to_u32_range z : 0 <= to_u32 z < 2 ^ 32.
Proof. apply Z.mod_pos_bound. lia. Qed.

(** Two integers equal modulo 2^32 are equal modulo every smaller power. *)
Lemma mod_pow2_weaken a b k :
  0 <= k <= 32 → a mod 2 ^ 32 = b mod 2 ^ 32 → a mod 2 ^ k = b mod 2 ^ k.
Proof.
  intros Hk H. assert (Hd : (2 ^ k | 2 ^ 32)).
  { exists (2 ^ (32 - k)). rewrite <- Z.pow_add_r by lia. f_equal. lia. }
  by rewrite <- (Z.mod_mod_divide a _ _ Hd), <- (Z.mod_mod_divide b _ _ Hd), H.
Qed.

(** The 32-bit operators on arguments that fit are the integer ones. *)
Lemma js_and_ones a k : 0 <= k <= 31 → js_and a (2 ^ k - 1) = a mod 2 ^ k.
Proof.
  intros Hk. unfold js_and. assert (0 < 2 ^ k) by (apply Z.pow_pos_nonneg; lia).
  assert (2 ^ k <= 2 ^ 31) by (apply Z.pow_le_mono_r; lia).
  rewrite (to_i32_small (2 ^ k - 1)) by lia.
  replace (2 ^ k - 1) with (Z.ones k) by (rewrite Z.ones_equiv; lia).
  rewrite Z.land_ones by lia. rewrite (mod_pow2_weaken (to_i32 a) a) by (try apply to_i32_mod; lia).
  pose proof (Z.mod_pos_bound a (2 ^ k)). apply to_i32_small. lia.
Qed.

Lemma js_shl_mod a n : 0 <= n < 32 → js_shl a n mod 2 ^ 32 = (a * 2 ^ n) mod 2 ^ 32.
Proof.
  intros Hn. unfold js_shl. rewrite to_i32_mod, (Z.mod_small n 32) by lia.
  rewrite Z.shiftl_mul_pow2 by lia.
  rewrite Z.mul_mod, to_i32_mod, <- Z.mul_mod by lia. done.
Qed.

Lemma js_shr_div a n : 0 <= n < 32 → js_shr a n = (a mod 2 ^ 32) / 2 ^ n.
Proof.
  intros Hn. unfold js_shr, to_u32. rewrite (Z.mod_small n 32) by lia.
  by rewrite Z.shiftr_div_pow2 by lia.
Qed.

Lemma lor_disjoint x v k :
  0 <= k → 0 <= v < 2 ^ k → x mod 2 ^ k = 0 → Z.lor x v = x + v.
Proof.
  intros Hk Hv Hx. assert (Hl : Z.land x v = 0).
  { apply Z.bits_inj'. intros i Hi. rewrite Z.land_spec, Z.bits_0.
    destruct (Z.lt_ge_cases i k).
    - rewrite <- (Z.mod_pow2_bits_low x k) by done. by rewrite Hx, Z.bits_0.
    - rewrite <- (Z.mod_small v (2 ^ k)) by done.
      rewrite (Z.mod_pow2_bits_high v k) by lia. apply andb_false_r. }
  pose proof (Z.add_lor_land x v). lia.
Qed.

(** [(acc << k) | v] appends the [k] bits of [v], modulo 2^32. *)
Lemma js_shl_or a k v :
  0 <= k < 31 → 0 <= v < 2 ^ k → js_or (js_shl a k) v mod 2 ^ 32 = (a * 2 ^ k + v) mod 2 ^ 32.
Proof.
  intros Hk Hv. assert (2 ^ k <= 2 ^ 31) by (apply Z.pow_le_mono_r; lia).
  unfold js_or. rewrite to_i32_mod, (to_i32_small v) by lia.
  rewrite (lor_disjoint _ _ k); [|lia|done|].
  - rewrite Z.add_mod, to_i32_mod, js_shl_mod, <- Z.add_mod by lia. done.
  - rewrite (mod_pow2_weaken _ (a * 2 ^ k)); [apply Z.mod_mul; lia|lia|].
    rewrite to_i32_mod. apply js_shl_mod. lia.
Qed.

Lemma lxor_bound a b n : 0 < n → 0 <= a < 2 ^ n → 0 <= b < 2 ^ n → 0 <= Z.lxor a b < 2 ^ n.
Proof.
  intros Hn Ha Hb. split; [apply Z.lxor_nonneg; lia|].
  destruct (decide (Z.lxor a b = 0)) as [->|]; [lia|].
  apply Z.log2_lt_pow2; [assert (0 <= Z.lxor a b) by (apply Z.lxor_nonneg; lia); lia|].
  eapply Z.le_lt_trans; [apply Z.log2_lxor; lia|].
  destruct (decide (a = 0)) as [->|], (decide (b = 0)) as [->|];
    apply Z.max_lub_lt; try (cbn; lia); apply Z.log2_lt_pow2; lia.
Qed.

Lemma js_xor_small a b : 0 <= a < 2 ^ 31 → 0 <= b < 2 ^ 31 → js_xor a b = Z.lxor a b.
Proof.
  intros Ha Hb. unfold js_xor. rewrite (to_i32_small a), (to_i32_small b) by done.
  apply to_i32_small, lxor_bound; lia.
Qed.

(** ** JavaScript slices *)

(** Clamp a possibly negative index the way [slice] does. *)
Definition rel_index (len i : Z) : Z :=
  if i <? 0 then Z.max (len + i) 0 else Z.min i len.

(** [xs.slice(s, e)] *)
Definition js_slice {A} (l : list A) (s e : Z) : list A :=
  let n := Z.of_nat (length l) in
  let s' := rel_index n s in
  let e' := rel_index n e in
  take (Z.to_nat (e' - s')) (drop (Z.to_nat s') l).

(** [xs.slice(s)] *)
Definition js_slice_from {A} (l : list A) (s : Z) : list A :=
  js_slice l s (Z.of_nat (length l)).

Lemma js_slice_prefix {A} (l : list A) n :
  (n <= length l)%nat → js_slice l 0 (Z.of_nat n) = take n l.
Proof.
  intros. unfold js_slice, rel_index.
  destruct (Z.ltb_spec (Z.of_nat n) 0); [lia|]. simpl.
  rewrite Z.min_l by lia. rewrite Z.min_l by lia.
  replace (Z.to_nat (Z.of_nat n - 0)) with n by lia. done.
Qed.

Lemma js_slice_from_drop {A} (l : list A) n :
  (n <= length l)%nat → js_slice_from l (Z.of_nat n) = drop n l.
Proof.
  intros. unfold js_slice_from, js_slice, rel_index.
  destruct (Z.ltb_spec (Z.of_nat n) 0); [lia|].
  destruct (Z.ltb_spec (Z.of_nat (length l)) 0); [lia|].
  rewrite !Z.min_l by lia. rewrite Nat2Z.id.
  apply take_ge. rewrite length_drop. lia.
Qed.

Lemma js_slice_middle {A} (pre x post : list A) s e :
  s = Z.of_nat (length pre) → e = s + Z.of_nat (length x) →
  js_slice (pre ++ x ++ post) s e = x.
Proof.
  intros -> ->. unfold js_slice, rel_index. rewrite !length_app.
  destruct (Z.ltb_spec (Z.of_nat (length pre)) 0); [lia|].
  destruct (Z.ltb_spec (Z.of_nat (length pre) + Z.of_nat (length x)) 0); [lia|].
  rewrite !Z.min_l by lia. rewrite Nat2Z.id, drop_app_length.
  rewrite take_app_length'; [done|lia].
Qed.

Lemma js_slice_length {A} (l : list A) s e :
  (length (js_slice l s e) <= length l)%nat.
Proof. unfold js_slice. rewrite length_take, length_drop. lia. Qed.

(** ** Typed arrays *)

(** [new Uint8Array(n)] *)
Definition u8_new (n : nat) : bytes := replicate n 0.

(** [dst.set(src, off)]: throws when [src] does not fit. *)
Definition u8_set (dst src : bytes) (off : nat) : result bytes :=
  if (length dst <? off + length src)%nat then Throw (ExRange "offset is out of bounds")
  else Ok (take off dst ++ src ++ drop (off + length src) dst).

Lemma u8_set_fill pre n src k :
  n = length src → u8_set (pre ++ u8_new (n + k)) src (length pre) = Ok (pre ++ src ++ u8_new k).
Proof.
  intros ->. unfold u8_set, u8_new. rewrite length_app, length_replicate.
  destruct (Nat.ltb_spec (length pre + (length src + k)) (length pre + length src)); [lia|].
  rewrite take_app_length. f_equal. f_equal. f_equal.
  rewrite drop_app_ge by lia.
  replace (length pre + length src - length pre)%nat with (length src) by lia.
  rewrite replicate_add, drop_app_length'; [done|by rewrite length_replicate].
Qed.

(** Writing consecutive pieces into a fresh array is concatenation. *)
Lemma u8_set_first src k : u8_set (u8_new (length src + k)) src 0 = Ok (src ++ u8_new k).
Proof. apply (u8_set_fill []). done. Qed.

Lemma u8_set_last pre src :
  u8_set (pre ++ u8_new (length src)) src (length pre) = Ok (pre ++ src).
Proof.
  rewrite <- (Nat.add_0_r (length src)), (u8_set_fill pre (length src)) by done.
  cbn. by rewrite app_nil_r.
Qed.

(** ** Positional notation

    The loops of [base58checkEncode] and [base58checkDecode] and the number
    formatting of the language all convert between an integer and its digits,
    most significant first. *)

Section digits.
Context (base : Z).

(** [num = num * base + digit], over the digits from the left. *)
Definition of_digits (ds : list Z) : Z := foldl (λ acc d, acc * base + d) 0 ds.

(** [while (num > 0) { out = digit(num % base) + out; num /= base; }] *)
Fixpoint to_digits_fuel (fuel : nat) (num : Z) (out : list Z) : list Z :=
  match fuel with
  | O => out
  | S fuel =>
      if 0 <? num then to_digits_fuel fuel (num / base) (num mod base :: out) else out
  end.

(** One iteration per bit of [num] is always enough: every division by
    [base >= 2] removes at least one bit ([of_to_digits] below). *)
Definition to_digits (num : Z) : list Z :=
  to_digits_fuel (Z.to_nat (Z.log2 num + 1)) num [].

Definition is_digit (d : Z) : Prop := 0 <= d < base.

Context (Hbase : 2 <= base).

Lemma foldl_digits acc ds :
  foldl (λ acc d, acc * base + d) acc ds =
  acc * base ^ Z.of_nat (length ds) + of_digits ds.
Proof.
  unfold of_digits. revert acc. induction ds as [|d ds IH]; intros acc.
  - simpl. lia.
  - cbn [foldl length]. rewrite (IH (acc * base + d)), (IH (0 * base + d)).
    rewrite Nat2Z.inj_succ, Z.pow_succ_r by lia. ring.
Qed.

Lemma of_digits_app ds es :
  of_digits (ds ++ es) = of_digits ds * base ^ Z.of_nat (length es) + of_digits es.
Proof. unfold of_digits at 1. rewrite foldl_app, foldl_digits. done. Qed.

Lemma of_digits_cons d ds :
  of_digits (d :: ds) = d * base ^ Z.of_nat (length ds) + of_digits ds.
Proof. unfold of_digits at 1. simpl. rewrite foldl_digits. lia. Qed.

Lemma of_digits_snoc ds d : of_digits (ds ++ [d]) = of_digits ds * base + d.
Proof. unfold of_digits. by rewrite foldl_app. Qed.

Lemma of_digits_bound ds :
  Forall is_digit ds → 0 <= of_digits ds < base ^ Z.of_nat (length ds).
Proof.
  induction ds as [|d ds IH] using rev_ind; intros H; [cbn; lia|].
  apply Forall_app in H as [H Hd]. rewrite Forall_singleton in Hd. unfold is_digit in Hd.
  rewrite of_digits_snoc, length_app, Nat2Z.inj_add, Z.pow_add_r by lia.
  specialize (IH H). change (Z.of_nat (length [d])) with 1. rewrite Z.pow_1_r.
  nia.
Qed.

Lemma to_digits_fuel_acc fuel num out :
  to_digits_fuel fuel num out = to_digits_fuel fuel num [] ++ out.
Proof.
  revert num out. induction fuel as [|f IH]; intros num out; simpl; [done|].
  case_if; [|done]. rewrite IH, (IH _ [_]), <- app_assoc. done.
Qed.

Lemma to_digits_fuel_spec fuel num :
  0 <= num < base ^ Z.of_nat fuel → of_digits (to_digits_fuel fuel num []) = num.
Proof.
  revert num. induction fuel as [|f IH]; intros num H; [cbn in *; lia|].
  cbn [to_digits_fuel]. rewrite Nat2Z.inj_succ, Z.pow_succ_r in H by lia.
  destruct (Z.ltb_spec 0 num); [|cbn; lia].
  rewrite to_digits_fuel_acc, of_digits_snoc, IH.
  - pose proof (Z.div_mod num base). lia.
  - split; [apply Z.div_pos; lia|]. apply Z.div_lt_upper_bound; lia.
Qed.

Lemma to_digits_fuel_digits fuel num :
  Forall is_digit (to_digits_fuel fuel num []).
Proof.
  revert num. induction fuel as [|f IH]; intros num; simpl; [constructor|].
  case_if; [|constructor]. rewrite to_digits_fuel_acc. apply Forall_app. split; [done|].
  apply Forall_singleton. unfold is_digit. apply Z.mod_pos_bound. lia.
Qed.

Lemma log2_fuel num :
  0 <= num → num < base ^ Z.of_nat (Z.to_nat (Z.log2 num + 1)).
Proof.
  intros. pose proof (Z.log2_nonneg num). rewrite Z2Nat.id by lia.
  destruct (decide (num = 0)) as [->|]; [cbn; lia|].
  apply Z.lt_le_trans with (2 ^ (Z.log2 num + 1)).
  - pose proof (Z.log2_spec num). rewrite Z.add_1_r. lia.
  - apply Z.pow_le_mono_l. lia.
Qed.

Lemma of_to_digits num : 0 <= num → of_digits (to_digits num) = num.
Proof.
  intros. apply to_digits_fuel_spec. split; [done|]. by apply log2_fuel.
Qed.

Lemma to_digits_digits num : Forall is_digit (to_digits num).
Proof. apply to_digits_fuel_digits. Qed.

Lemma of_digits_zeros n ds : of_digits (replicate n 0 ++ ds) = of_digits ds.
Proof.
  induction n as [|n IH]; [done|]. simpl. rewrite of_digits_cons, IH. lia.
Qed.

(** The first digit written is never zero. *)
Lemma to_digits_fuel_head fuel num d ds :
  0 <= num < base ^ Z.of_nat fuel →
  to_digits_fuel fuel num [] = d :: ds → d ≠ 0.
Proof.
  revert num d ds. induction fuel as [|f IH]; intros num d ds H; simpl; [done|].
  rewrite Nat2Z.inj_succ, Z.pow_succ_r in H by lia.
  destruct (Z.ltb_spec 0 num); [|done]. rewrite to_digits_fuel_acc.
  assert (Hq : 0 <= num / base < base ^ Z.of_nat f).
  { split; [apply Z.div_pos; lia|]. apply Z.div_lt_upper_bound; lia. }
  pose proof (to_digits_fuel_spec f _ Hq) as Hs.
  destruct (to_digits_fuel f (num / base) []) as [|d' ds'] eqn:E; simpl; intros [= <- <-].
  - cbn in Hs. pose proof (Z.div_mod num base). lia.
  - by eapply IH.
Qed.

Lemma to_digits_head num d ds :
  0 <= num → to_digits num = d :: ds → d ≠ 0.
Proof.
  intros H. apply to_digits_fuel_head. split; [done|]. by apply log2_fuel.
Qed.

(** Digit strings without a leading zero are determined by their value. *)
Lemma of_digits_inj ds es :
  Forall is_digit ds → Forall is_digit es →
  (∀ d l, ds = d :: l → d ≠ 0) → (∀ d l, es = d :: l → d ≠ 0) →
  of_digits ds = of_digits es → ds = es.
Proof.
  revert es. induction ds as [|d ds IH] using rev_ind; intros es Hd He Nd Ne Heq.
  - destruct es as [|e es]; [done|]. exfalso.
    specialize (Ne e es eq_refl). apply Forall_cons_iff in He as [He Hes].
    pose proof (of_digits_bound _ Hes). rewrite of_digits_cons in Heq.
    change (of_digits []) with 0 in Heq. unfold is_digit in He.
    assert (0 < base ^ Z.of_nat (length es)) by (apply Z.pow_pos_nonneg; lia). nia.
  - destruct es as [|e es _] using rev_ind.
    + exfalso. destruct (ds ++ [d]) as [|f fs] eqn:E; [by destruct ds|].
      specialize (Nd f fs eq_refl). apply Forall_cons_iff in Hd as [Hf Hfs].
      pose proof (of_digits_bound _ Hfs). rewrite of_digits_cons in Heq.
      change (of_digits []) with 0 in Heq. unfold is_digit in Hf.
      assert (0 < base ^ Z.of_nat (length fs)) by (apply Z.pow_pos_nonneg; lia). nia.
    + apply Forall_app in Hd as [Hds Hd]. apply Forall_app in He as [Hes He].
      rewrite Forall_singleton in Hd, He. unfold is_digit in Hd, He.
      rewrite !of_digits_snoc in Heq.
      destruct (Z.div_mod_unique base (of_digits ds) (of_digits es) d e) as [Hq ->]; [lia..|].
      f_equal. apply IH; try done.
      * intros f l ->. by apply (Nd f (l ++ [e])).
      * intros f l ->. by apply (Ne f (l ++ [e])).
Qed.

(** So are digit strings of one length. *)
Lemma of_digits_inj_length ds es :
  Forall is_digit ds → Forall is_digit es → length ds = length es →
  of_digits ds = of_digits es → ds = es.
Proof.
  revert es. induction ds as [|d ds IH] using rev_ind; intros es Hd He Hl Heq.
  - by destruct es.
  - destruct es as [|e es _] using rev_ind.
    { rewrite length_app in Hl. simpl in Hl. lia. }
    rewrite !length_app in Hl. rewrite !of_digits_snoc in Heq.
    apply Forall_app in Hd as [Hds Hd]. apply Forall_app in He as [Hes He].
    rewrite Forall_singleton in Hd, He. unfold is_digit in Hd, He.
    destruct (Z.div_mod_unique base (of_digits ds) (of_digits es) d e) as [Hq ->]; [lia..|].
    f_equal. apply IH; try done. simpl in Hl. lia.
Qed.

(** Reading digits and writing them again drops exactly the leading zeros. *)
Lemma to_of_digits ds :
  Forall is_digit ds → (∀ d l, ds = d :: l → d ≠ 0) →
  to_digits (of_digits ds) = ds.
Proof.
  intros Hds Hne. pose proof (of_digits_bound _ Hds).
  apply of_digits_inj; try done.
  - apply to_digits_digits.
  - intros d l. apply to_digits_head. lia.
  - apply of_to_digits. lia.
Qed.
(** Writing a number writes its quotient first. *)
Lemma to_digits_step num :
  0 < num → to_digits num = to_digits (num / base) ++ [num mod base].
Proof.
  intros Hn. assert (0 <= num / base) by (apply Z.div_pos; lia).
  assert (Hm : is_digit (num mod base)) by (apply Z.mod_pos_bound; lia).
  apply of_digits_inj.
  - apply to_digits_digits.
  - apply Forall_app. split; [apply to_digits_digits|by apply Forall_singleton].
  - intros d l. apply to_digits_head. lia.
  - intros d l. destruct (to_digits (num / base)) as [|e es] eqn:E; simpl; intros [= <- <-].
    + intros Hz. pose proof (of_to_digits (num / base)) as Hq. rewrite E in Hq. cbn in Hq.
      pose proof (Z.div_mod num base). lia.
    + eapply to_digits_head; [|done]. lia.
  - rewrite of_digits_snoc, !of_to_digits by lia. pose proof (Z.div_mod num base). lia.
Qed.

Lemma to_digits_single d : 0 < d < base → to_digits d = [d].
Proof.
  intros Hd. rewrite to_digits_step, Z.div_small, Z.mod_small by lia. done.
Qed.

Lemma to_digits_split k num :
  0 < num / base ^ Z.of_nat k →
  ∃ es, length es = k ∧ Forall is_digit es ∧ to_digits num = to_digits (num / base ^ Z.of_nat k) ++ es.
Proof.
  revert num. induction k as [|k IH]; intros num Hn.
  - exists []. rewrite Z.pow_0_r, Z.div_1_r, app_nil_r. done.
  - rewrite Nat2Z.inj_succ, Z.pow_succ_r, <- Z.div_div in * by lia.
    destruct (IH (num / base) Hn) as (es & Hl & Hd & He).
    assert (0 < num).
    { destruct (Z.lt_ge_cases 0 num); [done|]. exfalso.
      assert (num / base <= 0) by (apply Z.div_le_upper_bound; lia).
      assert (num / base / base ^ Z.of_nat k <= 0); [|lia].
      apply Z.div_le_upper_bound; [lia|]. lia. }
    exists (es ++ [num mod base]). split; [rewrite length_app; simpl; lia|]. split.
    + apply Forall_app. split; [done|]. apply Forall_singleton, Z.mod_pos_bound. lia.
    + rewrite to_digits_step, He, app_assoc by done. done.
Qed.
End digits.

(** Leading zeros of a digit string, and the rest. *)
Fixpoint leading_zeros (l : list Z) : nat :=
  match l with
  | x :: l => if x =? 0 then S (leading_zeros l) else O
  | [] => O
  end.

Lemma leading_zeros_split l :
  ∃ r, l = replicate (leading_zeros l) 0 ++ r ∧ (∀ d k, r = d :: k → d ≠ 0).
Proof.
  induction l as [|x l (r & IH & Hr)]; [by exists []|]. simpl.
  destruct (Z.eqb_spec x 0) as [->|].
  - exists r. simpl. rewrite <- IH. done.
  - exists (x :: l). split; [done|]. by intros d k [= -> ->].
Qed.

Lemma leading_zeros_app n r :
  (∀ d k, r = d :: k → d ≠ 0) → leading_zeros (replicate n 0 ++ r) = n.
Proof.
  intros Hr. induction n as [|n IH]; simpl; [|by rewrite IH].
  destruct r as [|d r]; [done|]. simpl. specialize (Hr d r eq_refl).
  by destruct (Z.eqb_spec d 0).
Qed.

(** ** Lists *)

Lemma Forall_js_slice {A} (P : A → Prop) l s e : Forall P l → Forall P (js_slice l s e).
Proof. intros. unfold js_slice. by apply Forall_take, Forall_drop. Qed.

Definition sum_Z (l : list Z) : Z := foldr Z.add 0 l.

Lemma sum_Z_app l k : sum_Z (l ++ k) = sum_Z l + sum_Z k.
Proof. unfold sum_Z. induction l as [|x l IH]; cbn [foldr Datatypes.app]; lia. Qed.
Lemma sum_Z_cons x l : sum_Z (x :: l) = x + sum_Z l.
Proof. done. Qed.

Lemma foldl_sum_Z {A} (f : A → Z) (l : list A) z : foldl (λ t x, t + f x) z l = z + sum_Z (f <$> l).
Proof. revert z. induction l as [|x l IH]; intros z; cbn [foldl fmap list_fmap]; [unfold sum_Z; cbn; lia|rewrite IH, sum_Z_cons; lia]. Qed.

(** ** Little-endian integers *)

(** The low [n] bytes of [z], least significant first: what
    [DataView.setUint16/32] and [setBigUint64] write in little-endian mode. *)
Fixpoint le_bytes (n : nat) (z : Z) : bytes :=
  match n with O => [] | S n => z mod 256 :: le_bytes n (z / 256) end.

Fixpoint le_value (b : bytes) : Z :=
  match b with [] => 0 | x :: b => x + 256 * le_value b end.

Lemma le_bytes_length n z : length (le_bytes n z) = n.
Proof. revert z. induction n as [|n IH]; intros z; simpl; [done|]. by rewrite IH. Qed.

Lemma le_bytes_bytes n z : all_bytes (le_bytes n z).
Proof.
  revert z. induction n as [|n IH]; intros z; simpl; [apply all_bytes_nil|].
  apply all_bytes_cons. split; [apply Z.mod_pos_bound; lia|apply IH].
Qed.

Lemma le_value_bytes n z : le_value (le_bytes n z) = z mod 256 ^ Z.of_nat n.
Proof.
  revert z. induction n as [|n IH]; intros z; [simpl; by rewrite Z.mod_1_r|].
  cbn [le_bytes le_value]. rewrite IH, Nat2Z.inj_succ, Z.pow_succ_r by lia.
  rewrite Z.rem_mul_r by lia. lia.
Qed.

Lemma le_value_small n z : 0 <= z < 256 ^ Z.of_nat n → le_value (le_bytes n z) = z.
Proof. intros. rewrite le_value_bytes. by apply Z.mod_small. Qed.

#[export] Hint Resolve le_bytes_bytes : bytes.

Lemma fmap_rev {A B} (f : A → B) (l : list A) : f <$> rev l = rev (f <$> l).
Proof. induction l as [|x l IH]; [done|]. cbn [rev]. by rewrite fmap_app, IH. Qed.

Lemma filter_all {A} (P : A → Prop) `{∀ x, Decision (P x)} (l : list A) :
  (∀ x, x ∈ l → P x) → filter P l = l.
Proof.
  induction l as [|x l IH]; intros Hl; [done|]. rewrite filter_cons, decide_True by (apply Hl; constructor).
  f_equal. apply IH. intros y Hy. apply Hl. by constructor.
Qed.
