(* ===== verification/JsString.v ===== *)
(** * Strings as the JavaScript sources use them

    A JavaScript string is modelled by the [string] of its UTF-8 bytes, so that
    [TextEncoder.encode] and [TextDecoder.decode] are the identity on bytes and
    every operation below agrees with the language on ASCII text, which is all
    the addresses, hex, base58, bech32 and base64 strings of the wallet contain.
    [js_length] counts UTF-16 code units for any text.  White space is ASCII
    white space. *)

From S2P Require Import Prelude.

(** ** Characters *)

Abbreviation chars := String.list_ascii_of_string.
Abbreviation of_chars := String.string_of_list_ascii.

(** [s.charCodeAt(0)] and [String.fromCharCode]. *)
Definition code (c : ascii) : Z := Z.of_N (N_of_ascii c).
Definition chr (z : Z) : ascii := ascii_of_N (Z.to_N z).

Definition is_space (c : ascii) : bool :=
  let n := code c in (n =? 32) || ((9 <=? n) && (n <=? 13)).

Definition lower_char (c : ascii) : ascii :=
  let n := code c in if (65 <=? n) && (n <=? 90) then chr (n + 32) else c.

(** The value of a digit or letter in [parseInt], at most 35. *)
Definition digit_val (c : ascii) : option Z :=
  let n := code c in
  if (48 <=? n) && (n <=? 57) then Some (n - 48)
  else if (97 <=? n) && (n <=? 122) then Some (n - 87)
  else if (65 <=? n) && (n <=? 90) then Some (n - 55)
  else None.

(** The digit [d] as [toString(radix)] writes it. *)
Definition digit_char (d : Z) : ascii := chr (if d <? 10 then d + 48 else d + 87).

(** ** Operations on strings *)

(** [s.length]: UTF-16 code units.  Continuation bytes count nothing, the lead
    byte of a four-byte sequence counts two (a surrogate pair). *)
Definition js_length (s : string) : Z :=
  foldr (λ c n, (if (128 <=? code c) && (code c <? 192) then 0
                 else if 240 <=? code c then 2 else 1) + n) 0 (chars s).

Fixpoint drop_spaces (l : list ascii) : list ascii :=
  match l with
  | c :: l' => if is_space c then drop_spaces l' else l
  | [] => []
  end.

(** [s.trim()] *)
Definition js_trim (s : string) : string :=
  of_chars (reverse (drop_spaces (reverse (drop_spaces (chars s))))).

(** [s.toLowerCase()] *)
Definition js_lower (s : string) : string := of_chars (lower_char <$> chars s).

Fixpoint is_prefix (p l : list ascii) : bool :=
  match p, l with
  | [], _ => true
  | a :: p, b :: l => Ascii.eqb a b && is_prefix p l
  | _ :: _, [] => false
  end.

(** [s.startsWith(p)] *)
Definition js_starts_with (s p : string) : bool := is_prefix (chars p) (chars s).

Fixpoint includes_chars (needle l : list ascii) : bool :=
  is_prefix needle l || match l with [] => false | _ :: l => includes_chars needle l end.

(** [s.includes(needle)] *)
Definition js_includes (s needle : string) : bool :=
  includes_chars (chars needle) (chars s).

(** [alphabet.indexOf(c)] for a single character, [-1] when it is absent. *)
Fixpoint index_of (c : ascii) (l : list ascii) : Z :=
  match l with
  | [] => -1
  | a :: l => if Ascii.eqb a c then 0 else let i := index_of c l in if i <? 0 then -1 else i + 1
  end.

(** [s.split(sep)] for a one-character separator. *)
Fixpoint split_chars (sep : ascii) (l : list ascii) : list (list ascii) :=
  match l with
  | [] => [[]]
  | c :: l =>
      if Ascii.eqb c sep then [] :: split_chars sep l
      else match split_chars sep l with
           | [] => [[c]]
           | w :: ws => (c :: w) :: ws
           end
  end.
Definition js_split (sep : ascii) (s : string) : list string :=
  of_chars <$> split_chars sep (chars s).

(** [xs.join(sep)] *)
Fixpoint js_join (sep : string) (l : list string) : string :=
  match l with
  | [] => ""
  | [x] => x
  | x :: l => x +:+ sep +:+ js_join sep l
  end.

(** [s.slice(a, b)] and [s.slice(a)] on ASCII text. *)
Definition str_slice (s : string) (a b : Z) : string := of_chars (js_slice (chars s) a b).
Definition str_slice_from (s : string) (a : Z) : string := of_chars (js_slice_from (chars s) a).

(** [s.substr(start, len)] for non-negative arguments. *)
Definition js_substr (l : list ascii) (start len : nat) : list ascii := take len (drop start l).

(** [s.padStart(n, c)] *)
Definition pad_start (n : nat) (c : ascii) (l : list ascii) : list ascii :=
  replicate (n - length l) c ++ l.

(** [s.repeat(n)] *)
Fixpoint js_repeat (s : string) (n : nat) : string :=
  match n with O => "" | S n => s +:+ js_repeat s n end.

(** [s.replace(/c/g, t)] for one character [c]. *)
Definition replace_char (c : ascii) (t : string) (s : string) : string :=
  of_chars (mjoin ((λ a, if Ascii.eqb a c then chars t else [a]) <$> chars s)).

(** Markup is written with single quotes for its double ones. *)
Definition dq (s : string) : string := replace_char "'" (of_chars [chr 34]) s.

(** ** Numbers in text *)

(** [n.toString(radix)] for an integer. *)
Definition digits_string (radix n : Z) : list ascii :=
  if n =? 0 then ["0"%char] else digit_char <$> to_digits radix n.
Definition int_to_string (radix n : Z) : string :=
  if n <? 0 then "-" +:+ of_chars (digits_string radix (- n))
  else of_chars (digits_string radix n).

(** [`${n}`] for a BigInt or an integer below 1e21. *)
Definition show (n : Z) : string := int_to_string 10 n.

(** The longest prefix of digits below [radix]. *)
Fixpoint take_digits (radix : Z) (l : list ascii) : list Z :=
  match l with
  | c :: l' => match digit_val c with
               | Some d => if d <? radix then d :: take_digits radix l' else []
               | None => []
               end
  | [] => []
  end.

(** A leading sign: whether it is negative, and the rest. *)
Definition split_sign (l : list ascii) : bool * list ascii :=
  match l with
  | c :: l' => if Ascii.eqb c "-" then (true, l') else if Ascii.eqb c "+" then (false, l') else (false, l)
  | [] => (false, [])
  end.

(** The [0x] prefix that radix 16 accepts. *)
Definition drop_0x (radix : Z) (l : list ascii) : list ascii :=
  match l with
  | a :: b :: l' =>
      if (radix =? 16) && Ascii.eqb a "0" && Ascii.eqb (lower_char b) "x" then l' else l
  | _ => l
  end.

(** [parseInt(s, radix)] before rounding to a double; [None] is [NaN]. *)
Definition parse_int (radix : Z) (l : list ascii) : option Z :=
  let '(neg, l) := split_sign (drop_spaces l) in
  match take_digits radix (drop_0x radix l) with
  | [] => None
  | ds => Some (if neg then - of_digits radix ds else of_digits radix ds)
  end.

(** ** Lemmas *)

Lemma chars_of_chars l : chars (of_chars l) = l.
Proof. apply String.list_ascii_of_string_of_list_ascii. Qed.

Lemma of_chars_chars s : of_chars (chars s) = s.
Proof. apply String.string_of_list_ascii_of_string. Qed.

Lemma chars_app s t : chars (s +:+ t) = chars s ++ chars t.
Proof.
  induction s as [|c s IH]; [done|].
  change (chars (String c s +:+ t)) with (c :: chars (s +:+ t)). by rewrite IH.
Qed.

Lemma of_chars_app l k : of_chars (l ++ k) = of_chars l +:+ of_chars k.
Proof.
  induction l as [|c l IH]; [done|].
  change (of_chars ((c :: l) ++ k)) with (String c (of_chars (l ++ k))). by rewrite IH.
Qed.

Lemma chars_inj s t : chars s = chars t → s = t.
Proof. intros H. by rewrite <- (of_chars_chars s), H, of_chars_chars. Qed.

Lemma of_chars_inj l k : of_chars l = of_chars k → l = k.
Proof. intros H. by rewrite <- (chars_of_chars l), H, chars_of_chars. Qed.

Lemma str_app_assoc s t u : s +:+ (t +:+ u) = (s +:+ t) +:+ u.
Proof. apply chars_inj. by rewrite !chars_app, (assoc (++)). Qed.

Lemma str_app_nil_r s : s +:+ "" = s.
Proof. apply chars_inj. rewrite chars_app. apply app_nil_r. Qed.

Create Rewrite HintDb chars.
#[export] Hint Rewrite chars_of_chars of_chars_chars chars_app : chars.

Lemma code_range c : 0 <= code c < 256.
Proof. destruct c as [[] [] [] [] [] [] [] []]; vm_compute; split; congruence. Qed.

Lemma chr_code c : chr (code c) = c.
Proof. unfold chr, code. rewrite N2Z.id. apply ascii_N_embedding. Qed.

Lemma code_chr z : 0 <= z < 256 → code (chr z) = z.
Proof.
  intros. unfold chr, code. rewrite N_ascii_embedding by lia. lia.
Qed.

Lemma code_inj c d : code c = code d → c = d.
Proof. intros H. by rewrite <- (chr_code c), H, chr_code. Qed.

Lemma is_prefix_app p l : is_prefix p (p ++ l) = true.
Proof. induction p as [|a p IH]; [done|]. simpl. by rewrite Ascii.eqb_refl. Qed.

Lemma is_prefix_spec p l : is_prefix p l = true ↔ ∃ k, l = p ++ k.
Proof.
  split; [|intros [k ->]; apply is_prefix_app].
  revert l. induction p as [|a p IH]; intros l; [by eexists|].
  destruct l as [|b l]; [done|]. simpl. intros [H1 H2]%andb_prop.
  apply Ascii.eqb_eq in H1 as ->. apply IH in H2 as [k ->]. by exists k.
Qed.

Lemma includes_chars_spec n l :
  includes_chars n l = true ↔ ∃ p k, l = p ++ n ++ k.
Proof.
  split.
  - induction l as [|a l IH]; simpl.
    + rewrite orb_false_r. intros [k Hk]%is_prefix_spec. by exists [], k.
    + intros [[k ->]%is_prefix_spec|(p & k & ->)%IH]%orb_prop; [by exists [], k|].
      by exists (a :: p), k.
  - intros (p & k & ->). induction p as [|a p IH]; simpl.
    + destruct (n ++ k) as [|b m] eqn:E; simpl; rewrite <- E, is_prefix_app; done.
    + by rewrite IH, orb_true_r.
Qed.

Lemma index_of_range c l : -1 <= index_of c l < Z.of_nat (length l).
Proof.
  induction l as [|a l IH]; simpl; [lia|]. case_if; [lia|].
  destruct (Z.ltb_spec (index_of c l) 0); lia.
Qed.

(** Looking up the index found gives the character back. *)
Lemma index_of_lookup c l : 0 <= index_of c l → l !! Z.to_nat (index_of c l) = Some c.
Proof.
  induction l as [|a l IH]; simpl; [lia|].
  destruct (Ascii.eqb_spec a c) as [->|]; [done|].
  destruct (Z.ltb_spec (index_of c l) 0); [lia|]. intros _.
  replace (Z.to_nat (index_of c l + 1)) with (S (Z.to_nat (index_of c l))) by lia.
  by apply IH.
Qed.

(** In an alphabet without repetitions every character has its own index. *)
Lemma index_of_nodup c l i :
  NoDup l → l !! i = Some c → index_of c l = Z.of_nat i.
Proof.
  revert i. induction l as [|a l IH]; intros i Hnd Hi; [done|].
  apply list.NoDup_cons in Hnd as [Ha Hnd]. destruct i as [|i]; simpl in *.
  - injection Hi as ->. by rewrite Ascii.eqb_refl.
  - destruct (Ascii.eqb_spec a c) as [->|].
    + exfalso. apply Ha. by eapply list_elem_of_lookup_2.
    + rewrite (IH i) by done. destruct (Z.ltb_spec (Z.of_nat i) 0); lia.
Qed.

Lemma split_chars_app sep p l :
  sep ∉ p → split_chars sep (p ++ sep :: l) = p :: split_chars sep l.
Proof.
  induction p as [|c p IH]; simpl; intros Hp.
  - by rewrite Ascii.eqb_refl.
  - destruct (Ascii.eqb_spec c sep) as [->|]; [set_solver|].
    rewrite IH by set_solver. done.
Qed.

Lemma split_chars_none sep l : sep ∉ l → split_chars sep l = [l].
Proof.
  induction l as [|c l IH]; simpl; intros Hp; [done|].
  destruct (Ascii.eqb_spec c sep) as [->|]; [set_solver|].
  rewrite IH by set_solver. done.
Qed.

Lemma digit_val_char d : 0 <= d < 36 → digit_val (digit_char d) = Some d.
Proof.
  intros. unfold digit_val, digit_char.
  destruct (Z.ltb_spec d 10); rewrite code_chr by lia;
    repeat case_if; try (f_equal; lia); lia.
Qed.

Lemma take_digits_app radix ds l :
  radix <= 36 → Forall (is_digit radix) ds →
  take_digits radix ((digit_char <$> ds) ++ l) = ds ++ take_digits radix l.
Proof.
  intros Hr. induction 1 as [|d ds Hd _ IH]; [done|].
  unfold is_digit in Hd. cbn [fmap list_fmap app take_digits].
  rewrite digit_val_char by lia. destruct (Z.ltb_spec d radix); [|lia]. by rewrite IH.
Qed.

Lemma digit_char_space d : 0 <= d < 36 → is_space (digit_char d) = false.
Proof.
  intros. unfold is_space, digit_char.
  destruct (Z.ltb_spec d 10); rewrite code_chr by lia; lia.
Qed.

Lemma digit_char_sign d : 0 <= d < 36 → digit_char d ≠ "-"%char ∧ digit_char d ≠ "+"%char.
Proof.
  intros H. split; intros E; apply (f_equal code) in E; unfold digit_char in E;
    revert E; destruct (Z.ltb_spec d 10); rewrite code_chr by lia; vm_compute (code _); lia.
Qed.

(** Decimal output is read back by [parseInt(s, 10)]. *)
Lemma parse_int_digits n :
  0 <= n → parse_int 10 (digits_string 10 n) = Some n.
Proof.
  intros Hn. unfold digits_string. destruct (Z.eqb_spec n 0) as [->|Hne]; [done|].
  pose proof (to_digits_digits 10 ltac:(lia) n) as Hds.
  pose proof (of_to_digits 10 ltac:(lia) n Hn) as Hv.
  destruct (to_digits 10 n) as [|d ds] eqn:E; [cbn in Hv; lia|].
  unfold parse_int. pose proof Hds as Hds'. apply Forall_cons_iff in Hds' as [Hd _].
  unfold is_digit in Hd. cbn [fmap list_fmap drop_spaces].
  rewrite digit_char_space by lia. unfold split_sign.
  destruct (digit_char_sign d ltac:(lia)) as [H1 H2].
  destruct (Ascii.eqb_spec (digit_char d) "-"); [done|].
  destruct (Ascii.eqb_spec (digit_char d) "+"); [done|].
  assert (Hx : ∀ l, drop_0x 10 l = l) by (intros [|? [|? ?]]; done). rewrite Hx.
  pose proof (take_digits_app 10 (d :: ds) [] ltac:(lia) Hds) as Ht.
  rewrite !app_nil_r in Ht. cbn [fmap list_fmap] in Ht. rewrite Ht. by rewrite Hv.
Qed.

(** The decimal digits of a non-negative integer. *)
Lemma digits_string_spec n :
  0 <= n → ∃ ds, digits_string 10 n = digit_char <$> ds ∧ Forall (is_digit 10) ds ∧
    of_digits 10 ds = n ∧ ds ≠ [].
Proof.
  intros Hn. unfold digits_string. destruct (Z.eqb_spec n 0) as [->|Hne].
  - exists [0]. split; [done|]. split; [|done]. apply Forall_singleton. unfold is_digit. lia.
  - exists (to_digits 10 n). split; [done|]. split; [apply to_digits_digits; lia|].
    pose proof (of_to_digits 10 ltac:(lia) n Hn) as Hv. split; [done|].
    intros E. rewrite E in Hv. cbn in Hv. lia.
Qed.

(** [n.toString().padStart(k, "0")] has exactly [k] digits when [n] fits. *)
Lemma pad_digits_spec n k :
  0 <= n < 10 ^ Z.of_nat k → (0 < k)%nat →
  ∃ ds, pad_start k "0" (digits_string 10 n) = digit_char <$> ds ∧ Forall (is_digit 10) ds ∧
    of_digits 10 ds = n ∧ length ds = k.
Proof.
  intros [Hn Hk] Hk0. unfold digits_string, pad_start.
  destruct (Z.eqb_spec n 0) as [->|Hne].
  - exists (replicate k 0). split_and!.
    + rewrite fmap_replicate. cbn [length]. destruct k; [lia|].
      replace (S k - 1)%nat with k by lia. rewrite replicate_S_end. done.
    + apply Forall_replicate. unfold is_digit. lia.
    + rewrite <- (app_nil_r (replicate k 0)). apply of_digits_zeros.
    + apply length_replicate.
  - set (ds := to_digits 10 n).
    assert (Hlen : (length ds <= k)%nat).
    { pose proof (of_to_digits 10 ltac:(lia) n Hn) as Hv. fold ds in Hv.
      destruct ds as [|d tl] eqn:E; [simpl; lia|].
      pose proof (to_digits_head 10 ltac:(lia) n d tl Hn E). pose proof (to_digits_digits 10 ltac:(lia) n) as Hd.
      fold ds in Hd. rewrite E in Hd. apply Forall_cons_iff in Hd as [Hd Ht]. unfold is_digit in Hd.
      rewrite of_digits_cons in Hv. pose proof (of_digits_bound 10 ltac:(lia) tl Ht).
      cbn [length]. destruct (decide (k <= length tl)%nat); [|lia].
      assert (10 ^ Z.of_nat k <= 10 ^ Z.of_nat (length tl)) by (apply Z.pow_le_mono_r; lia). nia. }
    exists (replicate (k - length ds) 0 ++ ds). split_and!.
    + rewrite fmap_app, fmap_replicate, length_fmap. done.
    + apply Forall_app. split; [apply Forall_replicate; unfold is_digit; lia|].
      apply to_digits_digits. lia.
    + rewrite of_digits_zeros. by apply of_to_digits.
    + rewrite length_app, length_replicate. lia.
Qed.

(** Text without a character [trim] would remove. *)
Lemma drop_spaces_plain l : (∀ c, c ∈ l → is_space c = false) → drop_spaces l = l.
Proof. destruct l as [|c l]; intros H; [done|]. cbn. by rewrite (H c) by constructor. Qed.

Lemma trim_plain s : (∀ c, c ∈ chars s → is_space c = false) → js_trim s = s.
Proof.
  intros H. unfold js_trim. rewrite (drop_spaces_plain (chars s)) by done.
  rewrite (drop_spaces_plain (reverse (chars s))), reverse_involutive; [apply of_chars_chars|].
  intros c. rewrite elem_of_reverse. apply H.
Qed.
