(* ===== verification/JsNum.v ===== *)
(** * JavaScript numbers

    An IEEE 754 double is [NaN], an infinity, or a dyadic rational [m * 2^e].
    [rnd] rounds a fraction to the nearest double, ties to even, with the
    exponent range of binary64; [parseFloat], [*], [Math.round], [Number(bigint)]
    and [BigInt(number)] are defined from it.  BigInts and integer-valued
    numbers below 2^53 are plain integers.  The sign of zero is not kept: the
    sources never observe it. *)

From S2P Require Import Prelude JsString.

Inductive num :=
  | NaN
  | Inf (neg : bool)
  | Fin (m e : Z).

(** ** Rounding *)

(** Nearest integer to [a / b], ties to even, for [b > 0]. *)
Definition rne (a b : Z) : Z :=
  let d := a / b in let r := a mod b in
  if 2 * r <? b then d else if b <? 2 * r then d + 1 else if Z.even d then d else d + 1.

(** [2^k <= p / q] *)
Definition ratio_ge (p q k : Z) : bool :=
  if 0 <=? k then q * 2 ^ k <=? p else q <=? p * 2 ^ (- k).

(** The exponent of the leading bit of [p / q]. *)
Definition ratio_log2 (p q : Z) : Z :=
  let k := Z.log2 p - Z.log2 q in if ratio_ge p q k then k else k - 1.

(** The exponent of the last bit a double keeps at that magnitude. *)
Definition fexp (k : Z) : Z := Z.max (k - 52) (-1074).

(** [p / q / 2^e] as a fraction, rounded. *)
Definition mantissa (p q e : Z) : Z :=
  if 0 <=? e then rne p (q * 2 ^ e) else rne (p * 2 ^ (- e)) q.

(** The double nearest to [p / q] for [0 < p] and [0 < q]. *)
Definition rnd_pos (neg : bool) (p q : Z) : num :=
  let e := fexp (ratio_log2 p q) in
  let m := mantissa p q e in
  if (0 <=? e) && (2 ^ 1024 <=? m * 2 ^ e) then Inf neg
  else Fin (if neg then - m else m) e.

Definition rnd (p q : Z) : num :=
  if p =? 0 then Fin 0 0 else rnd_pos (p <? 0) (Z.abs p) q.

(** ** Operations *)

(** [Number(z)] for a BigInt. *)
Definition num_of_Z (z : Z) : num := rnd z 1.

(** [Number(z)] as an integer: what is left of [z] after rounding to 53
    significant bits.  Exact up to 2^53 in absolute value. *)
Definition to_number (z : Z) : Z :=
  match num_of_Z z with Fin m e => if 0 <=? e then m * 2 ^ e else m / 2 ^ (- e) | _ => z end.

Definition num_mul (x y : num) : num :=
  match x, y with
  | Fin m1 e1, Fin m2 e2 =>
      if 0 <=? e1 + e2 then rnd (m1 * m2 * 2 ^ (e1 + e2)) 1 else rnd (m1 * m2) (2 ^ (- (e1 + e2)))
  | NaN, _ | _, NaN => NaN
  | Inf s, Fin m _ | Fin m _, Inf s => if m =? 0 then NaN else Inf (xorb s (m <? 0))
  | Inf s, Inf t => Inf (xorb s t)
  end.

(** [!x] for a number: zero and NaN are falsy. *)
Definition num_falsy (x : num) : bool :=
  match x with NaN => true | Fin m _ => m =? 0 | Inf _ => false end.

(** [x <= 0] and [x > 0]; comparisons with NaN are false. *)
Definition num_le0 (x : num) : bool :=
  match x with NaN => false | Fin m _ => m <=? 0 | Inf neg => neg end.
Definition num_gt0 (x : num) : bool :=
  match x with NaN => false | Fin m _ => 0 <? m | Inf neg => negb neg end.

(** [Math.round(x)]: the nearest integer, halves upwards. *)
Definition num_round (x : num) : num :=
  match x with
  | Fin m e => if 0 <=? e then x else Fin ((m + 2 ^ (- e - 1)) / 2 ^ (- e)) 0
  | _ => x
  end.

(** [BigInt(x)]: exact on integers, a RangeError otherwise. *)
Definition num_to_bigint (x : num) : result Z :=
  match x with
  | Fin m e =>
      if 0 <=? e then Ok (m * 2 ^ e)
      else if m mod 2 ^ (- e) =? 0 then Ok (m / 2 ^ (- e))
      else Throw (ExRange "The number cannot be converted to a BigInt because it is not an integer")
  | _ => Throw (ExRange "The number cannot be converted to a BigInt because it is not an integer")
  end.

(** ** [parseFloat] *)

(** The exponent part, 0 when there is none. *)
Definition parse_exponent (l : list ascii) : Z :=
  match l with
  | c :: l =>
      if Ascii.eqb (lower_char c) "e" then
        let '(neg, l) := split_sign l in
        match take_digits 10 l with
        | [] => 0
        | ds => if neg then - of_digits 10 ds else of_digits 10 ds
        end
      else 0
  | [] => 0
  end.

(** [digits * 10^k] as a double. *)
Definition decimal (digits k : Z) : num :=
  if 0 <=? k then rnd (digits * 10 ^ k) 1 else rnd digits (10 ^ (- k)).

(** The unsigned literal: digits, an optional fraction, an optional exponent. *)
Definition parse_unsigned (l : list ascii) : num :=
  let ds := take_digits 10 l in
  let rest := drop (length ds) l in
  let '(fs, rest) :=
    match rest with
    | c :: r => if Ascii.eqb c "." then let fs := take_digits 10 r in (fs, drop (length fs) r) else ([], rest)
    | [] => ([], [])
    end in
  match ds ++ fs with
  | [] => if is_prefix (chars "Infinity") l then Inf false else NaN
  | all => decimal (of_digits 10 all) (parse_exponent rest - Z.of_nat (length fs))
  end.

Definition num_opp (x : num) : num :=
  match x with NaN => NaN | Inf s => Inf (negb s) | Fin m e => Fin (- m) e end.

Definition parseFloat (s : string) : num :=
  let '(neg, l) := split_sign (drop_spaces (chars s)) in
  let x := parse_unsigned l in if neg then num_opp x else x.

(** [BigInt(Math.round(x * 1e8))], how every screen turns CAC into satoshis. *)
Definition to_satoshis (x : num) : result Z :=
  num_to_bigint (num_round (num_mul x (Fin 100000000 0))).

(** ** Numbers in text *)

(** Equality of the values of two finite numbers. *)
Definition num_eqb (x y : num) : bool :=
  match x, y with
  | Fin m1 e1, Fin m2 e2 => m1 * 2 ^ Z.max (e1 - e2) 0 =? m2 * 2 ^ Z.max (e2 - e1) 0
  | Inf a, Inf b => Bool.eqb a b
  | _, _ => false
  end.

(** The integer a number holds, if it holds one. *)
Definition num_int (x : num) : option Z :=
  match num_to_bigint x with Ok z => Some z | Throw _ => None end.

(** The fraction behind a finite number. *)
Definition num_ratio (m e : Z) : Z * Z := if 0 <=? e then (m * 2 ^ e, 1) else (m, 2 ^ (- e)).

(** [n] with [10^(n-1) <= p/q < 10^n]. *)
Fixpoint dec_exp_up (fuel : nat) (p q n : Z) : Z :=
  match fuel with O => n | S fuel => if p <? q then n else dec_exp_up fuel p (q * 10) (n + 1) end.
Fixpoint dec_exp_down (fuel : nat) (p q n : Z) : Z :=
  match fuel with O => n | S fuel => if q <=? p * 10 then n else dec_exp_down fuel (p * 10) q (n - 1) end.
Definition dec_exp (p q : Z) : Z :=
  if q <=? p then dec_exp_up 400 p q 0 else dec_exp_down 400 p q 0.

(** [k] digits [s] with [s * 10^(n-k)] nearest to [p/q] among those that round
    to [x], if there are any. *)
Definition scale10 (s d : Z) : Z * Z := if 0 <=? d then (s * 10 ^ d, 1) else (s, 10 ^ (- d)).
Definition shortest_at (x : num) (p q n k : Z) : option Z :=
  let '(a, b) := if 0 <=? n - k then (p, q * 10 ^ (n - k)) else (p * 10 ^ (k - n), q) in
  let s0 := a / b in
  let ok s := (10 ^ (k - 1) <=? s) && (s <=? 10 ^ k) && let '(u, v) := scale10 s (n - k) in num_eqb (rnd u v) x in
  let closer := if 2 * (a mod b) <=? b then [s0; s0 + 1] else [s0 + 1; s0] in
  find (λ s, ok s) closer.
Fixpoint shortest (fuel : nat) (x : num) (p q n k : Z) : Z * Z * Z :=
  match fuel with
  | O => (p / q, k, n)
  | S fuel =>
      match shortest_at x p q n k with
      | Some s => if s =? 10 ^ k then (10 ^ (k - 1), k, n + 1) else (s, k, n)
      | None => shortest fuel x p q n (k + 1)
      end
  end.

Definition zeros (n : Z) : string := js_repeat "0" (Z.to_nat n).

(** The digits [s] and the exponent laid out as the language does. *)
Definition fin_to_string (m e : Z) : string :=
  let sign := if m <? 0 then "-" else "" in
  let '(p, q) := num_ratio (Z.abs m) e in
  let '(s, k, n) := shortest 17 (Fin (Z.abs m) e) p q (dec_exp p q) 1 in
  let ds := show s in
  sign +:+
  (if (k <=? n) && (n <=? 21) then ds +:+ zeros (n - k)
   else if (0 <? n) && (n <=? 21) then str_slice ds 0 n +:+ "." +:+ str_slice_from ds n
   else if (-6 <? n) && (n <=? 0) then "0." +:+ zeros (- n) +:+ ds
   else
     let ex := (if n - 1 <? 0 then "e-" else "e+") +:+ show (Z.abs (n - 1)) in
     if k =? 1 then ds +:+ ex else str_slice ds 0 1 +:+ "." +:+ str_slice_from ds 1 +:+ ex).

(** [`${x}`] for a number; integers up to 2^53 are their digits. *)
Definition num_to_string (x : num) : string :=
  match x with
  | NaN => "NaN"
  | Inf neg => if neg then "-Infinity" else "Infinity"
  | Fin m e =>
      match num_int x with
      | Some z => if Z.abs z <=? 2 ^ 53 then show z else fin_to_string m e
      | None => fin_to_string m e
      end
  end.

(** [x.toFixed(f)] for a finite number below 1e21. *)
Definition to_fixed (f : nat) (x : num) : string :=
  match x with
  | Fin m e =>
      let '(p, q) := num_ratio (Z.abs m) e in
      let n := (2 * p * 10 ^ Z.of_nat f + q) / (2 * q) in
      let l := pad_start (S f) "0" (chars (show n)) in
      let cut := (length l - f)%nat in
      (if m <? 0 then "-" else "") +:+ of_chars (take cut l) +:+
      (if (f =? 0)%nat then "" else "." +:+ of_chars (drop cut l))
  | _ => num_to_string x
  end.

(** ** Lemmas *)

Lemma rne_error a b : 0 < b → - b <= 2 * (rne a b * b - a) <= b.
Proof.
  intros Hb. unfold rne. pose proof (Z.div_mod a b). pose proof (Z.mod_pos_bound a b Hb).
  destruct (Z.ltb_spec (2 * (a mod b)) b); [nia|].
  destruct (Z.ltb_spec b (2 * (a mod b))); [nia|].
  destruct (Z.even (a / b)); nia.
Qed.

Lemma rne_exact a b : 0 < b → rne (a * b) b = a.
Proof.
  intros Hb. unfold rne. rewrite Z.div_mul, Z.mod_mul by lia.
  destruct (Z.ltb_spec (2 * 0) b); [done|lia].
Qed.

Lemma rne_1 a : rne a 1 = a.
Proof. rewrite <- (Z.mul_1_r a) at 1. by apply rne_exact. Qed.

Lemma rne_nonneg a b : 0 <= a → 0 < b → 0 <= rne a b.
Proof.
  intros. unfold rne. assert (0 <= a / b) by (apply Z.div_pos; lia). repeat case_if; lia.
Qed.

(** The exponent found brackets the fraction. *)
Lemma ratio_log2_spec p q :
  0 < p → 0 < q → ratio_ge p q (ratio_log2 p q) = true ∧ ratio_ge p q (ratio_log2 p q + 1) = false.
Proof.
  intros Hp Hq. unfold ratio_log2. set (k := Z.log2 p - Z.log2 q).
  pose proof (Z.log2_spec p Hp) as [Hp1 Hp2]. pose proof (Z.log2_spec q Hq) as [Hq1 Hq2].
  pose proof (Z.log2_nonneg p). pose proof (Z.log2_nonneg q).
  rewrite Z.pow_succ_r in Hp2, Hq2 by lia.
  assert (Hlo : ratio_ge p q (k - 1) = true).
  { unfold ratio_ge. destruct (Z.leb_spec 0 (k - 1)).
    - assert (E : 2 ^ Z.log2 p = 2 ^ Z.log2 q * 2 * 2 ^ (k - 1)).
      { change 2 with (2 ^ 1) at 3. rewrite <- !Z.pow_add_r by lia. f_equal. lia. }
      assert (0 < 2 ^ (k - 1)) by (apply Z.pow_pos_nonneg; lia). apply Z.leb_le. nia.
    - assert (E : 2 ^ Z.log2 q * 2 = 2 ^ Z.log2 p * 2 ^ (- (k - 1))).
      { change 2 with (2 ^ 1) at 2. rewrite <- !Z.pow_add_r by lia. f_equal. lia. }
      assert (0 < 2 ^ (- (k - 1))) by (apply Z.pow_pos_nonneg; lia). apply Z.leb_le. nia. }
  assert (Hhi : ratio_ge p q (k + 1) = false).
  { unfold ratio_ge. destruct (Z.leb_spec 0 (k + 1)).
    - assert (E : 2 ^ Z.log2 p * 2 = 2 ^ Z.log2 q * 2 ^ (k + 1)).
      { change 2 with (2 ^ 1) at 2. rewrite <- !Z.pow_add_r by lia. f_equal. lia. }
      assert (0 < 2 ^ (k + 1)) by (apply Z.pow_pos_nonneg; lia). apply Z.leb_gt. nia.
    - assert (E : 2 ^ Z.log2 q = 2 ^ Z.log2 p * 2 * 2 ^ (- (k + 1))).
      { change 2 with (2 ^ 1) at 3. rewrite <- !Z.pow_add_r by lia. f_equal. lia. }
      assert (0 < 2 ^ (- (k + 1))) by (apply Z.pow_pos_nonneg; lia). apply Z.leb_gt. nia. }
  destruct (ratio_ge p q k) eqn:E; [done|]. replace (k - 1 + 1) with k by lia. done.
Qed.

Lemma ratio_ge_true p q k :
  0 <= k → ratio_ge p q k = true ↔ q * 2 ^ k <= p.
Proof. intros. unfold ratio_ge. destruct (Z.leb_spec 0 k); [|lia]. apply Z.leb_le. Qed.

Lemma ratio_ge_neg p q k :
  k <= 0 → ratio_ge p q k = true ↔ q <= p * 2 ^ (- k).
Proof.
  intros. unfold ratio_ge. destruct (Z.leb_spec 0 k); [|apply Z.leb_le].
  replace k with 0 by lia. simpl. rewrite !Z.mul_1_r. apply Z.leb_le.
Qed.

(** Larger powers are harder to reach. *)
Lemma ratio_ge_mono p q j k :
  0 < p → 0 < q → j <= k → ratio_ge p q k = true → ratio_ge p q j = true.
Proof.
  intros Hp Hq Hjk. destruct (Z.lt_ge_cases k 0).
  - rewrite !ratio_ge_neg by lia. intros.
    assert (2 ^ (- k) <= 2 ^ (- j)) by (apply Z.pow_le_mono_r; lia). nia.
  - rewrite (ratio_ge_true p q k) by lia. intros. destruct (Z.lt_ge_cases j 0).
    + rewrite ratio_ge_neg by lia. assert (1 <= 2 ^ (- j)) by (apply (Z.pow_le_mono_r 2 0); lia).
      assert (1 <= 2 ^ k) by (apply (Z.pow_le_mono_r 2 0); lia). nia.
    + rewrite ratio_ge_true by lia.
      assert (2 ^ j <= 2 ^ k) by (apply Z.pow_le_mono_r; lia). nia.
Qed.

Lemma ratio_log2_lt p q k :
  0 < p → 0 < q → ratio_ge p q k = false → ratio_log2 p q < k.
Proof.
  intros Hp Hq Hk. destruct (ratio_log2_spec p q Hp Hq) as [H1 _].
  destruct (Z.lt_ge_cases (ratio_log2 p q) k); [done|].
  rewrite (ratio_ge_mono p q k (ratio_log2 p q)) in Hk by done. done.
Qed.

Lemma ratio_log2_ge p q k :
  0 < p → 0 < q → ratio_ge p q k = true → k <= ratio_log2 p q.
Proof.
  intros Hp Hq Hk. destruct (ratio_log2_spec p q Hp Hq) as [_ H2].
  destruct (Z.lt_ge_cases (ratio_log2 p q) k); [|done].
  rewrite (ratio_ge_mono p q (ratio_log2 p q + 1) k) in H2 by (done || lia). done.
Qed.

(** Rounding a positive fraction below 2^52 and above the subnormals: a
    mantissa within half a unit, and the magnitude that unit belongs to. *)
Lemma rnd_fraction p q :
  0 < p → 0 < q → ratio_ge p q 52 = false → ratio_ge p q (-1022) = true →
  ∃ m s, rnd p q = Fin m (- s) ∧ 1 <= s ∧ 0 <= m ∧
    - q <= 2 * (m * q - p * 2 ^ s) <= q ∧ 2 ^ 52 * q <= p * 2 ^ s.
Proof.
  intros Hp Hq Hhi Hlo. pose proof (ratio_log2_lt p q 52 Hp Hq Hhi).
  pose proof (ratio_log2_ge p q (-1022) Hp Hq Hlo).
  destruct (ratio_log2_spec p q Hp Hq) as [Hk _].
  unfold rnd. destruct (Z.eqb_spec p 0); [lia|]. destruct (Z.ltb_spec p 0); [lia|].
  rewrite Z.abs_eq by lia. unfold rnd_pos, fexp. rewrite Z.max_l by lia.
  set (k := ratio_log2 p q) in *. destruct (Z.leb_spec 0 (k - 52)); [lia|]. cbn [andb].
  exists (mantissa p q (k - 52)), (52 - k). unfold mantissa.
  destruct (Z.leb_spec 0 (k - 52)); [lia|].
  replace (- (k - 52)) with (52 - k) by lia.
  assert (0 < 2 ^ (52 - k)) by (apply Z.pow_pos_nonneg; lia).
  split; [f_equal; lia|]. split; [lia|]. split; [apply rne_nonneg; nia|].
  split; [by apply rne_error|].
  destruct (Z.lt_ge_cases k 0).
  - rewrite ratio_ge_neg in Hk by lia. replace (52 - k) with (52 + - k) by lia.
    rewrite Z.pow_add_r by lia. nia.
  - rewrite ratio_ge_true in Hk by lia.
    assert (E : 2 ^ 52 = 2 ^ k * 2 ^ (52 - k)) by (rewrite <- Z.pow_add_r by lia; f_equal; lia).
    rewrite E. nia.
Qed.

(** ** Exactness of small integers *)

Lemma num_of_Z_small z :
  0 < z < 2 ^ 53 → ∃ s, 0 <= s ∧ num_of_Z z = Fin (z * 2 ^ s) (- s).
Proof.
  intros Hz. unfold num_of_Z, rnd.
  destruct (Z.eqb_spec z 0) as [->|]; [lia|]. destruct (Z.ltb_spec z 0); [lia|].
  rewrite Z.abs_eq by lia. unfold rnd_pos.
  assert (Hr : ratio_log2 z 1 = Z.log2 z).
  { unfold ratio_log2. change (Z.log2 1) with 0. rewrite Z.sub_0_r. unfold ratio_ge.
    pose proof (Z.log2_nonneg z). destruct (Z.leb_spec 0 (Z.log2 z)); [|lia].
    pose proof (Z.log2_spec z). destruct (Z.leb_spec (1 * 2 ^ Z.log2 z) z); lia. }
  rewrite Hr. unfold fexp. pose proof (Z.log2_nonneg z). rewrite Z.max_l by lia.
  unfold mantissa. assert (Z.log2 z < 53) by (apply Z.log2_lt_pow2; lia).
  exists (52 - Z.log2 z). split; [lia|].
  destruct (Z.leb_spec 0 (Z.log2 z - 52)); cbn [andb].
  - assert (Hl : Z.log2 z = 52) by lia. rewrite Hl.
    change (1 * 2 ^ (52 - 52)) with 1. rewrite !rne_1. change (2 ^ (52 - 52)) with 1.
    rewrite Z.mul_1_r. destruct (Z.leb_spec (2 ^ 1024) z); [|done].
    exfalso. assert (2 ^ 53 < 2 ^ 1024) by (by vm_compute). lia.
  - rewrite rne_1. f_equal; [do 2 f_equal|]; lia.
Qed.

Lemma num_of_Z_opp z : num_of_Z (- z) = num_opp (num_of_Z z).
Proof.
  unfold num_of_Z, rnd. destruct (Z.eqb_spec z 0) as [->|]; [done|].
  destruct (Z.eqb_spec (- z) 0); [lia|]. rewrite Z.abs_opp. unfold rnd_pos.
  destruct (Z.ltb_spec (- z) 0), (Z.ltb_spec z 0); try lia; case_if; cbn [num_opp negb]; f_equal; lia.
Qed.

(** The value of a double that holds an integer. *)
Lemma num_to_bigint_small z : - 2 ^ 53 <= z <= 2 ^ 53 → num_to_bigint (num_of_Z z) = Ok z.
Proof.
  assert (Hpos : ∀ y, 0 < y < 2 ^ 53 → num_to_bigint (num_of_Z y) = Ok y ∧ num_to_bigint (num_opp (num_of_Z y)) = Ok (- y)).
  { intros y Hy. destruct (num_of_Z_small y Hy) as (s & Hs & ->). cbn [num_opp num_to_bigint].
    assert (0 < 2 ^ s) by (apply Z.pow_pos_nonneg; lia). rewrite Z.opp_involutive.
    destruct (Z.leb_spec 0 (- s)).
    - assert (s = 0) as -> by lia. change (2 ^ 0) with 1. change (2 ^ (- 0)) with 1. rewrite !Z.mul_1_r. done.
    - rewrite <- Z.mul_opp_l, !Z_mod_mult, !Z.div_mul by lia. done. }
  intros Hz. destruct (decide (z = 0)) as [->|]; [done|].
  destruct (decide (z = 2 ^ 53)) as [->|]; [by vm_compute|].
  destruct (decide (z = - 2 ^ 53)) as [->|]; [by vm_compute|].
  destruct (Z.lt_ge_cases 0 z); [apply Hpos; lia|].
  replace z with (- - z) at 1 by lia. rewrite num_of_Z_opp. rewrite (proj2 (Hpos (- z) ltac:(lia))). f_equal. lia.
Qed.

Lemma to_number_small z : - 2 ^ 53 <= z <= 2 ^ 53 → to_number z = z.
Proof.
  intros Hz. pose proof (num_to_bigint_small z ltac:(lia)) as Hb. unfold to_number.
  destruct (num_of_Z z) as [| |m e]; [done..|]. cbn [num_to_bigint] in Hb.
  destruct (0 <=? e); [congruence|]. destruct (_ =? 0); congruence.
Qed.

(** ** The satoshi conversion *)

(** The errors of the two roundings add up to less than half a unit. *)
Lemma two_roundings n D A B m1 m2 :
  0 < A → 0 < B → A + B * D < A * B →
  - D <= 2 * (m1 * D - n * A) <= D →
  - A <= 2 * (m2 * A - m1 * D * B) <= A →
  - B < 2 * (m2 - n * B) < B.
Proof.
  intros HA HB Hsum H1 H2.
  assert (B * - D <= B * (2 * (m1 * D - n * A)) <= B * D) as [Hl Hr].
  { split; apply Z.mul_le_mono_nonneg_l; lia. }
  assert (E : 2 * (m2 * A - m1 * D * B) + B * (2 * (m1 * D - n * A)) = A * (2 * (m2 - n * B))) by ring.
  split; apply (Z.mul_lt_mono_pos_l A); lia.
Qed.

(** A number of satoshis below 2^25 coins, divided by 10^8 and multiplied again,
    each time rounded to a double, is within less than half of what it was. *)
Lemma satoshi_product n : 0 < n < 2 ^ 25 * 100000000 →
  ∃ m s, num_mul (rnd n 100000000) (Fin 100000000 0) = Fin m (- s) ∧ 1 <= s ∧ - 2 ^ s < 2 * (m - n * 2 ^ s) < 2 ^ s.
Proof.
  intros Hn. set (D := 100000000) in *.
  destruct (rnd_fraction n D) as (m1 & s1 & E1 & Hs1 & Hm1 & Herr1 & Hmag1); [lia|lia| | |].
  { apply not_true_is_false. rewrite ratio_ge_true by lia. unfold D in *. lia. }
  { apply ratio_ge_neg; [lia|]. assert (D <= 2 ^ 1022) by by vm_compute. unfold D in *.
    change (- -1022) with 1022. nia. }
  rewrite E1. set (A := 2 ^ s1) in *. assert (HA : 2 ^ 28 <= A).
  { apply Z.pow_le_mono_r; [lia|]. destruct (Z.le_gt_cases 28 s1); [done|].
    assert (A <= 2 ^ 27) by (apply Z.pow_le_mono_r; lia). unfold D in *. nia. }
  unfold num_mul. replace (- s1 + 0) with (- s1) by lia.
  destruct (Z.leb_spec 0 (- s1)); [lia|]. rewrite Z.opp_involutive. fold A.
  assert (Hm1' : 0 < m1 * D) by (unfold D in *; nia).
  assert (Hup : m1 * D < A * 2 ^ 52) by (unfold D in *; nia).
  destruct (rnd_fraction (m1 * D) A) as (m2 & s2 & E2 & Hs2 & Hm2 & Herr2 & Hmag2); [lia|lia| | |].
  { apply not_true_is_false. rewrite ratio_ge_true by lia. lia. }
  { apply ratio_ge_neg; [lia|]. change (- -1022) with 1022.
    assert (D * 2 ^ 52 <= 2 ^ 1022) by (by vm_compute). nia. }
  exists m2, s2. split; [done|]. split; [done|]. set (B := 2 ^ s2) in *.
  assert (HB : 2 <= B) by (apply (Z.pow_le_mono_r 2 1); lia).
  apply (two_roundings n D A B m1 m2); [lia|lia| |done|done].
  assert (2 * (A - D) <= B * (A - D)) by (apply Z.mul_le_mono_nonneg_r; unfold D in *; lia). unfold D in *. lia.
Qed.

(** The rounding to an integer then returns it. *)
Lemma to_satoshis_decimal n :
  0 < n < 2 ^ 25 * 100000000 → to_satoshis (rnd n 100000000) = Ok n.
Proof.
  intros Hn. unfold to_satoshis. destruct (satoshi_product n Hn) as (m & s & -> & Hs & Herr).
  unfold num_round. destruct (Z.leb_spec 0 (- s)); [lia|].
  rewrite Z.opp_involutive. unfold num_to_bigint. cbn [Z.leb Z.compare Z.pow].
  f_equal. rewrite Z.mul_1_r. assert (HB : 2 ^ s = 2 * 2 ^ (s - 1)) by (rewrite <- Z.pow_succ_r by lia; f_equal; lia).
  symmetry. apply (Z.div_unique_pos _ _ _ (m + 2 ^ (s - 1) - 2 ^ s * n)); [|lia]. lia.
Qed.
