(* ===== verification/Amount.v ===== *)
(** * Amounts

    How the wallet shows satoshis ([formatCac], web-wallet/app.js) and how it
    reads an amount typed in CAC, [BigInt(Math.round(parseFloat(s) * 1e8))]. *)

From S2P Require Import Prelude JsString JsNum.

Definition COIN : Z := 100000000.

(** BigInt [/] and [%] truncate towards zero. *)
Definition formatCac (satoshis : Z) : string :=
  let s := satoshis in
  let whole := Z.quot s COIN in
  let frac := of_chars (pad_start 8 "0" (chars (show (Z.rem s COIN)))) in
  show whole +:+ "." +:+ frac.

(** [BigInt(Math.round(parseFloat(s) * Number(COIN)))] *)
Definition parse_satoshis (s : string) : result Z := to_satoshis (parseFloat s).

(** ** Lemmas *)

Lemma show_chars n : 0 <= n → chars (show n) = digits_string 10 n.
Proof.
  intros. unfold show, int_to_string. destruct (Z.ltb_spec n 0); [lia|]. apply chars_of_chars.
Qed.

(** The digits of a formatted amount: a whole part and eight decimals. *)
Lemma formatCac_digits n :
  0 <= n → ∃ ds fs, chars (formatCac n) = (digit_char <$> ds) ++ "."%char :: (digit_char <$> fs) ∧
    Forall (is_digit 10) (ds ++ fs) ∧ ds ≠ [] ∧ length fs = 8%nat ∧ of_digits 10 (ds ++ fs) = n.
Proof.
  intros Hn. assert (Hq : 0 <= Z.quot n COIN) by (apply Z.quot_pos; unfold COIN; lia).
  assert (Hr : 0 <= Z.rem n COIN < COIN) by (apply Z.rem_bound_pos; unfold COIN; lia).
  destruct (digits_string_spec (Z.quot n COIN) Hq) as (ds & E1 & Hd1 & Hv1 & Hne).
  destruct (pad_digits_spec (Z.rem n COIN) 8) as (fs & E2 & Hd2 & Hv2 & Hl); [|lia|].
  { change (10 ^ Z.of_nat 8) with COIN. lia. }
  exists ds, fs. split_and!; [|by apply Forall_app|done|done|].
  - unfold formatCac. rewrite !chars_app, chars_of_chars, !show_chars by lia.
    by rewrite E1, E2.
  - rewrite of_digits_app, Hv1, Hv2, Hl. change (10 ^ Z.of_nat 8) with COIN.
    pose proof (Z.quot_rem n COIN ltac:(done)). lia.
Qed.

(** Reading a formatted amount as a decimal literal. *)
Lemma parseFloat_formatCac n : 0 <= n → parseFloat (formatCac n) = rnd n COIN.
Proof.
  intros Hn. destruct (formatCac_digits n Hn) as (ds & fs & E & Hd & Hne & Hl & Hv).
  apply Forall_app in Hd as [Hd Hf]. unfold parseFloat. rewrite E.
  destruct ds as [|d tl]; [done|]. pose proof Hd as Hd'. apply Forall_cons_iff in Hd' as [Hdd _].
  unfold is_digit in Hdd. rewrite fmap_cons. cbn [app drop_spaces].
  rewrite digit_char_space by lia. unfold split_sign.
  destruct (digit_char_sign d ltac:(lia)) as [H1 H2].
  destruct (Ascii.eqb_spec (digit_char d) "-"); [done|].
  destruct (Ascii.eqb_spec (digit_char d) "+"); [done|].
  change (digit_char d :: (digit_char <$> tl) ++ ?k) with ((digit_char <$> d :: tl) ++ k).
  unfold parse_unsigned. rewrite take_digits_app by (done || lia).
  change (take_digits 10 ("."%char :: _)) with (@nil Z). rewrite app_nil_r.
  rewrite <- (length_fmap digit_char (d :: tl)), drop_app_length.
  cbn [Ascii.eqb Bool.eqb]. pose proof (take_digits_app 10 fs [] ltac:(lia) Hf) as Ht.
  rewrite !app_nil_r in Ht. rewrite Ht.
  rewrite drop_ge by (rewrite length_fmap; lia). cbn [app] in Hv |- *. rewrite Hv, Hl.
  unfold decimal, parse_exponent, COIN. done.
Qed.

(** What the wallet shows is what it reads back: a positive amount below
    2^25 coins (33,554,432 CAC) survives formatting, [parseFloat], the
    multiplication by 1e8 in doubles and [Math.round]. *)
Theorem parse_formatCac (n : Z) (Hn : 0 < n < 2 ^ 25 * COIN) :
  parse_satoshis (formatCac n) = Ok n.
Proof.
  unfold parse_satoshis. rewrite parseFloat_formatCac by lia. by apply to_satoshis_decimal.
Qed.

Lemma parse_formatCac_witness :
  0 < 123456789 < 2 ^ 25 * COIN ∧ formatCac 123456789 = "1.23456789" ∧
  parse_satoshis (formatCac 123456789) = Ok 123456789.
Proof.
  split; [unfold COIN; lia|]. split; [vm_compute; reflexivity|].
  apply (parse_formatCac 123456789). unfold COIN. lia.
Defined.

(** Just above the bound it is not so: at 33,556,860.75783797 CAC the typed
    amount is read as one satoshi more than what is written, and a BigInt
    above 2^53 loses its last bits when it goes through [Number]. *)
Theorem parse_satoshis_inexact :
  formatCac 3355686075783797 = "33556860.75783797" ∧
  parse_satoshis "33556860.75783797" = Ok 3355686075783798 ∧
  to_number (2 ^ 53 + 1) = 2 ^ 53.
Proof. vm_compute. split_and!; reflexivity. Qed.
