(* ===== verification/Json.v ===== *)
(** * JSON

    The language's [JSON.stringify] and [JSON.parse] on the values the sources
    store and exchange.  Objects keep their keys in insertion order; a repeated
    key takes the last value.  (Keys that are array indices, which a JavaScript
    object would move to the front, do not occur in the sources' data.) *)

From S2P Require Import Prelude JsString JsNum.

Inductive json :=
  | JNull
  | JBool (b : bool)
  | JNum (x : num)
  | JStr (s : string)
  | JArr (l : list json)
  | JObj (l : list (string * json)).

(** An integer as a JSON number. *)
Definition jint (z : Z) : json := JNum (num_of_Z z).

(** ** Objects *)

Fixpoint obj_get (k : string) (l : list (string * json)) : option json :=
  match l with
  | [] => None
  | (k', v) :: l => if String.eqb k k' then Some v else obj_get k l
  end.

(** [o[k] = v] *)
Fixpoint obj_set (k : string) (v : json) (l : list (string * json)) : list (string * json) :=
  match l with
  | [] => [(k, v)]
  | (k', v') :: l => if String.eqb k k' then (k', v) :: l else (k', v') :: obj_set k v l
  end.

(** ** [JSON.stringify] *)

Definition quote : ascii := chr 34.
Definition backslash : ascii := chr 92.

Definition hex4 (n : Z) : list ascii := pad_start 4 "0" (digits_string 16 n).

Definition escape_char (c : ascii) : list ascii :=
  if Ascii.eqb c quote then [backslash; quote]
  else if Ascii.eqb c backslash then [backslash; backslash]
  else if code c =? 8 then [backslash; "b"%char]
  else if code c =? 12 then [backslash; "f"%char]
  else if code c =? 10 then [backslash; "n"%char]
  else if code c =? 13 then [backslash; "r"%char]
  else if code c =? 9 then [backslash; "t"%char]
  else if code c <? 32 then backslash :: "u"%char :: hex4 (code c)
  else [c].

Definition str_json (s : string) : list ascii :=
  quote :: mjoin (escape_char <$> chars s) ++ [quote].

Definition num_json (x : num) : list ascii :=
  match x with Fin _ _ => chars (num_to_string x) | _ => chars "null" end.

(** Text joined with a separator. *)
Fixpoint sepby (sep : list ascii) (l : list (list ascii)) : list ascii :=
  match l with
  | [] => []
  | x :: l => match l with [] => x | _ => x ++ sep ++ sepby sep l end
  end.

(** The line break and indentation of [JSON.stringify(v, null, gap)]; nothing
    when there is no gap. *)
Definition newline (gap indent : nat) : list ascii :=
  match gap with O => [] | _ => chr 10 :: replicate indent " "%char end.

(** The items of an array or object between its brackets. *)
Definition enclose (o c : ascii) (gap indent : nat) (items : list (list ascii)) : list ascii :=
  match items with
  | [] => [o; c]
  | _ => o :: newline gap (indent + gap) ++ sepby (","%char :: newline gap (indent + gap)) items ++
         newline gap indent ++ [c]
  end.

Definition colon (gap : nat) : list ascii :=
  match gap with O => [":"%char] | _ => [":"%char; " "%char] end.

Fixpoint write_json (gap indent : nat) (v : json) : list ascii :=
  match v with
  | JNull => chars "null"
  | JBool b => chars (if b then "true" else "false")
  | JNum x => num_json x
  | JStr s => str_json s
  | JArr l => enclose "[" "]" gap indent (write_json gap (indent + gap) <$> l)
  | JObj l => enclose "{" "}" gap indent
                ((λ kv, str_json kv.1 ++ colon gap ++ write_json gap (indent + gap) kv.2) <$> l)
  end.

Definition stringify (v : json) : string := of_chars (write_json 0 0 v).
(** [JSON.stringify(v, null, 2)] *)
Definition stringify2 (v : json) : string := of_chars (write_json 2 0 v).

(** ** [JSON.parse] *)

Definition syntax_error {A} : result A := Throw (ExSyntax "Unexpected token in JSON").

Definition is_json_space (c : ascii) : bool :=
  (code c =? 32) || (code c =? 9) || (code c =? 10) || (code c =? 13).
Fixpoint skip_ws (l : list ascii) : list ascii :=
  match l with c :: l' => if is_json_space c then skip_ws l' else l | [] => [] end.

(** Four hexadecimal digits. *)
Definition read_hex4 (a b c d : ascii) : option Z :=
  match take_digits 16 [a; b; c; d] with
  | [w; x; y; z] => Some (of_digits 16 [w; x; y; z])
  | _ => None
  end.

(** The UTF-8 bytes of a code point. *)
Definition utf8 (cp : Z) : list ascii :=
  if cp <? 0x80 then [chr cp]
  else if cp <? 0x800 then [chr (0xC0 + cp / 64); chr (0x80 + cp mod 64)]
  else if cp <? 0x10000 then [chr (0xE0 + cp / 4096); chr (0x80 + cp / 64 mod 64); chr (0x80 + cp mod 64)]
  else [chr (0xF0 + cp / 262144); chr (0x80 + cp / 4096 mod 64); chr (0x80 + cp / 64 mod 64); chr (0x80 + cp mod 64)].

Definition simple_escape (c : ascii) : option ascii :=
  if Ascii.eqb c quote then Some quote
  else if Ascii.eqb c backslash then Some backslash
  else if Ascii.eqb c "/" then Some "/"%char
  else if Ascii.eqb c "b" then Some (chr 8)
  else if Ascii.eqb c "f" then Some (chr 12)
  else if Ascii.eqb c "n" then Some (chr 10)
  else if Ascii.eqb c "r" then Some (chr 13)
  else if Ascii.eqb c "t" then Some (chr 9)
  else None.

(** A string after its opening quote: its characters and what follows. *)
Fixpoint read_string (l : list ascii) : result (list ascii * list ascii) :=
  match l with
  | [] => syntax_error
  | c :: l =>
      if Ascii.eqb c quote then Ok ([], l)
      else if Ascii.eqb c backslash then
        match l with
        | e :: l =>
            match simple_escape e with
            | Some x => '(s, rest) ← read_string l; mret (x :: s, rest)
            | None =>
                if negb (Ascii.eqb e "u") then syntax_error else
                match l with
                | a :: b :: c :: d :: l =>
                    match read_hex4 a b c d with
                    | None => syntax_error
                    | Some hi =>
                        match l with
                        | e1 :: e2 :: a' :: b' :: c' :: d' :: l' =>
                            match read_hex4 a' b' c' d' with
                            | Some lo =>
                                if Ascii.eqb e1 backslash && Ascii.eqb e2 "u" &&
                                   (0xD800 <=? hi) && (hi <? 0xDC00) && (0xDC00 <=? lo) && (lo <? 0xE000)
                                then '(s, rest) ← read_string l';
                                     mret (utf8 (0x10000 + (hi - 0xD800) * 1024 + (lo - 0xDC00)) ++ s, rest)
                                else '(s, rest) ← read_string l; mret (utf8 hi ++ s, rest)
                            | None => '(s, rest) ← read_string l; mret (utf8 hi ++ s, rest)
                            end
                        | _ => '(s, rest) ← read_string l; mret (utf8 hi ++ s, rest)
                        end
                    end
                | _ => syntax_error
                end
            end
        | [] => syntax_error
        end
      else if code c <? 32 then syntax_error
      else '(s, rest) ← read_string l; mret (c :: s, rest)
  end.

(** The digits of an integer part: no leading zero. *)
Definition read_int (l : list ascii) : result (list Z * list ascii) :=
  match take_digits 10 l with
  | [] => syntax_error
  | 0 :: _ :: _ => syntax_error
  | ds => Ok (ds, drop (length ds) l)
  end.

(** An optional fraction. *)
Definition read_frac (l : list ascii) : result (list Z * list ascii) :=
  match l with
  | c :: r =>
      if Ascii.eqb c "." then
        match take_digits 10 r with [] => syntax_error | fs => Ok (fs, drop (length fs) r) end
      else Ok ([], l)
  | [] => Ok ([], [])
  end.

(** An optional exponent. *)
Definition read_exp (l : list ascii) : result (Z * list ascii) :=
  match l with
  | c :: r =>
      if Ascii.eqb (lower_char c) "e" then
        let '(neg, r) := split_sign r in
        match take_digits 10 r with
        | [] => syntax_error
        | es => Ok (if neg then - of_digits 10 es else of_digits 10 es, drop (length es) r)
        end
      else Ok (0, l)
  | [] => Ok (0, [])
  end.

Definition read_number (l : list ascii) : result (num * list ascii) :=
  let '(neg, l) := match l with c :: r => if Ascii.eqb c "-" then (true, r) else (false, l) | [] => (false, []) end in
  '(ds, l) ← read_int l;
  '(fs, l) ← read_frac l;
  '(ex, l) ← read_exp l;
  let x := decimal (of_digits 10 (ds ++ fs)) (ex - Z.of_nat (length fs)) in
  mret (if neg then num_opp x else x, l).

(** A keyword. *)
Definition read_word (w : string) (v : json) (l : list ascii) : result (json * list ascii) :=
  if is_prefix (chars w) l then Ok (v, drop (length (chars w)) l) else syntax_error.

(** Values, the rest of an array and the rest of an object after their opening
    bracket.  Every call consumes a character, so the length of the text is
    enough fuel. *)
Fixpoint read_value (fuel : nat) (l : list ascii) : result (json * list ascii) :=
  match fuel with
  | O => syntax_error
  | S fuel =>
      let l := skip_ws l in
      match l with
      | [] => syntax_error
      | c :: r =>
          if Ascii.eqb c "{" then
            match skip_ws r with
            | d :: r' => if Ascii.eqb d "}" then Ok (JObj [], r')
                         else '(kvs, rest) ← read_members fuel [] r; mret (JObj kvs, rest)
            | [] => syntax_error
            end
          else if Ascii.eqb c "[" then
            match skip_ws r with
            | d :: r' => if Ascii.eqb d "]" then Ok (JArr [], r')
                         else '(vs, rest) ← read_elements fuel r; mret (JArr vs, rest)
            | [] => syntax_error
            end
          else if Ascii.eqb c quote then '(s, rest) ← read_string r; mret (JStr (of_chars s), rest)
          else if Ascii.eqb c "t" then read_word "true" (JBool true) l
          else if Ascii.eqb c "f" then read_word "false" (JBool false) l
          else if Ascii.eqb c "n" then read_word "null" JNull l
          else '(x, rest) ← read_number l; mret (JNum x, rest)
      end
  end
with read_elements (fuel : nat) (l : list ascii) : result (list json * list ascii) :=
  match fuel with
  | O => syntax_error
  | S fuel =>
      '(v, l) ← read_value fuel l;
      match skip_ws l with
      | c :: r =>
          if Ascii.eqb c "]" then Ok ([v], r)
          else if Ascii.eqb c "," then '(vs, rest) ← read_elements fuel r; mret (v :: vs, rest)
          else syntax_error
      | [] => syntax_error
      end
  end
with read_members (fuel : nat) (acc : list (string * json)) (l : list ascii)
    : result (list (string * json) * list ascii) :=
  match fuel with
  | O => syntax_error
  | S fuel =>
      match skip_ws l with
      | c :: r =>
          if negb (Ascii.eqb c quote) then syntax_error else
          '(k, l) ← read_string r;
          match skip_ws l with
          | c :: r =>
              if negb (Ascii.eqb c ":") then syntax_error else
              '(v, l) ← read_value fuel r;
              let acc := obj_set (of_chars k) v acc in
              match skip_ws l with
              | c :: r =>
                  if Ascii.eqb c "}" then Ok (acc, r)
                  else if Ascii.eqb c "," then read_members fuel acc r
                  else syntax_error
              | [] => syntax_error
              end
          | [] => syntax_error
          end
      | [] => syntax_error
      end
  end.

Definition parse (s : string) : result json :=
  let l := chars s in
  '(v, rest) ← read_value (S (length l)) l;
  match skip_ws rest with [] => Ok v | _ => syntax_error end.

(** ** Reading back what was written *)

(** Values whose text is read back as they were: integers a double holds
    exactly, and objects without repeated keys. *)
Fixpoint json_ok (v : json) : Prop :=
  match v with
  | JNum x => ∃ z, - 2 ^ 53 <= z <= 2 ^ 53 ∧ x = num_of_Z z
  | JArr l => (fix all l := match l with [] => True | v :: l => json_ok v ∧ all l end) l
  | JObj l => NoDup l.*1 ∧ (fix all l := match l with [] => True | kv :: l => json_ok kv.2 ∧ all l end) l
  | _ => True
  end.

Section json_ind.
  Variable P : json → Prop.
  Hypothesis Hnull : P JNull.
  Hypothesis Hbool : ∀ b, P (JBool b).
  Hypothesis Hnum : ∀ x, P (JNum x).
  Hypothesis Hstr : ∀ s, P (JStr s).
  Hypothesis Harr : ∀ l, Forall P l → P (JArr l).
  Hypothesis Hobj : ∀ l, Forall (λ kv, P kv.2) l → P (JObj l).

(** Induction through the nested lists. *)
Fixpoint json_nested (v : json) : P v :=
  match v with
  | JNull => Hnull
  | JBool b => Hbool b
  | JNum x => Hnum x
  | JStr s => Hstr s
  | JArr l => Harr l ((fix all l : Forall P l :=
      match l with [] => Forall_nil _ | v :: l => Forall_cons _ _ _ (json_nested v) (all l) end) l)
  | JObj l => Hobj l ((fix all l : Forall (λ kv, P kv.2) l :=
      match l with [] => Forall_nil _ | kv :: l => Forall_cons _ _ _ (json_nested kv.2) (all l) end) l)
  end.
End json_ind.

Lemma json_ok_arr l : json_ok (JArr l) ↔ Forall json_ok l.
Proof. induction l as [|v l IH]; [done|]. rewrite Forall_cons_iff, <- IH. done. Qed.

Lemma json_ok_obj l : json_ok (JObj l) ↔ NoDup l.*1 ∧ Forall (λ kv, json_ok kv.2) l.
Proof.
  cbn [json_ok]. apply and_iff_compat_l. induction l as [|v l IH]; [done|].
  rewrite Forall_cons_iff, <- IH. done.
Qed.

(** Strings. *)
Lemma hex4_control z :
  0 <= z < 32 → match hex4 z with [a; b; c; d] => read_hex4 a b c d = Some z | _ => False end.
Proof.
  intros Hz.
  assert (HF : forallb (λ z, match hex4 z with
    [a; b; c; d] => match read_hex4 a b c d with Some y => y =? z | None => false end | _ => false end)
    (seqZ 0 32) = true) by (by vm_compute).
  rewrite forallb_forall in HF. specialize (HF z ltac:(by apply list_elem_of_In, elem_of_seqZ; lia)).
  destruct (hex4 z) as [|a [|b [|c [|d [|]]]]]; try done.
  destruct (read_hex4 a b c d); [|done]. f_equal. lia.
Qed.

Lemma read_string_cons c l :
  read_string (escape_char c ++ l) = ('(s, rest) ← read_string l; mret (c :: s, rest)).
Proof.
  unfold escape_char.
  destruct (Ascii.eqb_spec c quote) as [->|Hq]; [done|].
  destruct (Ascii.eqb_spec c backslash) as [->|Hb]; [done|].
  assert (Hc : ∀ n, code c = n → c = chr n) by (intros n <-; by rewrite chr_code).
  do 5 (match goal with |- context [code c =? ?n] => destruct (Z.eqb_spec (code c) n) as [->%Hc|_] end;
    [reflexivity|]).
  destruct (Z.ltb_spec (code c) 32) as [Hlt|Hge].
  - pose proof (code_range c). pose proof (hex4_control (code c) ltac:(lia)) as Hh.
    destruct (hex4 (code c)) as [|h1 [|h2 [|h3 [|h4 [|]]]]]; try done.
    cbn [app read_string]. change (Ascii.eqb backslash quote) with false.
    change (Ascii.eqb backslash backslash) with true.
    change (simple_escape "u") with (@None ascii). cbn [negb]. change (Ascii.eqb "u" "u") with true. cbn [negb]. rewrite Hh.
    assert (Hu : utf8 (code c) = [c]).
    { unfold utf8. destruct (Z.ltb_spec (code c) 0x80); [by rewrite chr_code|lia]. }
    assert (Hs : (0xD800 <=? code c) = false) by lia. rewrite Hu, Hs.
    destruct l as [|? [|? [|? [|? [|? [|? ?]]]]]]; try done.
    clear Hh. destruct (read_hex4 _ _ _ _); rewrite ?andb_false_r; done.
  - cbn [app read_string]. apply Ascii.eqb_neq in Hq as ->, Hb as ->.
    destruct (Z.ltb_spec (code c) 32); [lia|]. done.
Qed.

Lemma read_string_json l rest :
  read_string (mjoin (escape_char <$> l) ++ quote :: rest) = Ok (l, rest).
Proof.
  induction l as [|c l IH]; [done|].
  change (mjoin (escape_char <$> c :: l)) with (escape_char c ++ mjoin (escape_char <$> l)).
  rewrite <- app_assoc, read_string_cons, IH. done.
Qed.

(** Numbers. *)
(** What may follow a number in well-formed text. *)
Definition ends (l : list ascii) : Prop :=
  match l with [] => True | c :: _ => c ∈ [","; "]"; "}"; chr 10]%char end.

Lemma ends_digits l : ends l → take_digits 10 l = [].
Proof. destruct l as [|c l]; [done|]. cbn [ends]. rewrite !elem_of_cons. intros [->|[->|[->|[->|[]%elem_of_nil]]]]; done. Qed.

Lemma ends_tail l : ends l → read_frac l = Ok ([], l) ∧ read_exp l = Ok (0, l).
Proof.
  destruct l as [|c l]; [done|]. cbn [ends]. rewrite !elem_of_cons.
  intros [->|[->|[->|[->|[]%elem_of_nil]]]]; done.
Qed.

Lemma read_int_digits z l :
  0 <= z → ends l →
  ∃ ds, read_int (digits_string 10 z ++ l) = Ok (ds, l) ∧ of_digits 10 ds = z.
Proof.
  intros Hz Hl. unfold digits_string. destruct (Z.eqb_spec z 0) as [->|Hne].
  { exists [0]. split; [|done]. unfold read_int. cbn [app take_digits]. rewrite (ends_digits _ Hl). done. }
  pose proof (to_digits_digits 10 ltac:(lia) z) as Hds.
  pose proof (of_to_digits 10 ltac:(lia) z Hz) as Hv.
  exists (to_digits 10 z). split; [|done]. unfold read_int.
  rewrite take_digits_app, (ends_digits _ Hl), app_nil_r by (done || lia).
  destruct (to_digits 10 z) as [|d ds] eqn:Ed; [cbn in Hv; lia|].
  pose proof (to_digits_head 10 ltac:(lia) z d ds Hz Ed).
  assert (Hdrop : drop (length (d :: ds)) ((digit_char <$> d :: ds) ++ l) = l)
    by (apply drop_app_length'; by rewrite length_fmap).
  destruct d; [lia|by rewrite Hdrop..].
Qed.

Lemma read_number_int z l :
  - 2 ^ 53 <= z <= 2 ^ 53 → ends l → read_number (num_json (num_of_Z z) ++ l) = Ok (num_of_Z z, l).
Proof.
  intros Hz Hl. assert (Hs : num_json (num_of_Z z) = chars (show z)).
  { pose proof (num_to_bigint_small z Hz) as Hb. unfold num_json, num_to_string, num_int.
    destruct (num_of_Z z) as [| |m e]; [done..|]. rewrite Hb.
    destruct (Z.leb_spec (Z.abs z) (2 ^ 53)); [done|lia]. }
  rewrite Hs. unfold show, int_to_string. destruct (ends_tail _ Hl) as [Hf He].
  assert (Hd : ∀ z, decimal z (0 - Z.of_nat (@length Z [])) = num_of_Z z).
  { intros y. unfold decimal, num_of_Z. simpl. by rewrite Z.mul_1_r. }
  destruct (Z.ltb_spec z 0).
  - rewrite chars_app, chars_of_chars. destruct (read_int_digits (- z) l ltac:(lia) Hl) as (ds & Hi & Hv).
    unfold read_number. change (chars "-" ++ ?x) with ("-"%char :: x). cbn [app]. rewrite Ascii.eqb_refl.
    rewrite Hi. rsimpl. rewrite Hf. rsimpl. rewrite He. rsimpl. rewrite app_nil_r, Hv, Hd.
    rewrite num_of_Z_opp. destruct (num_of_Z z); cbn [num_opp]; rewrite ?negb_involutive, ?Z.opp_involutive; done.
  - rewrite chars_of_chars. destruct (read_int_digits z l ltac:(lia) Hl) as (ds & Hi & Hv).
    destruct (digits_string_spec z ltac:(lia)) as (es & Hes & Hd10 & _ & Hne).
    unfold read_number. rewrite Hes in *. destruct es as [|d es]; [done|]. cbn [fmap list_fmap app] in *.
    apply Forall_cons_iff in Hd10 as [Hd10 _]. unfold is_digit in Hd10.
    destruct (digit_char_sign d ltac:(lia)) as [Hm _]. apply Ascii.eqb_neq in Hm as ->.
    rewrite Hi. rsimpl. rewrite Hf. rsimpl. rewrite He. rsimpl. rewrite app_nil_r, Hv, Hd. done.
Qed.

(** Characters no value starts with, and what the dispatch in [read_value] sees. *)
Definition lead (c : ascii) : bool :=
  negb (is_json_space c || Ascii.eqb c "]" || Ascii.eqb c "}").
Definition number_lead (c : ascii) : bool :=
  lead c && negb (existsb (Ascii.eqb c) ["{"; "["; quote; "t"; "f"; "n"]%char).

Lemma num_json_lead z :
  - 2 ^ 53 <= z <= 2 ^ 53 → ∃ c r, num_json (num_of_Z z) = c :: r ∧ number_lead c = true.
Proof.
  intros Hz. pose proof (num_to_bigint_small z Hz) as Hb.
  assert (Hs : num_json (num_of_Z z) = chars (show z)).
  { unfold num_json, num_to_string, num_int. destruct (num_of_Z z) as [| |m e]; [done..|]. rewrite Hb.
    destruct (Z.leb_spec (Z.abs z) (2 ^ 53)); [done|lia]. }
  rewrite Hs. unfold show, int_to_string. destruct (Z.ltb_spec z 0).
  - rewrite chars_app, chars_of_chars. by exists "-"%char, (digits_string 10 (- z)).
  - rewrite chars_of_chars. destruct (digits_string_spec z ltac:(lia)) as (es & -> & Hd & _ & Hne).
    destruct es as [|d es]; [done|]. eexists _, _. split; [done|].
    apply Forall_cons_iff in Hd as [Hd _]. unfold is_digit in Hd.
    assert (HF : forallb (λ d, number_lead (digit_char d)) (seqZ 0 10) = true) by (by vm_compute).
    rewrite forallb_forall in HF. apply HF. apply list_elem_of_In, elem_of_seqZ. lia.
Qed.

Lemma write_lead gap indent v :
  json_ok v → ∃ c r, write_json gap indent v = c :: r ∧ lead c = true.
Proof.
  destruct v as [|[]|x|s|l|l]; cbn [write_json].
  - by exists "n"%char, (chars "ull").
  - by exists "t"%char, (chars "rue").
  - by exists "f"%char, (chars "alse").
  - intros (z & Hz & ->). destruct (num_json_lead z Hz) as (c & r & Hc & Hl). exists c, r.
    split; [done|]. by apply andb_true_iff in Hl as [].
  - by eexists _, _.
  - intros _. unfold enclose. destruct (_ <$> l); by eexists _, _.
  - intros _. unfold enclose. destruct (_ <$> l); by eexists _, _.
Qed.

Lemma skip_ws_newline gap i l : skip_ws (newline gap i ++ l) = skip_ws l.
Proof.
  destruct gap; [done|]. cbn [newline app skip_ws]. change (is_json_space (chr 10)) with true. cbv iota.
  induction i as [|i IH]; [done|]. exact IH.
Qed.

Lemma skip_ws_lead c r : lead c = true → skip_ws (c :: r) = c :: r.
Proof. unfold lead. intros H. cbn [skip_ws]. by destruct (is_json_space c). Qed.

Lemma read_value_newline fuel gap i l : read_value fuel (newline gap i ++ l) = read_value fuel l.
Proof. destruct fuel; [done|]. cbn [read_value]. by rewrite skip_ws_newline. Qed.

Lemma read_elements_newline fuel gap i l : read_elements fuel (newline gap i ++ l) = read_elements fuel l.
Proof. destruct fuel; [done|]. cbn [read_elements]. by rewrite read_value_newline. Qed.

Lemma read_members_newline fuel acc gap i l :
  read_members fuel acc (newline gap i ++ l) = read_members fuel acc l.
Proof. destruct fuel; [done|]. cbn [read_members]. by rewrite skip_ws_newline. Qed.

Lemma ends_newline gap i c l : c ∈ ["]"; "}"]%char → ends (newline gap i ++ c :: l).
Proof.
  rewrite !elem_of_cons. intros [->|[->|[]%elem_of_nil]]; destruct gap; cbn [newline app ends];
    rewrite !elem_of_cons; auto 6.
Qed.

Lemma sepby_cons sep x y l : sepby sep (x :: y :: l) = x ++ sep ++ sepby sep (y :: l).
Proof. done. Qed.

(** Run a bind whose first computation is known to return. *)
Ltac run_bind := change (mbind ?f (Ok ?x)) with (f x); cbv beta match.

(** A value is read back from its text, whatever the layout and what follows. *)
Definition reads_back (v : json) : Prop :=
  ∀ gap indent fuel rest, (length (write_json gap indent v) <= fuel)%nat → ends rest →
    read_value fuel (write_json gap indent v ++ rest) = Ok (v, rest).

Lemma read_elements_back gap i j l : 
  Forall reads_back l → ∀ v fuel rest, reads_back v →
  let sep := ","%char :: newline gap i in
  let text := sepby sep (write_json gap i <$> v :: l) in
  (length text < fuel)%nat →
  read_elements fuel (text ++ newline gap j ++ "]"%char :: rest) = Ok (v :: l, rest).
Proof.
  induction 1 as [|w l Hw _ IH]; intros v fuel rest Hv sep text Hfuel; subst sep text; destruct fuel as [|fuel]; [lia| |lia|].
  - cbn [fmap list_fmap sepby] in *. cbn [read_elements].
    rewrite Hv by (try apply ends_newline; (lia || by left)). run_bind.
    rewrite skip_ws_newline. done.
  - cbn [fmap list_fmap] in *. rewrite sepby_cons in *. rewrite !length_app in Hfuel.
    cbn [length] in Hfuel. cbn [read_elements]. rewrite <- !app_assoc.
    rewrite Hv by ((cbn [ends app]; rewrite elem_of_cons; by left) || lia). run_bind.
    cbn [app]. rewrite (skip_ws_lead ",") by done. cbv match.
    change (Ascii.eqb "," "]") with false. change (Ascii.eqb "," ",") with true. cbv match.
    rewrite read_elements_newline. rewrite IH; [done|done|]. cbn [fmap list_fmap]. lia.
Qed.

Lemma obj_set_snoc k v l : k ∉ l.*1 → obj_set k v l = l ++ [(k, v)].
Proof.
  induction l as [|[k' v'] l IH]; [done|]. cbn [fmap list_fmap fst obj_set app].
  rewrite elem_of_cons. intros Hn. destruct (String.eqb_spec k k') as [->|]; [tauto|].
  rewrite IH by tauto. done.
Qed.

Lemma str_json_app s rest : str_json s ++ rest = quote :: mjoin (escape_char <$> chars s) ++ quote :: rest.
Proof. unfold str_json. cbn [app]. by rewrite <- app_assoc. Qed.

Lemma read_member gap i k v fuel acc rest :
  reads_back v → (length (write_json gap i v) <= fuel)%nat → ends rest → k ∉ acc.*1 →
  read_members (S fuel) acc ((str_json k ++ colon gap ++ write_json gap i v) ++ rest) =
  match skip_ws rest with
  | c :: r =>
      if Ascii.eqb c "}" then Ok (acc ++ [(k, v)], r)
      else if Ascii.eqb c "," then read_members fuel (acc ++ [(k, v)]) r
      else syntax_error
  | [] => syntax_error
  end.
Proof.
  intros Hv Hf Hr Hk. cbn [read_members]. rewrite <- app_assoc, str_json_app.
  rewrite (skip_ws_lead quote) by done. cbv match. change (negb (Ascii.eqb quote quote)) with false.
  cbv match. rewrite read_string_json. run_bind. rewrite <- app_assoc.
  assert (Hc : ∃ sp, skip_ws (colon gap ++ write_json gap i v ++ rest) = ":"%char :: sp ++ write_json gap i v ++ rest
    ∧ (sp = [] ∨ sp = [" "%char])).
  { destruct gap; [exists []|exists [" "%char]]; auto. }
  destruct Hc as (sp & -> & Hsp). cbv match. change (negb (Ascii.eqb ":" ":")) with false. cbv match.
  assert (Hval : read_value fuel (sp ++ write_json gap i v ++ rest) = Ok (v, rest)).
  { rewrite <- (Hv gap i fuel rest Hf Hr). destruct Hsp as [->| ->]; [done|]. by destruct fuel. }
  rewrite Hval. run_bind. rewrite of_chars_chars, obj_set_snoc by done. done.
Qed.

Lemma read_members_back gap i j l :
  Forall (λ kv, reads_back kv.2) l → ∀ kv fuel acc rest, reads_back kv.2 →
  NoDup (acc ++ kv :: l).*1 →
  let text := sepby (","%char :: newline gap i)
    ((λ kv, str_json kv.1 ++ colon gap ++ write_json gap i kv.2) <$> kv :: l) in
  (length text < fuel)%nat →
  read_members fuel acc (text ++ newline gap j ++ "}"%char :: rest) = Ok (acc ++ kv :: l, rest).
Proof.
  induction 1 as [|kv' l Hw _ IH]; intros [k v] fuel acc rest Hv Hnd text Hfuel; subst text;
    destruct fuel as [|fuel]; [lia| |lia|]; cbn [fst snd] in *;
    assert (Hk : k ∉ acc.*1) by (rewrite fmap_app in Hnd; apply list.NoDup_app in Hnd as (_ & Hd & _);
      intros Hin; apply (Hd k Hin); cbn; by left).
  - cbn [fmap list_fmap sepby fst snd] in *. rewrite !length_app in Hfuel.
    rewrite read_member by (try apply ends_newline; first [done | lia | by right; left]).
    rewrite skip_ws_newline. done.
  - cbn [fmap list_fmap fst snd] in *. rewrite sepby_cons in *. rewrite !length_app in Hfuel.
    cbn [length] in Hfuel. rewrite <- (app_assoc (_ ++ _ ++ _)), <- (app_assoc (_ :: _)).
    rewrite read_member by first [done | lia | cbn [ends app]; rewrite elem_of_cons; by left].
    cbn [app]. rewrite (skip_ws_lead ",") by done. cbv match.
    change (Ascii.eqb "," "}") with false. change (Ascii.eqb "," ",") with true. cbv match.
    rewrite read_members_newline. rewrite IH; [by rewrite <- app_assoc|done| |].
    + by rewrite <- app_assoc.
    + cbn [fmap list_fmap]. lia.
Qed.

Lemma Forall_impl_and {A} (P Q : A → Prop) l : Forall (λ x, P x → Q x) l → Forall P l → Forall Q l.
Proof. induction 1; intros HP; [done|]. apply Forall_cons_iff in HP as []. constructor; auto. Qed.

(** The dispatch at an opening bracket followed by at least one item. *)
Lemma read_value_arr fuel gap i c r :
  lead c = true →
  read_value (S fuel) ("["%char :: newline gap i ++ c :: r) =
    ('(vs, rest) ← read_elements fuel (c :: r); mret (JArr vs, rest)).
Proof.
  intros Hc. cbn [read_value]. rewrite (skip_ws_lead "[") by done. cbv match.
  change (Ascii.eqb "[" "{") with false. change (Ascii.eqb "[" "[") with true. cbv match.
  rewrite skip_ws_newline, (skip_ws_lead c), read_elements_newline by done.
  destruct (Ascii.eqb_spec c "]") as [->|]; done.
Qed.

Lemma read_value_obj fuel gap i r :
  read_value (S fuel) ("{"%char :: newline gap i ++ quote :: r) =
    ('(kvs, rest) ← read_members fuel [] (quote :: r); mret (JObj kvs, rest)).
Proof.
  cbn [read_value]. rewrite (skip_ws_lead "{") by done. cbv match.
  change (Ascii.eqb "{" "{") with true. cbv match.
  rewrite skip_ws_newline, (skip_ws_lead quote), read_members_newline by done. done.
Qed.

Lemma sepby_lead sep x l c r : x = c :: r → ∃ r', sepby sep (x :: l) = c :: r'.
Proof. intros ->. destruct l; by eexists. Qed.

Lemma reads_back_number z : - 2 ^ 53 <= z <= 2 ^ 53 → reads_back (JNum (num_of_Z z)).
Proof.
  intros Hz gap i fuel rest Hf He. cbn [write_json] in *.
  pose proof (read_number_int z rest Hz He) as Hr.
  destruct (num_json_lead z Hz) as (c & r & Hc & Hl). rewrite Hc in *. cbn [length app] in *.
  destruct fuel as [|fuel]; [lia|]. cbn [read_value]. unfold number_lead in Hl.
  apply andb_true_iff in Hl as [Hl1 Hl2]. rewrite skip_ws_lead by done. cbv match.
  apply negb_true_iff in Hl2. cbn [existsb] in Hl2.
  repeat (apply orb_false_iff in Hl2 as [-> Hl2]). rewrite Hr. done.
Qed.

Lemma reads_back_arr v l :
  json_ok v → reads_back v → Forall reads_back l → reads_back (JArr (v :: l)).
Proof.
  intros Hok Hv Hl gap i fuel rest Hf He. cbn [write_json] in *. unfold enclose in *.
  rewrite fmap_cons in *.
  destruct (write_lead gap (i + gap) v Hok) as (c & r & Hc & Hlead).
  destruct (sepby_lead (","%char :: newline gap (i + gap)) _ (write_json gap (i + gap) <$> l) _ _ Hc) as [r' Hr'].
  destruct fuel as [|fuel]; [cbn in Hf; lia|]. cbn [length app] in *. rewrite !length_app in Hf.
  cbn [length] in Hf. rewrite <- !app_assoc. cbn [app].
  pose proof (read_elements_back gap (i + gap) i l Hl v fuel rest Hv) as HE. cbv zeta in HE.
  rewrite fmap_cons in HE. rewrite Hr' in *. cbn [app] in *.
  rewrite read_value_arr, HE by (done || cbn [length] in *; lia). done.
Qed.

Lemma reads_back_obj kv l :
  NoDup (kv :: l).*1 → reads_back kv.2 → Forall (λ kv, reads_back kv.2) l → reads_back (JObj (kv :: l)).
Proof.
  intros Hnd Hv Hl gap i fuel rest Hf He. cbn [write_json] in *. unfold enclose in *.
  rewrite fmap_cons in *.
  destruct fuel as [|fuel]; [cbn in Hf; lia|]. cbn [length app] in *. rewrite !length_app in Hf.
  cbn [length] in Hf. rewrite <- !app_assoc. cbn [app].
  pose proof (read_members_back gap (i + gap) i l Hl kv fuel [] rest Hv Hnd) as HE. cbv zeta in HE.
  rewrite fmap_cons in HE.
  match type of HE with context [sepby ?s (?x :: ?y)] =>
    destruct (sepby_lead s x y quote _ eq_refl) as [r' Hr'] end.
  rewrite Hr' in *. cbn [app] in *.
  rewrite read_value_obj, HE by (cbn [length] in *; lia). done.
Qed.

Lemma json_reads_back v : json_ok v → reads_back v.
Proof.
  induction v as [|b|x|s|l IH|l IH] using json_nested.
  - intros _ gap i [|fuel] rest Hf He; [cbn in Hf; lia|]. done.
  - intros _ gap i [|fuel] rest Hf He; [destruct b; cbn in Hf; lia|]. by destruct b.
  - intros (z & Hz & ->). by apply reads_back_number.
  - intros _ gap i [|fuel] rest Hf He; [cbn in Hf; lia|]. cbn [write_json]. rewrite str_json_app.
    cbn [read_value]. rewrite (skip_ws_lead quote) by done. cbv match.
    change (Ascii.eqb quote quote) with true. change (Ascii.eqb quote "{") with false.
    change (Ascii.eqb quote "[") with false. cbv match. rewrite read_string_json. run_bind.
    by rewrite of_chars_chars.
  - rewrite json_ok_arr. intros Hok. destruct l as [|v l].
    { intros gap i [|fuel] rest Hf He; [cbn in Hf; lia|done]. }
    pose proof (Forall_cons_iff json_ok v l) as [[Hv _] _]; [done|].
    apply (Forall_impl_and _ _ _ IH) in Hok. apply Forall_cons_iff in Hok as [Hvb Hl]. by apply reads_back_arr.
  - rewrite json_ok_obj. intros [Hnd Hok]. destruct l as [|kv l].
    { intros gap i [|fuel] rest Hf He; [cbn in Hf; lia|done]. }
    apply (Forall_impl_and _ _ _ IH) in Hok. apply Forall_cons_iff in Hok as [Hvb Hl]. by apply reads_back_obj.
Qed.

Lemma parse_write gap v : json_ok v → parse (of_chars (write_json gap 0 v)) = Ok v.
Proof.
  intros Hv. unfold parse. rewrite chars_of_chars.
  pose proof (json_reads_back v Hv gap 0%nat (S (length (write_json gap 0 v))) [] ltac:(lia) I) as Hr.
  rewrite app_nil_r in Hr. rewrite Hr. done.
Qed.
