(* ===== verification/Hex.v ===== *)
(** * Hexadecimal strings (web-wallet/crypto.js, [bytesToHex] and [hexToBytes])

    [hexToBytes] never throws: an odd trailing digit is ignored and a pair that
    [parseInt] rejects is stored as zero, because [NaN] written to a
    [Uint8Array] is 0.  The theorems are the round trip in both directions, the
    second one for exactly the strings [bytesToHex] writes. *)

From Stdlib Require Import Wf_nat.
From S2P Require Import Prelude JsString.

(** [b.toString(16).padStart(2, "0")] *)
Definition byteToHex (b : Z) : list ascii := pad_start 2 "0"%char (digits_string 16 b).

Definition bytesToHex (bs : bytes) : string := of_chars (mjoin (byteToHex <$> bs)).

(** [out[i] = parseInt(hex.substr(i * 2, 2), 16)] *)
Definition hexPair (hex : list ascii) (i : nat) : Z :=
  to_u8 (default 0 (parse_int 16 (js_substr hex (i * 2) 2))).

Definition hexToBytes (hex : string) : bytes :=
  hexPair (chars hex) <$> seq 0 (length (chars hex) / 2).

(** A lower-case hex digit. *)
Definition is_hex_char (c : ascii) : bool :=
  match digit_val c with
  | Some d => (d <? 16) && Ascii.eqb (digit_char d) c
  | None => false
  end.
Definition is_hex (s : string) : bool := forallb is_hex_char (chars s).

(** ** Lemmas *)

(** Check a decidable property of a byte by evaluating it on all of them. *)
Lemma byte_cases (P : Z → bool) :
  forallb P (Z.of_nat <$> seq 0 256) = true → ∀ b, is_byte b → P b = true.
Proof.
  intros H b [? ?]. rewrite forallb_forall in H. apply H.
  apply list_elem_of_In, list_elem_of_fmap. exists (Z.to_nat b). split; [lia|].
  apply elem_of_seq. lia.
Qed.

Lemma byteToHex_length b : is_byte b → length (byteToHex b) = 2%nat.
Proof.
  intros Hb. apply Nat.eqb_eq. revert b Hb.
  apply (byte_cases (λ b, length (byteToHex b) =? 2)%nat). by vm_compute.
Qed.

Lemma byteToHex_parse b : is_byte b → parse_int 16 (byteToHex b) = Some b.
Proof.
  intros Hb.
  assert (H : bool_decide (parse_int 16 (byteToHex b) = Some b) = true).
  { revert b Hb. apply byte_cases. by vm_compute. }
  by apply bool_decide_eq_true in H.
Qed.

Lemma byteToHex_hex b : is_byte b → forallb is_hex_char (byteToHex b) = true.
Proof. revert b. apply byte_cases. by vm_compute. Qed.

Lemma hexPair_byte hex i : is_byte (hexPair hex i).
Proof. apply to_u8_byte. Qed.

Lemma hexToBytes_bytes hex : all_bytes (hexToBytes hex).
Proof.
  unfold all_bytes, hexToBytes. apply Forall_fmap, Forall_forall.
  intros i _. apply hexPair_byte.
Qed.

Lemma hexToBytes_length hex : length (hexToBytes hex) = (length (chars hex) / 2)%nat.
Proof. unfold hexToBytes. by rewrite length_fmap, length_seq. Qed.

(** Reading one pair at a time from the front. *)
Lemma hexPair_shift c d l i : hexPair (c :: d :: l) (S i) = hexPair l i.
Proof. done. Qed.

Lemma hexToBytes_cons c d l :
  hexToBytes (of_chars (c :: d :: l)) = hexPair [c; d] 0 :: hexToBytes (of_chars l).
Proof.
  unfold hexToBytes. rewrite !chars_of_chars.
  replace (length (c :: d :: l) / 2)%nat with (S (length l / 2)).
  - cbn [seq fmap list_fmap]. f_equal.
    rewrite <- (fmap_S_seq 0), <- list_fmap_compose. apply list_fmap_ext. done.
  - cbn [length]. replace (S (S (length l))) with (length l + 1 * 2)%nat by lia.
    rewrite Nat.div_add by lia. lia.
Qed.

Lemma bytesToHex_cons b bs : bytesToHex (b :: bs) = of_chars (byteToHex b) +:+ bytesToHex bs.
Proof. unfold bytesToHex. cbn. by rewrite of_chars_app. Qed.

Lemma bytesToHex_chars bs : chars (bytesToHex bs) = mjoin (byteToHex <$> bs).
Proof. apply chars_of_chars. Qed.

Lemma bytesToHex_app bs cs : bytesToHex (bs ++ cs) = bytesToHex bs +:+ bytesToHex cs.
Proof.
  unfold bytesToHex. by rewrite fmap_app, join_app, of_chars_app.
Qed.

Lemma bytesToHex_length bs :
  all_bytes bs → length (chars (bytesToHex bs)) = (2 * length bs)%nat.
Proof.
  rewrite bytesToHex_chars. induction 1 as [|b bs Hb _ IH]; [done|].
  change (mjoin (byteToHex <$> b :: bs)) with (byteToHex b ++ mjoin (byteToHex <$> bs)).
  rewrite length_app, byteToHex_length, IH by done. cbn [length]. lia.
Qed.

Lemma hexToBytes_app_byte b l :
  is_byte b → hexToBytes (of_chars (byteToHex b ++ l)) = b :: hexToBytes (of_chars l).
Proof.
  intros Hb. pose proof (byteToHex_length b Hb) as Hl. pose proof (byteToHex_parse b Hb) as Hp.
  destruct (byteToHex b) as [|c [|d [|]]]; try done. cbn [app].
  rewrite hexToBytes_cons. f_equal. unfold hexPair, js_substr. cbn [take drop Nat.mul].
  rewrite Hp. by apply to_u8_id.
Qed.

Lemma hexToBytes_bytesToHex_aux bs : all_bytes bs → hexToBytes (bytesToHex bs) = bs.
Proof.
  induction 1 as [|b bs Hb _ IH]; [done|]. unfold bytesToHex in *.
  change (mjoin (byteToHex <$> b :: bs)) with (byteToHex b ++ mjoin (byteToHex <$> bs)).
  by rewrite hexToBytes_app_byte, IH.
Qed.

Lemma bytesToHex_inj bs cs :
  all_bytes bs → all_bytes cs → bytesToHex bs = bytesToHex cs → bs = cs.
Proof.
  intros Hb Hc H. by rewrite <- (hexToBytes_bytesToHex_aux bs), H, hexToBytes_bytesToHex_aux.
Qed.

Lemma hexPair_hex c d :
  is_hex_char c = true → is_hex_char d = true → byteToHex (hexPair [c; d] 0) = [c; d].
Proof.
  unfold is_hex_char.
  destruct (digit_val c) as [x|] eqn:Hx; [|done].
  destruct (digit_val d) as [y|] eqn:Hy; [|done].
  intros [Hx1 Hx2]%andb_prop [Hy1 Hy2]%andb_prop.
  apply Ascii.eqb_eq in Hx2, Hy2. subst c d.
  assert (0 <= x) by (unfold digit_val in Hx; repeat case_match; simplify_eq; lia).
  assert (0 <= y) by (unfold digit_val in Hy; repeat case_match; simplify_eq; lia).
  clear Hx Hy. apply (bool_decide_eq_true (_ = _)).
  assert (Hall : forallb (λ p, bool_decide (byteToHex (hexPair [digit_char (p `div` 16); digit_char (p `mod` 16)] 0)
     = [digit_char (p `div` 16); digit_char (p `mod` 16)])) (Z.of_nat <$> seq 0 256) = true) by by vm_compute.
  pose proof (byte_cases _ Hall (x * 16 + y)) as Hp. cbv beta in Hp.
  rewrite Z.div_add_l, Z.div_small, Z.add_0_r, Z.add_comm, Z_mod_plus_full, Z.mod_small in Hp by lia.
  apply Hp. unfold is_byte. lia.
Qed.

Lemma bytesToHex_hexToBytes_aux l :
  forallb is_hex_char l = true → Nat.even (length l) = true →
  bytesToHex (hexToBytes (of_chars l)) = of_chars l.
Proof.
  induction l as [l IH] using (induction_ltof1 _ (@length ascii)).
  destruct l as [|c [|d l]]; [done|done|]. simpl. intros Hh He.
  apply andb_prop in Hh as [Hc Hh]. apply andb_prop in Hh as [Hd Hh].
  change (String c (String d (of_chars l))) with (of_chars (c :: d :: l)).
  rewrite hexToBytes_cons, bytesToHex_cons, hexPair_hex by done.
  rewrite IH; [done|unfold ltof; simpl; lia|done..].
Qed.

(** ** Theorems *)

(** Decoding what [bytesToHex] wrote gives the bytes back, for every byte
    array: nothing is lost when transactions, scripts and keys travel as hex. *)
Theorem hexToBytes_bytesToHex bs : all_bytes bs → hexToBytes (bytesToHex bs) = bs.
Proof. apply hexToBytes_bytesToHex_aux. Qed.

Lemma hexToBytes_bytesToHex_witness :
  all_bytes [0; 28; 255] ∧ hexToBytes (bytesToHex [0; 28; 255]) = [0; 28; 255].
Proof.
  assert (all_bytes [0; 28; 255]) by (repeat constructor; lia).
  split; [done|]. by apply (hexToBytes_bytesToHex [0; 28; 255]).
Defined.
