(* ===== verification/JsValue.v ===== *)
(** * JavaScript values

    What the sources do with the data [JSON.parse] and [resp.json()] give them:
    property access, truthiness, the conversions [Number], [BigInt] and
    [String], iteration, and the arithmetic and display of numbers the screens
    use.  [None] is [undefined].  The texts of the errors the language itself
    raises are the engine's; one representative text stands for each. *)

From S2P Require Import Prelude JsString JsNum Json Hex.

Abbreviation val := (option json).

(** ** Arithmetic on doubles *)

Definition num_add (x y : num) : num :=
  match x, y with
  | NaN, _ | _, NaN => NaN
  | Inf a, Inf b => if Bool.eqb a b then Inf a else NaN
  | Inf a, _ => Inf a
  | _, Inf b => Inf b
  | Fin m1 e1, Fin m2 e2 =>
      let e := Z.min e1 e2 in
      let '(p, q) := num_ratio (m1 * 2 ^ (e1 - e) + m2 * 2 ^ (e2 - e)) e in rnd p q
  end.

Definition num_neg (x : num) : bool :=
  match x with NaN => false | Inf a => a | Fin m _ => m <? 0 end.

Definition num_div (x y : num) : num :=
  match x, y with
  | NaN, _ | _, NaN => NaN
  | Inf _, Inf _ => NaN
  | Inf a, _ => Inf (xorb a (num_neg y))
  | Fin _ _, Inf _ => Fin 0 0
  | Fin m1 e1, Fin m2 e2 =>
      if m2 =? 0 then (if m1 =? 0 then NaN else Inf (m1 <? 0))
      else
        let '(p1, q1) := num_ratio m1 e1 in
        let '(p2, q2) := num_ratio m2 e2 in
        if 0 <? p2 then rnd (p1 * q2) (q1 * p2) else rnd (- (p1 * q2)) (q1 * - p2)
  end.

(** [x < y] *)
Definition num_lt (x y : num) : bool :=
  match x, y with
  | NaN, _ | _, NaN => false
  | Inf a, Inf b => a && negb b
  | Inf a, _ => a
  | _, Inf b => negb b
  | Fin m1 e1, Fin m2 e2 => let e := Z.min e1 e2 in m1 * 2 ^ (e1 - e) <? m2 * 2 ^ (e2 - e)
  end.

Definition num_floor (x : num) : num :=
  match x with Fin m e => if 0 <=? e then x else Fin (m / 2 ^ (- e)) 0 | _ => x end.

Definition is_finite (x : num) : bool := match x with Fin _ _ => true | _ => false end.

(** [Math.max(x, y)] *)
Definition num_max (x y : num) : num :=
  match x, y with NaN, _ | _, NaN => NaN | _, _ => if num_lt x y then y else x end.

(** Commas between groups of three digits, from the right. *)
Fixpoint group3 (l : list ascii) : list ascii :=
  match l with
  | c :: r => if ((length r =? 0) || negb (length r mod 3 =? 0))%nat then c :: group3 r else c :: ","%char :: group3 r
  | [] => []
  end.

Fixpoint drop_zeros (l : list ascii) : list ascii :=
  match l with c :: l' => if Ascii.eqb c "0" then drop_zeros l' else l | [] => [] end.

(** [x.toLocaleString("en-US", { maximumFractionDigits: 2 })] *)
Definition locale2 (x : num) : string :=
  match x with
  | NaN => "NaN"
  | Inf neg => (if neg then "-" else "") +:+ "∞"
  | Fin m e =>
      let '(p, q) := num_ratio (Z.abs m) e in
      let n := (2 * p * 100 + q) / (2 * q) in
      let frac := reverse (drop_zeros (reverse (pad_start 2 "0" (chars (show (n mod 100)))))) in
      (if m <? 0 then "-" else "") +:+ of_chars (group3 (chars (show (n / 100)))) +:+
      (match frac with [] => "" | _ => "." +:+ of_chars frac end)
  end.

(** ** Conversions from text *)

(** The whole of [l] as a decimal literal. *)
Definition decimal_literal (l : list ascii) : option num :=
  let ds := take_digits 10 l in
  let rest := drop (length ds) l in
  let '(fs, rest) :=
    match rest with
    | c :: r => if Ascii.eqb c "." then let fs := take_digits 10 r in (fs, drop (length fs) r) else ([], rest)
    | [] => ([], [])
    end in
  match ds ++ fs, read_exp rest with
  | _ :: _, Ok (ex, []) => Some (decimal (of_digits 10 (ds ++ fs)) (ex - Z.of_nat (length fs)))
  | _, _ => None
  end.

(** The whole of [l] as digits of a radix. *)
Definition all_digits (radix : Z) (l : list ascii) : option Z :=
  let ds := take_digits radix l in
  if (0 <? length ds)%nat && (length ds =? length l)%nat then Some (of_digits radix ds) else None.

(** The radix of a [0x], [0o] or [0b] prefix, and the rest. *)
Definition radix_prefix (l : list ascii) : option (Z * list ascii) :=
  match l with
  | z :: x :: r =>
      if negb (Ascii.eqb z "0") then None
      else if Ascii.eqb (lower_char x) "x" then Some (16, r)
      else if Ascii.eqb (lower_char x) "o" then Some (8, r)
      else if Ascii.eqb (lower_char x) "b" then Some (2, r)
      else None
  | _ => None
  end.

(** [Number(s)] *)
Definition string_to_number (s : string) : num :=
  let l := chars (js_trim s) in
  match l with
  | [] => Fin 0 0
  | _ =>
      match radix_prefix l with
      | Some (radix, r) => match all_digits radix r with Some z => num_of_Z z | None => NaN end
      | None =>
          let '(neg, r) := split_sign l in
          match (if String.eqb (of_chars r) "Infinity" then Some (Inf false) else decimal_literal r) with
          | Some x => if neg then num_opp x else x
          | None => NaN
          end
      end
  end.

(** [BigInt(s)] *)
Definition string_to_bigint (s : string) : result Z :=
  let l := chars (js_trim s) in
  let bad := Throw (ExSyntax ("Cannot convert " +:+ s +:+ " to a BigInt")) in
  match l with
  | [] => Ok 0
  | _ =>
      match radix_prefix l with
      | Some (radix, r) => match all_digits radix r with Some z => Ok z | None => bad end
      | None =>
          let '(neg, r) := split_sign l in
          match all_digits 10 r with Some z => Ok (if neg then - z else z) | None => bad end
      end
  end.

(** ** Conversions of values *)

(** [String(v)] *)
Fixpoint json_to_string (v : json) : string :=
  match v with
  | JNull => "null"
  | JBool b => if b then "true" else "false"
  | JNum x => num_to_string x
  | JStr s => s
  | JArr l => js_join "," ((λ v, match v with JNull => "" | _ => json_to_string v end) <$> l)
  | JObj _ => "[object Object]"
  end.
Definition to_str (v : val) : string :=
  match v with None => "undefined" | Some v => json_to_string v end.

(** [Number(v)] *)
Definition to_num (v : val) : num :=
  match v with
  | None => NaN
  | Some JNull => Fin 0 0
  | Some (JBool b) => num_of_Z (if b then 1 else 0)
  | Some (JNum x) => x
  | Some v => string_to_number (json_to_string v)
  end.

(** [BigInt(v)] *)
Definition to_bigint (v : val) : result Z :=
  match v with
  | None => Throw (ExType "Cannot convert undefined to a BigInt")
  | Some JNull => Throw (ExType "Cannot convert null to a BigInt")
  | Some (JBool b) => Ok (if b then 1 else 0)
  | Some (JNum x) => num_to_bigint x
  | Some v => string_to_bigint (json_to_string v)
  end.

Definition truthy (v : val) : bool :=
  match v with
  | None | Some JNull => false
  | Some (JBool b) => b
  | Some (JNum x) => negb (num_falsy x)
  | Some (JStr s) => negb (String.eqb s "")
  | Some _ => true
  end.

(** [a || b] *)
Definition or_val (a b : val) : val := if truthy a then a else b.
(** [v == null] *)
Definition nullish (v : val) : bool := match v with None | Some JNull => true | _ => false end.
(** [a ?? b] *)
Definition coalesce (a b : val) : val := if nullish a then b else a.

(** ** Properties *)

(** [v[k]] *)
Definition get (v : val) (k : string) : result val :=
  match v with
  | None => Throw (ExType ("Cannot read properties of undefined (reading '" +:+ k +:+ "')"))
  | Some JNull => Throw (ExType ("Cannot read properties of null (reading '" +:+ k +:+ "')"))
  | Some (JObj l) => Ok (obj_get k l)
  | Some (JArr l) => Ok (if String.eqb k "length" then Some (jint (Z.of_nat (length l))) else None)
  | Some (JStr s) => Ok (if String.eqb k "length" then Some (jint (js_length s)) else None)
  | Some _ => Ok None
  end.

(** [v?.k] *)
Definition get_opt (v : val) (k : string) : result val := if nullish v then Ok None else get v k.

(** [v[i]] on an array. *)
Definition get_at (v : val) (i : nat) : result val :=
  match v with
  | None => Throw (ExType "Cannot read properties of undefined")
  | Some JNull => Throw (ExType "Cannot read properties of null")
  | Some (JArr l) => Ok (l !! i)
  | Some _ => Ok None
  end.
Definition get_at_opt (v : val) (i : nat) : result val := if nullish v then Ok None else get_at v i.

(** [v[k] = x] in module code: assigning to a property of a primitive throws. *)
Definition set_prop (v : json) (k : string) (x : json) : result json :=
  match v with
  | JObj l => Ok (JObj (obj_set k x l))
  | JArr l => Ok (JArr l)
  | _ => Throw (ExType ("Cannot create property '" +:+ k +:+ "'"))
  end.

(** [delete v[k]] *)
Fixpoint obj_del (k : string) (l : list (string * json)) : list (string * json) :=
  match l with
  | [] => []
  | (k', v) :: l => if String.eqb k k' then l else (k', v) :: obj_del k l
  end.

(** The characters of a string, one per code point. *)
Fixpoint code_points (l : list ascii) : list string :=
  match l with
  | [] => []
  | c :: l =>
      match code_points l with
      | w :: ws =>
          match chars w with
          | d :: _ => if (128 <=? code d) && (code d <? 192) then of_chars (c :: chars w) :: ws
                      else of_chars [c] :: w :: ws
          | [] => of_chars [c] :: ws
          end
      | [] => [of_chars [c]]
      end
  end.

(** [for (const x of v)] *)
Definition iterate (v : val) : result (list json) :=
  match v with
  | Some (JArr l) => Ok l
  | Some (JStr s) => Ok (JStr <$> code_points (chars s))
  | _ => Throw (ExType "value is not iterable")
  end.

(** An object literal whose [undefined] fields [JSON.stringify] leaves out. *)
Definition obj (fields : list (string * val)) : json :=
  JObj (omap (λ kv, (λ v, (kv.1, v)) <$> kv.2) fields).

(** [hexToBytes(v)] on a value that should be a string: [undefined] and [null]
    have no [length], an array has no [substr], anything else has no length and
    gives no bytes. *)
Definition hex_val (v : val) : result bytes :=
  match v with
  | Some (JStr s) => Ok (hexToBytes s)
  | None | Some JNull => Throw (ExType "Cannot read properties of undefined (reading 'length')")
  | Some (JArr (_ :: _ :: _)) => Throw (ExType "hex.substr is not a function")
  | Some _ => Ok []
  end.

(** ** Lemmas *)

Lemma obj_get_set k v l : obj_get k (obj_set k v l) = Some v.
Proof.
  induction l as [|[k' v'] l IH]; cbn [obj_set obj_get]; [by rewrite String.eqb_refl|].
  destruct (String.eqb k k') eqn:E; cbn [obj_get]; rewrite E; done.
Qed.

Lemma obj_get_set_ne k k' v l : k ≠ k' → obj_get k (obj_set k' v l) = obj_get k l.
Proof.
  intros Hk. induction l as [|[k2 v2] l IH]; cbn [obj_set obj_get].
  - apply String.eqb_neq in Hk. by rewrite Hk.
  - destruct (String.eqb_spec k' k2) as [->|]; cbn [obj_get]; [|by rewrite IH].
    apply String.eqb_neq in Hk. by rewrite Hk.
Qed.

Lemma obj_set_keys k v l : (obj_set k v l).*1 = if bool_decide (k ∈ l.*1) then l.*1 else l.*1 ++ [k].
Proof.
  induction l as [|[k' v'] l IH]; [done|]. cbn [obj_set]. destruct (String.eqb_spec k k') as [->|Hn].
  - rewrite bool_decide_true by (left). done.
  - rewrite !fmap_cons, IH. cbn [fst]. repeat case_bool_decide; set_solver.
Qed.

Lemma obj_set_nodup k v l : NoDup l.*1 → NoDup (obj_set k v l).*1.
Proof.
  intros Hl. rewrite obj_set_keys. case_bool_decide; [done|].
  apply list.NoDup_app. split; [done|]. split; [set_solver|]. apply NoDup_singleton.
Qed.

Lemma obj_del_get_ne k k' l : k ≠ k' → obj_get k (obj_del k' l) = obj_get k l.
Proof.
  intros Hk. induction l as [|[k2 v2] l IH]; [done|]. cbn [obj_del obj_get].
  destruct (String.eqb_spec k' k2) as [->|].
  - destruct (String.eqb_spec k k2); done.
  - cbn [obj_get]. by rewrite IH.
Qed.

(** [BigInt] of the decimal digits the gateway sends. *)
Lemma all_digits_show n : 0 <= n → all_digits 10 (digits_string 10 n) = Some n.
Proof.
  intros Hn. destruct (digits_string_spec n Hn) as (ds & -> & Hd & Hv & Hne).
  unfold all_digits. pose proof (take_digits_app 10 ds [] ltac:(lia) Hd) as Ht.
  rewrite !app_nil_r in Ht. rewrite Ht, length_fmap, Nat.eqb_refl, Hv.
  destruct ds; done.
Qed.

(** [s || d] on texts. *)
Lemma or_str s d : or_val (Some (JStr s)) (Some (JStr d)) = Some (JStr (if String.eqb s "" then d else s)).
Proof. unfold or_val, truthy. by destruct (String.eqb s ""). Qed.

(** [ToUint32], how a [DataView] reads the number it is given. *)
Definition to_uint32 (x : num) : Z :=
  match x with
  | Fin m e => (if 0 <=? e then m * 2 ^ e else Z.quot m (2 ^ (- e))) mod 2 ^ 32
  | _ => 0
  end.
