(* ===== verification/JsDate.v ===== *)
(** * Dates

    [new Date(ms).toISOString()] as the language defines it: a time is a number
    of milliseconds since 1970 in a calendar without leap seconds, and the year,
    the month and the day are found from the day number. *)

From S2P Require Import Prelude JsString JsNum.

(** ** The calendar *)

(** [DayFromYear]: the number of the first day of a year. *)
Definition day_from_year (y : Z) : Z :=
  365 * (y - 1970) + (y - 1969) / 4 - (y - 1901) / 100 + (y - 1601) / 400.

Definition leap (y : Z) : bool := (y mod 4 =? 0) && (negb (y mod 100 =? 0) || (y mod 400 =? 0)).

(** [YearFromTime]: the year whose first day is the last one not after [d]; 400
    years have 146097 days, and the quotient is at most one year off. *)
Definition year_from_day (d : Z) : Z :=
  let y := 1970 + 400 * d / 146097 in
  if d <? day_from_year y then y - 1 else if day_from_year (y + 1) <=? d then y + 1 else y.

(** The first day of each month within its year. *)
Definition month_starts (lp : bool) : list Z :=
  let k := if lp then 1 else 0 in
  [0; 31; 59 + k; 90 + k; 120 + k; 151 + k; 181 + k; 212 + k; 243 + k; 273 + k; 304 + k; 334 + k].
Definition month_start (lp : bool) (m : Z) : Z := default 0 (month_starts lp !! Z.to_nat m).

(** [MonthFromTime], from 0. *)
Definition month_of (lp : bool) (d : Z) : Z :=
  Z.of_nat (length (filter (λ s, s <= d) (month_starts lp))) - 1.

(** ** Text *)

Definition padded (k : nat) (z : Z) : list ascii := pad_start k "0" (chars (show z)).

Definition iso_year (y : Z) : list ascii :=
  if (0 <=? y) && (y <=? 9999) then padded 4 y
  else (if y <? 0 then "-"%char else "+"%char) :: padded 6 (Z.abs y).

Definition iso_string (t : Z) : string :=
  let d := t / 86400000 in let ms := t mod 86400000 in
  let y := year_from_day d in
  let dd := d - day_from_year y in
  let m := month_of (leap y) dd in
  of_chars (iso_year y ++ "-"%char :: padded 2 (m + 1) ++ "-"%char :: padded 2 (dd - month_start (leap y) m + 1) ++
    "T"%char :: padded 2 (ms / 3600000) ++ ":"%char :: padded 2 (ms / 60000 mod 60) ++ ":"%char ::
    padded 2 (ms / 1000 mod 60) ++ "."%char :: padded 3 (ms mod 1000) ++ ["Z"%char]).

(** [new Date(x).toISOString()]: [TimeClip] keeps a hundred million days. *)
Definition toISOString (x : num) : result string :=
  match x with
  | Fin m e =>
      let '(p, q) := num_ratio m e in
      if 8640000000000000 * q <? Z.abs p then Throw (ExRange "Invalid time value")
      else Ok (iso_string (Z.quot p q))
  | _ => Throw (ExRange "Invalid time value")
  end.

(** [s.replace(needle, rep)] for a text: the first occurrence. *)
Fixpoint replace_first (needle rep l : list ascii) : list ascii :=
  if is_prefix needle l then rep ++ drop (length needle) l
  else match l with [] => [] | c :: l => c :: replace_first needle rep l end.
Definition js_replace (needle rep s : string) : string :=
  of_chars (replace_first (chars needle) (chars rep) (chars s)).

(** ** Lemmas *)

Lemma year_step y : day_from_year (y + 1) = day_from_year y + (if leap y then 366 else 365).
Proof.
  unfold day_from_year, leap.
  destruct (Z.eqb_spec (y mod 4) 0), (Z.eqb_spec (y mod 100) 0), (Z.eqb_spec (y mod 400) 0); cbn [andb negb orb];
    Z.div_mod_to_equations; lia.
Qed.

Lemma year_from_day_spec d :
  day_from_year (year_from_day d) <= d < day_from_year (year_from_day d + 1).
Proof.
  unfold year_from_day. set (y := 1970 + 400 * d / 146097).
  destruct (Z.ltb_spec d (day_from_year y)); [|destruct (Z.leb_spec (day_from_year (y + 1)) d)].
  - replace (y - 1 + 1) with y by lia. split; [|lia]. unfold day_from_year, y in *. Z.div_mod_to_equations; lia.
  - split; [lia|]. unfold day_from_year, y in *. Z.div_mod_to_equations; lia.
  - lia.
Qed.

(** Doubles of integers: multiplying by an integer constant rounds the product. *)
Lemma rne_scale a b c : 0 < b → 0 < c → rne (a * c) (b * c) = rne a b.
Proof.
  intros Hb Hc. unfold rne. rewrite Z.div_mul_cancel_r, Z.mul_mod_distr_r by lia.
  destruct (Z.ltb_spec (2 * (a mod b)) b), (Z.ltb_spec (2 * (a mod b * c)) (b * c)); try nia; try done.
  destruct (Z.ltb_spec b (2 * (a mod b))), (Z.ltb_spec (b * c) (2 * (a mod b * c))); try nia; done.
Qed.

(** A power of two in both parts of a fraction changes nothing. *)
Lemma ratio_ge_scale p q c k : 0 < c → ratio_ge (p * c) (q * c) k = ratio_ge p q k.
Proof.
  intros Hc. unfold ratio_ge. destruct (0 <=? k); apply eq_true_iff_eq; rewrite !Z.leb_le.
  - replace (q * c * 2 ^ k) with (q * 2 ^ k * c) by lia. by rewrite <- Z.mul_le_mono_pos_r.
  - replace (p * c * 2 ^ (- k)) with (p * 2 ^ (- k) * c) by lia. by rewrite <- Z.mul_le_mono_pos_r.
Qed.

Lemma rnd_pow2 p q s : 0 < q → 0 <= s → rnd (p * 2 ^ s) (q * 2 ^ s) = rnd p q.
Proof.
  intros Hq Hs. assert (Hc : 0 < 2 ^ s) by (apply Z.pow_pos_nonneg; lia). unfold rnd.
  destruct (Z.eqb_spec p 0) as [->|Hp]; [done|]. destruct (Z.eqb_spec (p * 2 ^ s) 0); [nia|].
  assert (E : (p * 2 ^ s <? 0) = (p <? 0)) by (apply eq_true_iff_eq; rewrite !Z.ltb_lt; nia). rewrite E, Z.abs_mul, (Z.abs_eq (2 ^ s)) by lia.
  set (a := Z.abs p). assert (Ha : 0 < a) by (unfold a; lia). clearbody a. unfold rnd_pos.
  assert (El : ratio_log2 (a * 2 ^ s) (q * 2 ^ s) = ratio_log2 a q).
  { unfold ratio_log2. rewrite !Z.log2_mul_pow2 by lia. replace (s + Z.log2 a - (s + Z.log2 q)) with (Z.log2 a - Z.log2 q) by lia. by rewrite ratio_ge_scale. }
  rewrite El. set (e := fexp _). assert (Em : mantissa (a * 2 ^ s) (q * 2 ^ s) e = mantissa a q e); [|by rewrite Em].
  unfold mantissa. destruct (Z.leb_spec 0 e).
  - assert (0 < 2 ^ e) by (apply Z.pow_pos_nonneg; lia). replace (q * 2 ^ s * 2 ^ e) with (q * 2 ^ e * 2 ^ s) by lia. by rewrite rne_scale by nia.
  - replace (a * 2 ^ s * 2 ^ (- e)) with (a * 2 ^ (- e) * 2 ^ s) by lia. by rewrite rne_scale by lia.
Qed.

Lemma num_mul_int a b : 0 < a < 2 ^ 53 → 0 < b → num_mul (num_of_Z a) (Fin b 0) = num_of_Z (a * b).
Proof.
  intros Ha Hb. destruct (num_of_Z_small a Ha) as (s & Hs & ->). cbn [num_mul]. rewrite Z.add_0_r.
  destruct (Z.leb_spec 0 (- s)).
  - assert (s = 0) as -> by lia. cbn. by rewrite !Z.mul_1_r.
  - rewrite Z.opp_involutive. replace (a * 2 ^ s * b) with (a * b * 2 ^ s) by lia.
    rewrite <- (Z.mul_1_l (2 ^ s)) at 2. apply rnd_pow2; nia.
Qed.

Lemma toISOString_int z : 0 < z <= 8640000000000000 → toISOString (num_of_Z z) = Ok (iso_string z).
Proof.
  intros Hz. destruct (num_of_Z_small z) as (s & Hs & ->); [lia|]. unfold toISOString, num_ratio.
  destruct (Z.leb_spec 0 (- s)).
  - assert (s = 0) as -> by lia. change (2 ^ 0) with 1. change (2 ^ (- 0)) with 1. rewrite !Z.mul_1_r.
    destruct (Z.ltb_spec 8640000000000000 (Z.abs z)); [lia|]. by rewrite Z.quot_1_r.
  - rewrite Z.opp_involutive. assert (0 < 2 ^ s) by lia.
    destruct (Z.ltb_spec (8640000000000000 * 2 ^ s) (Z.abs (z * 2 ^ s))); [nia|]. by rewrite Z.quot_mul by lia.
Qed.

(** A decidable fact below a bound, by evaluation. *)
Lemma below (P : Z → Prop) `{∀ z, Decision (P z)} (n : Z) :
  forallb (λ z, bool_decide (P z)) (Z.of_nat <$> seq 0 (Z.to_nat n)) = true → ∀ z, 0 <= z < n → P z.
Proof.
  intros H0 z Hz. rewrite forallb_forall in H0. apply (bool_decide_unpack _), Is_true_true.
  apply H0, list_elem_of_In, list_elem_of_fmap. exists (Z.to_nat z). split; [lia|]. apply elem_of_seq. lia.
Qed.

Lemma month_of_spec (lp : bool) dd : 0 <= dd < (if lp then 366 else 365) →
  0 <= month_of lp dd < 12 ∧ 0 <= dd - month_start lp (month_of lp dd) < 31.
Proof.
  destruct lp; revert dd; [apply (below (λ dd, 0 <= month_of true dd < 12 ∧ 0 <= dd - month_start true (month_of true dd) < 31))|
    apply (below (λ dd, 0 <= month_of false dd < 12 ∧ 0 <= dd - month_start false (month_of false dd) < 31))]; by vm_compute.
Qed.

(** Two, three and four digits. *)
Definition digit (z : Z) : ascii := digit_char (z mod 10).

Lemma padded2 z : 0 <= z < 100 → padded 2 z = [digit (z / 10); digit z].
Proof. revert z. apply (below (λ z, padded 2 z = [digit (z / 10); digit z])). by vm_compute. Qed.

Lemma padded4 z : 0 <= z < 10000 → padded 4 z = [digit (z / 1000); digit (z / 100); digit (z / 10); digit z].
Proof.
  revert z. apply (below (λ z, padded 4 z = [digit (z / 1000); digit (z / 100); digit (z / 10); digit z])). by vm_compute.
Qed.

Lemma digit_val_digit z : digit_val (digit z) = Some (z mod 10).
Proof.
  unfold digit. apply (below (λ d, digit_val (digit_char d) = Some d) 10); [by vm_compute|].
  apply Z.mod_pos_bound. lia.
Qed.

Lemma replace_first_here needle rep l1 l2 c r :
  needle = c :: r → c ∉ l1 → replace_first needle rep (l1 ++ needle ++ l2) = l1 ++ rep ++ l2.
Proof.
  intros -> Hc. induction l1 as [|a l1 IH].
  - cbn [Datatypes.app]. cbn [replace_first]. assert (Hp : ∀ p l, is_prefix p (p ++ l) = true).
    { induction p as [|b p IHp]; intros; cbn; [by destruct l|]. rewrite Ascii.eqb_refl. apply IHp. }
    change (c :: r ++ l2) with ((c :: r) ++ l2). rewrite Hp. cbn. by rewrite drop_app_length.
  - cbn [Datatypes.app replace_first]. apply not_elem_of_cons in Hc as [Hca Hc].
    cbn [is_prefix]. rewrite (proj2 (Ascii.eqb_neq c a)) by done. cbn [andb]. f_equal. by apply IH.
Qed.

(** ** Reading the text back *)

Definition digits_value (l : list ascii) : option Z :=
  of_digits 10 <$> mapM digit_val l.

(** [YYYY-MM-DD?HH:MM:SS...] in seconds since 1970. *)
Definition read_time (s : string) : option Z :=
  match chars s with
  | y1 :: y2 :: y3 :: y4 :: _ :: m1 :: m2 :: _ :: d1 :: d2 :: _ :: h1 :: h2 :: _ :: i1 :: i2 :: _ :: s1 :: s2 :: _ =>
      y ← digits_value [y1; y2; y3; y4]; m ← digits_value [m1; m2]; d ← digits_value [d1; d2];
      h ← digits_value [h1; h2]; i ← digits_value [i1; i2]; s ← digits_value [s1; s2];
      Some ((day_from_year y + month_start (leap y) (m - 1) + (d - 1)) * 86400 + h * 3600 + i * 60 + s)
  | _ => None
  end.

Lemma digits2 z : 0 <= z < 100 → digits_value [digit (z / 10); digit z] = Some z.
Proof.
  intros Hz. unfold digits_value. cbn [mapM]. rewrite !digit_val_digit. cbn. f_equal.
  Z.div_mod_to_equations; lia.
Qed.
Lemma digits4 z : 0 <= z < 10000 →
  digits_value [digit (z / 1000); digit (z / 100); digit (z / 10); digit z] = Some z.
Proof.
  intros Hz. unfold digits_value. cbn [mapM]. rewrite !digit_val_digit. cbn. f_equal.
  Z.div_mod_to_equations; lia.
Qed.

(** The fields of a second between 1970 and 9999. *)
Lemma second_fields t : 0 <= t < 253402300800 →
  let d := t / 86400 in let y := year_from_day d in let dd := d - day_from_year y in
  let m := month_of (leap y) dd in
  0 <= y < 10000 ∧ 0 <= m < 12 ∧ 0 <= dd - month_start (leap y) m < 31 ∧ 0 <= t mod 86400 / 3600 < 24.
Proof.
  intros Ht d y dd m. pose proof (year_from_day_spec d) as [H1 H2]. fold y in H1, H2. rewrite year_step in H2.
  assert (Hd : 0 <= d < 2932897) by (unfold d; Z.div_mod_to_equations; lia).
  destruct (month_of_spec (leap y) dd) as [Hm Hdd]; [unfold dd; destruct (leap y); lia|]. fold m in Hm, Hdd.
  split_and!; try lia; try (Z.div_mod_to_equations; lia);
    destruct (leap y); unfold day_from_year in H1, H2; Z.div_mod_to_equations; lia.
Qed.

(** The shown text, with a blank for the [T] and no milliseconds. *)
Definition shown_time (t : Z) : list ascii :=
  let d := t / 86400 in let s := t mod 86400 in
  let y := year_from_day d in let dd := d - day_from_year y in let m := month_of (leap y) dd in
  (padded 4 y ++ "-"%char :: padded 2 (m + 1) ++ "-"%char :: padded 2 (dd - month_start (leap y) m + 1)) ++
  " "%char :: (padded 2 (s / 3600) ++ ":"%char :: padded 2 (s / 60 mod 60) ++ ":"%char :: padded 2 (s mod 60)) ++
  chars " UTC".

Lemma digit_ne z c : 10 <= default 10 (digit_val c) → digit z ≠ c.
Proof.
  intros Hc <-. rewrite digit_val_digit in Hc. cbn in Hc. pose proof (Z.mod_pos_bound z 10). lia.
Qed.

Lemma shown_time_iso t : 0 <= t < 253402300800 →
  js_replace ".000Z" " UTC" (js_replace "T" " " (iso_string (t * 1000))) = of_chars (shown_time t).
Proof.
  intros Ht. destruct (second_fields t Ht) as (Hy & Hm & Hdd & Hh). unfold iso_string, shown_time.
  replace (t * 1000 / 86400000) with (t / 86400) by (Z.div_mod_to_equations; lia).
  replace (t * 1000 mod 86400000) with (t mod 86400 * 1000) by (Z.div_mod_to_equations; lia).
  set (s := t mod 86400) in *. assert (0 <= s < 86400) by (unfold s; Z.div_mod_to_equations; lia).
  set (d := t / 86400) in *. set (y := year_from_day d) in *. set (dd := d - day_from_year y) in *.
  set (m := month_of (leap y) dd) in *.
  replace (s * 1000 / 3600000) with (s / 3600) by (Z.div_mod_to_equations; lia).
  replace (s * 1000 / 60000) with (s / 60) by (Z.div_mod_to_equations; lia).
  replace (s * 1000 / 1000) with s by (Z.div_mod_to_equations; lia).
  replace (s * 1000 mod 1000) with 0 by (Z.div_mod_to_equations; lia).
  unfold iso_year. destruct (Z.leb_spec 0 y), (Z.leb_spec y 9999); try lia. cbn [andb].
  pose (l1 := padded 4 y ++ "-"%char :: padded 2 (m + 1) ++ "-"%char :: padded 2 (dd - month_start (leap y) m + 1)).
  pose (l2 := padded 2 (s / 3600) ++ ":"%char :: padded 2 (s / 60 mod 60) ++ ":"%char :: padded 2 (s mod 60)).
  assert (Hc : ∀ c, 10 <= default 10 (digit_val c) → c ≠ "-"%char → c ≠ ":"%char → (c ∉ l1) ∧ (c ∉ l2)).
  { intros c Hc Hc1 Hc2. assert (Hn : ∀ z, c ≠ digit z) by (intros z E; by apply (digit_ne z c Hc)). unfold l1, l2.
    rewrite padded4, !padded2 by (try (Z.div_mod_to_equations; lia); lia). cbn [Datatypes.app].
    split; repeat (apply not_elem_of_cons; split; [done || apply Hn|]); apply not_elem_of_nil. }
  destruct (Hc "T"%char) as [HT _]; [done..|]. destruct (Hc "."%char) as [Hd1 Hd2]; [done..|].
  unfold js_replace. rewrite !chars_of_chars.
  match goal with |- context [replace_first (chars "T") ?r ?l] =>
    replace l with (l1 ++ chars "T" ++ l2 ++ chars ".000Z")
      by (unfold l1, l2; repeat progress (rewrite <- ?app_assoc; cbn [Datatypes.app]); done) end.
  rewrite (replace_first_here (chars "T") _ l1 _ "T"%char []) by (done || by apply HT).
  rewrite <- (app_nil_r (chars ".000Z")).
  replace (l1 ++ chars " " ++ l2 ++ chars ".000Z" ++ []) with ((l1 ++ chars " " ++ l2) ++ chars ".000Z" ++ [])
    by (by rewrite <- !app_assoc).
  rewrite (replace_first_here (chars ".000Z") _ (l1 ++ chars " " ++ l2) [] "."%char (chars "000Z"));
    [|done|].
  { fold l1. fold l2. by rewrite app_nil_r, <- !app_assoc. }
  rewrite !not_elem_of_app. split; [done|]. split; [|done]. apply not_elem_of_cons. split; [done|apply not_elem_of_nil].
Qed.

Lemma read_shown t : 0 <= t < 253402300800 → read_time (of_chars (shown_time t)) = Some t.
Proof.
  intros Ht. destruct (second_fields t Ht) as (Hy & Hm & Hdd & Hh). unfold read_time, shown_time.
  rewrite chars_of_chars. set (s := t mod 86400) in *. assert (0 <= s < 86400) by (unfold s; Z.div_mod_to_equations; lia).
  set (d := t / 86400) in *. set (y := year_from_day d) in *. set (dd := d - day_from_year y) in *.
  set (m := month_of (leap y) dd) in *.
  rewrite padded4, !padded2 by (try (Z.div_mod_to_equations; lia); lia). cbn [Datatypes.app].
  rewrite digits4, !digits2 by (try (Z.div_mod_to_equations; lia); lia). cbn [mbind option_bind]. f_equal.
  replace (m + 1 - 1) with m by lia. unfold dd, d, s. Z.div_mod_to_equations; lia.
Qed.
