(* ===== verification/Python.v ===== *)
(** * Python as the servers use it

    Values that come out of [json.loads] or go into [jsonify], exceptions, and
    the operations of the language and its standard library that the gateway,
    the explorer and the faucet apply to them.  Integers are unbounded, floats are
    the doubles of JsNum, texts are their UTF-8 bytes; [strip], [lower] and
    [upper] are those of ASCII text. *)

From Stdlib Require Import Sorted.
From S2P Require Import Prelude JsString JsNum JsValue JsDate.

Inductive py :=
  | PNone
  | PBool (b : bool)
  | PInt (z : Z)
  | PFloat (x : num)
  | PStr (s : string)
  | PList (l : list py)
  | PDict (l : list (string * py)).

(** The exceptions the sources tell apart; any other is known by its class. *)
Inductive exc :=
  | RpcError (code : Z) (message : string)
  | StakingError (code message : string)
  | ReferralError (code message : string)
  | PyError (cls : string).

Inductive res (A : Type) :=
  | Val (a : A)
  | Exc (e : exc).
Arguments Val {A} a.
Arguments Exc {A} e.

#[export] Instance res_ret : MRet res := @Val.
#[export] Instance res_bind : MBind res := λ A B f m, match m with Val a => f a | Exc e => Exc e end.
#[export] Instance res_fmap : FMap res := λ A B f m, match m with Val a => Val (f a) | Exc e => Exc e end.

Lemma res_bind_val {A B} (m : res A) (f : A → res B) b : m ≫= f = Val b ↔ ∃ a, m = Val a ∧ f a = Val b.
Proof. destruct m; cbn; split; [intros ?; by eexists|by intros (? & [= <-] & ?)|done|by intros (? & ? & ?)]. Qed.

(** ** Values *)

(** [bool(v)] *)
Definition py_truthy (v : py) : bool :=
  match v with
  | PNone => false
  | PBool b => b
  | PInt z => negb (z =? 0)
  | PFloat (Fin m _) => negb (m =? 0)
  | PFloat _ => true
  | PStr s => negb (String.eqb s "")
  | PList l => match l with [] => false | _ => true end
  | PDict l => match l with [] => false | _ => true end
  end.

(** [v or w] *)
Definition py_or (v w : py) : py := if py_truthy v then v else w.

Fixpoint dict_get (k : string) (l : list (string * py)) : option py :=
  match l with [] => None | (k', v) :: l => if String.eqb k k' then Some v else dict_get k l end.

(** [v.get(k)] *)
Definition py_get (v : py) (k : string) : res py :=
  match v with PDict l => Val (default PNone (dict_get k l)) | _ => Exc (PyError "AttributeError") end.

(** A method of [str] on [v]. *)
Definition py_str (v : py) : res string :=
  match v with PStr s => Val s | _ => Exc (PyError "AttributeError") end.

(** ** Texts *)

Definition upper_char (c : ascii) : ascii :=
  let n := code c in if (97 <=? n) && (n <=? 122) then chr (n - 32) else c.
Definition py_upper (s : string) : string := of_chars (upper_char <$> chars s).
Definition py_lower (s : string) : string := js_lower s.

(** White space, with the separators 28 to 31 that Python counts as such. *)
Definition py_space (c : ascii) : bool :=
  let n := code c in is_space c || ((28 <=? n) && (n <=? 31)).
Fixpoint lstrip (l : list ascii) : list ascii :=
  match l with c :: l' => if py_space c then lstrip l' else l | [] => [] end.
Definition py_strip (s : string) : string := of_chars (reverse (lstrip (reverse (lstrip (chars s))))).

(** [len(s)]: code points, that is bytes that do not continue one. *)
Definition continues (c : ascii) : bool := (128 <=? code c) && (code c <? 192).
Definition py_strlen (s : string) : Z := Z.of_nat (length (filter (λ c, continues c = false) (chars s))).

Fixpoint leading (l : list ascii) : list ascii :=
  match l with c :: l => if continues c then c :: leading l else [] | [] => [] end.

(** [s[:1]] *)
Definition first_point (s : string) : string :=
  match chars s with
  | [] => ""
  | c :: l => of_chars (c :: leading l)
  end.

(** [len(v)] *)
Definition py_len (v : py) : res Z :=
  match v with
  | PStr s => Val (py_strlen s)
  | PList l => Val (Z.of_nat (length l))
  | PDict l => Val (Z.of_nat (length l))
  | _ => Exc (PyError "TypeError")
  end.

(** [s.partition(c)]: what is before, and what is after when [c] occurs. *)
Definition partition (c : ascii) (s : string) : string * option string :=
  let i := index_of c (chars s) in
  if i <? 0 then (s, None) else (str_slice s 0 i, Some (str_slice_from s (i + 1))).

(** ** Numbers *)

(** [a / b] on integers: the nearest float, if there is one. *)
Definition true_div (a b : Z) : res num :=
  if b =? 0 then Exc (PyError "ZeroDivisionError")
  else match rnd (a * Z.sgn b) (Z.abs b) with Inf _ => Exc (PyError "OverflowError") | x => Val x end.

(** An integer where a float is needed. *)
Definition to_float (z : Z) : res num :=
  match num_of_Z z with Inf _ => Exc (PyError "OverflowError") | x => Val x end.

(** [round(x, 4)] for a finite float. *)
Definition round4 (x : num) : num :=
  match x with Fin m e => let '(p, q) := num_ratio m e in rnd (rne (p * 10 ^ 4) q) (10 ^ 4) | _ => x end.

(** [round(x)]: the nearest integer, ties to even. *)
Definition py_round (x : num) : res Z :=
  match x with
  | Fin m e => let '(p, q) := num_ratio m e in Val (rne p q)
  | NaN => Exc (PyError "ValueError")
  | Inf _ => Exc (PyError "OverflowError")
  end.

(** [l[i]] *)
Definition py_index {A} (l : list A) (i : Z) : res A :=
  let j := if i <? 0 then i + Z.of_nat (length l) else i in
  if j <? 0 then Exc (PyError "IndexError")
  else match l !! Z.to_nat j with Some a => Val a | None => Exc (PyError "IndexError") end.

(** [sum(...)] of a generator that can raise. *)
Definition py_sum (l : list (res Z)) : res Z := foldl (λ t x, a ← t; b ← x; mret (a + b)) (Val 0) l.

(** Digits with single underscores between them. *)
Fixpoint int_digits (prev : bool) (acc : Z) (l : list ascii) : option Z :=
  match l with
  | [] => if prev then Some acc else None
  | c :: l =>
      if (48 <=? code c) && (code c <=? 57) then int_digits true (10 * acc + (code c - 48)) l
      else if Ascii.eqb c "_" && prev then int_digits false acc l
      else None
  end.

(** [int(s)] *)
Definition int_of_str (s : string) : res Z :=
  let '(neg, l) := split_sign (chars (py_strip s)) in
  match int_digits false 0 l with
  | Some z => Val (if neg then - z else z)
  | None => Exc (PyError "ValueError")
  end.

(** [int(v)] *)
Definition py_int (v : py) : res Z :=
  match v with
  | PInt z => Val z
  | PBool b => Val (if b then 1 else 0)
  | PFloat (Fin m e) => let '(p, q) := num_ratio m e in Val (Z.quot p q)
  | PFloat NaN => Exc (PyError "ValueError")
  | PFloat (Inf _) => Exc (PyError "OverflowError")
  | PStr s => int_of_str s
  | _ => Exc (PyError "TypeError")
  end.

(** [f"{x:.kf}"] *)
Definition py_fixed (k : nat) (x : num) : string :=
  match x with
  | Fin m e =>
      let '(p, q) := num_ratio (Z.abs m) e in
      let n := rne (p * 10 ^ Z.of_nat k) q in
      let l := pad_start (S k) "0" (chars (show n)) in
      let cut := (length l - k)%nat in
      (if m <? 0 then "-" else "") +:+ of_chars (take cut l) +:+ "." +:+ of_chars (drop cut l)
  | NaN => "nan"
  | Inf neg => if neg then "-inf" else "inf"
  end.
Definition fixed8 : num → string := py_fixed 8.

(** ** Dates *)

(** Months from 0. *)
Definition days_in_month (y m : Z) : Z :=
  if m =? 11 then 31 else month_start (leap y) (m + 1) - month_start (leap y) m.

(** The day number, 1970-01-01 being 0, of a date that exists; months from 1. *)
Definition date_of (y m d : Z) : option Z :=
  if (1 <=? y) && (y <=? 9999) && (1 <=? m) && (m <=? 12) && (1 <=? d) && (d <=? days_in_month y (m - 1))
  then Some (day_from_year y + month_start (leap y) (m - 1) + (d - 1)) else None.

(** The Monday of the first ISO week of a year: the week of January 4. *)
Definition iso_week1 (y : Z) : Z :=
  let jan4 := day_from_year y + 3 in jan4 - (jan4 + 3) mod 7.
Definition iso_date (y w d : Z) : option Z :=
  let weeks := (iso_week1 (y + 1) - iso_week1 y) / 7 in
  if (1 <=? y) && (y <=? 9999) && (1 <=? w) && (w <=? weeks) && (1 <=? d) && (d <=? 7)
  then Some (iso_week1 y + 7 * (w - 1) + (d - 1)) else None.

(** Exactly [n] decimal digits, and what follows. *)
Fixpoint read_digits (n : nat) (acc : Z) (l : list ascii) : option (Z * list ascii) :=
  match n, l with
  | O, _ => Some (acc, l)
  | S n, c :: l => if (48 <=? code c) && (code c <=? 57) then read_digits n (10 * acc + (code c - 48)) l else None
  | S _, [] => None
  end.

Definition read_sep (sep : bool) (l : list ascii) : option (list ascii) :=
  if sep then match l with "-"%char :: l => Some l | _ => None end else Some l.

(** The calendar and week formats, basic and extended. *)
Definition read_date (l : list ascii) : option Z :=
  '(y, l) ← read_digits 4 0 l;
  let sep := match l with "-"%char :: _ => true | _ => false end in
  l ← read_sep sep l;
  match l with
  | "W"%char :: l =>
      '(w, l) ← read_digits 2 0 l;
      match l with
      | [] => iso_date y w 1
      | _ => l ← read_sep sep l; '(d, l) ← read_digits 1 0 l; guard (l = []);; iso_date y w d
      end
  | _ =>
      '(m, l) ← read_digits 2 0 l;
      l ← read_sep sep l;
      '(d, l) ← read_digits 2 0 l; guard (l = []);; date_of y m d
  end.

(** [datetime.date.fromisoformat(s)] *)
Definition fromisoformat (s : string) : res Z :=
  match read_date (chars s) with Some d => Val d | None => Exc (PyError "ValueError") end.

(** ** Sorting

    [sorted(l, key=...)], which is stable: an element goes behind those it is not
    before. *)
Fixpoint insert_by {A} (before : A → A → bool) (x : A) (l : list A) : list A :=
  match l with
  | [] => [x]
  | y :: l => if before x y then x :: y :: l else y :: insert_by before x l
  end.
Definition sort_by {A} (before : A → A → bool) (l : list A) : list A := foldl (λ acc x, insert_by before x acc) [] l.

Lemma insert_by_perm {A} (before : A → A → bool) x l : insert_by before x l ≡ₚ x :: l.
Proof.
  induction l as [|y l IH]; cbn [insert_by]; [done|]. destruct (before x y); [done|]. rewrite IH. apply Permutation_swap.
Qed.

Lemma sort_by_perm {A} (before : A → A → bool) l : sort_by before l ≡ₚ l.
Proof.
  unfold sort_by. assert (H : ∀ acc, foldl (λ acc x, insert_by before x acc) acc l ≡ₚ l ++ acc); [|by rewrite H, app_nil_r].
  induction l as [|x l IH]; intros acc; cbn [foldl]; [done|]. rewrite IH, insert_by_perm. symmetry. apply Permutation_middle.
Qed.

Lemma insert_by_sorted {A} (before : A → A → bool) (R : A → A → Prop) `{!Transitive R} x l :
  (∀ y z, before y z = true → R y z) → (∀ y z, before y z = false → R z y) →
  StronglySorted R l → StronglySorted R (insert_by before x l).
Proof.
  intros H1 H2 Hl. induction Hl as [|y l Hl IH Hy]; cbn [insert_by]; [by repeat constructor|]. destruct (before x y) eqn:E.
  - constructor; [by constructor|]. constructor; [by apply H1|]. rewrite list.Forall_forall in Hy |- *. intros z Hz. etransitivity; [by apply H1|by apply Hy].
  - constructor; [done|]. rewrite list.Forall_forall in Hy |- *. intros z Hz. rewrite insert_by_perm in Hz. apply elem_of_cons in Hz as [->|Hz]; [by apply H2|by apply Hy].
Qed.

Lemma sort_by_sorted {A} (before : A → A → bool) (R : A → A → Prop) `{!Transitive R} l :
  (∀ y z, before y z = true → R y z) → (∀ y z, before y z = false → R z y) → StronglySorted R (sort_by before l).
Proof.
  intros H1 H2. unfold sort_by. assert (H : ∀ acc, StronglySorted R acc → StronglySorted R (foldl (λ acc x, insert_by before x acc) acc l)); [|apply H; constructor].
  induction l as [|x l IH]; intros acc Ha; cbn [foldl]; [done|]. by apply IH, insert_by_sorted.
Qed.
