(* ===== verification/Server.v ===== *)
(** * Server programs

    A request handler of the Python servers is a tree of what it does to the
    outside: calls of the node, reads of the clock, draws of randomness, pushes,
    and statements on its database, each of which is atomic.  The same tree has
    two meanings: [exec] runs one handler to its end, and [server_step] lets any
    number of handlers, arriving at any time, take turns at every call and
    statement, as the threads and worker processes of the servers do.  What the
    outside answers is not constrained. *)

From S2P Require Import Prelude JsString JsNum Python.
From stdpp Require Import relations.

(** ** What the node answers

    The fields the servers read of the documented results of the node's RPC
    calls.  Amounts are JSON numbers with eight decimals, which Python reads as
    floats; [raw] is a part that is passed on as it is. *)

Record unspent := Unspent { un_txid : string; un_vout : Z; un_amount : num; un_confirmations : Z }.
Record wallet_tx := Wallet_tx { wt_txid : string; wt_height : option Z }.
Inductive rpc_in :=
  | In_coinbase (raw : py)
  | In_spends (txid : string) (vout : Z) (raw : py).
Record rpc_out := Rpc_out { out_value : num; out_hex : option string; out_address : option string; out_raw : py }.
Record rpc_tx := Rpc_tx {
  rt_txid : string;
  rt_vin : list rpc_in;
  rt_vout : list rpc_out;
  rt_blockhash : option string;
  rt_confirmations : option Z;
  rt_time : option Z
}.
Record rpc_block := Rpc_block {
  rb_hash : string;
  rb_height : Z;
  rb_time : Z;
  rb_difficulty : num;
  rb_bits : string;
  rb_version : Z;
  rb_merkleroot : string;
  rb_prev : option string;
  rb_next : option string;
  rb_flags : option string;
  rb_tx : list rpc_tx                    (* with verbosity 2 *)
}.
Record chain_info := Chain_info { ci_chain : string; ci_blocks : Z; ci_best : string; ci_difficulty : num }.
Record mempool_info := Mempool_info { mi_minfee : num; mi_bytes : Z; mi_max : Z }.
Record scanned := Scanned { sc_txid : string; sc_vout : Z; sc_amount : num; sc_height : option Z; sc_coinbase : option bool }.
Record scan := Scan { scan_success : bool; scan_unspents : list scanned; scan_height : Z }.

Inductive call :=
  | GetBlockchainInfo
  | GetBlockCount
  | GetBlockHash (height : Z)
  | GetBlock (hash : string) (verbosity : Z)
  | GetRawTransaction (txid : string)
  | GetTxOut (txid : string) (vout : Z)
  | GetMempoolInfo
  | SendRawTransaction (hex : py)
  | ValidateAddress (address : py)
  | ScanTxOutSet (descriptor : string)
  | ListWallets
  | ListWalletDir
  | LoadWallet (name : string)
  | CreateWallet (name : string) (watch_only : bool)
  | GetDescriptorInfo (descriptor : string)
  | ImportDescriptor (descriptor label : string)
  | ListUnspent (minconf : Z) (address : string) (unsafe : bool)
  | ListTransactions (label : string) (count : Z)
  | GetNewAddress (label : string)
  | SetLabel (address label : string)
  | SendToAddress (address : py) (amount : num).

Definition result_of (c : call) : Type :=
  match c with
  | GetBlockchainInfo => chain_info
  | GetBlockCount => Z
  | GetBlockHash _ => string
  | GetBlock _ _ => rpc_block
  | GetRawTransaction _ => rpc_tx
  | GetTxOut _ _ => bool                 (* whether there is one *)
  | GetMempoolInfo => mempool_info
  | SendRawTransaction _ => string
  | ValidateAddress _ => bool
  | ScanTxOutSet _ => scan
  | ListWallets | ListWalletDir => list string
  | LoadWallet _ | CreateWallet _ _ | SetLabel _ _ => unit
  | GetDescriptorInfo _ => string
  | ImportDescriptor _ _ => bool * string (* success, error *)
  | ListUnspent _ _ _ => list unspent
  | ListTransactions _ _ => list wallet_tx
  | GetNewAddress _ => string
  | SendToAddress _ _ => string
  end.

(** The node answers, reports an error, or cannot be reached; or it has done what it
    was asked to, with the result [a], and the reply is lost: the connection breaks
    or the client's timeout ends first. *)
Inductive rpc_reply (A : Type) :=
  | Answer (a : A)
  | Refused (code : Z) (message : string)
  | Unreachable
  | Lost (a : A).
Arguments Answer {A} a.
Arguments Refused {A} code message.
Arguments Unreachable {A}.
Arguments Lost {A} a.

(** A web push is taken, refused with [WebPushException], or fails with another
    exception, such as that of a lost connection. *)
Inductive push_reply := Pushed | Push_refused | Push_failed.

(** ** Actions and programs *)

Inductive action :=
  | Rpc (path : string) (c : call)
  | Clock                                (* time.time() *)
  | Utcnow                               (* datetime.now(utc), in seconds *)
  | Today                                (* date.today(), as a day number *)
  | Token                                (* secrets.token_urlsafe(6) *)
  | Hash_password (password : string)
  | Encrypt (text : string)
  | Web_push (endpoint p256dh auth : py) (title body : string)
  | Fcm_push (token : py) (title body address : string).

Definition answer (a : action) : Type :=
  match a with
  | Rpc _ c => rpc_reply (result_of c)
  | Clock => num
  | Utcnow | Today => Z
  | Token | Hash_password _ | Encrypt _ => string
  | Web_push _ _ _ _ _ => push_reply
  | Fcm_push _ _ _ _ => bool
  end.

Definition event : Type := { a : action & answer a }.

(** The one action that moves money. *)
Definition is_payment (a : action) : bool := match a with Rpc _ (SendToAddress _ _) => true | _ => false end.

Section program.
  Context {D : Type}.

Inductive prog (A : Type) : Type :=
  | Ret (a : A)
  | Raise (e : exc)
  | Act (a : action) (k : answer a → prog A)
  | Sql (f : D → D * prog A).
Arguments Ret {A} a.
Arguments Raise {A} e.
Arguments Act {A} a k.
Arguments Sql {A} f.

Fixpoint prog_bind_def {A B} (p : prog A) (g : A → prog B) : prog B :=
  match p with
  | Ret a => g a
  | Raise e => Raise e
  | Act a k => Act a (λ r, prog_bind_def (k r) g)
  | Sql f => Sql (λ d, let '(d', p') := f d in (d', prog_bind_def p' g))
  end.

(** [try: p except ...: h], where [h] says which exceptions it takes. *)
Fixpoint catch {A} (p : prog A) (h : exc → option (prog A)) : prog A :=
  match p with
  | Ret a => Ret a
  | Raise e => default (Raise e) (h e)
  | Act a k => Act a (λ r, catch (k r) h)
  | Sql f => Sql (λ d, let '(d', p') := f d in (d', catch p' h))
  end.

#[global] Instance prog_ret : MRet prog := λ A a, Ret a.
#[global] Instance prog_bind : MBind prog := λ A B g p, prog_bind_def p g.

Definition do_act (a : action) : prog (answer a) := Act a Ret.
Definition of_res {A} (r : res A) : prog A := match r with Val a => Ret a | Exc e => Raise e end.

(** A call of the node as its three clients make it: an error of the node is the
    client's [RpcError], a connection that fails and a timeout are not. *)
Definition call_node (path : string) (c : call) : prog (result_of c) :=
  prog_bind_def (do_act (Rpc path c)) (λ r,
    match r with
    | Answer a => Ret a
    | Refused code message => Raise (RpcError code message)
    | Unreachable | Lost _ => Raise (PyError "OSError")
    end).
(** [except RpcError as e] *)
Definition except_rpc {A} (h : Z → string → prog A) (e : exc) : option (prog A) :=
  match e with RpcError code message => Some (h code message) | _ => None end.

(** A query, and a statement that changes the database. *)
Definition select {A} (f : D → A) : prog A := Sql (λ d, (d, Ret (f d))).
Definition execute (f : D → D) : prog unit := Sql (λ d, (f d, Ret ())).
(** A statement that can fail, with its result; a failed one changes nothing. *)
Definition try_execute {A} (f : D → res (D * A)) : prog A :=
  Sql (λ d, match f d with Val (d', a) => (d', Ret a) | Exc e => (d, Raise e) end).

(** [for x in xs: f(x)] *)
Fixpoint for_in {A} (xs : list A) (f : A → prog unit) : prog unit :=
  match xs with [] => Ret () | x :: xs => _ ← f x; for_in xs f end.

(** [for x in xs: s = f(s, x)] *)
Fixpoint fold_in {A S} (f : S → A → prog S) (s : S) (xs : list A) : prog S :=
  match xs with [] => Ret s | x :: xs => s' ← f s x; fold_in f s' xs end.

(** ** One handler *)

Record sys := Sys { db : D; log : list event }.

Inductive exec {A} : prog A → sys → res A → sys → Prop :=
  | exec_ret a s : exec (Ret a) s (Val a) s
  | exec_raise e s : exec (Raise e) s (Exc e) s
  | exec_act a k x s r s' :
      exec (k x) (Sys (db s) (log s ++ [existT a x])) r s' → exec (Act a k) s r s'
  | exec_sql f s r s' :
      exec (f (db s)).2 (Sys (f (db s)).1 (log s)) r s' → exec (Sql f) s r s'.

(** The same against an outside that is a function of what happened so far. *)
Fixpoint run {A} (env : list event → ∀ a, answer a) (p : prog A) (s : sys) : res A * sys :=
  match p with
  | Ret a => (Val a, s)
  | Raise e => (Exc e, s)
  | Act a k => let x := env (log s) a in run env (k x) (Sys (db s) (log s ++ [existT a x]))
  | Sql f => let '(d, p') := f (db s) in run env p' (Sys d (log s))
  end.

(** Whatever the outside answers, [Q] holds in the end. *)
Fixpoint wp {A} (p : prog A) (Q : res A → sys → Prop) (s : sys) : Prop :=
  match p with
  | Ret a => Q (Val a) s
  | Raise e => Q (Exc e) s
  | Act a k => ∀ x, wp (k x) Q (Sys (db s) (log s ++ [existT a x]))
  | Sql f => let '(d, p') := f (db s) in wp p' Q (Sys d (log s))
  end.

(** ** Many handlers *)

Inductive prog_step {A} : sys → prog A → sys → prog A → Prop :=
  | step_act s a k x : prog_step s (Act a k) (Sys (db s) (log s ++ [existT a x])) (k x)
  | step_sql s f : prog_step s (Sql f) (Sys (f (db s)).1 (log s)) (f (db s)).2.

(** The handlers in [H] arrive at any time, and any of those begun makes its next
    step. *)
Inductive server_step {A} (H : prog A → Prop) : sys * list (prog A) → sys * list (prog A) → Prop :=
  | arrive s ts p : H p → server_step H (s, ts) (s, ts ++ [p])
  | progress s ts i p s' p' : ts !! i = Some p → prog_step s p s' p' →
      server_step H (s, ts) (s', <[i := p']> ts).

(** The interleaving in which the handlers of [ts] take their turns as [sched]
    says, against an outside that is a function of what happened so far. *)
Definition turn {A} (env : list event → ∀ a, answer a) (s : sys) (p : prog A) : option (sys * prog A) :=
  match p with
  | Ret _ | Raise _ => None
  | Act a k => let x := env (log s) a in Some (Sys (db s) (log s ++ [existT a x]), k x)
  | Sql f => let '(d, p') := f (db s) in Some (Sys d (log s), p')
  end.
Fixpoint interleave {A} (env : list event → ∀ a, answer a) (sched : list nat) (s : sys) (ts : list (prog A)) : sys * list (prog A) :=
  match sched with
  | [] => (s, ts)
  | i :: sched =>
      match ts !! i ≫= turn env s with
      | Some (s', p') => interleave env sched s' (<[i := p']> ts)
      | None => interleave env sched s ts
      end
  end.

(** Whatever the outside answers and the other handlers do to the database: they
    keep [I] and move it along [R], and so does this program.  [Q] holds of the
    result and the database the program saw last. *)
Fixpoint rg {A} (R : D → D → Prop) (I : D → Prop) (p : prog A) (Q : res A → D → Prop) (d0 : D) : Prop :=
  match p with
  | Ret a => Q (Val a) d0
  | Raise e => Q (Exc e) d0
  | Act a k => ∀ x, rg R I (k x) Q d0
  | Sql f => ∀ d, R d0 d → I d → let '(d', p') := f d in R d d' ∧ I d' ∧ rg R I p' Q d'
  end.

(** Against this outside the program returns a value, and [Q] holds of it. *)
Definition yields {A} (env : list event → ∀ a, answer a) (p : prog A) (Q : A → Prop) : Prop :=
  ∀ s, ∃ v, (run env p s).1 = Val v ∧ Q v.

(** The program only does what [P] allows, and every statement moves the database
    along [S]. *)
Fixpoint guar {A} (P : action → Prop) (S : D → D → Prop) (p : prog A) : Prop :=
  match p with
  | Ret _ | Raise _ => True
  | Act a k => P a ∧ ∀ x, guar P S (k x)
  | Sql f => ∀ d, let '(d', p') := f d in S d d' ∧ guar P S p'
  end.
End program.
(** No statement changes the database. *)
Abbreviation reads := (guar (λ _, True) eq).

Arguments prog : clear implicits.
Arguments sys : clear implicits.
Arguments Sys {D}.
Arguments db {D}.
Arguments log {D}.
Arguments Ret {D A} a.
Arguments Raise {D A} e.
Arguments Act {D A} a k.
Arguments Sql {D A} f.

(** ** Lemmas *)

Section lemmas.
  Context {D : Type}.
  Implicit Types s : sys D.

Definition prog_nested {A} (P : prog D A → Prop) (Hret : ∀ a, P (Ret a)) (Hraise : ∀ e, P (Raise e))
    (Hact : ∀ a k, (∀ x, P (k x)) → P (Act a k)) (Hsql : ∀ f, (∀ d, P (f d).2) → P (Sql f)) : ∀ p, P p :=
  fix go p :=
    match p with
    | Ret a => Hret a
    | Raise e => Hraise e
    | Act a k => Hact a k (λ x, go (k x))
    | Sql f => Hsql f (λ d, match f d as x return P x.2 with (d', p') => go p' end)
    end.

Lemma run_exec {A} env (p : prog D A) : ∀ s, exec p s (run env p s).1 (run env p s).2.
Proof.
  induction p as [a|e|a k IH|f IH] using prog_nested; intros s; cbn [run]; [constructor..| |].
  - eapply exec_act, IH.
  - apply exec_sql. specialize (IH (db s)). destruct (f (db s)) as [d p']. apply IH.
Qed.

Lemma run_prog_bind {A B} env (p : prog D A) (g : A → prog D B) : ∀ s,
  run env (p ≫= g) s = match run env p s with (Val a, s') => run env (g a) s' | (Exc e, s') => (Exc e, s') end.
Proof.
  induction p as [a|e|a k IH|f IH] using prog_nested; intros s; [done..|apply IH|].
  change (Sql f ≫= g) with (Sql (λ d, let '(d', p') := f d in (d', p' ≫= g))). cbn [run].
  specialize (IH (db s)). destruct (f (db s)) as [d p']. apply IH.
Qed.

Lemma yields_ret {A} env (a : A) (Q : A → Prop) : Q a → yields (D := D) env (mret a) Q.
Proof. intros HQ s. by exists a. Qed.

Lemma yields_mono {A} env (p : prog D A) (Q Q' : A → Prop) : (∀ a, Q a → Q' a) → yields env p Q → yields env p Q'.
Proof. intros HQ Hp s. destruct (Hp s) as (a & E & Ha). exists a. auto. Qed.

Lemma yields_bind {A B} env (p : prog D A) (g : A → prog D B) (Q : A → Prop) (Q' : B → Prop) :
  yields env p Q → (∀ a, Q a → yields env (g a) Q') → yields env (p ≫= g) Q'.
Proof.
  intros Hp Hg s. rewrite run_prog_bind. destruct (Hp s) as (a & E & Ha). destruct (run env p s) as [r s']. cbn in E. rewrite E. by apply Hg.
Qed.

Lemma yields_catch {A} env (p : prog D A) h (Q : A → Prop) : yields env p Q → yields env (catch p h) Q.
Proof.
  intros Hp s. destruct (Hp s) as (a & E & Ha). exists a. split; [|done]. clear Hp. revert s E.
  induction p as [b|e|b k IH|f IH] using prog_nested; intros s E; cbn [catch run] in *; [done..|by apply IH|].
  specialize (IH (db s)). destruct (f (db s)) as [d p']. by apply IH.
Qed.

Lemma yields_of_res {A} env (r : res A) (a : A) (Q : A → Prop) : r = Val a → Q a → yields (D := D) env (of_res r) Q.
Proof. intros -> HQ s. by exists a. Qed.

Lemma yields_call env path c (a : result_of c) (Q : result_of c → Prop) :
  (∀ l, env l (Rpc path c) = Answer a) → Q a → yields (D := D) env (call_node path c) Q.
Proof. intros Ha HQ s. exists a. cbn. by rewrite Ha. Qed.

(** A loop, with what holds while [rest] is to come. *)
Lemma yields_fold_in {A T} env (J : list A → T → Prop) (f : T → A → prog D T) xs y :
  J xs y → (∀ x rest y, J (x :: rest) y → yields env (f y x) (J rest)) → yields env (fold_in f y xs) (J []).
Proof.
  intros H0 Hf. revert y H0. induction xs as [|x xs IH]; intros y H0; cbn [fold_in]; [by apply yields_ret|].
  eapply yields_bind; [by apply Hf|done].
Qed.

Lemma exec_log {A} (p : prog D A) s r s' : exec p s r s' → log s `prefix_of` log s'.
Proof.
  induction 1 as [| |a k x s r s' _ IH|f s r s' _ IH]; [done..| |done]. etransitivity; [|exact IH]. by eexists.
Qed.

Lemma wp_exec {A} (p : prog D A) Q s r s' : wp p Q s → exec p s r s' → Q r s'.
Proof.
  intros Hw He. induction He as [| |a k x s r s' _ IH|f s r s' _ IH]; cbn [wp] in Hw; [done..|by apply IH|].
  apply IH. destruct (f (db s)). apply Hw.
Qed.

Lemma wp_mono {A} (p : prog D A) (Q Q' : res A → sys D → Prop) :
  (∀ r s, Q r s → Q' r s) → ∀ s, wp p Q s → wp p Q' s.
Proof.
  intros HQ. induction p as [a|e|a k IH|f IH] using prog_nested; intros s; cbn [wp]; [apply HQ..|by eauto|].
  specialize (IH (db s)). destruct (f (db s)). apply IH.
Qed.

(** What two facts about a program say together. *)
Lemma wp_and {A} (p : prog D A) (Q Q' : res A → sys D → Prop) :
  ∀ s, wp p Q s → wp p Q' s → wp p (λ r s, Q r s ∧ Q' r s) s.
Proof.
  induction p as [a|e|a k IH|f IH] using prog_nested; intros s; cbn [wp]; [done..|by eauto|].
  specialize (IH (db s)). destruct (f (db s)). apply IH.
Qed.

Definition after {A B} (g : A → prog D B) (Q : res B → sys D → Prop) : res A → sys D → Prop :=
  λ r s, match r with Val a => wp (g a) Q s | Exc e => Q (Exc e) s end.

Lemma wp_bind {A B} (p : prog D A) (g : A → prog D B) Q :
  ∀ s, wp p (after g Q) s → wp (p ≫= g) Q s.
Proof.
  induction p as [a|e|a k IH|f IH] using prog_nested; intros s; cbn; [done..|by eauto|].
  specialize (IH (db s)). destruct (f (db s)). apply IH.
Qed.

Lemma wp_catch {A} (p : prog D A) h Q :
  ∀ s, wp p (λ r s, match r with Val a => Q (Val a) s | Exc e => wp (default (Raise e) (h e)) Q s end) s →
  wp (catch p h) Q s.
Proof.
  induction p as [a|e|a k IH|f IH] using prog_nested; intros s; cbn [wp catch]; [done..|by eauto|].
  specialize (IH (db s)). destruct (f (db s)). apply IH.
Qed.

Lemma wp_of_res {A} (r : res A) Q s : Q r s → wp (of_res r) Q s.
Proof. by destruct r. Qed.

(** A loop, with an invariant over what is left of the list. *)
Lemma wp_for_in {A} (J : list A → sys D → Prop) (f : A → prog D unit) (Q : res unit → sys D → Prop) xs :
  (∀ x xs s, J (x :: xs) s → wp (f x) (λ r s', match r with Val _ => J xs s' | Exc e => Q (Exc e) s' end) s) →
  (∀ s, J [] s → Q (Val ()) s) → ∀ s, J xs s → wp (for_in xs f) Q s.
Proof.
  intros Hf HQ. induction xs as [|x xs IH]; intros s Hs; cbn [for_in]; [by apply HQ|].
  apply wp_bind. eapply wp_mono; [|by apply Hf]. intros [[]|e] s' Hs'; [|done]. by apply IH.
Qed.

Lemma wp_select {A B} (f : D → A) (g : A → prog D B) Q s : wp (g (f (db s))) Q s → wp (select f ≫= g) Q s.
Proof. by destruct s. Qed.
Lemma wp_execute {B} (f : D → D) (g : unit → prog D B) Q s :
  wp (g ()) Q (Sys (f (db s)) (log s)) → wp (execute f ≫= g) Q s.
Proof. done. Qed.
Lemma wp_try_execute {A B} (f : D → res (D * A)) (g : A → prog D B) Q s :
  match f (db s) with Val (d, a) => wp (g a) Q (Sys d (log s)) | Exc e => Q (Exc e) s end → wp (try_execute f ≫= g) Q s.
Proof. intros H. cbn. destruct (f (db s)) as [[d a]|e]; [done|]. by destruct s. Qed.
Lemma wp_act {B} a (g : answer a → prog D B) Q s :
  (∀ x, wp (g x) Q (Sys (db s) (log s ++ [existT a x]))) → wp (do_act a ≫= g) Q s.
Proof. done. Qed.

(** A handler that runs to its end is one of the interleavings. *)
Lemma exec_steps {A} (H : prog D A → Prop) (p : prog D A) s r s' ts i :
  exec p s r s' → ts !! i = Some p → ∃ ts', rtc (server_step H) (s, ts) (s', ts').
Proof.
  intros He. revert ts. induction He as [a s|e s|a k x s r s' _ IH|f s r s' _ IH]; intros ts Hi; [by eexists..| |].
  - destruct (IH (<[i := k x]> ts)) as [ts' Hr].
    { apply list_lookup_insert_eq. by eapply lookup_lt_Some. }
    exists ts'. eapply rtc_l; [|exact Hr]. by eapply progress; [|apply step_act].
  - destruct (IH (<[i := (f (db s)).2]> ts)) as [ts' Hr].
    { apply list_lookup_insert_eq. by eapply lookup_lt_Some. }
    exists ts'. eapply rtc_l; [|exact Hr]. by eapply progress; [|apply step_sql].
Qed.

(** The beginning of a handler, run to its end. *)
Lemma exec_bind_steps {A B} (H : prog D B → Prop) (p : prog D A) (g : A → prog D B) s v s' ts i :
  exec p s (Val v) s' → ts !! i = Some (p ≫= g) → rtc (server_step H) (s, ts) (s', <[i := g v]> ts).
Proof.
  intros He. remember (Val v) as r eqn:Er. revert ts. induction He as [a s|e s|a k x s r s' _ IH|f s r s' _ IH]; intros ts Hi; [|done| |].
  - injection Er as ->. change (Ret v ≫= g) with (g v) in Hi. by rewrite list_insert_id.
  - specialize (IH Er (<[i := k x ≫= g]> ts)). rewrite list_insert_insert_eq in IH. eapply rtc_l; [by eapply progress, step_act|].
    apply IH, list_lookup_insert_eq. by eapply lookup_lt_Some.
  - specialize (IH Er (<[i := (f (db s)).2 ≫= g]> ts)). rewrite list_insert_insert_eq in IH.
    assert (Hst : server_step H (s, ts) (Sys (f (db s)).1 (log s), <[i := (f (db s)).2 ≫= g]> ts)).
    { pose proof (step_sql s (λ d, let '(d', p') := f d in (d', p' ≫= g))) as Hs. cbn beta in Hs.
      rewrite (surjective_pairing (f (db s))) in Hs. by eapply progress. }
    eapply rtc_l; [exact Hst|]. apply IH, list_lookup_insert_eq. by eapply lookup_lt_Some.
Qed.

Lemma step_inserted {A} (H : prog D A → Prop) s (p : prog D A) s' p' ts i :
  (i < length ts)%nat → prog_step s p s' p' → rtc (server_step H) (s, <[i := p]> ts) (s', <[i := p']> ts).
Proof.
  intros Hi Hs. apply rtc_once. rewrite <- (list_insert_insert_eq ts i p' p). eapply progress; [by apply list_lookup_insert_eq|done].
Qed.

Lemma exec_prog_bind {A B} (p : prog D A) (g : A → prog D B) s v s1 r s2 :
  exec p s (Val v) s1 → exec (g v) s1 r s2 → exec (p ≫= g) s r s2.
Proof.
  intros He. remember (Val v) as r1 eqn:Er. induction He as [a s|e s|a k x s r1 s1 _ IH|f s r1 s1 _ IH]; intros Hg; [|done| |].
  - by injection Er as ->.
  - by eapply exec_act, IH.
  - change (Sql f ≫= g) with (Sql (λ d, let '(d', p') := f d in (d', p' ≫= g))). apply exec_sql. specialize (IH Er Hg). by destruct (f (db s)).
Qed.

Lemma arrive_exec {A} (H : prog D A → Prop) (p : prog D A) s r s' ts :
  H p → exec p s r s' → ∃ ts', rtc (server_step H) (s, ts) (s', ts').
Proof.
  intros Hp He. destruct (exec_steps H p s r s' (ts ++ [p]) (length ts) He) as [ts' Hr].
  { by rewrite lookup_app_r, Nat.sub_diag by lia. }
  exists ts'. eapply rtc_l; [by apply arrive|done].
Qed.

Lemma interleave_steps {A} (H : prog D A → Prop) env sched : ∀ s (ts : list (prog D A)),
  rtc (server_step H) (s, ts) (interleave env sched s ts).
Proof.
  induction sched as [|i sched IH]; intros s ts; cbn [interleave]; [done|].
  destruct (ts !! i) as [p|] eqn:Ei; cbn [mbind option_bind]; [|done].
  destruct p as [a|e|a k|f]; cbn [turn]; [done..| |].
  - eapply rtc_l; [by eapply progress, step_act|apply IH].
  - assert (Hst : server_step H (s, ts) (Sys (f (db s)).1 (log s), <[i := (f (db s)).2]> ts)) by (by eapply progress, step_sql).
    destruct (f (db s)) as [d p']. eapply rtc_l; [exact Hst|apply IH].
Qed.

Lemma server_step_frame {A} (H : prog D A → Prop) ts0 x y : rtc (server_step H) x y →
  rtc (server_step H) (x.1, ts0 ++ x.2) (y.1, ts0 ++ y.2).
Proof.
  induction 1 as [|x y z Hs _ IH]; [done|]. eapply rtc_l; [|exact IH]. clear IH z.
  destruct Hs as [s ts p Hp|s ts i p s' p' Hi Hp]; cbn [fst snd].
  - rewrite app_assoc. by apply arrive.
  - rewrite <- insert_app_r. eapply progress; [|exact Hp]. rewrite lookup_app_r by lia. by replace (length ts0 + i - length ts0)%nat with i by lia.
Qed.

Lemma arrivals {A} (H : prog D A → Prop) ps s : Forall H ps → ∀ ts, rtc (server_step H) (s, ts) (s, ts ++ ps).
Proof.
  induction 1 as [|p ps Hp _ IH]; intros ts; [by rewrite app_nil_r|].
  eapply rtc_l; [by apply arrive|]. specialize (IH (ts ++ [p])). by rewrite <- app_assoc in IH.
Qed.

(** ** What a program does *)

Section guar.
  Context (P : action → Prop) (S : D → D → Prop).

Lemma guar_bind {A B} (p : prog D A) (g : A → prog D B) : guar P S p → (∀ a, guar P S (g a)) → guar P S (p ≫= g).
Proof.
  intros Hp Hg. induction p as [a|e|a k IH|f IH] using prog_nested; cbn in *; [done..| |].
  - split; [apply Hp|]. intros x. apply IH, Hp.
  - intros d. specialize (Hp d). specialize (IH d). destruct (f d). split; [apply Hp|]. apply IH, Hp.
Qed.
Lemma guar_catch {A} (p : prog D A) h : guar P S p → (∀ e q, h e = Some q → guar P S q) → guar P S (catch p h).
Proof.
  intros Hp Hh. induction p as [a|e|a k IH|f IH] using prog_nested; cbn in *; [done| | |].
  - destruct (h e) eqn:E; [by eapply Hh|done].
  - split; [apply Hp|]. intros x. apply IH, Hp.
  - intros d. specialize (Hp d). specialize (IH d). destruct (f d). split; [apply Hp|]. apply IH, Hp.
Qed.
Lemma guar_ret {A} (a : A) : guar P S (Ret (D := D) a).
Proof. done. Qed.
Lemma guar_mret {A} (a : A) : guar P S (mret a : prog D A).
Proof. done. Qed.
Lemma guar_raise {A} e : guar P S (Raise e : prog D A).
Proof. done. Qed.
Lemma guar_do_act a : P a → guar P S (do_act (D := D) a).
Proof. done. Qed.
Lemma guar_of_res {A} (r : res A) : guar P S (of_res (D := D) r).
Proof. by destruct r. Qed.
Lemma guar_select `{!Reflexive S} {A} (f : D → A) : guar P S (select f).
Proof. by intros d. Qed.
Lemma guar_execute (f : D → D) : (∀ d, S d (f d)) → guar P S (execute f).
Proof. by intros H d. Qed.
Lemma guar_try_execute `{!Reflexive S} {A} (f : D → res (D * A)) :
  (∀ d d' a, f d = Val (d', a) → S d d') → guar P S (try_execute f).
Proof. intros H d. destruct (f d) as [[d' a]|e] eqn:E; [|done]. split; [by eapply H|done]. Qed.
Lemma guar_for_in {A} (xs : list A) f : (∀ x, guar P S (f x)) → guar P S (for_in (D := D) xs f).
Proof. intros H. induction xs as [|x xs IH]; [done|]. cbn [for_in]. by apply guar_bind. Qed.
Lemma guar_fold_in {A T} (f : T → A → prog D T) xs : (∀ y x, guar P S (f y x)) → ∀ y, guar P S (fold_in f y xs).
Proof. intros H. induction xs as [|x xs IH]; intros y; [done|]. cbn [fold_in]. by apply guar_bind. Qed.

Lemma wp_guar `{!PreOrder S} {A} (p : prog D A) : guar P S p → ∀ s,
  wp p (λ _ s', S (db s) (db s') ∧ ∃ l, log s' = log s ++ l ∧ Forall (λ e, P (projT1 e)) l) s.
Proof.
  induction p as [a|e|a k IH|f IH] using prog_nested; cbn [guar wp]; intros Hp s.
  - split; [reflexivity|]. exists []. by rewrite app_nil_r.
  - split; [reflexivity|]. exists []. by rewrite app_nil_r.
  - intros x. eapply wp_mono; [|apply IH, Hp]. cbn [db log]. intros _ s' [H1 (l & H2 & H3)]. split; [done|].
    exists (existT a x :: l). rewrite H2, <- app_assoc. split; [done|]. constructor; [apply Hp|done].
  - specialize (Hp (db s)). specialize (IH (db s)). destruct (f (db s)) as [d p']. destruct Hp as [H0 Hp].
    eapply wp_mono; [|by apply IH]. cbn [db log]. intros _ s' [H1 H2]. split; [by etransitivity|done].
Qed.
End guar.

(** ** Interleaving *)

Section rg.
  Context (R : D → D → Prop) (I : D → Prop).

Lemma rg_mono {A} (p : prog D A) (Q Q' : res A → D → Prop) :
  (∀ r d, Q r d → Q' r d) → ∀ d, rg R I p Q d → rg R I p Q' d.
Proof.
  intros HQ. induction p as [a|e|a k IH|f IH] using prog_nested; intros d0; cbn [rg]; [apply HQ..|by eauto|].
  intros H d Hd Hi. specialize (H d Hd Hi). specialize (IH d). destruct (f d). destruct H as (? & ? & ?). eauto.
Qed.

Definition then_rg {A B} (g : A → prog D B) (Q : res B → D → Prop) : res A → D → Prop :=
  λ r d, match r with Val a => rg R I (g a) Q d | Exc e => Q (Exc e) d end.

Lemma rg_bind {A B} (p : prog D A) (g : A → prog D B) Q :
  ∀ d, rg R I p (then_rg g Q) d → rg R I (p ≫= g) Q d.
Proof.
  induction p as [a|e|a k IH|f IH] using prog_nested; intros d0; cbn; [done..|by eauto|].
  intros H d Hd Hi. specialize (H d Hd Hi). specialize (IH d). destruct (f d). destruct H as (? & ? & ?). eauto.
Qed.

Lemma rg_catch {A} (p : prog D A) h Q :
  ∀ d, rg R I p (λ r d, match r with Val a => Q (Val a) d | Exc e => rg R I (default (Raise e) (h e)) Q d end) d →
  rg R I (catch p h) Q d.
Proof.
  induction p as [a|e|a k IH|f IH] using prog_nested; intros d0; cbn [rg catch]; [done..|by eauto|].
  intros H d Hd Hi. specialize (H d Hd Hi). specialize (IH d). destruct (f d). destruct H as (? & ? & ?). eauto.
Qed.

Lemma rg_of_res {A} (r : res A) Q d : Q r d → rg R I (of_res r) Q d.
Proof. by destruct r. Qed.

Lemma rg_act a (Q : res (answer a) → D → Prop) d : (∀ x, Q (Val x) d) → rg R I (do_act a) Q d.
Proof. done. Qed.

Lemma rg_select `{!Reflexive R} {A} (f : D → A) (Q : res A → D → Prop) d0 :
  (∀ d, R d0 d → I d → Q (Val (f d)) d) → rg R I (select f) Q d0.
Proof. intros H d Hd Hi. by split_and!; [reflexivity|done|apply H]. Qed.

Lemma rg_execute (f : D → D) (Q : res unit → D → Prop) d0 :
  (∀ d, R d0 d → I d → R d (f d) ∧ I (f d) ∧ Q (Val ()) (f d)) → rg R I (execute f) Q d0.
Proof. done. Qed.

Lemma rg_try_execute `{!Reflexive R} {A} (f : D → res (D * A)) (Q : res A → D → Prop) d0 :
  (∀ d, R d0 d → I d → match f d with Val (d', a) => R d d' ∧ I d' ∧ Q (Val a) d' | Exc e => Q (Exc e) d end) →
  rg R I (try_execute f) Q d0.
Proof. intros H d Hd Hi. specialize (H d Hd Hi). destruct (f d) as [[d' a]|e]; [done|]. by split_and!; [reflexivity|..]. Qed.

(** A program without statements that change the database. *)
Lemma rg_reads `{!PreOrder R} {A} (p : prog D A) (Q : res A → D → Prop) :
  reads p → ∀ d0, (∀ r d, R d0 d → Q r d) → rg R I p Q d0.
Proof.
  induction p as [a|e|a k IH|f IH] using prog_nested; cbn [guar rg]; intros Hp d0 HQ.
  - by apply HQ.
  - by apply HQ.
  - intros x. apply IH; [apply Hp|done].
  - intros d Hd Hi. specialize (Hp d). specialize (IH d). destruct (f d) as [d' p']. cbn [fst snd] in *.
    destruct Hp as [<- Hp]. split; [reflexivity|]. split; [done|]. apply IH; [done|]. intros r d2 H2. apply HQ. by etransitivity.
Qed.

(** Alone, a program keeps the invariant. *)
Lemma wp_rg `{!Reflexive R} {A} (p : prog D A) (Q : res A → D → Prop) : ∀ s,
  rg R I p Q (db s) → I (db s) → wp p (λ r s', Q r (db s') ∧ I (db s')) s.
Proof.
  induction p as [a|e|a k IH|f IH] using prog_nested; cbn [rg wp]; intros s Hp Hi; [done..| |].
  - intros x. by apply IH; [apply Hp|].
  - specialize (Hp (db s) (reflexivity _) Hi). specialize (IH (db s)). destruct (f (db s)). apply IH; apply Hp.
Qed.

(** A loop: what its body needs stays true. *)
Lemma rg_for_in {A} (P : A → D → Prop) (xs : list A) (f : A → prog D unit) (Q : res unit → D → Prop) d :
  (∀ x d, P x d → rg R I (f x) (λ r d', match r with Val _ => R d d' | Exc e => Q (Exc e) d' end) d) →
  (∀ x d d', P x d → R d d' → P x d') → (∀ d, Q (Val ()) d) →
  (∀ x, x ∈ xs → P x d) → rg R I (for_in xs f) Q d.
Proof.
  intros Hf HP HQ. revert d. induction xs as [|x xs IH]; intros d Hx; cbn [for_in]; [apply HQ|].
  apply rg_bind. eapply rg_mono; [|apply Hf, Hx; by left]. intros [[]|e] d' H; [|done]. cbn.
  apply IH. intros y Hy. eapply HP; [|done]. apply Hx. by right.
Qed.
End rg.

(** The handlers that keep [I] among themselves keep it whatever the interleaving. *)
Lemma server_rg {A} (R : D → D → Prop) `{!PreOrder R} (I : D → Prop) (H : prog D A → Prop) s s' ts' :
  (∀ p d, H p → I d → rg R I p (λ _ _, True) d) → rtc (server_step H) (s, []) (s', ts') →
  I (db s) → I (db s').
Proof.
  intros HH Hr Hs.
  set (J := λ c : sys D * list (prog D A), I (db c.1) ∧ Forall (λ p, ∃ d, R d (db c.1) ∧ rg R I p (λ _ _, True) d) c.2).
  assert (HJ : J (s', ts')); [|apply HJ]. assert (H0 : J (s, [])) by (split; [done|constructor]).
  revert H0. generalize dependent (s', ts'). generalize (s, @nil (prog D A)). clear s s' ts' Hs. intros c c' Hr.
  induction Hr as [c|c1 c2 c3 Hstep _ IH]; intros H0; [done|]. apply IH. destruct H0 as [Hi Hts].
  inversion Hstep as [s ts p Hp|s ts i p s2 p2 Hl Hp]; subst; cbn [fst snd] in *.
  - split; [done|]. apply Forall_app. split; [done|]. apply Forall_singleton. exists (db s). split; [reflexivity|by apply HH].
  - pose proof (Forall_lookup_1 _ _ _ _ Hts Hl) as (d & Hd & Hg). inversion Hp as [? a k x|? f]; subst; cbn [rg] in Hg.
    + split; [done|]. apply Forall_insert; [done|]. exists d. by split.
    + specialize (Hg _ Hd Hi). destruct (f (db s)) as [d' p'] eqn:E. destruct Hg as (H1 & H2 & H3). split; [done|].
      apply Forall_insert; [|by exists d']. eapply Forall_impl; [exact Hts|]. intros q (dq & Hq & Hgq). exists dq.
      split; [by etransitivity|done].
Qed.
End lemmas.

Create HintDb server.
#[export] Hint Resolve guar_bind guar_ret guar_mret guar_raise guar_do_act guar_of_res guar_select
  guar_for_in guar_fold_in : server.
#[export] Hint Extern 0 (Reflexive _) => apply _ : server.
