(* ===== verification/GatewayDb.v ===== *)
(** * The gateway's database and its node client (vps-gateway/db.py, rpc.py)

    One record per table, one definition per statement the gateway sends.  Keys
    made by AUTOINCREMENT are one more than the largest; rows are never deleted.
    UNIQUE columns make an INSERT fail, or do nothing under INSERT OR IGNORE; the
    REFERENCES clauses are not enforced, which is SQLite's default.  An integer
    that does not fit 64 bits cannot be bound. *)

From S2P Require Import Prelude JsString JsNum Python Server.

(** ** Configuration (the environment variables) *)

Class Config := {
  RPC_USER : string;
  RPC_PASSWORD : string;
  RPC_WALLET : string;
  WATCH_WALLET : string;
  POOL_WALLET : string;
  ADMIN_WALLET : string;
  POOL_FEE_BP : Z;
  STAKE_REWARD_ANNUAL_BP : Z;
  REFERRAL_REWARD_BP : Z;
  kyc_configured : bool;
  push_configured : bool;
  fcm_configured : bool;
  VAPID_PUBLIC_KEY : string
}.

(** ** Tables *)

Record user := User {
  us_id : Z;
  us_email : string;
  us_password_hash : string;
  us_created_at : num;
  us_full_name : string;
  us_date_of_birth : string;
  us_id_type : string;
  us_id_number : string;
  us_referral_code : string;
  us_referred_by : option Z
}.

Inductive deposit_status := Awaiting_funds | Active | Withdrawn.
#[export] Instance deposit_status_eq_dec : EqDecision deposit_status.
Proof. solve_decision. Defined.

Record deposit := Deposit {
  de_id : Z;
  de_user : Z;
  de_address : string;
  de_txid : option string;
  de_vout : option Z;
  de_amount : option Z;
  de_status : deposit_status;
  de_created_at : num;
  de_withdrawn_at : option num
}.

Record reward := Reward {
  re_id : Z;
  re_deposit : Z;
  re_txid : string;
  re_gross : Z;
  re_fee : Z;
  re_net : Z;
  re_credited_at : num
}.

Record subscription := Subscription {
  su_id : Z;
  su_user : Z;
  su_endpoint : py;
  su_p256dh : py;
  su_auth : py;
  su_created_at : num
}.

Record registration := Registration {
  rg_id : Z;
  rg_address : string;
  rg_platform : string;
  rg_token : py;
  rg_last_balance : Z;
  rg_created_at : num
}.

Record credit := Credit {
  cr_id : Z;
  cr_referrer : Z;
  cr_referred : Z;
  cr_deposit : Z;
  cr_amount : Z;
  cr_credited_at : num;
  cr_withdrawn_at : option num;
  cr_txid : option string
}.

Record gdb := Gdb {
  users : list user;
  watched_addresses : list (string * num);
  stake_deposits : list deposit;
  stake_rewards : list reward;
  push_subscriptions : list subscription;
  mobile_push_registrations : list registration;
  referral_credits : list credit
}.

(** The tables [init_db] creates. *)
Definition init_db : gdb := Gdb [] [] [] [] [] [] [].

Definition with_users f d := Gdb (f (users d)) (watched_addresses d) (stake_deposits d) (stake_rewards d)
  (push_subscriptions d) (mobile_push_registrations d) (referral_credits d).
Definition with_watched f d := Gdb (users d) (f (watched_addresses d)) (stake_deposits d) (stake_rewards d)
  (push_subscriptions d) (mobile_push_registrations d) (referral_credits d).
Definition with_deposits f d := Gdb (users d) (watched_addresses d) (f (stake_deposits d)) (stake_rewards d)
  (push_subscriptions d) (mobile_push_registrations d) (referral_credits d).
Definition with_rewards f d := Gdb (users d) (watched_addresses d) (stake_deposits d) (f (stake_rewards d))
  (push_subscriptions d) (mobile_push_registrations d) (referral_credits d).
Definition with_subscriptions f d := Gdb (users d) (watched_addresses d) (stake_deposits d) (stake_rewards d)
  (f (push_subscriptions d)) (mobile_push_registrations d) (referral_credits d).
Definition with_registrations f d := Gdb (users d) (watched_addresses d) (stake_deposits d) (stake_rewards d)
  (push_subscriptions d) (f (mobile_push_registrations d)) (referral_credits d).
Definition with_credits f d := Gdb (users d) (watched_addresses d) (stake_deposits d) (stake_rewards d)
  (push_subscriptions d) (mobile_push_registrations d) (f (referral_credits d)).

(** AUTOINCREMENT *)
Definition next_id (ids : list Z) : Z := 1 + foldr Z.max 0 ids.

(** The integers a statement can bind. *)
Definition int64 (z : Z) : bool := (- 2 ^ 63 <=? z) && (z <? 2 ^ 63).
Definition bind_int (z : Z) : res Z := if int64 z then Val z else Exc (PyError "OverflowError").

(** What a TEXT NOT NULL column makes of a JSON value. *)
Definition bind_text (v : py) : res py :=
  match v with
  | PStr _ | PFloat _ => Val v
  | PInt z => z ← bind_int z; mret (PStr (show z))
  | PBool b => Val (PStr (if b then "1" else "0"))
  | PNone => Exc (PyError "IntegrityError")
  | PList _ | PDict _ => Exc (PyError "ProgrammingError")
  end.
Definition text_eqb (v w : py) : bool :=
  match v, w with
  | PStr s, PStr t => String.eqb s t
  | PFloat x, PFloat y => num_eqb x y
  | _, _ => false
  end.

(** ** Statements *)

Definition integrity {A} : res A := Exc (PyError "IntegrityError").

Definition insert_user (email password_hash : string) (now : num) (full_name dob id_type id_number code : string)
    (referred_by : option Z) (d : gdb) : res (gdb * Z) :=
  if existsb (λ u, String.eqb (us_email u) email || String.eqb (us_referral_code u) code) (users d) then integrity
  else
    let i := next_id (us_id <$> users d) in
    Val (with_users (λ l, l ++ [User i email password_hash now full_name dob id_type id_number code referred_by]) d, i).

Definition user_by_email (email : string) (d : gdb) : option user :=
  list_find (λ u, us_email u = email) (users d) ≫= λ iu, Some iu.2.
Definition user_by_id (i : Z) (d : gdb) : option user :=
  list_find (λ u, us_id u = i) (users d) ≫= λ iu, Some iu.2.
Definition user_by_code (code : string) (d : gdb) : option user :=
  list_find (λ u, us_referral_code u = code) (users d) ≫= λ iu, Some iu.2.

Definition insert_watched (address : string) (now : num) (d : gdb) : gdb :=
  if existsb (λ w, String.eqb w.1 address) (watched_addresses d) then d
  else with_watched (λ l, l ++ [(address, now)]) d.

Definition insert_deposit (user_id : Z) (address : string) (now : num) (d : gdb) : res (gdb * Z) :=
  if existsb (λ x, String.eqb (de_address x) address) (stake_deposits d) then integrity
  else
    let i := next_id (de_id <$> stake_deposits d) in
    Val (with_deposits (λ l, l ++ [Deposit i user_id address None None None Awaiting_funds now None]) d, i).

(** UPDATE stake_deposits SET status='active', ... WHERE id=? *)
Definition activate (txid : string) (vout amount : Z) (x : deposit) : deposit :=
  Deposit (de_id x) (de_user x) (de_address x) (Some txid) (Some vout) (Some amount) Active (de_created_at x) (de_withdrawn_at x).
Definition update_funded (i : Z) (txid : string) (vout amount : Z) (d : gdb) : res (gdb * unit) :=
  _ ← bind_int vout; _ ← bind_int amount;
  Val (with_deposits (fmap (λ x, if de_id x =? i then activate txid vout amount x else x)) d, ()).

(** UPDATE stake_deposits SET status='withdrawn', ... WHERE user_id=? AND
    status='active' *)
Definition close (now : num) (x : deposit) : deposit :=
  Deposit (de_id x) (de_user x) (de_address x) (de_txid x) (de_vout x) (de_amount x) Withdrawn (de_created_at x) (Some now).
Definition update_withdrawn (user_id : Z) (now : num) : gdb → gdb :=
  with_deposits (fmap (λ x, if (de_user x =? user_id) && bool_decide (de_status x = Active) then close now x else x)).

(** INSERT OR IGNORE INTO stake_rewards *)
Definition insert_reward (deposit_id : Z) (txid : string) (gross fee net : Z) (now : num) (d : gdb) : res (gdb * unit) :=
  _ ← bind_int gross; _ ← bind_int fee; _ ← bind_int net;
  if existsb (λ r, String.eqb (re_txid r) txid) (stake_rewards d) then Val (d, ())
  else Val (with_rewards (λ l, l ++ [Reward (next_id (re_id <$> l)) deposit_id txid gross fee net now]) d, ()).

(** INSERT INTO push_subscriptions ... ON CONFLICT(endpoint) DO UPDATE *)
Definition upsert_subscription (user_id : Z) (endpoint p256dh auth : py) (now : num) (d : gdb) : res (gdb * unit) :=
  e ← bind_text endpoint; p ← bind_text p256dh; a ← bind_text auth;
  Val (with_subscriptions (λ l,
    if existsb (λ s, text_eqb (su_endpoint s) e) l
    then (λ s, if text_eqb (su_endpoint s) e then Subscription (su_id s) user_id (su_endpoint s) p a (su_created_at s) else s) <$> l
    else l ++ [Subscription (next_id (su_id <$> l)) user_id e p a now]) d, ()).

(** INSERT INTO mobile_push_registrations ... ON CONFLICT(address, token) DO
    UPDATE *)
Definition upsert_registration (address platform : string) (token : py) (now : num) (d : gdb) : res (gdb * unit) :=
  t ← bind_text token;
  let same r := String.eqb (rg_address r) address && text_eqb (rg_token r) t in
  Val (with_registrations (λ l,
    if existsb same l
    then (λ r, if same r then Registration (rg_id r) (rg_address r) platform (rg_token r) (rg_last_balance r) (rg_created_at r) else r) <$> l
    else l ++ [Registration (next_id (rg_id <$> l)) address platform t 0 now]) d, ()).

(** UPDATE mobile_push_registrations SET last_notified_balance = ? WHERE id = ? *)
Definition update_balance (i balance : Z) (d : gdb) : res (gdb * unit) :=
  _ ← bind_int balance;
  Val (with_registrations (fmap (λ r, if rg_id r =? i
    then Registration (rg_id r) (rg_address r) (rg_platform r) (rg_token r) balance (rg_created_at r) else r)) d, ()).

Definition insert_credit (referrer referred deposit_id amount : Z) (now : num) (d : gdb) : res (gdb * unit) :=
  _ ← bind_int amount;
  Val (with_credits (λ l, l ++ [Credit (next_id (cr_id <$> l)) referrer referred deposit_id amount now None None]) d, ()).

(** UPDATE referral_credits SET withdrawn_at=?, withdrawal_txid=? WHERE
    referrer_user_id=? AND withdrawn_at IS NULL *)
Definition pay_credit (now : num) (txid : string) (c : credit) : credit :=
  Credit (cr_id c) (cr_referrer c) (cr_referred c) (cr_deposit c) (cr_amount c) (cr_credited_at c) (Some now) (Some txid).
Definition unpaid (user_id : Z) (c : credit) : bool :=
  (cr_referrer c =? user_id) && match cr_withdrawn_at c with None => true | Some _ => false end.
Definition update_paid (user_id : Z) (now : num) (txid : string) : gdb → gdb :=
  with_credits (fmap (λ c, if unpaid user_id c then pay_credit now txid c else c)).

(** SUM(...): an overflow on the way is an error. *)
Definition sql_sum (l : list Z) : res Z :=
  foldl (λ t x, a ← t; if int64 (a + x) then Val (a + x) else Exc (PyError "OperationalError")) (Val 0) l.

(** ** The node client (rpc.py) *)

Section rpc.
  Context {CF : Config} {D : Type}.

Definition rpc_path (wallet : option string) : string :=
  let w := default RPC_WALLET wallet in
  if String.eqb w "" then "/" else "/wallet/" +:+ w.

(** [rpc.call(method, params, wallet)] *)
Definition rpc_call (wallet : option string) (c : call) : prog D (result_of c) :=
  if String.eqb RPC_USER "" || String.eqb RPC_PASSWORD ""
  then Raise (RpcError (-1) "Gateway is not configured (missing CAC_RPC_USER/CAC_RPC_PASSWORD)")
  else call_node (rpc_path wallet) c.

Lemma guar_rpc_call P S wallet c : P (Rpc (rpc_path wallet) c) → guar P S (rpc_call wallet c).
Proof. intros HP. unfold rpc_call. destruct (_ || _); [done|]. split; [done|]. by intros [a|code message| |a]. Qed.

Lemma guar_except_rpc {A} P S (p : prog D A) h :
  guar P S p → (∀ code message, guar P S (h code message)) → guar P S (catch p (except_rpc h)).
Proof. intros Hp Hh. apply guar_catch; [done|]. intros [code m|?|?|?] q; cbn; intros; simplify_eq; auto. Qed.
End rpc.

#[export] Hint Resolve guar_rpc_call guar_except_rpc : server.

(** Go through a program; what remains are its actions that [P] does not allow at
    once, and its statements. *)
Ltac guar_tac :=
  repeat (intros; cbv zeta; first
    [ solve [eauto with server]
    | match goal with
      | |- guar _ _ (rpc_call ?w ?c) => apply (guar_rpc_call _ _ w c); try done
      | |- guar _ _ (do_act ?a) => apply (guar_do_act _ _ a); try done
      | |- guar _ _ (mbind _ _) => apply guar_bind
      | |- guar _ _ (catch _ (except_rpc _)) => apply guar_except_rpc
      | |- guar _ _ (for_in _ _) => apply guar_for_in
      | |- guar _ _ (fold_in _ _ _) => apply guar_fold_in
      | |- guar _ _ (select _) => apply guar_select; apply _
      | |- guar _ _ (match ?x with _ => _ end) => destruct x
      end ]); intros.
