(* ===== verification/Referral.v ===== *)
(** * Referral rewards (vps-gateway/referral.py) *)

From S2P Require Import Prelude JsString JsNum JsValue Amount Python Server GatewayDb.

Section referral.
  Context {CF : Config}.

(** The same steps for the watch-only, the pool's and the admin wallet: loaded, or
    loaded now, or created unless it exists. *)
Definition ensure_loaded (name : string) (watch_only : bool) : prog gdb unit :=
  loaded ← rpc_call (Some "") ListWallets;
  if bool_decide (name ∈ loaded) then mret ()
  else
    created ← catch (A := bool) (_ ← rpc_call (Some "") (LoadWallet name); mret false)
      (except_rpc (λ code message,
        on_disk ← rpc_call (Some "") ListWalletDir;
        if bool_decide (name ∈ on_disk)
        then Raise (RpcError code ("Wallet '" +:+ name +:+ "' exists on disk but failed to load: " +:+ message))
        else mret true));
    if created : bool then rpc_call (Some "") (CreateWallet name watch_only) else mret ().

Definition ensure_admin_wallet_loaded : prog gdb unit := ensure_loaded ADMIN_WALLET false.

Definition remove_char (c : ascii) (s : string) : string := of_chars (filter (λ x, x ≠ c) (chars s)).

Definition generate_referral_code : prog gdb string :=
  t ← do_act Token;
  mret (py_upper (str_slice (remove_char "-" (remove_char "_" t)) 0 8)).

Definition credit_referral_if_eligible (user_id deposit_id amount_satoshis : Z) : prog gdb unit :=
  u ← select (user_by_id user_id);
  match u ≫= us_referred_by with
  | None => mret ()
  | Some 0 => mret ()
  | Some referrer =>
      already_credited ← select (λ d, existsb (λ c, cr_referred c =? user_id) (referral_credits d));
      if already_credited : bool then mret ()
      else
        prior_deposits ← select (λ d, length (filter (λ x,
          de_user x = user_id ∧ de_status x ≠ Awaiting_funds ∧ de_id x ≠ deposit_id) (stake_deposits d)));
        if (0 <? prior_deposits)%nat then mret ()
        else
          let reward_satoshis := amount_satoshis * REFERRAL_REWARD_BP / 10000 in
          if reward_satoshis <=? 0 then mret ()
          else
            now ← do_act Clock;
            try_execute (insert_credit referrer user_id deposit_id reward_satoshis now)
  end.

Definition _mask_email (email : string) : string :=
  let '(loc, domain) := partition "@" email in
  match domain with
  | None | Some "" => "***"
  | Some domain =>
      let visible := if String.eqb (first_point loc) "" then "*" else first_point loc in
      visible +:+ js_repeat "*" (Z.to_nat (Z.max (py_strlen loc - 1) 3)) +:+ "@" +:+ domain
  end.

(** The users referred, newest first, each with its credits or with none. *)
Definition referral_rows (user_id : Z) (d : gdb) : list (user * option credit) :=
  let referred := filter (λ u, us_referred_by u = Some user_id) (users d) in
  let newest (u v : user) := num_lt (us_created_at v) (us_created_at u) in
  mjoin ((λ u,
    match filter (λ c, cr_referred c = us_id u ∧ cr_referrer c = user_id) (referral_credits d) with
    | [] => [(u, None)]
    | cs => (λ c, (u, Some c)) <$> cs
    end) <$> sort_by newest referred).

Definition opt_py {A} (f : A → py) (o : option A) : py := match o with Some a => f a | None => PNone end.

Definition history_entry (row : user * option credit) : py :=
  let '(u, c) := row in
  PDict [("referred_email_masked", PStr (_mask_email (us_email u)));
         ("joined_at", PFloat (us_created_at u));
         ("amount_satoshis", opt_py (λ c, PInt (cr_amount c)) c);
         ("credited_at", opt_py (λ c, PFloat (cr_credited_at c)) c);
         ("withdrawn", PBool match c ≫= cr_withdrawn_at with Some _ => true | None => false end)].

Definition history_for_user (user_id : Z) : prog gdb py :=
  rows ← select (referral_rows user_id);
  mret (PList (history_entry <$> rows)).

Record referral_totals := Referral_totals { rs_code : string; rs_count : Z; rs_available : Z; rs_lifetime : Z }.

Definition status_for_user (user_id : Z) : prog gdb referral_totals :=
  row ← select (user_by_id user_id);
  n ← select (λ d, Z.of_nat (length (filter (λ u, us_referred_by u = Some user_id) (users d))));
  available ← select (λ d, sql_sum (cr_amount <$> filter (λ c, unpaid user_id c = true) (referral_credits d)));
  available ← of_res available;
  lifetime ← select (λ d, sql_sum (cr_amount <$> filter (λ c, cr_referrer c = user_id) (referral_credits d)));
  lifetime ← of_res lifetime;
  match row with
  | Some u => mret (Referral_totals (us_referral_code u) n available lifetime)
  | None => Raise (PyError "TypeError")
  end.

Definition status_json (s : referral_totals) : py :=
  PDict [("referral_code", PStr (rs_code s)); ("referred_count", PInt (rs_count s));
         ("available_satoshis", PInt (rs_available s)); ("lifetime_satoshis", PInt (rs_lifetime s))].

Definition withdraw (user_id : Z) (to_address : py) : prog gdb string :=
  status ← status_for_user user_id;
  let amount_satoshis := rs_available status in
  if amount_satoshis <=? 0
  then Raise (ReferralError "invalid-address" "No referral credit available to withdraw")
  else
    _ ← ensure_admin_wallet_loaded;
    amount_cac ← of_res (true_div amount_satoshis COIN);
    txid ← catch (rpc_call (Some ADMIN_WALLET) (SendToAddress to_address amount_cac))
      (except_rpc (λ code message,
        if code =? -6
        then Raise (ReferralError "not-found"
          "The admin wallet doesn't have enough confirmed funds right now -- try again shortly, or contact the project.")
        else Raise (ReferralError "invalid-address" ("Withdrawal failed: " +:+ message))));
    now ← do_act Clock;
    _ ← execute (update_paid user_id now txid);
    mret txid.
End referral.
