(* ===== verification/Staking.v ===== *)
(** * The custodial staking pool (vps-gateway/staking.py) *)

From S2P Require Import Prelude JsString JsNum JsValue Amount Python Server GatewayDb Referral.

Section staking.
  Context {CF : Config}.

(** [push.send_notification] *)
Definition send_notification (s : subscription) (title body : string) : prog gdb bool :=
  if push_configured then
    r ← do_act (Web_push (su_endpoint s) (su_p256dh s) (su_auth s) title body);
    match r with
    | Pushed => mret true
    | Push_refused => mret false
    | Push_failed => Raise (PyError "ConnectionError")
    end
  else mret false.

Definition _notify_user (user_id : Z) (title body : string) : prog gdb unit :=
  subs ← select (λ d, filter (λ s, su_user s = user_id) (push_subscriptions d));
  for_in subs (λ s, _ ← send_notification s title body; mret ()).

Definition ensure_pool_wallet_loaded : prog gdb unit := ensure_loaded POOL_WALLET false.

Definition create_deposit (user_id : Z) : prog gdb string :=
  _ ← ensure_pool_wallet_loaded;
  address ← rpc_call (Some POOL_WALLET) (GetNewAddress "deposit:pending");
  now ← do_act Clock;
  deposit_id ← try_execute (insert_deposit user_id address now);
  _ ← rpc_call (Some POOL_WALLET) (SetLabel address ("deposit:" +:+ show deposit_id));
  mret address.

(** [round(x * COIN)] *)
Definition to_sat (x : num) : res Z := py_round (num_mul x (num_of_Z COIN)).

(** [f"... {amount / COIN:.8f} CAC ..."] *)
Definition cac_text (amount : Z) : res string := x ← true_div amount COIN; mret (fixed8 x).

Definition mark_funded (dep : deposit) : prog gdb unit :=
  utxos ← rpc_call (Some POOL_WALLET) (ListUnspent 1 (de_address dep) false);
  match utxos : list unspent with
  | [] => mret ()
  | u :: _ =>
      amount_sat ← of_res (to_sat (un_amount u));
      _ ← try_execute (update_funded (de_id dep) (un_txid u) (un_vout u) amount_sat);
      t ← of_res (cac_text amount_sat);
      _ ← _notify_user (de_user dep) "Deposit received"
        ("Your deposit of " +:+ t +:+ " CAC is confirmed and will begin staking.");
      credit_referral_if_eligible (de_user dep) (de_id dep) amount_sat
  end.

Definition _mark_funded_deposits : prog gdb unit :=
  _ ← ensure_pool_wallet_loaded;
  pending ← select (λ d, filter (λ x, de_status x = Awaiting_funds) (stake_deposits d));
  for_in pending mark_funded.

(** [float(o["value"]) == 0] and [scriptPubKey.get("hex", "") == ""] *)
Definition empty_out (o : rpc_out) : bool :=
  match out_value o with Fin m _ => m =? 0 | _ => false end && String.eqb (default "" (out_hex o)) "".

Definition _is_coinstake (tx : rpc_tx) : bool :=
  match rt_vin tx, rt_vout tx with
  | In_spends _ _ _ :: _, o :: _ :: _ => empty_out o
  | _, _ => false
  end.

(** [sum(round(o["value"] * COIN) for o in outs)] *)
Definition out_total (outs : list rpc_out) : res Z := py_sum (to_sat ∘ out_value <$> outs).

(** The loop that adds up what the inputs spend. *)
Definition in_total {D} (call_tx : string → prog D rpc_tx) (vins : list rpc_in) : prog D Z :=
  fold_in (λ total vin,
    match vin with
    | In_spends txid vout _ =>
        prevtx ← call_tx txid;
        o ← of_res (py_index (rt_vout prevtx) vout);
        v ← of_res (to_sat (out_value o));
        mret (total + v)
    | In_coinbase _ => Raise (PyError "KeyError")
    end) 0 vins.

Definition get_tx (txid : string) : prog gdb rpc_tx := rpc_call None (GetRawTransaction txid).

Definition spends (txid : string) (vout : Z) (vin : rpc_in) : bool :=
  match vin with In_spends t v _ => String.eqb t txid && (v =? vout) | In_coinbase _ => false end.

(** One transaction of a deposit's label; nothing to do when it is credited, not
    found, no coinstake, or does not spend the deposit's output. *)
Definition attribute (dep : deposit) (funding_txid : string) (funding_vout : Z) (t : wallet_tx) : prog gdb unit :=
  let txid := wt_txid t in
  already ← select (λ d, existsb (λ r, String.eqb (re_txid r) txid) (stake_rewards d));
  if already : bool then mret ()
  else
    found ← catch (tx ← get_tx txid; mret (Some tx)) (except_rpc (λ _ _, mret None));
    match found with
    | None => mret ()
    | Some tx =>
        if negb (_is_coinstake tx) then mret ()
        else if negb (existsb (spends funding_txid funding_vout) (rt_vin tx)) then mret ()
        else
          out ← of_res (out_total (rt_vout tx));
          inp ← in_total get_tx (rt_vin tx);
          let gross := out - inp in
          let pool_fee := gross * POOL_FEE_BP / 10000 in
          let net := gross - pool_fee in
          now ← do_act Clock;
          _ ← try_execute (insert_reward (de_id dep) txid gross pool_fee net now);
          s ← of_res (cac_text net);
          _notify_user (de_user dep) "Staking reward earned" ("You earned " +:+ s +:+ " CAC from staking (after pool fee).")
    end.

(** One active deposit.  The node refuses a query without an output, and the loop
    goes on. *)
Definition attribute_deposit (dep : deposit) : prog gdb unit :=
  match de_txid dep, de_vout dep with
  | Some txid, Some vout =>
      still ← catch (b ← rpc_call None (GetTxOut txid vout); mret (b : bool)) (except_rpc (λ _ _, mret true));
      if still : bool then mret ()
      else
        history ← rpc_call (Some POOL_WALLET) (ListTransactions ("deposit:" +:+ show (de_id dep)) 50);
        for_in history (attribute dep txid vout)
  | _, _ => mret ()
  end.

Definition _attribute_rewards : prog gdb unit :=
  _ ← ensure_pool_wallet_loaded;
  active ← select (λ d, filter (λ x, de_status x = Active) (stake_deposits d));
  for_in active attribute_deposit.

Definition run_watcher_pass : prog gdb unit :=
  _ ← _mark_funded_deposits;
  _attribute_rewards.

Record pool_status := Pool_status { ps_delegated : Z; ps_rewards : Z }.

Definition status_for_user (user_id : Z) : prog gdb pool_status :=
  deposits ← select (λ d, filter (λ x, de_user x = user_id) (stake_deposits d));
  let active := filter (λ x, de_status x = Active) deposits in
  let ids := de_id <$> active in
  rewards_total ←
    (match ids with
     | [] => mret 0
     | _ =>
         total ← select (λ d, sql_sum (re_net <$> filter (λ r, re_deposit r ∈ ids) (stake_rewards d)));
         of_res total
     end);
  mret (Pool_status (sum_Z ((λ x, default 0 (de_amount x)) <$> active)) rewards_total).

Definition status_json (s : pool_status) : py :=
  PDict [("mode", PStr "custodial"); ("delegated_amount", PStr (show (ps_delegated s)));
         ("accrued_rewards", PStr (show (ps_rewards s)));
         ("effective_monthly_rate_bp", PInt (STAKE_REWARD_ANNUAL_BP / 12)); ("pool_fee_bp", PInt POOL_FEE_BP);
         ("can_withdraw", PBool ((0 <? ps_delegated s) || (0 <? ps_rewards s)))].

Definition withdraw (user_id amount_satoshis : Z) (to_address : py) : prog gdb string :=
  status ← status_for_user user_id;
  let available := ps_delegated status + ps_rewards status in
  if available <? amount_satoshis
  then Raise (StakingError "invalid-address"
    ("Requested " +:+ show amount_satoshis +:+ " exceeds available balance " +:+ show available))
  else
    _ ← ensure_pool_wallet_loaded;
    amount_cac ← of_res (true_div amount_satoshis COIN);
    txid ← catch (rpc_call (Some POOL_WALLET) (SendToAddress to_address amount_cac))
      (except_rpc (λ code message,
        if code =? -6
        then Raise (StakingError "not-found"
          "Funds are still maturing on-chain and aren't spendable yet -- try again shortly.")
        else Raise (StakingError "invalid-address" ("Withdrawal failed: " +:+ message))));
    now ← do_act Clock;
    _ ← execute (update_withdrawn user_id now);
    mret txid.
End staking.
