(* ===== verification/GatewayServer.v ===== *)
(** * The gateway's routes and its watcher (vps-gateway/app.py, auth.py, kyc.py,
    watcher.py, mobile_notify.py, push_mobile.py)

    A route is a definition from a request to a program that ends in a response;
    an exception nobody catches is the framework's answer 500.  The rate limiter
    only keeps requests away, so the theorems, which hold for every sequence of
    requests, cover it. *)

From S2P Require Import Prelude JsString JsNum Amount JsValue JsDate Python Server GatewayDb Referral Staking.

(** The libraries the gateway calls: PyJWT, werkzeug's password check, and [str]
    of floats and containers, which is only echoed. *)
Class Libraries := {
  jwt_encode : Z → Z → Z → string;       (* sub, iat, exp *)
  jwt_decode : string → Z → option Z;    (* a token, at a time *)
  check_password_hash : string → string → bool;
  py_repr : py → string
}.

Record http_request := Http_request {
  h_authorization : string;
  h_json : option py;
  h_args : list (string * string)
}.
Record response := Response { rs_status : Z; rs_body : py }.

Definition jsonify (v : py) : response := Response 200 v.
Definition error (code message : string) (status : Z) : response :=
  Response status (PDict [("error", PDict [("code", PStr code); ("message", PStr message)])]).

(** [request.get_json(silent=True) or {}] *)
Definition json_body (r : http_request) : py := py_or (default PNone (h_json r)) (PDict []).

Fixpoint arg (k : string) (l : list (string * string)) : option string :=
  match l with [] => None | (k', v) :: l => if String.eqb k k' then Some v else arg k l end.

Section app.
  Context {CF : Config} {LB : Libraries}.

(** ** auth.py *)

Definition JWT_TTL_HOURS : Z := 24 * 30.

Definition issue_token (user_id : Z) : prog gdb string :=
  iat ← do_act Utcnow;
  now ← do_act Utcnow;
  mret (jwt_encode user_id iat (now + JWT_TTL_HOURS * 3600)).

Definition verify_token (token : string) : prog gdb (option Z) :=
  now ← do_act Utcnow;
  mret (jwt_decode token now).

Definition hash_password (password : py) : prog gdb string :=
  p ← of_res (py_str password);
  do_act (Hash_password p).

Definition verify_password (password : py) (hash : string) : res bool :=
  p ← py_str password; mret (check_password_hash hash p).

Definition require_auth (r : http_request) : prog gdb (Z + response) :=
  let header := h_authorization r in
  if negb (js_starts_with header "Bearer ")
  then mret (inr (error "unauthorized" "Missing or malformed Authorization header" 401))
  else
    u ← verify_token (str_slice_from header 7);
    match u with
    | None => mret (inr (error "unauthorized" "Invalid or expired token" 401))
    | Some user_id => mret (inl user_id)
    end.

(** [user_id, err = require_auth(); if err: return err] *)
Definition authorized (r : http_request) (h : Z → prog gdb response) : prog gdb response :=
  u ← require_auth r;
  match u with inl user_id => h user_id | inr err => mret err end.

(** ** Watched addresses *)

Definition ensure_wallet_loaded : prog gdb unit := ensure_loaded WATCH_WALLET true.

Definition ensure_address_watched (address : string) : prog gdb unit :=
  row ← select (λ d, existsb (λ w, String.eqb w.1 address) (watched_addresses d));
  if row : bool then mret ()
  else
    _ ← ensure_wallet_loaded;
    descriptor ← rpc_call None (GetDescriptorInfo ("addr(" +:+ address +:+ ")"));
    result ← rpc_call (Some WATCH_WALLET) (ImportDescriptor descriptor address);
    if negb result.1
    then Raise (RpcError (-1) ("importdescriptors failed: " +:+ result.2))
    else
      now ← do_act Clock;
      execute (insert_watched address now).

Definition is_valid_address (address : py) : prog gdb bool :=
  catch (b ← rpc_call None (ValidateAddress address); mret (b : bool)) (except_rpc (λ _ _, mret false)).

Definition invalid_address : response := error "invalid-address" "Not a valid CodexaCoin address" 400.

(** The check and the import every address route begins with. *)
Definition with_address (address : string) (k : prog gdb response) : prog gdb response :=
  ok ← is_valid_address (PStr address);
  if negb ok then mret invalid_address
  else _ ← ensure_address_watched address; k.

(** ** Chain data *)

Definition network_status : prog gdb response :=
  catch (info ← rpc_call None GetBlockchainInfo;
    mret (jsonify (PDict [("network", PStr (ci_chain info)); ("chain_height", PInt (ci_blocks info));
      ("best_block_hash", PStr (ci_best info)); ("backend", PStr "rpc"); ("backend_healthy", PBool true)])))
    (except_rpc (λ code message,
      mret (error "electrum-backend-unavailable" (show code +:+ ": " +:+ message) 502))).

Definition list_unspent (address : string) : prog gdb (list unspent) :=
  rpc_call (Some WATCH_WALLET) (ListUnspent 0 address true).

Definition address_balance (address : string) : prog gdb response :=
  with_address address (
    utxos ← list_unspent address;
    confirmed ← of_res (py_sum (to_sat ∘ un_amount <$> filter (λ u, 0 < un_confirmations u) utxos));
    unconfirmed ← of_res (py_sum (to_sat ∘ un_amount <$> filter (λ u, un_confirmations u = 0) utxos));
    mret (jsonify (PDict [("address", PStr address); ("confirmed", PStr (show confirmed));
      ("unconfirmed", PStr (show unconfirmed))]))).

Definition utxo_entry (tip : Z) (u : unspent) : res py :=
  let confs := un_confirmations u in
  v ← to_sat (un_amount u);
  mret (PDict [("txid", PStr (un_txid u)); ("vout", PInt (un_vout u)); ("value", PStr (show v));
    ("height", if 0 <? confs then PInt (tip - confs + 1) else PNone); ("confirmations", PInt confs)]).

Definition address_utxos (address : string) : prog gdb response :=
  with_address address (
    tip ← rpc_call None GetBlockCount;
    raw ← list_unspent address;
    utxos ← of_res (mapM (utxo_entry tip) raw);
    mret (jsonify (PDict [("address", PStr address); ("utxos", PList utxos)]))).

(** The transactions not seen before and below the height asked for. *)
Fixpoint history_loop (before : option Z) (seen : list string) (l : list wallet_tx) : list (string * option Z) :=
  match l with
  | [] => []
  | t :: l =>
      if bool_decide (wt_txid t ∈ seen) then history_loop before seen l
      else
        let rest := history_loop before (wt_txid t :: seen) l in
        match before, wt_height t with
        | Some b, Some h => if b <=? h then rest else (wt_txid t, wt_height t) :: rest
        | _, _ => (wt_txid t, wt_height t) :: rest
        end
  end.

(** [key=lambda t: (t["height"] is None, -(t["height"] or 0))] *)
Definition history_before (t u : string * option Z) : bool :=
  match t.2, u.2 with
  | Some h, Some k => k <? h
  | Some _, None => true
  | None, _ => false
  end.

(** [l[:n]] *)
Definition py_take {A} (n : Z) (l : list A) : list A :=
  take (Z.to_nat (if n <? 0 then Z.of_nat (length l) + n else n)) l.

Definition history_json (t : string * option Z) : py :=
  PDict [("txid", PStr t.1); ("height", opt_py PInt t.2); ("fee", PNone)].

Definition address_history (address : string) (r : http_request) : prog gdb response :=
  with_address address (
    match int_of_str (default "50" (arg "limit" (h_args r))) with
    | Exc _ => mret (error "invalid-address" "limit must be an integer" 400)
    | Val limit =>
        before ← of_res (match arg "before_height" (h_args r) with
                         | None => Val None
                         | Some s => if String.eqb s "" then Val None else Some <$> int_of_str s
                         end);
        raw ← rpc_call (Some WATCH_WALLET) (ListTransactions address (Z.max (limit * 2) 100));
        let txs := sort_by history_before (history_loop before [] raw) in
        mret (jsonify (PDict [("address", PStr address); ("transactions", PList (history_json <$> py_take limit txs));
          ("has_more", PBool (limit <? Z.of_nat (length txs)))]))
    end).

Definition tx_reward (tx : rpc_tx) : prog gdb (option Z) :=
  if _is_coinstake tx then
    out ← of_res (out_total (rt_vout tx));
    inp ← in_total get_tx (rt_vin tx);
    mret (Some (out - inp))
  else mret None.

Definition in_raw (i : rpc_in) : py := match i with In_coinbase raw | In_spends _ _ raw => raw end.

Definition tx_detail (txid : string) : prog gdb response :=
  found ← catch (tx ← get_tx txid; mret (Some tx)) (except_rpc (λ _ _, mret None));
  match found with
  | None => mret (error "not-found" "No such transaction" 404)
  | Some tx =>
      reward ← tx_reward tx;
      height ← (match rt_blockhash tx with
                | Some h => block ← rpc_call None (GetBlock h 1); mret (Some (rb_height block))
                | None => mret None
                end);
      mret (jsonify (PDict [("txid", PStr txid); ("height", opt_py PInt height);
        ("confirmations", PInt (default 0 (rt_confirmations tx))); ("is_coinstake", PBool (_is_coinstake tx));
        ("reward_satoshis", opt_py (λ z, PStr (show z)) reward);
        ("vin", PList (in_raw <$> rt_vin tx)); ("vout", PList (out_raw <$> rt_vout tx))]))
  end.

Definition broadcast (r : http_request) : prog gdb response :=
  raw_hex ← of_res (py_get (json_body r) "raw_tx_hex");
  if negb (py_truthy raw_hex) then mret (error "tx-rejected" "raw_tx_hex is required" 400)
  else
    catch (txid ← rpc_call None (SendRawTransaction raw_hex); mret (jsonify (PDict [("txid", PStr txid)])))
      (except_rpc (λ _ message, mret (error "tx-rejected" message 400))).

(** ** Fees *)

(** [max(1, round(mempoolminfee * COIN / 1000))] *)
Definition fee_floor (minfee : num) : res Z :=
  r ← py_round (num_div (num_mul minfee (num_of_Z COIN)) (num_of_Z 1000));
  mret (Z.max 1 r).

Definition fullness_of (bytes max : Z) : res num :=
  if max =? 0 then Val (num_of_Z 0)
  else x ← true_div bytes max; mret (if num_lt x (num_of_Z 1) then x else num_of_Z 1).

(** The rate for a floor, how full the mempool is, and how long one waits. *)
Definition fee_rate_of (min_rate : Z) (fullness : num) (target : Z) : res Z :=
  t ← to_float target;
  let urgency := num_add (num_of_Z 1) (num_mul fullness (num_div (num_of_Z 10) t)) in
  m ← to_float min_rate;
  r ← py_round (num_mul m urgency);
  mret (Z.min r (min_rate * 10)).

Definition fee_estimate (r : http_request) : prog gdb response :=
  target ← of_res (int_of_str (default "6" (arg "target_blocks" (h_args r))));
  if target <? 1 then mret (error "invalid-request" "target_blocks must be >= 1" 400)
  else
    mempool ← catch (m ← rpc_call None GetMempoolInfo; mret (inl m))
      (except_rpc (λ _ message, mret (inr (error "rpc-error" message 502))));
    match mempool with
    | inr err => mret err
    | inl m =>
        min_rate ← of_res (fee_floor (mi_minfee m));
        fullness ← of_res (fullness_of (mi_bytes m) (mi_max m));
        fee_rate ← of_res (fee_rate_of min_rate fullness target);
        mret (jsonify (PDict [("target_blocks", PInt target); ("fee_rate_sat_per_vbyte", PStr (show fee_rate));
          ("mempool_min_fee_sat_per_vbyte", PStr (show min_rate)); ("mempool_fullness", PFloat (round4 fullness))]))
    end.

(** ** Accounts *)

(** [(body.get(k) or "").strip()] *)
Definition text_field (b : py) (k : string) : res string :=
  v ← py_get b k; s ← py_str (py_or v (PStr "")); mret (py_strip s).

Definition VALID_ID_TYPES : list string := ["nic"; "passport"].

Record signup_form := Signup_form {
  sf_email : string;
  sf_password : py;
  sf_full_name : string;
  sf_date_of_birth : string;
  sf_id_type : string;
  sf_id_number : string;
  sf_referral_code : string
}.

Definition read_signup (b : py) : res signup_form :=
  email ← text_field b "email";
  password ← py_get b "password";
  full_name ← text_field b "full_name";
  dob ← text_field b "date_of_birth";
  id_type ← text_field b "id_type";
  id_number ← text_field b "id_number";
  code ← text_field b "referral_code";
  mret (Signup_form (py_lower email) (py_or password (PStr "")) full_name dob (py_lower id_type) id_number (py_upper code)).

(** The checks before the database is asked: a message, or none. *)
Definition check_signup (f : signup_form) : prog gdb (option string) :=
  short ← of_res (if String.eqb (sf_email f) "" || negb (js_includes (sf_email f) "@") then Val true
                  else n ← py_len (sf_password f); mret (n <? 8));
  if short : bool then mret (Some "Valid email and password (>=8 chars) required")
  else if String.eqb (sf_full_name f) "" then mret (Some "Full name is required")
  else
    match fromisoformat (sf_date_of_birth f) with
    | Exc _ => mret (Some "date_of_birth must be YYYY-MM-DD")
    | Val dob =>
        today ← do_act Today;
        mret (if (today <=? dob) || (year_from_day dob <? 1900) then Some "date_of_birth is not a valid birth date"
              else if negb (bool_decide (sf_id_type f ∈ VALID_ID_TYPES)) then Some "id_type must be one of ['nic', 'passport']"
              else if String.eqb (sf_id_number f) "" then Some "id_number is required"
              else None)
    end.

(** Up to [n] draws of a code that is not taken; the last one is kept. *)
Fixpoint draw_code (n : nat) (code : string) : prog gdb string :=
  match n with
  | O => mret code
  | S n =>
      own ← generate_referral_code;
      taken ← select (user_by_code own);
      match taken with Some _ => draw_code n own | None => mret own end
  end.

(** The referrer of a code, if one is given. *)
Definition find_referrer (code : string) : prog gdb (option (option Z)) :=
  if String.eqb code "" then mret (Some None)
  else
    referrer ← select (user_by_code code);
    mret (match referrer with Some u => Some (Some (us_id u)) | None => None end).

Definition signup (r : http_request) : prog gdb response :=
  if negb kyc_configured
  then mret (error "rpc-error" "Signup is temporarily unavailable (server misconfigured)" 503)
  else
    f ← of_res (read_signup (json_body r));
    bad ← check_signup f;
    match bad with
    | Some message => mret (error "invalid-address" message 400)
    | None =>
        existing ← select (user_by_email (sf_email f));
        match existing with
        | Some _ => mret (error "invalid-address" "An account with that email already exists" 409)
        | None =>
            referred_by ← find_referrer (sf_referral_code f);
            match referred_by with
            | None => mret (error "invalid-address" "Unknown referral code" 400)
            | Some referred_by =>
                code ← draw_code 5 "";
                hash ← hash_password (sf_password f);
                now ← do_act Clock;
                encrypted ← do_act (Encrypt (sf_id_number f));
                user_id ← try_execute (insert_user (sf_email f) hash now (sf_full_name f) (sf_date_of_birth f)
                  (sf_id_type f) encrypted code referred_by);
                token ← issue_token user_id;
                mret (jsonify (PDict [("token", PStr token)]))
            end
        end
    end.

Definition login (r : http_request) : prog gdb response :=
  email ← of_res (text_field (json_body r) "email");
  password ← of_res (py_get (json_body r) "password");
  row ← select (user_by_email (py_lower email));
  ok ← of_res (match row with
               | None => Val None
               | Some u => b ← verify_password (py_or password (PStr "")) (us_password_hash u); mret (if b : bool then Some u else None)
               end);
  match ok with
  | None => mret (error "unauthorized" "Invalid email or password" 401)
  | Some u => token ← issue_token (us_id u); mret (jsonify (PDict [("token", PStr token)]))
  end.

(** ** Push *)

Definition push_vapid_public_key : prog gdb response :=
  if String.eqb VAPID_PUBLIC_KEY ""
  then mret (error "not-configured" "Push notifications are not configured on this server" 503)
  else mret (jsonify (PDict [("public_key", PStr VAPID_PUBLIC_KEY)])).

Definition push_subscribe (r : http_request) : prog gdb response :=
  authorized r (λ user_id,
    endpoint ← of_res (py_get (json_body r) "endpoint");
    keys ← of_res (py_get (json_body r) "keys");
    let keys := py_or keys (PDict []) in
    p256dh ← of_res (py_get keys "p256dh");
    auth_key ← of_res (py_get keys "auth");
    if negb (py_truthy endpoint) || negb (py_truthy p256dh) || negb (py_truthy auth_key)
    then mret (error "invalid-address" "endpoint and keys.p256dh/keys.auth are required" 400)
    else
      now ← do_act Clock;
      _ ← try_execute (upsert_subscription user_id endpoint p256dh auth_key now);
      mret (jsonify (PDict [("subscribed", PBool true)]))).

(** The platform when it is one of the two. *)
Definition platform_of (v : py) : option string :=
  match v with PStr s => if String.eqb s "android" || String.eqb s "ios" then Some s else None | _ => None end.

Definition push_mobile_register (r : http_request) : prog gdb response :=
  address ← of_res (py_get (json_body r) "address");
  platform ← of_res (py_get (json_body r) "platform");
  token ← of_res (py_get (json_body r) "token");
  match platform_of platform with
  | Some platform =>
      if py_truthy address && py_truthy token then
        ok ← is_valid_address address;
        if negb ok then mret invalid_address
        else
          a ← of_res (bind_text address ≫= py_str);
          now ← do_act Clock;
          _ ← try_execute (upsert_registration a platform token now);
          mret (jsonify (PDict [("registered", PBool true)]))
      else mret (error "invalid-request" "address, platform ('android'|'ios'), and token are required" 400)
  | None => mret (error "invalid-request" "address, platform ('android'|'ios'), and token are required" 400)
  end.

(** ** Staking and referrals *)

Definition staking_status (r : http_request) : prog gdb response :=
  authorized r (λ user_id, s ← Staking.status_for_user user_id; mret (jsonify (Staking.status_json s))).

(** [str(v)] *)
Definition py_show (v : py) : string :=
  match v with
  | PStr s => s
  | PInt z => show z
  | PBool b => if b then "True" else "False"
  | PNone => "None"
  | _ => py_repr v
  end.

Definition staking_deposit (r : http_request) : prog gdb response :=
  authorized r (λ user_id,
    amount ← of_res (py_get (json_body r) "amount");
    if negb (py_truthy amount) then mret (error "invalid-address" "amount is required" 400)
    else
      _ ← ensure_wallet_loaded;
      deposit_address ← create_deposit user_id;
      mret (jsonify (PDict [("deposit_address", PStr deposit_address); ("amount", PStr (py_show amount))]))).

(** The check of the address money is to go to. *)
Definition checked_to (to_address : py) (k : prog gdb response) : prog gdb response :=
  ok ← is_valid_address to_address;
  if negb ok then mret (error "invalid-address" "to_address is not a valid CodexaCoin address" 400) else k.

Definition except_staking (e : exc) : option (prog gdb response) :=
  match e with StakingError code message => Some (mret (error code message 400)) | _ => None end.
Definition except_referral (e : exc) : option (prog gdb response) :=
  match e with ReferralError code message => Some (mret (error code message 400)) | _ => None end.

Definition staking_withdraw (r : http_request) : prog gdb response :=
  authorized r (λ user_id,
    amount ← of_res (py_get (json_body r) "amount");
    to_address ← of_res (py_get (json_body r) "to_address");
    if negb (py_truthy amount) || negb (py_truthy to_address)
    then mret (error "invalid-address" "amount and to_address are required" 400)
    else
      checked_to to_address (
        catch (a ← of_res (py_int amount); txid ← Staking.withdraw user_id a to_address; mret (jsonify (PDict [("txid", PStr txid)])))
          except_staking)).

Definition referral_status (r : http_request) : prog gdb response :=
  authorized r (λ user_id, s ← Referral.status_for_user user_id; mret (jsonify (Referral.status_json s))).

Definition referral_history (r : http_request) : prog gdb response :=
  authorized r (λ user_id, l ← history_for_user user_id; mret (jsonify (PDict [("referrals", l)]))).

Definition referral_withdraw (r : http_request) : prog gdb response :=
  authorized r (λ user_id,
    to_address ← of_res (py_get (json_body r) "to_address");
    if negb (py_truthy to_address) then mret (error "invalid-address" "to_address is required" 400)
    else
      checked_to to_address (
        catch (txid ← Referral.withdraw user_id to_address; mret (jsonify (PDict [("txid", PStr txid)]))) except_referral)).

(** ** The application *)

Inductive route :=
  | Network_status
  | Address_balance (address : string)
  | Address_utxos (address : string)
  | Address_history (address : string)
  | Tx_detail (txid : string)
  | Broadcast
  | Fee_estimate
  | Signup
  | Login
  | Push_vapid_public_key
  | Push_subscribe
  | Push_mobile_register
  | Staking_status
  | Staking_deposit
  | Staking_withdraw
  | Referral_status
  | Referral_history
  | Referral_withdraw.

Definition view (t : route) (r : http_request) : prog gdb response :=
  match t with
  | Network_status => network_status
  | Address_balance a => address_balance a
  | Address_utxos a => address_utxos a
  | Address_history a => address_history a r
  | Tx_detail txid => tx_detail txid
  | Broadcast => broadcast r
  | Fee_estimate => fee_estimate r
  | Signup => signup r
  | Login => login r
  | Push_vapid_public_key => push_vapid_public_key
  | Push_subscribe => push_subscribe r
  | Push_mobile_register => push_mobile_register r
  | Staking_status => staking_status r
  | Staking_deposit => staking_deposit r
  | Staking_withdraw => staking_withdraw r
  | Referral_status => referral_status r
  | Referral_history => referral_history r
  | Referral_withdraw => referral_withdraw r
  end.

(** What the framework makes of an exception. *)
Definition served (p : prog gdb response) : prog gdb response :=
  catch p (λ _, Some (mret (Response 500 (PStr "Internal Server Error")))).
End app.

(** ** The watcher process (vps-gateway/watcher.py, mobile_notify.py, push_mobile.py) *)

Section watcher.
  Context {CF : Config} {LB : Libraries}.

(** [push_mobile.send_fcm_notification], which catches everything. *)
Definition send_fcm_notification (token : py) (title body address : string) : prog gdb bool :=
  if fcm_configured then do_act (Fcm_push token title body address) else mret false.

(** [by_address.setdefault(r["address"], []).append(r)] *)
Fixpoint add_registration (r : registration) (l : list (string * list registration)) : list (string * list registration) :=
  match l with
  | [] => [(rg_address r, [r])]
  | (a, rs) :: l => if String.eqb a (rg_address r) then (a, rs ++ [r]) :: l else (a, rs) :: add_registration r l
  end.
Definition by_address (rs : list registration) : list (string * list registration) :=
  foldl (λ l r, add_registration r l) [] rs.

(** One device of an address whose balance is known. *)
Definition notify_device (address : string) (current_balance : Z) (r : registration) : prog gdb unit :=
  _ ← (if rg_last_balance r <? current_balance then
         t ← of_res (cac_text (current_balance - rg_last_balance r));
         _ ← send_fcm_notification (rg_token r) "Payment received" ("You received " +:+ t +:+ " CAC.") address;
         mret ()
       else mret ());
  if current_balance =? rg_last_balance r then mret ()
  else try_execute (update_balance (rg_id r) current_balance).

Definition check_address (g : string * list registration) : prog gdb unit :=
  let '(address, regs) := g in
  ok ← is_valid_address (PStr address);
  if negb ok then mret ()
  else
    utxos ← catch (_ ← ensure_address_watched address; l ← list_unspent address; mret (Some l)) (λ _, Some (mret None));
    match utxos with
    | None => mret ()
    | Some utxos =>
        current_balance ← of_res (py_sum (to_sat ∘ un_amount <$> utxos));
        for_in regs (notify_device address current_balance)
    end.

Definition check_incoming_payments : prog gdb unit :=
  registrations ← select mobile_push_registrations;
  for_in (by_address registrations) check_address.

(** The script: one pass of the pool, then one of the registered addresses. *)
Definition watcher : prog gdb unit :=
  _ ← run_watcher_pass;
  check_incoming_payments.
End watcher.
