(* ===== verification/GatewayLemmas.v ===== *)
(** * What the gateway's helpers do

    The parts the routes and the watcher share change nothing in the database and
    send no money; stated once, for any property that follows from that.  Then a
    pool with two users, on which the witnesses run. *)

From S2P Require Import Prelude JsString JsNum Amount JsValue Python Server GatewayDb Referral Staking GatewayServer.

Section helpers.
  Context {CF : Config} {LB : Libraries} (P : action → Prop) (S : gdb → gdb → Prop) `{!Reflexive S}.
  Hypothesis harmless : ∀ a, is_payment a = false → P a.
#[local] Hint Resolve harmless : server.

Lemma guar_ensure_loaded name w : guar P S (ensure_loaded name w).
Proof. unfold ensure_loaded. guar_tac; by apply harmless. Qed.

Lemma guar_get_tx t : guar P S (get_tx t).
Proof. apply (guar_rpc_call _ _ None (GetRawTransaction t)). by apply harmless. Qed.

Lemma guar_in_total vins : guar P S (in_total get_tx vins).
Proof.
  unfold in_total. apply guar_fold_in. intros y [raw|t v raw]; [done|]. apply guar_bind; [apply guar_get_tx|]. guar_tac.
Qed.

Lemma guar_notify_user u t b : guar P S (_notify_user u t b).
Proof. unfold _notify_user, send_notification. guar_tac; by apply harmless. Qed.

Lemma guar_is_valid_address a : guar P S (is_valid_address a).
Proof. unfold is_valid_address. guar_tac; by apply harmless. Qed.

Lemma guar_require_auth r : guar P S (require_auth r).
Proof. unfold require_auth, verify_token. guar_tac; by apply harmless. Qed.

Lemma guar_list_unspent a : guar P S (list_unspent a).
Proof. apply (guar_rpc_call _ _ _ (ListUnspent 0 a true)). by apply harmless. Qed.

Lemma guar_draw_code n : ∀ c, guar P S (draw_code n c).
Proof. induction n as [|n IH]; intros c; [done|]. cbn [draw_code]. unfold generate_referral_code. guar_tac; by apply harmless. Qed.

Lemma guar_pool_status u : guar P S (Staking.status_for_user u).
Proof. unfold Staking.status_for_user. guar_tac. Qed.

Lemma guar_referral_status u : guar P S (Referral.status_for_user u).
Proof. unfold Referral.status_for_user. guar_tac. Qed.
End helpers.

#[export] Hint Resolve guar_ensure_loaded guar_get_tx guar_in_total guar_notify_user guar_is_valid_address
  guar_require_auth guar_list_unspent guar_draw_code guar_pool_status guar_referral_status : server.

(** ** A pool with two users

    Concrete libraries, and a node that answers as the pool's life requires: what
    the theorems about the gateway are applied to, and where its races are shown. *)

Module Pool.
#[export] Instance config : Config := {|
  RPC_USER := "rpc"; RPC_PASSWORD := "secret"; RPC_WALLET := ""; WATCH_WALLET := "gateway"; POOL_WALLET := "stakingpool";
  ADMIN_WALLET := "adminwallet"; POOL_FEE_BP := 500; STAKE_REWARD_ANNUAL_BP := 1368; REFERRAL_REWARD_BP := 1000;
  kyc_configured := true; push_configured := true; fcm_configured := true; VAPID_PUBLIC_KEY := "vapid" |}.

#[export] Instance libraries : Libraries := {|
  jwt_encode sub _ _ := "jwt" +:+ show sub;
  jwt_decode t _ := if js_starts_with t "jwt" then match int_of_str (str_slice_from t 3) with Val z => Some z | Exc _ => None end else None;
  check_password_hash h p := String.eqb h ("hash of " +:+ p);
  py_repr _ := "" |}.

(** A number of CAC with eight decimals, as the node writes it. *)
Definition cac (sat : Z) : num := rnd sat COIN.

Definition no_text : string := "".
Definition out (sat : Z) (address : string) : rpc_out := Rpc_out (cac sat) (Some "76a9") (Some address) PNone.
Definition funding : rpc_tx := Rpc_tx "f1" [In_spends "x" 0 PNone] [out 500000000 "D1"] None None None.
(** The coinstake that spends output 0 of [txid], worth [v], and pays [v + reward]. *)
Definition coinstake (id txid : string) (v reward : Z) : rpc_tx :=
  Rpc_tx id [In_spends txid 0 PNone] [Rpc_out (cac 0) (Some "") None PNone; out (v + reward) "D1"] None None None.

(** What has happened on the chain: the deposit's transactions, newest last. *)
Record chain := Chain { txs : list rpc_tx; labelled : list string; deposit_coin : option unspent; spent : bool; push : push_reply }.

Definition find_tx (c : chain) (txid : string) : rpc_reply rpc_tx :=
  match list_find (λ t, rt_txid t = txid) (txs c) with Some (_, t) => Answer t | None => Refused (-5) "No such transaction" end.

Definition node (c : chain) (q : call) : rpc_reply (result_of q) :=
  match q return rpc_reply (result_of q) with
  | GetBlockchainInfo => Answer (Chain_info "main" 600 "00" (num_of_Z 1))
  | GetBlockCount => Answer 600
  | GetBlockHash _ => Answer "00"
  | GetBlock _ _ => Refused (-5) "Block not found"
  | GetRawTransaction txid => find_tx c txid
  | GetTxOut _ _ => Answer (negb (spent c))
  | GetMempoolInfo => Answer (Mempool_info (cac 100000) 0 300000000)
  | SendRawTransaction _ => Answer "t0"
  | ValidateAddress _ => Answer true
  | ScanTxOutSet _ => Answer (Scan true [] 600)
  | ListWallets => Answer ["gateway"; "stakingpool"; "adminwallet"]
  | ListWalletDir => Answer []
  | LoadWallet _ | CreateWallet _ _ | SetLabel _ _ => Answer ()
  | GetDescriptorInfo _ => Answer "addr(D1)#0"
  | ImportDescriptor _ _ => Answer (true, "")
  | ListUnspent _ _ _ => Answer (match deposit_coin c with Some u => [u] | None => [] end)
  | ListTransactions _ _ => Answer ((λ t, Wallet_tx t None) <$> labelled c)
  | GetNewAddress _ => Answer "D1"
  | SendToAddress _ _ => Answer "paid"
  end.

Definition env (c : chain) (l : list event) (a : action) : answer a :=
  match a return answer a with
  | Rpc _ q => node c q
  | Clock => num_of_Z (1700000000 + Z.of_nat (length l))
  | Utcnow => 1700000000
  | Today => 20000
  | Token => "tok" +:+ show (Z.of_nat (length l))
  | Hash_password p => "hash of " +:+ p
  | Encrypt s => "sealed"
  | Web_push _ _ _ _ _ => push c
  | Fcm_push _ _ _ _ => true
  end.

(** Before, with the deposit funded, and with one coinstake of it. *)
Definition empty : chain := Chain [] [] None false Pushed.
Definition paid_in : chain := Chain [funding] ["f1"] (Some (Unspent "f1" 0 (cac 500000000) 10)) false Pushed.
Definition staked : chain := Chain [funding; coinstake "s1" "f1" 500000000 1000] ["f1"; "s1"] None true Pushed.

Definition form (email code : string) : http_request :=
  Http_request "" (Some (PDict [("email", PStr email); ("password", PStr "correct horse"); ("full_name", PStr "A B");
    ("date_of_birth", PStr "1990-01-31"); ("id_type", PStr "nic"); ("id_number", PStr "1"); ("referral_code", PStr code)])) [].
Definition as_user (u : Z) (body : list (string * py)) : http_request :=
  Http_request ("Bearer jwt" +:+ show u) (Some (PDict body)) [].

Definition ask (c : chain) (t : route) (r : http_request) (s : sys gdb) : res response * sys gdb := run (env c) (served (view t r)) s.
Definition pass (c : chain) (s : sys gdb) : sys gdb := (run (env c) watcher s).2.

Definition start : sys gdb := Sys init_db [].
Definition s1 : sys gdb := (ask empty Signup (form "ann@x.org" "") start).2.
Definition s2 : sys gdb := (ask empty Staking_deposit (as_user 1 [("amount", PStr "500000000")]) s1).2.
Definition s3 : sys gdb := pass paid_in s2.
Definition s4 : sys gdb := pass staked s3.
(** The user takes everything out. *)
Definition take (amount : Z) : http_request := as_user 1 [("amount", PStr (show amount)); ("to_address", PStr "D9")].
Definition s5 : sys gdb := (ask staked Staking_withdraw (take 500000950) s4).2.
End Pool.
