(* ===== verification/GatewayIntegrity.v ===== *)
(** * The gateway's data stay well-formed

    SQLite does not enforce the REFERENCES clauses of db.py, the states of a
    deposit are texts, and the arithmetic of a reward is done by the caller.  The
    statements keep all of it, whatever the node answers and however requests and
    watcher passes interleave. *)

From stdpp Require Import relations.
From S2P Require Import Prelude JsString JsNum JsValue Amount Python Server GatewayDb Referral Staking GatewayServer GatewayLemmas.

(** ** The invariant *)

Definition funded (x : deposit) : Prop := de_status x ≠ Awaiting_funds.

(** A funded deposit has its output and amount, a withdrawn one its time. *)
Definition deposit_ok (x : deposit) : Prop :=
  (funded x → is_Some (de_txid x) ∧ is_Some (de_vout x) ∧ ∃ a, de_amount x = Some a ∧ int64 a = true) ∧
  (de_status x = Withdrawn → is_Some (de_withdrawn_at x)).

Section integrity.
  Context {CF : Config} {LB : Libraries}.

(** A reward is split as the fee says and belongs to a funded deposit. *)
Definition reward_ok (d : gdb) (r : reward) : Prop :=
  re_fee r = re_gross r * POOL_FEE_BP / 10000 ∧ re_net r = re_gross r - re_fee r ∧ int64 (re_net r) = true ∧
  ∃ x, x ∈ stake_deposits d ∧ de_id x = re_deposit r ∧ funded x.

(** A credit goes to the referrer of the user whose funded deposit earned it. *)
Definition credit_ok (d : gdb) (c : credit) : Prop :=
  0 < cr_amount c ∧
  (∃ u, u ∈ users d ∧ us_id u = cr_referred c ∧ us_referred_by u = Some (cr_referrer c)) ∧
  (∃ x, x ∈ stake_deposits d ∧ de_id x = cr_deposit c ∧ de_user x = cr_referred c ∧ funded x) ∧
  (is_Some (cr_withdrawn_at c) ↔ is_Some (cr_txid c)).

Record well_formed (d : gdb) : Prop := {
  wf_user_ids : NoDup (us_id <$> users d);
  wf_emails : NoDup (us_email <$> users d);
  wf_codes : NoDup (us_referral_code <$> users d);
  wf_referred : ∀ u i, u ∈ users d → us_referred_by u = Some i → ∃ v, v ∈ users d ∧ us_id v = i;
  wf_watched : NoDup (watched_addresses d).*1;
  wf_deposit_ids : NoDup (de_id <$> stake_deposits d);
  wf_deposit_addresses : NoDup (de_address <$> stake_deposits d);
  wf_deposits : Forall deposit_ok (stake_deposits d);
  wf_reward_txids : NoDup (re_txid <$> stake_rewards d);
  wf_rewards : Forall (reward_ok d) (stake_rewards d);
  wf_platforms : Forall (λ r, rg_platform r = "android" ∨ rg_platform r = "ios") (mobile_push_registrations d);
  wf_credits : Forall (credit_ok d) (referral_credits d)
}.

(** ** What handlers rely on of each other

    Rows stay; a user never changes; a deposit keeps its key, owner and address and
    stays funded. *)
Definition same_deposit (x y : deposit) : Prop :=
  de_id y = de_id x ∧ de_user y = de_user x ∧ de_address y = de_address x ∧ (funded x → funded y).
Definition grows (d d' : gdb) : Prop :=
  (∀ u, u ∈ users d → u ∈ users d') ∧
  (∀ x, x ∈ stake_deposits d → ∃ y, y ∈ stake_deposits d' ∧ same_deposit x y).

#[local] Instance grows_preorder : PreOrder grows.
Proof.
  split.
  - intros d. split; [done|]. intros x Hx. by exists x.
  - intros d1 d2 d3 [U1 D1] [U2 D2]. split; [auto|]. intros x Hx. destruct (D1 x Hx) as (y & Hy & E1 & E2 & E3 & E4).
    destruct (D2 y Hy) as (z & Hz & F1 & F2 & F3 & F4). exists z. split; [done|]. unfold same_deposit in *. repeat split; try congruence. auto.
Qed.

(** ** Statements *)

Lemma next_id_fresh ids : next_id ids ∉ ids.
Proof.
  intros H. assert (Hle : ∀ i, i ∈ ids → i <= foldr Z.max 0 ids).
  { clear H. induction ids as [|j l IH]; intros i; [by intros ?%not_elem_of_nil|]. cbn.
    intros [->|Hi]%elem_of_cons; [lia|]. specialize (IH i Hi). lia. }
  apply Hle in H. unfold next_id in H. lia.
Qed.

Lemma nodup_snoc {A B} (f : A → B) (l : list A) (x : A) :
  NoDup (f <$> l) → f x ∉ f <$> l → NoDup (f <$> (l ++ [x])).
Proof.
  intros Hl Hx. rewrite fmap_app. apply list.NoDup_app. split; [done|]. split; [|apply NoDup_singleton].
  intros y Hy ->%list_elem_of_singleton. done.
Qed.

Lemma existsb_eqb_false {A} (f : A → string) (l : list A) s :
  existsb (λ x, String.eqb (f x) s) l = false → s ∉ f <$> l.
Proof.
  intros H (x & -> & Hx)%list_elem_of_fmap. assert (existsb (λ y, String.eqb (f y) (f x)) l = true); [|congruence].
  apply existsb_exists. exists x. split; [by apply list_elem_of_In|apply String.eqb_refl].
Qed.

Lemma reward_ok_grows d d' r : grows d d' → reward_ok d r → reward_ok d' r.
Proof.
  intros [_ G] (H1 & H2 & H3 & x & Hx & Hi & Hf). repeat (split; [done|]).
  destruct (G x Hx) as (y & Hy & E1 & _ & _ & E4). exists y. split; [done|]. split; [congruence|auto].
Qed.
Lemma credit_ok_grows d d' c : grows d d' → credit_ok d c → credit_ok d' c.
Proof.
  intros [U G] (H1 & (u & Hu & Hui) & (x & Hx & Hi & Hus & Hf) & H4). split; [done|]. split; [exists u; auto|]. split; [|done].
  destruct (G x Hx) as (y & Hy & E1 & E2 & _ & E4). exists y. split; [done|]. split; [congruence|]. split; [congruence|auto].
Qed.

(** A change of one table leaves the rows of the others valid as they refer to
    rows that are still there. *)
Lemma rows_grow d d' : grows d d' → Forall (reward_ok d) (stake_rewards d) → Forall (credit_ok d) (referral_credits d) →
  stake_rewards d' = stake_rewards d → referral_credits d' = referral_credits d →
  Forall (reward_ok d') (stake_rewards d') ∧ Forall (credit_ok d') (referral_credits d').
Proof.
  intros G Hr Hc -> ->. split; (eapply Forall_impl; [|eassumption]); intros; [by eapply reward_ok_grows|by eapply credit_ok_grows].
Qed.

(** The statement keeps the invariant and grows the database. *)
Definition sound (d d' : gdb) : Prop := grows d d' ∧ well_formed d'.

Lemma init_well_formed : well_formed init_db.
Proof. split; cbn; try constructor. by intros u i ?%not_elem_of_nil. Qed.

Lemma insert_user_sound email hash now name dob ty num code by_ d d' i :
  well_formed d → (∀ j, by_ = Some j → ∃ v, v ∈ users d ∧ us_id v = j) →
  insert_user email hash now name dob ty num code by_ d = Val (d', i) → sound d d'.
Proof.
  intros [H1 H2 H3 H4 H5 H6 H7 H8 H9 HA HB HC] Hby. unfold insert_user. destruct (existsb _ _) eqn:E; [done|]. intros [= <- _].
  assert (G : grows d (with_users (λ l, l ++ [User (next_id (us_id <$> users d)) email hash now name dob ty num code by_]) d)).
  { split; [intros u Hu; apply elem_of_app; by left|]. intros x Hx. by exists x. }
  assert (E' : ∀ u, u ∈ users d → us_email u ≠ email ∧ us_referral_code u ≠ code).
  { intros u Hu. assert (Hf : (String.eqb (us_email u) email || String.eqb (us_referral_code u) code) = false).
    { destruct (_ || _) eqn:Eu; [|done]. assert (existsb (λ u, String.eqb (us_email u) email || String.eqb (us_referral_code u) code) (users d) = true); [|congruence].
      apply existsb_exists. exists u. by rewrite <- list_elem_of_In. }
    apply orb_false_iff in Hf as [?%String.eqb_neq ?%String.eqb_neq]. done. }
  split; [done|]. destruct (rows_grow d _ G HA HC eq_refl eq_refl) as [R1 R2]. split; try done; cbn [users with_users].
  - apply nodup_snoc; [done|apply next_id_fresh].
  - apply nodup_snoc; [done|]. intros (u & Eu & Hu)%list_elem_of_fmap. destruct (E' u Hu). cbn in Eu. congruence.
  - apply nodup_snoc; [done|]. intros (u & Eu & Hu)%list_elem_of_fmap. destruct (E' u Hu). cbn in Eu. congruence.
  - intros u j [Hu|Hu]%elem_of_app Hj.
    + destruct (H4 u j Hu Hj) as (v & Hv & Hi). exists v. split; [apply elem_of_app; by left|done].
    + apply list_elem_of_singleton in Hu as ->. destruct (Hby j Hj) as (v & Hv & Hi). exists v. split; [apply elem_of_app; by left|done].
Qed.

Lemma insert_watched_sound a now d : well_formed d → sound d (insert_watched a now d).
Proof.
  intros Hd. unfold insert_watched. destruct (existsb _ _) eqn:E; [by split|]. split.
  { split; [done|]. intros x Hx. by exists x. }
  destruct Hd. split; try done. cbn. apply nodup_snoc; [done|]. by apply (existsb_eqb_false fst) in E.
Qed.

Lemma insert_deposit_sound u a now d d' i :
  well_formed d → insert_deposit u a now d = Val (d', i) → sound d d'.
Proof.
  intros [H1 H2 H3 H4 H5 H6 H7 H8 H9 HA HB HC]. unfold insert_deposit. destruct (existsb _ _) eqn:E; [done|]. intros [= <- _].
  match goal with |- sound d ?e => assert (G : grows d e) end.
  { split; [done|]. intros x Hx. exists x. split; [apply elem_of_app; by left|done]. }
  split; [done|]. destruct (rows_grow d _ G HA HC eq_refl eq_refl) as [R1 R2]. split; try done; cbn [stake_deposits with_deposits].
  - apply nodup_snoc; [done|apply next_id_fresh].
  - apply nodup_snoc; [done|]. by apply existsb_eqb_false in E.
  - apply Forall_app. split; [done|]. apply Forall_singleton. split; [by intros Hf|done].
Qed.

(** A change of deposits that keeps each its key, owner and address. *)
Lemma map_deposits_sound (f : deposit → deposit) d :
  well_formed d → (∀ x, x ∈ stake_deposits d → same_deposit x (f x) ∧ deposit_ok (f x)) → sound d (with_deposits (fmap f) d).
Proof.
  intros [H1 H2 H3 H4 H5 H6 H7 H8 H9 HA HB HC] Hf.
  match goal with |- sound d ?e => assert (G : grows d e) end.
  { split; [done|]. intros x Hx. exists (f x). split; [cbn; by apply list_elem_of_fmap_2|by apply Hf]. }
  assert (E : ∀ B (g : deposit → B), (∀ x, x ∈ stake_deposits d → g (f x) = g x) → g <$> (f <$> stake_deposits d) = g <$> stake_deposits d).
  { intros B g Hg. rewrite <- list_fmap_compose. apply list_fmap_ext. intros i x Hx. apply Hg. by eapply list_elem_of_lookup_2. }
  split; [done|]. destruct (rows_grow d _ G HA HC eq_refl eq_refl) as [R1 R2]. split; try done; cbn [stake_deposits with_deposits].
  - rewrite E; [done|]. intros x Hx. apply Hf, Hx.
  - rewrite E; [done|]. intros x Hx. apply Hf, Hx.
  - apply Forall_fmap, list.Forall_forall. intros x Hx. apply Hf, Hx.
Qed.

Lemma update_funded_sound i txid vout a d d' u :
  well_formed d → update_funded i txid vout a d = Val (d', u) → sound d d'.
Proof.
  intros Hd. unfold update_funded, bind_int. destruct (int64 vout); [|done]. destruct (int64 a) eqn:Ea; [|done]. cbn. intros [= <- _].
  apply map_deposits_sound; [done|]. intros x Hx. pose proof (wf_deposits d Hd) as Hok. rewrite list.Forall_forall in Hok.
  destruct (de_id x =? i); [|by split; [done|apply Hok]]. split; [by repeat split|]. split; [|done]. intros _. cbn. split; [by eexists|].
  split; [by eexists|]. by exists a.
Qed.

Lemma update_withdrawn_sound u now d : well_formed d → sound d (update_withdrawn u now d).
Proof.
  intros Hd. apply map_deposits_sound; [done|]. intros x Hx. pose proof (wf_deposits d Hd) as Hok. rewrite list.Forall_forall in Hok.
  specialize (Hok x Hx). destruct (de_user x =? u); cbn [andb]; [|done]. case_bool_decide as Ha; [|done]. split; [by repeat split|].
  split; [|by eexists]. intros _. apply Hok. unfold funded. by rewrite Ha.
Qed.

Lemma insert_reward_sound i txid gross net now d d' u :
  well_formed d → (∃ x, x ∈ stake_deposits d ∧ de_id x = i ∧ funded x) → net = gross - gross * POOL_FEE_BP / 10000 →
  insert_reward i txid gross (gross * POOL_FEE_BP / 10000) net now d = Val (d', u) → sound d d'.
Proof.
  intros Hd Hx Hn. unfold insert_reward, bind_int. destruct (int64 gross); [|done]. destruct (int64 (_ / _)); [|done].
  destruct (int64 net) eqn:En; [|done]. cbn. destruct (existsb _ _) eqn:E; [by intros [= <- _]|]. intros [= <- _].
  split; [split; [done|]; intros x Hx'; by exists x|]. destruct Hd. split; try done; cbn.
  - apply nodup_snoc; [done|]. by apply existsb_eqb_false in E.
  - apply Forall_app. split; [done|]. by apply Forall_singleton.
Qed.

Lemma insert_credit_sound referrer referred i a now d d' u :
  well_formed d → 0 < a → (∃ v, v ∈ users d ∧ us_id v = referred ∧ us_referred_by v = Some referrer) →
  (∃ x, x ∈ stake_deposits d ∧ de_id x = i ∧ de_user x = referred ∧ funded x) →
  insert_credit referrer referred i a now d = Val (d', u) → sound d d'.
Proof.
  intros Hd Ha Hv Hx. unfold insert_credit, bind_int. destruct (int64 a); [|done]. cbn. intros [= <- _].
  split; [split; [done|]; intros x Hx'; by exists x|]. destruct Hd. split; try done; cbn.
  apply Forall_app. split; [done|]. apply Forall_singleton. split; [done|]. split; [done|]. split; [done|]. cbn. split; by intros [??].
Qed.

Lemma update_paid_sound u now txid d : well_formed d → sound d (update_paid u now txid d).
Proof.
  intros Hd. split; [split; [done|]; intros x Hx'; by exists x|]. destruct Hd. split; try done. cbn.
  apply Forall_fmap. eapply Forall_impl; [|exact wf_credits0]. intros c (H1 & H2 & H3 & H4). cbn. destruct (unpaid u c); [|done].
  split; [done|]. split; [done|]. split; [done|]. cbn. split; by eexists.
Qed.

Lemma upsert_subscription_sound u e p a now d d' r :
  well_formed d → upsert_subscription u e p a now d = Val (d', r) → sound d d'.
Proof.
  intros Hd. unfold upsert_subscription. destruct (bind_text e); [|done]. destruct (bind_text p); [|done].
  destruct (bind_text a); [|done]. cbn. intros [= <- _]. split; [split; [done|]; intros x Hx'; by exists x|]. destruct Hd. by split.
Qed.

Lemma upsert_registration_sound a pl t now d d' r :
  well_formed d → pl = "android" ∨ pl = "ios" → upsert_registration a pl t now d = Val (d', r) → sound d d'.
Proof.
  intros Hd Hp. unfold upsert_registration. destruct (bind_text t); [|done]. cbn. intros [= <- _].
  split; [split; [done|]; intros x Hx'; by exists x|]. destruct Hd. split; try done. cbn. destruct (existsb _ _).
  - apply Forall_fmap. eapply Forall_impl; [|exact wf_platforms0]. intros g Hg. cbn. by destruct (_ && _).
  - apply Forall_app. split; [done|]. by apply Forall_singleton.
Qed.

Lemma update_balance_sound i b d d' r : well_formed d → update_balance i b d = Val (d', r) → sound d d'.
Proof.
  intros Hd. unfold update_balance, bind_int. destruct (int64 b); [|done]. cbn. intros [= <- _].
  split; [split; [done|]; intros x Hx'; by exists x|]. destruct Hd. split; try done. cbn.
  apply Forall_fmap. eapply Forall_impl; [|exact wf_platforms0]. intros g Hg. cbn. by destruct (_ =? _).
Qed.

(** ** Handlers *)

(** The program keeps the invariant among others that do, and the database it saw
    last has grown from the one it began with. *)
Definition safe {A} (p : prog gdb A) (d : gdb) : Prop := rg grows well_formed p (λ _ d', grows d d') d.

Lemma safe_reads {A} (p : prog gdb A) d : reads p → safe p d.
Proof. intros Hp. by apply (rg_reads grows well_formed). Qed.

Lemma safe_mono {A} (p : prog gdb A) d d' (Q : res A → gdb → Prop) :
  safe p d' → grows d d' → (∀ r d2, grows d d2 → Q r d2) → rg grows well_formed p Q d'.
Proof. intros Hp Hd HQ. eapply rg_mono; [|exact Hp]. intros r d2 H2. apply HQ. by etransitivity. Qed.

(** A step and what follows it on any database grown from the present one. *)
Lemma safe_bind {A B} (p : prog gdb A) (g : A → prog gdb B) d :
  safe p d → (∀ a d', grows d d' → safe (g a) d') → safe (p ≫= g) d.
Proof.
  intros Hp Hg. apply rg_bind. eapply rg_mono; [|exact Hp]. intros [a|e] d' Hd; [|done].
  apply (safe_mono _ d d'); [by apply Hg|done|done].
Qed.

Lemma safe_catch {A} (p : prog gdb A) h d :
  safe p d → (∀ e q d', h e = Some q → grows d d' → safe q d') → safe (catch p h) d.
Proof.
  intros Hp Hh. apply rg_catch. eapply rg_mono; [|exact Hp]. intros [a|e] d' Hd; [done|].
  destruct (h e) as [q|] eqn:E; [|done]. apply (safe_mono q d d'); [by eapply Hh|done|done].
Qed.

Lemma safe_select {A B} (f : gdb → A) (g : A → prog gdb B) d :
  (∀ d', grows d d' → well_formed d' → safe (g (f d')) d') → safe (select f ≫= g) d.
Proof. intros H. apply rg_bind, (rg_select grows well_formed). intros d' Hd Hw. apply (safe_mono _ d d'); [by apply H|done|done]. Qed.

Lemma safe_execute (f : gdb → gdb) d : (∀ d', grows d d' → well_formed d' → sound d' (f d')) → safe (execute f) d.
Proof. intros H. apply rg_execute. intros d' Hd Hw. destruct (H d' Hd Hw) as [H1 H2]. split_and!; [done|done|by etransitivity]. Qed.

Lemma safe_try_execute {A} (f : gdb → res (gdb * A)) d :
  (∀ d' d2 a, grows d d' → well_formed d' → f d' = Val (d2, a) → sound d' d2) → safe (try_execute f) d.
Proof.
  intros H. apply (rg_try_execute grows well_formed). intros d' Hd Hw. destruct (f d') as [[d2 a]|e] eqn:E; [|done].
  destruct (H d' d2 a Hd Hw E) as [H1 H2]. split_and!; [done|done|by etransitivity].
Qed.

Lemma safe_for_in {A} (P : A → gdb → Prop) (xs : list A) f d :
  (∀ x d', P x d' → safe (f x) d') → (∀ x d1 d2, P x d1 → grows d1 d2 → P x d2) → (∀ x, x ∈ xs → P x d) →
  safe (for_in xs f) d.
Proof.
  intros Hf HP. revert d. induction xs as [|x xs IH]; intros d Hx; [apply safe_reads; done|]. cbn [for_in].
  apply safe_bind; [apply Hf, Hx; by left|]. intros _ d' Hd. apply IH. intros y Hy. eapply HP; [|done]. apply Hx. by right.
Qed.

Lemma ensure_address_watched_safe a d : safe (ensure_address_watched a) d.
Proof.
  apply safe_select. intros d1 _ _. destruct (existsb _ _); [by apply safe_reads|].
  apply safe_bind; [apply safe_reads; by guar_tac|]. intros _ d2 _.
  apply safe_bind; [apply safe_reads; by guar_tac|]. intros desc d3 _.
  apply safe_bind; [apply safe_reads; by guar_tac|]. intros r d4 _. destruct (negb _); [by apply safe_reads|].
  apply safe_bind; [by apply safe_reads|]. intros now d5 _. apply safe_execute. intros. by apply insert_watched_sound.
Qed.

(** The deposit a loop has in hand is still there. *)
Definition present (x : deposit) (d : gdb) : Prop := ∃ y, y ∈ stake_deposits d ∧ same_deposit x y.

Lemma present_grows x d d' : present x d → grows d d' → present x d'.
Proof.
  intros (y & Hy & E1 & E2 & E3 & E4) [_ G]. destruct (G y Hy) as (z & Hz & F1 & F2 & F3 & F4). exists z. split; [done|].
  unfold same_deposit. repeat split; try congruence. auto.
Qed.

Lemma list_find_elem {A} (P : A → Prop) `{∀ x, Decision (P x)} l x :
  (list_find P l ≫= λ iu, Some iu.2) = Some x → x ∈ l ∧ P x.
Proof.
  destruct (list_find P l) as [[i y]|] eqn:E; [|done]. cbn. intros [= ->]. apply list_find_Some in E as (El & HP & _).
  split; [by eapply list_elem_of_lookup_2|done].
Qed.

Lemma credit_referral_safe u i a d :
  (∃ x, x ∈ stake_deposits d ∧ de_id x = i ∧ de_user x = u ∧ funded x) → safe (credit_referral_if_eligible u i a) d.
Proof.
  intros Hx. assert (Hx' : ∀ d', grows d d' → ∃ x, x ∈ stake_deposits d' ∧ de_id x = i ∧ de_user x = u ∧ funded x).
  { intros d' [_ G]. destruct Hx as (x & Hx & E1 & E2 & E3). destruct (G x Hx) as (y & Hy & F1 & F2 & _ & F4). exists y.
    split; [done|]. split; [congruence|]. split; [congruence|auto]. }
  apply safe_select. intros d1 G1 W1. destruct (user_by_id u d1) as [v|] eqn:Ev; cbn [mbind option_bind]; [|by apply safe_reads].
  apply list_find_elem in Ev as [Hv Hid]. destruct (us_referred_by v) as [referrer|] eqn:Er; [|by apply safe_reads].
  assert (Hgo : safe (already_credited ← select (λ d, existsb (λ c, cr_referred c =? u) (referral_credits d));
      if already_credited : bool then mret ()
      else
        prior_deposits ← select (λ d, length (filter (λ x, de_user x = u ∧ de_status x ≠ Awaiting_funds ∧ de_id x ≠ i) (stake_deposits d)));
        if (0 <? prior_deposits)%nat then mret ()
        else
          let reward_satoshis := a * REFERRAL_REWARD_BP / 10000 in
          if reward_satoshis <=? 0 then mret ()
          else
            now ← do_act Clock;
            try_execute (insert_credit referrer u i reward_satoshis now)) d1); [|by destruct referrer; [apply safe_reads|..]].
  apply safe_select. intros d2 G2 _. destruct (existsb _ _); [by apply safe_reads|].
  apply safe_select. intros d3 G3 _. destruct (0 <? _)%nat; [by apply safe_reads|]. cbv zeta.
  destruct (Z.leb_spec (a * REFERRAL_REWARD_BP / 10000) 0); [by apply safe_reads|].
  apply safe_bind; [by apply safe_reads|]. intros now d4 G4. apply safe_try_execute. intros d5 d6 r G5 W5.
  assert (G : grows d1 d5) by (do 3 (etransitivity; [eassumption|]); done).
  apply insert_credit_sound; [done|done| |]; [|apply Hx'; by etransitivity]. exists v. split; [by apply G|done].
Qed.

Lemma mark_funded_safe x d : present x d → safe (mark_funded x) d.
Proof.
  intros Hp. apply safe_bind; [apply safe_reads; by guar_tac|]. intros us d1 G1. destruct us as [|u us]; [by apply safe_reads|].
  apply safe_bind; [apply safe_reads; by guar_tac|]. intros a d2 G2. apply rg_bind.
  apply (rg_try_execute grows well_formed). intros d3 G3 W3.
  destruct (update_funded _ _ _ a d3) as [[d4 []]|e] eqn:E; [|done].
  destruct (update_funded_sound _ _ _ _ _ _ _ W3 E) as [G4 W4]. split; [done|]. split; [done|].
  assert (Hf : ∃ y, y ∈ stake_deposits d4 ∧ de_id y = de_id x ∧ de_user y = de_user x ∧ funded y).
  { destruct (present_grows x d d3) as (y & Hy & E1 & E2 & _); [done|do 2 (etransitivity; [eassumption|]); done|].
    unfold update_funded in E. destruct (bind_int (un_vout u)); [|done]. destruct (bind_int a); [|done]. cbn in E. injection E as <-.
    eexists. split; [cbn; by apply list_elem_of_fmap_2|]. cbn. rewrite E1, Z.eqb_refl. done. }
  apply (safe_mono _ d2 d4); [|by etransitivity|done].
  apply safe_bind; [apply safe_reads; by guar_tac|]. intros t d5 G5.
  apply safe_bind; [apply safe_reads; by guar_tac|]. intros _ d6 G6. apply credit_referral_safe.
  destruct Hf as (y & Hy & E1 & E2 & E3). destruct (proj2 (transitivity G5 G6) y Hy) as (z & Hz & F1 & F2 & _ & F4). exists z.
  split; [done|]. split; [congruence|]. split; [congruence|auto].
Qed.

Lemma mark_funded_deposits_safe d : safe _mark_funded_deposits d.
Proof.
  apply safe_bind; [apply safe_reads; by guar_tac|]. intros _ d1 _. apply safe_select. intros d2 _ _.
  apply (safe_for_in present); [intros; by apply mark_funded_safe|intros; by eapply present_grows|].
  intros x [_ Hx]%list_elem_of_filter. by exists x.
Qed.


Lemma attribute_safe x txid vout t d : present x d → funded x → safe (attribute x txid vout t) d.
Proof.
  intros Hp Hf. apply safe_select. intros d1 G1 _. destruct (existsb _ _); [by apply safe_reads|].
  apply safe_bind; [apply safe_reads; by guar_tac|]. intros [tx|] d2 G2; [|by apply safe_reads].
  destruct (negb (_is_coinstake tx)); [by apply safe_reads|]. destruct (negb (existsb _ _)); [by apply safe_reads|].
  apply safe_bind; [apply safe_reads; by guar_tac|]. intros out d3 G3.
  apply safe_bind; [apply safe_reads; by guar_tac|]. intros inp d4 G4. cbv zeta.
  apply safe_bind; [apply safe_reads; by guar_tac|]. intros now d5 G5.
  apply safe_bind; [|intros _ d6 _; apply safe_reads; by guar_tac]. apply safe_try_execute. intros d6 d7 [] G6 W6.
  apply insert_reward_sound; [done| |done]. destruct (present_grows x d d6) as (y & Hy & E1 & _ & _ & E4);
    [done|do 5 (etransitivity; [eassumption|]); done|]. exists y. auto.
Qed.

Lemma attribute_deposit_safe x d : present x d → funded x → safe (attribute_deposit x) d.
Proof.
  intros Hp Hf. unfold attribute_deposit. destruct (de_txid x) as [txid|]; [|by apply safe_reads]. destruct (de_vout x) as [vout|]; [|by apply safe_reads].
  apply safe_bind; [apply safe_reads; by guar_tac|]. intros [] d1 G1; [by apply safe_reads|].
  apply safe_bind; [apply safe_reads; by guar_tac|]. intros h d2 G2.
  apply (safe_for_in (λ _ d', present x d')); [intros; by apply attribute_safe|intros; by eapply present_grows|].
  intros t _. eapply present_grows; [done|by etransitivity].
Qed.

Lemma attribute_rewards_safe d : safe _attribute_rewards d.
Proof.
  apply safe_bind; [apply safe_reads; by guar_tac|]. intros _ d1 _. apply safe_select. intros d2 _ _.
  apply (safe_for_in (λ x d', present x d' ∧ funded x)).
  - intros x d' [Hp Hf]. by apply attribute_deposit_safe.
  - intros x d3 d4 [Hp Hf] G. split; [by eapply present_grows|done].
  - intros x [Ha Hx]%list_elem_of_filter. split; [by exists x|]. unfold funded. by rewrite Ha.
Qed.

Lemma check_address_safe g d : safe (check_address g) d.
Proof.
  destruct g as [a rs]. cbn [check_address]. apply safe_bind; [apply safe_reads; by guar_tac|]. intros ok d1 _.
  destruct (negb ok); [by apply safe_reads|]. apply safe_bind.
  { apply safe_catch; [|intros e q d2 [= <-] _; by apply safe_reads]. apply safe_bind; [apply ensure_address_watched_safe|].
    intros _ d2 _. apply safe_reads. unfold list_unspent. guar_tac. }
  intros [us|] d2 _; [|by apply safe_reads]. apply safe_bind; [apply safe_reads; by guar_tac|]. intros b d3 _.
  apply (safe_for_in (λ _ _, True)); try done. intros r d4 _. apply safe_bind.
  { apply safe_reads. unfold send_fcm_notification. destruct (_ <? _); [|done]. destruct fcm_configured; guar_tac. }
  intros _ d5 _. destruct (_ =? _); [by apply safe_reads|]. apply safe_try_execute. intros ??? _ Hw. by apply update_balance_sound.
Qed.

Lemma watcher_safe d : safe watcher d.
Proof.
  apply safe_bind; [apply safe_bind; [apply mark_funded_deposits_safe|intros; apply attribute_rewards_safe]|]. intros _ d1 _.
  apply safe_select. intros d2 _ _. apply (safe_for_in (λ _ _, True)); try done. intros. apply check_address_safe.
Qed.

(** ** Routes *)

Lemma with_address_safe a k d : (∀ d', safe k d') → safe (with_address a k) d.
Proof.
  intros Hk. apply safe_bind; [apply safe_reads; by guar_tac|]. intros ok d1 _. destruct (negb ok); [by apply safe_reads|].
  apply safe_bind; [apply ensure_address_watched_safe|]. intros _ d2 _. apply Hk.
Qed.

Lemma authorized_safe r h d : (∀ u d', safe (h u) d') → safe (authorized r h) d.
Proof.
  intros Hh. apply safe_bind; [apply safe_reads; unfold require_auth, verify_token; by guar_tac|].
  intros [u|err] d1 _; [apply Hh|by apply safe_reads].
Qed.

Lemma checked_to_safe a k d : (∀ d', safe k d') → safe (checked_to a k) d.
Proof.
  intros Hk. apply safe_bind; [apply safe_reads; by guar_tac|]. intros ok d1 _. destruct (negb ok); [by apply safe_reads|]. apply Hk.
Qed.

Lemma reads_withdraw_send w a x h : (∀ code m, reads (h code m)) → reads (catch (rpc_call w (SendToAddress a x)) (except_rpc (D := gdb) h)).
Proof. intros. guar_tac. Qed.

Lemma pool_withdraw_safe u a t d : safe (Staking.withdraw u a t) d.
Proof.
  unfold Staking.withdraw. apply safe_bind; [apply safe_reads; unfold Staking.status_for_user; by guar_tac|]. intros st d1 _.
  cbv zeta. destruct (_ <? _); [by apply safe_reads|]. apply safe_bind; [apply safe_reads; by guar_tac|]. intros _ d2 _.
  apply safe_bind; [apply safe_reads; by guar_tac|]. intros x d3 _.
  apply safe_bind; [apply safe_reads; apply reads_withdraw_send; by guar_tac|]. intros txid d4 _.
  apply safe_bind; [by apply safe_reads|]. intros now d5 _. apply safe_bind; [|intros; by apply safe_reads].
  apply safe_execute. intros. by apply update_withdrawn_sound.
Qed.

Lemma referral_withdraw_safe u t d : safe (Referral.withdraw u t) d.
Proof.
  unfold Referral.withdraw. apply safe_bind; [apply safe_reads; unfold Referral.status_for_user; by guar_tac|]. intros st d1 _.
  cbv zeta. destruct (_ <=? 0); [by apply safe_reads|]. apply safe_bind; [apply safe_reads; by guar_tac|]. intros _ d2 _.
  apply safe_bind; [apply safe_reads; by guar_tac|]. intros x d3 _.
  apply safe_bind; [apply safe_reads; apply reads_withdraw_send; by guar_tac|]. intros txid d4 _.
  apply safe_bind; [by apply safe_reads|]. intros now d5 _. apply safe_bind; [|intros; by apply safe_reads].
  apply safe_execute. intros. by apply update_paid_sound.
Qed.

Lemma signup_safe r d : safe (signup r) d.
Proof.
  unfold signup. destruct kyc_configured; [|by apply safe_reads]. apply safe_bind; [apply safe_reads; by guar_tac|]. intros f d1 _.
  apply safe_bind; [apply safe_reads; unfold check_signup; by guar_tac|]. intros [m|] d2 _; [by apply safe_reads|].
  apply safe_select. intros d3 _ _. destruct (user_by_email _ d3); [by apply safe_reads|].
  assert (Hgo : ∀ by_ d', (∀ j, by_ = Some j → ∃ v, v ∈ users d' ∧ us_id v = j) →
    safe (code ← draw_code 5 ""; hash ← hash_password (sf_password f); now ← do_act Clock; encrypted ← do_act (Encrypt (sf_id_number f));
      user_id ← try_execute (insert_user (sf_email f) hash now (sf_full_name f) (sf_date_of_birth f) (sf_id_type f) encrypted code by_);
      token ← issue_token user_id; mret (jsonify (PDict [("token", PStr token)]))) d').
  { intros by_ d' Hby. apply safe_bind; [apply safe_reads; by guar_tac|]. intros code d4 G4.
    apply safe_bind; [apply safe_reads; unfold hash_password; by guar_tac|]. intros hash d5 G5.
    apply safe_bind; [by apply safe_reads|]. intros now d6 G6. apply safe_bind; [by apply safe_reads|]. intros enc d7 G7.
    apply safe_bind; [|intros; apply safe_reads; unfold issue_token; by guar_tac]. apply safe_try_execute. intros d8 d9 i G8 W8.
    apply insert_user_sound; [done|]. intros j Hj. destruct (Hby j Hj) as (v & Hv & Hi). exists v. split; [|done].
    by apply G8, G7, G6, G5, G4. }
  unfold find_referrer. destruct (String.eqb _ ""); [by apply Hgo|]. apply safe_select. intros d4 _ _.
  destruct (user_by_code _ d4) as [v|] eqn:Ev; [|by apply safe_reads]. apply Hgo. intros j [= <-].
  apply list_find_elem in Ev as [Hv _]. by exists v.
Qed.

Lemma view_safe t r d : safe (view t r) d.
Proof.
  destruct t; cbn [view]; try (apply safe_reads;
    unfold network_status, tx_detail, tx_reward, broadcast, fee_estimate, login, issue_token, push_vapid_public_key; by guar_tac).
  - apply with_address_safe. intros d'. apply safe_reads. unfold list_unspent. guar_tac.
  - apply with_address_safe. intros d'. apply safe_reads. unfold list_unspent. guar_tac.
  - apply with_address_safe. intros d'. apply safe_reads. guar_tac.
  - apply signup_safe.
  - apply authorized_safe. intros u d'. do 4 (apply safe_bind; [apply safe_reads; by guar_tac|]; intros ???; cbv zeta).
    destruct (_ || _); [by apply safe_reads|]. apply safe_bind; [by apply safe_reads|]. intros now d1 _.
    apply safe_bind; [|intros; by apply safe_reads]. apply safe_try_execute. intros ??? _ Hw. by apply upsert_subscription_sound.
  - unfold push_mobile_register. do 3 (apply safe_bind; [apply safe_reads; by guar_tac|]; intros ???).
    destruct (platform_of _) as [pl|] eqn:Ep; [|by apply safe_reads]. destruct (_ && _); [|by apply safe_reads].
    do 1 (apply safe_bind; [apply safe_reads; by guar_tac|]; intros ???). destruct (negb _); [by apply safe_reads|].
    do 2 (apply safe_bind; [apply safe_reads; by guar_tac|]; intros ???). apply safe_bind; [|intros; by apply safe_reads].
    apply safe_try_execute. intros ??? _ Hw. apply upsert_registration_sound; [done|].
    unfold platform_of in Ep. destruct a0; try done. destruct (_ || _) eqn:E; [|done]. injection Ep as <-.
    apply orb_true_iff in E as [?%String.eqb_eq|?%String.eqb_eq]; auto.
  - apply authorized_safe. intros u d'. apply safe_reads. unfold Staking.status_for_user. guar_tac.
  - apply authorized_safe. intros u d'. apply safe_bind; [apply safe_reads; by guar_tac|]. intros a d1 _.
    destruct (negb _); [by apply safe_reads|]. do 1 (apply safe_bind; [apply safe_reads; by guar_tac|]; intros ???).
    apply safe_bind; [|intros; by apply safe_reads]. unfold create_deposit.
    do 3 (apply safe_bind; [apply safe_reads; by guar_tac|]; intros ???).
    apply safe_bind; [|intros; apply safe_reads; by guar_tac]. apply safe_try_execute. intros ??? _ Hw. by apply insert_deposit_sound.
  - apply authorized_safe. intros u d'. do 2 (apply safe_bind; [apply safe_reads; by guar_tac|]; intros ???).
    destruct (_ || _); [by apply safe_reads|]. apply checked_to_safe. intros d1. apply safe_catch.
    + apply safe_bind; [apply safe_reads; by guar_tac|]. intros x d2 _.
      apply safe_bind; [apply pool_withdraw_safe|intros; by apply safe_reads].
    + intros [] q d2 [= <-] _. by apply safe_reads.
  - apply authorized_safe. intros u d'. apply safe_reads. unfold Referral.status_for_user. guar_tac.
  - apply authorized_safe. intros u d'. apply safe_reads. unfold history_for_user. guar_tac.
  - apply authorized_safe. intros u d'. apply safe_bind; [apply safe_reads; by guar_tac|]. intros a d1 _.
    destruct (negb _); [by apply safe_reads|]. apply checked_to_safe. intros d2. apply safe_catch.
    + apply safe_bind; [apply referral_withdraw_safe|intros; by apply safe_reads].
    + intros [] q d3 [= <-] _. by apply safe_reads.
Qed.

(** The gateway's processes: requests to the web server, and watcher passes. *)
Definition gateway_program (p : prog gdb unit) : Prop :=
  p = watcher ∨ ∃ t r, p = (_ ← served (view t r); mret ()).

Lemma served_safe t r d : safe (served (view t r)) d.
Proof. apply safe_catch; [apply view_safe|]. intros e q d' [= <-] _. by apply safe_reads. Qed.

Lemma gateway_program_safe p d : gateway_program p → safe p d.
Proof.
  intros [->|(t & r & ->)]; [apply watcher_safe|]. apply safe_bind; [apply served_safe|intros; by apply safe_reads].
Qed.

Lemma safe_exec {A} (p : prog gdb A) s r s' : safe p (db s) → exec p s r s' → well_formed (db s) → well_formed (db s').
Proof.
  intros Hp He Hw. apply (wp_exec p (λ _ s', well_formed (db s')) s r s'); [|done]. eapply wp_mono; [|exact (wp_rg grows well_formed p _ s Hp Hw)]. by intros ?? [_ ?].
Qed.

(** What the gateway can have come to, with any number of handlers under way. *)
Definition reachable (s : sys gdb) : Prop := ∃ ts, rtc (server_step gateway_program) (Sys init_db [], []) (s, ts).

Lemma reachable_init : reachable (Sys init_db []).
Proof. by exists []. Qed.

Lemma reachable_watcher env s : reachable s → reachable (run env watcher s).2.
Proof.
  intros [ts Hts]. destruct (arrive_exec gateway_program watcher s _ _ ts (or_introl eq_refl) (run_exec env watcher s)) as [ts' H].
  exists ts'. by etransitivity.
Qed.

Lemma reachable_request env t q s : reachable s → reachable (run env (served (view t q)) s).2.
Proof.
  intros [ts Hts]. set (p := _ ← served (view t q); mret ()).
  destruct (arrive_exec gateway_program p s _ _ ts (or_intror (ex_intro _ t (ex_intro _ q eq_refl))) (run_exec env p s)) as [ts' H].
  exists ts'. etransitivity; [exact Hts|]. unfold p in H. rewrite run_prog_bind in H. by destruct (run env (served (view t q)) s) as [[] ?].
Qed.

(** Programs that run at the same time. *)
Lemma reachable_interleave env sched ps s : Forall gateway_program ps → reachable s → reachable (interleave env sched s ps).1.
Proof.
  intros Hps [ts Hts]. exists (ts ++ (interleave env sched s ps).2). etransitivity; [exact Hts|].
  etransitivity; [by apply arrivals|]. apply (server_step_frame gateway_program ts (s, ps)), interleave_steps.
Qed.

Lemma reachable_well_formed s : reachable s → well_formed (db s).
Proof.
  intros [ts Hr]. apply (server_rg grows well_formed gateway_program _ _ _) in Hr; [done| |apply init_well_formed].
  intros p d Hp Hd. eapply rg_mono; [|by apply gateway_program_safe]. done.
Qed.

(** C9. The gateway's database stays well-formed from the moment it is created,
    however many requests and watcher passes run at once, however they interleave
    at their calls and statements, and whatever the node, the push service and the
    clients send.  Keys and unique columns have no duplicates, every reference
    that is not taken from a token points to a row, a funded deposit has its
    output and amount, and every reward is split exactly by the pool's fee. *)
Theorem database_integrity (s : sys gdb) (Hr : reachable s) : well_formed (db s).
Proof. by apply reachable_well_formed. Qed.
End integrity.

#[local] Existing Instances Pool.config Pool.libraries.

(** A user signs up, deposits, and the watcher finds the deposit and its reward. *)
Lemma pool_reachable : reachable Pool.s4.
Proof. apply reachable_watcher, reachable_watcher, reachable_request, reachable_request, reachable_init. Qed.

Lemma database_integrity_witness :
  length (stake_rewards (db Pool.s4)) = 1%nat ∧ Forall (reward_ok (db Pool.s4)) (stake_rewards (db Pool.s4)).
Proof.
  split; [vm_compute; reflexivity|].
  apply (wf_rewards _ (database_integrity Pool.s4 pool_reachable)).
Defined.
