(* ===== verification/PoolSafety.v ===== *)
(** * The pool pays out no more than it owes

    Handled one request or watcher pass at a time, the staking pool never sends a
    user more than what their closed deposits and the rewards of these add up to,
    but for payments whose confirmation by the node does not arrive.  GatewayRaces
    shows what happens after such a payment, and when two requests overlap. *)

From stdpp Require Import relations.
From S2P Require Import Prelude JsString JsNum JsValue Amount Python Server GatewayDb Referral Staking GatewayServer GatewayLemmas GatewayIntegrity.

(** ** What the pool owes *)

Definition reward_sum (d : gdb) (i : Z) : Z := sum_Z (re_net <$> filter (λ r, re_deposit r = i) (stake_rewards d)).

(** A deposit with its rewards. *)
Definition worth (d : gdb) (x : deposit) : Z := default 0 (de_amount x) + reward_sum d (de_id x).

Definition worth_of (d : gdb) (u : Z) (st : deposit_status) : Z :=
  sum_Z (worth d <$> filter (λ x, de_user x = u ∧ de_status x = st) (stake_deposits d)).

Section pool.
  Context {CF : Config} {LB : Libraries}.

(** Whether the node has paid, and whether the gateway was told. *)
Definition paid {A} (x : rpc_reply A) : option bool :=
  match x with Answer _ => Some true | Lost _ => Some false | _ => None end.

(** The amount of a payment the node made out of the pool's wallet, and whether
    the gateway was told. *)
Definition pool_path : string := rpc_path (Some POOL_WALLET).
Definition payment (e : event) : option (num * bool) :=
  let 'existT a x := e in
  match a return answer a → option (num * bool) with
  | Rpc path (SendToAddress _ amount) => λ x, if String.eqb path pool_path then pair amount <$> paid x else None
  | _ => λ _, None
  end x.
Definition payments (l : list event) : list (num * bool) := omap payment l.

(** The user a request's token names, when it is checked. *)
Definition caller (q : http_request) (l : list event) : option Z :=
  match l with
  | existT Utcnow now :: _ => jwt_decode (str_slice_from (h_authorization q) 7) now
  | _ => None
  end.

(** The gateway's life, one program after the other: for each, the caller and what
    the pool paid. *)
Inductive life : list (option Z * list (num * bool)) → sys gdb → Prop :=
  | life_start : life [] (Sys init_db [])
  | life_watch h s r s' l : life h s → exec watcher s r s' → log s' = log s ++ l → life (h ++ [(None, payments l)]) s'
  | life_request h s t q r s' l : life h s → exec (served (view t q)) s r s' → log s' = log s ++ l →
      life (h ++ [(caller q l, payments l)]) s'.

(** ** Sums *)

Lemma sql_sum_ok l z : sql_sum l = Val z → z = sum_Z l.
Proof.
  unfold sql_sum. assert (H : ∀ t, foldl (λ t x, a ← t; if int64 (a + x) then Val (a + x) else Exc (PyError "OperationalError")) t l = Val z →
    ∃ a, t = Val a ∧ z = a + sum_Z l).
  { induction l as [|x l IH]; intros t; cbn [foldl]; [intros ->; exists z; change (sum_Z []) with 0; split; [done|lia]|].
    intros (b & Eb & ->)%IH. destruct t as [a|]; [|done]. cbn in Eb. destruct (int64 (a + x)); [|done]. injection Eb as <-.
    exists a. rewrite sum_Z_cons. split; [done|lia]. }
  intros (a & [= <-] & ->)%H. lia.
Qed.

(** The rewards of some deposits, one deposit at a time. *)
Lemma rewards_by_deposit (rs : list reward) (ids : list Z) : NoDup ids →
  sum_Z (re_net <$> filter (λ r, re_deposit r ∈ ids) rs) =
  sum_Z ((λ i, sum_Z (re_net <$> filter (λ r, re_deposit r = i) rs)) <$> ids).
Proof.
  intros Hnd. induction rs as [|r rs IH].
  - clear Hnd. induction ids as [|i ids IHi]; [done|]. rewrite fmap_cons, sum_Z_cons, <- IHi. done.
  - assert (E : ∀ i, sum_Z (re_net <$> filter (λ r, re_deposit r = i) (r :: rs)) =
      (if decide (re_deposit r = i) then re_net r else 0) + sum_Z (re_net <$> filter (λ r, re_deposit r = i) rs)).
    { intros i. rewrite filter_cons. destruct (decide _); rewrite ?fmap_cons, ?sum_Z_cons; lia. }
    rewrite (list_fmap_ext _ _ ids (λ _ i _, E i)), filter_cons. clear E.
    assert (Es : ∀ (f g : Z → Z) l, sum_Z ((λ i, f i + g i) <$> l) = sum_Z (f <$> l) + sum_Z (g <$> l)).
    { intros f g l. induction l as [|i l IHl]; [done|]. rewrite !fmap_cons, !sum_Z_cons. lia. }
    rewrite Es, <- IH. assert (Ed : sum_Z ((λ i, if decide (re_deposit r = i) then re_net r else 0) <$> ids) =
      if decide (re_deposit r ∈ ids) then re_net r else 0).
    { clear IH Es. induction Hnd as [|i ids Hi Hnd IHi]; [done|]. rewrite fmap_cons, sum_Z_cons, IHi. destruct (decide (re_deposit r = i)) as [->|Hne].
      - rewrite decide_False by done. rewrite decide_True by (by left). lia.
      - destruct (decide (re_deposit r ∈ ids)) as [Hin|Hin]; [rewrite decide_True by (by right)|rewrite decide_False by set_solver]; lia. }
    rewrite Ed. destruct (decide (re_deposit r ∈ ids)); rewrite ?fmap_cons, ?sum_Z_cons; lia.
Qed.

(** ** Withdrawals *)

Lemma active_of u (l : list deposit) :
  filter (λ x, de_status x = Active) (filter (λ x, de_user x = u) l) = filter (λ x, de_user x = u ∧ de_status x = Active) l.
Proof. rewrite list_filter_filter. apply list_filter_iff. tauto. Qed.

(** What a user is told is available is what their open deposits are worth. *)
Lemma status_open u Q s : NoDup (de_id <$> stake_deposits (db s)) →
  (∀ st, ps_delegated st + ps_rewards st = worth_of (db s) u Active → Q (Val st) s) → (∀ e, Q (Exc e) s) →
  wp (Staking.status_for_user u) Q s.
Proof.
  intros Hnd HQ HE. apply wp_select. cbv zeta. rewrite active_of. set (act := filter _ (stake_deposits (db s))).
  assert (Hids : NoDup (de_id <$> act)).
  { eapply sublist_NoDup; [exact Hnd|]. apply fmap_sublist. apply sublist_filter. }
  assert (Hw : ∀ z, z = sum_Z (re_net <$> filter (λ r, re_deposit r ∈ de_id <$> act) (stake_rewards (db s))) →
    sum_Z ((λ x, default 0 (de_amount x)) <$> act) + z = worth_of (db s) u Active).
  { intros z ->. rewrite rewards_by_deposit by done. unfold worth_of. fold act. clear Hids.
    induction act as [|x l IH]; [done|]. rewrite !fmap_cons, !sum_Z_cons. unfold reward_sum in IH |- *. unfold worth at 1. unfold reward_sum. lia. }
  apply wp_bind. destruct (de_id <$> act) as [|i ids] eqn:Ei.
  - apply HQ. cbn [ps_delegated ps_rewards]. apply Hw. assert (act = []) as -> by (by apply fmap_nil_inv in Ei).
    clear. induction (stake_rewards (db s)) as [|r l IH]; [done|]. rewrite filter_cons, decide_False by (by apply not_elem_of_nil). done.
  - apply wp_select. apply wp_of_res. destruct (sql_sum _) as [z|e] eqn:Es; [|apply HE].
    apply HQ. cbn [ps_delegated ps_rewards]. apply Hw. by apply sql_sum_ok.
Qed.

Definition no_payment (a : action) : Prop := is_payment a = false.

Lemma payments_app l k : payments (l ++ k) = payments l ++ payments k.
Proof. apply omap_app. Qed.

Lemma no_payments l : Forall (λ e, no_payment (projT1 e)) l → payments l = [].
Proof.
  induction 1 as [|[a x] l Ha _ IH]; [done|]. unfold payments in *. cbn. rewrite IH. cbn in Ha.
  destruct a as [path c| | | | | | | |]; try done. by destruct c.
Qed.

(** What a withdrawal of [a] by [u] has done: nothing, or it has paid once what the
    open deposits were worth, and closed them unless the reply was lost. *)
Definition withdrawn (u a : Z) (s s' : sys gdb) : Prop :=
  ∃ l, log s' = log s ++ l ∧
  ((payments l = [] ∧ db s' = db s) ∨
   (∃ x told now, payments l = [(x, told)] ∧ true_div a COIN = Val x ∧ a <= worth_of (db s) u Active ∧
      db s' = if (told : bool) then update_withdrawn u now (db s) else db s)).

Lemma withdrawn_none u a s l : payments l = [] → withdrawn u a s (Sys (db s) (log s ++ l)).
Proof. intros Hl. exists l. split; [done|]. by left. Qed.

Lemma pool_payment_event to x y :
  payments [existT (Rpc pool_path (SendToAddress to x)) y] = option_list (pair x <$> paid y).
Proof. unfold payments. cbn. rewrite String.eqb_refl. by destruct y. Qed.

Lemma withdraw_wp u a to s : NoDup (de_id <$> stake_deposits (db s)) →
  wp (Staking.withdraw u a to) (λ _ s', withdrawn u a s s') s.
Proof.
  intros Hnd. assert (H0 : withdrawn u a s s) by (exists []; rewrite app_nil_r; split; [done|by left]).
  apply wp_bind, status_open; [done| |done]. intros st Hst. cbn [after]. cbv zeta. rewrite Hst.
  destruct (Z.ltb_spec (worth_of (db s) u Active) a) as [|Ha]; [done|].
  apply wp_bind. eapply wp_mono; [|apply (wp_guar no_payment eq); guar_tac; by apply guar_ensure_loaded].
  intros r s1 (Ed & l1 & El1 & Hl1%no_payments). assert (E1 : withdrawn u a s s1).
  { exists l1. split; [done|]. by left. }
  destruct r as [[]|e]; [|done]. cbn [after]. apply wp_bind, wp_of_res. destruct (true_div a COIN) as [x|e] eqn:Ex; [|done]. cbn [after].
  apply wp_bind, wp_catch. unfold rpc_call. fold pool_path. destruct (_ || _); [done|].
  intros y. cbn [db log]. assert (Hn : ∀ y, payments [existT (Rpc pool_path (SendToAddress to x)) y] = [] →
    withdrawn u a s (Sys (db s1) (log s1 ++ [existT (Rpc pool_path (SendToAddress to x)) y]))).
  { intros z Hz. exists (l1 ++ [existT (Rpc pool_path (SendToAddress to x)) z]). cbn [log db]. rewrite El1, app_assoc. split; [done|]. left.
    split; [rewrite payments_app, Hl1; exact Hz|done]. }
  destruct y as [txid|c m| |txid].
  - intros now. cbn. eexists (l1 ++ [_; _]). rewrite El1, <- !app_assoc. split; [done|]. right. exists x, true, now.
    rewrite payments_app, Hl1. change [?e1; ?e2] with ([e1] ++ [e2]). rewrite payments_app, pool_payment_event. split_and!; [reflexivity|done|done|by rewrite Ed].
  - cbn. destruct (c =? -6); apply Hn; apply pool_payment_event.
  - apply Hn, pool_payment_event.
  - eexists (l1 ++ [_]). cbn [log db]. rewrite El1, <- app_assoc. split; [done|]. right. exists x, false, NaN.
    rewrite payments_app, Hl1, pool_payment_event. by split_and!.
Qed.

(** ** Closing deposits *)

(** The users' closed deposits are worth what they were. *)
Definition same_closed (d d' : gdb) : Prop := ∀ u, worth_of d' u Withdrawn = worth_of d u Withdrawn.

#[local] Instance same_closed_preorder : PreOrder same_closed.
Proof. split; [by intros d u|]. intros d1 d2 d3 H1 H2 u. by rewrite H2, H1. Qed.

Lemma same_closed_tables d d' :
  stake_deposits d' = stake_deposits d → stake_rewards d' = stake_rewards d → same_closed d d'.
Proof. intros E1 E2 u. unfold worth_of, worth, reward_sum. by rewrite E1, E2. Qed.

Lemma worth_cons d u st x l : sum_Z (worth d <$> filter (λ x, de_user x = u ∧ de_status x = st) (x :: l)) =
  (if decide (de_user x = u ∧ de_status x = st) then worth d x else 0) + sum_Z (worth d <$> filter (λ x, de_user x = u ∧ de_status x = st) l).
Proof. rewrite filter_cons. destruct (decide _); rewrite ?fmap_cons, ?sum_Z_cons; lia. Qed.

Lemma close_worth u now d v :
  worth_of (update_withdrawn u now d) v Withdrawn = worth_of d v Withdrawn + (if decide (v = u) then worth_of d u Active else 0).
Proof.
  unfold worth_of, update_withdrawn. cbn [stake_deposits with_deposits].
  change (worth (with_deposits _ d)) with (worth d). induction (stake_deposits d) as [|x l IH]; [by destruct (decide _)|].
  rewrite fmap_cons, !worth_cons, IH. destruct (Z.eqb_spec (de_user x) u) as [Hu|Hu]; cbn [andb].
  - case_bool_decide as Ha; rewrite ?Ha; cbn [de_user de_status close].
    + rewrite (decide_False (P := _ ∧ Active = Withdrawn)) by (by intros [_ ?]). rewrite (decide_True (P := _ ∧ Active = Active)) by done.
      change (worth d (close now x)) with (worth d x). destruct (decide (v = u)) as [->|]; [rewrite decide_True by done|rewrite decide_False by (intros [? _]; congruence)]; lia.
    + rewrite (decide_False (P := _ ∧ de_status x = Active)) by tauto. destruct (decide (v = u)); lia.
  - rewrite (decide_False (P := de_user x = u ∧ _)) by tauto. destruct (decide (v = u)); lia.
Qed.

(** ** Requests *)

(** What a request has done: no payment and nothing closed, or one payment to its
    caller, covered by what it closed unless the reply was lost. *)
Definition request_done (q : http_request) (s s' : sys gdb) : Prop :=
  ∃ l, log s' = log s ++ l ∧
  ((payments l = [] ∧ same_closed (db s) (db s')) ∨
   (∃ u a x told, caller q l = Some u ∧ payments l = [(x, told)] ∧ true_div a COIN = Val x ∧
      ∀ v, worth_of (db s) v Withdrawn + (if decide (v = u ∧ told = true) then a else 0) <= worth_of (db s') v Withdrawn)).

Lemma request_done_refl q s : request_done q s s.
Proof. exists []. rewrite app_nil_r. split; [done|]. left. split; [done|reflexivity]. Qed.

(** The actions that pay nothing out of the pool. *)
Definition pool_free (a : action) : Prop :=
  match a with Rpc path (SendToAddress _ _) => path ≠ pool_path | _ => True end.

Lemma pool_free_harmless a : is_payment a = false → pool_free a.
Proof. destruct a as [path c| | | | | | | |]; try done. by destruct c. Qed.
Hint Resolve pool_free_harmless : server.

Lemma pool_free_payments l : Forall (λ e, pool_free (projT1 e)) l → payments l = [].
Proof.
  induction 1 as [|[a x] l Ha _ IH]; [done|]. unfold payments in *. cbn. rewrite IH. cbn in Ha.
  destruct a as [path c| | | | | | | |]; try done. destruct c; try done. cbn.
  by rewrite (proj2 (String.eqb_neq _ _) Ha).
Qed.

Lemma guar_done q p s : guar pool_free same_closed p → wp (served p) (λ _ s', request_done q s s') s.
Proof.
  intros Hp. apply wp_catch. eapply wp_mono; [|by apply (wp_guar pool_free same_closed)]. intros r s' (H1 & l & H2 & H3%pool_free_payments).
  assert (request_done q s s') by (exists l; split; [done|]; by left). by destruct r.
Qed.

Lemma staking_withdraw_done q s : NoDup (de_id <$> stake_deposits (db s)) →
  wp (served (staking_withdraw q)) (λ _ s', request_done q s s') s.
Proof.
  intros Hnd. apply wp_catch. eapply (wp_mono _ (λ _ s', request_done q s s')); [by intros []|].
  apply wp_bind. unfold require_auth. destruct (negb _); [apply request_done_refl|].
  intros now. destruct (jwt_decode (str_slice_from (h_authorization q) 7) now) as [u|] eqn:Eu.
  2:{ cbn. rewrite Eu. exists [existT Utcnow now]. split; [done|]. left. split; [done|reflexivity]. }
  cbn [db log]. set (s1 := Sys (db s) (log s ++ [existT Utcnow now])).
  assert (Hlift : ∀ a s', withdrawn u a s1 s' → request_done q s s').
  { intros a s' (l & El & H). exists (existT Utcnow now :: l). cbn [log s1] in El. rewrite El, <- app_assoc. split; [done|].
    destruct H as [[Hl Ed]|(x & told & n & Hl & Hx & Ha & Ed)]; [left|right].
    - split; [exact Hl|]. rewrite Ed. reflexivity.
    - exists u, a, x, told. split; [exact Eu|]. split; [exact Hl|]. split; [done|]. intros v. rewrite Ed. change (db s1) with (db s) in *.
      destruct told; [rewrite close_worth|rewrite decide_False by (by intros []); lia].
      destruct (decide (v = u)) as [->|]; [rewrite decide_True by done|rewrite decide_False by tauto]; lia. }
  assert (H1 : ∀ s', db s' = db s1 → (∃ l, log s' = log s1 ++ l ∧ payments l = []) → request_done q s s').
  { intros s' Ed (l & El & Hl). apply (Hlift 0). exists l. split; [done|]. by left. }
  assert (H11 : request_done q s s1) by (apply H1; [done|exists []; by rewrite app_nil_r]).
  cbn. rewrite Eu. cbn. apply wp_bind, wp_of_res. destruct (py_get _ "amount") as [amount|]; [|done]. cbn [after].
  apply wp_bind, wp_of_res. destruct (py_get _ "to_address") as [to|]; [|done]. cbn [after]. destruct (_ || _); [done|].
  apply wp_bind. eapply wp_mono; [|apply (wp_guar no_payment eq), (guar_is_valid_address no_payment eq); done].
  intros r s2 (Ed & l & El & Hl%no_payments). assert (H2 : request_done q s s2) by (apply H1; [done|by exists l]).
  destruct r as [ok|e]; [|done]. cbn [after]. destruct (negb ok); [done|]. apply wp_catch.
  eapply (wp_mono _ (λ _ s', request_done q s s')); [by intros [?|[]]|].
  apply wp_bind, wp_of_res. destruct (py_int amount) as [a|]; [|done]. cbn [after]. apply wp_bind.
  eapply wp_mono; [|apply (withdraw_wp u a to s2); by rewrite <- Ed].
  intros r2 s3 (l3 & El3 & H3). assert (request_done q s s3); [|by destruct r2].
  apply (Hlift a). exists (l ++ l3). rewrite El3, El, <- app_assoc. split; [done|]. rewrite payments_app, Hl. by rewrite Ed.
Qed.

(** ** The other routes *)

(** The admin wallet is another one than the pool's. *)
Hypothesis wallets_differ : rpc_path (Some ADMIN_WALLET) ≠ pool_path.

Lemma insert_deposit_closed u a now d d' i : insert_deposit u a now d = Val (d', i) → same_closed d d'.
Proof.
  unfold insert_deposit. destruct (existsb _ _); [done|]. intros [= <- _] v. unfold worth_of. cbn [stake_deposits with_deposits].
  change (worth (with_deposits _ d)) with (worth d). rewrite list.filter_app, fmap_app, sum_Z_app, filter_cons.
  rewrite decide_False by (by intros [_ ?]). change (sum_Z (worth d <$> filter _ [])) with 0. lia.
Qed.

Lemma guar_ensure_address_watched a : guar pool_free same_closed (ensure_address_watched a).
Proof.
  unfold ensure_address_watched. guar_tac. apply guar_execute. intros d. unfold insert_watched.
  destruct (existsb _ _); [reflexivity|by apply same_closed_tables].
Qed.

Lemma guar_with_address a k : guar pool_free same_closed k → guar pool_free same_closed (with_address a k).
Proof. intros Hk. unfold with_address. guar_tac; [apply guar_ensure_address_watched]. Qed.

Lemma guar_authorized q h : (∀ u, guar pool_free same_closed (h u)) → guar pool_free same_closed (authorized q h).
Proof. intros Hh. unfold authorized. guar_tac. Qed.

Lemma guar_signup q : guar pool_free same_closed (signup q).
Proof.
  unfold signup, check_signup, find_referrer, hash_password, issue_token. guar_tac. apply guar_try_execute; [apply _|].
  intros d d' i. unfold insert_user. destruct (existsb _ _); [done|]. intros [= <- _]. by apply same_closed_tables.
Qed.

Lemma guar_referral_withdraw u to : guar pool_free same_closed (Referral.withdraw u to).
Proof.
  unfold Referral.withdraw, ensure_admin_wallet_loaded. guar_tac. apply guar_execute. intros d. by apply same_closed_tables.
Qed.

Lemma view_done t q s : NoDup (de_id <$> stake_deposits (db s)) → wp (served (view t q)) (λ _ s', request_done q s s') s.
Proof.
  intros Hnd. destruct t; cbn [view]; try (by apply staking_withdraw_done); apply guar_done;
    try (unfold network_status, tx_detail, tx_reward, broadcast, fee_estimate, login, issue_token, push_vapid_public_key; by guar_tac).
  - apply guar_with_address. guar_tac.
  - apply guar_with_address. guar_tac.
  - apply guar_with_address. guar_tac.
  - apply guar_signup.
  - apply guar_authorized. intros u. guar_tac. apply guar_try_execute; [apply _|]. intros d d' []. unfold upsert_subscription.
    do 3 setoid_rewrite res_bind_val. intros (e & _ & p & _ & k & _ & [= <-]). by apply same_closed_tables.
  - unfold push_mobile_register. guar_tac. apply guar_try_execute; [apply _|]. intros d d' []. unfold upsert_registration.
    intros (e & _ & [= <-])%res_bind_val. by apply same_closed_tables.
  - apply guar_authorized. intros u. guar_tac.
  - apply guar_authorized. intros u. unfold ensure_wallet_loaded, create_deposit, ensure_pool_wallet_loaded. guar_tac.
    apply guar_try_execute; [apply _|]. intros d d' i. apply insert_deposit_closed.
  - apply guar_authorized. intros u. guar_tac.
  - apply guar_authorized. intros u. unfold history_for_user. guar_tac.
  - apply guar_authorized. intros u. unfold checked_to. guar_tac. apply guar_catch.
    + guar_tac. apply guar_referral_withdraw.
    + by intros [] p [= <-].
Qed.

(** ** The watcher *)

Definition same_tables (d d' : gdb) : Prop := stake_deposits d' = stake_deposits d ∧ stake_rewards d' = stake_rewards d.

#[local] Instance same_tables_preorder : PreOrder same_tables.
Proof. split; [by intros d|]. intros d1 d2 d3 [A1 A2] [B1 B2]. split; congruence. Qed.

Lemma guar_credit_referral u i a : guar no_payment same_tables (credit_referral_if_eligible u i a).
Proof.
  unfold credit_referral_if_eligible. guar_tac; (apply guar_try_execute; [apply _|]); intros d d' [];
    unfold insert_credit; intros (z & _ & [= <-])%res_bind_val; done.
Qed.

(** Every deposit with the key [i] has the status [st]. *)
Definition all_with (i : Z) (st : deposit_status) (d : gdb) : Prop := ∀ y, y ∈ stake_deposits d → de_id y = i → de_status y = st.

Lemma activate_closed i txid vout a d : all_with i Awaiting_funds d →
  same_closed d (with_deposits (fmap (λ x, if de_id x =? i then activate txid vout a x else x)) d).
Proof.
  intros Ha u. unfold worth_of. cbn [stake_deposits with_deposits]. change (worth (with_deposits _ d)) with (worth d).
  unfold all_with in Ha. induction (stake_deposits d) as [|x l IH]; [done|]. rewrite fmap_cons, !worth_cons, IH by (intros y Hy; apply Ha; by right).
  f_equal. destruct (Z.eqb_spec (de_id x) i) as [Hi|]; [|done]. rewrite !decide_False; [done| |].
  - intros [_ E]. rewrite (Ha x) in E; [done|by left|done].
  - by intros [_ ?].
Qed.

(** What marking a deposit has done. *)
Definition marked (i : Z) (d d' : gdb) : Prop :=
  same_tables d d' ∨ ∃ txid vout a, same_tables (with_deposits (fmap (λ x, if de_id x =? i then activate txid vout a x else x)) d) d'.

Lemma mark_funded_wp x s : wp (mark_funded x) (λ _ s', marked (de_id x) (db s) (db s')) s.
Proof.
  apply wp_bind. eapply wp_mono; [|apply (wp_guar no_payment eq); guar_tac]. intros r s1 (Ed & _). rewrite Ed.
  assert (H1 : marked (de_id x) (db s1) (db s1)) by (by left). destruct r as [us|e]; [|done]. cbn [after].
  destruct us as [|u us]; [done|]. apply wp_bind, wp_of_res. destruct (to_sat _) as [a|e]; [|done]. cbn [after].
  apply wp_try_execute. destruct (update_funded _ _ _ _ _) as [[d2 []]|e] eqn:E; [|done].
  unfold update_funded in E. apply res_bind_val in E as (v & _ & E). apply res_bind_val in E as (b & _ & [= <-]).
  eapply wp_mono; [|apply (wp_guar no_payment same_tables); guar_tac; apply guar_credit_referral].
  intros r s2 [H _]. right. by exists (un_txid u), (un_vout u), a.
Qed.

Lemma marked_closed i d d' : marked i d d' → all_with i Awaiting_funds d →
  same_closed d d' ∧ de_id <$> stake_deposits d' = de_id <$> stake_deposits d ∧
  ∀ j, j ≠ i → all_with j Awaiting_funds d → all_with j Awaiting_funds d'.
Proof.
  intros Hm Ha. assert (Ht : ∀ d1 d2, same_tables d1 d2 → same_closed d1 d2) by (intros d1 d2 []; by apply same_closed_tables).
  destruct Hm as [H|(txid & vout & a & H)].
  - split; [by apply Ht|]. destruct H as [E _]. unfold all_with. by rewrite E.
  - split; [etransitivity; [by apply activate_closed|by apply Ht]|]. destruct H as [E _]. unfold all_with. rewrite E. cbn. split.
    + rewrite <- list_fmap_compose. apply list_fmap_ext. intros k y _. cbn. by destruct (_ =? _).
    + intros j Hj Hall y (z & -> & Hz)%list_elem_of_fmap. destruct (Z.eqb_spec (de_id z) i); [cbn; congruence|by apply Hall].
Qed.

Lemma nodup_all_with d x st :
  NoDup (de_id <$> stake_deposits d) → x ∈ stake_deposits d → de_status x = st → all_with (de_id x) st d.
Proof.
  intros Hnd Hx Hs y Hy E. apply list_elem_of_lookup in Hx as [i Hi]. apply list_elem_of_lookup in Hy as [j Hj].
  assert (i = j) as ->; [|congruence].
  eapply (NoDup_lookup _ i j (de_id x) Hnd); rewrite list_lookup_fmap; [by rewrite Hi|by rewrite Hj, <- E].
Qed.

Lemma mark_funded_deposits_wp s : NoDup (de_id <$> stake_deposits (db s)) →
  wp _mark_funded_deposits (λ _ s', same_closed (db s) (db s') ∧ NoDup (de_id <$> stake_deposits (db s'))) s.
Proof.
  intros Hnd. apply wp_bind. eapply wp_mono; [|apply (wp_guar no_payment eq); guar_tac; by apply (guar_ensure_loaded no_payment eq)].
  intros r s1 (Ed & _). rewrite Ed in Hnd |- *. destruct r; [|by split; [reflexivity|]]. cbn [after]. apply wp_select.
  apply (wp_for_in (λ rest s', same_closed (db s1) (db s') ∧ NoDup (de_id <$> stake_deposits (db s')) ∧
    NoDup (de_id <$> rest) ∧ ∀ x, x ∈ rest → all_with (de_id x) Awaiting_funds (db s'))).
  - intros x rest s2 (H1 & H2 & H3 & H4). rewrite fmap_cons in H3. apply list.NoDup_cons in H3 as [H3 H3'].
    eapply wp_mono; [|apply mark_funded_wp]. intros r s3 Hm.
    destruct (marked_closed _ _ _ Hm) as (C1 & C2 & C3); [apply H4; by left|].
    assert (same_closed (db s1) (db s3)) by (by etransitivity). destruct r; [|rewrite C2; done]. split; [done|]. rewrite C2. split; [done|].
    split; [done|]. intros y Hy. apply C3; [|apply H4; by right]. intros E. apply H3. rewrite <- E. by apply list_elem_of_fmap_2.
  - by intros s2 (H1 & H2 & _).
  - split; [reflexivity|]. split; [done|]. split.
    + eapply sublist_NoDup; [exact Hnd|]. apply fmap_sublist, sublist_filter.
    + intros x [Hs Hx]%list_elem_of_filter. by apply nodup_all_with.
Qed.

(** A statement that can only credit a reward to a deposit that is not closed. *)
Definition credits (i : Z) (d d' : gdb) : Prop :=
  stake_deposits d' = stake_deposits d ∧ (all_with i Active d → same_closed d d').

#[local] Instance credits_preorder i : PreOrder (credits i).
Proof.
  split; [intros d; split; [done|reflexivity]|]. intros d1 d2 d3 [A1 A2] [B1 B2]. split; [congruence|]. intros Ha.
  etransitivity; [by apply A2|]. apply B2. unfold all_with. by rewrite A1.
Qed.

Lemma insert_reward_credits i txid g f n now d d' u : insert_reward i txid g f n now d = Val (d', u) → credits i d d'.
Proof.
  unfold insert_reward. intros (? & _ & (? & _ & (? & _ & E)%res_bind_val)%res_bind_val)%res_bind_val.
  destruct (existsb _ _); injection E as <- _; [reflexivity|]. split; [done|]. intros Ha v. unfold worth_of. cbn [stake_deposits with_rewards].
  unfold all_with in Ha. induction (stake_deposits d) as [|y l IH]; [done|]. rewrite !worth_cons, IH by (intros z Hz; apply Ha; by right).
  f_equal. destruct (decide _) as [[_ Hs]|]; [|done]. unfold worth, reward_sum. cbn [stake_rewards with_rewards].
  rewrite list.filter_app, fmap_app, sum_Z_app, filter_cons, decide_False; [change (filter _ []) with (@nil reward); cbn; lia|].
  cbn. intros E. rewrite (Ha y) in Hs; [done|by left|done].
Qed.

Lemma guar_attribute_deposit x : guar no_payment (credits (de_id x)) (attribute_deposit x).
Proof.
  unfold attribute_deposit, attribute. guar_tac. apply guar_try_execute; [apply _|]. intros ???. apply insert_reward_credits.
Qed.

Lemma attribute_rewards_wp s : NoDup (de_id <$> stake_deposits (db s)) →
  wp _attribute_rewards (λ _ s', same_closed (db s) (db s')) s.
Proof.
  intros Hnd. apply wp_bind. eapply wp_mono; [|apply (wp_guar no_payment eq); guar_tac; by apply (guar_ensure_loaded no_payment eq)].
  intros r s1 (Ed & _). rewrite Ed in Hnd |- *. destruct r; [|by intros u]. cbn [after]. apply wp_select.
  apply (wp_for_in (λ rest s', stake_deposits (db s') = stake_deposits (db s1) ∧ same_closed (db s1) (db s') ∧
    ∀ x, x ∈ rest → all_with (de_id x) Active (db s'))).
  - intros x rest s2 (H1 & H2 & H3). eapply wp_mono; [|apply (wp_guar no_payment (credits (de_id x))), guar_attribute_deposit].
    intros r s3 ([C1 C2] & _). specialize (C2 (H3 x ltac:(by left))). assert (same_closed (db s1) (db s3)) by (by etransitivity).
    destruct r; [|done]. split; [congruence|]. split; [done|]. intros y Hy. unfold all_with. rewrite C1. apply H3. by right.
  - by intros s2 (_ & H2 & _).
  - split; [done|]. split; [reflexivity|]. intros x [Hs Hx]%list_elem_of_filter. by apply nodup_all_with.
Qed.

Definition anything (d d' : gdb) : Prop := True.
#[local] Instance anything_preorder : PreOrder anything.
Proof. done. Qed.

Lemma guar_watcher : guar no_payment anything watcher.
Proof.
  unfold watcher, run_watcher_pass, _mark_funded_deposits, _attribute_rewards, mark_funded, attribute_deposit, attribute,
    credit_referral_if_eligible, check_incoming_payments, ensure_pool_wallet_loaded.
  guar_tac; try (by apply guar_try_execute; [apply _|]).
  match goal with |- guar _ _ (check_address ?g) => destruct g as [addr regs] end.
  unfold check_address, notify_device, send_fcm_notification. guar_tac; [|by apply guar_try_execute; [apply _|]].
  apply guar_catch; [|by intros e q [= <-]]. unfold ensure_address_watched, ensure_wallet_loaded. guar_tac. by apply guar_execute.
Qed.

Lemma guar_check_incoming : guar no_payment same_tables check_incoming_payments.
Proof.
  unfold check_incoming_payments. guar_tac. match goal with |- guar _ _ (check_address ?g) => destruct g as [addr regs] end.
  unfold check_address, notify_device, send_fcm_notification. guar_tac.
  - apply guar_catch; [|by intros e q [= <-]]. unfold ensure_address_watched, ensure_wallet_loaded. guar_tac. apply guar_execute.
    intros d. unfold insert_watched. by destruct (existsb _ _).
  - apply guar_try_execute; [apply _|]. intros d d' []. unfold update_balance. by intros (z & _ & [= <-])%res_bind_val.
Qed.

Lemma watcher_closed s : NoDup (de_id <$> stake_deposits (db s)) → wp watcher (λ _ s', same_closed (db s) (db s')) s.
Proof.
  intros Hnd. apply wp_bind, wp_bind. eapply wp_mono; [|by apply mark_funded_deposits_wp]. intros [[]|e] s1 [H1 Hnd1]; [|done]. cbn [after].
  eapply wp_mono; [|by apply attribute_rewards_wp]. intros r s2 H2. assert (H12 : same_closed (db s) (db s2)) by (by etransitivity).
  destruct r as [[]|e]; [|done]. cbn [after].
  eapply wp_mono; [|apply (wp_guar no_payment same_tables), guar_check_incoming].
  intros r s3 [[E1 E2] _]. etransitivity; [done|]. by apply same_closed_tables.
Qed.

(** ** The theorem *)

Lemma life_ids h s : life h s → NoDup (de_id <$> stake_deposits (db s)).
Proof.
  intros Hl. apply wf_deposit_ids. induction Hl as [|h s r s' l _ IH He _|h s t q r s' l _ IH He _].
  - apply init_well_formed.
  - eapply safe_exec; [apply watcher_safe|done|done].
  - eapply safe_exec; [apply served_safe|done|done].
Qed.

(** What was paid to [u] in all, when [asked] are the amounts in satoshis, and what
    of it the gateway was not told of. *)
Definition paid_by (w : num * bool → Z → Z) (u : Z) (h : list (option Z * list (num * bool))) (asked : list (list Z)) : Z :=
  sum_Z (zip_with (λ e l, if decide (e.1 = Some u) then sum_Z (zip_with w e.2 l) else 0) h asked).
Definition paid_to : Z → list (option Z * list (num * bool)) → list (list Z) → Z := paid_by (λ _ a, a).
Definition paid_untold : Z → list (option Z * list (num * bool)) → list (list Z) → Z := paid_by (λ x a, if x.2 then 0 else a).

(** The amounts a program asked the node to pay, as the node was told them. *)
Definition asks (e : option Z * list (num * bool)) (l : list Z) : Prop :=
  Forall2 (λ x a, true_div a COIN = Val x.1) e.2 l ∧ (e.1 = None → l = []).

Lemma paid_by_snoc w u h asked e l : length h = length asked →
  paid_by w u (h ++ [e]) (asked ++ [l]) = paid_by w u h asked + if decide (e.1 = Some u) then sum_Z (zip_with w e.2 l) else 0.
Proof. intros Hl. unfold paid_by. rewrite zip_with_app by done. rewrite sum_Z_app. cbn. lia. Qed.

(** A program that pays nothing leaves the sums as they are. *)
Lemma paid_by_none w u h asked o : length h = length asked → paid_by w u (h ++ [(o, [])]) (asked ++ [[]]) = paid_by w u h asked.
Proof. intros Hl. rewrite paid_by_snoc by done. cbn. destruct (decide _); lia. Qed.

(** C5. Handled one at a time, requests and watcher passes never make the pool pay a
    user more than what this user's closed deposits are worth, rewards included:
    every payment is of whole satoshis, goes out on a request whose token names the
    user, and closes deposits of the user that cover it.  The exception are the
    payments the node made whose reply was lost: these close nothing, and come on
    top. *)
Theorem pool_solvent (h : list (option Z * list (num * bool))) (s : sys gdb) (Hl : life h s) :
  ∃ asked : list (list Z), Forall2 asks h asked ∧ ∀ u, paid_to u h asked <= worth_of (db s) u Withdrawn + paid_untold u h asked.
Proof.
  induction Hl as [|h s r s' l Hl IH He El|h s t q r s' l Hl IH He El].
  - exists []. split; [done|]. by intros u.
  - destruct IH as (asked & H1 & H2). exists (asked ++ [[]]).
    pose proof (wp_exec _ _ _ _ _ (watcher_closed s (life_ids h s Hl)) He) as Hc.
    pose proof (wp_exec _ _ _ _ _ (wp_guar _ _ _ guar_watcher s) He) as (_ & l' & El' & Hp%no_payments).
    rewrite El in El'. apply app_inv_head in El' as <-. split.
    + apply Forall2_app; [done|]. constructor; [|done]. by rewrite Hp.
    + intros u. rewrite Hp. unfold paid_to, paid_untold. rewrite !paid_by_none by (by eapply Forall2_length). rewrite Hc. apply H2.
  - destruct IH as (asked & H1 & H2).
    destruct (wp_exec _ _ _ _ _ (view_done t q s (life_ids h s Hl)) He) as (l' & El' & H).
    rewrite El in El'. apply app_inv_head in El' as <-. destruct H as [[Hp Hc]|(u & a & x & told & Hu & Hp & Ha & Hc)].
    + exists (asked ++ [[]]). rewrite Hp. split; [apply Forall2_app; [done|by repeat constructor]|].
      intros v. unfold paid_to, paid_untold. rewrite !paid_by_none by (by eapply Forall2_length). rewrite Hc. apply H2.
    + exists (asked ++ [[a]]). rewrite Hp, Hu. split; [apply Forall2_app; [done|]; repeat constructor; done|].
      intros v. unfold paid_to, paid_untold in H2 |- *. rewrite !paid_by_snoc by (by eapply Forall2_length). specialize (H2 v). specialize (Hc v).
      cbn. rewrite !Z.add_0_r. destruct (decide (v = u)) as [->|Hne].
      * rewrite !decide_True by done. destruct told; [rewrite decide_True in Hc by done|rewrite decide_False in Hc by (by intros [])]; lia.
      * rewrite decide_False in Hc by tauto. rewrite !decide_False by congruence. lia.
Qed.
End pool.

#[local] Existing Instances Pool.config Pool.libraries.

(** The events of a program's run, and the history of the example. *)
Definition since (s s' : sys gdb) : list event := drop (length (log s)) (log s').
Definition pool_life : list (option Z * list (num * bool)) :=
  let request q s s' := (caller q (since s s'), payments (since s s')) in
  let watch s s' := (None, payments (since s s')) in
  [request (Pool.form "ann@x.org" "") Pool.start Pool.s1; request (Pool.as_user 1 [("amount", PStr "500000000")]) Pool.s1 Pool.s2;
   watch Pool.s2 Pool.s3; watch Pool.s3 Pool.s4; request (Pool.take 500000950) Pool.s4 Pool.s5].

Lemma since_spec {A} env (p : prog gdb A) s : log (run env p s).2 = log s ++ since s (run env p s).2.
Proof. destruct (exec_log _ _ _ _ (run_exec env p s)) as [l E]. unfold since. by rewrite E, drop_app_length. Qed.

Lemma life_ran_watch env h s : life h s → life (h ++ [(None, payments (since s (run env watcher s).2))]) (run env watcher s).2.
Proof. intros Hl. eapply life_watch; [done|apply run_exec|apply since_spec]. Qed.

Lemma life_ran_request env h s t q : let s' := (run env (served (view t q)) s).2 in
  life h s → life (h ++ [(caller q (since s s'), payments (since s s'))]) s'.
Proof. intros s' Hl. eapply life_request; [done|apply run_exec|apply since_spec]. Qed.

Lemma pool_lives : life pool_life Pool.s5.
Proof.
  apply (life_ran_request _ [_; _; _; _]), (life_ran_watch _ [_; _; _]), (life_ran_watch _ [_; _]), (life_ran_request _ [_]), (life_ran_request _ []), life_start.
Qed.

Lemma pool_solvent_witness :
  pool_life !! 4%nat = Some (Some 1, [(Pool.cac 500000950, true)]) ∧
  ∃ asked : list (list Z), Forall2 asks pool_life asked ∧ ∀ u, paid_to u pool_life asked <= worth_of (db Pool.s5) u Withdrawn + paid_untold u pool_life asked.
Proof.
  split; [vm_compute; reflexivity|]. refine (pool_solvent _ pool_life Pool.s5 pool_lives). by vm_compute.
Defined.
