(* ===== verification/GatewayRaces.v ===== *)
(** * What the gateway does not promise

    What the guarantee of PoolSafety for one program at a time does not cover: two
    requests of one user that overlap, and a payment whose confirmation is lost.
    Then runs of the gateway, computed step by step: the two requests through the
    routes, a deposit that stakes more than once, a withdrawal of a part, a push
    service that cannot be reached, a phone that registers. *)

From stdpp Require Import relations.
From S2P Require Import Prelude JsString JsNum JsValue Amount Python Server GatewayDb Referral Staking GatewayServer GatewayIntegrity PoolSafety GatewayLemmas.

(** ** Withdrawals, in general *)

Section withdrawals.
  Context {CF : Config} {LB : Libraries}.
  Hypothesis configured : String.eqb RPC_USER "" || String.eqb RPC_PASSWORD "" = false.

(** No other handler than those at work. *)
Definition no_other (p : prog gdb string) : Prop := False.

(** What a withdrawal has left to do once the node has paid. *)
Definition close_open (u : Z) (txid : string) : prog gdb string :=
  now ← do_act Clock; _ ← execute (update_withdrawn u now); mret txid.

(** The rewards of the open deposits of [u]. *)
Definition open_rewards (u : Z) (d : gdb) : list Z :=
  re_net <$> filter (λ r, re_deposit r ∈ de_id <$> filter (λ x, de_user x = u ∧ de_status x = Active) (stake_deposits d)) (stake_rewards d).

(** The balance is told when the sum of the rewards fits in 64 bits. *)
Lemma status_told u d z l : NoDup (de_id <$> stake_deposits d) → sql_sum (open_rewards u d) = Val z →
  ∃ st, exec (Staking.status_for_user u) (Sys d l) (Val st) (Sys d l) ∧ ps_delegated st + ps_rewards st = worth_of d u Active.
Proof.
  intros Hnd Hz. assert (He : ∃ st, exec (Staking.status_for_user u) (Sys d l) (Val st) (Sys d l)).
  { unfold open_rewards in Hz. destruct (de_id <$> filter _ (stake_deposits d)) as [|i ids] eqn:Ei; eexists; apply (exec_sql (D := gdb));
      cbn [fst snd db log]; cbv zeta; rewrite active_of, Ei; [apply (exec_ret (D := gdb))|].
    apply (exec_sql (D := gdb)). cbn [fst snd db log]. rewrite Hz. apply (exec_ret (D := gdb)). }
  destruct He as [st He]. exists st. split; [done|].
  exact (wp_exec _ (λ r s, match r with Val st => ps_delegated st + ps_rewards st = worth_of d u Active | Exc _ => True end) _ _ _
    (status_open u _ (Sys d l) Hnd (λ st E, E) (λ _, I)) He).
Qed.

(** The wallet is loaded already. *)
Definition wallet_listed : event := existT (Rpc (rpc_path (Some "")) ListWallets) (Answer [POOL_WALLET]).
Lemma pool_loaded d l : exec ensure_pool_wallet_loaded (Sys d l) (Val ()) (Sys d (l ++ [wallet_listed])).
Proof.
  unfold ensure_pool_wallet_loaded, ensure_loaded, rpc_call. rewrite configured. apply (exec_act (D := gdb) (Rpc (rpc_path (Some "")) ListWallets) _ (Answer [POOL_WALLET])).
 
  cbn. rewrite bool_decide_true by (by left). apply (exec_ret (D := gdb)).
Qed.

(** A payment that is confirmed, and one whose confirmation is lost. *)
Definition sent (to : py) (x : num) (y : rpc_reply string) : event := existT (Rpc pool_path (SendToAddress to x)) y.
Lemma payments_sent to x y : payments [wallet_listed; sent to x y] = option_list (pair x <$> paid y).
Proof. change [wallet_listed; ?e] with ([wallet_listed] ++ [e]). rewrite payments_app. apply (pool_payment_event to x y). Qed.

Section balance.
  Context (d : gdb) (u z : Z) (Hnd : NoDup (de_id <$> stake_deposits d)) (Hz : sql_sum (open_rewards u d) = Val z).

(** A withdrawal of what the balance covers gets as far as the payment. *)
Lemma withdraw_sends a x to txid ts i l : a <= worth_of d u Active → true_div a COIN = Val x → ts !! i = Some (Staking.withdraw u a to) →
  rtc (server_step no_other) (Sys d l, ts) (Sys d (l ++ [wallet_listed; sent to x (Answer txid)]), <[i := close_open u txid]> ts).
Proof.
  intros Ha Hx Hi. destruct (status_told u d z l Hnd Hz) as (st & Hst & Hw). pose proof (lookup_lt_Some _ _ _ Hi) as Hlt.
  etrans; [exact (exec_bind_steps _ _ _ _ _ _ _ _ Hst Hi)|]. cbv zeta beta. rewrite Hw. rewrite (proj2 (Z.ltb_ge _ _) Ha), Hx.
  etrans; [eapply exec_bind_steps; [apply pool_loaded|by apply list_lookup_insert_eq]|]. rewrite list_insert_insert_eq.
  unfold rpc_call. rewrite configured. change [wallet_listed; ?e] with ([wallet_listed] ++ [e]). rewrite app_assoc.
  apply step_inserted; [done|]. exact (step_act (D := gdb) (Sys d (l ++ [wallet_listed])) (Rpc pool_path (SendToAddress to x)) _ (Answer txid)).
Qed.

Lemma close_steps H txid now ts i s : ts !! i = Some (close_open u txid) →
  rtc (server_step H) (s, ts) (Sys (update_withdrawn u now (db s)) (log s ++ [existT Clock now]), <[i := mret txid]> ts).
Proof.
  intros Hi. unfold close_open in Hi. etrans; [eapply exec_bind_steps; [|exact Hi]|].
  - apply (exec_act (D := gdb) Clock _ now). apply (exec_ret (D := gdb)).
  - apply step_inserted; [by eapply lookup_lt_Some|]. exact (step_sql (D := gdb) (Sys (db s) (log s ++ [existT Clock now])) _).
Qed.

(** Nothing is left open. *)
Lemma close_active now e : worth_of (update_withdrawn u now e) u Active = 0.
Proof.
  unfold worth_of, update_withdrawn. cbn [stake_deposits with_deposits]. change (worth (with_deposits _ e)) with (worth e).
  induction (stake_deposits e) as [|y l IH]; [done|]. rewrite fmap_cons, worth_cons, IH. rewrite decide_False; [done|].
  intros [Hu Ha]. revert Hu Ha. destruct (Z.eqb_spec (de_user y) u); cbn [andb]; [|done]. by case_bool_decide.
Qed.

(** C19. Two withdrawals of the same user that overlap are both paid in full, whenever
    each of them alone is covered by the user's open deposits: the balance is read
    before the payment and the deposits are closed after it, with nothing to hold
    the second one back in between.  The deposits are closed once.  (The ids of the
    deposits differ, as [database_integrity] has it, and the sum of the user's rewards
    fits 64 bits, or the balance is not told.) *)
Theorem withdrawals_race a b x y (to to' : py) l (Ha : a <= worth_of d u Active) (Hb : b <= worth_of d u Active)
    (Hx : true_div a COIN = Val x) (Hy : true_div b COIN = Val y) :
  ∃ s' k txid txid', rtc (server_step no_other) (Sys d l, [Staking.withdraw u a to; Staking.withdraw u b to']) (s', [mret txid; mret txid']) ∧
    log s' = l ++ k ∧ payments k = [(x, true); (y, true)] ∧
    worth_of (db s') u Withdrawn = worth_of d u Withdrawn + worth_of d u Active ∧ worth_of (db s') u Active = 0.
Proof.
  pose (k1 := [wallet_listed; sent to x (Answer "t1")]). pose (k2 := [wallet_listed; sent to' y (Answer "t2")]). pose (c := existT Clock NaN : event).
  exists (Sys (update_withdrawn u NaN (update_withdrawn u NaN d)) ((((l ++ k1) ++ k2) ++ [c]) ++ [c])), (k1 ++ k2 ++ [c] ++ [c]), "t1", "t2". split.
  - etrans; [apply (withdraw_sends a x to "t1" _ 0); done|]. etrans; [apply (withdraw_sends b y to' "t2" _ 1); done|].
    etrans; [apply (close_steps _ "t1" NaN _ 0); done|]. exact (close_steps _ "t2" NaN [mret "t1"; close_open u "t2"] 1 (Sys (update_withdrawn u NaN d) (((l ++ k1) ++ k2) ++ [c])) eq_refl).
  - cbn [log db]. rewrite <- !app_assoc. split; [reflexivity|]. rewrite !payments_app. split.
    + unfold k1, k2. by rewrite !payments_sent.
    + rewrite !close_worth, close_active, !decide_True by done. split; [lia|apply close_active].
Qed.

(** What the node answers to the payment decides the withdrawal. *)
Lemma withdraw_exec a x to l y r s' : a <= worth_of d u Active → true_div a COIN = Val x →
  exec (match y with
        | Answer txid => close_open u txid
        | Refused code m => if code =? -6
            then Raise (StakingError "not-found" "Funds are still maturing on-chain and aren't spendable yet -- try again shortly.")
            else Raise (StakingError "invalid-address" ("Withdrawal failed: " +:+ m))
        | Unreachable | Lost _ => Raise (PyError "OSError")
        end) (Sys d (l ++ [wallet_listed; sent to x y])) r s' → exec (Staking.withdraw u a to) (Sys d l) r s'.
Proof.
  intros Ha Hx He. destruct (status_told u d z l Hnd Hz) as (st & Hst & Hw). eapply exec_prog_bind; [exact Hst|].
  cbv zeta. rewrite Hw, (proj2 (Z.ltb_ge _ _) Ha), Hx. eapply exec_prog_bind; [apply pool_loaded|]. unfold rpc_call. rewrite configured.
  apply (exec_act (D := gdb) (Rpc pool_path (SendToAddress to x)) _ y). cbn [db log]. rewrite <- app_assoc.
  destruct y as [txid|code m| |txid]; [exact He| |exact He..]. cbn. by destruct (code =? -6).
Qed.

(** A payment whose confirmation is lost closes no deposit, so the user is told of
    an error, and the same withdrawal is paid again. *)
Theorem lost_reply_paid_again a x (to : py) l (Ha : a <= worth_of d u Active) (Hx : true_div a COIN = Val x) :
  ∃ s1 k1 s2 k2 txid, exec (Staking.withdraw u a to) (Sys d l) (Exc (PyError "OSError")) s1 ∧
    db s1 = d ∧ log s1 = l ++ k1 ∧ payments k1 = [(x, false)] ∧
    exec (Staking.withdraw u a to) s1 (Val txid) s2 ∧ log s2 = log s1 ++ k2 ∧ payments k2 = [(x, true)].
Proof.
  pose (k1 := [wallet_listed; sent to x (Lost "t")]). pose (k2 := [wallet_listed; sent to x (Answer "t")]). pose (c := existT Clock NaN : event).
  exists (Sys d (l ++ k1)), k1, (Sys (update_withdrawn u NaN d) (((l ++ k1) ++ k2) ++ [c])), (k2 ++ [c]), "t". split_and!; try done.
  - apply (withdraw_exec a x to l (Lost "t")); [done..|]. apply (exec_raise (D := gdb)).
  - apply payments_sent.
  - apply (withdraw_exec a x to (l ++ k1) (Answer "t")); [done..|]. apply (exec_act (D := gdb) Clock _ NaN), (exec_sql (D := gdb)), (exec_ret (D := gdb)).
  - cbn [log]. by rewrite <- app_assoc.
  - rewrite payments_app. unfold k2. by rewrite payments_sent.
Qed.
End balance.
End withdrawals.

Module Races.
#[local] Existing Instances Pool.config Pool.libraries.

Definition request (t : route) (q : http_request) : prog gdb unit := _ ← served (view t q); mret ().

(** Two handlers of the same request that take turns, as two workers can. *)
Definition twice (c : Pool.chain) (t : route) (q : http_request) (s : sys gdb) : sys gdb :=
  (interleave (Pool.env c) (mjoin (replicate 40 [0; 1]%nat)) s [request t q; request t q]).1.

Lemma reachable_twice c t q s : reachable s → reachable (twice c t q s).
Proof.
  intros Hs. apply reachable_interleave; [|done]. assert (gateway_program (request t q)) by (right; by exists t, q). constructor; [done|]. constructor; [done|constructor].
Qed.

Lemma reachable_ask c t q s : reachable s → reachable (Pool.ask c t q s).2.
Proof. apply reachable_request. Qed.
Lemma reachable_pass c s : reachable s → reachable (Pool.pass c s).
Proof. apply reachable_watcher. Qed.

(** ** A withdrawal sent twice *)

Definition paid_twice : sys gdb := twice Pool.staked Staking_withdraw (Pool.take 500000950) Pool.s4.

(** Two withdrawal requests of the same user that overlap are both paid in full:
    the balance is read before the payment and the deposits are closed after it,
    with nothing to hold the second request back in between.  The pool has then
    paid out twice what it owed. *)
Theorem overlapping_requests :
  reachable paid_twice ∧ payments (log paid_twice) = [(Pool.cac 500000950, true); (Pool.cac 500000950, true)] ∧
  worth_of (db paid_twice) 1 Withdrawn = 500000950 ∧ Forall (λ x, de_user x = 1) (stake_deposits (db paid_twice)).
Proof.
  split; [apply reachable_twice, pool_reachable|]. split; [vm_compute; reflexivity|]. split; [vm_compute; reflexivity|].
  apply (bool_decide_unpack _). vm_compute. reflexivity.
Qed.

(** The same user, at the same balance. *)
Lemma withdrawals_race_witness :
  worth_of (db Pool.s4) 1 Active = 500000950 ∧
  ∃ s' k txid txid', rtc (server_step no_other) (Pool.s4, [Staking.withdraw 1 500000950 (PStr "D9"); Staking.withdraw 1 500000950 (PStr "D9")])
      (s', [mret txid; mret txid']) ∧
    log s' = log Pool.s4 ++ k ∧ payments k = [(Pool.cac 500000950, true); (Pool.cac 500000950, true)] ∧
    worth_of (db s') 1 Withdrawn = worth_of (db Pool.s4) 1 Withdrawn + worth_of (db Pool.s4) 1 Active ∧ worth_of (db s') 1 Active = 0.
Proof.
  assert (Hw : worth_of (db Pool.s4) 1 Active = 500000950) by (vm_compute; reflexivity). split; [done|].
  refine (withdrawals_race eq_refl (db Pool.s4) 1 950 _ _ 500000950 500000950 _ _ (PStr "D9") (PStr "D9") (log Pool.s4) _ _ _ _).
  - apply (bool_decide_unpack _). vm_compute. reflexivity.
  - vm_compute. reflexivity.
  - by rewrite Hw.
  - by rewrite Hw.
  - vm_compute. reflexivity.
  - vm_compute. reflexivity.
Defined.

Lemma lost_reply_paid_again_witness :
  ∃ s1 k1 s2 k2 txid, exec (Staking.withdraw 1 500000950 (PStr "D9")) Pool.s4 (Exc (PyError "OSError")) s1 ∧
    db s1 = db Pool.s4 ∧ log s1 = log Pool.s4 ++ k1 ∧ payments k1 = [(Pool.cac 500000950, false)] ∧
    exec (Staking.withdraw 1 500000950 (PStr "D9")) s1 (Val txid) s2 ∧ log s2 = log s1 ++ k2 ∧ payments k2 = [(Pool.cac 500000950, true)].
Proof.
  refine (lost_reply_paid_again eq_refl (db Pool.s4) 1 950 _ _ 500000950 _ (PStr "D9") (log Pool.s4) _ _).
  - apply (bool_decide_unpack _). vm_compute. reflexivity.
  - vm_compute. reflexivity.
  - assert (Hw : worth_of (db Pool.s4) 1 Active = 500000950) by (vm_compute; reflexivity). by rewrite Hw.
  - vm_compute. reflexivity.
Defined.

(** ** A part of the balance *)

Definition one_taken : sys gdb := (Pool.ask Pool.staked Staking_withdraw (Pool.take 1) Pool.s4).2.

(** A withdrawal pays the amount asked for and closes every open deposit of the
    user, whatever it was: after one satoshi, nothing is left to withdraw. *)
Theorem partial_withdrawal_closes_all :
  reachable one_taken ∧ payments (log one_taken) = [(Pool.cac 1, true)] ∧
  worth_of (db Pool.s4) 1 Active = 500000950 ∧ worth_of (db one_taken) 1 Active = 0.
Proof.
  split; [apply reachable_ask, pool_reachable|]. split; [vm_compute; reflexivity|]. split; vm_compute; reflexivity.
Qed.

(** ** Referral credits *)

(** Bob signs up with Ann's code, and his first deposit is found by the watcher. *)
Definition ann_code : string := match users (db Pool.s1) with u :: _ => us_referral_code u | [] => "" end.
Definition bob : sys gdb := (Pool.ask Pool.empty Signup (Pool.form "bob@x.org" ann_code) Pool.s1).2.
Definition bob_deposits : sys gdb := (Pool.ask Pool.empty Staking_deposit (Pool.as_user 2 [("amount", PStr "500000000")]) bob).2.
Definition credited : sys gdb := Pool.pass Pool.paid_in bob_deposits.

Lemma bob_reachable : reachable bob_deposits.
Proof. apply reachable_ask, reachable_ask, reachable_ask, reachable_init. Qed.

(** What the admin wallet paid. *)
Definition admin_payment (e : event) : option num :=
  let 'existT a x := e in
  match a return answer a → option num with
  | Rpc path (SendToAddress _ amount) => λ x, match x with Answer _ => if String.eqb path (rpc_path (Some ADMIN_WALLET)) then Some amount else None | _ => None end
  | _ => λ _, None
  end x.

Definition referral_twice : sys gdb := twice Pool.paid_in Referral_withdraw (Pool.as_user 1 [("to_address", PStr "D9")]) credited.

(** The same of the referral credits: one credit of 0.5 CAC, paid out twice. *)
Theorem referral_withdrawals_race :
  reachable referral_twice ∧ omap admin_payment (log referral_twice) = [Pool.cac 50000000; Pool.cac 50000000] ∧
  cr_amount <$> referral_credits (db referral_twice) = [50000000].
Proof.
  split; [apply reachable_twice, reachable_pass, bob_reachable|]. split; vm_compute; reflexivity.
Qed.

(** ** A push service that cannot be reached *)

Definition subscription_of (u : Z) : http_request :=
  Pool.as_user u [("endpoint", PStr "https://push"); ("keys", PDict [("p256dh", PStr "p"); ("auth", PStr "a")])].
Definition bob_subscribed : sys gdb := (Pool.ask Pool.empty Push_subscribe (subscription_of 2) bob_deposits).2.

(** The same chain, when the connection to the push service fails. *)
Definition offline : Pool.chain := Pool.Chain (Pool.txs Pool.paid_in) (Pool.labelled Pool.paid_in) (Pool.deposit_coin Pool.paid_in) false Push_failed.
Definition credit_lost : sys gdb := Pool.pass Pool.paid_in (Pool.pass offline bob_subscribed).

(** A notification that fails with anything but the exception [push.py] expects
    ends the watcher's pass between the update of the deposit and the referral's
    credit.  The deposit is active by then, so no later pass credits it. *)
Theorem failed_push_loses_credit :
  reachable credit_lost ∧ de_status <$> stake_deposits (db credit_lost) = [Active] ∧
  referral_credits (db credit_lost) = [] ∧ length (referral_credits (db (Pool.pass Pool.paid_in bob_subscribed))) = 1%nat.
Proof.
  split; [apply reachable_pass, reachable_pass, reachable_ask, bob_reachable|]. split; [vm_compute; reflexivity|]. split; vm_compute; reflexivity.
Qed.

(** ** A deposit that stakes again *)

(** The first coinstake's output is staked a second time, for 700 satoshis. *)
Definition staked_again : Pool.chain :=
  Pool.Chain (Pool.txs Pool.staked ++ [Pool.coinstake "s2" "s1" 500001000 700]) ["f1"; "s1"; "s2"] None true Pushed.
Definition second_pass : sys gdb := Pool.pass staked_again Pool.s4.

(** A coinstake is credited when it spends the deposit's funding output, and that
    output stays on record after it was staked: the second coinstake of a deposit,
    which spends the first one's output, is never credited. *)
Theorem second_stake_not_credited :
  reachable second_pass ∧ existsb (λ t, _is_coinstake t && String.eqb (rt_txid t) "s2") (Pool.txs staked_again) = true ∧
  re_txid <$> stake_rewards (db second_pass) = ["s1"].
Proof.
  split; [apply reachable_pass, pool_reachable|]. split; vm_compute; reflexivity.
Qed.

(** ** A phone that registers *)

Definition phone : http_request :=
  Http_request "" (Some (PDict [("address", PStr "D1"); ("platform", PStr "android"); ("token", PStr "t")])) [].
Definition registered : sys gdb := (Pool.ask Pool.paid_in Push_mobile_register phone Pool.start).2.

(** The payments a phone is told of. *)
Definition told (e : event) : option string :=
  let 'existT a x := e in
  match a return answer a → option string with Fcm_push _ _ body _ => λ _, Some body | _ => λ _, None end x.

(** A phone that registers an address is told that it has received all that the
    address had before: the balance last told starts at 0, not at the balance. *)
Theorem registration_told_of_old_money :
  omap told (log (Pool.pass Pool.paid_in registered)) = ["You received 5.00000000 CAC."] ∧
  omap told (log (Pool.pass Pool.paid_in (Pool.pass Pool.paid_in registered))) = ["You received 5.00000000 CAC."].
Proof. split; vm_compute; reflexivity. Qed.
End Races.
