(* ===== verification/GatewayAmounts.v ===== *)
(** * Amounts and fees at the gateway

    The node writes amounts as decimal numbers, Python reads them as doubles, and
    the gateway multiplies and rounds.  When that is exact, and what the fee
    estimate can be. *)

From S2P Require Import Prelude JsString JsNum JsValue JsDate Amount Python Server GatewayDb Referral Staking GatewayServer GatewayLemmas.

(** ** Rounding *)

Lemma rne_near a b n : 0 < b → - b < 2 * (a - n * b) < b → rne a b = n.
Proof. intros Hb Hn. pose proof (rne_error a b Hb). assert (- 2 < 2 * (rne a b - n) < 2) by nia. lia. Qed.

Lemma rne_bounds a b lo hi : 0 < b → lo * b <= a <= hi * b → lo <= rne a b <= hi.
Proof. intros Hb Ha. pose proof (rne_error a b Hb). split; apply Z.lt_succ_r, (Z.mul_lt_mono_pos_r b); nia. Qed.

(** ** Satoshis *)

(** The double Python reads from the decimal text of an amount of [n] satoshis. *)
Definition node_amount (n : Z) : num := rnd n COIN.

Lemma num_mul_coin x : num_mul x (num_of_Z COIN) = num_mul x (Fin COIN 0).
Proof.
  change (num_of_Z COIN) with (Fin (COIN * 2 ^ 26) (- 26)). destruct x as [|neg|m e]; [done|by destruct neg|]. unfold num_mul.
  rewrite Z.add_0_r. destruct (Z.leb_spec 0 (e + - 26)) as [H|H].
  - destruct (Z.leb_spec 0 e); [|lia]. assert (E : 2 ^ e = 2 ^ 26 * 2 ^ (e + - 26)) by (rewrite <- Z.pow_add_r by lia; f_equal; lia).
    rewrite E. f_equal. lia.
  - destruct (Z.leb_spec 0 e) as [He|He].
    + rewrite <- (rnd_pow2 (m * COIN * 2 ^ e) 1 (- (e + - 26))) by lia. rewrite Z.mul_1_l. assert (E : 2 ^ 26 = 2 ^ e * 2 ^ (- (e + - 26))) by (rewrite <- Z.pow_add_r by lia; f_equal; lia).
      rewrite E. f_equal. lia.
    + rewrite <- (rnd_pow2 (m * COIN) (2 ^ (- e)) 26) by (lia || (apply Z.pow_pos_nonneg; lia)). f_equal; [lia|].
      rewrite <- Z.pow_add_r by lia. f_equal. lia.
Qed.

Lemma to_sat_small n : 0 <= n < 2 ^ 25 * COIN → to_sat (rnd n COIN) = Val n.
Proof.
  intros Hn. destruct (decide (n = 0)) as [->|Hne]; [by vm_compute|]. unfold to_sat. rewrite num_mul_coin.
  destruct (satoshi_product n) as (m & s & E & Hs & Herr); [unfold COIN in *; lia|]. unfold COIN. rewrite E. unfold py_round, num_ratio.
  destruct (Z.leb_spec 0 (- s)); [lia|]. rewrite Z.opp_involutive. f_equal. apply rne_near; [apply Z.pow_pos_nonneg; lia|done].
Qed.

(** ** Bounds *)

(** A double between two integers. *)
Definition between (lo hi : Z) (x : num) : Prop :=
  match x with Fin m e => let '(p, q) := num_ratio m e in lo * q <= p <= hi * q | _ => False end.

(** The same at any common scale. *)
Lemma between_iff lo hi m e k : 0 <= k → 0 <= e + k → between lo hi (Fin m e) ↔ lo * 2 ^ k <= m * 2 ^ (e + k) <= hi * 2 ^ k.
Proof.
  intros Hk He. unfold between, num_ratio. destruct (Z.leb_spec 0 e) as [H|H].
  - rewrite Z.pow_add_r, !Z.mul_1_r, Z.mul_assoc by lia. assert (0 < 2 ^ k) by (apply Z.pow_pos_nonneg; lia). by rewrite <- !Z.mul_le_mono_pos_r.
  - assert (E : 2 ^ k = 2 ^ (- e) * 2 ^ (e + k)) by (rewrite <- Z.pow_add_r by lia; f_equal; lia). rewrite E, !Z.mul_assoc.
    assert (0 < 2 ^ (e + k)) by (apply Z.pow_pos_nonneg; lia). by rewrite <- !Z.mul_le_mono_pos_r.
Qed.

(** Rounding does not leave the interval. *)
Lemma rnd_between p q lo hi : 0 < q → 0 <= lo → hi < 2 ^ 53 → lo * q <= p <= hi * q → between lo hi (rnd p q).
Proof.
  intros Hq Hlo Hhi Hp. unfold rnd. destruct (Z.eqb_spec p 0) as [->|Hne]; [cbn; nia|].
  destruct (Z.ltb_spec p 0); [nia|]. rewrite Z.abs_eq by lia. assert (Hp0 : 0 < p) by lia. unfold rnd_pos.
  assert (Hk : ratio_log2 p q < 53).
  { apply ratio_log2_lt; [done..|]. apply not_true_is_false. rewrite ratio_ge_true by lia. nia. }
  set (e := fexp _). assert (He : e <= 0) by (unfold e, fexp; lia). unfold mantissa. destruct (Z.leb_spec 0 e) as [H0|H0].
  - assert (e = 0) as -> by lia. change (2 ^ 0) with 1. rewrite !Z.mul_1_r. pose proof (rne_bounds p q lo hi Hq Hp).
    assert (2 ^ 53 < 2 ^ 1024) by (by vm_compute). destruct (Z.leb_spec (2 ^ 1024) (rne p q)); [lia|]. cbn. lia.
  - cbn [andb between]. unfold num_ratio. destruct (Z.leb_spec 0 e); [lia|]. assert (0 < 2 ^ (- e)) by (apply Z.pow_pos_nonneg; lia).
    apply rne_bounds; [done|]. nia.
Qed.

Lemma rnd_ratio_between m e lo hi : 0 <= lo → hi < 2 ^ 53 → between lo hi (Fin m e) →
  between lo hi (let '(p, q) := num_ratio m e in rnd p q).
Proof.
  intros Hlo Hhi Hb. unfold between in Hb at 1. destruct (num_ratio m e) as [p q] eqn:E. apply rnd_between; [|done..].
  unfold num_ratio in E. destruct (Z.leb_spec 0 e); injection E as <- <-; [lia|apply Z.pow_pos_nonneg; lia].
Qed.

Lemma between_mul x y a b c d : 0 <= a → 0 <= c → b * d < 2 ^ 53 → between a b x → between c d y → between (a * c) (b * d) (num_mul x y).
Proof.
  intros Ha Hc Hbd Hx Hy. destruct x as [| |m1 e1]; [done..|]. destruct y as [| |m2 e2]; [done..|].
  assert (E : num_mul (Fin m1 e1) (Fin m2 e2) = let '(p, q) := num_ratio (m1 * m2) (e1 + e2) in rnd p q) by (unfold num_mul, num_ratio; by destruct (0 <=? e1 + e2)).
  rewrite E. apply rnd_ratio_between; [nia|done|]. set (k1 := Z.max 0 (- e1)). set (k2 := Z.max 0 (- e2)).
  rewrite (between_iff _ _ _ _ k1) in Hx by lia. rewrite (between_iff _ _ _ _ k2) in Hy by lia. rewrite (between_iff _ _ _ _ (k1 + k2)) by lia.
  replace (e1 + e2 + (k1 + k2)) with ((e1 + k1) + (e2 + k2)) by lia. rewrite !Z.pow_add_r by lia.
  set (P1 := m1 * 2 ^ (e1 + k1)) in *. set (P2 := m2 * 2 ^ (e2 + k2)) in *. assert (0 < 2 ^ k1) by (apply Z.pow_pos_nonneg; lia). assert (0 < 2 ^ k2) by (apply Z.pow_pos_nonneg; lia).
  replace (m1 * m2 * (2 ^ (e1 + k1) * 2 ^ (e2 + k2))) with (P1 * P2) by (unfold P1, P2; ring).
  replace (a * c * (2 ^ k1 * 2 ^ k2)) with (a * 2 ^ k1 * (c * 2 ^ k2)) by ring. replace (b * d * (2 ^ k1 * 2 ^ k2)) with (b * 2 ^ k1 * (d * 2 ^ k2)) by ring.
  split; apply Z.mul_le_mono_nonneg; nia.
Qed.

Lemma between_add x y a b c d : 0 <= a + c → b + d < 2 ^ 53 → between a b x → between c d y → between (a + c) (b + d) (num_add x y).
Proof.
  intros Ha Hbd Hx Hy. destruct x as [| |m1 e1]; [done..|]. destruct y as [| |m2 e2]; [done..|]. unfold num_add. cbv zeta. set (e := Z.min e1 e2).
  apply rnd_ratio_between; [done|done|]. set (k := Z.max 0 (- e)). rewrite (between_iff _ _ _ _ k) in Hx by lia. rewrite (between_iff _ _ _ _ k) in Hy by lia. rewrite (between_iff _ _ _ _ k) by lia.
  assert (E : ∀ m f, e <= f → m * 2 ^ (f - e) * 2 ^ (e + k) = m * 2 ^ (f + k)).
  { intros m f Hf. rewrite <- Z.mul_assoc, <- Z.pow_add_r by lia. do 2 f_equal. lia. }
  rewrite !Z.mul_add_distr_r, !E by lia. lia.
Qed.

Lemma between_div x y b d : 0 <= b < 2 ^ 53 → between 0 b x → between 1 d y → between 0 b (num_div x y).
Proof.
  intros Hb Hx Hy. destruct x as [| |m1 e1]; [done..|]. destruct y as [| |m2 e2]; [done..|]. unfold num_div.
  assert (Hq : ∀ m e, 0 < (num_ratio m e).2) by (intros m e; unfold num_ratio; destruct (Z.leb_spec 0 e); cbn; [lia|apply Z.pow_pos_nonneg; lia]).
  pose proof (Hq m1 e1) as Hq1. pose proof (Hq m2 e2) as Hq2. unfold between in Hx, Hy.
  assert (Hm2 : m2 ≠ 0).
  { intros ->. unfold num_ratio in Hy, Hq2. destruct (0 <=? e2); cbn in Hy, Hq2; lia. }
  destruct (Z.eqb_spec m2 0); [done|]. destruct (num_ratio m1 e1) as [p1 q1]. destruct (num_ratio m2 e2) as [p2 q2]. cbn in Hq1, Hq2.
  destruct (Z.ltb_spec 0 p2); [|lia]. apply rnd_between; [nia|lia|lia|]. split; [nia|].
  apply (Z.le_trans _ (b * q1 * q2)); [nia|]. rewrite <- Z.mul_assoc. apply Z.mul_le_mono_nonneg_l; [lia|]. nia.
Qed.

Lemma between_int z : 0 <= z < 2 ^ 53 → between z z (num_of_Z z).
Proof. intros Hz. apply rnd_between; lia. Qed.

Lemma between_weaken x a b c d : c <= a → b <= d → between a b x → between c d x.
Proof.
  intros Hca Hbd. destruct x as [| |m e]; [done..|]. unfold between. destruct (num_ratio m e) as [p q] eqn:E.
  assert (0 < q) by (unfold num_ratio in E; destruct (Z.leb_spec 0 e); injection E as <- <-; [lia|apply Z.pow_pos_nonneg; lia]). nia.
Qed.

Lemma between_round x a b : between a b x → ∃ r, py_round x = Val r ∧ a <= r <= b.
Proof.
  destruct x as [| |m e]; [done..|]. unfold between, py_round. destruct (num_ratio m e) as [p q] eqn:E. intros Hx. eexists. split; [done|].
  apply rne_bounds; [|done]. unfold num_ratio in E. destruct (Z.leb_spec 0 e); injection E as <- <-; [lia|apply Z.pow_pos_nonneg; lia].
Qed.

(** ** The fee estimate *)

Lemma fullness_between bytes max : 0 <= bytes < 2 ^ 53 → 0 <= max → ∃ x, fullness_of bytes max = Val x ∧ between 0 1 x.
Proof.
  intros Hb Hm. unfold fullness_of. destruct (Z.eqb_spec max 0) as [->|Hne]; [eexists; split; [done|]; by vm_compute|].
  unfold true_div. destruct (Z.eqb_spec max 0); [done|]. rewrite Z.sgn_pos, Z.mul_1_r, Z.abs_eq by lia.
  assert (Hx : between 0 bytes (rnd bytes max)) by (apply rnd_between; nia). destruct (rnd bytes max) as [| |m e] eqn:E; [done..|].
  eexists. split; [done|].
  destruct (num_lt (Fin m e) (num_of_Z 1)) eqn:El; [|by vm_compute]. change (num_of_Z 1) with (Fin (2 ^ 52) (- 52)) in El. cbn [num_lt] in El.
  set (e' := Z.min e (- 52)) in *. apply Z.ltb_lt in El. rewrite (between_iff _ _ _ _ (- e')) in Hx by lia. rewrite (between_iff _ _ _ _ (- e')) by lia. rewrite <- Z.pow_add_r in El by lia.
  replace (52 + (- 52 - e')) with (- e') in El by lia. replace (e + - e') with (e - e') in * by lia. lia.
Qed.

Lemma fee_floor_between minfee : between 0 (10 ^ 6) minfee → ∃ r, fee_floor minfee = Val r ∧ 1 <= r <= 10 ^ 14.
Proof.
  intros Hf. assert (H1 : between 0 (10 ^ 14) (num_mul minfee (num_of_Z COIN))).
  { apply (between_mul _ _ 0 (10 ^ 6) COIN COIN); [done|unfold COIN; lia|unfold COIN; lia|done|apply between_int; unfold COIN; lia]. }
  destruct (between_round (num_div (num_mul minfee (num_of_Z COIN)) (num_of_Z 1000)) 0 (10 ^ 14)) as (r & E & Hr).
  { apply (between_div _ _ _ 1000); [lia|done|]. apply (between_weaken _ 1000 1000); [lia|lia|]. apply between_int. lia. }
  unfold fee_floor. rewrite E. exists (Z.max 1 r). split; [done|]. lia.
Qed.

Lemma fee_rate_between m x t : 1 <= m <= 10 ^ 14 → between 0 1 x → 1 <= t < 2 ^ 53 → ∃ r, fee_rate_of m x t = Val r ∧ m <= r <= 10 * m.
Proof.
  intros Hm Hx Ht. unfold fee_rate_of. assert (Hf : ∀ z, 0 <= z < 2 ^ 53 → to_float z = Val (num_of_Z z)).
  { intros z Hz. unfold to_float. pose proof (between_int z Hz) as H. by destruct (num_of_Z z). }
  rewrite !Hf by lia. cbn [mbind res_bind].
  assert (H1 : between 0 10 (num_div (num_of_Z 10) (num_of_Z t))).
  { apply (between_div _ _ _ t); [lia|apply (between_weaken _ 10 10); [lia|lia|apply between_int; lia]|apply (between_weaken _ t t); [lia|lia|apply between_int; lia]]. }
  assert (H2 : between (0 * 0) (1 * 10) (num_mul x (num_div (num_of_Z 10) (num_of_Z t)))) by (apply between_mul; try done; lia).
  assert (H3 : between (1 + 0) (1 + 10) (num_add (num_of_Z 1) (num_mul x (num_div (num_of_Z 10) (num_of_Z t))))).
  { apply between_add; [lia|lia|apply between_int; lia|done]. }
  destruct (between_round (num_mul (num_of_Z m) (num_add (num_of_Z 1) (num_mul x (num_div (num_of_Z 10) (num_of_Z t))))) (m * (1 + 0)) (m * (1 + 10))) as (r & E & Hr).
  { apply between_mul; [lia|lia|lia|apply between_int; lia|done]. }
  rewrite E. exists (Z.min r (m * 10)). split; [done|]. lia.
Qed.

(** C27. On a configured gateway whose node reports its mempool, with a minimum fee of at
    most a million coins and less than 2^53 bytes, and for every number of blocks one is
    ready to wait from 1 below 2^53: the estimate is an answer between the node's floor
    and ten times the floor, computed in doubles.  (Another number is answered with
    400, a text that is none with 500, a node that refuses or cannot be reached with
    502 or 500.) *)
Theorem fee_estimate_bounds {CF : Config} {LB : Libraries} (env : list event → ∀ a, answer a) (m : mempool_info) (q : http_request) (t : Z)
    (Hconf : String.eqb RPC_USER "" || String.eqb RPC_PASSWORD "" = false)
    (Hm : ∀ l, env l (Rpc (rpc_path None) GetMempoolInfo) = Answer m)
    (Hfee : between 0 (10 ^ 6) (mi_minfee m)) (Hbytes : 0 <= mi_bytes m < 2 ^ 53) (Hmax : 0 <= mi_max m)
    (Ht : int_of_str (default "6" (arg "target_blocks" (h_args q))) = Val t) (Hpos : 1 <= t < 2 ^ 53) :
  yields env (fee_estimate q) (λ r, ∃ floor rate fullness,
    r = jsonify (PDict [("target_blocks", PInt t); ("fee_rate_sat_per_vbyte", PStr (show rate));
      ("mempool_min_fee_sat_per_vbyte", PStr (show floor)); ("mempool_fullness", PFloat (round4 fullness))]) ∧
    fee_floor (mi_minfee m) = Val floor ∧ 1 <= floor ∧ floor <= rate <= 10 * floor ∧ between 0 1 fullness).
Proof.
  destruct (fee_floor_between _ Hfee) as (floor & Ef & Hf). destruct (fullness_between _ _ Hbytes Hmax) as (x & Ex & Hx).
  destruct (fee_rate_between floor x t Hf Hx Hpos) as (rate & Er & Hr). unfold fee_estimate. rewrite Ht.
  eapply (yields_bind _ _ _ (eq t)); [by apply (yields_of_res _ _ t)|]. intros _ <-. rewrite (proj2 (Z.ltb_ge t 1)) by lia.
  eapply (yields_bind _ _ _ (eq (inl m))).
  { apply yields_catch. eapply (yields_bind _ _ _ (eq m)); [|intros _ <-; by apply yields_ret]. unfold rpc_call. rewrite Hconf. by apply (yields_call env (rpc_path None) GetMempoolInfo m). }
  intros _ <-. eapply (yields_bind _ _ _ (eq floor)); [by rewrite Ef; apply (yields_of_res _ _ floor)|]. intros _ <-.
  eapply (yields_bind _ _ _ (eq x)); [by rewrite Ex; apply (yields_of_res _ _ x)|]. intros _ <-.
  eapply (yields_bind _ _ _ (eq rate)); [by apply (yields_of_res _ _ rate)|]. intros _ <-.
  apply yields_ret. exists floor, rate, x. split; [done|]. split; [done|]. split; [lia|]. by split.
Qed.

Section witnesses.
#[local] Existing Instances Pool.config Pool.libraries.

Lemma fee_estimate_bounds_witness :
  yields (Pool.env Pool.empty) (fee_estimate (Http_request "" None [("target_blocks", "2")])) (λ r, ∃ floor rate fullness,
    r = jsonify (PDict [("target_blocks", PInt 2); ("fee_rate_sat_per_vbyte", PStr (show rate));
      ("mempool_min_fee_sat_per_vbyte", PStr (show floor)); ("mempool_fullness", PFloat (round4 fullness))]) ∧
    fee_floor (Pool.cac 100000) = Val floor ∧ 1 <= floor ∧ floor <= rate <= 10 * floor ∧ between 0 1 fullness).
Proof.
  apply (fee_estimate_bounds (Pool.env Pool.empty) (Mempool_info (Pool.cac 100000) 0 300000000) (Http_request "" None [("target_blocks", "2")]) 2);
    [vm_compute; reflexivity|reflexivity|vm_compute; split; discriminate|cbn; lia|cbn; lia|vm_compute; reflexivity|lia].
Defined.

(** The floor is the nearest rate, not the next one above: with a minimum of 100,499
    satoshis per 1000 bytes and an empty mempool the estimate is 100 per byte, and a
    transaction of 1000 bytes that pays it is 499 satoshis short. *)
Theorem fee_floor_below_minimum :
  to_sat (node_amount 100499) = Val 100499 ∧ fee_floor (node_amount 100499) = Val 100 ∧
  fee_rate_of 100 (num_of_Z 0) 6 = Val 100 ∧ 100 * 1000 < 100499.
Proof. split; [vm_compute; reflexivity|]. split; [vm_compute; reflexivity|]. split; vm_compute; reflexivity. Qed.
End witnesses.

(** The gateway turns the node's decimal amounts into satoshis exactly up to 2^25
    coins (33,554,432 CAC), whatever the last digits are. *)
Theorem to_sat_exact (n : Z) (Hn : 0 <= n < 2 ^ 25 * COIN) : to_sat (node_amount n) = Val n.
Proof. by apply to_sat_small. Qed.

Lemma to_sat_exact_witness : to_sat (node_amount 2800000012345679) = Val 2800000012345679.
Proof. apply (to_sat_exact 2800000012345679). unfold COIN. lia. Defined.

(** One satoshi above this bound the gateway already reads one satoshi less: the two
    roundings add up to a half, and [round] goes to the even side. *)
Theorem to_sat_inexact : to_sat (node_amount (2 ^ 25 * COIN + 1)) = Val (2 ^ 25 * COIN).
Proof. vm_compute. reflexivity. Qed.
