(* ===== verification/GatewayAuth.v ===== *)
(** * Whose data a request can touch

    A request changes the deposits and credits of the user its token names and of
    nobody else, and without a valid token none at all.  Push subscriptions are left
    out: they are kept by their endpoint, and [upsert_subscription] gives the row of an
    endpoint to the user who registers it, whoever had it before. *)

From S2P Require Import Prelude JsString JsNum JsValue Amount Python Server GatewayDb Referral Staking GatewayServer GatewayLemmas GatewayIntegrity PoolSafety.

(** What belongs to a user. *)
Definition deposits_of (v : Z) (d : gdb) : list deposit := filter (λ x, de_user x = v) (stake_deposits d).
Definition credits_of (v : Z) (d : gdb) : list credit := filter (λ c, cr_referrer c = v) (referral_credits d).

(** Only [who] may find something changed; rewards and accounts stay as they are. *)
Definition others_kept (who : option Z) (d d' : gdb) : Prop :=
  stake_rewards d' = stake_rewards d ∧ users d `prefix_of` users d' ∧
  ∀ v, who ≠ Some v → deposits_of v d' = deposits_of v d ∧ credits_of v d' = credits_of v d.

Section auth.
  Context {CF : Config} {LB : Libraries}.

#[local] Instance others_kept_preorder who : PreOrder (others_kept who).
Proof.
  split; [intros d; by split_and!|]. intros d1 d2 d3 (A1 & A2 & A3) (B1 & B2 & B3). split; [congruence|]. split; [by etransitivity|].
  intros v Hv. destruct (A3 v Hv), (B3 v Hv). split; congruence.
Qed.

Lemma kept_tables who d d' : stake_deposits d' = stake_deposits d → stake_rewards d' = stake_rewards d → referral_credits d' = referral_credits d →
  users d `prefix_of` users d' → others_kept who d d'.
Proof. intros E1 E2 E3 E4. split; [done|]. split; [done|]. intros v _. unfold deposits_of, credits_of. by rewrite E1, E3. Qed.

(** A table in which only the rows of [u] change. *)
Lemma filter_others {A} (owner : A → Z) (f : A → A) (u v : Z) (l : list A) : (∀ x, owner (f x) = owner x) → (∀ x, owner x ≠ u → f x = x) → u ≠ v →
  filter (λ x, owner x = v) (f <$> l) = filter (λ x, owner x = v) l.
Proof.
  intros Ho Hf Huv. induction l as [|x l IH]; [done|]. rewrite fmap_cons, !filter_cons, IH, Ho. destruct (decide (owner x = v)); [|done].
  rewrite Hf by congruence. done.
Qed.

Lemma update_withdrawn_kept u now d : others_kept (Some u) d (update_withdrawn u now d).
Proof.
  split; [done|]. split; [done|]. intros v Hv. split; [|done]. unfold deposits_of, update_withdrawn. cbn [stake_deposits with_deposits].
  apply (filter_others de_user _ u); [by intros x; destruct (_ && _)| |congruence]. intros x Hx. by rewrite (proj2 (Z.eqb_neq _ _) Hx).
Qed.

Lemma update_paid_kept u now txid d : others_kept (Some u) d (update_paid u now txid d).
Proof.
  split; [done|]. split; [done|]. intros v Hv. split; [done|]. unfold credits_of, update_paid. cbn [referral_credits with_credits].
  apply (filter_others cr_referrer _ u); [by intros x; destruct (unpaid _ _)| |congruence]. intros x Hx. unfold unpaid. by rewrite (proj2 (Z.eqb_neq _ _) Hx).
Qed.

Lemma insert_deposit_kept u a now d d' i : insert_deposit u a now d = Val (d', i) → others_kept (Some u) d d'.
Proof.
  unfold insert_deposit. destruct (existsb _ _); [done|]. intros [= <- _]. split; [done|]. split; [done|]. intros v Hv. split; [|done].
  unfold deposits_of. cbn [stake_deposits with_deposits]. rewrite list.filter_app, filter_cons, decide_False by (cbn; congruence). by rewrite app_nil_r.
Qed.

(** ** Routes *)

Lemma guar_ensure_address_watched_kept who a : guar (λ _, True) (others_kept who) (ensure_address_watched a).
Proof.
  unfold ensure_address_watched. guar_tac. apply guar_execute. intros d. unfold insert_watched. destruct (existsb _ _); [reflexivity|by apply kept_tables].
Qed.

Lemma guar_with_address_kept who a k : guar (λ _, True) (others_kept who) k → guar (λ _, True) (others_kept who) (with_address a k).
Proof. intros Hk. unfold with_address. guar_tac; [apply guar_ensure_address_watched_kept]. Qed.

Lemma guar_signup_kept who q : guar (λ _, True) (others_kept who) (signup q).
Proof.
  unfold signup, check_signup, find_referrer, hash_password, issue_token. guar_tac. apply guar_try_execute; [apply _|].
  intros d d' i. unfold insert_user. destruct (existsb _ _); [done|]. intros [= <- _]. apply kept_tables; [done..|]. by eexists.
Qed.

Lemma guar_staking_withdraw_kept u a to : guar (λ _, True) (others_kept (Some u)) (Staking.withdraw u a to).
Proof.
  unfold Staking.withdraw, Staking.status_for_user, ensure_pool_wallet_loaded. guar_tac. apply guar_execute. intros d. apply update_withdrawn_kept.
Qed.
Lemma guar_referral_withdraw_kept u to : guar (λ _, True) (others_kept (Some u)) (Referral.withdraw u to).
Proof. unfold Referral.withdraw, Referral.status_for_user, ensure_admin_wallet_loaded. guar_tac. apply guar_execute. intros d. apply update_paid_kept. Qed.

(** The routes behind a token. *)
Definition protected (t : route) : bool :=
  match t with
  | Push_subscribe | Staking_status | Staking_deposit | Staking_withdraw | Referral_status | Referral_history | Referral_withdraw => true
  | _ => false
  end.

(** What a request has done. *)
Definition isolated (t : route) (q : http_request) (s : sys gdb) (r : res response) (s' : sys gdb) : Prop :=
  ∃ l, log s' = log s ++ l ∧ others_kept (caller q l) (db s) (db s') ∧
    (protected t = true → caller q l = None → (∃ m, r = Val (error "unauthorized" m 401)) ∧ db s' = db s).

Lemma open_isolated t q p s : protected t = false → guar (λ _, True) (others_kept None) p → wp (served p) (isolated t q s) s.
Proof.
  intros Ht Hp. apply wp_catch. eapply wp_mono; [|by apply (wp_guar (λ _, True) (others_kept None))]. intros r s' ((H1 & H2 & H3) & l & El & _).
  assert (H : ∀ r, isolated t q s r s'); [|destruct r; apply H]. intros r'. exists l. split; [done|]. split; [|by rewrite Ht].
  split; [done|]. split; [done|]. intros v _. by apply H3.
Qed.

Lemma authorized_isolated t q h s : (∀ u, guar (λ _, True) (others_kept (Some u)) (h u)) → wp (served (authorized q h)) (isolated t q s) s.
Proof.
  intros Hh. apply wp_catch. unfold authorized, require_auth. destruct (negb _).
  { exists []. rewrite app_nil_r. split; [done|]. split; [reflexivity|]. intros _ _. split; [by eexists|done]. }
  intros now. cbn [db log]. set (s1 := Sys (db s) (log s ++ [existT Utcnow now])).
  destruct (jwt_decode (str_slice_from (h_authorization q) 7) now) as [u|] eqn:Eu; cbn; rewrite Eu.
  - eapply wp_mono; [|apply (wp_guar (λ _, True) (others_kept (Some u))), Hh]. intros r s' (Hk & l & El & _).
    assert (H : ∀ r, isolated t q s r s'); [|destruct r; apply H]. intros r'. exists (existT Utcnow now :: l). cbn [log s1] in El. rewrite El, <- app_assoc. split; [done|].
    cbn [caller]. rewrite Eu. by split.
  - cbn. exists [existT Utcnow now]. split; [done|]. split; [reflexivity|]. intros _ _. split; [by eexists|done].
Qed.

Lemma view_isolated t q s : wp (served (view t q)) (isolated t q s) s.
Proof.
  destruct t; cbn [view]; first
    [ apply open_isolated; [done|]; unfold network_status, tx_detail, tx_reward, broadcast, fee_estimate, login, issue_token, push_vapid_public_key; by guar_tac
    | apply open_isolated; [done|]; apply guar_with_address_kept; unfold list_unspent; by guar_tac
    | apply authorized_isolated; intros u; unfold Staking.status_for_user, Referral.status_for_user, history_for_user; by guar_tac
    | idtac ].
  - apply open_isolated; [done|]. apply guar_signup_kept.
  - apply authorized_isolated. intros u. guar_tac. apply guar_try_execute; [apply _|]. intros d d' []. unfold upsert_subscription.
    do 3 setoid_rewrite res_bind_val. intros (e & _ & p & _ & k & _ & [= <-]). by apply kept_tables.
  - apply open_isolated; [done|]. unfold push_mobile_register. guar_tac. apply guar_try_execute; [apply _|]. intros d d' []. unfold upsert_registration.
    intros (e & _ & [= <-])%res_bind_val. by apply kept_tables.
  - apply authorized_isolated. intros u. unfold ensure_wallet_loaded, create_deposit, ensure_pool_wallet_loaded. guar_tac.
    apply guar_try_execute; [apply _|]. intros d d' i. apply insert_deposit_kept.
  - apply authorized_isolated. intros u. unfold checked_to. guar_tac. apply guar_catch; [|by intros [] p [= <-]]. guar_tac. apply guar_staking_withdraw_kept.
  - apply authorized_isolated. intros u. unfold checked_to. guar_tac. apply guar_catch; [|by intros [] p [= <-]]. guar_tac. apply guar_referral_withdraw_kept.
Qed.

(** C17. Whatever the route and the node's answers, a request leaves the deposits and
    credits of every user but the one its token names as they are, and all rewards
    and existing accounts; on the routes that need a token a request without a
    valid one is answered with 401 and changes nothing. *)
Theorem request_isolated (t : route) (q : http_request) (s : sys gdb) (r : res response) (s' : sys gdb)
    (He : exec (served (view t q)) s r s') : isolated t q s r s'.
Proof. eapply wp_exec; [apply view_isolated|done]. Qed.
End auth.

#[local] Existing Instances Pool.config Pool.libraries.

(** The withdrawal of the example, and the same request under a token nobody has. *)
Lemma request_isolated_witness :
  isolated Staking_withdraw (Pool.take 500000950) Pool.s4 (Pool.ask Pool.staked Staking_withdraw (Pool.take 500000950) Pool.s4).1 Pool.s5 ∧
  deposits_of 1 (db Pool.s5) ≠ deposits_of 1 (db Pool.s4) ∧
  (Pool.ask Pool.staked Staking_withdraw (Http_request "Bearer x" None []) Pool.s4).1 = Val (error "unauthorized" "Invalid or expired token" 401).
Proof.
  split; [apply (request_isolated Staking_withdraw (Pool.take 500000950) Pool.s4), run_exec|]. split; [by vm_compute|vm_compute; reflexivity].
Defined.

(** ** An account that was made can be used *)

Section login.
  Context {CF : Config} {LB : Libraries}.

Definition token_reply (u iat exp : Z) : response := jsonify (PDict [("token", PStr (jwt_encode u iat exp))]).

(** A hash that matches the password it was made of. *)
Definition honest_hash (e : event) : Prop :=
  let 'existT a x := e in
  match a return answer a → Prop with Hash_password p => λ h, check_password_hash h p = true | _ => λ _, True end x.

(** The account a successful signup has made. *)
Definition account_made (q : http_request) (r : res response) (s' : sys gdb) : Prop :=
  match r with
  | Val rep => rs_status rep = 200 → ∃ email pw text u iat exp,
      text_field (json_body q) "email" = Val email ∧ py_get (json_body q) "password" = Val pw ∧ py_str (py_or pw (PStr "")) = Val text ∧
      u ∈ users (db s') ∧ us_email u = py_lower email ∧ existT (Hash_password text) (us_password_hash u) ∈ log s' ∧
      rep = token_reply (us_id u) iat exp
  | Exc _ => True
  end.

Lemma read_signup_fields b f : read_signup b = Val f →
  ∃ email pw, text_field b "email" = Val email ∧ py_get b "password" = Val pw ∧ sf_email f = py_lower email ∧ sf_password f = py_or pw (PStr "").
Proof.
  unfold read_signup. rewrite !res_bind_val. intros (email & E1 & H). rewrite res_bind_val in H. destruct H as (pw & E2 & H).
  do 5 (rewrite res_bind_val in H; destruct H as (? & _ & H)). injection H as <-. by exists email, pw.
Qed.

Lemma signup_makes q s : wp (signup q) (account_made q) s.
Proof.
  unfold signup. destruct kyc_configured; [|done]. cbn [negb]. apply wp_bind, wp_of_res. destruct (read_signup (json_body q)) as [f|] eqn:Ef; [|done].
  destruct (read_signup_fields _ _ Ef) as (email & pw & E1 & E2 & E3 & E4). cbn [after]. apply wp_bind.
  eapply wp_mono; [|apply (wp_guar (λ _, True) eq); unfold check_signup; by guar_tac]. intros bad s1 _. destruct bad as [[m|]|]; [done| |done]. cbn [after].
  apply wp_select. destruct (user_by_email _ _); [done|]. apply wp_bind.
  eapply wp_mono; [|apply (wp_guar (λ _, True) eq); unfold find_referrer; by guar_tac]. intros ref s2 _. destruct ref as [[ref|]|]; [|done..]. cbn [after].
  apply wp_bind. eapply wp_mono; [|apply (wp_guar (λ _, True) eq); by guar_tac]. intros code s3 _. destruct code as [code|]; [|done]. cbn [after].
  apply wp_bind. unfold hash_password. apply wp_bind, wp_of_res. rewrite E4. destruct (py_str (py_or pw (PStr ""))) as [text|] eqn:Et; [|done].
  cbn [after]. intros hash. cbn [wp]. cbn [after]. intros now enc. apply wp_try_execute.
  cbn [db log]. unfold insert_user. destruct (existsb _ _); [done|]. cbn [wp]. intros iat exp _. exists email, pw, text.
  eexists _, iat, (exp + JWT_TTL_HOURS * 3600). split; [done|]. split; [done|]. split; [done|]. split; [apply elem_of_app; right; by apply list_elem_of_singleton|].
  split; [done|]. split; [cbn; set_solver|done].
Qed.

Lemma user_by_email_unique u d : NoDup (us_email <$> users d) → u ∈ users d → user_by_email (us_email u) d = Some u.
Proof.
  intros Hnd Hu. unfold user_by_email. destruct (list_find _ (users d)) as [[i v]|] eqn:E.
  - apply list_find_Some in E as (Hv & Ev & _). cbn. f_equal. apply list_elem_of_lookup in Hu as [j Hj].
    assert (i = j) as ->; [|congruence]. eapply (NoDup_lookup _ i j (us_email u) Hnd); rewrite list_lookup_fmap; [by rewrite Hv; cbn; f_equal|by rewrite Hj].
  - apply list_find_None in E. rewrite list.Forall_forall in E. exfalso. by apply (E u Hu).
Qed.

Lemma login_works q email pw text u s : text_field (json_body q) "email" = Val email → py_get (json_body q) "password" = Val pw →
  py_str (py_or pw (PStr "")) = Val text → user_by_email (py_lower email) (db s) = Some u → check_password_hash (us_password_hash u) text = true →
  wp (served (login q)) (λ r _, ∃ iat exp, r = Val (token_reply (us_id u) iat exp)) s.
Proof.
  intros E1 E2 E3 Eu Ep. apply wp_catch. unfold login. rewrite E1, E2. apply wp_select. rewrite Eu. apply wp_bind, wp_of_res.
  unfold verify_password. rewrite E3. cbn [mbind res_bind]. rewrite Ep. intros iat exp. by exists iat, (exp + JWT_TTL_HOURS * 3600).
Qed.

(** C32. Who has signed up can log in: once a signup has answered with a token, a login
    with the same address, in any case and with blanks around it, and the same
    password answers with a token of the same account, then and in every later
    database.  The hash library is taken at its word that a hash it made matches
    its password. *)
Theorem signup_then_login (q q' : http_request) (s s' s2 s3 : sys gdb) (rep : response) (r : res response)
    (Hsign : exec (signup q) s (Val rep) s') (Hok : rs_status rep = 200)
    (Hhash : Forall honest_hash (log s'))
    (Hlater : users (db s') `prefix_of` users (db s2)) (Hwf : well_formed (db s2))
    (Hemail : ∀ e, text_field (json_body q) "email" = Val e → ∃ e', text_field (json_body q') "email" = Val e' ∧ py_lower e' = py_lower e)
    (Hpw : py_get (json_body q') "password" = py_get (json_body q) "password")
    (Hlogin : exec (served (login q')) s2 r s3) :
  ∃ u iat exp iat' exp', rep = token_reply u iat exp ∧ r = Val (token_reply u iat' exp').
Proof.
  destruct (wp_exec _ _ _ _ _ (signup_makes q s) Hsign Hok) as (email & pw & text & u & iat & exp & E1 & E2 & E3 & Hu & Eu & Hh & ->).
  destruct (Hemail email E1) as (e' & E1' & El). assert (Hu2 : u ∈ users (db s2)).
  { destruct Hlater as [l ->]. apply elem_of_app. by left. }
  assert (Hf : user_by_email (py_lower e') (db s2) = Some u) by (rewrite El, <- Eu; apply user_by_email_unique; [apply Hwf|done]).
  assert (Hc : check_password_hash (us_password_hash u) text = true) by exact (proj1 (list.Forall_forall _ _) Hhash _ Hh).
  rewrite <- Hpw in E2. destruct (wp_exec _ _ _ _ _ (login_works q' e' pw text u s2 E1' E2 E3 Hf Hc) Hlogin) as (iat' & exp' & ->).
  by exists (us_id u), iat, exp, iat', exp'.
Qed.
End login.

Definition credentials (email : string) : http_request :=
  Http_request "" (Some (PDict [("email", PStr email); ("password", PStr "correct horse")])) [].

Lemma signup_then_login_witness : ∃ u iat exp iat' exp',
  (run (Pool.env Pool.empty) (signup (Pool.form "ann@x.org" "")) Pool.start).1 = Val (token_reply u iat exp) ∧
  (Pool.ask Pool.empty Login (credentials " Ann@X.org ") Pool.s4).1 = Val (token_reply u iat' exp').
Proof.
  destruct (run (Pool.env Pool.empty) (signup (Pool.form "ann@x.org" "")) Pool.start) as [[rep|e] s'] eqn:E; [|vm_compute in E; discriminate].
  pose proof (run_exec (Pool.env Pool.empty) (signup (Pool.form "ann@x.org" "")) Pool.start) as He. rewrite E in He. cbn [fst snd] in He |- *.
  destruct (signup_then_login (Pool.form "ann@x.org" "") (credentials " Ann@X.org ") Pool.start s' Pool.s4 (Pool.ask Pool.empty Login (credentials " Ann@X.org ") Pool.s4).2 rep
    (Pool.ask Pool.empty Login (credentials " Ann@X.org ") Pool.s4).1) as (u & iat & exp & iat' & exp' & -> & Hr).
  - exact He.
  - vm_compute in E. injection E as <- _. reflexivity.
  - vm_compute in E. injection E as _ <-. repeat constructor.
  - vm_compute in E. injection E as _ <-. eexists. vm_compute. reflexivity.
  - apply reachable_well_formed, pool_reachable.
  - intros e He'. vm_compute in He'. injection He' as <-. eexists. split; vm_compute; reflexivity.
  - reflexivity.
  - apply run_exec.
  - exists u, iat, exp, iat', exp'. split; [reflexivity|exact Hr].
Defined.
