(* ===== verification/StakeReward.v ===== *)
(** * The staking reward (codexacoin-core/src/pos.cpp, wallet/staking.cpp)

    The node's own reward rule: what a coinstake may pay, in 256-bit arithmetic,
    how the wallet builds a coinstake, and the check of [ConnectBlock] it has to
    pass.  Amounts are satoshis, in the 64 bits of [CAmount]; times are seconds, whose
    differences fit the 64 bits they are taken in. *)

From S2P Require Import Prelude Amount.

(** ** The rule *)

Record params := Params { nStakeRewardAnnualBP : Z; nStakeRewardAgeCapSeconds : Z; nLastPOWBlock : Z; nPremineTotal : Z }.
Definition main_params : params := Params 1368 (60 * 24 * 60 * 60) 500 (14000000000 * COIN).

(** The premine, in equal parts. *)
Definition GetProofOfWorkSubsidy (p : params) : Z :=
  if (nLastPOWBlock p <=? 0) || (nPremineTotal p <=? 0) then 0 else Z.quot (nPremineTotal p) (nLastPOWBlock p).

Definition SECONDS_PER_YEAR : Z := 31556952.
Definition int64_max : Z := 2 ^ 63 - 1.
Definition u32 (z : Z) : Z := z mod 2 ^ 32.
Definition u64 (z : Z) : Z := z mod 2 ^ 64.
(** [CAmount], in two's complement *)
Definition i64 (z : Z) : Z := (z + 2 ^ 63) mod 2 ^ 64 - 2 ^ 63.
(** [arith_uint256] *)
Definition u256 (z : Z) : Z := z mod 2 ^ 256.

Definition ComputeCoinAgeReward (valueSat ageSeconds : Z) (p : params) : Z :=
  if (valueSat <=? 0) || (ageSeconds <=? 0) then 0
  else
    let cappedAge := Z.min ageSeconds (nStakeRewardAgeCapSeconds p) in
    let coinSeconds := u256 (u64 valueSat * u64 cappedAge) in
    let numerator := u256 (coinSeconds * u64 (nStakeRewardAnnualBP p)) in
    let denominator := u256 (10000 * u64 SECONDS_PER_YEAR) in
    let reward256 := numerator / denominator in
    if int64_max <? reward256 then int64_max else u64 reward256.

Definition outpoint : Type := string * Z.
Record coin := Coin { nValue : Z; nHeight : Z }.

(** A coin the view has not is passed over; an ancestor that is not found has
    the time 0. *)
Definition input_reward (get_coin : outpoint → option coin) (ancestor_time : Z → option Z) (nTimeTx : Z) (p : params) (o : outpoint) : Z :=
  match get_coin o with
  | None => 0
  | Some c => ComputeCoinAgeReward (nValue c) (nTimeTx - default 0 (ancestor_time (nHeight c))) p
  end.
Definition GetCoinstakeMaxReward (vin : list outpoint) (get_coin : outpoint → option coin) (ancestor_time : Z → option Z)
    (nTimeTx : Z) (p : params) : Z :=
  foldl (λ nTotal o, i64 (nTotal + input_reward get_coin ancestor_time nTimeTx p o)) 0 vin.

(** The last check of [ConnectBlock]: what the coinstake pays above its inputs. *)
Definition coinstake_pays_too_much (value_out value_in nFees nMaxStakeReward : Z) : bool :=
  i64 (nFees + nMaxStakeReward) <? i64 (value_out - value_in).

(** ** The wallet *)

Record wallet_coin := Wallet_coin {
  wc_hash : string;
  wc_n : Z;
  wc_value : Z;
  wc_script : string;
  wc_block : option string               (* the block that confirmed it *)
}.
Definition prevout (c : wallet_coin) : outpoint := (wc_hash c, wc_n c).

Record coinstake_tx := Coinstake_tx { cs_time : Z; cs_vin : list outpoint; cs_vout : list (Z * string) }.

Definition CENT : Z := 1000000.
Definition GetStakeCombineThreshold : Z := 500 * COIN.
Definition GetStakeSplitThreshold : Z := 2 * GetStakeCombineThreshold.

Definition GetWalletTxOriginTime (find_block : string → option Z) (c : wallet_coin) : Z := default 0 (wc_block c ≫= find_block).

(** The loop of [SelectCoinsForStaking] over the coins that can stake. *)
Fixpoint select_coins (nTargetValue : Z) (vCoins : list wallet_coin) (nValueRet : Z) : list wallet_coin :=
  match vCoins with
  | [] => []
  | c :: rest =>
      if nTargetValue <=? nValueRet then []
      else if nTargetValue <=? wc_value c then [c]
      else if wc_value c <? i64 (nTargetValue + CENT) then c :: select_coins nTargetValue rest (i64 (nValueRet + wc_value c))
      else select_coins nTargetValue rest nValueRet
  end.
Definition SelectCoinsForStaking (nTargetValue : Z) (vCoins : list wallet_coin) : list wallet_coin := select_coins nTargetValue vCoins 0.

(** What the node asks elsewhere: the kernel's hash against the target, the
    transaction index, the script that stakes a coin with whether it needs an extra
    output for the key, the time of a block, and the order of a set of pointers. *)
Record node := Node {
  CheckKernel : Z → outpoint → bool;
  FindTx : string → bool;
  staking_script : wallet_coin → option (string * bool);
  find_block : string → option Z;
  set_order : list wallet_coin → list wallet_coin
}.
Record stake_wallet := Stake_wallet {
  sw_balance : Z;
  sw_reserve : Z;
  sw_coins : list wallet_coin;           (* AvailableCoinsForStaking *)
  sw_donation : Z;
  sw_dev_script : option string          (* when the network has a fund *)
}.

Section wallet.
  Context (N : node) (W : stake_wallet) (p : params).

Definition coin_reward (nTime : Z) (c : wallet_coin) : Z :=
  ComputeCoinAgeReward (wc_value c) (nTime - GetWalletTxOriginTime (find_block N) c) p.

(** Backward in time until the coin is a kernel; one of a kind that is not
    supported ends the search for this coin. *)
Fixpoint search_kernel (nTime : Z) (c : wallet_coin) (n : Z) (steps : nat) : option (Z * string * bool) :=
  match steps with
  | O => None
  | S steps =>
      if CheckKernel N (u32 (nTime - n)) (prevout c)
      then (λ '(script, minter), (n, script, minter)) <$> staking_script N c
      else search_kernel nTime c (n + 1) steps
  end.
Fixpoint find_kernel (nTime nSearchInterval : Z) (coins : list wallet_coin) : option (wallet_coin * (Z * string * bool)) :=
  match coins with
  | [] => None
  | c :: coins =>
      if negb (FindTx N (wc_hash c)) then find_kernel nTime nSearchInterval coins
      else
        match search_kernel nTime c 0 (Z.to_nat (Z.min nSearchInterval 60)) with
        | Some k => Some (c, k)
        | None => find_kernel nTime nSearchInterval coins
        end
  end.

(** More inputs of the kernel's key, with what they are worth and earn. *)
Record inputs := Inputs { in_vin : list outpoint; in_credit : Z; in_reward : Z }.

Definition add_input (nTime : Z) (c : wallet_coin) (i : inputs) : inputs :=
  Inputs (in_vin i ++ [prevout c]) (i64 (in_credit i + wc_value c)) (i64 (in_reward i + coin_reward nTime c)).

Fixpoint combine_inputs (nTime : Z) (kernel : wallet_coin) (script_out : string) (nAllowed : Z) (coins : list wallet_coin) (i : inputs) : inputs :=
  match coins with
  | [] => i
  | c :: coins =>
      let next := combine_inputs nTime kernel script_out nAllowed coins in
      if negb (FindTx N (wc_hash c)) then next i
      else if (String.eqb (wc_script c) (wc_script kernel) || String.eqb (wc_script c) script_out) && negb (String.eqb (wc_hash c) (wc_hash kernel))
      then
        if (10 <=? length (in_vin i))%nat then i
        else if GetStakeCombineThreshold <=? in_credit i then i
        else if nAllowed <? i64 (in_credit i + wc_value c) then i
        else if GetStakeCombineThreshold <=? wc_value c then next i
        else next (add_input nTime c i)
      else next i
  end.

(** The outputs after the empty one and the key's: the credit, in two parts when it
    is large, and the share of the fund. *)
Definition set_outputs (script : string) (nCredit : Z) (dev : option (string * Z)) : list (Z * string) :=
  let fund := match dev with Some (s, v) => [(v, s)] | None => [] end in
  if GetStakeSplitThreshold <=? nCredit
  then let half := i64 (Z.quot (Z.quot nCredit 2) CENT * CENT) in [(half, script); (i64 (nCredit - half), script)] ++ fund
  else [(nCredit, script)] ++ fund.

(** The coinstake that is then signed. *)
Definition CreateCoinStake (nTime nSearchInterval nFees : Z) : option coinstake_tx :=
  if sw_balance W <=? sw_reserve W then None
  else
    let nAllowed := i64 (sw_balance W - sw_reserve W) in
    let setCoins := set_order N (SelectCoinsForStaking nAllowed (sw_coins W)) in
    match find_kernel nTime nSearchInterval setCoins with
    | None => None
    | Some (kernel, (n, script_out, minter)) =>
        let nTime := u32 (nTime - n) in
        let i := add_input nTime kernel (Inputs [] 0 0) in
        if (in_credit i =? 0) || (nAllowed <? in_credit i) then None
        else
          let i := if minter then i else combine_inputs nTime kernel script_out nAllowed setCoins i in
          let nReward := i64 (nFees + in_reward i) in
          if nReward <? 0 then None
          else
            let script := if minter then wc_script kernel else script_out in
            let outs :=
              match sw_dev_script W with
              | Some s =>
                  if 0 <? sw_donation W
                  then let nDevCredit := Z.quot (i64 (in_reward i * sw_donation W)) 100 in
                       let nMinerCredit := i64 (nReward - nDevCredit) in
                       set_outputs script (i64 (in_credit i + nMinerCredit)) (Some (s, nDevCredit))
                  else set_outputs script (i64 (in_credit i + nReward)) None
              | None => set_outputs script (i64 (in_credit i + nReward)) None
              end in
            Some (Coinstake_tx nTime (in_vin i) ((0, "") :: (if minter then [(0, script_out)] else []) ++ outs))
    end.
End wallet.

(** ** The rule is exact *)

Definition reward_denominator : Z := 10000 * SECONDS_PER_YEAR.

(** No step wraps, whatever the parameters: 256 bits hold every product of three
    64-bit numbers, and what does not fit 64 bits in the end is capped. *)
Lemma reward_spec v a p : 0 < v <= int64_max → 0 < a → 0 < nStakeRewardAgeCapSeconds p <= int64_max → 0 <= nStakeRewardAnnualBP p <= int64_max →
  ComputeCoinAgeReward v a p =
  Z.min int64_max (v * Z.min a (nStakeRewardAgeCapSeconds p) * nStakeRewardAnnualBP p / reward_denominator).
Proof.
  intros Hv Ha Hc Hb. unfold ComputeCoinAgeReward. rewrite (proj2 (Z.leb_gt v 0)), (proj2 (Z.leb_gt a 0)) by lia. cbn [orb].
  set (m := Z.min a _). assert (Hm : 0 < m <= int64_max) by (unfold m; lia). unfold int64_max in *.
  unfold u64. rewrite !(Z.mod_small _ (2 ^ 64)) by (unfold SECONDS_PER_YEAR; lia).
  assert (H1 : 0 < v * m < 2 ^ 126) by nia. set (c := v * m) in *. unfold u256. rewrite (Z.mod_small c) by lia.
  assert (H2 : 0 <= c * nStakeRewardAnnualBP p < 2 ^ 189) by nia. rewrite (Z.mod_small (c * _)) by lia.
  change (10000 * SECONDS_PER_YEAR mod 2 ^ 256) with reward_denominator.
  set (q := c * _ / _). assert (0 <= q) by (apply Z.div_pos; [lia|unfold reward_denominator, SECONDS_PER_YEAR; lia]).
  destruct (Z.ltb_spec (2 ^ 63 - 1) q); [lia|]. rewrite Z.mod_small by lia. lia.
Qed.

Lemma reward_main v a : v <= int64_max →
  ComputeCoinAgeReward v a main_params = Z.max 0 v * Z.max 0 (Z.min a (60 * 24 * 60 * 60)) * 1368 / reward_denominator.
Proof.
  intros Hv. destruct (Z.leb_spec v 0) as [Hv0|Hv0]; [|destruct (Z.leb_spec a 0) as [Ha|Ha]].
  - unfold ComputeCoinAgeReward. rewrite (proj2 (Z.leb_le v 0)) by done. by rewrite Z.max_l by done.
  - unfold ComputeCoinAgeReward. rewrite (proj2 (Z.leb_le a 0)), orb_true_r by done. rewrite (Z.max_l 0 (Z.min _ _)) by lia. by rewrite Z.mul_0_r.
  - rewrite reward_spec by (cbn; unfold int64_max in *; lia). cbn [nStakeRewardAgeCapSeconds nStakeRewardAnnualBP main_params].
    rewrite !Z.max_r by lia. apply Z.min_r. set (m := Z.min a _). assert (0 < m <= 5184000) by lia.
    assert (v * m * 1368 / reward_denominator <= v); [|lia]. apply Z.div_le_upper_bound; [done|]. unfold reward_denominator, SECONDS_PER_YEAR. nia.
Qed.

(** A reward is at most a forty-fourth of its coin, and grows with the age. *)
Lemma reward_bounds v a : v <= int64_max → 0 <= ComputeCoinAgeReward v a main_params ∧ 44 * ComputeCoinAgeReward v a main_params <= Z.max 0 v.
Proof.
  intros Hv. rewrite reward_main by done. set (w := Z.max 0 v). set (m := Z.max 0 (Z.min _ _)). assert (0 <= w) by lia. assert (0 <= m <= 5184000) by lia.
  split; [apply Z.div_pos; [nia|done]|]. set (q := _ / _). assert (reward_denominator * q <= w * m * 1368) by (by apply Z.mul_div_le).
  unfold reward_denominator, SECONDS_PER_YEAR in *. nia.
Qed.
Lemma reward_mono v a b : v <= int64_max → a <= b → ComputeCoinAgeReward v a main_params <= ComputeCoinAgeReward v b main_params.
Proof. intros Hv Hab. rewrite !reward_main by done. apply Z.div_le_mono; [done|]. apply Z.mul_le_mono_nonneg_r; [done|]. apply Z.mul_le_mono_nonneg_l; lia. Qed.

(** C23. What a coinstake may pay is the coin-age formula, exactly, for every coin and
    every age: nothing wraps, the cap at 64 bits is never met, and the reward is
    less than a forty-fourth of the coin. *)
Theorem reward_exact (v a : Z) (Hv : 0 < v <= int64_max) (Ha : 0 < a <= int64_max) :
  ComputeCoinAgeReward v a main_params = v * Z.min a (60 * 24 * 60 * 60) * 1368 / (10000 * 31556952) ∧
  0 <= ComputeCoinAgeReward v a main_params ∧ 44 * ComputeCoinAgeReward v a main_params <= v.
Proof.
  destruct (reward_bounds v a) as [H1 H2]; [lia|]. rewrite Z.max_r in H2 by lia. split; [|done].
  rewrite reward_main by lia. by rewrite !Z.max_r by lia.
Qed.

(** The test vector of test/pos_tests.cpp: a block's premine share after 500 s. *)
Lemma reward_exact_witness : ComputeCoinAgeReward (28000000 * COIN) 500 main_params = 6069027198 ∧
  44 * ComputeCoinAgeReward (28000000 * COIN) 500 main_params <= 28000000 * COIN.
Proof.
  split; [vm_compute; reflexivity|].
  apply (reward_exact (28000000 * COIN) 500); split; vm_compute; (reflexivity || discriminate).
Defined.

(** Staking parts of a coin apart never earns more than staking it whole. *)
Theorem splitting_gains_nothing (vs : list Z) (a : Z) (Hpos : Forall (λ v, 0 <= v) vs) (Hsum : sum_Z vs <= int64_max) :
  sum_Z ((λ v, ComputeCoinAgeReward v a main_params) <$> vs) <= ComputeCoinAgeReward (sum_Z vs) a main_params.
Proof.
  assert (Hn : ∀ l, Forall (λ v, 0 <= v) l → 0 <= sum_Z l).
  { induction 1; [done|]. rewrite sum_Z_cons. lia. }
  induction Hpos as [|v vs Hv Hvs IH]; [apply reward_bounds; done|]. rewrite fmap_cons, !sum_Z_cons in *. specialize (Hn vs Hvs).
  etransitivity; [apply Z.add_le_mono_l, IH; lia|]. rewrite !reward_main by lia. rewrite !(Z.max_r 0 (_ + _)), !(Z.max_r 0 v), !(Z.max_r 0 (sum_Z vs)) by lia.
  set (m := Z.max 0 _). assert (E : (v + sum_Z vs) * m * 1368 = v * m * 1368 + sum_Z vs * m * 1368) by lia. rewrite E.
  set (x := v * m * 1368). set (y := sum_Z vs * m * 1368). apply Z.div_le_lower_bound; [done|].
  pose proof (Z.mul_div_le x reward_denominator eq_refl). pose proof (Z.mul_div_le y reward_denominator eq_refl). lia.
Qed.

Lemma splitting_gains_nothing_witness :
  sum_Z ((λ v, ComputeCoinAgeReward v 1000 main_params) <$> [300 * COIN; 200 * COIN]) <= ComputeCoinAgeReward (500 * COIN) 1000 main_params.
Proof. apply (splitting_gains_nothing [300 * COIN; 200 * COIN] 1000); [repeat constructor; vm_compute; discriminate|vm_compute; discriminate]. Defined.

(** ** What the wallet builds is accepted *)

Lemma i64_small z : - 2 ^ 63 <= z < 2 ^ 63 → i64 z = z.
Proof. intros Hz. unfold i64. rewrite Z.mod_small by lia. lia. Qed.

Lemma select_coins_sub t l v : select_coins t l v ⊆ l.
Proof.
  revert v. induction l as [|c l IH]; intros v; cbn [select_coins]; [done|]. destruct (t <=? v); [set_solver|]. destruct (t <=? wc_value c); [set_solver|].
  destruct (_ <? _); [specialize (IH (i64 (v + wc_value c))); set_solver|specialize (IH v); set_solver].
Qed.

Lemma find_kernel_in N nTime k l c x : find_kernel N nTime k l = Some (c, x) → c ∈ l.
Proof.
  induction l as [|d l IH]; cbn [find_kernel]; [done|]. destruct (negb _); [intros ?%IH; by right|].
  destruct (search_kernel _ _ _ _ _); [intros [= <- <-]; by left|intros ?%IH; by right].
Qed.

Section accepted.
  Context (N : node) (W : stake_wallet).
  Context (get_coin : outpoint → option coin) (ancestor_time : Z → option Z).

(** The chain has every coin of the wallet, in the block that confirmed it.  The
    amounts stay below forty billion coins, near three times the premine: above it
    the share of the fund no longer fits the 64 bits it is computed in. *)
Definition max_supply : Z := 40000000000 * COIN.
Definition coin_known (c : wallet_coin) : Prop :=
  0 <= wc_value c <= max_supply ∧
  ∃ h, get_coin (prevout c) = Some (Coin (wc_value c) h) ∧ ancestor_time h = wc_block c ≫= find_block N.

Definition value_in (vin : list outpoint) : Z := sum_Z ((λ o, match get_coin o with Some c => nValue c | None => 0 end) <$> vin).

(** What the coins of some outpoints earn, by the rule. *)
Definition earned (nTime : Z) (vin : list outpoint) : Z := sum_Z (input_reward get_coin ancestor_time nTime main_params <$> vin).
Definition known_in (vin : list outpoint) : Prop := Forall (λ o, ∃ c, prevout c = o ∧ coin_known c) vin.

(** What the inputs add up to, and what they may pay. *)
Definition inputs_ok (nTime : Z) (i : inputs) : Prop :=
  in_credit i = value_in (in_vin i) ∧ in_reward i = earned nTime (in_vin i) ∧ known_in (in_vin i) ∧ value_in (in_vin i) <= max_supply.

Lemma earned_bounds nTime vin : known_in vin → 0 <= earned nTime vin ∧ 44 * earned nTime vin <= value_in vin.
Proof.
  unfold earned, value_in. induction 1 as [|o vin (c & <- & Hc & h & E & _) _ IH]; [done|]. rewrite !fmap_cons, !sum_Z_cons.
  unfold input_reward at 1 3. rewrite E. cbn [nValue nHeight]. destruct (reward_bounds (wc_value c) (nTime - default 0 (ancestor_time h))); unfold max_supply, int64_max, COIN in *; lia.
Qed.

(** The node's own sum does not wrap. *)
Lemma max_reward_earned nTime vin : known_in vin → value_in vin <= max_supply →
  GetCoinstakeMaxReward vin get_coin ancestor_time nTime main_params = earned nTime vin.
Proof.
  intros Hk Hv. destruct (earned_bounds nTime vin Hk) as [_ Hb]. unfold GetCoinstakeMaxReward, earned in *.
  assert (H : ∀ n, 0 <= n → n + sum_Z (input_reward get_coin ancestor_time nTime main_params <$> vin) <= int64_max →
    foldl (λ n o, i64 (n + input_reward get_coin ancestor_time nTime main_params o)) n vin =
    n + sum_Z (input_reward get_coin ancestor_time nTime main_params <$> vin)); [|apply H; unfold max_supply, int64_max, COIN in *; lia].
  clear Hv Hb. induction Hk as [|o vin Ho Hk IH]; intros n Hn Hm; cbn [foldl]; [cbn in *; lia|]. rewrite fmap_cons, sum_Z_cons in *.
  pose proof (proj1 (earned_bounds nTime [o] (Forall_cons_2 _ _ _ Ho (Forall_nil_2 _)))) as H0. pose proof (proj1 (earned_bounds nTime vin Hk)) as H1.
  unfold earned in *. cbn [fmap list_fmap] in H0. rewrite sum_Z_cons in H0. change (sum_Z []) with 0 in H0. unfold int64_max in *.
  rewrite i64_small, IH by lia. lia.
Qed.

Lemma add_input_ok nTime c i : coin_known c → inputs_ok nTime i → in_credit i + wc_value c <= max_supply →
  inputs_ok nTime (add_input N main_params nTime c i).
Proof.
  intros Hc (H1 & H2 & H3 & H4) Hm. pose proof Hc as (Hv & h & E & Eh). unfold inputs_ok. cbn [in_vin in_credit in_reward add_input].
  assert (Hk : known_in (in_vin i ++ [prevout c])) by (apply Forall_app; split; [done|]; constructor; [by exists c|constructor]).
  assert (Ev : value_in (in_vin i ++ [prevout c]) = in_credit i + wc_value c).
  { rewrite H1. unfold value_in. rewrite fmap_app, sum_Z_app. cbn [fmap list_fmap]. rewrite E, sum_Z_cons. cbn. lia. }
  assert (Ee : earned nTime (in_vin i ++ [prevout c]) = in_reward i + coin_reward N main_params nTime c).
  { rewrite H2. unfold earned. rewrite fmap_app, sum_Z_app. cbn [fmap list_fmap]. unfold input_reward at 2. rewrite E, sum_Z_cons. change (sum_Z []) with 0.
    unfold coin_reward, GetWalletTxOriginTime. rewrite <- Eh. cbn [nValue nHeight]. lia. }
  destruct (earned_bounds nTime _ H3), (earned_bounds nTime _ Hk). rewrite Ev, Ee in *. unfold max_supply, COIN in *. rewrite !i64_small by lia. done.
Qed.

Lemma combine_inputs_ok nTime kernel script a coins : Forall coin_known coins →
  ∀ i, inputs_ok nTime i → inputs_ok nTime (combine_inputs N main_params nTime kernel script a coins i).
Proof.
  induction 1 as [|c coins Hc _ IH]; intros i Hi; cbn [combine_inputs]; [done|]. destruct (negb _); [auto|]. destruct (_ && _); [|auto].
  destruct (_ <=? _)%nat; [done|]. destruct (Z.leb_spec GetStakeCombineThreshold (in_credit i)); [done|]. destruct (_ <? _); [done|].
  destruct (Z.leb_spec GetStakeCombineThreshold (wc_value c)); [auto|]. apply IH, add_input_ok; [done..|].
  unfold GetStakeCombineThreshold, max_supply, COIN in *. lia.
Qed.

Lemma set_outputs_sum script c dev : 0 <= c <= int64_max →
  sum_Z (set_outputs script c dev).*1 = c + match dev with Some (_, v) => v | None => 0 end.
Proof.
  intros Hc. unfold set_outputs. assert (Hh : 0 <= Z.quot (Z.quot c 2) CENT * CENT <= c).
  { unfold CENT. rewrite !Z.quot_div_nonneg by (try apply Z.quot_pos; lia). Z.to_euclidean_division_equations. lia. }
  unfold int64_max in *. rewrite !i64_small by (rewrite ?i64_small by lia; lia).
  destruct (_ <=? c), dev as [[s v]|]; cbn [fmap list_fmap Datatypes.app fst]; rewrite ?sum_Z_cons; change (sum_Z []) with 0; lia.
Qed.

Lemma earned_mono vin t t' : known_in vin → t <= t' → earned t vin <= earned t' vin.
Proof.
  unfold earned. intros Hv Ht. induction Hv as [|o vin (c & <- & (Hc & h & E & _)) _ IH]; [done|]. rewrite !fmap_cons, !sum_Z_cons. apply Z.add_le_mono; [|exact IH].
  unfold input_reward. rewrite E. apply reward_mono; [cbn; unfold max_supply, int64_max, COIN in *; lia|lia].
Qed.

(** What the wallet pays out of the inputs, the fees and the reward. *)
Lemma outputs_sum script i nFees : 0 <= in_credit i <= max_supply → 0 <= in_reward i → 44 * in_reward i <= in_credit i →
  0 <= nFees <= max_supply → 0 <= sw_donation W <= 100 →
  let nReward := i64 (nFees + in_reward i) in
  nReward = nFees + in_reward i ∧
  sum_Z (match sw_dev_script W with
         | Some s =>
             if 0 <? sw_donation W
             then let nDevCredit := Z.quot (i64 (in_reward i * sw_donation W)) 100 in
                  let nMinerCredit := i64 (nReward - nDevCredit) in
                  set_outputs script (i64 (in_credit i + nMinerCredit)) (Some (s, nDevCredit))
             else set_outputs script (i64 (in_credit i + nReward)) None
         | None => set_outputs script (i64 (in_credit i + nReward)) None
         end).*1 = in_credit i + nFees + in_reward i.
Proof.
  intros Hc Hr Hb Hf Hd nReward. assert (Er : nReward = nFees + in_reward i) by (unfold nReward, max_supply, COIN in *; rewrite i64_small; lia). split; [done|].
  rewrite Er. clear nReward Er. assert (Hw : in_reward i * sw_donation W <= 100 * in_reward i) by nia.
  assert (Hp : 0 <= Z.quot (i64 (in_reward i * sw_donation W)) 100 <= in_reward i).
  { unfold max_supply, COIN in *. rewrite i64_small by nia. rewrite Z.quot_div_nonneg by nia. split; [apply Z.div_pos; nia|]. apply Z.div_le_upper_bound; lia. }
  set (dev := Z.quot _ 100) in *. cbv zeta. unfold max_supply, COIN in *.
  destruct (sw_dev_script W); [destruct (_ <? _)|]; rewrite !i64_small by (rewrite ?i64_small by lia; lia);
    rewrite set_outputs_sum by (unfold int64_max; lia); lia.
Qed.

(** C10. The coinstakes the wallet builds are accepted: their outputs pay their inputs,
    the block's fees and, to the satoshi, the reward [ConnectBlock] allows at the
    coinstake's own time, in every combination of inputs, split and donation; and a
    block whose time is later allows no less.  No amount wraps as long as each coin
    and the fees are below forty billion coins and at most all of the reward is
    donated, as the wallet's own limit of 95 percent has it. *)
Theorem coinstake_accepted (nTime nSearchInterval nFees blockTime : Z) (tx : coinstake_tx)
    (Hset : ∀ l, set_order N l ⊆ l) (Hknown : Forall coin_known (sw_coins W))
    (Hfees : 0 <= nFees <= max_supply) (Hdonation : 0 <= sw_donation W <= 100)
    (Htx : CreateCoinStake N W main_params nTime nSearchInterval nFees = Some tx) (Htime : cs_time tx <= blockTime) :
  sum_Z (cs_vout tx).*1 = value_in (cs_vin tx) + nFees + GetCoinstakeMaxReward (cs_vin tx) get_coin ancestor_time (cs_time tx) main_params ∧
  coinstake_pays_too_much (sum_Z (cs_vout tx).*1) (value_in (cs_vin tx)) nFees
    (GetCoinstakeMaxReward (cs_vin tx) get_coin ancestor_time blockTime main_params) = false.
Proof.
  unfold CreateCoinStake in Htx. destruct (_ <=? _); [done|]. set (coins := set_order N _) in *.
  assert (Hcoins : Forall coin_known coins).
  { apply list.Forall_forall. intros c Hc. rewrite list.Forall_forall in Hknown. apply Hknown, (select_coins_sub (i64 (sw_balance W - sw_reserve W)) _ 0), Hset, Hc. }
  destruct (find_kernel N nTime nSearchInterval coins) as [[kernel [[n script_out] minter]]|] eqn:Ek; [|done].
  assert (Hk : coin_known kernel) by (rewrite list.Forall_forall in Hcoins; eapply Hcoins, find_kernel_in, Ek).
  set (t := u32 (nTime - n)) in *. set (i0 := add_input N main_params t kernel _) in *. destruct (_ || _); [done|].
  set (i := if minter then i0 else _) in *. assert (Hi : inputs_ok t i).
  { assert (H0 : inputs_ok t i0) by (apply add_input_ok; [done|split_and!; done || constructor|destruct Hk as [? _]; cbn; lia]).
    unfold i. destruct minter; [done|by apply combine_inputs_ok]. }
  destruct Hi as (Hi1 & Hi2 & Hi3 & Hi4). destruct (earned_bounds t _ Hi3) as [Hr Hb]. rewrite <- Hi1, <- Hi2 in *.
  destruct (_ <? 0); [done|]. injection Htx as <-. cbn [cs_time cs_vin cs_vout] in *.
  destruct (outputs_sum (if minter then wc_script kernel else script_out) i nFees ltac:(lia) Hr Hb Hfees Hdonation) as [_ Ho].
  set (outs := match sw_dev_script W with Some _ => _ | None => _ end) in *.
  assert (Hs : sum_Z ((0, "") :: (if minter then [(0, script_out)] else []) ++ outs).*1 = in_credit i + nFees + in_reward i).
  { rewrite fmap_cons, fmap_app, sum_Z_cons, sum_Z_app. rewrite Ho. destruct minter; cbn; lia. }
  rewrite Hs, !max_reward_earned, <- Hi1, <- Hi2 by (done || lia). split; [done|]. apply Z.ltb_ge.
  pose proof (earned_mono (in_vin i) t blockTime Hi3 Htime). destruct (earned_bounds blockTime _ Hi3). unfold max_supply, COIN in *.
  rewrite !i64_small by lia. lia.
Qed.
End accepted.

Module Staker.
Definition coins : list wallet_coin := [Wallet_coin "a" 0 (400 * COIN) "key" (Some "b1"); Wallet_coin "b" 1 (200 * COIN) "key" (Some "b2")].
Definition node : node := Node (λ _ o, String.eqb o.1 "a") (λ _, true) (λ c, Some (wc_script c, false))
  (λ b, if String.eqb b "b1" then Some 1700000000 else Some 1700100000) (λ l, l).
Definition wallet : stake_wallet := Stake_wallet (600 * COIN) 0 coins 20 (Some "fund").
Definition get_coin (o : outpoint) : option coin := if String.eqb o.1 "a" then Some (Coin (400 * COIN) 1) else Some (Coin (200 * COIN) 2).
Definition ancestor_time (h : Z) : option Z := if h =? 1 then Some 1700000000 else Some 1700100000.
Definition made : option coinstake_tx := CreateCoinStake node wallet main_params 1702000000 1 1000.
End Staker.

Lemma coinstake_accepted_witness : ∃ tx, Staker.made = Some tx ∧ length (cs_vin tx) = 2%nat ∧ length (cs_vout tx) = 3%nat ∧
  sum_Z (cs_vout tx).*1 = value_in Staker.get_coin (cs_vin tx) + 1000 +
    GetCoinstakeMaxReward (cs_vin tx) Staker.get_coin Staker.ancestor_time (cs_time tx) main_params.
Proof.
  eexists. split; [vm_compute; reflexivity|]. split; [reflexivity|]. split; [reflexivity|].
  apply (coinstake_accepted Staker.node Staker.wallet Staker.get_coin Staker.ancestor_time 1702000000 1 1000 1702000016); [done| |by vm_compute|by vm_compute|vm_compute; reflexivity|cbn; lia].
  constructor; [split; [by vm_compute|exists 1; by vm_compute]|]. constructor; [split; [by vm_compute|exists 2; by vm_compute]|constructor].
Defined.

(** A coin whose block is not found has the origin 0: it is taken to be of the
    greatest age that counts, not of age 0, and earns the reward of sixty days. *)
Theorem origin_unknown_earns_most (N : node) (c : wallet_coin) (nTime : Z)
    (Hb : wc_block c ≫= find_block N = None) (Ht : 60 * 24 * 60 * 60 <= nTime) (Hv : wc_value c <= int64_max) :
  coin_reward N main_params nTime c = ComputeCoinAgeReward (wc_value c) (60 * 24 * 60 * 60) main_params.
Proof.
  unfold coin_reward, GetWalletTxOriginTime. rewrite Hb. cbn [default]. rewrite !reward_main by done. by rewrite Z.sub_0_r, (Z.min_r nTime) by done.
Qed.

Lemma origin_unknown_earns_most_witness :
  coin_reward Staker.node main_params 1702000000 (Wallet_coin "a" 0 (400 * COIN) "key" None) = 898909628.
Proof.
  rewrite (origin_unknown_earns_most Staker.node (Wallet_coin "a" 0 (400 * COIN) "key" None) 1702000000); [vm_compute; reflexivity|reflexivity|lia|vm_compute; discriminate].
Defined.
