(* ===== verification/ExplorerServer.v ===== *)
(** * The explorer's backend (explorer/app.py, explorer/rpc.py)

    It keeps no data: every route asks the node and answers. *)

From Stdlib Require Import Sorted.
From S2P Require Import Prelude JsString JsNum JsValue Amount Python Server GatewayDb Referral Staking GatewayServer StakeReward.

(** A body with the value a handler gives as the status. *)
Record explorer_reply := Explorer_reply { er_status : py; er_body : py }.

Section explorer.
  Context (configured : bool) (RICHLIST_MAX_BLOCKS : Z).

Definition explorer_call (c : call) : prog unit (result_of c) :=
  if configured then call_node "/" c
  else Raise (RpcError (-1) "Explorer is not configured (missing CAC_RPC_USER/CAC_RPC_PASSWORD)").

Definition answered (body : py) : explorer_reply := Explorer_reply (PInt 200) body.
(** [error(message, status)] *)
Definition explorer_error (message : string) (status : py) : explorer_reply :=
  Explorer_reply status (PDict [("error", PStr message)]).

Definition LAST_POW_BLOCK : Z := 500.
Definition POW_BLOCK_SUBSIDY_SATS : Z := 28000000 * COIN.
Definition PREMINE_TOTAL_SATS : Z := 500 * POW_BLOCK_SUBSIDY_SATS.

(** The same test as the gateway's. *)
Definition is_coinstake_tx : rpc_tx → bool := _is_coinstake.

Definition is_coinbase (i : rpc_in) : bool := match i with In_coinbase _ => true | In_spends _ _ _ => false end.
Definition is_coinbase_tx (tx : rpc_tx) : bool := match rt_vin tx with i :: _ => is_coinbase i | [] => false end.

Definition summarize_tx (block_time : Z) (tx : rpc_tx) : res py :=
  out_total_sats ← out_total (rt_vout tx);
  mret (PDict [("txid", PStr (rt_txid tx)); ("is_coinbase", PBool (is_coinbase_tx tx)); ("is_coinstake", PBool (is_coinstake_tx tx));
    ("vin_count", PInt (Z.of_nat (length (rt_vin tx)))); ("vout_count", PInt (Z.of_nat (length (rt_vout tx))));
    ("output_total_satoshis", PStr (show out_total_sats)); ("time", PInt (default block_time (rt_time tx)))]).

Definition minted_from_pow (height : Z) : Z := Z.min height LAST_POW_BLOCK * POW_BLOCK_SUBSIDY_SATS.

Definition stats : prog unit explorer_reply :=
  info ← explorer_call GetBlockchainInfo;
  let height := ci_blocks info in
  mret (answered (PDict [("height", PInt height); ("best_block_hash", PStr (ci_best info)); ("difficulty", PFloat (ci_difficulty info));
    ("chain", PStr (ci_chain info)); ("pow_window_blocks", PInt LAST_POW_BLOCK); ("pow_blocks_mined", PInt (Z.min height LAST_POW_BLOCK));
    ("pow_phase_complete", PBool (LAST_POW_BLOCK <=? height)); ("premine_total_satoshis", PStr (show PREMINE_TOTAL_SATS));
    ("minted_from_pow_satoshis", PStr (show (minted_from_pow height)))])).

(** [re.fullmatch(r"[0-9]+", s)] *)
Definition is_height (s : string) : bool :=
  negb (String.eqb s "") && forallb (λ c, (48 <=? code c) && (code c <=? 57)) (chars s).
(** [re.fullmatch(r"[0-9a-fA-F]{64}", s)] *)
Definition is_hash (s : string) : bool :=
  (length (chars s) =? 64)%nat &&
  forallb (λ c, ((48 <=? code c) && (code c <=? 57)) || ((97 <=? code c) && (code c <=? 102)) || ((65 <=? code c) && (code c <=? 70))) (chars s).

Definition find_block (ident : string) : prog unit (option rpc_block) :=
  catch (block_hash ← (if is_height ident then h ← of_res (int_of_str ident); explorer_call (GetBlockHash h) else mret ident);
         block ← explorer_call (GetBlock block_hash 2);
         mret (Some block))
    (except_rpc (λ _ _, mret None)).

Definition block_detail (ident : string) : prog unit explorer_reply :=
  found ← find_block ident;
  match found with
  | None => mret (explorer_error "No such block" (PInt 404))
  | Some block =>
      txs ← of_res (mapM (summarize_tx (rb_time block)) (rb_tx block));
      let is_pos := bool_decide (rb_flags block = Some "proof-of-stake") ||
                    match rb_tx block with tx :: _ => is_coinstake_tx tx | [] => false end in
      mret (answered (PDict [("hash", PStr (rb_hash block)); ("height", PInt (rb_height block)); ("time", PInt (rb_time block));
        ("difficulty", PFloat (rb_difficulty block)); ("bits", PStr (rb_bits block)); ("version", PInt (rb_version block));
        ("merkleroot", PStr (rb_merkleroot block)); ("previousblockhash", opt_py PStr (rb_prev block));
        ("nextblockhash", opt_py PStr (rb_next block)); ("is_proof_of_stake", PBool is_pos);
        ("tx_count", PInt (Z.of_nat (length txs))); ("transactions", PList txs)]))
  end.

Definition explorer_tx (txid : string) : prog unit rpc_tx := explorer_call (GetRawTransaction txid).

Definition explorer_tx_detail (txid : string) : prog unit explorer_reply :=
  found ← catch (tx ← explorer_tx txid; mret (Some tx)) (except_rpc (λ _ _, mret None));
  match found with
  | None => mret (explorer_error "No such transaction" (PInt 404))
  | Some tx =>
      reward ← (if is_coinstake_tx tx
                then out ← of_res (out_total (rt_vout tx)); inp ← in_total explorer_tx (rt_vin tx); mret (Some (out - inp))
                else mret None);
      height ← (match rt_blockhash tx with
                | Some h => block ← explorer_call (GetBlock h 1); mret (Some (rb_height block))
                | None => mret None
                end);
      mret (answered (PDict [("txid", PStr txid); ("height", opt_py PInt height); ("blockhash", opt_py PStr (rt_blockhash tx));
        ("confirmations", PInt (default 0 (rt_confirmations tx))); ("time", opt_py PInt (rt_time tx));
        ("is_coinbase", PBool (is_coinbase_tx tx)); ("is_coinstake", PBool (is_coinstake_tx tx));
        ("reward_satoshis", opt_py (λ z, PStr (show z)) reward);
        ("vin", PList (in_raw <$> rt_vin tx)); ("vout", PList (out_raw <$> rt_vout tx))]))
  end.

Definition scanned_entry (u : scanned) : res (Z * py) :=
  v ← to_sat (sc_amount u);
  mret (v, PDict [("txid", PStr (sc_txid u)); ("vout", PInt (sc_vout u)); ("value_satoshis", PStr (show v));
    ("height", opt_py PInt (sc_height u)); ("is_coinbase_or_coinstake", PBool (default false (sc_coinbase u)))]).

Definition address_note : string :=
  "Current balance/UTXOs only -- this explorer has no full transaction-history index (see app.py's module docstring); spent/historical transactions for this address aren't shown here.".

Definition address_detail (address : string) : prog unit explorer_reply :=
  found ← catch (r ← explorer_call (ScanTxOutSet ("addr(" +:+ address +:+ ")")); mret (inl r))
    (except_rpc (λ _ message, mret (inr (explorer_error ("Lookup failed: " +:+ message) (PInt 400)))));
  match found with
  | inr err => mret err
  | inl result =>
      if negb (scan_success result) then mret (explorer_error "Scan did not complete, try again" (PInt 503))
      else
        utxos ← of_res (mapM scanned_entry (scan_unspents result));
        mret (answered (PDict [("address", PStr address); ("balance_satoshis", PStr (show (sum_Z utxos.*1)));
          ("utxo_count", PInt (Z.of_nat (length utxos))); ("utxos", PList utxos.*2); ("scanned_at_height", PInt (scan_height result));
          ("note", PStr address_note)]))
  end.

Definition found_as (kind q : string) : explorer_reply := answered (PDict [("type", PStr kind); ("id", PStr q)]).

Definition search (r : http_request) : prog unit explorer_reply :=
  let q := py_strip (default "" (arg "q" (h_args r))) in
  if String.eqb q "" then mret (explorer_error "Provide ?q=<height|block hash|txid|address>" (PInt 400))
  else if is_height q then mret (found_as "block" q)
  else if is_hash q then
    block ← catch (A := bool) (_ ← explorer_call (GetBlock q 1); mret true) (except_rpc (λ _ _, mret false));
    if block : bool then mret (found_as "block" q)
    else
      catch (_ ← explorer_tx q; mret (found_as "tx" q))
        (except_rpc (λ _ _, mret (explorer_error "No block or transaction found with that hash" (PInt 404))))
  else mret (found_as "address" q).

(** ** The richest addresses *)

(** [balances[addr] = balances.get(addr, 0) + v], in the order of first use. *)
Fixpoint credit_to (addr : string) (v : Z) (balances : list (string * Z)) : list (string * Z) :=
  match balances with
  | [] => [(addr, v)]
  | (a, b) :: l => if String.eqb a addr then (a, b + v) :: l else (a, b) :: credit_to addr v l
  end.

(** The address an output counts for: none when it is missing or empty. *)
Definition addressed (o : rpc_out) : option string :=
  match out_address o with Some "" | None => None | Some a => Some a end.

Definition credit_out (sign : Z) (balances : list (string * Z)) (o : rpc_out) : prog unit (list (string * Z)) :=
  match addressed o with
  | None => mret balances
  | Some addr => v ← of_res (to_sat (out_value o)); mret (credit_to addr (sign * v) balances)
  end.

Definition debit_in (balances : list (string * Z)) (vin : rpc_in) : prog unit (list (string * Z)) :=
  match vin with
  | In_coinbase _ => Raise (PyError "KeyError")
  | In_spends txid vout _ =>
      found ← catch (tx ← explorer_tx txid; mret (Some tx)) (except_rpc (λ _ _, mret None));
      match found with
      | None => mret balances
      | Some prevtx => prevout ← of_res (py_index (rt_vout prevtx) vout); credit_out (-1) balances prevout
      end
  end.

Definition scan_tx (balances : list (string * Z)) (tx : rpc_tx) : prog unit (list (string * Z)) :=
  balances ← fold_in (credit_out 1) balances (rt_vout tx);
  match rt_vin tx with
  | [] => Raise (PyError "IndexError")
  | i :: _ => if is_coinbase i then mret balances else fold_in debit_in balances (rt_vin tx)
  end.

Definition scan_block (balances : list (string * Z)) (h : Z) : prog unit (list (string * Z)) :=
  block_hash ← explorer_call (GetBlockHash h);
  block ← explorer_call (GetBlock block_hash 2);
  fold_in scan_tx balances (rb_tx block).

(** [range(a, b)] *)
Definition py_range (a b : Z) : list Z := (λ i, a + Z.of_nat i) <$> seq 0 (Z.to_nat (b - a)).

(** The addresses that have something, most first. *)
Definition ranked (limit : Z) (balances : list (string * Z)) : list (string * Z) :=
  py_take limit (filter (λ kv, 0 < kv.2) (sort_by (λ x y, y.2 <? x.2) balances)).

Definition richlist_json (rs : list (string * Z)) (start_height height : Z) : py :=
  PDict [("addresses", PList ((λ kv, PDict [("address", PStr kv.1); ("balance_satoshis", PStr (show kv.2))]) <$> rs));
    ("scanned_from_height", PInt start_height); ("scanned_to_height", PInt height); ("truncated", PBool (0 <? start_height))].

Definition richlist (r : http_request) : prog unit explorer_reply :=
  match int_of_str (default "20" (arg "limit" (h_args r))) with
  | Exc _ => mret (explorer_error "invalid-request" (PStr "limit must be an integer"))
  | Val n =>
      let limit := Z.min n 100 in
      info ← explorer_call GetBlockchainInfo;
      let height := ci_blocks info in
      let start_height := Z.max 0 (height - RICHLIST_MAX_BLOCKS + 1) in
      balances ← fold_in scan_block [] (py_range start_height (height + 1));
      mret (answered (richlist_json (ranked limit balances) start_height height))
  end.

(** ** The supply *)

(** [range(a, b, step)]; [fuel] is at least its length. *)
Fixpoint range_step (fuel : nat) (a b step : Z) : list Z :=
  match fuel with
  | O => []
  | S fuel => if a <? b then a :: range_step fuel (a + step) b step else []
  end.

(** The heights of the points; there are no more than twice fifty of them, and one
    for the tip. *)
Definition series_heights (height : Z) : list Z :=
  let buckets := Z.min 50 (Z.max 1 height) in
  let step := Z.max 1 (height / buckets) in
  let hs := range_step (Z.to_nat (height + 1)) 0 (height + 1) step in
  match list.last hs with Some h => if h =? height then hs else hs ++ [height] | None => hs end.

Definition supply_series : prog unit explorer_reply :=
  info ← explorer_call GetBlockchainInfo;
  let height := ci_blocks info in
  if height <? 0 then Raise (PyError "IndexError")
  else
    mret (answered (PDict [
      ("points", PList ((λ h, PDict [("height", PInt h); ("minted_satoshis", PStr (show (minted_from_pow h)))]) <$> series_heights height));
      ("pow_phase_complete", PBool (LAST_POW_BLOCK <=? height));
      ("note", PStr "Exact for the PoW premine window (height <= 500). Once the chain is in its PoS phase, total supply has no fixed per-block formula to compute this way -- see PARAMETERS.md section 6.")])).

Inductive explorer_route := Stats | Block_detail (ident : string) | Explorer_tx_detail (txid : string) | Address_detail (address : string)
  | Search | Richlist | Supply_series.

Definition explorer_view (t : explorer_route) (r : http_request) : prog unit explorer_reply :=
  match t with
  | Stats => stats
  | Block_detail i => block_detail i
  | Explorer_tx_detail txid => explorer_tx_detail txid
  | Address_detail a => address_detail a
  | Search => search r
  | Richlist => richlist r
  | Supply_series => supply_series
  end.

(** ** It only reads the chain *)

(** The calls that need no wallet and change nothing. *)
Definition chain_query (c : call) : bool :=
  match c with
  | GetBlockchainInfo | GetBlockHash _ | GetBlock _ _ | GetRawTransaction _ | ScanTxOutSet _ => true
  | _ => false
  end.
Definition public (a : action) : Prop := match a with Rpc path c => path = "/" ∧ chain_query c = true | _ => False end.

Lemma guar_explorer_call c : chain_query c = true → guar public eq (explorer_call c).
Proof. intros Hc. unfold explorer_call. destruct configured; [|done]. split; [done|]. by intros []. Qed.

Ltac explorer_tac := repeat (intros; cbv zeta; first
  [ apply guar_explorer_call; done
  | guar_tac; match goal with |- guar _ _ (explorer_call ?c) => apply (guar_explorer_call c); done end
  | progress guar_tac ]).

(** Whatever is asked of the explorer, and whatever the node answers, it makes no
    call but the node's queries of the chain, outside of any wallet. *)
Theorem explorer_read_only (t : explorer_route) (r : http_request) : guar public eq (explorer_view t r).
Proof.
  destruct t; cbn [explorer_view]; unfold stats, block_detail, find_block, explorer_tx_detail, address_detail, search, richlist, supply_series, explorer_tx;
    explorer_tac.
  - unfold in_total. explorer_tac.
  - unfold scan_block, scan_tx, debit_in, explorer_tx. explorer_tac; unfold credit_out; explorer_tac.
Qed.

(** A limit that is no number is answered with a text in the place of the status. *)
Theorem richlist_status_text (env : list event → ∀ a, answer a) (args : list (string * string)) (s : sys unit)
    (Hl : int_of_str (default "20" (arg "limit" args)) = Exc (PyError "ValueError")) :
  (run env (richlist (Http_request "" None args)) s).1 =
    Val (Explorer_reply (PStr "limit must be an integer") (PDict [("error", PStr "invalid-request")])).
Proof. unfold richlist. cbn [h_args]. by rewrite Hl. Qed.
End explorer.

Lemma richlist_status_text_witness :
  (run (D := unit) (λ l a, match a return answer a with
    | Rpc _ _ => Unreachable | Clock => NaN | Utcnow | Today => 0 | Token | Hash_password _ | Encrypt _ => "" | Web_push _ _ _ _ _ => Pushed | Fcm_push _ _ _ _ => true end)
    (richlist true 5000 (Http_request "" None [("limit", "all")])) (Sys () [])).1 =
    Val (Explorer_reply (PStr "limit must be an integer") (PDict [("error", PStr "invalid-request")])).
Proof. apply (richlist_status_text true 5000). vm_compute. reflexivity. Defined.

(** ** The supply's points *)

Lemma range_step_spec fuel : ∀ a b step, 0 < step → b - a <= Z.of_nat fuel → a <= b →
  range_step fuel a b step = (λ k, a + Z.of_nat k * step) <$> seq 0 (Z.to_nat ((b - a + step - 1) / step)).
Proof.
  induction fuel as [|fuel IH]; intros a b step Hs Hf Hab; cbn [range_step].
  - replace (b - a) with 0 by lia. rewrite Z.div_small by lia. done.
  - destruct (Z.ltb_spec a b) as [Hlt|]; [|replace (b - a) with 0 by lia; by rewrite Z.div_small by lia].
    assert (E : (b - a + step - 1) / step = 1 + (b - a - 1) / step) by (replace (b - a + step - 1) with (1 * step + (b - a - 1)) by lia; apply Z.div_add_l; lia).
    rewrite E. assert (0 <= (b - a - 1) / step) by (apply Z.div_pos; lia). replace (Z.to_nat (1 + _)) with (S (Z.to_nat ((b - a - 1) / step))) by lia.
    cbn [seq]. rewrite fmap_cons. replace (a + Z.of_nat 0 * step) with a by lia. f_equal. rewrite <- fmap_S_seq, <- list_fmap_compose.
    destruct (Z.leb_spec (a + step) b) as [Hle|Hgt].
    + rewrite IH by lia. replace (b - (a + step) + step - 1) with (b - a - 1) by lia. apply list_fmap_ext. intros _ k _. cbn. lia.
    + rewrite Z.div_small by lia. destruct fuel; cbn; [done|]. by rewrite (proj2 (Z.ltb_ge _ _)) by lia.
Qed.

Lemma multiples_sorted step n : 0 < step → ∀ i, StronglySorted Z.lt ((λ k, Z.of_nat k * step) <$> seq i n).
Proof.
  intros Hs. induction n as [|n IH]; intros i; cbn [seq]; [constructor|]. rewrite fmap_cons. constructor; [apply IH|].
  apply list.Forall_forall. intros x (k & -> & [Hk _]%elem_of_seq)%list_elem_of_fmap. apply Z.mul_lt_mono_pos_r; lia.
Qed.

Lemma sorted_snoc (l : list Z) x : StronglySorted Z.lt l → Forall (λ y, y < x) l → StronglySorted Z.lt (l ++ [x]).
Proof.
  induction 1 as [|y l Hl IH Hy]; intros Hx; cbn; [by repeat constructor|]. apply Forall_cons_1 in Hx as [Hx Hxs]. constructor; [by apply IH|].
  apply Forall_app. split; [done|]. by repeat constructor.
Qed.

(** The multiples of the step up to the height, and the height. *)
Lemma series_heights_spec height : 0 <= height → ∃ step m, 0 < step ∧ (m <= 99)%nat ∧ Z.of_nat m * step <= height ∧ (Z.of_nat m * step < height → (m <= 98)%nat) ∧
  series_heights height = ((λ k, Z.of_nat k * step) <$> seq 0 (S m)) ++ (if Z.of_nat m * step =? height then [] else [height]).
Proof.
  intros Hh. unfold series_heights. set (buckets := Z.min 50 _). set (step := Z.max 1 _). assert (Hb : 1 <= buckets <= 50) by lia.
  assert (Hs : 0 < step) by lia. pose proof (Z.div_mod height buckets ltac:(lia)) as Ed. pose proof (Z.mod_pos_bound height buckets ltac:(lia)) as Hm.
  set (d := height / buckets) in *. assert (0 <= d) by (apply Z.div_pos; lia).
  set (m := Z.to_nat (height / step)). assert (Hq : 0 <= height / step) by (apply Z.div_pos; lia).
  assert (Em : Z.of_nat m = height / step) by lia. assert (Htop : Z.of_nat m * step <= height < (Z.of_nat m + 1) * step).
  { rewrite Em. pose proof (Z.mul_div_le height step Hs). pose proof (Z.mul_succ_div_gt height step Hs). lia. }
  exists step, m. split; [done|]. assert (Hm99 : (m <= 99)%nat) by nia. split; [done|]. split; [lia|]. split; [intros; nia|].
  rewrite range_step_spec by lia. replace (height + 1 - 0 + step - 1) with (1 * step + height) by lia. rewrite Z.div_add_l by lia.
  replace (Z.to_nat (1 + _)) with (S m) by lia. rewrite seq_S, Nat.add_0_l, fmap_app. cbn [fmap list_fmap].
  rewrite last_snoc. replace (0 + Z.of_nat m * step) with (Z.of_nat m * step) by lia. rewrite (list_fmap_ext _ (λ k, Z.of_nat k * step)) by (intros; lia).
  rewrite fmap_app. destruct (_ =? height); [by rewrite app_nil_r|done].
Qed.

(** The points of the supply's curve begin at 0 and end at the tip, go up in
    height, are at most a hundred, and each shows what the node's rule has minted
    by then: its subsidy for every block of the first phase, and the whole premine
    from its last block on. *)
Theorem supply_points (height : Z) (Hh : 0 <= height) :
  head (series_heights height) = Some 0 ∧ list.last (series_heights height) = Some height ∧ StronglySorted Z.lt (series_heights height) ∧
  (length (series_heights height) <= 100)%nat ∧
  ∀ h, h ∈ series_heights height → minted_from_pow h = Z.min h (nLastPOWBlock main_params) * GetProofOfWorkSubsidy main_params ∧
    (nLastPOWBlock main_params <= h → minted_from_pow h = nPremineTotal main_params).
Proof.
  destruct (series_heights_spec height Hh) as (step & m & Hs & Hm & Htop & Hm' & ->).
  split; [done|]. split; [|split; [|split]].
  - destruct (Z.eqb_spec (Z.of_nat m * step) height) as [E|]; [rewrite app_nil_r, seq_S, fmap_app; cbn; by rewrite last_snoc, E|by rewrite last_snoc].
  - destruct (Z.eqb_spec (Z.of_nat m * step) height) as [E|Hne]; [rewrite app_nil_r; by apply multiples_sorted|].
    apply sorted_snoc; [by apply multiples_sorted|]. apply list.Forall_forall. intros x (k & -> & [_ Hk]%elem_of_seq)%list_elem_of_fmap. nia.
  - rewrite length_app, length_fmap, length_seq. destruct (Z.eqb_spec (Z.of_nat m * step) height); cbn [length]; lia.
  - intros h _. split; [done|]. intros H. unfold minted_from_pow, LAST_POW_BLOCK. by rewrite (Z.min_r h 500) by done.
Qed.

Lemma supply_points_witness : (length (series_heights 1234) <= 100)%nat ∧ list.last (series_heights 1234) = Some 1234.
Proof. destruct (supply_points 1234 ltac:(lia)) as (_ & H & _ & H' & _). by split. Defined.
