(* ===== verification/RichList.v ===== *)
(** * The rich list is the unspent outputs by address

    [richlist] credits every output and debits every input of the chain in one
    dictionary.  On a valid chain that the scan covers, the answer is the list one
    gets from the set of unspent outputs, and the route always answers. *)

From Stdlib Require Import Sorted.
From S2P Require Import Prelude JsString JsNum JsValue Amount Python Server GatewayDb Referral Staking GatewayServer ExplorerServer.

(** ** The unspent outputs of a chain *)

Definition utxo : Type := (string * Z) * rpc_out.

Definition outs_of (tx : rpc_tx) : list utxo := imap (λ i o, ((rt_txid tx, Z.of_nat i), o)) (rt_vout tx).
Definition in_outpoint (i : rpc_in) : option (string * Z) := match i with In_spends t n _ => Some (t, n) | In_coinbase _ => None end.
Definition ins_of (tx : rpc_tx) : list (string * Z) := omap in_outpoint (rt_vin tx).

Definition remove_spent (ps : list (string * Z)) (U : list utxo) : list utxo := filter (λ u, u.1 ∉ ps) U.
Definition connect (U : list utxo) (tx : rpc_tx) : list utxo := remove_spent (ins_of tx) U ++ outs_of tx.

(** A transaction that can follow: a coinbase, or one that spends distinct unspent
    outputs; its outputs are new and its amounts are numbers. *)
Definition valid_tx (U : list utxo) (tx : rpc_tx) : Prop :=
  ((∃ raw, rt_vin tx = [In_coinbase raw]) ∨
   (rt_vin tx ≠ [] ∧ Forall (λ i, is_coinbase i = false) (rt_vin tx) ∧ NoDup (ins_of tx) ∧ ∀ p, p ∈ ins_of tx → p ∈ U.*1)) ∧
  (∀ n, (rt_txid tx, n) ∉ U.*1) ∧
  Forall (λ o, ∃ z, to_sat (out_value o) = Val z) (rt_vout tx).

Fixpoint valid_chain (U : list utxo) (txs : list rpc_tx) : Prop :=
  match txs with [] => True | tx :: txs => valid_tx U tx ∧ valid_chain (connect U tx) txs end.

Definition unspent_outputs (txs : list rpc_tx) : list utxo := foldl connect [] txs.

Definition sat (o : rpc_out) : Z := match to_sat (out_value o) with Val z => z | Exc _ => 0 end.
Definition sat_for (a : string) (o : rpc_out) : Z := if decide (addressed o = Some a) then sat o else 0.
(** What an address has, in satoshis as the server reads the node's decimal numbers. *)
Definition total (a : string) (U : list utxo) : Z := sum_Z (sat_for a ∘ snd <$> U).

(** A node that has this chain. *)
Record serves (env : list event → ∀ a, answer a) (blocks : list rpc_block) : Prop := {
  serves_info : ∃ info, (∀ l, env l (Rpc "/" GetBlockchainInfo) = Answer info) ∧ ci_blocks info = Z.of_nat (length blocks) - 1;
  serves_block : ∀ i b, blocks !! i = Some b → ∃ hash,
    (∀ l, env l (Rpc "/" (GetBlockHash (Z.of_nat i))) = Answer hash) ∧ (∀ l, env l (Rpc "/" (GetBlock hash 2)) = Answer b);
  serves_spent : ∀ tx tx' n, tx ∈ blocks ≫= rb_tx → tx' ∈ blocks ≫= rb_tx → (rt_txid tx, n) ∈ ins_of tx' →
    ∀ l, env l (Rpc "/" (GetRawTransaction (rt_txid tx))) = Answer tx
}.

(** The first [limit] addresses by what they have, and nothing but these. *)
Record is_richlist (U : list utxo) (limit : Z) (rs : list (string * Z)) : Prop := {
  rich_balances : ∀ a b, (a, b) ∈ rs → b = total a U ∧ 0 < b;
  rich_once : NoDup rs.*1;
  rich_sorted : StronglySorted (λ x y, y.2 <= x.2) rs;
  rich_length : Z.of_nat (length rs) <= limit;
  rich_complete : ∀ a, a ∉ rs.*1 → 0 < total a U → Z.of_nat (length rs) = limit ∧ ∀ x, x ∈ rs → total a U <= x.2
}.

(** ** The dictionary *)

Definition bal (a : string) (bs : list (string * Z)) : Z := sum_Z (snd <$> filter (λ kv, kv.1 = a) bs).

Lemma bal_cons a k v bs : bal a ((k, v) :: bs) = (if decide (k = a) then v else 0) + bal a bs.
Proof. unfold bal. rewrite filter_cons. cbn [fst]. destruct (decide (k = a)); [by rewrite fmap_cons, sum_Z_cons|lia]. Qed.

Lemma bal_credit a k v bs : bal a (credit_to k v bs) = bal a bs + (if decide (k = a) then v else 0).
Proof.
  induction bs as [|[k' b] bs IH]; cbn [credit_to]; [rewrite bal_cons; unfold bal; cbn; lia|].
  destruct (String.eqb_spec k' k) as [->|Hne]; rewrite !bal_cons; [destruct (decide (k = a)); lia|lia].
Qed.

Lemma credit_to_keys k v bs : (credit_to k v bs).*1 = bs.*1 ∨ ((k ∉ bs.*1) ∧ (credit_to k v bs).*1 = (bs.*1) ++ [k]).
Proof.
  induction bs as [|[k' b] bs IH]; cbn [credit_to]; [right; split; [apply not_elem_of_nil|done]|].
  destruct (String.eqb_spec k' k) as [->|Hne]; [by left|]. destruct IH as [E|[Hk E]]; [left; cbn; by rewrite E|right].
  split; [|cbn; by rewrite E]. cbn. rewrite not_elem_of_cons. split; [congruence|done].
Qed.

Lemma credit_to_nodup k v bs : NoDup bs.*1 → NoDup (credit_to k v bs).*1.
Proof.
  intros H. destruct (credit_to_keys k v bs) as [->|[Hk ->]]; [done|]. apply list.NoDup_app. split; [done|]. split; [|apply NoDup_singleton].
  intros x Hx ->%list_elem_of_singleton. done.
Qed.

Lemma bal_in a b bs : NoDup bs.*1 → (a, b) ∈ bs → b = bal a bs.
Proof.
  induction bs as [|[k v] bs IH]; [by intros _ ?%not_elem_of_nil|]. rewrite fmap_cons. intros [Hk Hnd]%list.NoDup_cons Hin. rewrite bal_cons.
  apply elem_of_cons in Hin as [[= -> ->]|Hin].
  - rewrite decide_True by done. assert (bal k bs = 0) as ->; [|lia]. clear IH Hnd. unfold bal. induction bs as [|[k' w] bs IHb]; [done|].
    cbn in Hk. apply not_elem_of_cons in Hk as [Hne Hk]. rewrite filter_cons, decide_False by (cbn; congruence). by apply IHb.
  - rewrite decide_False; [rewrite <- (IH Hnd Hin); lia|]. intros ->. apply Hk. by apply (list_elem_of_fmap_2 fst _ (a, b)).
Qed.

Lemma bal_key a bs : bal a bs ≠ 0 → a ∈ bs.*1.
Proof.
  induction bs as [|[k v] bs IH]; [done|]. rewrite bal_cons. destruct (decide (k = a)) as [->|]; [intros _; by left|]. intros H. right. apply IH. lia.
Qed.

(** ** Totals *)

Lemma total_app a U V : total a (U ++ V) = total a U + total a V.
Proof. unfold total. by rewrite fmap_app, sum_Z_app. Qed.
Lemma total_cons a u U : total a (u :: U) = sat_for a u.2 + total a U.
Proof. done. Qed.

Lemma total_outs a tx : total a (outs_of tx) = sum_Z (sat_for a <$> rt_vout tx).
Proof.
  unfold total, outs_of. f_equal. apply list_eq. intros i. rewrite !list_lookup_fmap, list_lookup_imap. by destruct (rt_vout tx !! i).
Qed.

Lemma remove_spent_step ps u U : remove_spent ps (u :: U) = if decide (u.1 ∈ ps) then remove_spent ps U else u :: remove_spent ps U.
Proof.
  unfold remove_spent. rewrite filter_cons. destruct (decide (u.1 ∈ ps)) as [H|H]; [by rewrite decide_False by tauto|by rewrite decide_True].
Qed.

Lemma remove_spent_nil U : remove_spent [] U = U.
Proof. induction U as [|u U IH]; [done|]. by rewrite remove_spent_step, decide_False, IH by apply not_elem_of_nil. Qed.

Lemma remove_spent_none p U : p ∉ U.*1 → remove_spent [p] U = U.
Proof.
  induction U as [|u U IH]; [done|]. rewrite fmap_cons, not_elem_of_cons. intros [H1 H2].
  rewrite remove_spent_step, decide_False by (rewrite list_elem_of_singleton; congruence). by rewrite IH.
Qed.

(** Taking one output away. *)
Lemma total_remove a p o U : NoDup U.*1 → (p, o) ∈ U → total a (remove_spent [p] U) = total a U - sat_for a o.
Proof.
  induction U as [|[q o'] U IH]; [by intros _ ?%not_elem_of_nil|]. rewrite fmap_cons. intros [Hq Hnd]%list.NoDup_cons Hin.
  rewrite remove_spent_step, total_cons. cbn [fst snd] in *. apply elem_of_cons in Hin as [[= -> ->]|Hin].
  - rewrite decide_True by (by left). rewrite remove_spent_none by done. lia.
  - rewrite decide_False; [rewrite total_cons, IH by done; cbn; lia|]. rewrite list_elem_of_singleton. intros ->. apply Hq.
    by apply (list_elem_of_fmap_2 fst _ (p, o)).
Qed.

Lemma remove_spent_cons p ps U : remove_spent (p :: ps) U = remove_spent ps (remove_spent [p] U).
Proof. unfold remove_spent. rewrite list_filter_filter. apply list_filter_iff. intros u. rewrite not_elem_of_cons, list_elem_of_singleton. tauto. Qed.

Lemma remove_spent_nodup ps U : NoDup U.*1 → NoDup (remove_spent ps U).*1.
Proof. intros H. eapply sublist_NoDup; [exact H|]. apply fmap_sublist, sublist_filter. Qed.

Lemma remove_spent_keys ps q U : q ∈ U.*1 → q ∉ ps → q ∈ (remove_spent ps U).*1.
Proof.
  intros (u & -> & Hu)%list_elem_of_fmap Hq. apply list_elem_of_fmap_2. apply list_elem_of_filter. done.
Qed.

(** ** The scan *)

Section scan.
  Context (env : list event → ∀ a, answer a) (MAX : Z).

(** The balances [bs] are those of the outputs [U]. *)
Definition accounts (U : list utxo) (bs : list (string * Z)) : Prop := NoDup bs.*1 ∧ ∀ a, bal a bs = total a U.

Lemma credit_out_yields sign o bs : (∃ z, to_sat (out_value o) = Val z) → NoDup bs.*1 →
  yields env (credit_out sign bs o) (λ bs', NoDup bs'.*1 ∧ ∀ a, bal a bs' = bal a bs + sign * sat_for a o).
Proof.
  intros [z Hz] Hnd. unfold credit_out, sat_for, sat. rewrite Hz. destruct (addressed o) as [k|].
  - eapply yields_bind; [by apply (yields_of_res env (Val z) z (eq z))|]. intros _ <-. apply yields_ret.
    split; [by apply credit_to_nodup|]. intros a. rewrite bal_credit. destruct (decide (k = a)) as [->|]; [rewrite decide_True by done|rewrite decide_False by congruence]; lia.
  - apply yields_ret. split; [done|]. intros a. rewrite decide_False by done. lia.
Qed.

Lemma credit_outs_yields os bs : Forall (λ o, ∃ z, to_sat (out_value o) = Val z) os → NoDup bs.*1 →
  yields env (fold_in (credit_out 1) bs os) (λ bs', NoDup bs'.*1 ∧ ∀ a, bal a bs' = bal a bs + sum_Z (sat_for a <$> os)).
Proof.
  intros Hos Hnd. eapply (yields_mono env _ (λ bs', (NoDup bs'.*1 ∧ Forall (λ o, ∃ z, to_sat (out_value o) = Val z) []) ∧ ∀ a, bal a bs' + sum_Z (sat_for a <$> []) = bal a bs + sum_Z (sat_for a <$> os))).
  { intros bs' [[H1 _] H2]. split; [done|]. intros a. specialize (H2 a). cbn [fmap list_fmap] in H2. change (sum_Z []) with 0 in H2. lia. }
  apply (yields_fold_in env (λ rest bs', (NoDup bs'.*1 ∧ Forall (λ o, ∃ z, to_sat (out_value o) = Val z) rest) ∧
    ∀ a, bal a bs' + sum_Z (sat_for a <$> rest) = bal a bs + sum_Z (sat_for a <$> os))); [done|].
  intros o rest bs' [[H1 Ho] H2]. apply Forall_cons_1 in Ho as [Ho Hrest]. eapply yields_mono; [|by apply credit_out_yields].
  intros bs'' [H3 H4]. split; [done|]. intros a. rewrite H4. specialize (H2 a). rewrite fmap_cons, sum_Z_cons in H2. lia.
Qed.

  Context (C : list rpc_tx).

(** Every output of [U] is one of a transaction of the chain. *)
Definition recorded (U : list utxo) : Prop := ∀ t n o, ((t, n), o) ∈ U →
  ∃ tx, tx ∈ C ∧ rt_txid tx = t ∧ py_index (rt_vout tx) n = Val o ∧ ∃ z, to_sat (out_value o) = Val z.
(** The node finds the transaction of an outpoint. *)
Definition findable (p : string * Z) : Prop :=
  ∀ tx, tx ∈ C → rt_txid tx = p.1 → ∀ l, env l (Rpc "/" (GetRawTransaction p.1)) = Answer tx.

Lemma debit_in_yields t n raw o U bs : recorded U → ((t, n), o) ∈ U → findable (t, n) → NoDup bs.*1 →
  yields env (debit_in true bs (In_spends t n raw)) (λ bs', NoDup bs'.*1 ∧ ∀ a, bal a bs' = bal a bs - sat_for a o).
Proof.
  intros Hr Ho Hf Hnd. destruct (Hr _ _ _ Ho) as (tx & Htx & Et & Ei & Hz). cbn [debit_in].
  eapply (yields_bind _ _ _ (eq (Some tx))).
  { apply yields_catch. eapply (yields_bind _ _ _ (eq tx)); [|intros _ <-; by apply yields_ret].
    apply (yields_call env "/" (GetRawTransaction t) tx); [|done]. by apply (Hf tx). }
  intros _ <-. eapply (yields_bind _ _ _ (eq o)); [by apply (yields_of_res _ _ o)|]. intros _ <-.
  eapply yields_mono; [|by apply credit_out_yields]. intros bs' [H1 H2]. split; [done|]. intros a. rewrite H2. lia.
Qed.

Lemma debits_yields f vins : ∀ U bs, Forall (λ i, is_coinbase i = false) vins → NoDup (omap in_outpoint vins) →
  NoDup U.*1 → recorded U → (∀ p, p ∈ omap in_outpoint vins → p ∈ U.*1 ∧ findable p) →
  NoDup bs.*1 → (∀ a, bal a bs = total a U + f a) →
  yields env (fold_in (debit_in true) bs vins)
    (λ bs', NoDup bs'.*1 ∧ ∀ a, bal a bs' = total a (remove_spent (omap in_outpoint vins) U) + f a).
Proof.
  induction vins as [|i vins IH]; intros U bs Hv Hp HU Hr Hin Hnd Hb; cbn [fold_in].
  { apply yields_ret. split; [done|]. intros a. by rewrite Hb, remove_spent_nil. }
  apply Forall_cons_1 in Hv as [Hi Hv]. destruct i as [raw|t n raw]; [done|]. change (omap in_outpoint (In_spends t n raw :: vins)) with ((t, n) :: omap in_outpoint vins) in *.
  apply list.NoDup_cons in Hp as [Hp1 Hp2]. destruct (Hin (t, n) ltac:(by left)) as [((p & o) & Ep & Ho)%list_elem_of_fmap Hf]. cbn in Ep. subst p.
  eapply yields_bind; [by eapply debit_in_yields|]. intros bs' [Hnd' Hb']. rewrite remove_spent_cons. apply IH; try done.
  - by apply remove_spent_nodup.
  - intros t' n' o' [_ H]%list_elem_of_filter. by apply Hr.
  - intros q Hq. destruct (Hin q ltac:(by right)) as [H1 H2]. split; [|done]. apply remove_spent_keys; [done|]. rewrite list_elem_of_singleton. by intros ->.
  - intros a. rewrite Hb', Hb, (total_remove a (t, n) o) by done. lia.
Qed.

(** ** Transactions and blocks *)

Definition utxo_ok (U : list utxo) : Prop := NoDup U.*1 ∧ recorded U.

Lemma scan_tx_yields U bs tx : utxo_ok U → valid_tx U tx → (∀ p, p ∈ ins_of tx → findable p) → accounts U bs →
  yields env (scan_tx true bs tx) (accounts (connect U tx)).
Proof.
  intros [HU Hr] (Hv & _ & Hos) Hf [Hnd Hb]. unfold scan_tx, connect. eapply yields_bind; [by apply credit_outs_yields|].
  intros bs' [Hnd' Hb']. destruct Hv as [(raw & E)|(Hne & Hc & Hp & Hin)].
  - rewrite E. apply yields_ret. split; [done|]. intros a. rewrite Hb', Hb, total_app, total_outs. unfold ins_of. rewrite E. cbn [omap list_omap in_outpoint]. by rewrite remove_spent_nil.
  - destruct (rt_vin tx) as [|i vin] eqn:E; [done|]. pose proof (Forall_inv Hc) as Hi. cbn in Hi. rewrite Hi. unfold ins_of in *. rewrite E in *.
    eapply yields_mono; [|apply (debits_yields (λ a, total a (outs_of tx)) (i :: vin) U bs'); try done].
    + intros bs'' [H1 H2]. split; [done|]. intros a. by rewrite H2, total_app.
    + auto.
    + intros a. by rewrite Hb', Hb, total_outs.
Qed.

Lemma outs_of_lookup tx t n o : ((t, n), o) ∈ outs_of tx → t = rt_txid tx ∧ ∃ i, n = Z.of_nat i ∧ rt_vout tx !! i = Some o.
Proof.
  intros [i Hi]%list_elem_of_lookup. unfold outs_of in Hi. rewrite list_lookup_imap in Hi. destruct (rt_vout tx !! i) as [o'|] eqn:E; [|done].
  injection Hi as <- <- <-. split; [done|]. by exists i.
Qed.

Lemma outs_of_nodup tx : NoDup (outs_of tx).*1.
Proof.
  apply NoDup_alt. intros i j p Hi Hj. unfold outs_of in *. rewrite list_lookup_fmap, list_lookup_imap in Hi, Hj.
  destruct (rt_vout tx !! i); [|done]. destruct (rt_vout tx !! j); [|done]. cbn in *. simplify_eq. lia.
Qed.

Lemma connect_ok U tx : tx ∈ C → valid_tx U tx → utxo_ok U → utxo_ok (connect U tx).
Proof.
  intros Htx (_ & Hfresh & Hos) [HU Hr]. split.
  - unfold connect. rewrite fmap_app. apply list.NoDup_app. split; [by apply remove_spent_nodup|]. split; [|apply outs_of_nodup].
    intros [t n] (u & Eu & Hu)%list_elem_of_fmap ([[t' n'] o] & [= <- <-] & (-> & _)%outs_of_lookup)%list_elem_of_fmap.
    apply (Hfresh n). rewrite Eu. apply list_elem_of_fmap_2. by apply list_elem_of_filter in Hu as [_ ?].
  - intros t n o [[_ H]%list_elem_of_filter|H]%elem_of_app; [by apply Hr|]. apply outs_of_lookup in H as (-> & i & -> & Hi). exists tx.
    split; [done|]. split; [done|]. split; [|rewrite list.Forall_forall in Hos; by eapply Hos, list_elem_of_lookup_2].
    assert (E : (Z.of_nat i <? 0) = false) by (apply Z.ltb_ge; lia). unfold py_index. cbv zeta. rewrite !E. by rewrite Nat2Z.id, Hi.
Qed.

(** While [rest] is to be scanned. *)
Definition scanning (rest : list rpc_tx) (final : list utxo) (bs : list (string * Z)) : Prop :=
  ∃ U, utxo_ok U ∧ valid_chain U rest ∧ foldl connect U rest = final ∧ accounts U bs.

Lemma scan_txs_yields txs more final bs : (∀ tx p, tx ∈ txs → p ∈ ins_of tx → findable p) → (∀ tx, tx ∈ txs → tx ∈ C) →
  scanning (txs ++ more) final bs → yields env (fold_in (scan_tx true) bs txs) (scanning more final).
Proof.
  intros Hf HC H0. eapply (yields_mono _ _ (λ bs', scanning ([] ++ more) final bs' ∧ [] ⊆ txs)); [by intros bs' [? _]|].
  apply (yields_fold_in env (λ rest bs', scanning (rest ++ more) final bs' ∧ rest ⊆ txs)); [done|].
  intros tx rest bs' [(U & HU & [Hv Hvs] & Hfin & Hb) Hsub]. assert (Htx : tx ∈ txs) by set_solver.
  eapply yields_mono; [|apply (scan_tx_yields U); eauto]. intros bs'' Hb''. split; [|set_solver]. exists (connect U tx). split; [|done]. apply connect_ok; auto.
Qed.
End scan.

(** ** Ranking *)

Lemma sorted_sublist {A} (R : A → A → Prop) k l : sublist k l → StronglySorted R l → StronglySorted R k.
Proof.
  induction 1 as [|x k l Hs IH|x k l Hs IH]; intros Hl; [constructor|..]; apply StronglySorted_inv in Hl as [Hl Hx]; [|by apply IH].
  constructor; [by apply IH|]. rewrite list.Forall_forall in Hx |- *. intros y Hy. apply Hx. by eapply elem_of_sublist.
Qed.

Lemma sorted_app {A} (R : A → A → Prop) l k x y : StronglySorted R (l ++ k) → x ∈ l → y ∈ k → R x y.
Proof.
  intros Hs Hx Hy. induction l as [|z l IH]; [by apply not_elem_of_nil in Hx|]. apply StronglySorted_inv in Hs as [Hs Hz].
  apply elem_of_cons in Hx as [->|Hx]; [|by apply IH]. rewrite list.Forall_forall in Hz. apply Hz. apply elem_of_app. by right.
Qed.

Lemma ranked_richlist U limit bs : 0 <= limit → accounts U bs → is_richlist U limit (ranked limit bs).
Proof.
  intros Hl [Hnd Hb]. unfold ranked. set (L := filter _ (sort_by _ bs)). unfold py_take. rewrite (proj2 (Z.ltb_ge limit 0)) by done.
  assert (Hperm : sort_by (λ x y, y.2 <? x.2) bs ≡ₚ bs) by apply sort_by_perm.
  assert (HL : ∀ kv, kv ∈ L ↔ kv ∈ bs ∧ 0 < kv.2).
  { intros kv. unfold L. rewrite list_elem_of_filter, Hperm. tauto. }
  assert (Hbal : ∀ a b, (a, b) ∈ L → b = total a U ∧ 0 < b).
  { intros a b [H1 H2]%HL. split; [|done]. rewrite <- Hb. by apply bal_in. }
  assert (Hsub : sublist (take (Z.to_nat limit) L) L) by apply sublist_take.
  assert (Hs : StronglySorted (λ x y : string * Z, y.2 <= x.2) L).
  { eapply sorted_sublist; [apply sublist_filter|]. assert (Transitive (λ x y : string * Z, y.2 <= x.2)) by (intros x y z; lia).
    apply (sort_by_sorted _ (λ x y : string * Z, y.2 <= x.2)).
    - intros y z Hyz%Z.ltb_lt. lia.
    - by intros y z Hyz%Z.ltb_ge. }
  split.
  - intros a b H. apply Hbal. by eapply elem_of_sublist.
  - eapply sublist_NoDup; [|apply fmap_sublist; exact Hsub]. eapply sublist_NoDup; [|apply fmap_sublist, sublist_filter]. by rewrite Hperm.
  - by eapply sorted_sublist.
  - rewrite length_take. lia.
  - intros a Ha Ht. assert (Hin : (a, total a U) ∈ L).
    { apply HL. split; [|done]. rewrite <- Hb in Ht |- *. assert (Hk : a ∈ bs.*1) by (apply bal_key; lia).
      apply list_elem_of_fmap in Hk as ([k v] & E & Hkv). cbn in E. subst k.
      by rewrite <- (bal_in a v bs Hnd Hkv). }
    rewrite <- (take_drop (Z.to_nat limit) L) in Hin. apply elem_of_app in Hin as [Hin|Hin].
    { exfalso. apply Ha. by apply (list_elem_of_fmap_2 fst _ (a, total a U)). }
    split.
    + assert (0 < length (drop (Z.to_nat limit) L))%nat by (destruct (drop _ L); [by apply not_elem_of_nil in Hin|cbn; lia]).
      rewrite length_drop in *. rewrite length_take. lia.
    + intros x Hx. rewrite <- (take_drop (Z.to_nat limit) L) in Hs. apply (sorted_app _ _ _ x (a, total a U) Hs Hx Hin).
Qed.

(** ** The route *)

Lemma scan_blocks_yields env blocks : serves env blocks → valid_chain [] (blocks ≫= rb_tx) →
  yields env (fold_in (scan_block true) [] (py_range 0 (Z.of_nat (length blocks)))) (accounts (unspent_outputs (blocks ≫= rb_tx))).
Proof.
  intros Hs Hv. set (final := unspent_outputs _). set (n := length blocks).
  set (J := λ (rest : list Z) bs, ∃ k, rest = Z.of_nat <$> seq k (n - k) ∧ scanning (blocks ≫= rb_tx) (drop k blocks ≫= rb_tx) final bs).
  eapply (yields_mono _ _ (J [])).
  { intros bs (k & Ek & U & _ & _ & Hf & Hb). assert (n <= k)%nat by (destruct (n - k)%nat eqn:E; [lia|done]).
    rewrite (drop_ge blocks k) in Hf by done. cbn in Hf. by subst U. }
  apply yields_fold_in.
  - exists 0%nat. split.
    + unfold py_range. rewrite Z.sub_0_r, Nat2Z.id, Nat.sub_0_r. apply list_fmap_ext. intros. lia.
    + exists []. split; [split; [constructor|by intros t m o ?%not_elem_of_nil]|]. split; [done|]. split; [done|]. split; [constructor|done].
  - intros h rest bs (k & Ek & Hsc). destruct (n - k)%nat as [|m] eqn:Em; [done|]. cbn [seq fmap list_fmap] in Ek. injection Ek as -> ->.
    destruct (lookup_lt_is_Some_2 blocks k) as [b Hb]; [unfold n in *; lia|]. destruct (serves_block _ _ Hs k b Hb) as (hash & H1 & H2).
    eapply (yields_bind _ _ _ (eq hash)); [by apply (yields_call env "/" (GetBlockHash (Z.of_nat k)) hash)|]. intros _ <-.
    eapply (yields_bind _ _ _ (eq b)); [by apply (yields_call env "/" (GetBlock hash 2) b)|]. intros _ <-.
    rewrite (drop_S blocks b k Hb) in Hsc. assert (Htx : ∀ tx, tx ∈ rb_tx b → tx ∈ blocks ≫= rb_tx).
    { intros tx Htx. apply list_elem_of_bind. exists b. split; [done|]. by eapply list_elem_of_lookup_2. }
    eapply yields_mono; [|apply (scan_txs_yields env (blocks ≫= rb_tx) (rb_tx b) (drop (S k) blocks ≫= rb_tx) final); [|done|exact Hsc]].
    + intros bs' Hbs'. exists (S k). split; [|done]. by replace (n - S k)%nat with m by lia.
    + intros tx' [t i] Htx' Hp tx Htx0 Et l. cbn in *. subst t. exact (serves_spent _ _ Hs tx tx' i Htx0 (Htx tx' Htx') Hp l).
Qed.

(** C15. On a valid chain that is no longer than the scan's window, the rich list is
    exact: the route answers, and what it lists are the addresses with the largest
    sums of unspent outputs, each once with its sum, largest first, up to the limit
    asked for or 100.  An output counts with the satoshis [to_sat] reads from the
    number the node writes. *)
Theorem richlist_correct (env : list event → ∀ a, answer a) (blocks : list rpc_block) (MAX n : Z) (q : http_request)
    (Hserves : serves env blocks) (Hvalid : valid_chain [] (blocks ≫= rb_tx)) (Hlen : 1 <= Z.of_nat (length blocks) <= MAX)
    (Hn : int_of_str (default "20" (arg "limit" (h_args q))) = Val n) (Hpos : 0 <= n) :
  yields env (richlist true MAX q) (λ r, ∃ rs,
    r = answered (richlist_json rs 0 (Z.of_nat (length blocks) - 1)) ∧
    is_richlist (unspent_outputs (blocks ≫= rb_tx)) (Z.min n 100) rs).
Proof.
  unfold richlist. rewrite Hn. destruct (serves_info _ _ Hserves) as (info & Hi & Eb).
  eapply (yields_bind _ _ _ (eq info)); [by apply (yields_call env "/" GetBlockchainInfo info)|]. intros _ <-. rewrite Eb.
  cbv zeta. rewrite Z.max_l by lia. replace (Z.of_nat (length blocks) - 1 + 1) with (Z.of_nat (length blocks)) by lia.
  eapply yields_bind; [by apply scan_blocks_yields|]. intros bs Hbs. apply yields_ret. eexists. split; [done|]. apply ranked_richlist; [lia|done].
Qed.

(** ** A chain of two blocks *)

Module Ledger.
Definition pays (a : string) (sats : Z) : rpc_out := Rpc_out (rnd sats COIN) (Some "76a9") (Some a) PNone.
Definition mined (id a : string) (sats : Z) : rpc_tx := Rpc_tx id [In_coinbase PNone] [pays a sats] None None None.
Definition payment_tx : rpc_tx := Rpc_tx "t" [In_spends "c0" 0 PNone] [pays "A" 2000; pays "B" 3000] None None None.
Definition block (hash : string) (h : Z) (txs : list rpc_tx) : rpc_block :=
  Rpc_block hash h 1700000000 (num_of_Z 1) "1d00ffff" 1 "00" None None (Some "proof-of-work") txs.
Definition blocks : list rpc_block := [block "h0" 0 [mined "c0" "A" 5000]; block "h1" 1 [mined "c1" "B" 1000; payment_tx]].

Definition reply (c : call) : rpc_reply (result_of c) :=
  match c return rpc_reply (result_of c) with
  | GetBlockchainInfo => Answer (Chain_info "main" 1 "h1" (num_of_Z 1))
  | GetBlockHash h => Answer (if h =? 0 then "h0" else "h1")
  | GetBlock hash _ => Answer (if String.eqb hash "h0" then block "h0" 0 [mined "c0" "A" 5000] else block "h1" 1 [mined "c1" "B" 1000; payment_tx])
  | GetRawTransaction t => Answer (mined "c0" "A" 5000)
  | _ => Unreachable
  end.
Definition env (l : list event) (a : action) : answer a :=
  match a return answer a with
  | Rpc _ c => reply c
  | Clock => NaN
  | Utcnow | Today => 0
  | Token | Hash_password _ | Encrypt _ => ""
  | Web_push _ _ _ _ _ => Pushed
  | Fcm_push _ _ _ _ => true
  end.

Lemma env_serves : serves env blocks.
Proof.
  split.
  - by exists (Chain_info "main" 1 "h1" (num_of_Z 1)).
  - intros [|[|i]] b [= <-]; eexists; split; [done..|]; reflexivity.
  - intros tx tx' n Htx Htx' Hin l. cbn in Htx, Htx'. assert (rt_txid tx = "c0") as E.
    { repeat (apply elem_of_cons in Htx' as [->|Htx']; [cbn in Hin; set_solver|]). by apply not_elem_of_nil in Htx'. }
    repeat (apply elem_of_cons in Htx as [->|Htx]; [first [done|discriminate E]|]). by apply not_elem_of_nil in Htx.
Qed.

Lemma blocks_valid : valid_chain [] (blocks ≫= rb_tx).
Proof.
  cbn [valid_chain mbind list_bind blocks rb_tx block Datatypes.app]. split_and!; [split_and!..|done].
  - left. by eexists.
  - intros n. apply not_elem_of_nil.
  - repeat constructor. eexists. vm_compute. reflexivity.
  - left. by eexists.
  - intros n. cbn. set_solver.
  - repeat constructor. eexists. vm_compute. reflexivity.
  - right. split; [done|]. split; [by repeat constructor|]. split; [apply NoDup_singleton|]. intros p ->%list_elem_of_singleton. cbn. set_solver.
  - intros n. cbn. set_solver.
  - constructor; [eexists; vm_compute; reflexivity|]. constructor; [eexists; vm_compute; reflexivity|constructor].
Qed.

Definition query : http_request := Http_request "" None [].

Lemma richlist_correct_witness : total "B" (unspent_outputs (blocks ≫= rb_tx)) = 4000 ∧ total "A" (unspent_outputs (blocks ≫= rb_tx)) = 2000 ∧
  yields env (richlist true 5000 query) (λ r, ∃ rs, r = answered (richlist_json rs 0 1) ∧ is_richlist (unspent_outputs (blocks ≫= rb_tx)) 20 rs).
Proof.
  split; [vm_compute; reflexivity|]. split; [vm_compute; reflexivity|].
  apply (richlist_correct env blocks 5000 20 query env_serves blocks_valid); [cbn; lia|vm_compute; reflexivity|lia].
Defined.
End Ledger.
