(* ===== verification/Browser.v ===== *)
(** * The browser

    The state the page's scripts work on and the monad they run in.  A script
    is a function from a browser state to a result, which may be a throw, and
    the next state: a throw keeps the changes made before it, as in the source.
    An [await] lets the awaited call run to completion; a call whose promise is
    not awaited runs to completion too and its exception goes nowhere
    ([spawn]).  The components whose interleaving matters (the QR scanner, the
    checkout widget, the address derivation) have step relations of their own.

    What the page cannot know is the [Environment]: the server answers the
    last request of the history it has seen, randomness is a stream, and the
    user and the platform answer prompts.  *)

From S2P Require Import Prelude JsString JsNum Json JsValue.

Record request := Request {
  r_method : string;
  r_url : string;
  r_headers : list (string * string);
  r_body : option string
}.

Record reply := Reply { status : Z; body : string }.

(** [resp.ok] *)
Definition reply_ok (r : reply) : bool := (200 <=? status r) && (status r <=? 299).

(** Effects outside the page. *)
Inductive effect :=
  | Opened (url : string)
  | Copied (text : string)
  | Painted (canvas text : string)
  | Downloaded (name content : string)
  | Timeout_set (ms : Z) (id : string) (text : string)
  | Reloaded
  | Camera_started
  | Camera_stopped.

Class Environment := {
  server : list request → option reply;
  entropy : nat → Z;
  answer_confirm : string → bool;
  locale_date : num → string;
  today : string;
  clipboard_ok : bool;
  push_supported : bool;
  ask_notifications : result string;
  register_worker : result unit;
  current_subscription : result (option json);
  push_subscribe : bytes → result json
}.

(** The page's own variables are the parameter [P]. *)
Record browser (P : Type) := Browser {
  local : gmap string string;
  session : gmap string string;
  dom : gmap (string * string) string;
  sent : list request;
  drawn : nat;
  intervals : list nat;
  next_handle : nat;
  effects : list effect;
  page : P
}.
Arguments Browser {P}.
Arguments local {P}.
Arguments session {P}.
Arguments dom {P}.
Arguments sent {P}.
Arguments drawn {P}.
Arguments intervals {P}.
Arguments next_handle {P}.
Arguments effects {P}.
Arguments page {P}.

Definition js (P A : Type) : Type := browser P → result A * browser P.

#[export] Instance js_ret {P} : MRet (js P) := λ A a w, (Ok a, w).
#[export] Instance js_bind {P} : MBind (js P) := λ A B f m w,
  match m w with (Ok a, w') => f a w' | (Throw e, w') => (Throw e, w') end.

Section ops.
  Context {P : Type}.

(** ** Control *)

Definition lift {A} (r : result A) : js P A := λ w, (r, w).
Definition throw {A} (e : exn) : js P A := lift (Throw e).

(** [try { m } catch (e) { h(e) }] *)
Definition try_catch {A} (m : js P A) (h : exn → js P A) : js P A := λ w,
  match m w with (Ok a, w') => (Ok a, w') | (Throw e, w') => h e w' end.

(** [try { m } finally { f }] *)
Definition try_finally {A} (m : js P A) (f : js P unit) : js P A := λ w,
  let '(r, w1) := m w in
  match f w1 with (Ok _, w2) => (r, w2) | (Throw e, w2) => (Throw e, w2) end.

(** A call whose promise nobody awaits. *)
Definition spawn {A} (m : js P A) : js P unit := λ w, (Ok (), (m w).2).

Definition pass : js P unit := mret ().
Definition when (b : bool) (m : js P unit) : js P unit := if b then m else pass.

(** [for (const x of xs) f(x)] *)
Fixpoint for_each {A} (xs : list A) (f : A → js P unit) : js P unit :=
  match xs with
  | [] => mret ()
  | x :: xs => _ ← f x; for_each xs f
  end.

(** [for (const x of xs) out.push(f(x))] *)
Fixpoint collect {A B} (xs : list A) (f : A → js P B) : js P (list B) :=
  match xs with
  | [] => mret []
  | x :: xs => y ← f x; ys ← collect xs f; mret (y :: ys)
  end.

(** ** State *)

Definition get_page : js P P := λ w, (Ok (page w), w).
Definition update (f : P → P) : js P unit := λ w,
  (Ok (), Browser (local w) (session w) (dom w) (sent w) (drawn w) (intervals w) (next_handle w) (effects w) (f (page w))).

(** [localStorage] and [sessionStorage]. *)
Definition local_get (k : string) : js P (option string) := λ w, (Ok (local w !! k), w).
Definition with_local (f : gmap string string → gmap string string) : js P unit := λ w,
  (Ok (), Browser (f (local w)) (session w) (dom w) (sent w) (drawn w) (intervals w) (next_handle w) (effects w) (page w)).
Definition local_set (k v : string) : js P unit := with_local <[k := v]>.
Definition local_remove (k : string) : js P unit := with_local (delete k).
Definition with_session (f : gmap string string → gmap string string) : js P unit := λ w,
  (Ok (), Browser (local w) (f (session w)) (dom w) (sent w) (drawn w) (intervals w) (next_handle w) (effects w) (page w)).
Definition session_get (k : string) : js P (option string) := λ w, (Ok (session w !! k), w).
Definition session_set (k v : string) : js P unit := with_session <[k := v]>.
Definition session_remove (k : string) : js P unit := with_session (delete k).

(** [document.getElementById(id).prop], read and assigned. *)
Definition dom_get (id prop : string) : js P string := λ w, (Ok (default "" (dom w !! (id, prop))), w).
Definition dom_set (id prop v : string) : js P unit := λ w,
  (Ok (), Browser (local w) (session w) (<[(id, prop) := v]> (dom w)) (sent w) (drawn w) (intervals w) (next_handle w) (effects w) (page w)).
Definition text (id v : string) : js P unit := dom_set id "textContent" v.
Definition html (id v : string) : js P unit := dom_set id "innerHTML" v.
Definition show_el (id v : string) : js P unit := dom_set id "style.display" v.
Definition value (id : string) : js P string := dom_get id "value".
Definition set_value (id v : string) : js P unit := dom_set id "value" v.

Definition emit (e : effect) : js P unit := λ w,
  (Ok (), Browser (local w) (session w) (dom w) (sent w) (drawn w) (intervals w) (next_handle w) (effects w ++ [e]) (page w)).

(** [setInterval] and [clearInterval]. *)
Definition set_interval : js P nat := λ w,
  let h := next_handle w in
  (Ok h, Browser (local w) (session w) (dom w) (sent w) (drawn w) (intervals w ++ [h]) (S h) (effects w) (page w)).
Definition clear_interval (h : nat) : js P unit := λ w,
  (Ok (), Browser (local w) (session w) (dom w) (sent w) (drawn w)
            (filter (λ x, x ≠ h) (intervals w)) (next_handle w) (effects w) (page w)).

Section env.
  Context `{Environment}.

(** The state after one more request. *)
Definition asked (w : browser P) (r : request) : browser P :=
  Browser (local w) (session w) (dom w) (sent w ++ [r]) (drawn w) (intervals w) (next_handle w) (effects w) (page w).

(** [fetch(...)]: the request joins the history, the server answers it. *)
Definition fetch (r : request) : js P reply := λ w,
  (match server (sent w ++ [r]) with
   | Some rep => Ok rep
   | None => Throw (ExType "Failed to fetch")
   end, asked w r).

(** The next value of the random stream, reduced below [n]. *)
Definition random (n : Z) : js P Z := λ w,
  (Ok (entropy (drawn w) mod n),
   Browser (local w) (session w) (dom w) (sent w) (S (drawn w)) (intervals w) (next_handle w) (effects w) (page w)).

(** [crypto.getRandomValues(new Uint8Array(n))] *)
Definition random_bytes (n : nat) : js P bytes := collect (seq 0 n) (λ _, random 256).
End env.

(** ** Reasoning *)

Lemma run_bind {A B} (m : js P A) (f : A → js P B) w :
  (m ≫= f) w = match m w with (Ok a, w') => f a w' | (Throw e, w') => (Throw e, w') end.
Proof. done. Qed.

Lemma bind_lift {A B} (r : result A) (f : A → js P B) w :
  (lift r ≫= f) w = match r with Ok a => f a w | Throw e => (Throw e, w) end.
Proof. by destruct r. Qed.

Lemma bind_value {B} id (k : string → js P B) w : (value id ≫= k) w = k (default "" (dom w !! (id, "value"))) w.
Proof. done. Qed.

(** [m] keeps a property of the state, whatever it returns. *)
Definition keeps {A} (I : browser P → Prop) (m : js P A) : Prop := ∀ w, I w → I (m w).2.

(** [m] returns normally and takes [I] to [Q]. *)
Definition ensures {A} (I : browser P → Prop) (m : js P A) (Q : A → browser P → Prop) : Prop :=
  ∀ w, I w → ∃ a w', m w = (Ok a, w') ∧ Q a w'.

Section keeps.
  Variable I : browser P → Prop.

Lemma keeps_ret {A} (a : A) : keeps I (mret a : js P A).
Proof. by intros w. Qed.
Lemma keeps_lift {A} (r : result A) : keeps I (lift r).
Proof. by intros w. Qed.
Lemma keeps_bind {A B} (m : js P A) (f : A → js P B) :
  keeps I m → (∀ a, keeps I (f a)) → keeps I (m ≫= f).
Proof.
  intros Hm Hf w Hw. rewrite run_bind. specialize (Hm w Hw).
  destruct (m w) as [[a|e] w']; [by apply Hf|done].
Qed.
Lemma keeps_try {A} (m : js P A) h : keeps I m → (∀ e, keeps I (h e)) → keeps I (try_catch m h).
Proof.
  intros Hm Hh w Hw. unfold try_catch. specialize (Hm w Hw).
  destruct (m w) as [[a|e] w']; [done|by apply Hh].
Qed.
Lemma keeps_finally {A} (m : js P A) f : keeps I m → keeps I f → keeps I (try_finally m f).
Proof.
  intros Hm Hf w Hw. unfold try_finally. specialize (Hm w Hw). destruct (m w) as [r w1].
  specialize (Hf w1 Hm). by destruct (f w1) as [[]].
Qed.
Lemma keeps_spawn {A} (m : js P A) : keeps I m → keeps I (spawn m).
Proof. intros Hm w Hw. by apply Hm. Qed.
Lemma keeps_when b m : keeps I m → keeps I (when b m).
Proof. intros Hm. destruct b; [done|apply keeps_ret]. Qed.
Lemma keeps_each {A} (xs : list A) f : (∀ x, keeps I (f x)) → keeps I (for_each xs f).
Proof. intros Hf. induction xs; [apply keeps_ret|]. apply keeps_bind; auto. Qed.
Lemma keeps_collect {A B} (xs : list A) (f : A → js P B) : (∀ x, keeps I (f x)) → keeps I (collect xs f).
Proof.
  intros Hf. induction xs; [apply keeps_ret|].
  apply keeps_bind; [done|]. intros. apply keeps_bind; [done|]. intros. apply keeps_ret.
Qed.
End keeps.

(** [m] does not change the state. *)
Definition quiet {A} (m : js P A) : Prop := ∀ w, (m w).2 = w.

Lemma quiet_ret {A} (a : A) : quiet (mret a : js P A).
Proof. done. Qed.
Lemma quiet_lift {A} (r : result A) : quiet (lift r).
Proof. done. Qed.
Lemma quiet_bind {A B} (m : js P A) (f : A → js P B) : quiet m → (∀ a, quiet (f a)) → quiet (m ≫= f).
Proof.
  intros Hm Hf w. rewrite run_bind. specialize (Hm w). destruct (m w) as [[a|e] w']; cbn in Hm; subst; [apply Hf|done].
Qed.

(** Every value [m] returns satisfies [Q]. *)
Definition returns {A} (m : js P A) (Q : A → Prop) : Prop := ∀ w a, (m w).1 = Ok a → Q a.

Lemma returns_ret {A} (a : A) (Q : A → Prop) : Q a → returns (mret a : js P A) Q.
Proof. intros H w b [= <-]. done. Qed.
Lemma returns_lift {A} (r : result A) (Q : A → Prop) : (∀ a, r = Ok a → Q a) → returns (lift r) Q.
Proof. intros H w a. apply H. Qed.
Lemma returns_bind {A B} (m : js P A) (f : A → js P B) Q : (∀ a, returns (f a) Q) → returns (m ≫= f) Q.
Proof. intros Hf w b. rewrite run_bind. destruct (m w) as [[a|e] w']; [apply Hf|done]. Qed.
Lemma returns_try {A} (m : js P A) h Q : returns m Q → (∀ e, returns (h e) Q) → returns (try_catch m h) Q.
Proof.
  intros Hm Hh w a. unfold try_catch. specialize (Hm w). destruct (m w) as [[b|e] w']; [apply Hm|apply Hh].
Qed.
End ops.

Create HintDb quiet.
#[export] Hint Resolve quiet_ret quiet_lift quiet_bind : quiet.

Create HintDb keeps.
#[export] Hint Resolve keeps_ret keeps_lift keeps_bind keeps_try keeps_finally keeps_spawn
  keeps_when keeps_each keeps_collect : keeps.

(** A browser in which nothing happened yet; timer handles start at 1. *)
Definition new_browser {P} (p : P) : browser P := Browser ∅ ∅ ∅ [] 0 [] 1 [] p.

(** An environment with a given server and a fixed stream, to run the
    definitions on. *)
Definition demo (srv : list request → option reply) : Environment := {|
  server := srv;
  entropy n := Z.of_nat n * 37 + 11;
  answer_confirm _ := true;
  locale_date _ := "1/1/2026";
  today := "2026-01-01";
  clipboard_ok := true;
  push_supported := true;
  ask_notifications := Ok "granted";
  register_worker := Ok ();
  current_subscription := Ok None;
  push_subscribe _ := Ok (JObj [])
|}.
