(* ===== verification/Primitives.v ===== *)
(** * Third-party primitives

    The wallet takes its hash functions, ECDSA and HD-wallet code from packages
    loaded from a CDN (@noble/hashes, @noble/secp256k1, @scure/bip32,
    @scure/bip39) and its PIN encryption from the browser's Web Crypto.  None of
    that code is in the repository, so it is an interface: [Primitives] holds the
    operations the sources call and [PrimitiveLaws] their documented behaviour.
    Every theorem that needs a law takes it as a class argument; [Toy] is a
    concrete instance of both classes, used to run the definitions and to show
    that the laws can hold together. *)

From S2P Require Import Prelude JsString.

(** What [secp.sign] returns. *)
Record ecdsa_sig := { sig_r : Z; sig_s : Z; sig_recovery : Z }.

(** A BIP32 node's key pair. *)
Record keypair := { privateKey : bytes; publicKey : bytes }.

(** Extended-key version bytes. *)
Record bip32_versions := { v_private : Z; v_public : Z }.

Class Primitives := {
  sha256 : bytes → bytes;
  ripemd160 : bytes → bytes;
  (** [secp.sign(hash, privateKey)]: throws on an invalid private key. *)
  secp_sign : bytes → bytes → result ecdsa_sig;
  (** The compressed public key of a private key. *)
  secp_public : bytes → bytes;
  (** ECDSA verification of the signature (r, s) on a hash under an encoded
      public key; false when the key does not parse. *)
  secp_verify : Z → Z → bytes → bytes → bool;
  (** [Signature.fromCompact(b).addRecoveryBit(i).recoverPublicKey(hash).toRawBytes(true)] *)
  secp_recover : bytes → Z → bytes → result bytes;
  (** [bip39.validateMnemonic(m, wordlist)] and [bip39.mnemonicToSeed(m, p)] *)
  bip39_valid : string → bool;
  (** [bip39.generateMnemonic(wordlist, 128)] on the 16 random bytes it draws. *)
  bip39_generate : bytes → string;
  bip39_seed : string → string → bytes;
  (** [HDKey.fromMasterSeed(seed).derive(path)]: the node's keys. *)
  hd_derive : bytes → string → result keypair;
  (** [HDKey.fromMasterSeed(seed, versions).derive(path).publicExtendedKey] *)
  hd_xpub : bytes → bip32_versions → string → result string;
  (** [HDKey.fromExtendedKey(xpub, versions).derive(path).publicKey] *)
  hd_xpub_derive : string → bip32_versions → string → result bytes;
  (** [crypto.subtle]: the AES-256 key PBKDF2-SHA256 derives from a password, a
      salt and a number of iterations, and AES-GCM under a key and an
      initialisation vector; decryption throws when authentication fails. *)
  pbkdf2 : bytes → bytes → Z → bytes;
  aes_encrypt : bytes → bytes → bytes → bytes;
  aes_decrypt : bytes → bytes → bytes → result bytes;
}.

(** The order of the secp256k1 group. *)
Definition secp_order : Z :=
  0xFFFFFFFFFFFFFFFFFFFFFFFFFFFFFFFEBAAEDCE6AF48A03BBFD25E8CD0364141.

(** The big-endian bytes of [z], [n] of them. *)
Fixpoint be_bytes (n : nat) (z : Z) : bytes :=
  match n with
  | O => []
  | S n => be_bytes n (z / 256) ++ [z mod 256]
  end.

(** [sig.toCompactRawBytes()]: r and s, 32 bytes each, big endian. *)
Definition compact_bytes (s : ecdsa_sig) : bytes :=
  be_bytes 32 (sig_r s) ++ be_bytes 32 (sig_s s).

(** An index of a child that is not hardened. *)
Definition child_index (i : Z) : Prop := 0 <= i < 2 ^ 31.

Class PrimitiveLaws `{Primitives} := {
  sha256_bytes x : all_bytes (sha256 x);
  sha256_length x : length (sha256 x) = 32%nat;
  ripemd160_bytes x : all_bytes (ripemd160 x);
  ripemd160_length x : length (ripemd160 x) = 20%nat;
  secp_public_bytes k : all_bytes (secp_public k);
  secp_public_length k : length (secp_public k) = 33%nat;
  secp_public_head k : secp_public k !! 0%nat = Some 2 ∨ secp_public k !! 0%nat = Some 3;
  (** r and s of a signature are non-zero residues and s is low. *)
  secp_sign_range h k s : secp_sign h k = Ok s →
    0 < sig_r s < secp_order ∧ 0 < sig_s s <= secp_order / 2 ∧ 0 <= sig_recovery s <= 3;
  secp_sign_verify h k s : secp_sign h k = Ok s →
    secp_verify (sig_r s) (sig_s s) h (secp_public k) = true;
  secp_sign_recover h k s : secp_sign h k = Ok s →
    secp_recover (compact_bytes s) (sig_recovery s) h = Ok (secp_public k);
  bip39_generate_valid entropy : length entropy = 16%nat → bip39_valid (bip39_generate entropy) = true;
  hd_derive_public seed path kp : hd_derive seed path = Ok kp →
    publicKey kp = secp_public (privateKey kp);
  (** BIP32: the children of an extended public key at indices that are not hardened
      are the public keys of the same children of the extended private key. *)
  hd_xpub_children seed vs account x c i kp : child_index c → child_index i → hd_xpub seed vs account = Ok x →
    hd_derive seed (account +:+ "/" +:+ show c +:+ "/" +:+ show i) = Ok kp →
    hd_xpub_derive x vs ("m/" +:+ show c +:+ "/" +:+ show i) = Ok (publicKey kp);
  (** An extended key is only read under the version bytes it was written with. *)
  hd_xpub_versions seed vs vs' account x path : hd_xpub seed vs account = Ok x →
    0 <= v_public vs < 2 ^ 32 → 0 <= v_public vs' < 2 ^ 32 → v_public vs ≠ v_public vs' →
    is_ok (hd_xpub_derive x vs' path) = false;
  aes_roundtrip key iv msg : all_bytes msg → aes_decrypt key iv (aes_encrypt key iv msg) = Ok msg;
  aes_encrypt_bytes key iv msg : all_bytes (aes_encrypt key iv msg);
}.

(** ** Lemmas *)

Lemma be_bytes_length n z : length (be_bytes n z) = n.
Proof.
  revert z. induction n as [|n IH]; intros z; simpl; [done|].
  rewrite length_app, IH. simpl. lia.
Qed.

Lemma be_bytes_bytes n z : all_bytes (be_bytes n z).
Proof.
  revert z. induction n as [|n IH]; intros z; simpl; [apply all_bytes_nil|].
  apply all_bytes_app. split; [done|]. repeat constructor; apply Z.mod_pos_bound; lia.
Qed.

Lemma be_bytes_value n z : of_digits 256 (be_bytes n z) = z mod 256 ^ Z.of_nat n.
Proof.
  revert z. induction n as [|n IH]; intros z; [simpl; by rewrite Z.mod_1_r|].
  cbn [be_bytes]. rewrite of_digits_snoc, IH.
  rewrite Nat2Z.inj_succ, Z.pow_succ_r by lia. rewrite Z.rem_mul_r by lia. lia.
Qed.

#[export] Hint Resolve be_bytes_bytes : bytes.

(** ** A concrete instance *)

Module Toy.
(** A checksum with the right shape: a length, a weighted sum, padding. *)
Definition hash (n : nat) (x : bytes) : bytes :=
  be_bytes n (foldl (λ acc b, (acc * 257 + b + 1) mod 2 ^ 61) (Z.of_nat (length x) mod 2 ^ 61) x).

Definition public (k : bytes) : bytes := 2 :: hash 32 k.

(** r commits to the message, s to the key, so both can be checked. *)
Definition sign (h k : bytes) : result ecdsa_sig :=
  Ok {| sig_r := 1 + of_digits 256 (hash 8 h);
        sig_s := 1 + of_digits 256 (hash 8 k);
        sig_recovery := 0 |}.

Definition verify (r s : Z) (h pk : bytes) : bool :=
  (r =? 1 + of_digits 256 (hash 8 h)) &&
  bool_decide (pk = 2 :: be_bytes 32 (s - 1)).

Definition recover (b : bytes) (i : Z) (h : bytes) : result bytes :=
  Ok (2 :: be_bytes 32 (of_digits 256 (drop 32 b) - 1)).

#[export] Instance prims : Primitives := {|
  sha256 := hash 32;
  ripemd160 := hash 20;
  secp_sign := sign;
  secp_public := public;
  secp_verify := verify;
  secp_recover := recover;
  bip39_valid m := negb (String.eqb m "");
  bip39_generate e := "abandon ability able " +:+ of_chars ((λ b, chr (97 + b mod 26)) <$> e);
  bip39_seed m p := code <$> chars (m +:+ p);
  hd_derive seed path :=
    let k := hash 32 ((to_u8 <$> seed) ++ (code <$> chars path)) in
    Ok {| privateKey := k; publicKey := public k |};
  hd_xpub seed vs path :=
    Ok (of_chars (chr <$> be_bytes 4 (v_public vs) ++ (to_u8 <$> seed) ++ (code <$> chars path)));
  hd_xpub_derive x vs path :=
    let b := code <$> chars x in
    if bool_decide (take 4 b = be_bytes 4 (v_public vs))
    then Ok (public (hash 32 (drop 4 b ++ drop 1 (code <$> chars path))))
    else Throw (ExError "Version mismatch");
  pbkdf2 pin salt n := pin;
  aes_encrypt key iv msg := (to_u8 <$> key) ++ [255] ++ (to_u8 <$> msg);
  aes_decrypt key iv c :=
    let k := (to_u8 <$> key) ++ [255] in
    if bool_decide (take (length k) c = k) then Ok (drop (length k) c)
    else Throw (ExHost "OperationError" "");
|}.

Lemma hash_bound x n : 0 <= n < 2 ^ 61 →
  0 <= foldl (λ acc b, (acc * 257 + b + 1) mod 2 ^ 61) n x < 2 ^ 61.
Proof.
  revert n. induction x as [|b x IH]; intros n Hn; simpl; [done|].
  apply IH, Z.mod_pos_bound. lia.
Qed.

(** The value behind a hash, before it is written out. *)
Definition hash_value (x : bytes) : Z :=
  foldl (λ acc b, (acc * 257 + b + 1) mod 2 ^ 61) (Z.of_nat (length x) mod 2 ^ 61) x.

Lemma hash_value_bound x : 0 <= hash_value x < 2 ^ 61.
Proof. apply hash_bound, Z.mod_pos_bound. lia. Qed.

Lemma hash_8 x : of_digits 256 (hash 8 x) = hash_value x.
Proof.
  unfold hash. rewrite be_bytes_value. pose proof (hash_value_bound x).
  apply Z.mod_small. change (256 ^ Z.of_nat 8) with (2 ^ 64). fold (hash_value x). lia.
Qed.

Lemma codes_bytes s : all_bytes (code <$> chars s).
Proof. apply Forall_fmap, Forall_forall. intros c _. apply code_range. Qed.

Lemma Ok_inj {A} (a b : A) : Ok a = Ok b → a = b.
Proof. by intros [= ->]. Qed.

Lemma chr_bytes l : all_bytes l → code <$> (chr <$> l) = l.
Proof.
  induction 1 as [|b l [? ?] _ IH]; [done|]. rewrite !fmap_cons, IH, code_chr by lia. done.
Qed.

(** The bytes behind a toy extended key. *)
Lemma xpub_bytes vs seed path :
  code <$> chars (of_chars (chr <$> be_bytes 4 (v_public vs) ++ (to_u8 <$> seed) ++ (code <$> chars path))) =
  be_bytes 4 (v_public vs) ++ (to_u8 <$> seed) ++ (code <$> chars path).
Proof.
  rewrite chars_of_chars. apply chr_bytes. apply all_bytes_app. split; [apply be_bytes_bytes|].
  apply all_bytes_app. split; [|apply codes_bytes]. apply Forall_fmap, Forall_forall. intros. apply to_u8_byte.
Qed.

#[export] Instance laws : @PrimitiveLaws prims.
Proof.
  split; intros; cbn [prims sha256 ripemd160 secp_sign secp_public secp_verify
    secp_recover bip39_valid bip39_generate hd_derive hd_xpub hd_xpub_derive pbkdf2 aes_encrypt aes_decrypt] in *.
  - apply be_bytes_bytes.
  - apply be_bytes_length.
  - apply be_bytes_bytes.
  - apply be_bytes_length.
  - unfold public. apply all_bytes_cons. split; [unfold is_byte; lia|apply be_bytes_bytes].
  - unfold public, hash. cbn [length]. by rewrite be_bytes_length.
  - by left.
  - unfold sign in *. simplify_eq/=. rewrite !hash_8.
    pose proof (hash_value_bound h). pose proof (hash_value_bound k).
    unfold secp_order. change (_ / 2) with 0x7FFFFFFFFFFFFFFFFFFFFFFFFFFFFFFF5D576E7357A4501DDFE92F46681B20A0.
    lia.
  - unfold sign in *. simplify_eq/=. unfold verify, public. cbn [sig_r sig_s].
    rewrite Z.eqb_refl, hash_8. apply bool_decide_eq_true.
    replace (1 + hash_value k - 1) with (hash_value k) by lia. done.
  - unfold sign in *. simplify_eq/=. unfold recover, compact_bytes. cbn [sig_r sig_s].
    rewrite !hash_8. rewrite drop_app_length' by (by rewrite be_bytes_length).
    unfold public. rewrite be_bytes_value. pose proof (hash_value_bound k).
    rewrite Z.mod_small by lia. by replace (1 + hash_value k - 1) with (hash_value k) by lia.
  - done.
  - by simplify_eq/=.
  - apply Ok_inj in H1 as <-, H2 as <-. rewrite xpub_bytes, take_app_length', drop_app_length' by (by rewrite be_bytes_length).
    rewrite bool_decide_eq_true_2 by done. cbn [publicKey].
    change ("m/" +:+ show c +:+ "/" +:+ show i) with ("m" +:+ ("/" +:+ show c +:+ "/" +:+ show i)).
    rewrite (chars_app account), (chars_app "m"), !fmap_app. change (drop 1 ((code <$> chars "m") ++ ?l)) with l. by rewrite <- app_assoc.
  - apply Ok_inj in H as <-. rewrite xpub_bytes, take_app_length' by (by rewrite be_bytes_length).
    rewrite bool_decide_eq_false_2; [done|]. intros E. apply (f_equal (of_digits 256)) in E.
    rewrite !be_bytes_value in E. change (256 ^ Z.of_nat 4) with (2 ^ 32) in E.
    rewrite !Z.mod_small in E by lia. done.
  - rewrite (all_bytes_map_u8 msg) by done. rewrite app_assoc, take_app_length, drop_app_length.
    by rewrite bool_decide_eq_true_2.
  - apply all_bytes_app. split; [apply Forall_fmap, Forall_forall; intros; apply to_u8_byte|].
    apply all_bytes_cons. split; [unfold is_byte; lia|]. apply Forall_fmap, Forall_forall. intros. apply to_u8_byte.
Qed.
End Toy.
