(* ===== verification/Base58.v ===== *)
(** * Base58Check (web-wallet/crypto.js, [base58checkEncode], [base58checkDecode])

    The payload, followed by the first four bytes of its double SHA-256, is read
    as one big-endian integer and written in base 58; leading zero bytes become
    leading ['1']s.  The theorems: encoding then decoding is the identity, every
    string that decodes is the encoding of what it decodes to, and the two
    rejections (foreign character, bad checksum) happen exactly as coded. *)

From S2P Require Import Prelude JsString Primitives.

Definition B58_ALPHABET : string := "123456789ABCDEFGHJKLMNPQRSTUVWXYZabcdefghijkmnopqrstuvwxyz".

Section base58.
Context {P : Primitives}.

Definition doubleSha256 (b : bytes) : bytes := sha256 (sha256 b).

(** [B58_ALPHABET[Number(rem)]] *)
Definition b58_char (d : Z) : ascii := default "1"%char (chars B58_ALPHABET !! Z.to_nat d).

Definition base58checkEncode (payload : bytes) : result string :=
  let checksum := js_slice (doubleSha256 payload) 0 4 in
  full ← u8_set (u8_new (length payload + 4)) payload 0;
  full ← u8_set full checksum (length payload);
  let leadingZeros := leading_zeros full in
  let num := of_digits 256 full in
  let out := of_chars (b58_char <$> to_digits 58 num) in
  Ok (js_repeat "1" leadingZeros +:+ out).

(** [expected.every((b, i) => b === checksum[i])] *)
Fixpoint every_eq (expected checksum : bytes) : bool :=
  match expected, checksum with
  | [], _ => true
  | b :: e, x :: c => (b =? x) && every_eq e c
  | _ :: _, [] => false
  end.

(** The digit loop: [num = num * 58n + BigInt(idx)], or a throw. *)
Definition b58_step (num : Z) (ch : ascii) : result Z :=
  let idx := index_of ch (chars B58_ALPHABET) in
  if idx <? 0 then Throw (ExError "Invalid base58 character") else Ok (num * 58 + idx).

(** [while (leadingZeros < str.length && str[leadingZeros] === "1") leadingZeros++] *)
Fixpoint leading_ones (l : list ascii) : nat :=
  match l with
  | c :: l => if Ascii.eqb c "1" then S (leading_ones l) else O
  | [] => O
  end.

Definition base58checkDecode (str : string) : result bytes :=
  num ← foldR b58_step 0 (chars str);
  let bs := to_digits 256 num in
  let leadingZeros := leading_ones (chars str) in
  full ← u8_set (u8_new (leadingZeros + length bs)) bs leadingZeros;
  let n := Z.of_nat (length full) in
  let payload := js_slice full 0 (n - 4) in
  let checksum := js_slice_from full (n - 4) in
  let expected := js_slice (doubleSha256 payload) 0 4 in
  if negb (every_eq expected checksum) then Throw (ExError "Bad checksum") else Ok payload.

(** ** The alphabet *)

Lemma b58_alphabet_nodup : NoDup (chars B58_ALPHABET).
Proof. apply (bool_decide_eq_true (NoDup _)). by vm_compute. Qed.

Lemma b58_alphabet_length : length (chars B58_ALPHABET) = 58%nat.
Proof. done. Qed.

Lemma b58_char_0 : b58_char 0 = "1"%char.
Proof. done. Qed.

Lemma b58_index_1 : index_of "1" (chars B58_ALPHABET) = 0.
Proof. done. Qed.

#[local] Opaque B58_ALPHABET.

Lemma b58_index_char d : is_digit 58 d → index_of (b58_char d) (chars B58_ALPHABET) = d.
Proof.
  intros [? ?]. unfold b58_char.
  destruct (lookup_lt_is_Some_2 (chars B58_ALPHABET) (Z.to_nat d)) as [c Hc].
  { rewrite b58_alphabet_length. lia. }
  rewrite Hc. simpl. rewrite (index_of_nodup c _ (Z.to_nat d)); [lia| |done].
  apply b58_alphabet_nodup.
Qed.

Lemma b58_char_index c :
  0 <= index_of c (chars B58_ALPHABET) → b58_char (index_of c (chars B58_ALPHABET)) = c.
Proof. intros Hc. unfold b58_char. by rewrite index_of_lookup. Qed.

Lemma b58_char_zero d : is_digit 58 d → b58_char d = "1"%char → d = 0.
Proof.
  intros Hd Hc. rewrite <- (b58_index_char d Hd), Hc. apply b58_index_1.
Qed.


(** ** The digit loop *)

Lemma b58_step_char acc d : is_digit 58 d → b58_step acc (b58_char d) = Ok (acc * 58 + d).
Proof.
  intros Hd. unfold b58_step. rewrite b58_index_char by done.
  unfold is_digit in Hd. by destruct (Z.ltb_spec d 0); [lia|].
Qed.

Lemma b58_step_inv acc c num : b58_step acc c = Ok num →
  ∃ d, is_digit 58 d ∧ c = b58_char d ∧ num = acc * 58 + d.
Proof.
  unfold b58_step. pose proof (index_of_range c (chars B58_ALPHABET)) as Hr.
  rewrite b58_alphabet_length in Hr.
  destruct (Z.ltb_spec (index_of c (chars B58_ALPHABET)) 0); [done|]. intros [= <-].
  eexists. split; [|split; [|done]]; [unfold is_digit; lia|by rewrite b58_char_index].
Qed.

Lemma b58_fold_map acc ds :
  Forall (is_digit 58) ds →
  foldR b58_step acc (b58_char <$> ds) = Ok (foldl (λ a d, a * 58 + d) acc ds).
Proof.
  intros Hds. revert acc. induction Hds as [|d ds Hd Hds IH]; intros acc; [done|].
  rewrite fmap_cons. cbn [foldR foldl]. rewrite b58_step_char by done. apply IH.
Qed.

(** A string the loop accepts is the image of its digits. *)
Lemma b58_fold_inv acc l num :
  foldR b58_step acc l = Ok num →
  ∃ ds, Forall (is_digit 58) ds ∧ l = b58_char <$> ds ∧ num = foldl (λ a d, a * 58 + d) acc ds.
Proof.
  revert acc. induction l as [|c l IH]; intros acc; cbn [foldR].
  - intros [= <-]. by exists [].
  - intros (n & (d & Hd & -> & ->)%b58_step_inv & Hl)%bind_ok.
    apply IH in Hl as (ds & Hds & -> & ->). exists (d :: ds). split; [by constructor|done].
Qed.

Lemma chars_repeat_one n : chars (js_repeat "1" n) = b58_char <$> replicate n 0.
Proof.
  induction n as [|n IH]; [done|].
  change (js_repeat "1" (S n)) with ("1" +:+ js_repeat "1" n).
  rewrite chars_app, IH. done.
Qed.

Lemma leading_ones_map ds :
  Forall (is_digit 58) ds → leading_ones (b58_char <$> ds) = leading_zeros ds.
Proof.
  induction 1 as [|d ds Hd _ IH]; [done|]. cbn.
  destruct (Ascii.eqb_spec (b58_char d) "1") as [E|E].
  - apply b58_char_zero in E as ->; [|done]. by rewrite IH.
  - destruct (Z.eqb_spec d 0) as [->|]; [|done]. by rewrite b58_char_0 in E.
Qed.

(** ** Assembling and splitting the checksummed bytes *)

Context {PL : PrimitiveLaws}.

Lemma checksum_take b : js_slice (doubleSha256 b) 0 4 = take 4 (doubleSha256 b).
Proof. apply (js_slice_prefix _ 4). unfold doubleSha256. rewrite sha256_length. lia. Qed.

Lemma checksum_length b : length (take 4 (doubleSha256 b)) = 4%nat.
Proof. unfold doubleSha256. rewrite length_take, sha256_length. lia. Qed.

Lemma checksum_bytes b : all_bytes (take 4 (doubleSha256 b)).
Proof. apply Forall_take, sha256_bytes. Qed.

Definition checked (payload : bytes) : bytes := payload ++ take 4 (doubleSha256 payload).

Lemma encode_unfold payload :
  base58checkEncode payload =
  let full := checked payload in
  Ok (js_repeat "1" (leading_zeros full) +:+ of_chars (b58_char <$> to_digits 58 (of_digits 256 full))).
Proof.
  unfold base58checkEncode. rewrite u8_set_first, checksum_take. cbn [mbind result_bind].
  pose proof (u8_set_last payload (take 4 (doubleSha256 payload))) as Hl.
  rewrite checksum_length in Hl. by rewrite Hl.
Qed.

Lemma every_eq_spec e c : length e = length c → every_eq e c = true ↔ e = c.
Proof.
  revert c. induction e as [|b e IH]; intros [|x c] Hl; try done. simpl.
  rewrite andb_true_iff, Z.eqb_eq, IH by (simpl in Hl; lia).
  split; [by intros [-> ->] | by intros [= -> ->]].
Qed.

Lemma every_eq_short e c : (length c < length e)%nat → every_eq e c = false.
Proof.
  revert c. induction e as [|b e IH]; intros [|x c] Hl; simpl in *; try done; try lia.
  rewrite IH by lia. apply andb_false_r.
Qed.

(** Splitting [full] at [full.length - 4] and comparing checksums succeeds
    exactly on [checked payload]. *)
Lemma split_checked full payload :
  (if negb (every_eq
        (js_slice (doubleSha256 (js_slice full 0 (Z.of_nat (length full) - 4))) 0 4)
        (js_slice_from full (Z.of_nat (length full) - 4)))
   then Throw (ExError "Bad checksum")
   else Ok (js_slice full 0 (Z.of_nat (length full) - 4))) = Ok payload ↔
  full = checked payload.
Proof.
  rewrite checksum_take. destruct (decide (length full < 4)%nat) as [Hs|Hs].
  - rewrite every_eq_short.
    + simpl. split; [done|]. intros ->. unfold checked in Hs.
      rewrite length_app, checksum_length in Hs. lia.
    + rewrite checksum_length. eapply Nat.le_lt_trans; [apply js_slice_length|]. lia.
  - replace (Z.of_nat (length full) - 4) with (Z.of_nat (length full - 4)) by lia.
    rewrite js_slice_prefix, js_slice_from_drop by lia.
    set (p := take (length full - 4) full). set (c := drop (length full - 4) full).
    assert (Hc : length c = 4%nat) by (unfold c; rewrite length_drop; lia).
    assert (Hf : full = p ++ c) by (unfold p, c; by rewrite take_drop).
    destruct (every_eq (take 4 (doubleSha256 p)) c) eqn:E.
    + apply every_eq_spec in E; [|by rewrite checksum_length]. simpl. rewrite Hf, <- E. split.
      * intros [= ->]. done.
      * intros Hq. unfold checked in Hq. apply app_inj_2 in Hq as [-> _]; [done|].
        by rewrite !checksum_length.
    + simpl. split; [done|]. intros Hq. exfalso. rewrite Hf in Hq. unfold checked in Hq.
      apply app_inj_2 in Hq as [Hp Hc']; [|by rewrite checksum_length].
      rewrite Hp, Hc' in E. assert (every_eq (take 4 (doubleSha256 payload)) (take 4 (doubleSha256 payload)) = true);
        [by apply every_eq_spec|congruence].
Qed.

Lemma decode_unfold ds :
  Forall (is_digit 58) ds →
  base58checkDecode (of_chars (b58_char <$> ds)) =
  let full := replicate (leading_zeros ds) 0 ++ to_digits 256 (of_digits 58 ds) in
  let n := Z.of_nat (length full) in
  let payload := js_slice full 0 (n - 4) in
  if negb (every_eq (js_slice (doubleSha256 payload) 0 4) (js_slice_from full (n - 4)))
  then Throw (ExError "Bad checksum") else Ok payload.
Proof.
  intros Hds. unfold base58checkDecode. rewrite chars_of_chars, b58_fold_map by done. simpl.
  fold (of_digits 58 ds). rewrite leading_ones_map by done.
  set (k := leading_zeros ds). set (bs := to_digits 256 (of_digits 58 ds)).
  assert (Hs : u8_set (u8_new (k + length bs)) bs k = Ok (replicate k 0 ++ bs)).
  { unfold u8_new. rewrite replicate_add.
    pose proof (u8_set_last (replicate k 0) bs) as Hl. rewrite length_replicate in Hl. apply Hl. }
  by rewrite Hs.
Qed.

(** Bytes to base 58 digits and back, keeping the leading zeros. *)
Lemma transcode_roundtrip from to l :
  2 <= from → 2 <= to → Forall (is_digit from) l →
  let ds := replicate (leading_zeros l) 0 ++ to_digits to (of_digits from l) in
  Forall (is_digit to) ds ∧
  replicate (leading_zeros ds) 0 ++ to_digits from (of_digits to ds) = l.
Proof.
  intros Hf Ht Hl ds. pose proof (of_digits_bound from Hf l Hl) as Hb. split.
  - apply Forall_app. split; [|by apply to_digits_digits].
    apply Forall_replicate. unfold is_digit. lia.
  - unfold ds. rewrite leading_zeros_app.
    + rewrite of_digits_zeros, of_to_digits by lia.
      destruct (leading_zeros_split l) as (r & Hr & Hne).
      rewrite Hr at 2 3. rewrite of_digits_zeros, to_of_digits; [done|done| |done].
      rewrite Hr in Hl. by apply Forall_app in Hl as [_ ?].
    + intros d k. apply to_digits_head; lia.
Qed.

(** The first characters of an encoding, from the quotient they spell.  The
    checksum only moves the integer by less than [2 ^ 32]. *)
Lemma encode_prefix payload k q d ds :
  all_bytes payload → payload = d :: ds → d ≠ 0 → 0 < q →
  (∀ c, 0 <= c < 2 ^ 32 → (of_digits 256 payload * 2 ^ 32 + c) / 58 ^ Z.of_nat k = q) →
  ∃ rest, length rest = k ∧
    base58checkEncode payload = Ok (of_chars ((b58_char <$> to_digits 58 q) ++ rest)).
Proof.
  intros Hp Hd Hnz Hq Hc. rewrite encode_unfold. cbv zeta.
  assert (Hz : leading_zeros (checked payload) = O).
  { rewrite Hd. simpl. by destruct (Z.eqb_spec d 0). }
  rewrite Hz. set (N := of_digits 256 (checked payload)).
  assert (HN : N / 58 ^ Z.of_nat k = q).
  { unfold N, checked. rewrite of_digits_app, checksum_length. apply Hc.
    pose proof (of_digits_bound 256 ltac:(lia) _ (checksum_bytes payload)) as Hb.
    rewrite checksum_length in Hb. done. }
  destruct (to_digits_split 58 ltac:(lia) k N) as (es & Hl & _ & He); [lia|].
  exists (b58_char <$> es). rewrite length_fmap. split; [done|].
  rewrite He, HN, fmap_app. done.
Qed.

(** ** Theorems *)

Lemma base58check_roundtrip_aux payload :
  all_bytes payload →
  ∃ s, base58checkEncode payload = Ok s ∧ base58checkDecode s = Ok payload.
Proof.
  intros Hp. rewrite encode_unfold. eexists. split; [done|]. cbv zeta.
  set (full := checked payload).
  assert (Hf : Forall (is_digit 256) full).
  { apply Forall_app. split; [done|]. apply checksum_bytes. }
  destruct (transcode_roundtrip 256 58 full) as [Hds Hrt]; [lia..|done|].
  rewrite <- (of_chars_chars (js_repeat _ _)), chars_repeat_one, <- of_chars_app, <- fmap_app.
  rewrite decode_unfold by done. cbv zeta. rewrite Hrt. by apply split_checked.
Qed.

(** Base58Check decoding inverts encoding on every byte string, leading
    zero bytes included. *)
Theorem base58check_roundtrip payload :
  all_bytes payload →
  ∃ s, base58checkEncode payload = Ok s ∧ base58checkDecode s = Ok payload.
Proof. apply base58check_roundtrip_aux. Qed.

(** A string that decodes is the encoding of the payload it decodes to:
    no second spelling of an address is ever accepted. *)
Theorem base58checkDecode_canonical s payload :
  base58checkDecode s = Ok payload → base58checkEncode payload = Ok s.
Proof.
  intros Hd. pose proof Hd as Hd'. unfold base58checkDecode in Hd'.
  apply bind_ok in Hd' as (num & Hnum & _).
  apply b58_fold_inv in Hnum as (ds & Hds & Hs & _).
  assert (s = of_chars (b58_char <$> ds)) as -> by by rewrite <- Hs, of_chars_chars.
  rewrite decode_unfold in Hd by done.
  cbv zeta in Hd. apply split_checked in Hd. rewrite encode_unfold. cbv zeta.
  rewrite <- Hd. f_equal.
  destruct (transcode_roundtrip 58 256 ds) as [_ Hrt]; [lia..|done|].
  rewrite <- (of_chars_chars (js_repeat _ _)), chars_repeat_one, <- of_chars_app, <- fmap_app.
  by rewrite Hrt.
Qed.
End base58.

Import Toy.

(** The laws are satisfiable: both theorems at a mainnet-shaped payload. *)
Lemma base58check_roundtrip_witness :
  all_bytes (28 :: replicate 20 7) ∧
  ∃ s, base58checkEncode (28 :: replicate 20 7) = Ok s ∧
       base58checkDecode s = Ok (28 :: replicate 20 7).
Proof.
  assert (Hb : all_bytes (28 :: replicate 20 7)) by (repeat constructor; lia).
  split; [done|]. by apply (base58check_roundtrip (P := Toy.prims)).
Defined.

Lemma base58checkDecode_canonical_witness :
  ∃ s, base58checkDecode s = Ok [28; 0; 5] ∧ base58checkEncode [28; 0; 5] = Ok s.
Proof.
  assert (He : base58checkDecode (match base58checkEncode [28; 0; 5] with Ok s => s | Throw _ => "" end) = Ok [28; 0; 5])
    by by vm_compute.
  eexists. split; [exact He|]. by apply (base58checkDecode_canonical (P := Toy.prims)).
Defined.
