(* ===== verification/Bech32.v ===== *)
(** * Bech32 (web-wallet/crypto.js, the BIP173 section)

    The checksum polynomial, the regrouping of bits and the string format.  All
    arithmetic is on 32-bit JavaScript integers; the proofs show that nothing
    the routines compute is lost to the wrap-around of [acc].  [convertBits] is
    proved against big-integer positional notation: 8-to-5 with padding followed
    by 5-to-8 without is the identity on every byte string.  The checksum
    [bech32Encode] appends makes the polynomial 1, as BIP173 requires;
    [bech32Decode] drops the last six characters without looking at them, which
    [bech32Decode_ignores_checksum] states. *)

From S2P Require Import Prelude JsString.

Definition BECH32_CHARSET : string := "qpzry9x8gf2tvdw0s3jn54khce6mua7l".

Definition GEN : list Z := [0x3b6a57b2; 0x26508e6d; 0x1ea119fa; 0x3d4233dd; 0x2a1462b3].

(** The body of the polynomial loop for one value [v]. *)
Definition polymod_step (chk v : Z) : Z :=
  let top := js_shr chk 25 in
  let chk := js_xor (js_shl (js_and chk 0x1ffffff) 5) v in
  foldl (λ chk '(i, g), if js_and (js_shr top i) 1 =? 0 then chk else js_xor chk g)
    chk (zip [0; 1; 2; 3; 4] GEN).

Definition bech32Polymod (values : list Z) : Z := foldl polymod_step 1 values.

Definition bech32HrpExpand (hrp : string) : list Z :=
  ((λ c, js_shr (code c) 5) <$> chars hrp) ++ [0] ++ ((λ c, js_and (code c) 31) <$> chars hrp).

Definition bech32CreateChecksum (hrp : string) (data : list Z) : list Z :=
  let values := bech32HrpExpand hrp ++ data ++ [0; 0; 0; 0; 0; 0] in
  let mod_ := js_xor (bech32Polymod values) 1 in
  (λ p, js_and (js_shr mod_ (5 * (5 - p))) 31) <$> [0; 1; 2; 3; 4; 5].

(** [while (bits >= toBits) { bits -= toBits; ret.push((acc >>> bits) & maxv); }]
    At most [bits] rounds run, since [toBits] is positive. *)
Fixpoint drain (fuel : nat) (acc bits toBits maxv : Z) (ret : list Z) : Z * list Z :=
  match fuel with
  | O => (bits, ret)
  | S fuel =>
      if toBits <=? bits
      then drain fuel acc (bits - toBits) toBits maxv
             (ret ++ [js_and (js_shr acc (bits - toBits)) maxv])
      else (bits, ret)
  end.

(** The loop state of [convertBits]. *)
Record cb_state := { cb_acc : Z; cb_bits : Z; cb_ret : list Z }.

Definition convert_step (fromBits toBits : Z) (st : cb_state) (value : Z) : result cb_state :=
  if (value <? 0) || negb (js_sar value fromBits =? 0)
  then Throw (ExError "Invalid data for bit conversion")
  else
    let acc := js_or (js_shl (cb_acc st) fromBits) value in
    let bits := cb_bits st + fromBits in
    let maxv := js_shl 1 toBits - 1 in
    let '(bits, ret) := drain (Z.to_nat bits) acc bits toBits maxv (cb_ret st) in
    Ok {| cb_acc := acc; cb_bits := bits; cb_ret := ret |}.

Definition convertBits (data : list Z) (fromBits toBits : Z) (pad : bool) : result (list Z) :=
  let maxv := js_shl 1 toBits - 1 in
  st ← foldR (convert_step fromBits toBits) {| cb_acc := 0; cb_bits := 0; cb_ret := [] |} data;
  let acc := cb_acc st in let bits := cb_bits st in let ret := cb_ret st in
  if pad then
    Ok (if 0 <? bits then ret ++ [js_and (js_shl acc (toBits - bits)) maxv] else ret)
  else if (fromBits <=? bits) || negb (js_and (js_shl acc (toBits - bits)) maxv =? 0)
  then Throw (ExError "Invalid padding in bit conversion")
  else Ok ret.

(** [BECH32_CHARSET[d]]; joining an array writes [undefined] as nothing. *)
Definition bech32_char (d : Z) : list ascii :=
  if d <? 0 then [] else option_list (chars BECH32_CHARSET !! Z.to_nat d).

Definition bech32Encode (hrp : string) (data : list Z) : string :=
  let combined := data ++ bech32CreateChecksum hrp data in
  hrp +:+ "1" +:+ of_chars (mjoin (bech32_char <$> combined)).

(** [bech.lastIndexOf("1")] *)
Fixpoint last_index_of (c : ascii) (l : list ascii) : Z :=
  match l with
  | [] => -1
  | a :: l =>
      let i := last_index_of c l in
      if i <? 0 then (if Ascii.eqb a c then 0 else -1) else i + 1
  end.

Definition bech32Decode (bech : string) : string * list Z :=
  let pos := last_index_of "1" (chars bech) in
  let hrp := of_chars (js_slice (chars bech) 0 pos) in
  let data := (λ c, index_of c (chars BECH32_CHARSET)) <$> js_slice (chars bech) (pos + 1) (-6) in
  (hrp, data).

(** ** Regrouping bits *)

Section convert.
Context (from to : Z) (Hfrom : 1 <= from <= 8) (Hto : 1 <= to <= 8).

Lemma maxv_eq : js_shl 1 to - 1 = 2 ^ to - 1.
Proof.
  assert (2 <= 2 ^ to <= 256).
  { split; [apply (Z.pow_le_mono_r 2 1); lia | apply (Z.pow_le_mono_r 2 to 8); lia]. }
  unfold js_shl. rewrite (Z.mod_small to 32), Z.shiftl_mul_pow2 by lia.
  change (to_i32 1) with 1. rewrite to_i32_small; lia.
Qed.

(** What the loop has written after reading an input of value [n] and
    [total] bits: the leading groups of [to] bits, with [bits] left over. *)
Definition grouped (n total bits : Z) (ret : list Z) : Prop :=
  Forall (is_digit (2 ^ to)) ret ∧
  total = to * Z.of_nat (length ret) + bits ∧ 0 <= bits ∧
  of_digits (2 ^ to) ret = n / 2 ^ bits.

Lemma drain_spec fuel acc n total bits ret :
  0 <= n → acc mod 2 ^ 32 = n mod 2 ^ 32 → bits <= 24 → (Z.to_nat bits <= fuel)%nat →
  grouped n total bits ret →
  let '(bits', ret') := drain fuel acc bits to (js_shl 1 to - 1) ret in
  grouped n total bits' ret' ∧ bits' < to.
Proof.
  intros Hn Hacc. rewrite maxv_eq.
  revert bits ret. induction fuel as [|f IH]; intros bits ret Hb Hf (Hd & Ht & H0 & Hv).
  - simpl. split; [done|lia].
  - simpl. destruct (Z.leb_spec to bits); [|split; [done|lia]].
    apply IH; [lia..|]. rewrite js_and_ones, js_shr_div, Hacc by lia.
    set (b := bits - to).
    assert (Hg : (n mod 2 ^ 32 / 2 ^ b) mod 2 ^ to = (n / 2 ^ b) mod 2 ^ to).
    { rewrite <- !Z.shiftr_div_pow2, <- !Z.land_ones by lia. apply Z.bits_inj'. intros i Hi.
      rewrite !Z.land_spec, !Z.shiftr_spec, Z.testbit_ones_nonneg by lia.
      destruct (Z.ltb_spec i to); [|by rewrite !andb_false_r].
      rewrite Z.land_spec, Z.testbit_ones_nonneg by lia.
      destruct (Z.ltb_spec (i + b) 32); [by rewrite andb_true_r|lia]. }
    rewrite Hg. split; [|split; [|split]].
    + apply Forall_app. split; [done|]. apply Forall_singleton. apply Z.mod_pos_bound. lia.
    + rewrite length_app. simpl. lia.
    + lia.
    + rewrite of_digits_snoc, Hv. replace bits with (b + to) by lia.
      rewrite Z.pow_add_r, <- Z.div_div by lia.
      pose proof (Z.div_mod (n / 2 ^ b) (2 ^ to)). lia.
Qed.

(** Input values the guard lets through. *)
Lemma convert_guard v :
  0 <= v < 2 ^ from → (v <? 0) || negb (js_sar v from =? 0) = false.
Proof.
  intros Hv. assert (2 ^ from <= 2 ^ 8) by (apply Z.pow_le_mono_r; lia).
  unfold js_sar. rewrite to_i32_small, (Z.mod_small from 32), Z.shiftr_div_pow2 by lia.
  rewrite Z.div_small by lia. destruct (Z.ltb_spec v 0); [lia|done].
Qed.

Lemma convert_step_spec st v n total :
  is_digit (2 ^ from) v → 0 <= n →
  cb_acc st mod 2 ^ 32 = n mod 2 ^ 32 → cb_bits st < to →
  grouped n total (cb_bits st) (cb_ret st) →
  ∃ st', convert_step from to st v = Ok st' ∧
    cb_acc st' mod 2 ^ 32 = (n * 2 ^ from + v) mod 2 ^ 32 ∧ cb_bits st' < to ∧
    grouped (n * 2 ^ from + v) (total + from) (cb_bits st') (cb_ret st').
Proof.
  intros Hv Hn Ha Hb (G1 & G2 & G3 & G4). unfold is_digit in Hv.
  unfold convert_step. rewrite convert_guard by done.
  set (acc := js_or (js_shl (cb_acc st) from) v).
  assert (Hacc : acc mod 2 ^ 32 = (n * 2 ^ from + v) mod 2 ^ 32).
  { unfold acc. rewrite js_shl_or by lia.
    rewrite Z.add_mod, Z.mul_mod, Ha, <- Z.mul_mod, <- Z.add_mod by lia. done. }
  assert (Hg : grouped (n * 2 ^ from + v) (total + from) (cb_bits st + from) (cb_ret st)).
  { split; [done|]. split; [lia|]. split; [lia|].
    rewrite G4, Z.pow_add_r, (Z.mul_comm (2 ^ cb_bits st)), <- Z.div_div by lia.
    rewrite Z.div_add_l, (Z.div_small v), Z.add_0_r by lia. done. }
  pose proof (drain_spec (Z.to_nat (cb_bits st + from)) acc (n * 2 ^ from + v) (total + from)
    (cb_bits st + from) (cb_ret st) ltac:(nia) Hacc ltac:(lia) ltac:(lia) Hg) as Hdr.
  destruct (drain _ acc _ to _ _) as [bits ret]. destruct Hdr.
  eexists. split; [done|]. done.
Qed.

Lemma convert_loop data st n total :
  Forall (is_digit (2 ^ from)) data → 0 <= n →
  cb_acc st mod 2 ^ 32 = n mod 2 ^ 32 → cb_bits st < to →
  grouped n total (cb_bits st) (cb_ret st) →
  let n' := n * 2 ^ (from * Z.of_nat (length data)) + of_digits (2 ^ from) data in
  ∃ st', foldR (convert_step from to) st data = Ok st' ∧
    cb_acc st' mod 2 ^ 32 = n' mod 2 ^ 32 ∧ cb_bits st' < to ∧
    grouped n' (total + from * Z.of_nat (length data)) (cb_bits st') (cb_ret st').
Proof.
  intros Hd. revert st n total. induction Hd as [|v data Hv Hd IH]; intros st n total Hn Ha Hb Hg.
  - exists st. cbn. rewrite Z.mul_0_r, !Z.add_0_r, Z.mul_1_r. done.
  - destruct (convert_step_spec st v n total) as (st1 & H1 & Ha1 & Hb1 & Hg1); try done.
    cbn [foldR]. rewrite H1. cbn [mbind result_bind]. unfold is_digit in Hv.
    destruct (IH st1 (n * 2 ^ from + v) (total + from)) as (st' & H2 & Ha2 & Hb2 & Hg2); try done; [nia|].
    exists st'. split; [done|]. rewrite of_digits_cons.
    assert (He : (n * 2 ^ from + v) * 2 ^ (from * Z.of_nat (length data)) + of_digits (2 ^ from) data =
      n * 2 ^ (from * Z.of_nat (length (v :: data))) +
      (v * (2 ^ from) ^ Z.of_nat (length data) + of_digits (2 ^ from) data)).
    { cbn [length]. rewrite Nat2Z.inj_succ, Z.mul_succ_r, Z.pow_add_r by lia.
      rewrite (Z.pow_mul_r 2) by lia. ring. }
    rewrite <- He. split; [done|]. split; [done|].
    replace (total + from * Z.of_nat (length (v :: data)))
      with (total + from + from * Z.of_nat (length data)) by (cbn [length]; lia). done.
Qed.

Lemma convert_run data :
  Forall (is_digit (2 ^ from)) data →
  ∃ st, foldR (convert_step from to) {| cb_acc := 0; cb_bits := 0; cb_ret := [] |} data = Ok st ∧
    cb_acc st mod 2 ^ 32 = of_digits (2 ^ from) data mod 2 ^ 32 ∧ cb_bits st < to ∧
    grouped (of_digits (2 ^ from) data) (from * Z.of_nat (length data)) (cb_bits st) (cb_ret st).
Proof.
  intros Hd.
  destruct (convert_loop data {| cb_acc := 0; cb_bits := 0; cb_ret := [] |} 0 0)
    as (st & H1 & H2 & H3 & H4); simpl; try done; [lia|by repeat split; simpl; try lia; constructor|].
  exists st. done.
Qed.

(** The bits left over, moved to the top of a group. *)
Lemma rest_group acc n bits :
  0 <= bits < to → acc mod 2 ^ 32 = n mod 2 ^ 32 →
  js_and (js_shl acc (to - bits)) (js_shl 1 to - 1) = (n mod 2 ^ bits) * 2 ^ (to - bits).
Proof.
  intros Hb Ha. rewrite maxv_eq, js_and_ones by lia.
  rewrite (mod_pow2_weaken _ (n * 2 ^ (to - bits))); [|lia|].
  - replace (2 ^ to) with (2 ^ bits * 2 ^ (to - bits)) by (rewrite <- Z.pow_add_r by lia; f_equal; lia).
    apply Z.mul_mod_distr_r; lia.
  - rewrite js_shl_mod by lia. rewrite Z.mul_mod, Ha, <- Z.mul_mod by lia. done.
Qed.

(** With padding: the groups of the input shifted left to fill the last one. *)
Lemma convertBits_pad data :
  Forall (is_digit (2 ^ from)) data →
  ∃ ret k, convertBits data from to true = Ok ret ∧ 0 <= k < to ∧
    Forall (is_digit (2 ^ to)) ret ∧
    from * Z.of_nat (length data) + k = to * Z.of_nat (length ret) ∧
    of_digits (2 ^ to) ret = of_digits (2 ^ from) data * 2 ^ k.
Proof.
  intros Hd. destruct (convert_run data Hd) as (st & Hst & Ha & Hb & G1 & G2 & G3 & G4).
  unfold convertBits. rewrite Hst. cbn [mbind result_bind].
  destruct (Z.ltb_spec 0 (cb_bits st)).
  - rewrite (rest_group _ (of_digits (2 ^ from) data)) by (done || lia).
    eexists _, (to - cb_bits st). split; [done|]. split; [lia|].
    pose proof (Z.mod_pos_bound (of_digits (2 ^ from) data) (2 ^ cb_bits st) ltac:(lia)).
    assert (Hp : 2 ^ to = 2 ^ cb_bits st * 2 ^ (to - cb_bits st))
      by (rewrite <- Z.pow_add_r by lia; f_equal; lia).
    assert (0 < 2 ^ (to - cb_bits st)) by (apply Z.pow_pos_nonneg; lia).
    split; [|split].
    + apply Forall_app. split; [done|]. apply Forall_singleton. unfold is_digit. rewrite Hp. nia.
    + rewrite length_app. simpl. lia.
    + rewrite of_digits_snoc, G4, Hp.
      pose proof (Z.div_mod (of_digits (2 ^ from) data) (2 ^ cb_bits st)). nia.
  - assert (Hz : cb_bits st = 0) by lia. rewrite Hz in *.
    eexists _, 0. rewrite Z.pow_0_r, Z.div_1_r in G4. rewrite Z.pow_0_r, Z.mul_1_r.
    repeat split; try done; lia.
Qed.

(** Without padding: exact groups, fewer than [from] zero bits left over. *)
Lemma convertBits_nopad data n k :
  Forall (is_digit (2 ^ from)) data → from <= to → 0 <= k < from →
  (k < to) → (∃ q : nat, from * Z.of_nat (length data) = to * Z.of_nat q + k) →
  of_digits (2 ^ from) data = n * 2 ^ k →
  ∃ ret, convertBits data from to false = Ok ret ∧
    Forall (is_digit (2 ^ to)) ret ∧
    from * Z.of_nat (length data) = to * Z.of_nat (length ret) + k ∧
    of_digits (2 ^ to) ret = n.
Proof.
  intros Hd Hle Hk Hkt [q Hq] Hn.
  destruct (convert_run data Hd) as (st & Hst & Ha & Hb & G1 & G2 & G3 & G4).
  unfold convertBits. rewrite Hst. cbn [mbind result_bind].
  rewrite (rest_group _ (of_digits (2 ^ from) data)) by (done || lia).
  assert (Hbk : cb_bits st = k) by (destruct (Z.div_mod_unique to (Z.of_nat (length (cb_ret st))) (Z.of_nat q) (cb_bits st) k); lia).
  rewrite Hbk, Hn, Z.mod_mul, Z.mul_0_l by lia.
  destruct (Z.leb_spec from k); [lia|]. cbn.
  eexists. split; [done|]. split; [done|]. split; [lia|].
  rewrite G4, Hbk, Hn. apply Z.div_mul. lia.
Qed.
End convert.

Lemma convertBits_roundtrip_aux data :
  all_bytes data →
  ∃ program, convertBits data 8 5 true = Ok program ∧
    Forall (is_digit 32) program ∧ convertBits program 5 8 false = Ok data.
Proof.
  intros Hd. destruct (convertBits_pad 8 5 ltac:(lia) ltac:(lia) data) as (p & k & Hp & Hk & Hp1 & Hlen & Hv).
  { done. }
  exists p. split; [done|]. split; [done|].
  destruct (convertBits_nopad 5 8 ltac:(lia) ltac:(lia) p (of_digits (2 ^ 8) data) k)
    as (ret & Hr & Hr1 & Hrlen & Hrv); try done; try lia; [by exists (length data); lia|].
  rewrite Hr. f_equal. apply (of_digits_inj_length (2 ^ 8)); try done; lia.
Qed.

(** ** The checksum *)

(** The linear part of a polynomial step, on plain integers. *)
Definition gen_mix (top : Z) : Z :=
  foldl (λ x '(i, g), if Z.testbit top i then Z.lxor x g else x) 0 (zip [0; 1; 2; 3; 4] GEN).

Definition poly_shift (chk : Z) : Z := Z.lxor (Z.shiftl (chk mod 2 ^ 25) 5) (gen_mix (chk / 2 ^ 25)).

Lemma gen_mix_linear a b :
  0 <= a < 32 → 0 <= b < 32 → gen_mix (Z.lxor a b) = Z.lxor (gen_mix a) (gen_mix b).
Proof.
  intros Ha Hb. apply Z.eqb_eq.
  assert (H : forallb (λ a, forallb (λ b, gen_mix (Z.lxor a b) =? Z.lxor (gen_mix a) (gen_mix b))
    (Z.of_nat <$> seq 0 32)) (Z.of_nat <$> seq 0 32) = true) by by vm_compute.
  rewrite forallb_forall in H. specialize (H a). rewrite forallb_forall in H. apply H;
    apply list_elem_of_In, list_elem_of_fmap;
    [exists (Z.to_nat a) | exists (Z.to_nat b)]; (split; [lia | apply elem_of_seq; lia]).
Qed.

Lemma gen_mix_bound a : 0 <= a < 32 → 0 <= gen_mix a < 2 ^ 30.
Proof.
  intros Ha. assert (H : forallb (λ a, (0 <=? gen_mix a) && (gen_mix a <? 2 ^ 30)) (Z.of_nat <$> seq 0 32) = true)
    by by vm_compute.
  rewrite forallb_forall in H. specialize (H a). assert (Hin : In a (Z.of_nat <$> seq 0 32)).
  { apply list_elem_of_In, list_elem_of_fmap. exists (Z.to_nat a). split; [lia|apply elem_of_seq; lia]. }
  specialize (H Hin). lia.
Qed.

Lemma top_range chk : 0 <= chk < 2 ^ 30 → 0 <= chk / 2 ^ 25 < 32.
Proof. intros. split; [apply Z.div_pos; lia|]. apply Z.div_lt_upper_bound; lia. Qed.

Lemma low_range chk : 0 <= chk → 0 <= Z.shiftl (chk mod 2 ^ 25) 5 < 2 ^ 30.
Proof.
  intros. rewrite Z.shiftl_mul_pow2 by lia. pose proof (Z.mod_pos_bound chk (2 ^ 25)). lia.
Qed.

Lemma poly_shift_bound chk : 0 <= chk < 2 ^ 30 → 0 <= poly_shift chk < 2 ^ 30.
Proof.
  intros. apply lxor_bound; [lia|apply low_range; lia|]. apply gen_mix_bound, top_range. done.
Qed.

Lemma lxor_mod_pow2 a b n : 0 <= n → Z.lxor a b mod 2 ^ n = Z.lxor (a mod 2 ^ n) (b mod 2 ^ n).
Proof.
  intros. rewrite <- !Z.land_ones by done. apply Z.bits_inj'. intros i Hi.
  rewrite !Z.land_spec, !Z.lxor_spec, !Z.land_spec.
  destruct (Z.testbit a i), (Z.testbit b i), (Z.testbit (Z.ones n) i); done.
Qed.

Lemma lxor_div_pow2 a b n : 0 <= n → Z.lxor a b / 2 ^ n = Z.lxor (a / 2 ^ n) (b / 2 ^ n).
Proof. intros. rewrite <- !Z.shiftr_div_pow2 by done. apply Z.shiftr_lxor. Qed.

(** Exchanging the middle of an exclusive or of four. *)
Lemma lxor_swap a b c d : Z.lxor (Z.lxor a b) (Z.lxor c d) = Z.lxor (Z.lxor a c) (Z.lxor b d).
Proof. rewrite !Z.lxor_assoc. f_equal. rewrite <- !Z.lxor_assoc. f_equal. apply Z.lxor_comm. Qed.

Lemma poly_shift_linear a b :
  0 <= a < 2 ^ 30 → 0 <= b < 2 ^ 30 → poly_shift (Z.lxor a b) = Z.lxor (poly_shift a) (poly_shift b).
Proof.
  intros Ha Hb. unfold poly_shift.
  rewrite lxor_mod_pow2, lxor_div_pow2, Z.shiftl_lxor by lia.
  rewrite gen_mix_linear by (by apply top_range). apply lxor_swap.
Qed.

Lemma poly_shift_small a : 0 <= a < 2 ^ 25 → poly_shift a = Z.shiftl a 5.
Proof.
  intros. unfold poly_shift. rewrite Z.mod_small, Z.div_small by lia. apply Z.lxor_0_r.
Qed.

Lemma top_bit top i :
  0 <= top < 32 → 0 <= i < 5 → (js_and (js_shr top i) 1 =? 0) = negb (Z.testbit top i).
Proof.
  intros Ht Hi. change 1 with (2 ^ 1 - 1) at 1. rewrite js_and_ones, js_shr_div by lia.
  rewrite (Z.mod_small top) by lia. rewrite Z.testbit_eqb by lia. change (2 ^ 1) with 2.
  pose proof (Z.mod_pos_bound (top / 2 ^ i) 2).
  destruct (Z.eqb_spec ((top / 2 ^ i) mod 2) 0), (Z.eqb_spec ((top / 2 ^ i) mod 2) 1); simpl; lia.
Qed.

(** The inner loop over [GEN], with and without 32-bit wrap-around. *)
Lemma mix_fold top gs x :
  0 <= top < 32 → Forall (λ '(i, g), 0 <= i < 5 ∧ 0 <= g < 2 ^ 30) gs → 0 <= x < 2 ^ 30 →
  foldl (λ chk '(i, g), if js_and (js_shr top i) 1 =? 0 then chk else js_xor chk g) x gs =
  foldl (λ chk '(i, g), if Z.testbit top i then Z.lxor chk g else chk) x gs.
Proof.
  intros Ht Hg. revert x. induction Hg as [|[i g] gs [Hi Hg] Hgs IH]; intros x Hx; [done|].
  cbn [foldl]. rewrite top_bit by done. destruct (Z.testbit top i); cbn [negb].
  - rewrite js_xor_small by lia. apply IH, lxor_bound; lia.
  - by apply IH.
Qed.

Lemma mix_fold_lxor top (gs : list (Z * Z)) a b :
  foldl (λ chk '(i, g), if Z.testbit top i then Z.lxor chk g else chk) (Z.lxor a b) gs =
  Z.lxor a (foldl (λ chk '(i, g), if Z.testbit top i then Z.lxor chk g else chk) b gs).
Proof.
  revert b. induction gs as [|[i g] gs IH]; intros b; [done|]. cbn [foldl].
  destruct (Z.testbit top i); [rewrite Z.lxor_assoc|]; apply IH.
Qed.

(** One step of the program's loop is the linear step plus the value. *)
Lemma polymod_step_eq chk v :
  0 <= chk < 2 ^ 30 → 0 <= v < 32 → polymod_step chk v = Z.lxor (poly_shift chk) v.
Proof.
  intros Hc Hv. unfold polymod_step.
  change 0x1ffffff with (2 ^ 25 - 1). rewrite js_and_ones, js_shr_div by lia.
  rewrite (Z.mod_small chk (2 ^ 32)) by lia.
  pose proof (low_range chk ltac:(lia)) as Hl.
  assert (Hs : js_shl (chk mod 2 ^ 25) 5 = Z.shiftl (chk mod 2 ^ 25) 5).
  { unfold js_shl. pose proof (Z.mod_pos_bound chk (2 ^ 25)).
    rewrite (to_i32_small (chk mod 2 ^ 25)) by lia. apply to_i32_small.
    change (5 mod 32) with 5. lia. }
  rewrite Hs, js_xor_small by lia. rewrite mix_fold; [|by apply top_range| |apply lxor_bound; lia].
  - rewrite <- (Z.lxor_0_r (Z.lxor _ v)), mix_fold_lxor. unfold poly_shift.
    rewrite !Z.lxor_assoc. f_equal. apply Z.lxor_comm.
  - repeat constructor; lia.
Qed.

Lemma polymod_step_bound chk v :
  0 <= chk < 2 ^ 30 → 0 <= v < 32 → 0 <= polymod_step chk v < 2 ^ 30.
Proof.
  intros. rewrite polymod_step_eq by done. apply lxor_bound; [lia| |lia]. by apply poly_shift_bound.
Qed.

Lemma polymod_fold_bound chk vs :
  0 <= chk < 2 ^ 30 → Forall (is_digit 32) vs → 0 <= foldl polymod_step chk vs < 2 ^ 30.
Proof.
  intros Hc Hv. revert chk Hc. induction Hv as [|v vs Hv _ IH]; intros chk Hc; [done|].
  apply IH. by apply polymod_step_bound.
Qed.

(** Feeding values where another run feeds zeros changes the result by the
    values themselves, as long as they have not been shifted out. *)
Lemma polymod_diff chk d v n :
  0 <= chk < 2 ^ 30 → 0 <= d < 2 ^ (5 * n) → 0 <= n <= 5 → 0 <= v < 32 →
  polymod_step (Z.lxor chk d) v = Z.lxor (polymod_step chk 0) (Z.lxor (Z.shiftl d 5) v) ∧
  0 <= Z.lxor (Z.shiftl d 5) v < 2 ^ (5 * (n + 1)).
Proof.
  intros Hc Hd Hn Hv.
  assert (2 ^ (5 * n) <= 2 ^ 25) by (apply Z.pow_le_mono_r; lia).
  assert (0 <= Z.lxor chk d < 2 ^ 30) by (apply lxor_bound; lia).
  rewrite !polymod_step_eq by lia.
  rewrite Z.lxor_0_r, (poly_shift_linear chk d), (poly_shift_small d) by lia.
  rewrite Z.lxor_assoc. split; [done|].
  assert (Hp : 2 ^ (5 * (n + 1)) = 2 ^ (5 * n) * 32)
    by (rewrite Z.mul_add_distr_l, Z.pow_add_r by lia; done).
  assert (1 <= 2 ^ (5 * n)) by (apply (Z.pow_le_mono_r 2 0); lia).
  apply lxor_bound; rewrite ?Hp, ?Z.shiftl_mul_pow2; lia.
Qed.

Lemma polymod_tail c vs :
  0 <= c < 2 ^ 30 → Forall (is_digit 32) vs → (length vs <= 6)%nat →
  let d := foldl (λ d v, Z.lxor (Z.shiftl d 5) v) 0 vs in
  foldl polymod_step c vs = Z.lxor (foldl polymod_step c (replicate (length vs) 0)) d ∧
  0 <= d < 2 ^ (5 * Z.of_nat (length vs)).
Proof.
  intros Hc. induction vs as [|v vs IH] using rev_ind; intros Hv Hl.
  - cbn. rewrite Z.lxor_0_r. split; [done|lia].
  - apply Forall_app in Hv as [Hvs Hv]. rewrite Forall_singleton in Hv.
    rewrite length_app in *. cbn [length] in *. destruct IH as [IH Hd]; [done|lia|].
    rewrite !foldl_app, replicate_add, foldl_app. cbn [foldl replicate]. rewrite IH.
    destruct (polymod_diff (foldl polymod_step c (replicate (length vs) 0))
      (foldl (λ d v, Z.lxor (Z.shiftl d 5) v) 0 vs) v (Z.of_nat (length vs))) as [H1 H2].
    + apply polymod_fold_bound; [done|]. apply Forall_replicate. unfold is_digit. lia.
    + done.
    + lia.
    + done.
    + rewrite H1. split; [done|]. by rewrite Nat2Z.inj_add.
Qed.

Lemma bech32_checksum_digits hrp data : Forall (is_digit 32) (bech32CreateChecksum hrp data).
Proof.
  unfold bech32CreateChecksum. apply Forall_fmap, Forall_forall. intros p _. unfold compose.
  change 31 with (2 ^ 5 - 1). rewrite js_and_ones by lia. unfold is_digit.
  apply (Z.mod_pos_bound _ (2 ^ 5)). lia.
Qed.

Lemma hrp_expand_digits hrp : Forall (is_digit 32) (bech32HrpExpand hrp).
Proof.
  unfold bech32HrpExpand. repeat (apply Forall_app; split).
  - apply Forall_fmap, Forall_forall. intros c _. unfold compose. pose proof (code_range c).
    rewrite js_shr_div, Z.mod_small by lia. unfold is_digit. change (2 ^ 5) with 32.
    split; [apply Z.div_pos; lia|apply Z.div_lt_upper_bound; lia].
  - repeat constructor; lia.
  - apply Forall_fmap, Forall_forall. intros c _. unfold compose.
    change 31 with (2 ^ 5 - 1). rewrite js_and_ones by lia. apply (Z.mod_pos_bound _ (2 ^ 5)). lia.
Qed.

(** Six 5-bit groups put back together. *)
Lemma repack m :
  0 <= m < 2 ^ 30 →
  let g p := (m / 2 ^ (5 * (5 - p))) mod 32 in
  foldl (λ d p, Z.lxor (Z.shiftl d 5) (g p)) 0 [0; 1; 2; 3; 4; 5] = m.
Proof.
  intros Hm g.
  assert (Hs : ∀ j k, 0 <= k → j = k + 5 →
    Z.lxor (Z.shiftl (m / 2 ^ j) 5) ((m / 2 ^ k) mod 32) = m / 2 ^ k).
  { intros j k Hk ->. rewrite Z.pow_add_r, <- Z.div_div by lia.
    set (x := m / 2 ^ k). change 32 with (2 ^ 5).
    rewrite <- Z.shiftr_div_pow2, <- Z.land_ones by lia.
    apply Z.bits_inj'. intros i Hi. rewrite Z.lxor_spec, Z.land_spec, Z.testbit_ones_nonneg by lia.
    destruct (Z.ltb_spec i 5).
    - rewrite Z.shiftl_spec_low by lia. by rewrite andb_true_r, xorb_false_l.
    - rewrite Z.shiftl_spec_high, Z.shiftr_spec by lia. rewrite andb_false_r, xorb_false_r. f_equal. lia. }
  unfold g. cbn [foldl]. change (Z.shiftl 0 5) with 0. rewrite Z.lxor_0_l.
  rewrite (Z.mod_small (m / 2 ^ (5 * (5 - 0))))
    by (split; [apply Z.div_pos; lia|apply Z.div_lt_upper_bound; lia]).
  rewrite !Hs by lia. apply Z.div_1_r.
Qed.

(** The six groups of [m ^ 1], fed after [c], turn a remainder of [m] into 1. *)
Lemma checksum_groups c m vs :
  0 <= c < 2 ^ 30 → foldl polymod_step c (replicate 6 0) = m → 0 <= m < 2 ^ 30 →
  vs = (λ p, (Z.lxor m 1 / 2 ^ (5 * (5 - p))) mod 32) <$> [0; 1; 2; 3; 4; 5] →
  foldl polymod_step c vs = 1.
Proof.
  intros Hc Hm Hb Hvs. assert (Hx : 0 <= Z.lxor m 1 < 2 ^ 30) by (apply lxor_bound; lia).
  pose proof (repack _ Hx) as Hp. cbv zeta in Hp.
  assert (Hl : length vs = 6%nat) by (by rewrite Hvs).
  assert (Hd : foldl (λ d v, Z.lxor (Z.shiftl d 5) v) 0 vs = Z.lxor m 1).
  { rewrite Hvs. cbn [fmap list_fmap foldl]. cbn [foldl] in Hp. exact Hp. }
  destruct (polymod_tail c vs Hc) as [Ht _]; [|by rewrite Hl|].
  { rewrite Hvs. apply Forall_fmap, Forall_forall. intros p _. apply Z.mod_pos_bound. lia. }
  rewrite Ht, Hd, Hl, Hm. by rewrite <- Z.lxor_assoc, Z.lxor_nilpotent.
Qed.

Lemma bech32_checksum_valid_aux hrp data :
  Forall (is_digit 32) data →
  bech32Polymod (bech32HrpExpand hrp ++ data ++ bech32CreateChecksum hrp data) = 1.
Proof.
  intros Hd. unfold bech32CreateChecksum, bech32Polymod.
  rewrite !app_assoc, !foldl_app.
  assert (Hc : 0 <= foldl polymod_step 1 (bech32HrpExpand hrp ++ data) < 2 ^ 30).
  { apply polymod_fold_bound; [lia|]. apply Forall_app. split; [apply hrp_expand_digits|done]. }
  rewrite foldl_app in Hc.
  set (c := foldl polymod_step (foldl polymod_step 1 (bech32HrpExpand hrp)) data) in *. clearbody c.
  assert (Hm : 0 <= foldl polymod_step c [0; 0; 0; 0; 0; 0] < 2 ^ 30).
  { apply polymod_fold_bound; [done|]. repeat constructor; lia. }
  remember (foldl polymod_step c [0; 0; 0; 0; 0; 0]) as m eqn:Em.
  apply (checksum_groups c m); [done|by rewrite Em|done|].
  rewrite js_xor_small by lia. apply list_fmap_ext. intros i p Hp.
  apply list_elem_of_lookup_2, list_elem_of_In in Hp. assert (0 <= p <= 5) by (simpl in Hp; lia).
  change 31 with (2 ^ 5 - 1). rewrite js_and_ones, js_shr_div by lia.
  rewrite (Z.mod_small (Z.lxor m 1)); [done|].
  pose proof (lxor_bound m 1 30). lia.
Qed.

(** ** The string format *)

Lemma bech32_charset_nodup : NoDup (chars BECH32_CHARSET).
Proof. apply (bool_decide_eq_true (NoDup _)). by vm_compute. Qed.

Lemma bech32_charset_no_one : "1"%char ∉ chars BECH32_CHARSET.
Proof. apply (bool_decide_eq_true (_ ∉ _)). by vm_compute. Qed.

Lemma bech32_charset_length : length (chars BECH32_CHARSET) = 32%nat.
Proof. done. Qed.

#[local] Opaque BECH32_CHARSET.

Lemma bech32_char_spec d : is_digit 32 d →
  ∃ c, bech32_char d = [c] ∧ index_of c (chars BECH32_CHARSET) = d ∧ c ≠ "1"%char.
Proof.
  intros [H0 H1]. unfold bech32_char. destruct (Z.ltb_spec d 0); [lia|].
  destruct (lookup_lt_is_Some_2 (chars BECH32_CHARSET) (Z.to_nat d)) as [c Hc].
  { rewrite bech32_charset_length. lia. }
  exists c. rewrite Hc. split; [done|]. split.
  - rewrite (index_of_nodup c _ (Z.to_nat d)); [lia|apply bech32_charset_nodup|done].
  - intros ->. by eapply bech32_charset_no_one, list_elem_of_lookup_2.
Qed.

(** The characters of a digit string: one each, none of them the separator. *)
Lemma bech32_chars_spec ds : Forall (is_digit 32) ds →
  let cs := mjoin (bech32_char <$> ds) in
  length cs = length ds ∧ "1"%char ∉ cs ∧
  ((λ c, index_of c (chars BECH32_CHARSET)) <$> cs) = ds.
Proof.
  induction 1 as [|d ds Hd _ (IH1 & IH2 & IH3)]; [split; [done|split; [set_solver|done]]|].
  destruct (bech32_char_spec d Hd) as (c & Hc & Hi & Hne).
  change (mjoin (bech32_char <$> d :: ds)) with (bech32_char d ++ mjoin (bech32_char <$> ds)).
  rewrite Hc. cbn [app length]. split; [lia|]. split; [set_solver|].
  rewrite fmap_cons, Hi, IH3. done.
Qed.

Lemma last_index_none c l : c ∉ l → last_index_of c l = -1.
Proof.
  induction l as [|a l IH]; intros H; [done|]. simpl. rewrite IH by set_solver. simpl.
  destruct (Ascii.eqb_spec a c) as [->|]; [set_solver|done].
Qed.

Lemma last_index_app c p l : c ∉ l → last_index_of c (p ++ c :: l) = Z.of_nat (length p).
Proof.
  intros H. induction p as [|a p IH]; simpl.
  - rewrite last_index_none by done. simpl. by rewrite Ascii.eqb_refl.
  - rewrite IH. destruct (Z.ltb_spec (Z.of_nat (length p)) 0); lia.
Qed.

Lemma last_index_ge c l i : l !! i = Some c → Z.of_nat i <= last_index_of c l < Z.of_nat (length l).
Proof.
  revert i. induction l as [|a l IH]; intros i Hi; [done|]. cbn [last_index_of length].
  destruct i as [|i].
  - simpl in Hi. injection Hi as ->. rewrite Ascii.eqb_refl.
    assert (last_index_of c l < Z.of_nat (length l)).
    { clear IH. induction l as [|b l IHl]; cbn [last_index_of length]; [lia|].
      destruct (Z.ltb_spec (last_index_of c l) 0); [case_if; lia|lia]. }
    destruct (Z.ltb_spec (last_index_of c l) 0); lia.
  - specialize (IH i Hi). destruct (Z.ltb_spec (last_index_of c l) 0); lia.
Qed.

(** Everything but the six characters after the data part is kept. *)
Lemma bech32Decode_parts h d k :
  "1"%char ∉ d → "1"%char ∉ k → length k = 6%nat →
  bech32Decode (of_chars (h ++ "1"%char :: d ++ k)) =
  (of_chars h, (λ c, index_of c (chars BECH32_CHARSET)) <$> d).
Proof.
  intros Hd Hk Hl. unfold bech32Decode. rewrite chars_of_chars, last_index_app by set_solver.
  f_equal.
  - f_equal. rewrite js_slice_prefix by (rewrite length_app; lia). apply take_app_length.
  - f_equal. unfold js_slice, rel_index. cbn [Z.ltb Z.compare].
    rewrite !length_app. cbn [length]. rewrite length_app, Hl.
    destruct (Z.ltb_spec (Z.of_nat (length h) + 1) 0); [lia|].
    rewrite Z.max_l, Z.min_l by lia.
    replace (Z.to_nat (Z.of_nat (length h) + 1)) with (length h + 1)%nat by lia.
    rewrite <- drop_drop, drop_app_length. cbn [drop].
    replace (Z.to_nat _) with (length d) by lia. apply take_app_length.
Qed.

Lemma bech32_decode_encode hrp data :
  Forall (is_digit 32) data → bech32Decode (bech32Encode hrp data) = (hrp, data).
Proof.
  intros Hd. unfold bech32Encode. pose proof (bech32_checksum_digits hrp data) as Hc.
  destruct (bech32_chars_spec data Hd) as (_ & Hd1 & Hd2).
  destruct (bech32_chars_spec _ Hc) as (Hk & Hk1 & _).
  rewrite fmap_app, join_app.
  rewrite <- (of_chars_chars hrp) at 1. rewrite <- (of_chars_chars "1").
  rewrite <- !of_chars_app. cbn [chars app].
  change (chars "1" ++ ?l) with ("1"%char :: l).
  rewrite bech32Decode_parts by done. by rewrite of_chars_chars, Hd2.
Qed.

(** ** Theorems *)

(** Regrouping a byte string into 5-bit groups with padding and back
    without is the identity, and neither direction throws: the witness program
    of an address is never corrupted by the 32-bit accumulator. *)
Theorem convertBits_roundtrip data :
  all_bytes data →
  ∃ program, convertBits data 8 5 true = Ok program ∧
    Forall (is_digit 32) program ∧ convertBits program 5 8 false = Ok data.
Proof. apply convertBits_roundtrip_aux. Qed.

Lemma convertBits_roundtrip_witness :
  all_bytes [255; 0; 129] ∧
  ∃ program, convertBits [255; 0; 129] 8 5 true = Ok program ∧
    Forall (is_digit 32) program ∧ convertBits program 5 8 false = Ok [255; 0; 129].
Proof.
  assert (all_bytes [255; 0; 129]) by (repeat constructor; lia).
  split; [done|]. by apply convertBits_roundtrip.
Defined.

(** The six characters [bech32Encode] appends make the BIP173 polynomial of
    the whole string equal to 1, which is the validity condition of the standard. *)
Theorem bech32_checksum_valid hrp data :
  Forall (is_digit 32) data →
  bech32Polymod (bech32HrpExpand hrp ++ data ++ bech32CreateChecksum hrp data) = 1.
Proof. apply bech32_checksum_valid_aux. Qed.

Lemma bech32_checksum_valid_witness :
  Forall (is_digit 32) [0; 14; 31] ∧
  bech32Polymod (bech32HrpExpand "cac" ++ [0; 14; 31] ++ bech32CreateChecksum "cac" [0; 14; 31]) = 1.
Proof.
  assert (Forall (is_digit 32) [0; 14; 31]) by (repeat constructor; lia).
  split; [done|]. by apply bech32_checksum_valid.
Defined.

(** The decoder never compares a checksum: any six characters in its place give
    the same result. *)
Theorem bech32Decode_ignores_checksum h d k k' :
  "1"%char ∉ d → "1"%char ∉ k → "1"%char ∉ k' → length k = 6%nat → length k' = 6%nat →
  bech32Decode (of_chars (h ++ "1"%char :: d ++ k)) =
  bech32Decode (of_chars (h ++ "1"%char :: d ++ k')).
Proof. intros. by rewrite !bech32Decode_parts. Qed.

Lemma bech32Decode_ignores_checksum_witness :
  bech32Decode "cac1qpzqqqqqq" = bech32Decode "cac1qpzllllll".
Proof.
  apply (bech32Decode_ignores_checksum (chars "cac") (chars "qpz") (chars "qqqqqq") (chars "llllll"));
    try done; apply (bool_decide_eq_true (_ ∉ _)); by vm_compute.
Defined.
