(* ===== verification/Address.v ===== *)
(** * Addresses (web-wallet/crypto.js, [NETWORKS] to [decodeAddress])

    The three address forms the wallet writes and the one decoder it reads them
    with.  Round trips hold for every form; for Base58Check addresses under the
    side condition that the text does not look like bech32 to the decoder's
    prefix test.  That condition is not vacuous: [decodeAddress_rejects_own]
    exhibits mainnet P2PKH addresses, for every choice of hash function, that
    the wallet encodes and then refuses. *)

From S2P Require Import Prelude JsString Primitives Base58 Bech32.

Record network := {
  p2pkhVersion : Z;
  p2shVersion : Z;
  wifVersion : Z;
  bech32Hrp : string;
  bip44CoinType : Z;
  bip32Versions : bip32_versions;
}.

Definition mainnet : network := {|
  p2pkhVersion := 0x1c; p2shVersion := 0x3f; wifVersion := 0x9c;
  bech32Hrp := "cac"; bip44CoinType := 3377;
  bip32Versions := {| v_private := 0x0488ade4; v_public := 0x0488b21e |};
|}.

Definition testnet : network := {|
  p2pkhVersion := 0x6f; p2shVersion := 0xc4; wifVersion := 0xef;
  bech32Hrp := "tcac"; bip44CoinType := 1;
  bip32Versions := {| v_private := 0x04358394; v_public := 0x043587cf |};
|}.

(** [NETWORKS[name]]; any other name is [undefined]. *)
Definition NETWORKS (name : string) : option network :=
  if String.eqb name "mainnet" then Some mainnet
  else if String.eqb name "testnet" then Some testnet
  else None.

Inductive AddressType := P2pkh | P2sh | P2wpkh.

#[export] Instance AddressType_eq_dec : EqDecision AddressType.
Proof. solve_decision. Defined.

Record decoded := { d_type : AddressType; d_hash : bytes }.

Section address.
Context {P : Primitives}.

Definition hash160 (b : bytes) : bytes := ripemd160 (sha256 b).

(** [payload[0] = version; payload.set(hash, 1)] on 21 fresh bytes. *)
Definition versioned (version : Z) (hash : bytes) : result bytes :=
  u8_set (to_u8 version :: u8_new 20) hash 1.

Definition p2pkhAddress (pubkeyHash20 : bytes) (net : network) : result string :=
  payload ← versioned (p2pkhVersion net) pubkeyHash20;
  base58checkEncode payload.

Definition p2shAddress (scriptHash20 : bytes) (net : network) : result string :=
  payload ← versioned (p2shVersion net) scriptHash20;
  base58checkEncode payload.

Definition p2wpkhAddress (pubkeyHash20 : bytes) (net : network) : result string :=
  program ← convertBits pubkeyHash20 8 5 true;
  Ok (bech32Encode (bech32Hrp net) (0 :: program)).

(** [address.toLowerCase().startsWith(network.bech32Hrp + "1")] *)
Definition looks_bech32 (address : string) (net : network) : bool :=
  js_starts_with (js_lower address) (bech32Hrp net +:+ "1").

Definition decodeAddress (address : string) (net : network) : result decoded :=
  if looks_bech32 address net then
    let '(hrp, data) := bech32Decode address in
    _ ← throw_if (negb (String.eqb hrp (bech32Hrp net)))
          (ExError "Address is for a different network");
    program ← convertBits (js_slice_from data 1) 5 8 false;
    _ ← throw_if (negb (bool_decide (data !! 0%nat = Some 0)) || negb (length program =? 20)%nat)
          (ExError "Unsupported witness version/program length");
    Ok {| d_type := P2wpkh; d_hash := to_u8 <$> program |}
  else
    dec ← base58checkDecode address;
    _ ← throw_if (negb (length dec =? 21)%nat) (ExError "Invalid Base58Check address length");
    let version := default 0 (dec !! 0%nat) in
    let payload := js_slice_from dec 1 in
    if version =? p2pkhVersion net then Ok {| d_type := P2pkh; d_hash := payload |}
    else if version =? p2shVersion net then Ok {| d_type := P2sh; d_hash := payload |}
    else Throw (ExError ("Address version byte " +:+ show version +:+ " does not match this network")).

(** ** Lemmas *)

Lemma versioned_ok v h : length h = 20%nat → versioned v h = Ok (to_u8 v :: h).
Proof.
  intros Hl. unfold versioned. rewrite <- Hl.
  apply (u8_set_last [to_u8 v] h).
Qed.

Lemma js_slice_from_1 {A} (x : A) l : js_slice_from (x :: l) 1 = l.
Proof. apply (js_slice_from_drop (x :: l) 1). simpl. lia. Qed.

Lemma lower_app s t : js_lower (s +:+ t) = js_lower s +:+ js_lower t.
Proof. unfold js_lower. by rewrite chars_app, fmap_app, of_chars_app. Qed.

(** A network whose tag is lower case and whose two Base58 versions are
    distinct bytes; both entries of [NETWORKS] are. *)
Definition network_ok (net : network) : Prop :=
  js_lower (bech32Hrp net +:+ "1") = bech32Hrp net +:+ "1" ∧
  is_byte (p2pkhVersion net) ∧ is_byte (p2shVersion net) ∧ p2pkhVersion net ≠ p2shVersion net.

Lemma networks_ok name net : NETWORKS name = Some net → network_ok net.
Proof.
  unfold NETWORKS. repeat case_if; intros [= <-]; (split; [done|]); unfold is_byte; simpl; lia.
Qed.

Context {PL : PrimitiveLaws}.

(** What the decoder does with the Base58Check encoding of [v :: h]. *)
Lemma decode_versioned net v h s :
  is_byte v → all_bytes h → length h = 20%nat →
  base58checkEncode (v :: h) = Ok s → looks_bech32 s net = false →
  decodeAddress s net =
  if v =? p2pkhVersion net then Ok {| d_type := P2pkh; d_hash := h |}
  else if v =? p2shVersion net then Ok {| d_type := P2sh; d_hash := h |}
  else Throw (ExError ("Address version byte " +:+ show v +:+ " does not match this network")).
Proof.
  intros Hv Hh Hl Hs Hb. unfold decodeAddress. rewrite Hb.
  destruct (base58check_roundtrip_aux (v :: h)) as (s' & Hs' & Hd); [by apply all_bytes_cons|].
  rewrite Hs in Hs'. injection Hs' as <-. rewrite Hd. cbn [mbind result_bind].
  cbn [length]. rewrite Hl. cbn [Nat.eqb negb throw_if mbind result_bind].
  rewrite js_slice_from_1. done.
Qed.

Lemma p2pkhAddress_encode h net :
  network_ok net → length h = 20%nat → p2pkhAddress h net = base58checkEncode (p2pkhVersion net :: h).
Proof.
  intros (_ & Hv & _ & _) Hl. unfold p2pkhAddress. rewrite versioned_ok by done. cbn.
  by rewrite to_u8_id.
Qed.

Lemma p2shAddress_encode h net :
  network_ok net → length h = 20%nat → p2shAddress h net = base58checkEncode (p2shVersion net :: h).
Proof.
  intros (_ & _ & Hv & _) Hl. unfold p2shAddress. rewrite versioned_ok by done. cbn.
  by rewrite to_u8_id.
Qed.

Lemma decode_p2pkh net h s :
  network_ok net → all_bytes h → length h = 20%nat →
  p2pkhAddress h net = Ok s → looks_bech32 s net = false →
  decodeAddress s net = Ok {| d_type := P2pkh; d_hash := h |}.
Proof.
  intros Hn Hh Hl Hs Hb. rewrite p2pkhAddress_encode in Hs by done.
  destruct Hn as (_ & Hv & _ & _).
  rewrite (decode_versioned net (p2pkhVersion net) h) by done. by rewrite Z.eqb_refl.
Qed.

Lemma decode_p2sh net h s :
  network_ok net → all_bytes h → length h = 20%nat →
  p2shAddress h net = Ok s → looks_bech32 s net = false →
  decodeAddress s net = Ok {| d_type := P2sh; d_hash := h |}.
Proof.
  intros Hn Hh Hl Hs Hb. rewrite p2shAddress_encode in Hs by done.
  destruct Hn as (_ & _ & Hv & Hne).
  rewrite (decode_versioned net (p2shVersion net) h) by done. rewrite Z.eqb_refl.
  destruct (Z.eqb_spec (p2shVersion net) (p2pkhVersion net)); [congruence|done].
Qed.

Lemma decode_p2wpkh net h :
  network_ok net → all_bytes h → length h = 20%nat →
  ∃ s, p2wpkhAddress h net = Ok s ∧ decodeAddress s net = Ok {| d_type := P2wpkh; d_hash := h |}.
Proof.
  intros (Hlow & _) Hh Hl. unfold p2wpkhAddress.
  destruct (convertBits_roundtrip_aux h Hh) as (p & Hp & Hd & Hback). rewrite Hp. cbn.
  eexists. split; [done|]. unfold decodeAddress.
  assert (Hb : looks_bech32 (bech32Encode (bech32Hrp net) (0 :: p)) net = true).
  { unfold looks_bech32, js_starts_with, bech32Encode. rewrite str_app_assoc, lower_app, Hlow.
    rewrite (chars_app (_ +:+ _)). apply is_prefix_app. }
  rewrite Hb, bech32_decode_encode by (constructor; [unfold is_digit; lia|done]).
  rewrite String.eqb_refl. cbn [negb throw_if mbind result_bind].
  rewrite js_slice_from_1, Hback. cbn [mbind result_bind]. rewrite Hl. cbn.
  by rewrite all_bytes_map_u8.
Qed.

(** ** First characters *)

Lemma first_char_range v h k lo hi :
  is_byte v → v ≠ 0 → all_bytes h → length h = 20%nat → 0 < lo → hi < 58 →
  v * 2 ^ 192 / 58 ^ Z.of_nat k = lo → ((v + 1) * 2 ^ 192 - 1) / 58 ^ Z.of_nat k = hi →
  ∃ q rest, lo <= q <= hi ∧ base58checkEncode (v :: h) = Ok (of_chars (b58_char q :: rest)).
Proof.
  intros Hv Hnz Hh Hl Hlo Hhi Elo Ehi.
  assert (Hb : all_bytes (v :: h)) by by apply all_bytes_cons.
  rewrite encode_unfold. cbv zeta.
  assert (Hz : leading_zeros (checked (v :: h)) = O) by (simpl; by destruct (Z.eqb_spec v 0)).
  rewrite Hz. set (N := of_digits 256 (checked (v :: h))).
  assert (HN : v * 2 ^ 192 <= N <= (v + 1) * 2 ^ 192 - 1).
  { unfold N, checked. change ((v :: h) ++ ?c) with (v :: (h ++ c)). rewrite of_digits_cons.
    assert (Hr : Forall (is_digit 256) (h ++ take 4 (doubleSha256 (v :: h))))
      by (apply Forall_app; split; [done|apply checksum_bytes]).
    pose proof (of_digits_bound 256 ltac:(lia) _ Hr) as Hbd.
    rewrite length_app, checksum_length, Hl in *.
    change (256 ^ Z.of_nat (20 + 4)) with (2 ^ 192) in *. lia. }
  assert (Hq : lo <= N / 58 ^ Z.of_nat k <= hi).
  { rewrite <- Elo, <- Ehi. split; apply Z.div_le_mono; lia. }
  destruct (to_digits_split 58 ltac:(lia) k N) as (es & _ & _ & He); [lia|].
  exists (N / 58 ^ Z.of_nat k), (b58_char <$> es). split; [done|].
  rewrite He, (to_digits_single 58) by lia. done.
Qed.

Lemma not_bech32_head c rest net h0 hs :
  chars (bech32Hrp net) = h0 :: hs → Ascii.eqb h0 (lower_char c) = false →
  looks_bech32 (of_chars (c :: rest)) net = false.
Proof.
  intros Hh Hc. unfold looks_bech32, js_starts_with, js_lower.
  rewrite chars_app, Hh, !chars_of_chars. cbn. by rewrite Hc.
Qed.

(** Which character a version byte puts first, as a digit range. *)
Lemma first_char_net net v h :
  net = mainnet ∨ net = testnet → v = p2pkhVersion net ∨ v = p2shVersion net →
  all_bytes h → length h = 20%nat →
  ∃ q rest, base58checkEncode (v :: h) = Ok (of_chars (b58_char q :: rest)) ∧
    ((net = mainnet ∧ v = p2pkhVersion net ∧ q = 11) ∨ (net = mainnet ∧ q = 25) ∨
     (net = testnet ∧ 44 <= q <= 45) ∨ (net = testnet ∧ q = 1)).
Proof.
  intros [-> | ->] [-> | ->] Hh Hl.
  - destruct (first_char_range 0x1c h 33 11 11) as (q & r & Hq & He); try done; try lia.
    exists q, r. split; [done|]. left. split; [done|]. split; [done|lia].
  - destruct (first_char_range 0x3f h 33 25 25) as (q & r & Hq & He); try done; try lia.
    exists q, r. split; [done|]. right; left. split; [done|lia].
  - destruct (first_char_range 0x6f h 33 44 45) as (q & r & Hq & He); try done; try lia.
    exists q, r. split; [done|]. right; right; left. done.
  - destruct (first_char_range 0xc4 h 34 1 1) as (q & r & Hq & He); try done; try lia.
    exists q, r. split; [done|]. right; right; right. split; [done|lia].
Qed.

Definition encode_address (ty : AddressType) (h : bytes) (net : network) : result string :=
  match ty with
  | P2pkh => p2pkhAddress h net
  | P2sh => p2shAddress h net
  | P2wpkh => p2wpkhAddress h net
  end.

Lemma NETWORKS_cases name net : NETWORKS name = Some net → net = mainnet ∨ net = testnet.
Proof. unfold NETWORKS. repeat case_if; intros [= <-]; auto. Qed.

(** ** Theorems *)

(** C35. Every address the wallet can write for a 20-byte hash on a configured
    network is read back as the same type and hash, with one exception: a
    mainnet P2PKH address that happens to begin with the letters of the bech32
    tag. *)
Theorem decodeAddress_roundtrip name net ty h :
  NETWORKS name = Some net → all_bytes h → length h = 20%nat →
  ∃ s, encode_address ty h net = Ok s ∧
    (decodeAddress s net = Ok {| d_type := ty; d_hash := h |} ∨
     (net = mainnet ∧ ty = P2pkh ∧ looks_bech32 s net = true)).
Proof.
  intros Hname Hh Hl. pose proof (networks_ok name net Hname) as Hok.
  pose proof (NETWORKS_cases name net Hname) as Hnet.
  destruct ty; simpl.
  - rewrite p2pkhAddress_encode by done.
    destruct (first_char_net net (p2pkhVersion net) h Hnet) as (q & r & He & Hq); [by left|done..|].
    rewrite He. eexists. split; [done|].
    destruct (looks_bech32 (of_chars (b58_char q :: r)) net) eqn:Hb.
    + destruct Hq as [(-> & _ & _)|[(-> & ->)|[(-> & Hq)|(-> & ->)]]]; [by right|exfalso..].
      * by rewrite (not_bech32_head _ _ _ "c"%char (chars "ac")) in Hb.
      * assert (q = 44 ∨ q = 45) as [-> | ->] by lia;
          by rewrite (not_bech32_head _ _ _ "t"%char (chars "cac")) in Hb.
      * by rewrite (not_bech32_head _ _ _ "t"%char (chars "cac")) in Hb.
    + left. apply decode_p2pkh; try done. by rewrite p2pkhAddress_encode.
  - rewrite p2shAddress_encode by done.
    destruct (first_char_net net (p2shVersion net) h Hnet) as (q & r & He & Hq); [by right|done..|].
    rewrite He. eexists. split; [done|]. left. apply decode_p2sh; try done; [by rewrite p2shAddress_encode|].
    destruct Hq as [(-> & Hv & _)|[(-> & ->)|[(-> & Hq)|(-> & ->)]]].
    + done.
    + by apply (not_bech32_head _ _ _ "c"%char (chars "ac")).
    + assert (q = 44 ∨ q = 45) as [-> | ->] by lia;
        by apply (not_bech32_head _ _ _ "t"%char (chars "cac")).
    + by apply (not_bech32_head _ _ _ "t"%char (chars "cac")).
  - destruct (decode_p2wpkh net h) as (s & Hs & Hd); [done..|]. exists s. auto.
Qed.

(** A Base58 address of one network is refused on the other, with the
    message that names its version byte. *)
Theorem network_separation ty h net net' s :
  (net, net') = (mainnet, testnet) ∨ (net, net') = (testnet, mainnet) →
  ty ≠ P2wpkh → all_bytes h → length h = 20%nat →
  encode_address ty h net = Ok s →
  ∃ v, decodeAddress s net' =
    Throw (ExError ("Address version byte " +:+ show v +:+ " does not match this network")).
Proof.
  intros Hnets Hty Hh Hl Hs.
  assert (Hnet : net = mainnet ∨ net = testnet) by (destruct Hnets; simplify_eq; auto).
  assert (Hok : network_ok net)
    by (destruct Hnet as [-> | ->]; [apply (networks_ok "mainnet")|apply (networks_ok "testnet")]; done).
  assert (∃ v, (v = p2pkhVersion net ∨ v = p2shVersion net) ∧ base58checkEncode (v :: h) = Ok s) as (v & Hv & He).
  { destruct ty; simpl in Hs; [|rewrite p2shAddress_encode in Hs by done; eauto|done].
    rewrite p2pkhAddress_encode in Hs by done. eauto. }
  exists v. destruct (first_char_net net v h Hnet Hv Hh Hl) as (q & r & Hq & Hcases).
  rewrite He in Hq. injection Hq as ->.
  assert (is_byte v) by (destruct Hok as (_ & ? & ? & _), Hv; by subst).
  rewrite (decode_versioned net' v h); try done.
  - destruct Hnets as [[= -> ->]|[= -> ->]], Hv as [-> | ->]; done.
  - destruct Hnets as [[= -> ->]|[= -> ->]].
    + destruct Hcases as [(_ & _ & ->)|[(_ & ->)|[(? & _)|(? & _)]]]; try done;
        by apply (not_bech32_head _ _ _ "t"%char (chars "cac")).
    + destruct Hcases as [(? & _)|[(? & _)|[(_ & ?)|(_ & ->)]]]; try done.
      assert (q = 44 ∨ q = 45) as [-> | ->] by lia;
        by apply (not_bech32_head _ _ _ "c"%char (chars "ac")).
Qed.

(** The exception is real, whatever the hash functions are: the wallet writes
    this P2PKH address and then reports it as one of a different network. *)
Theorem decodeAddress_rejects_own :
  ∃ s, p2pkhAddress ([0xc2; 0x71] ++ replicate 18 0) mainnet = Ok s ∧
    decodeAddress s mainnet = Throw (ExError "Address is for a different network").
Proof.
  rewrite p2pkhAddress_encode by (done || by apply (networks_ok "mainnet")).
  destruct (encode_prefix (0x1c :: [0xc2; 0x71] ++ replicate 18 0) 30 (of_digits 58 [11; 33; 11; 0])
    0x1c ([0xc2; 0x71] ++ replicate 18 0)) as (rest & Hl & He); try done; try lia.
  { apply (bool_decide_eq_true (Forall _ _)). by vm_compute. }
  { intros c Hc. remember (of_digits 256 _) as n eqn:En. vm_compute in En.
    remember (of_digits 58 [11; 33; 11; 0]) as q eqn:Eq. vm_compute in Eq.
    remember (58 ^ Z.of_nat 30) as b eqn:Eb. vm_compute in Eb.
    symmetry. apply (Z.div_unique_pos _ _ _ (n * 2 ^ 32 + c - b * q)); lia. }
  change (p2pkhVersion mainnet) with 0x1c. rewrite He. eexists. split; [done|].
  change (b58_char <$> to_digits 58 (of_digits 58 [11; 33; 11; 0])) with (chars "CaC1").
  set (l := chars "CaC1" ++ rest).
  assert (Hb : looks_bech32 (of_chars l) mainnet = true).
  { unfold looks_bech32, js_starts_with, js_lower, l. rewrite !chars_of_chars, fmap_app.
    apply (is_prefix_app (chars "cac1")). }
  unfold decodeAddress. rewrite Hb. unfold bech32Decode. rewrite chars_of_chars.
  destruct (last_index_ge "1"%char l 3) as [Hp1 Hp2]; [done|].
  set (pos := last_index_of "1" l) in *. clearbody pos.
  rewrite <- (Z2Nat.id pos) at 1 by lia. rewrite js_slice_prefix by lia.
  destruct (Z.to_nat pos) as [|n] eqn:En; [lia|]. unfold l at 1. cbn [chars app take].
  done.
Qed.
End address.

Import Toy.

Lemma decodeAddress_roundtrip_witness :
  NETWORKS "testnet" = Some testnet ∧
  ∃ s, encode_address P2sh (replicate 20 9) testnet = Ok s ∧
    (decodeAddress s testnet = Ok {| d_type := P2sh; d_hash := replicate 20 9 |} ∨
     (testnet = mainnet ∧ P2sh = P2pkh ∧ looks_bech32 s testnet = true)).
Proof.
  split; [done|]. apply (decodeAddress_roundtrip "testnet"); [done| |done].
  repeat constructor; lia.
Defined.

Lemma network_separation_witness :
  ∃ s v, encode_address P2pkh (replicate 20 9) mainnet = Ok s ∧
    decodeAddress s testnet =
      Throw (ExError ("Address version byte " +:+ show v +:+ " does not match this network")).
Proof.
  destruct (encode_address P2pkh (replicate 20 9) mainnet) as [s|e] eqn:E; [|by vm_compute in E].
  exists s. destruct (network_separation P2pkh (replicate 20 9) mainnet testnet s) as [v Hv];
    [by left|done|repeat constructor; lia|done|exact E|].
  exists v. split; [reflexivity|exact Hv].
Defined.

Lemma decodeAddress_rejects_own_witness :
  ∃ s, p2pkhAddress ([0xc2; 0x71] ++ replicate 18 0) mainnet = Ok s ∧
    decodeAddress s mainnet = Throw (ExError "Address is for a different network").
Proof. exact (decodeAddress_rejects_own (P := Toy.prims) (PL := Toy.laws)). Defined.
