(* ===== verification/Faucet.v ===== *)
(** * The testnet faucet (faucet/app.py)

    One table of claims, and one route that pays.  The limiter by IP address only
    keeps requests away. *)

From stdpp Require Import relations.
From S2P Require Import Prelude JsString JsNum JsValue Python Server Bech32.

(** The environment variables; the payout is a [Decimal], used as a float and as
    the text it prints. *)
Class FaucetConfig := {
  faucet_configured : bool;              (* both RPC_USER and RPC_PASSWORD *)
  payout_float : num;
  payout_text : string;
  COOLDOWN_HOURS : num
}.

Record claim_row := Claim {
  cl_address : string;
  cl_ip : string;
  cl_amount : string;
  cl_txid : string;
  cl_created_at : num
}.

Record claim_form := Claim_form { cf_address : option string; cf_website : option string; cf_ip : string }.

(** The status and the body of an answer. *)
Record faucet_reply := Faucet_reply { fr_status : Z; fr_body : py }.

Definition rejected (status : Z) (message : string) : faucet_reply :=
  Faucet_reply status (PDict [("ok", PBool false); ("error", PStr message)]).

Section faucet.
  Context {FC : FaucetConfig}.

Definition faucet_rpc (c : call) : prog (list claim_row) (result_of c) :=
  if faucet_configured then call_node "/" c
  else Raise (RpcError (-1) "Faucet is not configured (missing CAC_RPC_USER/CAC_RPC_PASSWORD)").

Definition is_valid_testnet_address (address : string) : prog (list claim_row) bool :=
  catch (b ← faucet_rpc (ValidateAddress (PStr address)); mret (b : bool)) (except_rpc (λ _ _, mret false)).

(** ORDER BY created_at DESC LIMIT 1 *)
Definition latest (l : list claim_row) : option num :=
  foldl (λ best c, match best with
                   | Some t => if num_lt t (cl_created_at c) then Some (cl_created_at c) else Some t
                   | None => Some (cl_created_at c)
                   end) None l.
Definition address_last_claim (address : string) (d : list claim_row) : option num :=
  latest (filter (λ c, cl_address c = address) d).

Definition record_claim (address ip amount_cac txid : string) : prog (list claim_row) unit :=
  now ← do_act Clock;
  execute (λ d, d ++ [Claim address ip amount_cac txid now]).

Definition elapsed_hours (now last : num) : num := num_div (num_add now (num_opp last)) (num_of_Z 3600).

(** Whether the address has to wait, and how long. *)
Definition too_soon (address : string) : prog (list claim_row) (option num) :=
  last_claim ← select (address_last_claim address);
  match last_claim with
  | None => mret None
  | Some last =>
      now ← do_act Clock;
      let elapsed := elapsed_hours now last in
      mret (if num_lt elapsed COOLDOWN_HOURS then Some (num_add COOLDOWN_HOURS (num_opp elapsed)) else None)
  end.

Definition form_address (f : claim_form) : string := py_strip (default "" (cf_address f)).

Definition claim (f : claim_form) : prog (list claim_row) faucet_reply :=
  let address := form_address f in
  if negb (String.eqb (default "" (cf_website f)) "") then mret (rejected 400 "Request rejected.")
  else if String.eqb address "" then mret (rejected 400 "Address is required.")
  else
    ok ← is_valid_testnet_address address;
    if negb ok then mret (rejected 400 "That doesn't look like a valid testnet CAC address.")
    else
      wait ← too_soon address;
      match wait with
      | Some remaining =>
          mret (rejected 429 ("That address already claimed recently. Try again in " +:+ py_fixed 1 remaining +:+ " hours."))
      | None =>
          paid ← catch (txid ← faucet_rpc (SendToAddress (PStr address) payout_float); mret (Some txid))
            (except_rpc (λ _ _, mret None));
          match paid with
          | None => mret (rejected 502 "Payout failed on our end -- please try again shortly.")
          | Some txid =>
              _ ← record_claim address (cf_ip f) payout_text txid;
              mret (Faucet_reply 200 (PDict [("ok", PBool true); ("txid", PStr txid); ("amount", PStr payout_text)]))
          end
      end.

Definition faucet_served (f : claim_form) : prog (list claim_row) faucet_reply :=
  catch (claim f) (λ _, Some (mret (Faucet_reply 500 (PStr "Internal Server Error")))).

(** ** The cooldown *)

(** A payout the node has made, whether or not the faucet was told. *)
Definition payout (e : event) : option (py * num) :=
  let 'existT a x := e in
  match a return answer a → option (py * num) with
  | Rpc _ (SendToAddress to amount) => λ x, match x with Answer _ | Lost _ => Some (to, amount) | _ => None end
  | _ => λ _, None
  end x.
Definition payouts (l : list event) : list (py * num) := omap payout l.

Lemma payouts_app l k : payouts (l ++ k) = payouts l ++ payouts k.
Proof. apply omap_app. Qed.

(** Finite numbers compare as integers at any common exponent. *)
Lemma num_lt_at k m1 e1 m2 e2 : k <= e1 → k <= e2 → num_lt (Fin m1 e1) (Fin m2 e2) = (m1 * 2 ^ (e1 - k) <? m2 * 2 ^ (e2 - k)).
Proof.
  intros H1 H2. cbn [num_lt]. set (e := Z.min e1 e2). assert (Hk : k <= e) by (unfold e; lia).
  assert (E : ∀ m d, e <= d → m * 2 ^ (d - k) = m * 2 ^ (d - e) * 2 ^ (e - k)).
  { intros m d Hd. rewrite <- Z.mul_assoc, <- Z.pow_add_r by lia. do 2 f_equal. lia. }
  rewrite (E m1 e1), (E m2 e2) by (unfold e; lia). assert (0 < 2 ^ (e - k)) by (apply Z.pow_pos_nonneg; lia).
  apply eq_true_iff_eq. rewrite !Z.ltb_lt. by apply Z.mul_lt_mono_pos_r.
Qed.

(** The latest claim is not before any other. *)
Lemma latest_max l : Forall (λ c, is_finite (cl_created_at c) = true) l →
  ∀ c, c ∈ l → ∃ t, latest l = Some t ∧ num_lt t (cl_created_at c) = false.
Proof.
  intros Hl. unfold latest. set (step := λ _ _, _).
  assert (H : ∀ best, match best with Some t => is_finite t = true | None => True end →
    (∀ t, best = Some t → ∃ t', foldl step best l = Some t' ∧ is_finite t' = true ∧ num_lt t' t = false) ∧
    ∀ c, c ∈ l → ∃ t', foldl step best l = Some t' ∧ num_lt t' (cl_created_at c) = false).
  2:{ intros c Hc. by apply (H None). }
  assert (Hrefl : ∀ x, num_lt x x = false) by (intros [|[]|m e]; cbn; try done; apply Z.ltb_irrefl).
  assert (Htr : ∀ x y z, is_finite x = true → is_finite y = true → is_finite z = true → num_lt x y = false → num_lt y z = false → num_lt x z = false).
  { intros [|?|m1 e1] [|?|m2 e2] [|?|m3 e3]; try done. intros _ _ _. set (k := Z.min e1 (Z.min e2 e3)).
    rewrite !(num_lt_at k) by lia. rewrite !Z.ltb_ge. lia. }
  induction Hl as [|d l Hd Hl IH]; intros best Hb; cbn [foldl].
  { split; [intros t ->; by exists t|by intros c ?%not_elem_of_nil]. }
  assert (Hs : ∃ t, step best d = Some t ∧ is_finite t = true ∧ num_lt t (cl_created_at d) = false ∧ ∀ u, best = Some u → num_lt t u = false).
  { unfold step. destruct best as [t|]; [|eexists; split; [done|]; split; [done|]; split; [apply Hrefl|done]].
    destruct (num_lt t (cl_created_at d)) eqn:E; eexists; (split; [done|]); (split; [done|]).
    - split; [apply Hrefl|]. intros u [= <-]. destruct t as [|?|m1 e1], (cl_created_at d) as [|?|m2 e2]; try done.
      rewrite (num_lt_at (Z.min e1 e2)) in * by lia. apply Z.ltb_lt in E. apply Z.ltb_ge. lia.
    - split; [done|]. intros u [= <-]. apply Hrefl. }
  destruct Hs as (t & -> & Hf & H1 & H2). destruct (IH (Some t) Hf) as [I1 I2]. destruct (I1 t eq_refl) as (t' & E & Hf' & Hlt). split.
  - intros u ->. exists t'. split; [done|]. split; [done|]. by eapply (Htr t' t u); [..|apply H2].
  - intros c [->|Hc]%elem_of_cons; [|by apply I2]. exists t'. split; [done|]. by eapply (Htr t' t).
Qed.

(** The newest claim of an address, and that the clock showed the cooldown to be
    over. *)
Definition newest (a : string) (d : list claim_row) (last : num) : Prop :=
  (∃ c, c ∈ d ∧ cl_address c = a ∧ cl_created_at c = last) ∧
  (Forall (λ c, is_finite (cl_created_at c) = true) d → ∀ c, c ∈ d → cl_address c = a → num_lt last (cl_created_at c) = false).
Definition waited (a : string) (d : list claim_row) (l : list event) : Prop :=
  (∀ c, c ∈ d → cl_address c ≠ a) ∨
  (∃ last t, newest a d last ∧ existT Clock t ∈ l ∧ num_lt (elapsed_hours t last) COOLDOWN_HOURS = false).

Lemma latest_in l : match latest l with Some t => ∃ c, c ∈ l ∧ cl_created_at c = t | None => l = [] end.
Proof.
  unfold latest. induction l as [|c l IH] using rev_ind; [done|]. rewrite foldl_app. cbn [foldl].
  destruct (foldl _ None l) as [t|]; [destruct IH as (b & Hb & <-); destruct (num_lt _ _)|]; eexists; (split; [|done]); set_solver.
Qed.

Lemma address_last_claim_newest a d :
  match address_last_claim a d with Some last => newest a d last | None => ∀ c, c ∈ d → cl_address c ≠ a end.
Proof.
  unfold address_last_claim. pose proof (latest_in (filter (λ c, cl_address c = a) d)) as H. destruct (latest _) as [t|] eqn:E.
  - destruct H as (c & [Ha Hc]%list_elem_of_filter & <-). split; [by exists c|]. intros Hf b Hb Eb.
    destruct (latest_max (filter (λ c, cl_address c = a) d)) with (c := b) as (t & E' & Ht); [|by apply list_elem_of_filter|].
    + apply list.Forall_forall. intros x [_ Hx]%list_elem_of_filter. by apply (proj1 (list.Forall_forall _ _) Hf).
    + rewrite E in E'. by injection E' as <-.
  - intros c Hc Ha. assert (Hin : c ∈ filter (λ c, cl_address c = a) d) by by apply list_elem_of_filter. rewrite H in Hin. by apply not_elem_of_nil in Hin.
Qed.

(** The event of a payout, by the node's reply. *)
Definition sent (f : claim_form) (x : rpc_reply string) : event := existT (Rpc "/" (SendToAddress (PStr (form_address f)) payout_float)) x.

(** What one request has done: nothing, or one payout to the address it names,
    after the cooldown of the newest claim of this address.  The payout is recorded,
    unless the reply to it was lost. *)
Definition claim_done (f : claim_form) (s s' : sys (list claim_row)) : Prop :=
  ∃ l, log s' = log s ++ l ∧
  ((payouts l = [] ∧ db s' = db s) ∨
   (payouts l = [(PStr (form_address f), payout_float)] ∧ waited (form_address f) (db s) l ∧
      ∃ txid, (sent f (Answer txid) ∈ l ∧ ∃ now, db s' = db s ++ [Claim (form_address f) (cf_ip f) payout_text txid now]) ∨
              (sent f (Lost txid) ∈ l ∧ db s' = db s))).

Lemma claim_done_idle f s l : payouts l = [] → claim_done f s (Sys (db s) (log s ++ l)).
Proof. intros Hl. exists l. split; [done|]. by left. Qed.

(** Paying, once the address may be paid. *)
Lemma pay_done f s l : payouts l = [] → waited (form_address f) (db s) l →
  wp (paid ← catch (txid ← faucet_rpc (SendToAddress (PStr (form_address f)) payout_float); mret (Some txid)) (except_rpc (λ _ _, mret None));
      match paid with
      | None => mret (rejected 502 "Payout failed on our end -- please try again shortly.")
      | Some txid =>
          _ ← record_claim (form_address f) (cf_ip f) payout_text txid;
          mret (Faucet_reply 200 (PDict [("ok", PBool true); ("txid", PStr txid); ("amount", PStr payout_text)]))
      end) (λ _ s', claim_done f s s') (Sys (db s) (log s ++ l)).
Proof.
  intros Hl Hlast. apply wp_bind, wp_catch, wp_bind. unfold faucet_rpc. destruct faucet_configured; [|by apply claim_done_idle].
  assert (Hw : ∀ k, waited (form_address f) (db s) (l ++ k)).
  { intros k. destruct Hlast as [|(last & t & E & Ht & Hc)]; [by left|right]. exists last, t. split; [done|]. split; [set_solver|done]. }
  intros x. cbn [db log]. rewrite <- app_assoc. destruct x as [txid|code m| |txid].
  - intros now. cbn. rewrite <- !app_assoc. eexists. split; [done|]. right. rewrite !payouts_app, Hl.
    split; [done|]. split; [apply Hw|]. exists txid. left. split; [|by exists now]. apply elem_of_app. right. by left.
  - cbn. apply claim_done_idle. by rewrite payouts_app, Hl.
  - cbn. apply claim_done_idle. by rewrite payouts_app, Hl.
  - eexists. split; [done|]. right. rewrite payouts_app, Hl. split; [done|]. split; [apply Hw|]. exists txid. right. split; [|done].
    apply elem_of_app. right. by left.
Qed.

(** C26. A request pays at most once, only the address it names, and only when no claim
    of this address is on record or the latest one is as old as the cooldown at the
    time the clock shows; what it pays is recorded, unless the node's reply to the
    payout is lost.  A request that is turned away, or whose payout the node
    refuses, leaves no record, so it can be repeated. *)
Theorem claim_cooldown (f : claim_form) (s s' : sys (list claim_row)) (r : res faucet_reply)
    (He : exec (faucet_served f) s r s') : claim_done f s s'.
Proof.
  apply (wp_exec (faucet_served f) (λ _ s', claim_done f s s') s r s'); [|done]. clear r s' He. apply wp_catch.
  eapply (wp_mono _ (λ _ s', claim_done f s s')); [by intros []|].
  assert (H0 : claim_done f s s) by (exists []; rewrite app_nil_r; split; [done|by left]).
  unfold claim. destruct (negb _); [done|]. destruct (String.eqb _ ""); [done|]. apply wp_bind, wp_catch, wp_bind.
  unfold faucet_rpc at 1. destruct faucet_configured; [|done]. intros x. set (l := [existT _ x]).
  assert (Hl : payouts l = []) by done. assert (H1 : claim_done f s (Sys (db s) (log s ++ l))) by (by apply claim_done_idle).
  destruct x as [[]|code m| |b]; [|done..]. cbn [negb after]. apply wp_bind. unfold too_soon. apply wp_select. cbn [db].
  pose proof (address_last_claim_newest (form_address f) (db s)) as Hlast. destruct (address_last_claim _ (db s)) as [last|].
  - intros now. cbn [after db log]. rewrite <- app_assoc.
    change (wp ?p ?Q ?s) with (Q (Val (if num_lt (elapsed_hours now last) COOLDOWN_HOURS then Some (num_add COOLDOWN_HOURS (num_opp (elapsed_hours now last))) else None)) s).
    cbn [after]. destruct (num_lt (elapsed_hours now last) COOLDOWN_HOURS) eqn:Ec; [by apply claim_done_idle|].
    apply pay_done; [done|]. right. exists last, now. split; [done|]. split; [set_solver|done].
  - apply pay_done; [done|]. by left.
Qed.
End faucet.

(** ** A faucet of 10 coins a day *)

Module Tap.
#[export] Instance config : FaucetConfig := {| faucet_configured := true; payout_float := num_of_Z 10; payout_text := "10"; COOLDOWN_HOURS := num_of_Z 24 |}.

(** A testnet address of the hash that is all zeros, and the same in capitals,
    which is the same address (BIP 173). *)
Definition address : string := bech32Encode "tcac" (0 :: repeat 0 32).
Definition capitals : string := py_upper address.

(** The node takes every address and pays; the clock shows [now]. *)
Definition env (now : Z) (l : list event) (a : action) : answer a :=
  match a return answer a with
  | Rpc _ c => match c return rpc_reply (result_of c) with
               | ValidateAddress _ => Answer true
               | SendToAddress _ _ => Answer "paid"
               | _ => Unreachable
               end
  | Clock => num_of_Z now
  | Utcnow | Today => now
  | Token | Hash_password _ | Encrypt _ => ""
  | Web_push _ _ _ _ _ => Push_failed
  | Fcm_push _ _ _ _ => false
  end.

Definition form (a : string) : claim_form := Claim_form (Some a) None "10.0.0.1".
Definition asked (now : Z) (a : string) (s : sys (list claim_row)) : res faucet_reply * sys (list claim_row) := run (env now) (faucet_served (form a)) s.
Definition start : sys (list claim_row) := Sys [] [].
Definition first : sys (list claim_row) := (asked 1700000000 address start).2.

(** A day later. *)
Lemma claim_cooldown_witness :
  payouts (log (asked 1700086400 address first).2) = [(PStr address, num_of_Z 10); (PStr address, num_of_Z 10)] ∧
  claim_done (form address) first (asked 1700086400 address first).2.
Proof.
  split; [vm_compute; reflexivity|].
  apply (claim_cooldown (form address) first (asked 1700086400 address first).2 (asked 1700086400 address first).1), run_exec.
Defined.

(** The claims of an address are found by its text: the same address in capitals
    is paid again at once, while the text that claimed is turned away. *)
Theorem capitals_paid_again :
  py_lower capitals = address ∧
  match (asked 1700000001 address first).1 with Val r => fr_status r = 429 | Exc _ => False end ∧
  payouts (log (asked 1700000001 capitals first).2) = [(PStr address, num_of_Z 10); (PStr capitals, num_of_Z 10)].
Proof. split; [vm_compute; reflexivity|]. split; vm_compute; reflexivity. Qed.

(** The node pays, and its reply is lost. *)
Definition broken (now : Z) (l : list event) (a : action) : answer a :=
  match a return answer a with
  | Rpc path c => match c return rpc_reply (result_of c) with
                  | SendToAddress _ _ => Lost "paid"
                  | c => env now l (Rpc path c)
                  end
  | a => env now l a
  end.
Definition lost : res faucet_reply * sys (list claim_row) := run (broken 1700000000) (faucet_served (form address)) start.

(** A payout the faucet is not told of is not recorded: the request fails, and the
    same one a second later is paid again. *)
Theorem lost_payout_paid_again :
  match lost.1 with Val r => fr_status r = 500 | Exc _ => False end ∧ db lost.2 = [] ∧
  payouts (log (asked 1700000001 address lost.2).2) = [(PStr address, num_of_Z 10); (PStr address, num_of_Z 10)].
Proof. split; [vm_compute; reflexivity|]. split; vm_compute; reflexivity. Qed.

(** Two requests for one address that overlap are both paid: the claim is recorded
    after the payment, and nothing is between the check and the payment. *)
Definition both : sys (list claim_row) :=
  (interleave (env 1700000000) (mjoin (repeat [0; 1]%nat 20)) start [faucet_served (form address); faucet_served (form address)]).1.

Theorem claims_race :
  payouts (log both) = [(PStr address, num_of_Z 10); (PStr address, num_of_Z 10)] ∧ length (db both) = 2%nat.
Proof. split; vm_compute; reflexivity. Qed.
End Tap.
