(* ===== verification/Keys.v ===== *)
(** * Keys and mnemonics

    web-wallet/crypto.js 197-238: the BIP44 paths the wallet derives its keys,
    its account's extended public key and watched addresses from. *)

From S2P Require Import Prelude JsString Primitives Address.

Section keys.
Context {P : Primitives}.

(** The entropy stands for the bytes [bip39] draws from the system's generator. *)
Definition generateMnemonic (entropy : bytes) : string := bip39_generate entropy.
Definition isValidMnemonic (mnemonic : string) : bool := bip39_valid mnemonic.

(** [`m/44'/${network.bip44CoinType}'/0'`] *)
Definition account_path (net : network) : string :=
  "m/44'/" +:+ show (bip44CoinType net) +:+ "'/0'".

Definition deriveKey (mnemonic : string) (net : network) (index : Z) (passphrase : string) (change : bool)
    : result keypair :=
  let seed := bip39_seed mnemonic passphrase in
  let path := account_path net +:+ "/" +:+ show (if change then 1 else 0) +:+ "/" +:+ show index in
  hd_derive seed path.

Definition deriveAccountXpub (mnemonic : string) (net : network) (passphrase : string) : result string :=
  let seed := bip39_seed mnemonic passphrase in
  hd_xpub seed (bip32Versions net) (account_path net).

Definition deriveXpubAddress (xpub : string) (net : network) (index : Z) : result string :=
  pub ← hd_xpub_derive xpub (bip32Versions net) ("m/0/" +:+ show index);
  p2pkhAddress (hash160 pub) net.
End keys.

(** A watched account shows the wallet's own receiving addresses: the address
    derived at an index from the exported xpub is the address of the key the
    wallet derives at that index of the external chain. *)
Theorem xpub_addresses_agree {P : Primitives} {PL : PrimitiveLaws}
    (mnemonic : string) (net : network) (passphrase xpub : string) (index : Z) (kp : keypair)
    (Hi : child_index index) (Hx : deriveAccountXpub mnemonic net passphrase = Ok xpub)
    (Hk : deriveKey mnemonic net index passphrase false = Ok kp) :
  deriveXpubAddress xpub net index = p2pkhAddress (hash160 (publicKey kp)) net.
Proof.
  unfold deriveXpubAddress.
  pose proof (hd_xpub_children _ _ _ _ 0 index kp ltac:(done) Hi Hx Hk) as Hc.
  change ("m/" +:+ show 0 +:+ "/" +:+ show index) with ("m/0/" +:+ show index) in Hc. by rewrite Hc.
Qed.

Lemma xpub_addresses_agree_witness :
  ∃ xpub kp, deriveAccountXpub (P := Toy.prims) "seed words" mainnet "" = Ok xpub ∧
    deriveXpubAddress (P := Toy.prims) xpub mainnet 5 =
    p2pkhAddress (P := Toy.prims) (hash160 (P := Toy.prims) (publicKey kp)) mainnet.
Proof.
  eexists _, _. split; [reflexivity|].
  apply (xpub_addresses_agree (P := Toy.prims) (PL := Toy.laws) "seed words" mainnet "" _ 5); [done|reflexivity..].
Defined.

(** An xpub exported on one network is refused on the other. *)
Theorem xpub_network_separation {P : Primitives} {PL : PrimitiveLaws}
    (mnemonic passphrase xpub : string) (n1 n2 : string) (net1 net2 : network) (index : Z)
    (H1 : NETWORKS n1 = Some net1) (H2 : NETWORKS n2 = Some net2) (Hne : n1 ≠ n2)
    (Hx : deriveAccountXpub mnemonic net1 passphrase = Ok xpub) :
  is_ok (deriveXpubAddress xpub net2 index) = false.
Proof.
  assert (Hv : 0 <= v_public (bip32Versions net1) < 2 ^ 32 ∧ 0 <= v_public (bip32Versions net2) < 2 ^ 32 ∧
    v_public (bip32Versions net1) ≠ v_public (bip32Versions net2)).
  { unfold NETWORKS in H1, H2. destruct (String.eqb_spec n1 "mainnet"), (String.eqb_spec n2 "mainnet");
      destruct (String.eqb_spec n1 "testnet"), (String.eqb_spec n2 "testnet"); simplify_eq; done. }
  destruct Hv as (V1 & V2 & V3). unfold deriveXpubAddress.
  pose proof (hd_xpub_versions _ _ _ _ xpub ("m/0/" +:+ show index) Hx V1 V2 V3) as E.
  by destruct (hd_xpub_derive _ _ _).
Qed.

Lemma xpub_network_separation_witness :
  ∃ xpub, deriveAccountXpub (P := Toy.prims) "seed words" testnet "" = Ok xpub ∧
    is_ok (deriveXpubAddress (P := Toy.prims) xpub mainnet 0) = false.
Proof.
  eexists. split; [reflexivity|].
  apply (xpub_network_separation (P := Toy.prims) (PL := Toy.laws) "seed words" "" _ "testnet" "mainnet" testnet mainnet);
    [reflexivity|reflexivity|discriminate|reflexivity].
Defined.
