(* ===== verification/NodeTx.v ===== *)
(** * The node's view of a transaction

    The wallet builds transactions for the node in codexacoin-core, so what a
    serialized transaction means is what the node reads: its deserializer
    (primitives/transaction.h, serialize.h), its signature hash for legacy
    inputs (script/interpreter.cpp, script/script.cpp) and its rule for the
    encoding of signatures.  Streams are byte lists; a read past the end is the
    [ios_base::failure] the node throws. *)

From S2P Require Import Prelude JsString Primitives Base58.

(** ** Reading a stream *)

Definition reader (A : Type) : Type := bytes → result (A * bytes).

#[export] Instance reader_ret : MRet reader := λ A a s, Ok (a, s).
#[export] Instance reader_bind : MBind reader := λ A B k m s,
  match m s with Ok (a, s') => k a s' | Throw e => Throw e end.

Definition stream_failure (msg : string) : exn := ExHost "ios_base::failure" msg.
Definition fail {A} (msg : string) : reader A := λ _, Throw (stream_failure msg).

Definition read_bytes (n : Z) : reader bytes := λ s,
  if Z.of_nat (length s) <? n then Throw (stream_failure "end of data")
  else Ok (take (Z.to_nat n) s, drop (Z.to_nat n) s).

(** [ser_readdata8/16/32/64]: an unsigned integer of [n] bytes. *)
Definition read_uint (n : nat) : reader Z := b ← read_bytes (Z.of_nat n); mret (le_value b).

Definition MAX_SIZE : Z := 0x02000000.

Definition read_compact_raw : reader Z :=
  chSize ← read_uint 1;
  if chSize <? 253 then mret chSize
  else if chSize =? 253 then
    n ← read_uint 2; if n <? 253 then fail "non-canonical ReadCompactSize()" else mret n
  else if chSize =? 254 then
    n ← read_uint 4; if n <? 0x10000 then fail "non-canonical ReadCompactSize()" else mret n
  else
    n ← read_uint 8; if n <? 0x100000000 then fail "non-canonical ReadCompactSize()" else mret n.

Definition ReadCompactSize : reader Z :=
  nSizeRet ← read_compact_raw;
  if MAX_SIZE <? nSizeRet then fail "ReadCompactSize(): size too large" else mret nSizeRet.

(** A vector: its size, then its elements. *)
Fixpoint read_n {A} (r : reader A) (n : nat) : reader (list A) :=
  match n with
  | O => mret []
  | S n => x ← r; xs ← read_n r n; mret (x :: xs)
  end.
Definition read_vector {A} (r : reader A) : reader (list A) :=
  n ← ReadCompactSize; read_n r (Z.to_nat n).
Definition read_script : reader bytes := n ← ReadCompactSize; read_bytes n.

(** ** Transactions *)

Record COutPoint := { op_hash : bytes; op_n : Z }.
Record CTxIn := { prevout : COutPoint; txin_scriptSig : bytes; nSequence : Z; scriptWitness : list bytes }.
Record CTxOut := { nValue : Z; txout_scriptPubKey : bytes }.
Record CTransaction := {
  nVersion : Z; nTime : Z; vin : list CTxIn; vout : list CTxOut; nLockTime : Z }.

(** Two's complement reading of an unsigned [k]-bit value. *)
Definition to_signed (k : Z) (z : Z) : Z := if z <? 2 ^ (k - 1) then z else z - 2 ^ k.

Definition read_txin : reader CTxIn :=
  h ← read_bytes 32; i ← read_uint 4; s ← read_script; q ← read_uint 4;
  mret {| prevout := {| op_hash := h; op_n := i |}; txin_scriptSig := s; nSequence := q; scriptWitness := [] |}.
Definition read_txout : reader CTxOut :=
  v ← read_uint 8; s ← read_script;
  mret {| nValue := to_signed 64 v; txout_scriptPubKey := s |}.

Definition set_witness (i : CTxIn) (w : list bytes) : CTxIn :=
  {| prevout := prevout i; txin_scriptSig := txin_scriptSig i; nSequence := nSequence i; scriptWitness := w |}.
Fixpoint read_witnesses (ins : list CTxIn) : reader (list CTxIn) :=
  match ins with
  | [] => mret []
  | i :: ins => w ← read_vector read_script; tl ← read_witnesses ins; mret (set_witness i w :: tl)
  end.
Definition HasWitness (ins : list CTxIn) : bool :=
  existsb (λ i, negb (bool_decide (scriptWitness i = []))) ins.

Definition UnserializeTransaction (fAllowWitness : bool) : reader CTransaction :=
  v ← read_uint 4; let version := to_signed 32 v in
  time ← (if version <? 2 then read_uint 4 else mret 0);
  ins ← read_vector read_txin;
  '(flags, ins, outs) ←
    (if bool_decide (ins = []) && fAllowWitness then
       flags ← read_uint 1;
       if negb (flags =? 0) then
         ins ← read_vector read_txin; outs ← read_vector read_txout; mret (flags, ins, outs)
       else mret (flags, ins, [])
     else outs ← read_vector read_txout; mret (0, ins, outs));
  '(flags, ins) ←
    (if Z.odd flags && fAllowWitness then
       ins ← read_witnesses ins;
       if HasWitness ins then mret (Z.lxor flags 1, ins) else fail "Superfluous witness record"
     else mret (flags, ins));
  (if negb (flags =? 0) then fail "Unknown transaction optional data" else
   lock ← read_uint 4;
   mret {| nVersion := version; nTime := time; vin := ins; vout := outs; nLockTime := lock |}).

(** ** Writing *)

Definition WriteCompactSize (nSize : Z) : bytes :=
  if nSize <? 253 then le_bytes 1 nSize
  else if nSize <=? 0xffff then le_bytes 1 253 ++ le_bytes 2 nSize
  else if nSize <=? 0xffffffff then le_bytes 1 254 ++ le_bytes 4 nSize
  else le_bytes 1 255 ++ le_bytes 8 nSize.

Definition write_script (s : bytes) : bytes := WriteCompactSize (Z.of_nat (length s)) ++ s.
Definition write_outpoint (o : COutPoint) : bytes := op_hash o ++ le_bytes 4 (op_n o).
Definition write_txout (o : CTxOut) : bytes := le_bytes 8 (nValue o) ++ write_script (txout_scriptPubKey o).

(** ** Scripts *)

Definition OP_PUSHDATA1 : Z := 0x4c.
Definition OP_PUSHDATA2 : Z := 0x4d.
Definition OP_PUSHDATA4 : Z := 0x4e.
Definition OP_CODESEPARATOR : Z := 0xab.

(** [GetScriptOp(pc, end, ...)]: the opcode and its data, [None] for [false];
    and where [pc] is left. *)
Definition take_push (opcode nSize : Z) (pc : bytes) : option (Z * bytes) * bytes :=
  if Z.of_nat (length pc) <? nSize then (None, pc)
  else (Some (opcode, take (Z.to_nat nSize) pc), drop (Z.to_nat nSize) pc).

Definition GetScriptOp (pc : bytes) : option (Z * bytes) * bytes :=
  match pc with
  | [] => (None, [])
  | opcode :: pc =>
      if opcode <=? OP_PUSHDATA4 then
        if opcode <? OP_PUSHDATA1 then take_push opcode opcode pc
        else
          let k := if opcode =? OP_PUSHDATA1 then 1%nat else if opcode =? OP_PUSHDATA2 then 2%nat else 4%nat in
          if (length pc <? k)%nat then (None, pc)
          else take_push opcode (le_value (take k pc)) (drop k pc)
      else (Some (opcode, []), pc)
  end.

(** The loop of [SerializeScriptCode]: the script up to where the parse stops,
    without its OP_CODESEPARATORs, and how many there were. *)
Fixpoint strip_separators (fuel : nat) (pc : bytes) : bytes * nat :=
  match fuel with
  | O => ([], O)
  | S fuel =>
      let '(op, pc') := GetScriptOp pc in
      let consumed := take (length pc - length pc') pc in
      match op with
      | None => (consumed, O)
      | Some (o, _) =>
          let '(rest, k) := strip_separators fuel pc' in
          if o =? OP_CODESEPARATOR then (rest, S k) else (consumed ++ rest, k)
      end
  end.
Definition SerializeScriptCode (scriptCode : bytes) : bytes :=
  let '(code, k) := strip_separators (S (length scriptCode)) scriptCode in
  WriteCompactSize (Z.of_nat (length scriptCode - k)) ++ code.

(** ** Legacy signature hash *)

Definition SIGHASH_ALL : Z := 1.
Definition SIGHASH_NONE : Z := 2.
Definition SIGHASH_SINGLE : Z := 3.
Definition SIGHASH_ANYONECANPAY : Z := 0x80.

Section sighash.
Context {P : Primitives}.
Variables (txTo : CTransaction) (scriptCode : bytes) (nIn : nat) (nHashType : Z).

Definition fAnyoneCanPay : bool := negb (Z.land nHashType SIGHASH_ANYONECANPAY =? 0).
Definition fHashSingle : bool := Z.land nHashType 0x1f =? SIGHASH_SINGLE.
Definition fHashNone : bool := Z.land nHashType 0x1f =? SIGHASH_NONE.

Definition SerializeInput (nInput : nat) (i : CTxIn) : bytes :=
  let mine := bool_decide (nInput = nIn) in
  write_outpoint (prevout i) ++
  (if mine then SerializeScriptCode scriptCode else write_script []) ++
  (if negb mine && (fHashSingle || fHashNone) then le_bytes 4 0 else le_bytes 4 (nSequence i)).

Definition SerializeOutput (nOutput : nat) (o : CTxOut) : bytes :=
  if fHashSingle && negb (bool_decide (nOutput = nIn)) then le_bytes 8 (-1) ++ write_script []
  else write_txout o.

Definition SerializeForHash : bytes :=
  le_bytes 4 (nVersion txTo) ++
  (if nVersion txTo <? 2 then le_bytes 4 (nTime txTo) else []) ++
  (if fAnyoneCanPay then
     WriteCompactSize 1 ++ match vin txTo !! nIn with Some i => SerializeInput nIn i | None => [] end
   else
     WriteCompactSize (Z.of_nat (length (vin txTo))) ++ mjoin (imap SerializeInput (vin txTo))) ++
  (let outs := if fHashNone then [] else if fHashSingle then take (S nIn) (vout txTo) else vout txTo in
   WriteCompactSize (Z.of_nat (length outs)) ++ mjoin (imap SerializeOutput outs)) ++
  le_bytes 4 (nLockTime txTo).

Definition SignatureHash : bytes :=
  if fHashSingle && (length (vout txTo) <=? nIn)%nat then 1 :: replicate 31 0
  else doubleSha256 (SerializeForHash ++ le_bytes 4 nHashType).
End sighash.

(** ** Signature encoding *)

(** [sig[i]]; the guards before each access keep it in range. *)
Definition at_ (sig : bytes) (i : Z) : Z := default 0 (sig !! Z.to_nat i).

(** [IsValidSignatureEncoding(sig, true)] *)
Definition IsValidSignatureEncoding (sig : bytes) : bool :=
  let size := Z.of_nat (length sig) in
  if size <? 9 then false else
  if 73 <? size then false else
  if negb (at_ sig 0 =? 0x30) then false else
  if negb (at_ sig 1 =? size - 3) then false else
  let lenR := at_ sig 3 in
  if size <=? 5 + lenR then false else
  let lenS := at_ sig (5 + lenR) in
  if negb (lenR + lenS + 7 =? size) then false else
  if negb (at_ sig 2 =? 0x02) then false else
  if lenR =? 0 then false else
  if negb (Z.land (at_ sig 4) 0x80 =? 0) then false else
  if (1 <? lenR) && (at_ sig 4 =? 0) && (Z.land (at_ sig 5) 0x80 =? 0) then false else
  if negb (at_ sig (lenR + 4) =? 0x02) then false else
  if lenS =? 0 then false else
  if negb (Z.land (at_ sig (lenR + 6)) 0x80 =? 0) then false else
  if (1 <? lenS) && (at_ sig (lenR + 6) =? 0) && (Z.land (at_ sig (lenR + 7)) 0x80 =? 0) then false
  else true.

(** [ecdsa_signature_parse_der_lax].  The position in the input is the suffix
    that is left.  A length: one byte, or in the long form up to three
    significant bytes after leading zeros. *)
Fixpoint skip_zeros (lenbyte : nat) (input : bytes) : nat * bytes :=
  match lenbyte, input with
  | S l, b :: rest => if b =? 0 then skip_zeros l rest else (lenbyte, input)
  | _, _ => (lenbyte, input)
  end.

Definition der_length (input : bytes) : option (Z * bytes) :=
  match input with
  | [] => None
  | lenbyte :: rest =>
      if Z.land lenbyte 0x80 =? 0 then Some (lenbyte, rest)
      else
        let k := lenbyte - 0x80 in
        if Z.of_nat (length rest) <? k then None else
        let '(k, rest) := skip_zeros (Z.to_nat k) rest in
        if (4 <=? k)%nat then None
        else Some (foldl (λ acc b, Z.shiftl acc 8 + b) 0 (take k rest), drop k rest)
  end.

(** Tag, length and value of one integer. *)
Definition der_int (input : bytes) : option (bytes * bytes) :=
  match input with
  | tag :: rest =>
      if negb (tag =? 0x02) then None else
      '(l, rest) ← der_length rest;
      if Z.of_nat (length rest) <? l then None
      else Some (take (Z.to_nat l) rest, drop (Z.to_nat l) rest)
  | [] => None
  end.

(** The sequence length is read and ignored. *)
Definition der_sequence (input : bytes) : option bytes :=
  match input with
  | tag :: lenbyte :: rest =>
      if negb (tag =? 0x30) then None
      else if Z.land lenbyte 0x80 =? 0 then Some rest
      else if Z.of_nat (length rest) <? lenbyte - 0x80 then None
      else Some (drop (Z.to_nat (lenbyte - 0x80)) rest)
  | _ => None
  end.

Definition strip_zeros (b : bytes) : bytes := drop (leading_zeros b) b.

(** The parsed (r, s); (0, 0) when a value does not fit or is not reduced. *)
Definition ecdsa_signature_parse_der_lax (input : bytes) : option (Z * Z) :=
  rest ← der_sequence input;
  '(rb, rest) ← der_int rest;
  '(sb, _) ← der_int rest;
  let rb := strip_zeros rb in let sb := strip_zeros sb in
  let r := of_digits 256 rb in let s := of_digits 256 sb in
  if (32 <? length rb)%nat || (32 <? length sb)%nat then Some (0, 0)
  else if (secp_order <=? r) || (secp_order <=? s) then Some (0, 0)
  else Some (r, s).

(** [CPubKey::GetLen] and [CPubKey(vch).IsValid()] *)
Definition GetLen (chHeader : Z) : nat :=
  if (chHeader =? 2) || (chHeader =? 3) then 33
  else if (chHeader =? 4) || (chHeader =? 6) || (chHeader =? 7) then 65 else 0.
Definition pubkey_IsValid (vch : bytes) : bool :=
  match vch with [] => false | h :: _ => (0 <? GetLen h)%nat && (GetLen h =? length vch)%nat end.

(** [CPubKey::Verify]: high s values are replaced by their complement. *)
Definition Verify `{Primitives} (pubkey hash vchSig : bytes) : bool :=
  if negb (pubkey_IsValid pubkey) then false else
  match ecdsa_signature_parse_der_lax vchSig with
  | None => false
  | Some (r, s) => secp_verify r (if secp_order / 2 <? s then secp_order - s else s) hash pubkey
  end.

(** [CPubKey::CheckLowS] *)
Definition CheckLowS (vchSig : bytes) : bool :=
  match ecdsa_signature_parse_der_lax vchSig with
  | None => false
  | Some (_, s) => s <=? secp_order / 2
  end.

(** ** Lemmas: what a reader returns on the bytes written for a value *)

Definition reads {A} (r : reader A) (b : bytes) (a : A) : Prop :=
  ∀ rest, r (b ++ rest) = Ok (a, rest).

Lemma reads_ret {A} (a : A) : reads (mret a) [] a.
Proof. done. Qed.

Lemma reads_bind {A B} (r : reader A) (k : A → reader B) b1 b2 a x :
  reads r b1 a → reads (k a) b2 x → reads (r ≫= k) (b1 ++ b2) x.
Proof.
  intros H1 H2 rest. unfold mbind, reader_bind. rewrite <- app_assoc, H1. apply H2.
Qed.

Lemma reads_bind_last {A B} (r : reader A) (k : A → reader B) b a x :
  reads r b a → reads (k a) [] x → reads (r ≫= k) b x.
Proof. intros. rewrite <- (app_nil_r b). by eapply reads_bind. Qed.

Lemma reads_bind_first {A B} (r : reader A) (k : A → reader B) b a x :
  reads r [] a → reads (k a) b x → reads (r ≫= k) b x.
Proof. intros. change b with ([] ++ b). by eapply reads_bind. Qed.

Lemma reads_bytes b k : k = Z.of_nat (length b) → reads (read_bytes k) b b.
Proof.
  intros -> rest. unfold read_bytes. rewrite length_app.
  destruct (Z.ltb_spec (Z.of_nat (length b + length rest)) (Z.of_nat (length b))); [lia|].
  by rewrite Nat2Z.id, take_app_length, drop_app_length.
Qed.

Lemma reads_uint k z : 0 <= z < 256 ^ Z.of_nat k → reads (read_uint k) (le_bytes k z) z.
Proof.
  intros Hz. eapply reads_bind_last; [apply reads_bytes; by rewrite le_bytes_length|].
  rewrite le_value_small by done. apply reads_ret.
Qed.

Lemma reads_if {A} (c : bool) (r r' : reader A) b a :
  c = false → reads r' b a → reads (if c then r else r') b a.
Proof. by intros ->. Qed.

Lemma reads_compact k :
  0 <= k <= MAX_SIZE → reads ReadCompactSize (WriteCompactSize k) k.
Proof.
  unfold MAX_SIZE. intros Hk. apply (reads_bind_last _ _ _ k).
  2:{ apply reads_if; [apply Z.ltb_ge; unfold MAX_SIZE; lia|apply reads_ret]. }
  unfold read_compact_raw, WriteCompactSize.
  destruct (Z.ltb_spec k 253).
  { eapply reads_bind_last; [apply reads_uint; cbn; lia|].
    destruct (Z.ltb_spec k 253); [apply reads_ret|lia]. }
  destruct (Z.leb_spec k 0xffff).
  { eapply reads_bind; [apply reads_uint; cbn; lia|]. cbn [Z.ltb Z.eqb Z.compare Pos.compare Pos.compare_cont Pos.eqb].
    eapply reads_bind_last; [apply reads_uint; cbn; lia|].
    apply reads_if; [lia|apply reads_ret]. }
  destruct (Z.leb_spec k 0xffffffff); [|lia].
  eapply reads_bind; [apply reads_uint; cbn; lia|]. cbn [Z.ltb Z.eqb Z.compare Pos.compare Pos.compare_cont Pos.eqb].
  eapply reads_bind_last; [apply reads_uint; cbn; lia|].
  apply reads_if; [lia|apply reads_ret].
Qed.

Lemma reads_script s : Z.of_nat (length s) <= MAX_SIZE → reads read_script (write_script s) s.
Proof. intros. eapply reads_bind; [apply reads_compact; lia|by apply reads_bytes]. Qed.

Lemma reads_n {A B} (r : reader A) (w : B → bytes) (f : B → A) l :
  Forall (λ x, reads r (w x) (f x)) l → reads (read_n r (length l)) (mjoin (w <$> l)) (f <$> l).
Proof.
  induction 1 as [|x l Hx _ IH]; [apply reads_ret|].
  cbn [length read_n fmap list_fmap]. change (mjoin (w x :: ?k)) with (w x ++ mjoin k).
  eapply reads_bind; [apply Hx|]. eapply reads_bind_last; [apply IH|]. apply reads_ret.
Qed.

Lemma reads_vector {A B} (r : reader A) (w : B → bytes) (f : B → A) l :
  Z.of_nat (length l) <= MAX_SIZE → Forall (λ x, reads r (w x) (f x)) l →
  reads (read_vector r) (WriteCompactSize (Z.of_nat (length l)) ++ mjoin (w <$> l)) (f <$> l).
Proof.
  intros Hl Hx. eapply reads_bind; [apply reads_compact; lia|].
  rewrite Nat2Z.id. by apply reads_n.
Qed.

Lemma to_signed_small k z : 0 <= z < 2 ^ (k - 1) → to_signed k z = z.
Proof. intros. unfold to_signed. destruct (Z.ltb_spec z (2 ^ (k - 1))); [done|lia]. Qed.
