(* ===== verification/NodeScript.v ===== *)
(** * The node's script interpreter, for the scripts the wallet uses

    [EvalScript] and [VerifyScript] of codexacoin-core/src/script/interpreter.cpp,
    at the base signature version and under STANDARD_SCRIPT_VERIFY_FLAGS, the
    rules the mempool applies to a transaction the gateway submits.  The opcodes
    are the pushes and those of the pay-to-pubkey-hash, pay-to-script-hash and
    multisignature templates, with the stack, hash and signature operations next
    to them; any other opcode, and witness programs, end in the error
    [unmodelled], so that a script this file accepts is one the node accepts.
    The stack is a list whose head is the top. *)

From S2P Require Import Prelude Primitives Base58 Address NodeTx.

Definition script_error {A} (e : string) : result A := Throw (ExHost "ScriptError" e).
Definition unmodelled {A} (what : string) : result A := Throw (ExHost "Unmodelled" what).

Definition OP_1NEGATE : Z := 0x4f.
Definition OP_1 : Z := 0x51.
Definition OP_16 : Z := 0x60.
Definition OP_NOP : Z := 0x61.
Definition OP_DUP : Z := 0x76.
Definition OP_EQUAL : Z := 0x87.
Definition OP_EQUALVERIFY : Z := 0x88.
Definition OP_RIPEMD160 : Z := 0xa6.
Definition OP_SHA256 : Z := 0xa8.
Definition OP_HASH160 : Z := 0xa9.
Definition OP_HASH256 : Z := 0xaa.
Definition OP_CHECKSIG : Z := 0xac.
Definition OP_CHECKSIGVERIFY : Z := 0xad.
Definition OP_CHECKMULTISIG : Z := 0xae.
Definition OP_CHECKMULTISIGVERIFY : Z := 0xaf.

Definition MAX_SCRIPT_ELEMENT_SIZE : nat := 520.
Definition MAX_OPS_PER_SCRIPT : Z := 201.
Definition MAX_PUBKEYS_PER_MULTISIG : Z := 20.
Definition MAX_SCRIPT_SIZE : Z := 10000.
Definition MAX_STACK_SIZE : nat := 1000.

(** [OP_CAT] ... [OP_RSHIFT], the opcodes disabled since CVE-2010-5137. *)
Definition disabled (opcode : Z) : bool :=
  existsb (Z.eqb opcode)
    [0x7e; 0x7f; 0x80; 0x81; 0x83; 0x84; 0x85; 0x86; 0x8d; 0x8e; 0x95; 0x96; 0x97; 0x98; 0x99].

(** ** Values on the stack *)

Fixpoint CastToBool (vch : bytes) : bool :=
  match vch with
  | [] => false
  | b :: rest =>
      if b =? 0 then CastToBool rest
      else negb (bool_decide (rest = []) && (b =? 0x80))
  end.

Definition vchTrue : bytes := [1].
Definition vchFalse : bytes := [].
Definition of_bool (b : bool) : bytes := if b then vchTrue else vchFalse.

(** [CScriptNum::serialize] *)
Definition scriptnum_bytes (value : Z) : bytes :=
  if value =? 0 then [] else
  let neg := value <? 0 in
  let result := rev (to_digits 256 (Z.abs value)) in
  match rev result with
  | top :: low =>
      if negb (Z.land top 0x80 =? 0) then result ++ [if neg then 0x80 else 0]
      else if neg then rev low ++ [Z.lor top 0x80] else result
  | [] => []
  end.

(** [CScriptNum(vch, true).getint()]; a four-byte value fits an int. *)
Definition scriptnum_value (vch : bytes) : result Z :=
  if (4 <? length vch)%nat then script_error "UNKNOWN_ERROR" else
  match rev vch with
  | [] => Ok 0
  | top :: low =>
      if (Z.land top 0x7f =? 0) &&
         match low with [] => true | second :: _ => Z.land second 0x80 =? 0 end
      then script_error "UNKNOWN_ERROR"
      else
        let r := le_value vch in
        Ok (if Z.land top 0x80 =? 0 then r else - (r - 0x80 * 256 ^ Z.of_nat (length low)))
  end.

Definition CheckMinimalPush (data : bytes) (opcode : Z) : bool :=
  let size := Z.of_nat (length data) in
  match data with
  | [] => opcode =? 0
  | b :: rest =>
      if bool_decide (rest = []) && ((1 <=? b) && (b <=? 16)) then false
      else if bool_decide (rest = []) && (b =? 0x81) then false
      else if size <=? 75 then opcode =? size
      else if size <=? 255 then opcode =? OP_PUSHDATA1
      else if size <=? 65535 then opcode =? OP_PUSHDATA2
      else true
  end.

(** ** Signatures *)

Definition IsCompressedOrUncompressedPubKey (vch : bytes) : bool :=
  if (length vch <? 33)%nat then false
  else if at_ vch 0 =? 4 then (length vch =? 65)%nat
  else if (at_ vch 0 =? 2) || (at_ vch 0 =? 3) then (length vch =? 33)%nat
  else false.

Definition IsDefinedHashtypeSignature (vchSig : bytes) : bool :=
  match list.last vchSig with
  | None => false
  | Some b =>
      let t := Z.land b (Z.lnot SIGHASH_ANYONECANPAY) in (SIGHASH_ALL <=? t) && (t <=? SIGHASH_SINGLE)
  end.

(** [vchSig] without its hash type byte. *)
Definition without_type (vchSig : bytes) : bytes := take (length vchSig - 1) vchSig.

Definition CheckSignatureEncoding (vchSig : bytes) : result unit :=
  if bool_decide (vchSig = []) then Ok tt
  else if negb (IsValidSignatureEncoding vchSig) then script_error "SIG_DER"
  else if negb (CheckLowS (without_type vchSig)) then script_error "SIG_HIGH_S"
  else if negb (IsDefinedHashtypeSignature vchSig) then script_error "SIG_HASHTYPE"
  else Ok tt.

Definition CheckPubKeyEncoding (vchPubKey : bytes) : result unit :=
  if IsCompressedOrUncompressedPubKey vchPubKey then Ok tt else script_error "PUBKEYTYPE".

(** [CScript() << b] *)
Definition push_script (b : bytes) : bytes :=
  let size := Z.of_nat (length b) in
  (if size <? OP_PUSHDATA1 then [size]
   else if size <=? 0xff then OP_PUSHDATA1 :: le_bytes 1 size
   else if size <=? 0xffff then OP_PUSHDATA2 :: le_bytes 2 size
   else OP_PUSHDATA4 :: le_bytes 4 size) ++ b.

(** The inner loop of [FindAndDelete]: skip copies of [b]. *)
Fixpoint skip_copies (fuel : nat) (b pc : bytes) : bytes * nat :=
  match fuel with
  | O => (pc, O)
  | S fuel =>
      if bool_decide (take (length b) pc = b) && (length b <=? length pc)%nat
      then let '(pc, k) := skip_copies fuel b (drop (length b) pc) in (pc, S k)
      else (pc, O)
  end.

Fixpoint find_and_delete (fuel : nat) (b pc : bytes) : bytes * nat :=
  match fuel with
  | O => (pc, O)
  | S fuel =>
      let '(pc2, k) := skip_copies (S (length pc)) b pc in
      match GetScriptOp pc2 with
      | (Some _, pc') =>
          let '(rest, k') := find_and_delete fuel b pc' in
          (take (length pc2 - length pc') pc2 ++ rest, (k + k')%nat)
      | (None, _) => (pc2, k)
      end
  end.

(** The script without [b] and the number of copies removed. *)
Definition FindAndDelete (script b : bytes) : bytes * nat :=
  if bool_decide (b = []) then (script, O) else
  let '(result, nFound) := find_and_delete (S (length script)) b script in
  if (0 <? nFound)%nat then (result, nFound) else (script, O).

Section interpreter.
Context {P : Primitives}.
(** The transaction and the input whose scripts are evaluated. *)
Variables (txTo : CTransaction) (nIn : nat).

Definition CheckECDSASignature (vchSigIn vchPubKey scriptCode : bytes) : bool :=
  if negb (pubkey_IsValid vchPubKey) then false else
  match list.last vchSigIn with
  | None => false
  | Some nHashType =>
      Verify vchPubKey (SignatureHash txTo scriptCode nIn nHashType) (without_type vchSigIn)
  end.

(** [EvalChecksigPreTapscript] *)
Definition EvalChecksig (vchSig vchPubKey script : bytes) : result bool :=
  let '(scriptCode, found) := FindAndDelete script (push_script vchSig) in
  if (0 <? found)%nat then script_error "SIG_FINDANDDELETE" else
  CheckSignatureEncoding vchSig;;
  CheckPubKeyEncoding vchPubKey;;
  let fSuccess := CheckECDSASignature vchSig vchPubKey scriptCode in
  if negb fSuccess && negb (bool_decide (vchSig = [])) then script_error "SIG_NULLFAIL"
  else Ok fSuccess.

(** ** OP_CHECKMULTISIG *)

(** The loop over signatures and keys, both from the top of the stack. *)
Fixpoint multisig_loop (scriptCode : bytes) (keys sigs : list bytes) : result bool :=
  match sigs with
  | [] => Ok true
  | vchSig :: sigs' =>
      match keys with
      | [] => Ok false
      | vchPubKey :: keys' =>
          CheckSignatureEncoding vchSig;;
          CheckPubKeyEncoding vchPubKey;;
          let left := if CheckECDSASignature vchSig vchPubKey scriptCode then sigs' else sigs in
          if (length keys' <? length left)%nat then Ok false
          else multisig_loop scriptCode keys' left
      end
  end.

(** [FindAndDelete] of every signature: under the standard flags a script that
    contains one is refused, so the script code is unchanged. *)
Definition drop_sigs (script : bytes) (sigs : list bytes) : result bytes :=
  foldR (λ code vchSig,
    let '(code', found) := FindAndDelete code (push_script vchSig) in
    if (0 <? found)%nat then script_error "SIG_FINDANDDELETE" else Ok code') script sigs.

(** The operation count and the stack after it. *)
Definition eval_checkmultisig (script : bytes) (nOpCount : Z) (stack : list bytes) : result (Z * bool * list bytes) :=
  match stack with
  | [] => script_error "INVALID_STACK_OPERATION"
  | top :: stack1 =>
      nKeysCount ← scriptnum_value top;
      if (nKeysCount <? 0) || (MAX_PUBKEYS_PER_MULTISIG <? nKeysCount) then script_error "PUBKEY_COUNT" else
      let nOpCount := nOpCount + nKeysCount in
      if MAX_OPS_PER_SCRIPT <? nOpCount then script_error "OP_COUNT" else
      let keys := take (Z.to_nat nKeysCount) stack1 in
      match drop (Z.to_nat nKeysCount) stack1 with
      | [] => script_error "INVALID_STACK_OPERATION"
      | m :: stack2 =>
          nSigsCount ← scriptnum_value m;
          if (nSigsCount <? 0) || (nKeysCount <? nSigsCount) then script_error "SIG_COUNT" else
          if (length stack2 <? Z.to_nat nSigsCount)%nat then script_error "INVALID_STACK_OPERATION" else
          let sigs := take (Z.to_nat nSigsCount) stack2 in
          scriptCode ← drop_sigs script sigs;
          fSuccess ← multisig_loop scriptCode keys sigs;
          if negb fSuccess && existsb (λ s, negb (bool_decide (s = []))) sigs then script_error "SIG_NULLFAIL" else
          match drop (Z.to_nat nSigsCount) stack2 with
          | [] => script_error "INVALID_STACK_OPERATION"
          | dummy :: rest =>
              if negb (bool_decide (dummy = [])) then script_error "SIG_NULLDUMMY"
              else Ok (nOpCount, fSuccess, rest)
          end
      end
  end.

(** The [...VERIFY] forms consume the result and fail when it is false. *)
Definition finish (verify : bool) (err : string) (ok : bool) (rest : list bytes) : result (list bytes) :=
  if verify then if ok then Ok rest else script_error err else Ok (of_bool ok :: rest).

(** ** One opcode: the new operation count and stack *)
Definition eval_op (script : bytes) (opcode : Z) (nOpCount : Z) (stack : list bytes) : result (Z * list bytes) :=
  if (opcode =? OP_1NEGATE) || ((OP_1 <=? opcode) && (opcode <=? OP_16)) then
    Ok (nOpCount, scriptnum_bytes (opcode - (OP_1 - 1)) :: stack)
  else if opcode =? OP_NOP then Ok (nOpCount, stack)
  else if opcode =? OP_DUP then
    match stack with
    | vch :: _ => Ok (nOpCount, vch :: stack)
    | [] => script_error "INVALID_STACK_OPERATION"
    end
  else if (opcode =? OP_EQUAL) || (opcode =? OP_EQUALVERIFY) then
    match stack with
    | vch2 :: vch1 :: rest =>
        s ← finish (opcode =? OP_EQUALVERIFY) "EQUALVERIFY" (bool_decide (vch1 = vch2)) rest;
        mret (nOpCount, s)
    | _ => script_error "INVALID_STACK_OPERATION"
    end
  else if (opcode =? OP_RIPEMD160) || (opcode =? OP_SHA256) || (opcode =? OP_HASH160) || (opcode =? OP_HASH256) then
    match stack with
    | vch :: rest =>
        Ok (nOpCount, (if opcode =? OP_RIPEMD160 then ripemd160 vch
                       else if opcode =? OP_SHA256 then sha256 vch
                       else if opcode =? OP_HASH160 then hash160 vch else doubleSha256 vch) :: rest)
    | [] => script_error "INVALID_STACK_OPERATION"
    end
  else if (opcode =? OP_CHECKSIG) || (opcode =? OP_CHECKSIGVERIFY) then
    match stack with
    | vchPubKey :: vchSig :: rest =>
        fSuccess ← EvalChecksig vchSig vchPubKey script;
        s ← finish (opcode =? OP_CHECKSIGVERIFY) "CHECKSIGVERIFY" fSuccess rest;
        mret (nOpCount, s)
    | _ => script_error "INVALID_STACK_OPERATION"
    end
  else if (opcode =? OP_CHECKMULTISIG) || (opcode =? OP_CHECKMULTISIGVERIFY) then
    '(nOpCount, fSuccess, rest) ← eval_checkmultisig script nOpCount stack;
    s ← finish (opcode =? OP_CHECKMULTISIGVERIFY) "CHECKMULTISIGVERIFY" fSuccess rest;
    mret (nOpCount, s)
  else unmodelled "opcode".

(** The body of the loop of [EvalScript] for the opcode at [pc]. *)
Definition eval_step (script pc : bytes) (nOpCount : Z) (stack : list bytes)
    : result (bytes * Z * list bytes) :=
  match GetScriptOp pc with
  | (None, _) => script_error "BAD_OPCODE"
  | (Some (opcode, data), pc') =>
      if (MAX_SCRIPT_ELEMENT_SIZE <? length data)%nat then script_error "PUSH_SIZE" else
      let nOpCount := if OP_16 <? opcode then nOpCount + 1 else nOpCount in
      if (OP_16 <? opcode) && (MAX_OPS_PER_SCRIPT <? nOpCount) then script_error "OP_COUNT" else
      if disabled opcode then script_error "DISABLED_OPCODE" else
      if opcode =? OP_CODESEPARATOR then script_error "OP_CODESEPARATOR" else
      '(nOpCount, stack) ←
        (if opcode <=? OP_PUSHDATA4 then
           if CheckMinimalPush data opcode then Ok (nOpCount, data :: stack) else script_error "MINIMALDATA"
         else eval_op script opcode nOpCount stack);
      if (MAX_STACK_SIZE <? length stack)%nat then script_error "STACK_SIZE"
      else Ok (pc', nOpCount, stack)
  end.

Fixpoint eval_loop (fuel : nat) (script pc : bytes) (nOpCount : Z) (stack : list bytes)
    : result (list bytes) :=
  match pc with
  | [] => Ok stack
  | _ =>
      match fuel with
      | O => unmodelled "fuel"
      | S fuel =>
          '(pc', nOpCount, stack) ← eval_step script pc nOpCount stack;
          eval_loop fuel script pc' nOpCount stack
      end
  end.

(** Every opcode is at least one byte long, so the length is enough fuel. *)
Definition EvalScript (stack : list bytes) (script : bytes) : result (list bytes) :=
  if MAX_SCRIPT_SIZE <? Z.of_nat (length script) then script_error "SCRIPT_SIZE"
  else eval_loop (length script) script script 0 stack.

(** ** [VerifyScript] *)

Definition IsPayToScriptHash (s : bytes) : bool :=
  (length s =? 23)%nat && (at_ s 0 =? OP_HASH160) && (at_ s 1 =? 0x14) && (at_ s 22 =? OP_EQUAL).

Definition IsWitnessProgram (s : bytes) : bool :=
  ((4 <=? length s) && (length s <=? 42))%nat &&
  ((at_ s 0 =? 0) || ((OP_1 <=? at_ s 0) && (at_ s 0 <=? OP_16))) &&
  (at_ s 1 + 2 =? Z.of_nat (length s)).

Fixpoint push_only (fuel : nat) (pc : bytes) : bool :=
  match pc, fuel with
  | [], _ => true
  | _, O => false
  | _, S fuel =>
      match GetScriptOp pc with
      | (Some (opcode, _), pc') => if OP_16 <? opcode then false else push_only fuel pc'
      | (None, _) => false
      end
  end.
Definition IsPushOnly (s : bytes) : bool := push_only (length s) s.

(** The stack of a true result, or the error. *)
Definition eval_true (stack : list bytes) : result (list bytes) :=
  match stack with
  | top :: _ => if CastToBool top then Ok stack else script_error "EVAL_FALSE"
  | [] => script_error "EVAL_FALSE"
  end.

Definition VerifyScript (scriptSig scriptPubKey : bytes) (witness : list bytes) : result unit :=
  stackCopy ← EvalScript [] scriptSig;
  stack ← EvalScript stackCopy scriptPubKey;
  stack ← eval_true stack;
  if IsWitnessProgram scriptPubKey then unmodelled "witness program" else
  stack ←
    (if IsPayToScriptHash scriptPubKey then
       if negb (IsPushOnly scriptSig) then script_error "SIG_PUSHONLY" else
       match stackCopy with
       | [] => script_error "UNKNOWN_ERROR"
       | pubKey2 :: stack =>
           stack ← EvalScript stack pubKey2;
           stack ← eval_true stack;
           if IsWitnessProgram pubKey2 then unmodelled "witness program" else Ok stack
       end
     else Ok stack);
  if negb (length stack =? 1)%nat then script_error "CLEANSTACK"
  else if negb (bool_decide (witness = [])) then script_error "WITNESS_UNEXPECTED"
  else Ok tt.
End interpreter.

(** ** The fuel is enough *)

Lemma GetScriptOp_shorter pc o pc' : GetScriptOp pc = (Some o, pc') → (length pc' < length pc)%nat.
Proof.
  destruct pc as [|c pc]; [done|]. unfold GetScriptOp, take_push. intros H.
  repeat case_match; simplify_eq; rewrite ?length_drop; cbn [length]; lia.
Qed.

Section fuel.
  Context {P : Primitives}.

Lemma eval_step_shorter tx i script pc n st pc' n' st' :
  eval_step tx i script pc n st = Ok (pc', n', st') → (length pc' < length pc)%nat.
Proof.
  unfold eval_step. destruct (GetScriptOp pc) as [[[o d]|] pc1] eqn:E; [|done]. apply GetScriptOp_shorter in E.
  repeat (match goal with |- (if ?b then script_error _ else _) = _ → _ => destruct b; [done|] end).
  unfold mbind, result_bind. match goal with |- match ?m with _ => _ end = _ → _ => destruct m as [[n1 st1]|]; [|done] end.
  destruct (_ <? _)%nat; [done|]. intros [= <- _ _]. done.
Qed.

(** The interpreter always reaches the end of a script or an error: with the
    fuel [EvalScript] gives it, more makes no difference. *)
Theorem eval_loop_enough (tx : CTransaction) (i : nat) (script pc : bytes) (n : Z) (st : list bytes) (fuel more : nat)
    (Hfuel : (length pc <= fuel)%nat) :
  eval_loop tx i (fuel + more) script pc n st = eval_loop tx i fuel script pc n st.
Proof.
  revert pc n st Hfuel. induction fuel as [|fuel IH]; intros pc n st Hf.
  - destruct pc; [by destruct more|cbn in Hf; lia].
  - destruct pc as [|c pc]; [done|]. cbn [Nat.add eval_loop].
    destruct (eval_step tx i script (c :: pc) n st) as [[[pc' n'] st']|] eqn:E; [|done].
    apply eval_step_shorter in E. cbn [mbind result_bind]. apply IH. lia.
Qed.
End fuel.

Lemma eval_loop_enough_witness :
  eval_loop (P := Toy.prims) {| nVersion := 2; nTime := 0; vin := []; vout := []; nLockTime := 0 |} 0 1000 [0x51; 0x51] [0x51; 0x51] 0 [] =
  Ok [[1]; [1]].
Proof.
  rewrite (eval_loop_enough (P := Toy.prims) _ 0 _ [0x51; 0x51] 0 [] 2 998) by (cbn; lia). vm_compute. reflexivity.
Defined.
