(* ===== verification/Termination.v ===== *)
(** * The fuel is enough

    The JSON reader and the loops over scripts are written with fuel taken from
    the length of their input.  More fuel changes nothing: the reader reads every
    text it could read with any amount of fuel, and the loops of the node reach
    the end of the script (the interpreter's own loop is in NodeScript). *)

From S2P Require Import Prelude JsString JsNum Json Primitives NodeTx NodeScript.

(** ** JSON *)

Lemma skip_ws_length l : (length (skip_ws l) <= length l)%nat.
Proof. induction l as [|c l IH]; cbn; [lia|]. destruct (is_json_space c); cbn; lia. Qed.

Lemma read_string_length n : ∀ l s rest, (length l <= n)%nat → read_string l = Ok (s, rest) → (length rest < length l)%nat.
Proof.
  induction n as [n IH] using lt_wf_ind. intros l s rest Hn.
  assert (Hrec : ∀ l' (f : list ascii → list ascii), (length l' < length l)%nat →
    ('(s, rest) ← read_string l'; mret (f s, rest)) = Ok (s, rest) → (length rest < length l)%nat).
  { intros l' f Hl. destruct (read_string l') as [[s' r']|] eqn:E; [|done]. intros [= _ <-].
    apply (IH (length l')) in E; lia. }
  destruct l as [|c l]; [done|]. cbn [read_string].
  destruct (Ascii.eqb c quote); [intros [= _ <-]; cbn; lia|]. destruct (Ascii.eqb c backslash).
  - destruct l as [|e l]; [done|]. destruct (simple_escape e); [apply (Hrec l (cons _)); cbn; lia|].
    destruct (negb (Ascii.eqb e "u")); [done|]. do 4 (destruct l as [|? l]; [done|]).
    destruct (read_hex4 _ _ _ _); [|done].
    do 6 (destruct l as [|? l]; [apply (Hrec _ (app _)); cbn; lia|]).
    destruct (read_hex4 _ _ _ _); [destruct (_ && _)|]; apply (Hrec _ (app _)); cbn; lia.
  - destruct (code c <? 32); [done|]. apply (Hrec l (cons c)). cbn. lia.
Qed.

Lemma take_digits_length r l : (length (take_digits r l) <= length l)%nat.
Proof. induction l as [|c l IH]; cbn; [lia|]. destruct (digit_val c); [destruct (_ <? _)|]; cbn; lia. Qed.

Lemma read_number_length l x rest : read_number l = Ok (x, rest) → (length rest < length l)%nat.
Proof.
  unfold read_number.
  set (p := match l with c :: r => if Ascii.eqb c "-" then (true, r) else (false, l) | [] => (false, []) end).
  assert (Hp : (length p.2 <= length l)%nat) by (unfold p; destruct l as [|c l]; [done|]; destruct (Ascii.eqb c "-"); cbn; lia).
  destruct p as [neg l1]. cbn [snd] in Hp. unfold mbind, result_bind.
  destruct (read_int l1) as [[ds l2]|] eqn:E1; [|done]. destruct (read_frac l2) as [[fs l3]|] eqn:E2; [|done].
  destruct (read_exp l3) as [[ex l4]|] eqn:E3; [|done]. intros [= _ <-].
  assert (length l2 < length l1)%nat.
  { unfold read_int in E1. pose proof (take_digits_length 10 l1). destruct (take_digits 10 l1) as [|d ds'] eqn:Ed; [done|].
    assert (l2 = drop (length (d :: ds')) l1) as -> by (repeat case_match; by simplify_eq).
    rewrite length_drop. cbn [length] in *. lia. }
  assert (length l3 <= length l2)%nat.
  { unfold read_frac in E2. repeat case_match; simplify_eq; rewrite ?length_drop; cbn; lia. }
  assert (length l4 <= length l3)%nat; [|lia].
  unfold read_exp in E3. destruct l3 as [|c r]; [by simplify_eq|]. destruct (Ascii.eqb (lower_char c) "e"); [|by simplify_eq].
  assert (Hs : (length (split_sign r).2 <= length r)%nat) by (unfold split_sign; repeat case_match; cbn; lia).
  destruct (split_sign r) as [sg r']. cbn [snd] in Hs. destruct (take_digits 10 r'); [done|]. simplify_eq.
  rewrite length_drop. cbn [length]. lia.
Qed.

(** What reads with some fuel takes a character, and reads the same with any
    fuel that covers the characters it takes. *)
Definition reads_same {A} (read : nat → list ascii → result (A * list ascii)) (l : list ascii) (x : A) (rest : list ascii) : Prop :=
  (length rest < length l)%nat ∧ ∀ f, (length l <= f + length rest)%nat → read f l = Ok (x, rest).

Lemma reads_elements_step fuel l vs rest :
  (∀ l v rest, read_value fuel l = Ok (v, rest) → reads_same read_value l v rest) →
  (∀ l vs rest, read_elements fuel l = Ok (vs, rest) → reads_same read_elements l vs rest) →
  read_elements (S fuel) l = Ok (vs, rest) → reads_same read_elements l vs rest.
Proof.
  intros IHv IHe H. cbn [read_elements] in H.
  destruct (read_value fuel l) as [[v l1]|] eqn:Ev; [|done]. cbn [mbind result_bind] in H.
  apply IHv in Ev as [Hv1 Hv2]. pose proof (skip_ws_length l1) as Hw. destruct (skip_ws l1) as [|c r] eqn:Ew; [done|].
  cbn [length] in Hw.
  destruct (Ascii.eqb c "]") eqn:E1.
  - injection H as <- <-. split; [lia|]. intros [|f] Hf; [lia|]. cbn [read_elements].
    rewrite Hv2 by lia. cbn [mbind result_bind]. by rewrite Ew, E1.
  - destruct (Ascii.eqb c ",") eqn:E2; [|done]. destruct (read_elements fuel r) as [[ws r1]|] eqn:Ee; [|done].
    injection H as <- <-. apply IHe in Ee as [He1 He2]. split; [lia|]. intros [|f] Hf; [lia|]. cbn [read_elements].
    rewrite Hv2 by lia. cbn [mbind result_bind]. rewrite Ew, E1, E2, He2 by lia. done.
Qed.

Lemma reads_members_step fuel acc l kvs rest :
  (∀ l v rest, read_value fuel l = Ok (v, rest) → reads_same read_value l v rest) →
  (∀ acc l kvs rest, read_members fuel acc l = Ok (kvs, rest) → reads_same (λ f, read_members f acc) l kvs rest) →
  read_members (S fuel) acc l = Ok (kvs, rest) → reads_same (λ f, read_members f acc) l kvs rest.
Proof.
  intros IHv IHm H. cbn [read_members] in H. pose proof (skip_ws_length l) as Hw0.
  destruct (skip_ws l) as [|c r] eqn:Ew0; [done|]. cbn [length] in Hw0.
  destruct (negb (Ascii.eqb c quote)) eqn:E0; [done|]. destruct (read_string r) as [[k l1]|] eqn:Es; [|done].
  cbn [mbind result_bind] in H. pose proof (read_string_length _ _ _ _ (le_n _) Es) as Hs.
  pose proof (skip_ws_length l1) as Hw1. destruct (skip_ws l1) as [|c1 r1] eqn:Ew1; [done|]. cbn [length] in Hw1.
  destruct (negb (Ascii.eqb c1 ":")) eqn:E1; [done|]. destruct (read_value fuel r1) as [[v l2]|] eqn:Ev; [|done].
  cbn [mbind result_bind] in H. apply IHv in Ev as [Hv1 Hv2].
  pose proof (skip_ws_length l2) as Hw2. destruct (skip_ws l2) as [|c2 r2] eqn:Ew2; [done|]. cbn [length] in Hw2.
  destruct (Ascii.eqb c2 "}") eqn:E2.
  - injection H as <- <-. split; [lia|]. intros [|f] Hf; [lia|]. cbn [read_members].
    rewrite Ew0, E0, Es. cbn [mbind result_bind]. rewrite Ew1, E1, Hv2 by lia. cbn [mbind result_bind]. by rewrite Ew2, E2.
  - destruct (Ascii.eqb c2 ",") eqn:E3; [|done]. apply IHm in H as [Hm1 Hm2]. split; [lia|].
    intros [|f] Hf; [lia|]. cbn [read_members].
    rewrite Ew0, E0, Es. cbn [mbind result_bind]. rewrite Ew1, E1, Hv2 by lia. cbn [mbind result_bind].
    rewrite Ew2, E2, E3. by apply Hm2; lia.
Qed.

Lemma reads_value_step fuel l v rest :
  (∀ l vs rest, read_elements fuel l = Ok (vs, rest) → reads_same read_elements l vs rest) →
  (∀ acc l kvs rest, read_members fuel acc l = Ok (kvs, rest) → reads_same (λ f, read_members f acc) l kvs rest) →
  read_value (S fuel) l = Ok (v, rest) → reads_same read_value l v rest.
Proof.
  intros IHe IHm H. pose proof (skip_ws_length l) as Hw.
  assert (Hleaf : (∀ f, read_value (S f) l = Ok (v, rest)) → (length rest < length (skip_ws l))%nat → reads_same read_value l v rest).
  { intros Hf Hl. split; [lia|]. intros [|f] Hn; [lia|]. apply Hf. }
  cbn [read_value] in H, Hleaf. destruct (skip_ws l) as [|c r] eqn:Ew; [done|]. cbn [length] in Hw.
  pose proof (skip_ws_length r) as Hr.
  destruct (Ascii.eqb c "{") eqn:E1; [|destruct (Ascii.eqb c "[") eqn:E2].
  - destruct (skip_ws r) as [|d r'] eqn:Er; [done|]. cbn [length] in Hr. destruct (Ascii.eqb d "}") eqn:E3.
    + apply Hleaf; [by intros|]. injection H as <- <-. cbn. lia.
    + destruct (read_members fuel [] r) as [[kvs r1]|] eqn:Em; [|done]. injection H as <- <-.
      apply IHm in Em as [Hm1 Hm2]. split; [lia|]. intros [|f] Hf; [lia|]. cbn [read_value].
      rewrite Ew, E1, Er, E3, Hm2 by lia. done.
  - destruct (skip_ws r) as [|d r'] eqn:Er; [done|]. cbn [length] in Hr. destruct (Ascii.eqb d "]") eqn:E3.
    + apply Hleaf; [by intros|]. injection H as <- <-. cbn. lia.
    + destruct (read_elements fuel r) as [[vs r1]|] eqn:Em; [|done]. injection H as <- <-.
      apply IHe in Em as [Hm1 Hm2]. split; [lia|]. intros [|f] Hf; [lia|]. cbn [read_value].
      rewrite Ew, E1, E2, Er, E3, Hm2 by lia. done.
  - apply Hleaf; [by intros|]. cbn [length].
    assert (Hword : ∀ w x, (0 < length (chars w))%nat → read_word w x (c :: r) = Ok (v, rest) → (length rest < S (length r))%nat).
    { intros w x Hn. unfold read_word. destruct (is_prefix _ _); [|done]. intros [= _ <-]. rewrite length_drop. cbn [length]. lia. }
    destruct (Ascii.eqb c quote).
    { destruct (read_string r) as [[s r1]|] eqn:Es; [|done]. injection H as _ <-.
      apply (read_string_length _ _ _ _ (le_n _)) in Es. lia. }
    repeat (match type of H with (if ?b then read_word _ _ _ else _) = _ => destruct b end; [eapply Hword, H; cbn; lia|]).
    destruct (read_number (c :: r)) as [[x r1]|] eqn:En; [|done]. injection H as _ <-. by apply read_number_length in En.
Qed.

Lemma reads_any_fuel fuel :
  (∀ l v rest, read_value fuel l = Ok (v, rest) → reads_same read_value l v rest) ∧
  (∀ l vs rest, read_elements fuel l = Ok (vs, rest) → reads_same read_elements l vs rest) ∧
  (∀ acc l kvs rest, read_members fuel acc l = Ok (kvs, rest) → reads_same (λ f, read_members f acc) l kvs rest).
Proof.
  induction fuel as [|fuel (IHv & IHe & IHm)]; [done|]. split_and!; intros.
  - by eapply reads_value_step.
  - by eapply reads_elements_step.
  - by eapply reads_members_step.
Qed.

(** [JSON.parse] reads every text that can be read: whatever fuel the reader is
    given, when it reads the whole text as a value then [parse] gives that
    value. *)
Theorem parse_reads_all (fuel : nat) (s : string) (v : json) (rest : list ascii)
    (Hread : read_value fuel (chars s) = Ok (v, rest)) (Hrest : skip_ws rest = []) :
  parse s = Ok v.
Proof.
  apply (proj1 (reads_any_fuel fuel)) in Hread as [Hlt Hread]. unfold parse. rewrite Hread by lia.
  cbn [mbind result_bind]. by rewrite Hrest.
Qed.

(** ** Scripts *)

Lemma strip_separators_enough fuel k pc :
  (length pc < fuel)%nat → strip_separators (fuel + k) pc = strip_separators fuel pc.
Proof.
  revert pc. induction fuel as [|fuel IH]; intros pc Hl; [lia|]. cbn [Nat.add strip_separators].
  destruct (GetScriptOp pc) as [[o|] pc'] eqn:E; [|done]. apply GetScriptOp_shorter in E. by rewrite IH by lia.
Qed.

Lemma push_only_enough fuel k pc : (length pc <= fuel)%nat → push_only (fuel + k) pc = push_only fuel pc.
Proof.
  revert pc. induction fuel as [|fuel IH]; intros pc Hl; [by destruct pc; [destruct k|cbn in Hl; lia]|].
  cbn [Nat.add push_only]. destruct pc as [|c pc]; [done|].
  destruct (GetScriptOp (c :: pc)) as [[[o d]|] pc'] eqn:E; [|done]. apply GetScriptOp_shorter in E.
  destruct (OP_16 <? o); [done|]. apply IH. lia.
Qed.

Lemma skip_copies_shorter fuel b pc : (length (skip_copies fuel b pc).1 <= length pc)%nat.
Proof.
  revert pc. induction fuel as [|fuel IH]; intros pc; cbn; [lia|]. destruct (_ && _); [|cbn; lia].
  specialize (IH (drop (length b) pc)). rewrite length_drop in IH. destruct (skip_copies fuel b _). cbn in *. lia.
Qed.

Lemma find_and_delete_enough fuel k b pc :
  (length pc < fuel)%nat → find_and_delete (fuel + k) b pc = find_and_delete fuel b pc.
Proof.
  revert pc. induction fuel as [|fuel IH]; intros pc Hl; [lia|]. cbn [Nat.add find_and_delete].
  pose proof (skip_copies_shorter (S (length pc)) b pc) as Hs. destruct (skip_copies (S (length pc)) b pc) as [pc2 j].
  cbn in Hs. destruct (GetScriptOp pc2) as [[o|] pc'] eqn:E; [|done]. apply GetScriptOp_shorter in E.
  by rewrite IH by lia.
Qed.

Lemma parse_reads_all_witness : parse " [1, [] ] " = Ok (JArr [jint 1; JArr []]).
Proof.
  apply (parse_reads_all 100 " [1, [] ] " (JArr [jint 1; JArr []]) [" "%char]); vm_compute; reflexivity.
Defined.
