(* ===== verification/ScriptLemmas.v ===== *)
(** * Scripts as lists of items

    A script the wallet writes is a sequence of pushes and opcodes.  [assemble]
    lays such a sequence out in bytes; the lemmas carry the node's parser, its
    signature-hash serialization, [FindAndDelete] and the evaluation loop over
    from bytes to items. *)

From S2P Require Import Prelude Primitives NodeTx NodeScript.

Inductive item := Push (d : bytes) | Op (o : Z).

#[export] Instance item_eq_dec : EqDecision item.
Proof. solve_decision. Defined.

Definition item_bytes (it : item) : bytes :=
  match it with Push d => push_script d | Op o => [o] end.
Definition assemble (its : list item) : bytes := mjoin (item_bytes <$> its).

Definition push_opcode (d : bytes) : Z :=
  let size := Z.of_nat (length d) in
  if size <? OP_PUSHDATA1 then size else if size <=? 0xff then OP_PUSHDATA1
  else if size <=? 0xffff then OP_PUSHDATA2 else OP_PUSHDATA4.

Definition item_op (it : item) : Z * bytes :=
  match it with Push d => (push_opcode d, d) | Op o => (o, []) end.

Definition item_ok (it : item) : Prop :=
  match it with
  | Push d => (length d <= MAX_SCRIPT_ELEMENT_SIZE)%nat
  | Op o => OP_PUSHDATA4 < o ∧ o ≠ OP_CODESEPARATOR
  end.

Lemma assemble_cons it its : assemble (it :: its) = item_bytes it ++ assemble its.
Proof. done. Qed.

Lemma assemble_app its its' : assemble (its ++ its') = assemble its ++ assemble its'.
Proof.
  induction its as [|it its IH]; [done|]. cbn [app]. rewrite !assemble_cons, IH. apply app_assoc.
Qed.

Lemma take_push_app op d rest k :
  k = Z.of_nat (length d) → take_push op k (d ++ rest) = (Some (op, d), rest).
Proof.
  intros ->. unfold take_push. rewrite length_app.
  destruct (Z.ltb_spec (Z.of_nat (length d + length rest)) (Z.of_nat (length d))); [lia|].
  by rewrite Nat2Z.id, take_app_length, drop_app_length.
Qed.

Lemma push_parse d rest :
  Z.of_nat (length d) <= 0xffffffff →
  GetScriptOp (push_script d ++ rest) = (Some (push_opcode d, d), rest).
Proof.
  intros Hd. unfold push_script, push_opcode.
  destruct (Z.ltb_spec (Z.of_nat (length d)) OP_PUSHDATA1) as [H1|H1].
  { cbn [app]. unfold GetScriptOp.
    destruct (Z.leb_spec (Z.of_nat (length d)) OP_PUSHDATA4); [|unfold OP_PUSHDATA1, OP_PUSHDATA4 in *; lia].
    destruct (Z.ltb_spec (Z.of_nat (length d)) OP_PUSHDATA1); [|lia]. by apply take_push_app. }
  unfold OP_PUSHDATA1 in H1.
  destruct (Z.leb_spec (Z.of_nat (length d)) 0xff).
  { rewrite <- app_assoc. cbn [app]. unfold GetScriptOp. change (OP_PUSHDATA1 <=? OP_PUSHDATA4) with true.
    change (OP_PUSHDATA1 <? OP_PUSHDATA1) with false. change (OP_PUSHDATA1 =? OP_PUSHDATA1) with true. cbv match zeta.
    rewrite take_app_length', drop_app_length', le_value_small by (cbn; lia || by rewrite le_bytes_length).
    by apply take_push_app. }
  destruct (Z.leb_spec (Z.of_nat (length d)) 0xffff).
  { rewrite <- app_assoc. cbn [app]. unfold GetScriptOp. change (OP_PUSHDATA2 <=? OP_PUSHDATA4) with true.
    change (OP_PUSHDATA2 <? OP_PUSHDATA1) with false. change (OP_PUSHDATA2 =? OP_PUSHDATA1) with false.
    change (OP_PUSHDATA2 =? OP_PUSHDATA2) with true. cbv match zeta.
    rewrite take_app_length', drop_app_length', le_value_small by (cbn; lia || by rewrite le_bytes_length).
    by apply take_push_app. }
  rewrite <- app_assoc. cbn [app]. unfold GetScriptOp. change (OP_PUSHDATA4 <=? OP_PUSHDATA4) with true.
  change (OP_PUSHDATA4 <? OP_PUSHDATA1) with false. change (OP_PUSHDATA4 =? OP_PUSHDATA1) with false.
  change (OP_PUSHDATA4 =? OP_PUSHDATA2) with false. cbv match zeta.
  rewrite take_app_length', drop_app_length', le_value_small by (cbn; lia || by rewrite le_bytes_length).
  by apply take_push_app.
Qed.

Lemma item_parse it rest : item_ok it → GetScriptOp (item_bytes it ++ rest) = (Some (item_op it), rest).
Proof.
  destruct it as [d|o]; simpl; intros H.
  - apply push_parse. unfold MAX_SCRIPT_ELEMENT_SIZE in H. lia.
  - destruct H as [H _]. destruct (Z.leb_spec o OP_PUSHDATA4); [lia|done].
Qed.

Lemma item_bytes_length it : (1 <= length (item_bytes it))%nat.
Proof.
  destruct it as [d|o]; simpl; [|lia]. unfold push_script. rewrite length_app.
  repeat case_if; cbn [length]; rewrite ?le_bytes_length; lia.
Qed.

Lemma push_opcode_le d : push_opcode d <= OP_PUSHDATA4.
Proof. unfold push_opcode, OP_PUSHDATA1, OP_PUSHDATA2, OP_PUSHDATA4. repeat case_if; lia. Qed.

Lemma item_op_plain it : item_ok it → (item_op it).1 ≠ OP_CODESEPARATOR.
Proof.
  destruct it as [d|o]; simpl; [|by intros [_ ?]]. intros _ E. pose proof (push_opcode_le d).
  rewrite E in *. unfold OP_CODESEPARATOR, OP_PUSHDATA4 in *. lia.
Qed.

(** The bytes an item occupies, as the parser measures them. *)
Lemma consumed_item it rest :
  take (length (item_bytes it ++ rest) - length rest) (item_bytes it ++ rest) = item_bytes it.
Proof.
  rewrite length_app. replace (length (item_bytes it) + length rest - length rest)%nat
    with (length (item_bytes it)) by lia. apply take_app_length.
Qed.

Lemma strip_separators_items its fuel :
  Forall item_ok its → (length (assemble its) < fuel)%nat →
  strip_separators fuel (assemble its) = (assemble its, O).
Proof.
  intros Hok. revert fuel. induction Hok as [|it its Hit _ IH]; intros [|fuel] Hf; try (simpl in Hf; lia); [done|].
  rewrite assemble_cons in *. cbn [strip_separators]. rewrite item_parse by done.
  pose proof (item_op_plain it Hit). destruct (item_op it) as [o d]. cbn [fst] in *.
  rewrite length_app in Hf. pose proof (item_bytes_length it). rewrite IH by lia.
  destruct (Z.eqb_spec o OP_CODESEPARATOR); [done|]. by rewrite consumed_item.
Qed.

(** A push is found in a script only where it is an item. *)
Lemma skip_copies_item s it rest fuel :
  item_ok it → Z.of_nat (length s) <= 0xffffffff → it ≠ Push s →
  skip_copies fuel (push_script s) (item_bytes it ++ rest) = (item_bytes it ++ rest, O).
Proof.
  intros Hok Hs Hne. destruct fuel as [|fuel]; [done|]. cbn [skip_copies].
  case_bool_decide as E; [|done]. destruct (Nat.leb_spec (length (push_script s)) (length (item_bytes it ++ rest))); [|done].
  exfalso. apply Hne. pose proof (item_parse it rest Hok) as H1.
  rewrite <- (take_drop (length (push_script s)) (item_bytes it ++ rest)), E in H1.
  rewrite push_parse in H1 by done. injection H1 as H1 _.
  destruct it as [d|o]; simpl in *; [by simplify_eq|].
  simplify_eq. pose proof (push_opcode_le []). destruct Hok. lia.
Qed.

Lemma find_and_delete_items s its fuel :
  Forall item_ok its → Z.of_nat (length s) <= 0xffffffff → Push s ∉ its →
  (length (assemble its) < fuel)%nat →
  find_and_delete fuel (push_script s) (assemble its) = (assemble its, O).
Proof.
  intros Hok Hs. revert fuel. induction Hok as [|it its Hit _ IH]; intros [|fuel] Hni Hf; try (simpl in Hf; lia).
  - change (assemble []) with (@nil Z). cbn [find_and_delete skip_copies length].
    pose proof (item_bytes_length (Push s)) as Hl. cbn [item_bytes] in Hl.
    rewrite (proj2 (Nat.leb_gt _ _)) by lia. by rewrite andb_false_r.
  - rewrite assemble_cons in *. cbn [find_and_delete].
    rewrite not_elem_of_cons in Hni. destruct Hni as [Hne Hni].
    rewrite skip_copies_item by (done || congruence). rewrite item_parse by done.
    rewrite length_app in Hf. pose proof (item_bytes_length it). rewrite IH by (done || lia).
    by rewrite consumed_item.
Qed.

Lemma FindAndDelete_items s its :
  Forall item_ok its → Z.of_nat (length s) <= 0xffffffff → Push s ∉ its →
  FindAndDelete (assemble its) (push_script s) = (assemble its, O).
Proof.
  intros. unfold FindAndDelete. case_bool_decide; [done|].
  rewrite find_and_delete_items by (done || lia). done.
Qed.

(** ** Evaluation *)

(** A push the minimality rule accepts in the form [push_script] gives it. *)
Definition push_minimal (d : bytes) : Prop := (2 <= length d <= MAX_SCRIPT_ELEMENT_SIZE)%nat ∨ d = [].

Lemma CheckMinimalPush_ok d : push_minimal d → CheckMinimalPush d (push_opcode d) = true.
Proof.
  intros [Hl| ->]; [|done]. unfold CheckMinimalPush, push_opcode.
  destruct d as [|a [|b d]]; [done|simpl in Hl; lia|].
  rewrite bool_decide_eq_false_2 by done. cbn [andb].
  set (k := Z.of_nat (length (a :: b :: d))). unfold OP_PUSHDATA1, MAX_SCRIPT_ELEMENT_SIZE in *.
  destruct (Z.ltb_spec k 0x4c); destruct (Z.leb_spec k 75); try lia.
  destruct (Z.leb_spec k 255); [done|]. destruct (Z.leb_spec k 65535); [done|]. lia.
Qed.

Lemma push_minimal_ok d : push_minimal d → item_ok (Push d).
Proof. intros [[_ H]| ->]; [exact H|]. apply Nat.le_0_l. Qed.

(** Pushes, and nothing else, are push-only. *)
Lemma push_only_items ds fuel :
  Forall push_minimal ds → (length (assemble (Push <$> ds)) <= fuel)%nat →
  push_only fuel (assemble (Push <$> ds)) = true.
Proof.
  intros Hds. revert fuel. induction Hds as [|d ds Hd _ IH]; intros fuel Hf; [by destruct fuel|].
  rewrite fmap_cons, assemble_cons in *. pose proof (item_bytes_length (Push d)) as Hl.
  rewrite length_app in Hf. destruct fuel as [|fuel]; [lia|].
  destruct (item_bytes (Push d) ++ assemble (Push <$> ds)) as [|c pc] eqn:E.
  { apply (f_equal length) in E. rewrite length_app in E. cbn [length] in E. lia. }
  cbn [push_only]. rewrite <- E, item_parse by (by apply push_minimal_ok). cbn [item_op].
  pose proof (push_opcode_le d). unfold OP_PUSHDATA4, OP_16 in *.
  destruct (Z.ltb_spec 0x60 (push_opcode d)); [lia|]. apply IH. lia.
Qed.

Section eval.
Context {P : Primitives}.
Variables (txTo : CTransaction) (nIn : nat).

Abbreviation eval_loop := (eval_loop txTo nIn).
Abbreviation eval_step := (eval_step txTo nIn).

(** The loop over items. *)
Lemma eval_loop_cons fuel script it its k stack :
  item_ok it → (length (assemble (it :: its)) <= fuel)%nat →
  ∃ fuel', (length (assemble its) <= fuel')%nat ∧
  eval_loop fuel script (assemble (it :: its)) k stack =
    ('(_, k, stack) ← eval_step script (item_bytes it ++ assemble its) k stack;
     eval_loop fuel' script (assemble its) k stack).
Proof.
  intros Hok Hf. rewrite assemble_cons in *. pose proof (item_bytes_length it) as Hl.
  rewrite length_app in Hf. destruct fuel as [|fuel]; [lia|]. exists fuel. split; [lia|].
  destruct (item_bytes it ++ assemble its) as [|c pc] eqn:E.
  { apply (f_equal length) in E. rewrite length_app in E. simpl in E. lia. }
  cbn [NodeScript.eval_loop]. rewrite <- E. unfold NodeScript.eval_step. rewrite item_parse by done.
  destruct (item_op it) as [o d]. repeat case_if; try done.
  all: destruct (CheckMinimalPush _ _) || destruct (eval_op _ _ _ _ _ _) as [[? ?]|]; try done.
  all: cbn [mbind result_bind]; case_if; done.
Qed.

(** Pushing data. *)
Lemma eval_push script d rest k stack :
  push_minimal d → (length stack < MAX_STACK_SIZE)%nat →
  eval_step script (item_bytes (Push d) ++ rest) k stack = Ok (rest, k, d :: stack).
Proof.
  intros Hm Hs. unfold NodeScript.eval_step.
  assert (Hl : (length d <= MAX_SCRIPT_ELEMENT_SIZE)%nat).
  { destruct Hm as [?| ->]; [lia|]. unfold MAX_SCRIPT_ELEMENT_SIZE. simpl. lia. }
  rewrite item_parse by done. cbn [item_op]. pose proof (push_opcode_le d) as Ho.
  destruct (Nat.ltb_spec MAX_SCRIPT_ELEMENT_SIZE (length d)); [lia|].
  unfold OP_PUSHDATA4 in Ho.
  destruct (Z.ltb_spec OP_16 (push_opcode d)); [unfold OP_16 in *; lia|]. cbn [andb].
  assert (disabled (push_opcode d) = false) as ->.
  { unfold disabled. cbn [existsb]. lia. }
  destruct (Z.eqb_spec (push_opcode d) OP_CODESEPARATOR); [unfold OP_CODESEPARATOR in *; lia|].
  destruct (Z.leb_spec (push_opcode d) OP_PUSHDATA4); [|unfold OP_PUSHDATA4 in *; lia].
  rewrite CheckMinimalPush_ok by done. cbn [mbind result_bind length].
  destruct (Nat.ltb_spec MAX_STACK_SIZE (S (length stack))); [lia|done].
Qed.

(** An opcode that is executed. *)
Lemma eval_opcode script o rest k stack k' stack' :
  eval_op txTo nIn script o (if OP_16 <? o then k + 1 else k) stack = Ok (k', stack') →
  OP_PUSHDATA4 < o → o ≠ OP_CODESEPARATOR → disabled o = false →
  k + 1 <= MAX_OPS_PER_SCRIPT → (length stack' <= MAX_STACK_SIZE)%nat →
  eval_step script (item_bytes (Op o) ++ rest) k stack = Ok (rest, k', stack').
Proof.
  intros He Ho Hs Hd Hk Hst. unfold NodeScript.eval_step. rewrite item_parse by done. cbn [item_op].
  destruct (Nat.ltb_spec MAX_SCRIPT_ELEMENT_SIZE (length (@nil Z))); [simpl in *; lia|].
  assert ((OP_16 <? o) && (MAX_OPS_PER_SCRIPT <? (if OP_16 <? o then k + 1 else k)) = false) as ->.
  { destruct (OP_16 <? o); cbn [andb]; [|done]. lia. }
  rewrite Hd. destruct (Z.eqb_spec o OP_CODESEPARATOR); [done|].
  destruct (Z.leb_spec o OP_PUSHDATA4); [lia|]. rewrite He. cbn [mbind result_bind].
  destruct (Nat.ltb_spec MAX_STACK_SIZE (length stack')); [lia|done].
Qed.
(** A run of pushes. *)
Lemma eval_loop_pushes ds its fuel script k stack :
  Forall push_minimal ds → (length ds + length stack <= MAX_STACK_SIZE)%nat →
  (length (assemble ((Push <$> ds) ++ its)) <= fuel)%nat →
  ∃ fuel', (length (assemble its) <= fuel')%nat ∧
    eval_loop fuel script (assemble ((Push <$> ds) ++ its)) k stack =
    eval_loop fuel' script (assemble its) k (rev ds ++ stack).
Proof.
  intros Hds. revert fuel stack. induction Hds as [|d ds Hd _ IH]; intros fuel stack Hst Hf.
  { by exists fuel. }
  rewrite fmap_cons in *. cbn [app] in *.
  destruct (eval_loop_cons fuel script (Push d) ((Push <$> ds) ++ its) k stack) as (f & Hf' & ->);
    [by apply push_minimal_ok|done|].
  cbn [length] in Hst. rewrite eval_push by (done || lia). cbn [mbind result_bind].
  destruct (IH f (d :: stack)) as (f' & Hf'' & ->); [cbn [length]; lia|done|].
  exists f'. split; [done|]. cbn [rev]. by rewrite <- app_assoc.
Qed.
End eval.
