(* ===== verification/TxCodec.v ===== *)
(** * Transaction serialization

    The byte-level half of the wallet's transaction builder (web-wallet/crypto.js
    241-301): output scripts, compact sizes, little-endian integers, the
    transaction layout and the legacy signature hash.  The lemmas relate each of
    them to the node's own definitions in [NodeTx]: the node reads back the
    transaction the wallet wrote, and computes the hash the wallet signed. *)

From S2P Require Import Prelude Primitives Base58 NodeTx.

(** [new Uint8Array([...])] *)
Definition u8_of (l : list Z) : bytes := to_u8 <$> l.

(** ** Scripts *)

Definition p2pkhScriptPubKey (pubkeyHash20 : bytes) : bytes :=
  u8_of ([0x76; 0xa9; 0x14] ++ pubkeyHash20 ++ [0x88; 0xac]).
Definition p2shScriptPubKey (scriptHash20 : bytes) : bytes :=
  u8_of ([0xa9; 0x14] ++ scriptHash20 ++ [0x87]).
Definition p2wpkhScriptPubKey (pubkeyHash20 : bytes) : bytes :=
  u8_of ([0x00; 0x14] ++ pubkeyHash20).

(** ** Integers *)

(** A [DataView] setter of [k] bytes at [off], in little-endian mode. *)
Definition view_set (b : bytes) (off k : nat) (z : Z) : bytes :=
  take off b ++ le_bytes k z ++ drop (off + k) b.

Definition varInt (n : Z) : bytes :=
  if n <? 0xfd then u8_of [n] else
  let b := u8_new (if n <=? 0xffff then 3 else if n <=? 0xffffffff then 5 else 9) in
  if n <=? 0xffff then view_set (<[0%nat := 0xfd]> b) 1 2 n
  else if n <=? 0xffffffff then view_set (<[0%nat := 0xfe]> b) 1 4 n
  else view_set (<[0%nat := 0xff]> b) 1 8 n.

Definition u32le (n : Z) : bytes := view_set (u8_new 4) 0 4 n.
Definition u64le (n : Z) : bytes := view_set (u8_new 8) 0 8 n.

(** The loop of [concatBytes]: [out.set(a, off); off += a.length]. *)
Definition concat_step (st : bytes * nat) (a : bytes) : result (bytes * nat) :=
  let '(out, off) := st in
  out ← u8_set out a off; mret (out, (off + length a)%nat).
Definition concatBytes (arrs : list bytes) : result bytes :=
  let total := foldl (λ n a, (n + length a)%nat) O arrs in
  '(out, _) ← foldR concat_step (u8_new total, O) arrs; mret out.

(** ** Transactions *)

Record txin := { prevTxid : bytes; prevVout : Z; scriptSig : bytes; sequence : option Z }.
Record txout := { valueSatoshis : Z; scriptPubKey : bytes }.

Definition len (b : bytes) : Z := Z.of_nat (length b).

Definition input_parts (inp : txin) : list bytes :=
  [prevTxid inp; u32le (prevVout inp); varInt (len (scriptSig inp)); scriptSig inp;
   u32le (default 0xffffffff (sequence inp))].
Definition output_parts (out : txout) : list bytes :=
  [u64le (valueSatoshis out); varInt (len (scriptPubKey out)); scriptPubKey out].

Definition serializeTx (version : Z) (inputs : list txin) (outputs : list txout) (locktime : Z)
    : result bytes :=
  concatBytes ([u32le version; varInt (Z.of_nat (length inputs))] ++
    mjoin (input_parts <$> inputs) ++
    [varInt (Z.of_nat (length outputs))] ++
    mjoin (output_parts <$> outputs) ++
    [u32le locktime]).

(** [inputs.map((inp, i) => ...)] of [legacySighash]. *)
Definition blank (inputIndex : nat) (subscript : bytes) (i : nat) (inp : txin) : txin :=
  {| prevTxid := prevTxid inp; prevVout := prevVout inp;
     scriptSig := if bool_decide (i = inputIndex) then subscript else [];
     sequence := sequence inp |}.

Definition legacySighash `{Primitives} (inputs : list txin) (outputs : list txout)
    (inputIndex : nat) (subscript : bytes) (locktime : Z) : result bytes :=
  let blanked := imap (blank inputIndex subscript) inputs in
  preimage ← serializeTx 2 blanked outputs locktime;
  withType ← concatBytes [preimage; u32le 1];
  mret (doubleSha256 withType).

(** ** Lemmas: bytes *)

Lemma u8_of_bytes l : all_bytes l → u8_of l = l.
Proof. apply all_bytes_map_u8. Qed.

Lemma foldl_total (arrs : list bytes) n :
  foldl (λ n a, (n + length a)%nat) n arrs = (n + length (mjoin arrs))%nat.
Proof.
  revert n. induction arrs as [|a arrs IH]; intros n; simpl; [lia|].
  rewrite IH, length_app. lia.
Qed.

Lemma concat_loop pre arrs :
  foldR concat_step (pre ++ u8_new (length (mjoin arrs)), length pre) arrs =
  Ok (pre ++ mjoin arrs, length (pre ++ mjoin arrs)).
Proof.
  revert pre. induction arrs as [|a arrs IH]; intros pre; simpl.
  - by rewrite !app_nil_r.
  - rewrite length_app, (u8_set_fill pre (length a) a) by done. cbn [mbind result_bind].
    specialize (IH (pre ++ a)). rewrite <- !app_assoc, (length_app pre a) in IH. apply IH.
Qed.

(** The buffer is sized so that no write falls outside it. *)
Lemma concatBytes_join arrs : concatBytes arrs = Ok (mjoin arrs).
Proof.
  unfold concatBytes. rewrite foldl_total. pose proof (concat_loop [] arrs) as E.
  cbn [app length] in E. rewrite Nat.add_0_l, E. done.
Qed.

Lemma u32le_le n : u32le n = le_bytes 4 n.
Proof. done. Qed.
Lemma u64le_le n : u64le n = le_bytes 8 n.
Proof. done. Qed.

(** The wallet's compact size is the node's. *)
Lemma varInt_WriteCompactSize n : 0 <= n → varInt n = WriteCompactSize n.
Proof.
  intros Hn. unfold varInt, WriteCompactSize.
  destruct (Z.ltb_spec n 0xfd); [done|].
  destruct (Z.leb_spec n 0xffff); [done|]. by destruct (Z.leb_spec n 0xffffffff).
Qed.

(** The layout of a serialized transaction. *)
Definition input_bytes (i : txin) : bytes :=
  prevTxid i ++ le_bytes 4 (prevVout i) ++ write_script (scriptSig i) ++
  le_bytes 4 (default 0xffffffff (sequence i)).
Definition output_bytes (o : txout) : bytes :=
  le_bytes 8 (valueSatoshis o) ++ write_script (scriptPubKey o).
Definition tx_bytes (version : Z) (ins : list txin) (outs : list txout) (locktime : Z) : bytes :=
  le_bytes 4 version ++
  (WriteCompactSize (Z.of_nat (length ins)) ++ mjoin (input_bytes <$> ins)) ++
  (WriteCompactSize (Z.of_nat (length outs)) ++ mjoin (output_bytes <$> outs)) ++
  le_bytes 4 locktime.

Lemma mjoin_app {A} (l k : list (list A)) : mjoin (l ++ k) = mjoin l ++ mjoin k.
Proof. induction l as [|x l IH]; [done|]. simpl. by rewrite IH, app_assoc. Qed.

Lemma mjoin_parts {A} (parts : A → list bytes) (w : A → bytes) l :
  (∀ x, mjoin (parts x) = w x) → mjoin (mjoin (parts <$> l)) = mjoin (w <$> l).
Proof.
  intros H. induction l as [|x l IH]; [done|]. rewrite !fmap_cons.
  change (mjoin (parts x :: ?k)) with (parts x ++ mjoin k).
  change (mjoin (w x :: ?k)) with (w x ++ mjoin k). by rewrite mjoin_app, H, IH.
Qed.

Lemma serializeTx_layout version ins outs locktime :
  serializeTx version ins outs locktime = Ok (tx_bytes version ins outs locktime).
Proof.
  unfold serializeTx, tx_bytes. rewrite concatBytes_join, !mjoin_app. f_equal.
  rewrite (mjoin_parts input_parts input_bytes), (mjoin_parts output_parts output_bytes).
  - cbn [mjoin list_join]. rewrite !u32le_le, !varInt_WriteCompactSize, !app_nil_r by lia.
    by rewrite <- !app_assoc.
  - intros o. unfold output_parts, output_bytes, write_script. cbn [mjoin list_join].
    unfold len. by rewrite u64le_le, varInt_WriteCompactSize, !app_nil_r by lia.
  - intros i. unfold input_parts, input_bytes, write_script. cbn [mjoin list_join].
    unfold len. rewrite !u32le_le, varInt_WriteCompactSize, !app_nil_r by lia.
    by rewrite <- !app_assoc.
Qed.

(** ** The node reads the transaction back *)

Definition node_in (i : txin) : CTxIn :=
  {| prevout := {| op_hash := prevTxid i; op_n := prevVout i |}; txin_scriptSig := scriptSig i;
     nSequence := default 0xffffffff (sequence i); scriptWitness := [] |}.
Definition node_out (o : txout) : CTxOut :=
  {| nValue := valueSatoshis o; txout_scriptPubKey := scriptPubKey o |}.
Definition node_tx (ins : list txin) (outs : list txout) (locktime : Z) : CTransaction :=
  {| nVersion := 2; nTime := 0; vin := node_in <$> ins; vout := node_out <$> outs;
     nLockTime := locktime |}.

(** Fields within their width and scripts the node is willing to read. *)
Definition txin_ok (i : txin) : Prop :=
  length (prevTxid i) = 32%nat ∧ 0 <= prevVout i < 2 ^ 32 ∧ len (scriptSig i) <= MAX_SIZE ∧
  0 <= default 0xffffffff (sequence i) < 2 ^ 32.
Definition txout_ok (o : txout) : Prop :=
  0 <= valueSatoshis o < 2 ^ 63 ∧ len (scriptPubKey o) <= MAX_SIZE.
Definition tx_ok (ins : list txin) (outs : list txout) (locktime : Z) : Prop :=
  ins ≠ [] ∧ Forall txin_ok ins ∧ Forall txout_ok outs ∧ 0 <= locktime < 2 ^ 32 ∧
  Z.of_nat (length ins) <= MAX_SIZE ∧ Z.of_nat (length outs) <= MAX_SIZE.

Lemma reads_txin i : txin_ok i → reads read_txin (input_bytes i) (node_in i).
Proof.
  intros (H1 & H2 & H3 & H4).
  eapply reads_bind; [apply reads_bytes; lia|]. eapply reads_bind; [by apply reads_uint|].
  eapply reads_bind; [by apply reads_script|]. eapply reads_bind_last; [by apply reads_uint|].
  apply reads_ret.
Qed.

Lemma reads_txout o : txout_ok o → reads read_txout (output_bytes o) (node_out o).
Proof.
  intros (H1 & H2). eapply reads_bind; [apply reads_uint; cbn; lia|].
  eapply reads_bind_last; [by apply reads_script|].
  rewrite to_signed_small by (cbn; lia). apply reads_ret.
Qed.

Lemma reads_tx aw ins outs locktime :
  tx_ok ins outs locktime →
  reads (UnserializeTransaction aw) (tx_bytes 2 ins outs locktime) (node_tx ins outs locktime).
Proof.
  intros (Hne & Hin & Hout & Hl & Hni & Hno).
  eapply reads_bind; [apply reads_uint; cbn; lia|].
  change (to_signed 32 2) with 2. cbv zeta. change (2 <? 2) with false. cbv match.
  eapply reads_bind_first; [apply reads_ret|].
  eapply reads_bind.
  { apply (reads_vector _ _ node_in); [done|]. eapply Forall_impl; [apply reads_txin|done]. }
  rewrite bool_decide_eq_false_2 by (by destruct ins). cbn [andb].
  eapply reads_bind.
  { eapply reads_bind_last; [|apply reads_ret].
    apply (reads_vector _ _ node_out); [done|]. eapply Forall_impl; [apply reads_txout|done]. }
  cbv beta match. change (Z.odd 0) with false. cbn [andb].
  eapply reads_bind_first; [apply reads_ret|]. cbv beta match. change (negb (0 =? 0)) with false.
  cbv match. eapply reads_bind_last; [by apply reads_uint|]. apply reads_ret.
Qed.

(** ** The signature hash *)

(** A script the node's parser walks to its end without meeting an
    OP_CODESEPARATOR: it is hashed as it is. *)
Definition plain_script (s : bytes) : Prop :=
  strip_separators (S (length s)) s = (s, O).

Lemma plain_SerializeScriptCode s : plain_script s → SerializeScriptCode s = write_script s.
Proof.
  unfold plain_script, SerializeScriptCode. intros ->. by rewrite Nat.sub_0_r.
Qed.

(** The fields of an input that its signature covers. *)
Definition outpoint_of (i : txin) : bytes * Z * option Z := (prevTxid i, prevVout i, sequence i).

Lemma blank_outpoint k sub ins ins' :
  outpoint_of <$> ins = outpoint_of <$> ins' → imap (blank k sub) ins = imap (blank k sub) ins'.
Proof.
  intros E. apply list_eq. intros j. apply (f_equal (.!! j)) in E. rewrite !list_lookup_fmap in E.
  rewrite !list_lookup_imap. destruct (ins !! j) as [[]|], (ins' !! j) as [[]|]; try done.
  unfold outpoint_of, blank in *. by simplify_eq/=.
Qed.

Section sighash.
Context {P : Primitives}.

(** The wallet signs the hash the node computes. *)
Lemma sighash_node ins outs k sub locktime :
  plain_script sub →
  legacySighash ins outs k sub locktime =
  Ok (SignatureHash (node_tx ins outs locktime) sub k SIGHASH_ALL).
Proof.
  intros Hs. unfold legacySighash. rewrite serializeTx_layout. cbn [mbind result_bind].
  rewrite concatBytes_join. cbn [mbind result_bind mret result_ret].
  unfold SignatureHash, fHashSingle. change (Z.land SIGHASH_ALL 0x1f =? SIGHASH_SINGLE) with false.
  cbn [andb]. f_equal. f_equal. cbn [mjoin list_join]. rewrite u32le_le, app_nil_r. f_equal.
  unfold SerializeForHash, tx_bytes. cbn [node_tx nVersion nTime vin vout nLockTime].
  change (2 <? 2) with false. unfold fAnyoneCanPay, fHashNone, fHashSingle.
  change (negb _) with false. change (Z.land SIGHASH_ALL 0x1f =? SIGHASH_SINGLE) with false.
  change (Z.land SIGHASH_ALL 0x1f =? SIGHASH_NONE) with false. cbv match. cbn [app].
  rewrite length_imap, !length_fmap. do 2 f_equal.
  - f_equal. f_equal. rewrite imap_fmap, fmap_imap. apply imap_ext. intros j i _.
    unfold compose, input_bytes, SerializeInput, write_outpoint. cbn [blank node_in prevout op_hash op_n nSequence
      prevTxid prevVout scriptSig sequence]. rewrite andb_false_r, <- !app_assoc.
    case_bool_decide; [by rewrite plain_SerializeScriptCode|done].
  - do 3 f_equal. rewrite imap_fmap. apply list_eq. intros j.
    rewrite list_lookup_fmap, list_lookup_imap. done.
Qed.

Lemma sighash_outpoint ins ins' outs k sub locktime :
  outpoint_of <$> ins = outpoint_of <$> ins' →
  legacySighash ins outs k sub locktime = legacySighash ins' outs k sub locktime.
Proof. intros E. unfold legacySighash. by rewrite (blank_outpoint k sub ins ins' E). Qed.
End sighash.
