(* ===== verification/Der.v ===== *)
(** * DER signatures

    [derEncodeSignature] (web-wallet/crypto.js 303-315) against the node's two
    readers of signatures: the strict rule [IsValidSignatureEncoding] that
    consensus applies, and the lax parser whose result is verified. *)

From S2P Require Import Prelude JsString Hex Primitives NodeTx TxCodec.

(** ** Encoding *)

Definition encodeInt (bigintVal : Z) : result bytes :=
  let hex := int_to_string 16 bigintVal in
  let hex := if Z.odd (js_length hex) then "0" +:+ hex else hex in
  let bs := hexToBytes hex in
  bs ← (if negb (js_and (default 0 (bs !! 0%nat)) 0x80 =? 0) then concatBytes [u8_of [0]; bs] else Ok bs);
  concatBytes [u8_of [0x02; len bs]; bs].

Definition derEncodeSignature (sig : ecdsa_sig) : result bytes :=
  rEnc ← encodeInt (sig_r sig);
  sEnc ← encodeInt (sig_s sig);
  concatBytes [u8_of [0x30; len rEnc + len sEnc]; rEnc; sEnc].

(** ** Hexadecimal digits and bytes *)

Definition nibbles (bs : bytes) : list Z := mjoin ((λ b, [b / 16; b mod 16]) <$> bs).

Lemma nibbles_cons b bs : nibbles (b :: bs) = b / 16 :: b mod 16 :: nibbles bs.
Proof. done. Qed.

Lemma nibbles_length bs : length (nibbles bs) = (2 * length bs)%nat.
Proof. induction bs as [|b bs IH]; [done|]. rewrite nibbles_cons. cbn [length]. lia. Qed.

Lemma nibbles_digits bs : all_bytes bs → Forall (is_digit 16) (nibbles bs).
Proof.
  induction 1 as [|b bs [Hb1 Hb2] _ IH]; [constructor|]. rewrite nibbles_cons.
  repeat constructor; try done; try (apply Z.mod_pos_bound; lia).
  - apply Z.div_pos; lia.
  - apply Z.div_lt_upper_bound; lia.
Qed.

Lemma nibbles_value bs : of_digits 16 (nibbles bs) = of_digits 256 bs.
Proof.
  induction bs as [|b bs IH]; [done|]. rewrite nibbles_cons, !of_digits_cons, IH.
  cbn [length]. rewrite nibbles_length.
  replace (Z.of_nat (S (2 * length bs))) with (Z.succ (2 * Z.of_nat (length bs))) by lia.
  rewrite Z.pow_succ_r by lia.
  replace (Z.of_nat (2 * length bs)) with (2 * Z.of_nat (length bs)) by lia.
  rewrite Z.pow_mul_r by lia. change (16 ^ 2) with 256.
  pose proof (Z.div_mod b 16). nia.
Qed.

Lemma byteToHex_nibbles b : is_byte b → byteToHex b = digit_char <$> [b / 16; b mod 16].
Proof.
  intros Hb. assert (H : bool_decide (byteToHex b = digit_char <$> [b / 16; b mod 16]) = true).
  { revert b Hb. apply byte_cases. by vm_compute. }
  by apply bool_decide_eq_true in H.
Qed.

Lemma bytesToHex_nibbles bs : all_bytes bs → chars (bytesToHex bs) = digit_char <$> nibbles bs.
Proof.
  intros H. rewrite bytesToHex_chars. induction H as [|b bs Hb _ IH]; [done|].
  rewrite fmap_cons. change (mjoin (byteToHex b :: ?k)) with (byteToHex b ++ mjoin k).
  rewrite IH, (byteToHex_nibbles b Hb). done.
Qed.

Lemma js_length_digits ds :
  Forall (is_digit 16) ds → js_length (of_chars (digit_char <$> ds)) = Z.of_nat (length ds).
Proof.
  unfold js_length. rewrite chars_of_chars. induction 1 as [|d ds Hd _ IH]; [done|].
  rewrite fmap_cons. cbn [foldr]. rewrite IH. cbn [length].
  assert (Hc : code (digit_char d) < 128).
  { unfold is_digit, digit_char in *. destruct (Z.ltb_spec d 10); rewrite code_chr by lia; lia. }
  pose proof (code_range (digit_char d)).
  destruct (Z.leb_spec 128 (code (digit_char d))); [lia|]. cbn [andb].
  destruct (Z.leb_spec 240 (code (digit_char d))); lia.
Qed.

(** [hexToBytes] of the even-length hexadecimal of a positive integer is its
    shortest big-endian encoding. *)
Lemma hex_bytes v :
  0 < v →
  let hex := int_to_string 16 v in
  hexToBytes (if Z.odd (js_length hex) then "0" +:+ hex else hex) = to_digits 256 v.
Proof.
  intros Hv. cbv zeta. unfold int_to_string, digits_string.
  destruct (Z.ltb_spec v 0); [lia|]. destruct (Z.eqb_spec v 0); [lia|].
  set (bs := to_digits 256 v). pose proof (to_digits_digits 256 ltac:(lia) v) as Hd. fold bs in Hd.
  assert (Hb : all_bytes bs) by (eapply Forall_impl; [|done]; done).
  pose proof (of_to_digits 256 ltac:(lia) v ltac:(lia)) as Hval. fold bs in Hval.
  destruct bs as [|b tl] eqn:Ebs; [cbn in Hval; lia|]. rewrite <- Ebs in *.
  assert (Hb0 : b ≠ 0) by (eapply (to_digits_head 256 ltac:(lia) v); [lia|by fold bs]).
  pose proof (nibbles_digits bs Hb) as Hn. pose proof (nibbles_value bs) as Hnv.
  assert (is_byte b) as [Hbl Hbh] by (rewrite Ebs in Hb; by apply all_bytes_cons in Hb as [??]).
  rewrite js_length_digits by (apply to_digits_digits; lia).
  rewrite <- (hexToBytes_bytesToHex_aux bs Hb). f_equal. apply chars_inj.
  rewrite bytesToHex_nibbles by done.
  destruct (decide (b < 16)).
  - assert (E : nibbles bs = 0 :: to_digits 16 v).
    { rewrite Ebs, nibbles_cons, Z.div_small by lia. f_equal. rewrite <- Hval, <- Hnv.
      rewrite Ebs, nibbles_cons, Z.div_small by lia.
      rewrite (of_digits_cons 16 0), Z.mul_0_l, Z.add_0_l. symmetry. apply to_of_digits; [lia| |].
      - rewrite Ebs, nibbles_cons in Hn. by apply Forall_cons_iff in Hn as [_ ?].
      - intros d k [= <- <-]. rewrite Z.mod_small by lia. done. }
    rewrite E. apply (f_equal length) in E. rewrite nibbles_length in E. cbn [length] in E.
    replace (Z.of_nat (length (to_digits 16 v))) with (1 + 2 * (Z.of_nat (length bs) - 1)) by lia.
    rewrite Z.odd_add_mul_2. change (Z.odd 1) with true. cbv match.
    rewrite chars_app, chars_of_chars. done.
  - assert (E : nibbles bs = to_digits 16 v).
    { rewrite <- Hval, <- Hnv. symmetry. apply to_of_digits; [lia|done|].
      rewrite Ebs, nibbles_cons. intros d k [= <- <-].
      pose proof (Z.div_le_lower_bound b 16 1). lia. }
    rewrite E. apply (f_equal length) in E. rewrite nibbles_length in E.
    replace (Z.of_nat (length (to_digits 16 v))) with (0 + 2 * Z.of_nat (length bs)) by lia.
    rewrite Z.odd_add_mul_2. change (Z.odd 0) with false. cbv match. by rewrite chars_of_chars.
Qed.

(** ** One integer *)

(** The shortest two's complement form of a positive integer. *)
Definition der_value (v : Z) : bytes :=
  let bs := to_digits 256 v in
  match bs with b :: _ => if b <? 128 then bs else 0 :: bs | [] => bs end.

(** What BIP66 asks of an integer. *)
Definition minimal_int (B : bytes) : Prop :=
  ∃ b tl, B = b :: tl ∧ 0 <= b < 128 ∧ (length B <= 33)%nat ∧ all_bytes B ∧
    (b = 0 → ∃ c tl', tl = c :: tl' ∧ 128 <= c < 256).

Lemma to_digits_256_length v : 0 < v < 2 ^ 256 → (length (to_digits 256 v) <= 32)%nat.
Proof.
  intros Hv. pose proof (of_to_digits 256 ltac:(lia) v ltac:(lia)) as Hval.
  pose proof (to_digits_digits 256 ltac:(lia) v) as Hd.
  destruct (to_digits 256 v) as [|d tl] eqn:E; [simpl; lia|].
  pose proof (to_digits_head 256 ltac:(lia) v d tl ltac:(lia) E).
  apply Forall_cons_iff in Hd as [Hd Ht]. unfold is_digit in Hd.
  rewrite of_digits_cons in Hval. pose proof (of_digits_bound 256 ltac:(lia) tl Ht).
  cbn [length]. destruct (decide (32 <= length tl)%nat); [|lia].
  assert (256 ^ 32 <= 256 ^ Z.of_nat (length tl)) by (apply Z.pow_le_mono_r; lia).
  change (2 ^ 256) with (256 ^ 32) in Hv. nia.
Qed.

Lemma der_value_spec v :
  0 < v < 2 ^ 256 → minimal_int (der_value v) ∧ of_digits 256 (der_value v) = v.
Proof.
  intros Hv. pose proof (of_to_digits 256 ltac:(lia) v ltac:(lia)) as Hval.
  pose proof (to_digits_digits 256 ltac:(lia) v) as Hd. pose proof (to_digits_256_length v Hv) as Hl.
  unfold der_value. destruct (to_digits 256 v) as [|d tl] eqn:E; [cbn in Hval; lia|].
  pose proof (to_digits_head 256 ltac:(lia) v d tl ltac:(lia) E).
  assert (Hb : all_bytes (d :: tl)) by done.
  pose proof Hb as Hb'. apply all_bytes_cons in Hb' as [[Hd1 Hd2] _].
  destruct (Z.ltb_spec d 128).
  - split; [|done]. exists d, tl. split_and!; try done; lia.
  - split; [|by rewrite of_digits_cons, Hval].
    exists 0, (d :: tl). split_and!; try done; try (cbn [length] in *; lia).
    + apply all_bytes_cons. split; [unfold is_byte; lia|done].
    + intros _. exists d, tl. done.
Qed.

Lemma land_128 b : 0 <= b < 256 → (Z.land b 0x80 =? 0) = (b <? 128).
Proof.
  intros Hb. assert (H : Bool.eqb (Z.land b 0x80 =? 0) (b <? 128) = true).
  { apply (byte_cases (λ b, Bool.eqb (Z.land b 0x80 =? 0) (b <? 128))); [by vm_compute|done]. }
  by apply eqb_prop in H.
Qed.

Lemma js_and_128 b : 0 <= b < 256 → (js_and b 0x80 =? 0) = (b <? 128).
Proof.
  intros Hb. assert (H : Bool.eqb (js_and b 0x80 =? 0) (b <? 128) = true).
  { apply (byte_cases (λ b, Bool.eqb (js_and b 0x80 =? 0) (b <? 128))); [by vm_compute|done]. }
  by apply eqb_prop in H.
Qed.

Lemma encodeInt_ok v :
  0 < v < 2 ^ 256 → encodeInt v = Ok ([2; len (der_value v)] ++ der_value v).
Proof.
  intros Hv. unfold encodeInt. rewrite (hex_bytes v) by lia.
  pose proof (to_digits_256_length v Hv) as Hl. pose proof (to_digits_digits 256 ltac:(lia) v) as Hd.
  pose proof (of_to_digits 256 ltac:(lia) v ltac:(lia)) as Hval.
  unfold der_value. destruct (to_digits 256 v) as [|d tl] eqn:E; [cbn in Hval; lia|].
  apply Forall_cons_iff in Hd as [Hd _]. unfold is_digit in Hd.
  change (default 0 ((d :: tl) !! 0%nat)) with d. rewrite (js_and_128 d Hd).
  destruct (Z.ltb_spec d 128); cbn [negb].
  - cbn [mbind result_bind]. rewrite concatBytes_join. cbn [mjoin list_join]. rewrite app_nil_r.
    rewrite u8_of_bytes; [done|]. unfold len. cbn [length] in *. repeat constructor; lia.
  - rewrite concatBytes_join. cbn [mbind result_bind]. rewrite concatBytes_join.
    cbn [mjoin list_join]. rewrite !app_nil_r. change (u8_of [0] ++ ?k) with (0 :: k).
    rewrite u8_of_bytes; [done|]. unfold len. cbn [length] in *. repeat constructor; lia.
Qed.

(** ** The whole signature *)

Definition der_bytes (R S : bytes) : bytes :=
  [0x30; 4 + len R + len S; 2; len R] ++ R ++ [2; len S] ++ S.

Lemma derEncode_ok sig :
  0 < sig_r sig < 2 ^ 256 → 0 < sig_s sig < 2 ^ 256 →
  derEncodeSignature sig = Ok (der_bytes (der_value (sig_r sig)) (der_value (sig_s sig))).
Proof.
  intros Hr Hs. unfold derEncodeSignature. rewrite encodeInt_ok by done. cbn [mbind result_bind].
  rewrite encodeInt_ok by done. cbn [mbind result_bind]. rewrite concatBytes_join. f_equal.
  destruct (der_value_spec _ Hr) as [(? & ? & _ & _ & Lr & _) _].
  destruct (der_value_spec _ Hs) as [(? & ? & _ & _ & Ls & _) _].
  unfold der_bytes, len. cbn [mjoin list_join]. rewrite app_nil_r, !length_app. cbn [length].
  rewrite u8_of_bytes; [|repeat constructor; unfold is_byte; lia].
  rewrite <- !app_assoc. cbn [app]. do 2 f_equal. lia.
Qed.

Lemma at_4 a b c d l i : 0 <= i → at_ (a :: b :: c :: d :: l) (4 + i) = at_ l i.
Proof.
  intros. unfold at_. replace (Z.to_nat (4 + i)) with (S (S (S (S (Z.to_nat i))))) by lia. done.
Qed.

Lemma at_app R l i : 0 <= i → at_ (R ++ l) (len R + i) = at_ l i.
Proof.
  intros. unfold at_, len. replace (Z.to_nat (Z.of_nat (length R) + i)) with (length R + Z.to_nat i)%nat by lia.
  rewrite lookup_app_r by lia. do 2 f_equal. lia.
Qed.

(** Consensus accepts the encoding of two minimal integers. *)
Lemma der_bytes_valid R S ht :
  minimal_int R → minimal_int S → IsValidSignatureEncoding (der_bytes R S ++ [ht]) = true.
Proof.
  intros (r & R' & -> & Hr & Lr & BR & ZR) (s & S' & -> & Hs & Ls & BS & ZS).
  set (R := r :: R') in *. set (S := s :: S') in *.
  assert (HD : der_bytes R S ++ [ht] = 0x30 :: 4 + len R + len S :: 2 :: len R :: R ++ (2 :: len S :: S ++ [ht])).
  { unfold der_bytes. rewrite <- !app_assoc. done. }
  assert (Hlen : Z.of_nat (length (der_bytes R S ++ [ht])) = len R + len S + 7).
  { rewrite HD. unfold len. cbn [length]. rewrite length_app. cbn [length]. rewrite length_app.
    cbn [length]. lia. }
  assert (1 <= len R <= 33) by (unfold len, R in *; cbn [length] in *; lia).
  assert (1 <= len S <= 33) by (unfold len, S in *; cbn [length] in *; lia).
  assert (A5 : at_ (der_bytes R S ++ [ht]) (5 + len R) = len S).
  { rewrite HD. replace (5 + len R) with (4 + (len R + 1)) by lia. rewrite at_4, at_app by lia. done. }
  assert (A4 : at_ (der_bytes R S ++ [ht]) (len R + 4) = 2).
  { rewrite HD. replace (len R + 4) with (4 + (len R + 0)) by lia. rewrite at_4, at_app by lia. done. }
  assert (A6 : at_ (der_bytes R S ++ [ht]) (len R + 6) = s).
  { rewrite HD. replace (len R + 6) with (4 + (len R + 2)) by lia. rewrite at_4, at_app by lia. done. }
  assert (A7 : s = 0 → at_ (der_bytes R S ++ [ht]) (len R + 7) >= 128 ∧ at_ (der_bytes R S ++ [ht]) (len R + 7) < 256).
  { intros Hz. destruct (ZS Hz) as (c & tl & -> & Hc).
    rewrite HD. replace (len R + 7) with (4 + (len R + 3)) by lia. rewrite at_4, at_app by lia.
    change (at_ _ 3) with c. lia. }
  assert (B5 : r = 0 → at_ (der_bytes R S ++ [ht]) 5 >= 128 ∧ at_ (der_bytes R S ++ [ht]) 5 < 256).
  { intros Hz. destruct (ZR Hz) as (c & tl & -> & Hc). rewrite HD. change (at_ _ 5) with c. lia. }
  unfold IsValidSignatureEncoding. rewrite Hlen.
  assert (A0 : ∀ D, D = der_bytes R S ++ [ht] → at_ D 0 = 0x30 ∧ at_ D 1 = 4 + len R + len S ∧
    at_ D 2 = 2 ∧ at_ D 3 = len R ∧ at_ D 4 = r) by (intros D ->; rewrite HD; done).
  destruct (A0 _ eq_refl) as (-> & -> & -> & -> & ->). rewrite A5, A4, A6.
  set (D := der_bytes R S ++ [ht]) in *.
  clearbody D. rewrite (land_128 r), (land_128 s) by lia.
  assert (G1 : (1 <? len R) && (r =? 0) && (Z.land (at_ D 5) 128 =? 0) = false).
  { destruct (Z.eqb_spec r 0) as [Hz|]; [|by rewrite andb_false_r].
    rewrite land_128 by (specialize (B5 Hz); lia). specialize (B5 Hz). lia. }
  assert (G2 : (1 <? len S) && (s =? 0) && (Z.land (at_ D (len R + 7)) 128 =? 0) = false).
  { destruct (Z.eqb_spec s 0) as [Hz|]; [|by rewrite andb_false_r].
    rewrite land_128 by (specialize (A7 Hz); lia). specialize (A7 Hz). lia. }
  rewrite G1, G2. clear - Hr Hs H H0. clearbody R S. repeat case_if; lia.
Qed.

(** The lax parser returns the two integers. *)
Lemma der_int_read B rest :
  minimal_int B → der_int ([2; len B] ++ B ++ rest) = Some (B, rest).
Proof.
  intros (b & B' & E & _ & Hl & _). unfold der_int. cbn [app Z.eqb Pos.eqb negb].
  unfold der_length. rewrite land_128 by (unfold len; lia).
  destruct (Z.ltb_spec (len B) 128); [|unfold len in *; lia].
  cbn [mbind option_bind]. destruct (Z.ltb_spec (Z.of_nat (length (B ++ rest))) (len B)).
  { unfold len in *. rewrite length_app in *. lia. }
  unfold len. by rewrite Nat2Z.id, take_app_length, drop_app_length.
Qed.

Lemma strip_minimal v :
  0 < v < 2 ^ 256 → strip_zeros (der_value v) = to_digits 256 v.
Proof.
  intros Hv. unfold strip_zeros, der_value.
  destruct (to_digits 256 v) as [|d tl] eqn:E; [done|].
  pose proof (to_digits_head 256 ltac:(lia) v d tl ltac:(lia) E) as Hd.
  destruct (Z.ltb_spec d 128); cbn [leading_zeros]; destruct (Z.eqb_spec d 0); done.
Qed.

Lemma der_parse r s rest :
  0 < r < secp_order → 0 < s < secp_order →
  ecdsa_signature_parse_der_lax (der_bytes (der_value r) (der_value s) ++ rest) = Some (r, s).
Proof.
  intros Hr Hs. assert (Hmax : secp_order < 2 ^ 256) by (by vm_compute).
  destruct (der_value_spec r ltac:(lia)) as [Mr _]. destruct (der_value_spec s ltac:(lia)) as [Ms _].
  unfold ecdsa_signature_parse_der_lax, der_bytes. rewrite <- !app_assoc. cbn [app].
  unfold der_sequence. cbn [Z.eqb Pos.eqb negb].
  rewrite land_128 by (destruct Mr as (?&?&_&_&?&_), Ms as (?&?&_&_&?&_); unfold len; lia).
  destruct (Z.ltb_spec (4 + len (der_value r) + len (der_value s)) 128).
  2:{ destruct Mr as (?&?&_&_&?&_), Ms as (?&?&_&_&?&_); unfold len in *; lia. }
  cbn [mbind option_bind].
  change (2 :: len (der_value r) :: ?k) with ([2; len (der_value r)] ++ k).
  rewrite der_int_read by done. cbn [mbind option_bind].
  change (2 :: len (der_value s) :: ?k) with ([2; len (der_value s)] ++ k).
  rewrite der_int_read by done. cbn [mbind option_bind].
  rewrite !strip_minimal, !of_to_digits by lia.
  pose proof (to_digits_256_length r ltac:(lia)). pose proof (to_digits_256_length s ltac:(lia)).
  destruct (Nat.ltb_spec 32 (length (to_digits 256 r))); [lia|].
  destruct (Nat.ltb_spec 32 (length (to_digits 256 s))); [lia|]. cbn [orb].
  destruct (Z.leb_spec secp_order r); [lia|]. destruct (Z.leb_spec secp_order s); [lia|]. done.
Qed.
