(* ===== verification/Signing.v ===== *)
(** * Building and signing a payment

    [buildAndSignTransaction] (web-wallet/crypto.js 317-353): every input is
    signed over the legacy signature hash of the transaction, with its own key
    or the default one.  The main theorem closes the loop with the node: the
    bytes the wallet produces are read back as a transaction all of whose inputs
    pass the node's script verification. *)

From S2P Require Import Prelude Primitives Base58 Address NodeTx NodeScript ScriptLemmas TxCodec Der.

(** An element of [inputs]; the optional fields are [undefined] when absent. *)
Record spend := {
  u_txid : bytes; u_vout : Z; u_value : Z; u_pubkeyHash : bytes;
  u_privateKey : option bytes; u_publicKey : option bytes; u_sequence : option Z }.

(** [a ?? b] *)
Definition or_else {A} (a b : option A) : option A := match a with Some _ => a | None => b end.

Definition unsigned (u : spend) : txin :=
  {| prevTxid := u_txid u; prevVout := u_vout u; scriptSig := [];
     sequence := Some (default 0xfffffffd (u_sequence u)) |}.

(** [txInputs[i].scriptSig = s] *)
Definition set_scriptSig (s : bytes) (t : txin) : txin :=
  {| prevTxid := prevTxid t; prevVout := prevVout t; scriptSig := s; sequence := sequence t |}.

Section signing.
Context {P : Primitives}.

(** [secp.sign(hash, key)] with a key that may be [undefined]. *)
Definition sign_with (sighash : bytes) (key : option bytes) : result ecdsa_sig :=
  match key with
  | Some k => secp_sign sighash k
  | None => Throw (ExError "private key must be 32 bytes, hex or bigint, not undefined")
  end.

(** One turn of the loop, [i] and [inputs[i]] given. *)
Definition sign_input (outputs : list txout) (privateKey publicKeyCompressed : option bytes) (locktime : Z)
    (txInputs : list txin) (iu : nat * spend) : result (list txin) :=
  let '(i, u) := iu in
  let inputPrivateKey := or_else (u_privateKey u) privateKey in
  let inputPublicKey := or_else (u_publicKey u) publicKeyCompressed in
  let subscript := p2pkhScriptPubKey (u_pubkeyHash u) in
  sighash ← legacySighash txInputs outputs i subscript locktime;
  sig ← sign_with sighash inputPrivateKey;
  derSig ← derEncodeSignature sig;
  sigWithType ← concatBytes [derSig; u8_of [0x01]];
  match inputPublicKey with
  | None => Throw (ExType "inputPublicKey is undefined")
  | Some pub =>
      s ← concatBytes [u8_of [len sigWithType]; sigWithType; u8_of [len pub]; pub];
      mret (alter (set_scriptSig s) i txInputs)
  end.

Definition buildAndSignTransaction (inputs : list spend) (outputs : list txout)
    (privateKey publicKeyCompressed : option bytes) (locktime : Z) : result bytes :=
  if (length inputs =? 0)%nat then Throw (ExError "No inputs provided") else
  let txInputs := unsigned <$> inputs in
  txInputs ← foldR (sign_input outputs privateKey publicKeyCompressed locktime) txInputs
               (zip (seq 0 (length inputs)) inputs);
  serializeTx 2 txInputs outputs locktime.

(** ** A signature the node accepts *)

Context {PL : PrimitiveLaws}.

(** The DER form of a signature followed by SIGHASH_ALL. *)
Definition sig_bytes (sig : ecdsa_sig) : bytes :=
  der_bytes (der_value (sig_r sig)) (der_value (sig_s sig)) ++ [1].

Lemma sign_ranges h k sig :
  secp_sign h k = Ok sig → 0 < sig_r sig < secp_order ∧ 0 < sig_s sig <= secp_order / 2 ∧
    sig_s sig < secp_order ∧ secp_order < 2 ^ 256.
Proof.
  intros Hs. destruct (secp_sign_range h k sig Hs) as (H1 & H2 & _).
  assert (secp_order < 2 ^ 256) by (by vm_compute).
  assert (secp_order / 2 < secp_order) by (by vm_compute). lia.
Qed.

Lemma derEncode_sign h k sig :
  secp_sign h k = Ok sig →
  derEncodeSignature sig = Ok (der_bytes (der_value (sig_r sig)) (der_value (sig_s sig))).
Proof. intros Hs. pose proof (sign_ranges h k sig Hs). apply derEncode_ok; lia. Qed.

Lemma sig_bytes_length h k sig :
  secp_sign h k = Ok sig → (9 <= length (sig_bytes sig) <= 73)%nat.
Proof.
  intros Hs. pose proof (sign_ranges h k sig Hs).
  destruct (der_value_spec (sig_r sig)) as [(? & ? & E1 & _ & L1 & _) _]; [lia|].
  destruct (der_value_spec (sig_s sig)) as [(? & ? & E2 & _ & L2 & _) _]; [lia|].
  unfold sig_bytes, der_bytes. rewrite !length_app. apply (f_equal length) in E1, E2.
  cbn [length] in *. lia.
Qed.

Lemma without_type_snoc d t : without_type (d ++ [t]) = d.
Proof.
  unfold without_type. rewrite length_app, Nat.add_sub. apply take_app_length.
Qed.

Lemma sig_encoding_ok h k sig :
  secp_sign h k = Ok sig → CheckSignatureEncoding (sig_bytes sig) = Ok tt.
Proof.
  intros Hs. pose proof (sign_ranges h k sig Hs) as (Hr & Hl & Hso & Ho).
  unfold CheckSignatureEncoding. case_bool_decide; [done|]. unfold sig_bytes.
  destruct (der_value_spec (sig_r sig)) as [M1 _]; [lia|].
  destruct (der_value_spec (sig_s sig)) as [M2 _]; [lia|].
  rewrite der_bytes_valid by done. cbn [negb]. rewrite without_type_snoc.
  unfold CheckLowS. pose proof (der_parse (sig_r sig) (sig_s sig) [] ltac:(lia) ltac:(lia)) as Hp.
  rewrite app_nil_r in Hp. rewrite Hp. destruct (Z.leb_spec (sig_s sig) (secp_order / 2)); [|lia].
  cbn [negb]. unfold IsDefinedHashtypeSignature. rewrite last_snoc. done.
Qed.

Lemma pubkey_encoding_ok k :
  CheckPubKeyEncoding (secp_public k) = Ok tt ∧ pubkey_IsValid (secp_public k) = true.
Proof.
  pose proof (secp_public_length k) as Hl. pose proof (secp_public_head k) as Hh.
  unfold CheckPubKeyEncoding, IsCompressedOrUncompressedPubKey, pubkey_IsValid, at_.
  destruct (secp_public k) as [|p x]; [done|]. rewrite Hl. cbn in Hh.
  destruct Hh as [[= ->]|[= ->]]; done.
Qed.

Lemma sig_verifies tx i code k sig :
  secp_sign (SignatureHash tx code i SIGHASH_ALL) k = Ok sig →
  CheckECDSASignature tx i (sig_bytes sig) (secp_public k) code = true.
Proof.
  intros Hs. pose proof (sign_ranges _ _ _ Hs) as (Hr & Hl & Hso & Ho).
  destruct (pubkey_encoding_ok k) as [_ Hv]. unfold CheckECDSASignature, sig_bytes. rewrite Hv.
  cbn [negb]. rewrite last_snoc, without_type_snoc. unfold Verify. rewrite Hv. cbn [negb].
  pose proof (der_parse (sig_r sig) (sig_s sig) [] ltac:(lia) ltac:(lia)) as Hp.
  rewrite app_nil_r in Hp. rewrite Hp. destruct (Z.ltb_spec (secp_order / 2) (sig_s sig)); [lia|].
  by apply secp_sign_verify.
Qed.

(** ** Pay to public-key hash *)

Definition p2pkh_items (h : bytes) : list item :=
  [Op OP_DUP; Op OP_HASH160; Push h; Op OP_EQUALVERIFY; Op OP_CHECKSIG].

Lemma p2pkh_assemble h :
  all_bytes h → length h = 20%nat → p2pkhScriptPubKey h = assemble (p2pkh_items h).
Proof.
  intros Hb Hl. unfold p2pkhScriptPubKey. rewrite u8_of_bytes.
  - unfold assemble, p2pkh_items. cbn [fmap list_fmap item_bytes mjoin list_join]. unfold push_script.
    rewrite Hl. done.
  - apply all_bytes_app. split; [repeat constructor; unfold is_byte; lia|].
    apply all_bytes_app. split; [done|]. repeat constructor; unfold is_byte; lia.
Qed.

Lemma p2pkh_items_ok h : length h = 20%nat → Forall item_ok (p2pkh_items h).
Proof.
  intros Hl. unfold p2pkh_items. rewrite !Forall_cons_iff. split_and!; try done.
  simpl. rewrite Hl. unfold MAX_SCRIPT_ELEMENT_SIZE. lia.
Qed.

Lemma p2pkh_plain h : all_bytes h → length h = 20%nat → plain_script (p2pkhScriptPubKey h).
Proof.
  intros Hb Hl. rewrite p2pkh_assemble by done. unfold plain_script.
  apply strip_separators_items; [by apply p2pkh_items_ok|lia].
Qed.

(** Two pushes leave their data on the stack. *)
Lemma eval_two_pushes tx i a b :
  (2 <= length a <= 100)%nat → (2 <= length b <= 100)%nat →
  EvalScript tx i [] (assemble [Push a; Push b]) = Ok [b; a].
Proof.
  intros Ha Hb. unfold EvalScript.
  assert (Hl : (length (assemble [Push a; Push b]) <= 1000)%nat).
  { unfold assemble. cbn [fmap list_fmap mjoin list_join item_bytes]. rewrite app_nil_r, length_app.
    unfold push_script. rewrite !length_app. repeat case_if; cbn [length]; rewrite ?le_bytes_length; lia. }
  destruct (Z.ltb_spec MAX_SCRIPT_SIZE (Z.of_nat (length (assemble [Push a; Push b]))));
    [unfold MAX_SCRIPT_SIZE in *; lia|].
  set (script := assemble _) at 2. clearbody script.
  assert (Ma : push_minimal a) by (left; unfold MAX_SCRIPT_ELEMENT_SIZE; lia).
  assert (Mb : push_minimal b) by (left; unfold MAX_SCRIPT_ELEMENT_SIZE; lia).
  edestruct (eval_loop_cons tx i) as (f & Hf & ->); [simpl; unfold MAX_SCRIPT_ELEMENT_SIZE; lia|done|].
  rewrite eval_push by (done || (unfold MAX_STACK_SIZE; simpl; lia)). cbn [mbind result_bind].
  edestruct (eval_loop_cons tx i) as (f' & Hf' & ->); [simpl; unfold MAX_SCRIPT_ELEMENT_SIZE; lia|done|].
  rewrite eval_push by (done || (unfold MAX_STACK_SIZE; simpl; lia)). cbn [mbind result_bind].
  by destruct f'.
Qed.

(** The locking script accepts the key whose hash it holds and a signature by
    that key. *)
Lemma eval_p2pkh tx i k sig h :
  hash160 (secp_public k) = h → sig_bytes sig ≠ h →
  secp_sign (SignatureHash tx (p2pkhScriptPubKey h) i SIGHASH_ALL) k = Ok sig →
  EvalScript tx i [secp_public k; sig_bytes sig] (p2pkhScriptPubKey h) = Ok [[1]].
Proof.
  intros Hh Hne Hs.
  assert (Hl : length h = 20%nat) by (subst h; apply ripemd160_length).
  assert (Hb : all_bytes h) by (subst h; apply ripemd160_bytes).
  unfold EvalScript. assert (Hsz : length (p2pkhScriptPubKey h) = 25%nat).
  { unfold p2pkhScriptPubKey, u8_of. rewrite length_fmap, !length_app, Hl. done. }
  rewrite Hsz. change (MAX_SCRIPT_SIZE <? Z.of_nat 25) with false. cbv match.
  assert (Hf0 : (length (assemble (p2pkh_items h)) <= 25)%nat) by (rewrite <- p2pkh_assemble by done; lia).
  rewrite p2pkh_assemble at 2 by done. set (script := p2pkhScriptPubKey h) in *.
  assert (Hcheck : EvalChecksig tx i (sig_bytes sig) (secp_public k) script = Ok true).
  { pose proof (sig_bytes_length _ _ _ Hs). unfold EvalChecksig, script. rewrite p2pkh_assemble by done.
    rewrite FindAndDelete_items; [|by apply p2pkh_items_ok|lia|].
    2:{ unfold p2pkh_items. rewrite !not_elem_of_cons. split_and!; try done; [congruence|]. apply not_elem_of_nil. }
    cbn [Nat.ltb Nat.leb]. rewrite (sig_encoding_ok _ _ _ Hs). cbn [mbind result_bind].
    rewrite (proj1 (pubkey_encoding_ok k)). cbn [mbind result_bind].
    rewrite <- p2pkh_assemble by done. fold script. rewrite (sig_verifies _ _ _ _ _ Hs). done. }
  unfold p2pkh_items in *. clearbody script.
  edestruct (eval_loop_cons tx i) as (f1 & Hf1 & ->); [|exact Hf0|]; [done|].
  erewrite eval_opcode; [|reflexivity|done..|simpl; unfold MAX_STACK_SIZE; lia]. cbn [mbind result_bind].
  edestruct (eval_loop_cons tx i) as (f2 & Hf2 & ->); [|exact Hf1|]; [done|].
  erewrite eval_opcode; [|reflexivity|done..|simpl; unfold MAX_STACK_SIZE; lia]. cbn [mbind result_bind].
  edestruct (eval_loop_cons tx i) as (f3 & Hf3 & ->); [|exact Hf2|].
  { simpl. rewrite Hl. unfold MAX_SCRIPT_ELEMENT_SIZE. lia. }
  rewrite eval_push; [|left; rewrite Hl; unfold MAX_SCRIPT_ELEMENT_SIZE; lia|simpl; unfold MAX_STACK_SIZE; lia].
  cbn [mbind result_bind].
  edestruct (eval_loop_cons tx i) as (f4 & Hf4 & ->); [|exact Hf3|]; [done|].
  rewrite (eval_opcode tx i script OP_EQUALVERIFY _ _ _ 3 [secp_public k; sig_bytes sig]);
    [|by cbn; rewrite Hh, bool_decide_eq_true_2|done..|simpl; unfold MAX_STACK_SIZE; lia].
  cbn [mbind result_bind].
  edestruct (eval_loop_cons tx i) as (f5 & Hf5 & ->); [|exact Hf4|]; [done|].
  rewrite (eval_opcode tx i script OP_CHECKSIG _ _ _ 4 [[1]]);
    [|by cbn -[EvalChecksig sig_bytes]; rewrite Hcheck|done..|simpl; unfold MAX_STACK_SIZE; lia].
  by destruct f5.
Qed.

Lemma verify_p2pkh tx i k sig h :
  hash160 (secp_public k) = h → sig_bytes sig ≠ h →
  secp_sign (SignatureHash tx (p2pkhScriptPubKey h) i SIGHASH_ALL) k = Ok sig →
  VerifyScript tx i (assemble [Push (sig_bytes sig); Push (secp_public k)]) (p2pkhScriptPubKey h) [] = Ok tt.
Proof.
  intros Hh Hne Hs. unfold VerifyScript. pose proof (sig_bytes_length _ _ _ Hs).
  pose proof (secp_public_length k). rewrite eval_two_pushes by lia. cbn [mbind result_bind].
  rewrite (eval_p2pkh tx i k sig h) by done. cbn [mbind result_bind eval_true].
  change (CastToBool [1]) with true. cbn [mbind result_bind].
  assert (Hl : length h = 20%nat) by (subst h; apply ripemd160_length).
  assert (Hsz : length (p2pkhScriptPubKey h) = 25%nat).
  { unfold p2pkhScriptPubKey, u8_of. rewrite length_fmap, !length_app, Hl. done. }
  unfold IsWitnessProgram, IsPayToScriptHash. rewrite Hsz.
  change (at_ (p2pkhScriptPubKey h) 0) with 0x76. cbn. done.
Qed.

(** ** The loop *)

(** What an input needs to be spendable: a valid key, the hash of its public
    key, fields within their width; and the hash is not itself the encoding of
    a signature, which the node's [FindAndDelete] would remove. *)
Definition spend_ok (privateKey publicKeyCompressed : option bytes) (u : spend) : Prop :=
  ∃ k, or_else (u_privateKey u) privateKey = Some k ∧
    or_else (u_publicKey u) publicKeyCompressed = Some (secp_public k) ∧
    (∀ h, is_ok (secp_sign h k) = true) ∧
    hash160 (secp_public k) = u_pubkeyHash u ∧
    length (u_txid u) = 32%nat ∧ 0 <= u_vout u < 2 ^ 32 ∧
    0 <= default 0xfffffffd (u_sequence u) < 2 ^ 32 ∧
    ∀ sig, sig_bytes sig ≠ u_pubkeyHash u.

(** The scriptSig of an input that is signed in [tx] at index [i]. *)
Definition unlocks (tx : CTransaction) (i : nat) (u : spend) (s : bytes) : Prop :=
  ∃ k sig, s = assemble [Push (sig_bytes sig); Push (secp_public k)] ∧
    hash160 (secp_public k) = u_pubkeyHash u ∧
    secp_sign (SignatureHash tx (p2pkhScriptPubKey (u_pubkeyHash u)) i SIGHASH_ALL) k = Ok sig.

Lemma push_pair a b :
  (length a < 76)%nat → (length b < 76)%nat →
  mjoin [u8_of [len a]; a; u8_of [len b]; b] = assemble [Push a; Push b].
Proof.
  intros Ha Hb. unfold assemble. cbn [fmap list_fmap mjoin list_join item_bytes].
  unfold push_script, len, OP_PUSHDATA1.
  destruct (Z.ltb_spec (Z.of_nat (length a)) 76); [|lia].
  destruct (Z.ltb_spec (Z.of_nat (length b)) 76); [|lia].
  rewrite !u8_of_bytes by (repeat constructor; unfold is_byte; lia). done.
Qed.

Section loop.
Variables (outs : list txout) (privateKey publicKeyCompressed : option bytes) (locktime : Z).
Abbreviation sign_step := (sign_input outs privateKey publicKeyCompressed locktime).

Lemma sign_input_ok txs i u :
  spend_ok privateKey publicKeyCompressed u →
  ∃ s, sign_step txs (i, u) = Ok (alter (set_scriptSig s) i txs) ∧
       unlocks (node_tx txs outs locktime) i u s.
Proof.
  intros (k & Hk & Hp & Hv & Hh & _).
  assert (Hl : length (u_pubkeyHash u) = 20%nat) by (rewrite <- Hh; apply ripemd160_length).
  assert (Hb : all_bytes (u_pubkeyHash u)) by (rewrite <- Hh; apply ripemd160_bytes).
  unfold sign_input. rewrite sighash_node by (by apply p2pkh_plain).
  cbn [mbind result_bind]. rewrite Hk, Hp. unfold sign_with. set (h := SignatureHash _ _ _ _).
  specialize (Hv h). destruct (secp_sign h k) as [sig|] eqn:Hs; [|done]. clear Hv.
  cbn [mbind result_bind]. rewrite (derEncode_sign _ _ _ Hs). cbn [mbind result_bind].
  rewrite concatBytes_join. cbn [mbind result_bind mjoin list_join]. rewrite app_nil_r.
  change (u8_of [1]) with [1]. fold (sig_bytes sig). rewrite concatBytes_join. cbn [mbind result_bind].
  pose proof (sig_bytes_length _ _ _ Hs). pose proof (secp_public_length k).
  rewrite push_pair by lia.
  eexists. split; [reflexivity|]. exists k, sig. done.
Qed.

Lemma unlocks_outpoint txs txs' i u s :
  outpoint_of <$> txs = outpoint_of <$> txs' →
  length (u_pubkeyHash u) = 20%nat → all_bytes (u_pubkeyHash u) →
  unlocks (node_tx txs outs locktime) i u s → unlocks (node_tx txs' outs locktime) i u s.
Proof.
  intros E Hl Hb (k & sig & Es & Hh & Hs). exists k, sig. split; [done|]. split; [done|].
  rewrite <- Hs. f_equal. pose proof (p2pkh_plain _ Hb Hl) as Hp.
  pose proof (sighash_node txs outs i _ locktime Hp) as H1.
  pose proof (sighash_node txs' outs i _ locktime Hp) as H2.
  rewrite (sighash_outpoint txs txs') in H1 by done. congruence.
Qed.

Lemma outpoint_alter s i (txs : list txin) :
  outpoint_of <$> alter (set_scriptSig s) i txs = outpoint_of <$> txs.
Proof.
  apply list_eq. intros j. rewrite !list_lookup_fmap. destruct (decide (i = j)) as [->|].
  - rewrite list_lookup_alter_eq. by destruct (txs !! j).
  - by rewrite list_lookup_alter_ne.
Qed.

(** Signing the inputs from index [j] on: outpoints stay, earlier inputs are
    untouched, and each later one ends with a scriptSig that unlocks it in the
    final transaction. *)
Lemma sign_loop us j txs :
  Forall (spend_ok privateKey publicKeyCompressed) us → length txs = (j + length us)%nat →
  ∃ txs', foldR sign_step txs (zip (seq j (length us)) us) = Ok txs' ∧
    outpoint_of <$> txs' = outpoint_of <$> txs ∧
    (∀ i, (i < j)%nat → txs' !! i = txs !! i) ∧
    ∀ i u, us !! i = Some u → ∃ t, txs' !! (j + i)%nat = Some t ∧
      unlocks (node_tx txs' outs locktime) (j + i) u (scriptSig t).
Proof.
  intros Hus. revert j txs. induction Hus as [|u us Hu _ IH]; intros j txs Hlen.
  { exists txs. done. }
  destruct (sign_input_ok txs j u Hu) as (s & Hs & Hun).
  cbn [length seq zip zip_with foldR]. rewrite Hs. cbn [mbind result_bind].
  destruct (IH (S j) (alter (set_scriptSig s) j txs)) as (txs' & Hf & Hout & Hpre & Hlook).
  { rewrite length_alter, Hlen. simpl. lia. }
  exists txs'. split; [done|]. rewrite outpoint_alter in Hout. split; [done|]. split.
  { intros i Hi. rewrite Hpre by lia. apply list_lookup_alter_ne. lia. }
  intros [|i] u' Hi; cbn in Hi.
  - simplify_eq. rewrite Nat.add_0_r. destruct (lookup_lt_is_Some_2 txs j) as [t Ht]; [simpl in Hlen; lia|].
    exists (set_scriptSig s t). split; [rewrite Hpre by lia; by rewrite list_lookup_alter_eq, Ht|].
    destruct Hu as (k & _ & _ & _ & Hh & _). cbn [set_scriptSig scriptSig].
    eapply unlocks_outpoint; [symmetry; exact Hout| | |done]; rewrite <- Hh;
      [apply ripemd160_length|apply ripemd160_bytes].
  - rewrite <- Nat.add_succ_comm. by apply Hlook.
Qed.
End loop.

(** ** What the node makes of the result *)

Lemma unlock_length tx i u s : unlocks tx i u s → len s <= 200.
Proof.
  intros (k & sig & -> & _ & Hs). pose proof (sig_bytes_length _ _ _ Hs).
  pose proof (secp_public_length k). unfold len, assemble.
  cbn [fmap list_fmap mjoin list_join item_bytes]. rewrite app_nil_r, length_app.
  unfold push_script, OP_PUSHDATA1. rewrite !length_app. repeat case_if; cbn [length]; rewrite ?le_bytes_length; lia.
Qed.

Lemma signed_inputs_ok inputs pk pub (txs : list txin) outs locktime :
  Forall (spend_ok pk pub) inputs → outpoint_of <$> txs = outpoint_of <$> (unsigned <$> inputs) →
  (∀ i u, inputs !! i = Some u → ∃ t, txs !! i = Some t ∧
    unlocks (node_tx txs outs locktime) i u (scriptSig t)) →
  Forall txin_ok txs.
Proof.
  intros Hok Ho Hu. apply Forall_lookup. intros i t Ht.
  pose proof (f_equal (.!! i) Ho) as Hi. rewrite !list_lookup_fmap, Ht in Hi. cbn in Hi.
  destruct (inputs !! i) as [u|] eqn:Eu; [|done]. cbn in Hi.
  destruct (Hu i u Eu) as (t' & Ht' & Hun). rewrite Ht in Ht'. injection Ht' as <-.
  rewrite Forall_lookup in Hok. destruct (Hok i u Eu) as (k & _ & _ & _ & _ & H1 & H2 & H3 & _).
  pose proof (unlock_length _ _ _ _ Hun). injection Hi as E1 E2 E3.
  unfold txin_ok. rewrite E1, E2, E3. cbn [unsigned prevTxid prevVout sequence default].
  change (id ?x) with x. unfold MAX_SIZE. split_and!; try done; lia.
Qed.

Lemma buildAndSign_accepted_aux inputs outs pk pub locktime :
  inputs ≠ [] → Forall (spend_ok pk pub) inputs → Forall txout_ok outs →
  0 <= locktime < 2 ^ 32 → Z.of_nat (length inputs) <= MAX_SIZE → Z.of_nat (length outs) <= MAX_SIZE →
  ∃ raw tx,
    buildAndSignTransaction inputs outs pk pub locktime = Ok raw ∧
    UnserializeTransaction true raw = Ok (tx, []) ∧
    nVersion tx = 2 ∧ nLockTime tx = locktime ∧ vout tx = node_out <$> outs ∧
    length (vin tx) = length inputs ∧
    ∀ i u, inputs !! i = Some u → ∃ inp, vin tx !! i = Some inp ∧
      prevout inp = {| op_hash := u_txid u; op_n := u_vout u |} ∧
      nSequence inp = default 0xfffffffd (u_sequence u) ∧
      VerifyScript tx i (txin_scriptSig inp) (p2pkhScriptPubKey (u_pubkeyHash u)) (scriptWitness inp) = Ok tt.
Proof.
  intros Hne Hok Hout Hl Hni Hno.
  destruct (sign_loop outs pk pub locktime inputs 0 (unsigned <$> inputs)) as (txs & Hf & Ho & _ & Hu);
    [done|by rewrite length_fmap|].
  assert (Hlen : length txs = length inputs).
  { apply (f_equal length) in Ho. by rewrite !length_fmap in Ho. }
  exists (tx_bytes 2 txs outs locktime), (node_tx txs outs locktime). split.
  { unfold buildAndSignTransaction. destruct inputs; [done|]. cbn [length Nat.eqb]. cbn [length] in Hf.
    rewrite Hf. cbn [mbind result_bind]. apply serializeTx_layout. }
  split.
  { rewrite <- (app_nil_r (tx_bytes _ _ _ _)). apply reads_tx. split_and!; try done; try lia.
    - intros ->. by destruct inputs.
    - by eapply signed_inputs_ok. }
  cbn [node_tx nVersion nLockTime vout vin]. split_and!; try done; [by rewrite length_fmap|].
  intros i u Hi. destruct (Hu i u Hi) as (t & Ht & Hun). rewrite Nat.add_0_l in *.
  exists (node_in t). rewrite list_lookup_fmap, Ht. split; [done|].
  pose proof (f_equal (.!! i) Ho) as Hoi. rewrite !list_lookup_fmap, Ht, Hi in Hoi. cbn in Hoi.
  injection Hoi as E1 E2 E3. cbn [node_in prevout nSequence txin_scriptSig scriptWitness].
  rewrite E1, E2, E3. split; [done|]. split; [done|].
  destruct Hun as (k & sig & -> & Hh & Hs). apply verify_p2pkh; [done| |done].
  rewrite Forall_lookup in Hok. destruct (Hok i u Hi) as (? & _ & _ & _ & _ & _ & _ & _ & Hns). apply Hns.
Qed.
End signing.

(** C1. The node accepts what the wallet signs.  For inputs with valid keys, the
    bytes [buildAndSignTransaction] returns are read by the node's deserializer,
    with nothing left over, as a version 2 transaction with the outputs asked
    for; its inputs spend the outpoints asked for, signal the sequence asked for
    (replaceable by default), and each of them passes [VerifyScript] against the
    pay-to-pubkey-hash script it spends, under the standard flags. *)
Theorem buildAndSign_accepted {P : Primitives} {PL : PrimitiveLaws}
    (inputs : list spend) (outs : list txout) (pk pub : option bytes) (locktime : Z)
    (Hne : inputs ≠ []) (Hok : Forall (spend_ok pk pub) inputs) (Hout : Forall txout_ok outs)
    (Hlock : 0 <= locktime < 2 ^ 32)
    (Hni : Z.of_nat (length inputs) <= MAX_SIZE) (Hno : Z.of_nat (length outs) <= MAX_SIZE) :
  ∃ raw tx,
    buildAndSignTransaction inputs outs pk pub locktime = Ok raw ∧
    UnserializeTransaction true raw = Ok (tx, []) ∧
    nVersion tx = 2 ∧ nLockTime tx = locktime ∧ vout tx = node_out <$> outs ∧
    length (vin tx) = length inputs ∧
    ∀ i u, inputs !! i = Some u → ∃ inp, vin tx !! i = Some inp ∧
      prevout inp = {| op_hash := u_txid u; op_n := u_vout u |} ∧
      nSequence inp = default 0xfffffffd (u_sequence u) ∧
      VerifyScript tx i (txin_scriptSig inp) (p2pkhScriptPubKey (u_pubkeyHash u)) (scriptWitness inp) = Ok tt.
Proof. by apply buildAndSign_accepted_aux. Qed.

(** A hash that does not start like a DER sequence is no signature. *)
Lemma sig_bytes_ne sig h : at_ h 0 ≠ 0x30 → sig_bytes sig ≠ h.
Proof. intros Hne <-. by apply Hne. Qed.

(** ** A concrete payment: two inputs under different keys *)
Module SigningExample.
Import Toy.

Definition key1 : bytes := replicate 32 7.
Definition key2 : bytes := replicate 32 9.
Definition input (txid vout : Z) (key : bytes) (own : bool) : spend :=
  {| u_txid := replicate 32 txid; u_vout := vout; u_value := 5000;
     u_pubkeyHash := hash160 (secp_public key);
     u_privateKey := if own then Some key else None;
     u_publicKey := if own then Some (secp_public key) else None; u_sequence := None |}.
Definition inputs : list spend := [input 1 0 key1 false; input 2 1 key2 true].
Definition outs : list txout :=
  [{| valueSatoshis := 9000; scriptPubKey := p2pkhScriptPubKey (hash160 (secp_public key2)) |}].

Lemma inputs_ok : Forall (spend_ok (Some key1) (Some (secp_public key1))) inputs.
Proof.
  unfold inputs. rewrite !Forall_cons_iff. split_and!; [exists key1|exists key2|done].
  all: split_and!; [by vm_compute|by vm_compute|done|by vm_compute|by vm_compute|by vm_compute|by vm_compute|by vm_compute|by vm_compute|].
  all: intros sig; apply sig_bytes_ne; by vm_compute.
Qed.
End SigningExample.

Lemma buildAndSign_accepted_witness :
  ∃ raw tx, buildAndSignTransaction (P := Toy.prims) SigningExample.inputs SigningExample.outs
      (Some SigningExample.key1) (Some (secp_public (Primitives := Toy.prims) SigningExample.key1)) 0 = Ok raw ∧
    UnserializeTransaction true raw = Ok (tx, []) ∧ length (vin tx) = 2%nat.
Proof.
  destruct (buildAndSign_accepted (P := Toy.prims) (PL := Toy.laws) SigningExample.inputs SigningExample.outs
    (Some SigningExample.key1) (Some (secp_public (Primitives := Toy.prims) SigningExample.key1)) 0)
    as (raw & tx & H1 & H2 & _ & _ & _ & H3 & _).
  - discriminate.
  - exact SigningExample.inputs_ok.
  - apply Forall_singleton. split; [vm_compute; split; congruence|vm_compute; congruence].
  - lia.
  - vm_compute. congruence.
  - vm_compute. congruence.
  - exists raw, tx. split; [exact H1|]. split; [exact H2|exact H3].
Defined.
