(* ===== verification/Multisig.v ===== *)
(** * N-of-M multisignature addresses and spending proposals

    web-wallet/crypto.js 371-511: redeem scripts, the proposal cosigners pass to
    each other, signing, merging and finalizing.  A proposal is JSON with hex
    strings; [signatures[i]] is an object from public key to signature, a map
    here.  [signMultisigProposal] mutates its argument and returns it, which is
    state passing: it takes a proposal and returns the new one.  The last part
    shows that copies signed apart merge to the proposal signed in turn. *)

From S2P Require Import Prelude JsString Hex Primitives Base58 Address NodeTx NodeScript ScriptLemmas TxCodec Der Signing.

(** ** Redeem scripts *)

Definition OP_CHECKMULTISIG_JS : Z := 0xae.

Definition opN (n : Z) : result Z :=
  if (n <? 1) || (16 <? n) then Throw (ExError "OP_N only supports 1..16") else Ok (0x50 + n).

Definition pubkey_parts (pk : bytes) : result (list bytes) :=
  if negb (length pk =? 33)%nat then Throw (ExError "Only compressed (33-byte) pubkeys are supported")
  else Ok [u8_of [len pk]; pk].

Definition createMultisigRedeemScript (m : Z) (pubkeysCompressed : list bytes) : result bytes :=
  let n := Z.of_nat (length pubkeysCompressed) in
  if (m <? 1) || (n <? m) then Throw (ExError "m must be between 1 and the number of pubkeys") else
  if 16 <? n then Throw (ExError "at most 16 pubkeys supported (OP_N range)") else
  op_m ← opN m;
  parts ← mapR pubkey_parts pubkeysCompressed;
  op_n ← opN n;
  concatBytes ([u8_of [op_m]] ++ mjoin parts ++ [u8_of [op_n; OP_CHECKMULTISIG_JS]]).

Definition multisigAddress `{Primitives} (redeemScript : bytes) (net : network) : result string :=
  p2shAddress (hash160 redeemScript) net.

(** ** Proposals *)

Record prop_input := { pi_txid : string; pi_vout : Z; pi_valueSatoshis : Z; pi_redeemScript : string }.
Record prop_output := { po_scriptPubKey : string; po_valueSatoshis : Z }.
Record proposal := {
  p_version : Z; p_locktime : Z; p_inputs : list prop_input; p_outputs : list prop_output;
  p_signatures : list (gmap string string) }.

(** An element of the [inputs] argument. *)
Record multisig_utxo := { mu_txid : bytes; mu_vout : Z; mu_value : Z; mu_redeemScript : bytes }.

Definition createMultisigProposal (inputs : list multisig_utxo) (outputs : list txout) (locktime : Z) : proposal :=
  {| p_version := 2; p_locktime := locktime;
     p_inputs := (λ i, {| pi_txid := bytesToHex (mu_txid i); pi_vout := mu_vout i;
                          pi_valueSatoshis := mu_value i;
                          pi_redeemScript := bytesToHex (mu_redeemScript i) |}) <$> inputs;
     p_outputs := (λ o, {| po_scriptPubKey := bytesToHex (scriptPubKey o);
                           po_valueSatoshis := valueSatoshis o |}) <$> outputs;
     p_signatures := (λ _, ∅) <$> inputs |}.

(** Both halves of [proposalToTxInputsOutputs]; no sequence is set. *)
Definition proposal_input (i : prop_input) : txin :=
  {| prevTxid := hexToBytes (pi_txid i); prevVout := pi_vout i; scriptSig := []; sequence := None |}.
Definition proposal_output (o : prop_output) : txout :=
  {| valueSatoshis := po_valueSatoshis o; scriptPubKey := hexToBytes (po_scriptPubKey o) |}.
Definition proposalToTxInputsOutputs (p : proposal) : list txin * list txout :=
  (proposal_input <$> p_inputs p, proposal_output <$> p_outputs p).

Definition scriptContainsPubkey (redeemScript pubkeyCompressed : bytes) : bool :=
  js_includes (bytesToHex redeemScript) (bytesToHex pubkeyCompressed).

Definition set_signatures (p : proposal) (s : list (gmap string string)) : proposal :=
  {| p_version := p_version p; p_locktime := p_locktime p; p_inputs := p_inputs p;
     p_outputs := p_outputs p; p_signatures := s |}.

Section multisig.
Context {P : Primitives}.

(** One turn of the loop of [signMultisigProposal], [i] and [inputs[i]] given. *)
Definition sign_proposal_input (txInputs : list txin) (outputs : list txout) (locktime : Z)
    (privateKey publicKeyCompressed : bytes)
    (sigs : list (gmap string string)) (iu : nat * prop_input) : result (list (gmap string string)) :=
  let '(i, inp) := iu in
  let redeemScript := hexToBytes (pi_redeemScript inp) in
  if negb (scriptContainsPubkey redeemScript publicKeyCompressed) then Ok sigs else
  sighash ← legacySighash txInputs outputs i redeemScript locktime;
  sig ← secp_sign sighash privateKey;
  derSig ← derEncodeSignature sig;
  sigWithType ← concatBytes [derSig; u8_of [0x01]];
  match sigs !! i with
  | None => Throw (ExType "Cannot set properties of undefined")
  | Some m => Ok (<[i := <[bytesToHex publicKeyCompressed := bytesToHex sigWithType]> m]> sigs)
  end.

Definition signMultisigProposal (p : proposal) (privateKey publicKeyCompressed : bytes) : result proposal :=
  let '(txInputs, outputs) := proposalToTxInputsOutputs p in
  sigs ← foldR (sign_proposal_input txInputs outputs (p_locktime p) privateKey publicKeyCompressed)
           (p_signatures p) (zip (seq 0 (length (p_inputs p))) (p_inputs p));
  mret (set_signatures p sigs).

(** [Object.assign(merged.signatures[i], p.signatures[i])]: the source wins;
    [undefined] changes nothing. *)
Definition assign_signatures (merged : list (gmap string string)) (sigs : list (gmap string string))
    : list (gmap string string) :=
  imap (λ i m, default ∅ (sigs !! i) ∪ m) merged.

(** The deep copy through JSON is the value itself. *)
Definition mergeMultisigProposals (proposals : list proposal) : result proposal :=
  match proposals with
  | [] => Throw (ExSyntax "undefined is not valid JSON")
  | p0 :: rest => Ok (set_signatures p0 (foldl (λ s p, assign_signatures s (p_signatures p)) (p_signatures p0) rest))
  end.

(** The loop of [parsePubkeysInOrder] from index [i] on. *)
Fixpoint parse_pubkeys (fuel : nat) (redeemScript : bytes) (i : nat) : list string :=
  match fuel with
  | O => []
  | S fuel =>
      match redeemScript !! i with
      | None => []
      | Some opcode =>
          if (1 <=? opcode) && (opcode <=? 75) then
            let j := Z.of_nat i + 1 in
            bytesToHex (js_slice redeemScript j (j + opcode)) ::
              parse_pubkeys fuel redeemScript (i + 1 + Z.to_nat opcode)
          else []
      end
  end.
Definition parsePubkeysInOrder (redeemScript : bytes) : list string :=
  parse_pubkeys (length redeemScript) redeemScript 1.

(** [filter(Boolean)] on [collected[pk]]: missing and empty entries go. *)
Definition ordered_sigs (collected : gmap string string) (pubkeys : list string) : list string :=
  omap (λ pk, s ← collected !! pk; if String.eqb s "" then None else Some s) pubkeys.

(** One input of [finalizeMultisigTransaction]: its scriptSig.  [m] is [NaN]
    for an empty script, and compares false; [collected] may be [undefined],
    which only matters when there is a key to look up. *)
Definition finalize_scriptSig (i : nat) (redeemScript : bytes) (collected : option (gmap string string))
    : result bytes :=
  let pubkeysInOrder := parsePubkeysInOrder redeemScript in
  throw_if (bool_decide (collected = None) && negb (bool_decide (pubkeysInOrder = [])))
    (ExType "Cannot read properties of undefined");;
  let orderedSigs := ordered_sigs (default ∅ collected) pubkeysInOrder in
  let have := Z.of_nat (length orderedSigs) in
  let m := (λ b, b - 0x50) <$> redeemScript !! 0%nat in
  if default false ((λ m, have <? m) <$> m) then
    Throw (ExError ("Input " +:+ show (Z.of_nat i) +:+ " has " +:+ show have +:+ " signature(s), needs " +:+ show (default 0 m)))
  else
    let sigsToUse := hexToBytes <$> js_slice orderedSigs 0 (default 0 m) in
    concatBytes ([u8_of [0x00]] ++ mjoin ((λ sig, [u8_of [len sig]; sig]) <$> sigsToUse) ++
                 [varInt (len redeemScript); redeemScript]).

Definition finalize_input (sigs : list (gmap string string)) (txInputs : list txin) (iu : nat * prop_input)
    : result (list txin) :=
  let '(i, inp) := iu in
  s ← finalize_scriptSig i (hexToBytes (pi_redeemScript inp)) (sigs !! i);
  mret (alter (set_scriptSig s) i txInputs).

Definition finalizeMultisigTransaction (p : proposal) : result bytes :=
  let '(txInputs, outputs) := proposalToTxInputsOutputs p in
  txInputs ← foldR (finalize_input (p_signatures p)) txInputs
               (zip (seq 0 (length (p_inputs p))) (p_inputs p));
  serializeTx (p_version p) txInputs outputs (p_locktime p).
End multisig.

(** ** The redeem script as items *)

Definition redeem_items (m : Z) (pks : list bytes) : list item :=
  Op (0x50 + m) :: (Push <$> pks) ++ [Op (0x50 + Z.of_nat (length pks)); Op OP_CHECKMULTISIG].

Definition compressed (pk : bytes) : Prop := length pk = 33%nat.

Lemma push_compressed pk : compressed pk → push_script pk = 33 :: pk.
Proof. unfold compressed. intros H. unfold push_script. by rewrite H. Qed.

Lemma pubkey_parts_spec pk l : pubkey_parts pk = Ok l ↔ compressed pk ∧ l = [u8_of [33]; pk].
Proof.
  unfold pubkey_parts, compressed, len. destruct (Nat.eqb_spec (length pk) 33) as [E|E]; cbn [negb].
  - rewrite E. split; [by intros [= <-]|]. by intros [_ ->].
  - split; [done|]. by intros [? _].
Qed.

Lemma pubkey_parts_ok pks l :
  mapR pubkey_parts pks = Ok l ↔ Forall compressed pks ∧ l = (λ pk, [u8_of [33]; pk]) <$> pks.
Proof.
  revert l. induction pks as [|pk pks IH]; intros l; cbn [mapR].
  { split; [intros [= <-]; by split|]. by intros [_ ->]. }
  rewrite Forall_cons_iff. split.
  - destruct (pubkey_parts pk) as [p|] eqn:Ep; [|done]. apply pubkey_parts_spec in Ep as [Hc ->].
    cbn [mbind result_bind]. destruct (mapR pubkey_parts pks) as [l'|]; [|done].
    destruct (proj1 (IH l') eq_refl) as [Hcs ->]. intros [= <-]. done.
  - intros [[Hc Hcs] ->]. rewrite (proj2 (pubkey_parts_spec pk _) (conj Hc eq_refl)).
    cbn [mbind result_bind]. by rewrite (proj2 (IH _) (conj Hcs eq_refl)).
Qed.

Lemma pushes_join pks :
  Forall compressed pks → mjoin (mjoin ((λ pk, [u8_of [33]; pk]) <$> pks)) = assemble (Push <$> pks).
Proof.
  intros H. unfold assemble. rewrite (mjoin_parts _ (λ pk, 33 :: pk)).
  - f_equal. induction H as [|pk pks Hpk _ IH]; [done|]. rewrite !fmap_cons, <- IH.
    cbn [item_bytes]. by rewrite push_compressed.
  - intros pk. cbn [mjoin list_join]. by rewrite app_nil_r.
Qed.

Lemma create_items m pks rs :
  createMultisigRedeemScript m pks = Ok rs ↔
  1 <= m <= Z.of_nat (length pks) ∧ Z.of_nat (length pks) <= 16 ∧ Forall compressed pks ∧
  rs = assemble (redeem_items m pks).
Proof.
  unfold createMultisigRedeemScript, opN. split.
  - destruct (Z.ltb_spec m 1); [done|]. destruct (Z.ltb_spec (Z.of_nat (length pks)) m); [done|].
    cbn [orb]. destruct (Z.ltb_spec 16 (Z.of_nat (length pks))); [done|].
    destruct (Z.ltb_spec 16 m); [lia|]. cbn [mbind result_bind].
    destruct (mapR pubkey_parts pks) as [l|] eqn:El; [|done]. cbn [mbind result_bind].
    apply pubkey_parts_ok in El as [Hc ->].
    destruct (Z.ltb_spec (Z.of_nat (length pks)) 1); [lia|]. cbn [orb mbind result_bind].
    rewrite concatBytes_join, !mjoin_app, pushes_join by done.
    rewrite !u8_of_bytes by (repeat constructor; unfold is_byte, OP_CHECKMULTISIG_JS; lia). intros [= <-].
    split_and!; try done; try lia. unfold redeem_items. by rewrite assemble_cons, assemble_app.
  - intros (Hm & Hn & Hc & ->). destruct (Z.ltb_spec m 1); [lia|].
    destruct (Z.ltb_spec (Z.of_nat (length pks)) m); [lia|]. cbn [orb].
    destruct (Z.ltb_spec 16 (Z.of_nat (length pks))); [lia|].
    destruct (Z.ltb_spec 16 m); [lia|]. cbn [mbind result_bind]. rewrite (proj2 (pubkey_parts_ok pks _) (conj Hc eq_refl)).
    destruct (Z.ltb_spec (Z.of_nat (length pks)) 1); [lia|]. cbn [orb mbind result_bind].
    rewrite concatBytes_join, !mjoin_app, pushes_join by done. f_equal.
    unfold redeem_items. rewrite assemble_cons, assemble_app.
    rewrite !u8_of_bytes by (repeat constructor; unfold is_byte, OP_CHECKMULTISIG_JS; lia). done.
Qed.

(** The loop reads the keys one push at a time and stops at OP_n. *)
Lemma parse_pubkeys_pushes pks pre op tail fuel :
  Forall compressed pks → 75 < op → (length pks < fuel)%nat →
  parse_pubkeys fuel (pre ++ assemble (Push <$> pks) ++ op :: tail) (length pre) = bytesToHex <$> pks.
Proof.
  intros Hc Hop. revert pre fuel. induction Hc as [|pk pks Hpk _ IH]; intros pre [|fuel] Hf; try (simpl in Hf; lia).
  - cbn [parse_pubkeys]. rewrite lookup_app_r, Nat.sub_diag by lia. cbn.
    destruct (Z.leb_spec op 75); [lia|]. by rewrite andb_false_r.
  - rewrite fmap_cons, assemble_cons. cbn [item_bytes]. rewrite push_compressed by done.
    cbn [parse_pubkeys]. rewrite lookup_app_r, Nat.sub_diag by lia. cbn [app lookup list_lookup].
    change ((1 <=? 33) && (33 <=? 75)) with true. cbv match. rewrite fmap_cons. f_equal.
    + f_equal. replace (pre ++ _) with ((pre ++ [33]) ++ pk ++ (assemble (Push <$> pks) ++ op :: tail))
        by (rewrite <- !app_assoc; done).
      apply js_slice_middle; [rewrite length_app; simpl; lia|unfold compressed in Hpk; by rewrite Hpk].
    + specialize (IH (pre ++ 33 :: pk) fuel ltac:(simpl in Hf; lia)).
      rewrite <- IH, <- (app_assoc pre), length_app. cbn [length]. unfold compressed in Hpk. rewrite Hpk. f_equal; [|lia]. by rewrite <- app_assoc.
Qed.

(** ** The node's OP_CHECKMULTISIG *)

Section checkmultisig.
Context {P : Primitives}.
Variables (tx : CTransaction) (nIn : nat) (code : bytes).

(** An order-preserving assignment of signatures to keys. *)
Inductive matches : list bytes → list bytes → Prop :=
  | matches_nil keys : matches [] keys
  | matches_take s k sigs keys :
      CheckECDSASignature tx nIn s k code = true → matches sigs keys → matches (s :: sigs) (k :: keys)
  | matches_skip k sigs keys : matches sigs keys → matches sigs (k :: keys).

Lemma matches_length sigs keys : matches sigs keys → (length sigs <= length keys)%nat.
Proof. induction 1; simpl; lia. Qed.

Lemma matches_tail s sigs keys : matches (s :: sigs) keys → matches sigs keys.
Proof.
  remember (s :: sigs) as l eqn:E. intros H. revert s sigs E.
  induction H as [|? ? ? ? ? ? IH|? ? ? ? IH]; intros s' sigs' E; simplify_eq.
  - by constructor.
  - constructor. by eapply IH.
Qed.

Lemma matches_app a b c d : matches a b → matches c d → matches (a ++ c) (b ++ d).
Proof.
  induction 1 as [keys| |]; intros Hcd; cbn [app]; [|constructor; auto..].
  induction keys as [|k keys IH]; [done|]. by constructor.
Qed.

Lemma matches_rev sigs keys : matches sigs keys → matches (rev sigs) (rev keys).
Proof.
  induction 1 as [keys|s k sigs keys Hc _ IH|k sigs keys _ IH]; cbn [rev]; [constructor| |].
  - apply matches_app; [done|]. constructor; [done|constructor].
  - rewrite <- (app_nil_r (rev sigs)). apply matches_app; [done|constructor].
Qed.

(** The greedy loop finds an assignment whenever there is one. *)
Lemma multisig_loop_ok sigs keys :
  Forall (λ s, CheckSignatureEncoding s = Ok tt) sigs →
  Forall (λ k, CheckPubKeyEncoding k = Ok tt) keys →
  matches sigs keys → multisig_loop tx nIn code keys sigs = Ok true.
Proof.
  intros Hs Hk. revert sigs Hs. induction Hk as [|k keys Hk _ IH]; intros [|s sigs] Hs Hm; try done.
  { apply matches_length in Hm. simpl in Hm. lia. }
  apply Forall_cons_iff in Hs as [Hs Hss]. cbn [multisig_loop]. rewrite Hs. cbn [mbind result_bind].
  rewrite Hk. cbn [mbind result_bind].
  destruct (CheckECDSASignature tx nIn s k code) eqn:Ec.
  - assert (Hm' : matches sigs keys) by (inversion Hm; subst; [done|by eapply matches_tail]).
    pose proof (matches_length _ _ Hm').
    destruct (Nat.ltb_spec (length keys) (length sigs)); [lia|]. by apply IH.
  - assert (Hm' : matches (s :: sigs) keys) by (inversion Hm; subst; [congruence|done]).
    pose proof (matches_length _ _ Hm').
    destruct (Nat.ltb_spec (length keys) (length (s :: sigs))); [lia|]. apply IH; [by constructor|done].
Qed.
End checkmultisig.

(** ** Spending from a multisignature address *)

Section spend.
Context {P : Primitives} {PL : PrimitiveLaws}.
Variables (tx : CTransaction) (nIn : nat).

(** A key the node accepts in a script: compressed form. *)
Definition pubkey_form (pk : bytes) : Prop := length pk = 33%nat ∧ (at_ pk 0 = 2 ∨ at_ pk 0 = 3).

Lemma pubkey_form_encoding pk : pubkey_form pk → CheckPubKeyEncoding pk = Ok tt.
Proof.
  intros [Hl Hh]. unfold CheckPubKeyEncoding, IsCompressedOrUncompressedPubKey. rewrite Hl.
  destruct Hh as [-> | ->]; done.
Qed.

Lemma small_num m :
  1 <= m <= 16 → scriptnum_value (scriptnum_bytes (0x50 + m - (OP_1 - 1))) = Ok m.
Proof.
  intros Hm. set (check m := negb ((1 <=? m) && (m <=? 16)) ||
    match scriptnum_value (scriptnum_bytes (0x50 + m - (OP_1 - 1))) with Ok v => v =? m | _ => false end).
  assert (H : check m = true) by (apply byte_cases; [by vm_compute|unfold is_byte; lia]).
  unfold check in H. destruct (Z.leb_spec 1 m); [|lia]. destruct (Z.leb_spec m 16); [|lia].
  cbn [andb negb orb] in H. destruct (scriptnum_value _); [|done]. apply Z.eqb_eq in H. by subst.
Qed.

(** OP_m and OP_n are small-number opcodes. *)
Definition small_op (o : Z) : Prop := OP_1 <= o <= OP_16.

Lemma small_op_ok o : small_op o → item_ok (Op o).
Proof.
  unfold small_op, OP_1, OP_16. intros H. simpl. unfold OP_PUSHDATA4, OP_CODESEPARATOR. lia.
Qed.

Lemma redeem_items_ok m pks :
  1 <= m <= Z.of_nat (length pks) → Z.of_nat (length pks) <= 16 →
  Forall compressed pks → Forall item_ok (redeem_items m pks).
Proof.
  intros Hm Hn Hp. unfold redeem_items.
  apply Forall_cons_iff. split; [apply small_op_ok; unfold small_op, OP_1, OP_16; lia|].
  apply Forall_app. split.
  - apply Forall_fmap. eapply Forall_impl; [|exact Hp]. unfold compressed. intros pk H. simpl.
    rewrite H. unfold MAX_SCRIPT_ELEMENT_SIZE. lia.
  - apply Forall_cons_iff. split; [apply small_op_ok; unfold small_op, OP_1, OP_16; lia|].
    by apply Forall_singleton.
Qed.

Lemma sig_not_key m pks sig :
  Forall pubkey_form pks → Push (sig_bytes sig) ∉ redeem_items m pks.
Proof.
  intros Hp. unfold redeem_items. rewrite not_elem_of_cons, not_elem_of_app, !not_elem_of_cons.
  split_and!; try done; [|apply not_elem_of_nil].
  rewrite list_elem_of_fmap. intros (pk & E & Hin). injection E as E.
  rewrite list.Forall_forall in Hp. destruct (Hp pk Hin) as [_ Hh]. rewrite <- E in Hh.
  destruct Hh; discriminate.
Qed.

Lemma drop_sigs_ok m pks (sigs : list ecdsa_sig) :
  1 <= m <= Z.of_nat (length pks) → Z.of_nat (length pks) <= 16 → Forall pubkey_form pks →
  Forall (λ s, (length (sig_bytes s) <= 73)%nat) sigs →
  drop_sigs (assemble (redeem_items m pks)) (sig_bytes <$> sigs) = Ok (assemble (redeem_items m pks)).
Proof.
  intros Hm Hn Hp Hs. unfold drop_sigs.
  assert (Hi : Forall item_ok (redeem_items m pks)).
  { apply redeem_items_ok; try done. eapply Forall_impl; [|exact Hp]. by intros ? [? _]. }
  induction Hs as [|s sigs Hl _ IH]; [done|]. rewrite fmap_cons. cbn [foldR].
  rewrite FindAndDelete_items; [|done|lia|by apply sig_not_key]. cbn [Nat.ltb Nat.leb mbind result_bind].
  exact IH.
Qed.

Abbreviation redeem m pks := (assemble (redeem_items m pks)).
Definition num_push (n : Z) : bytes := scriptnum_bytes (0x50 + n - (OP_1 - 1)).

Lemma checkmultisig_ok m pks (sigs : list ecdsa_sig) k :
  m = Z.of_nat (length sigs) → 1 <= m <= Z.of_nat (length pks) → Z.of_nat (length pks) <= 16 →
  Forall pubkey_form pks → Forall (λ s, (length (sig_bytes s) <= 73)%nat) sigs →
  Forall (λ s, CheckSignatureEncoding (sig_bytes s) = Ok tt) sigs →
  matches tx nIn (redeem m pks) (sig_bytes <$> sigs) pks → k <= 20 →
  eval_checkmultisig tx nIn (redeem m pks) k
    (num_push (Z.of_nat (length pks)) :: rev pks ++ num_push m :: rev (sig_bytes <$> sigs) ++ [[]]) =
  Ok (k + Z.of_nat (length pks), true, []).
Proof.
  intros Em Hm Hn Hp Hl He Hmatch Hk. unfold eval_checkmultisig, num_push.
  rewrite small_num by lia. cbn [mbind result_bind].
  destruct (Z.ltb_spec (Z.of_nat (length pks)) 0); [lia|].
  destruct (Z.ltb_spec MAX_PUBKEYS_PER_MULTISIG (Z.of_nat (length pks))); [unfold MAX_PUBKEYS_PER_MULTISIG in *; lia|].
  cbn [orb]. destruct (Z.ltb_spec MAX_OPS_PER_SCRIPT (k + Z.of_nat (length pks))); [unfold MAX_OPS_PER_SCRIPT in *; lia|].
  rewrite Nat2Z.id. rewrite take_app_length', drop_app_length' by (by rewrite length_rev).
  rewrite small_num by lia. cbn [mbind result_bind].
  destruct (Z.ltb_spec m 0); [lia|]. destruct (Z.ltb_spec (Z.of_nat (length pks)) m); [lia|]. cbn [orb].
  rewrite Em, Nat2Z.id. rewrite length_app, length_rev, length_fmap.
  destruct (Nat.ltb_spec (length sigs + length [@nil Z]) (length sigs)); [lia|].
  rewrite take_app_length', drop_app_length' by (by rewrite length_rev, length_fmap).
  rewrite <- Em. rewrite <- fmap_rev, drop_sigs_ok; [|lia|lia|done|by apply Forall_rev].
  cbn [mbind result_bind]. rewrite multisig_loop_ok; [done| | |].
  - apply Forall_fmap. by apply Forall_rev.
  - apply Forall_rev. eapply Forall_impl; [|exact Hp]. apply pubkey_form_encoding.
  - rewrite fmap_rev. by apply matches_rev.
Qed.

Lemma redeem_length m pks :
  Forall compressed pks → length (redeem m pks) = (3 + 34 * length pks)%nat.
Proof.
  intros Hc. unfold redeem_items. rewrite assemble_cons, assemble_app, !length_app.
  assert (E : length (assemble (Push <$> pks)) = (34 * length pks)%nat).
  { induction Hc as [|pk pks Hpk _ IH]; [done|]. rewrite fmap_cons, assemble_cons, length_app, IH.
    cbn [item_bytes]. rewrite push_compressed by done. unfold compressed in Hpk. cbn [length]. lia. }
  rewrite E. cbn [item_bytes length assemble fmap list_fmap mjoin list_join app]. lia.
Qed.

Lemma parse_redeem m pks :
  Forall compressed pks → 1 <= Z.of_nat (length pks) →
  parsePubkeysInOrder (redeem m pks) = bytesToHex <$> pks.
Proof.
  intros Hc Hn. pose proof (redeem_length m pks Hc) as Hl. unfold parsePubkeysInOrder, redeem_items in *.
  rewrite assemble_cons, assemble_app in *.
  apply (parse_pubkeys_pushes pks [0x50 + m] (0x50 + Z.of_nat (length pks)) [OP_CHECKMULTISIG]); [done|lia|].
  simpl in *. lia.
Qed.

Lemma eval_small_op script n rest k stack :
  1 <= n <= 16 → k + 1 <= MAX_OPS_PER_SCRIPT → (length stack < MAX_STACK_SIZE)%nat →
  eval_step tx nIn script (item_bytes (Op (0x50 + n)) ++ rest) k stack = Ok (rest, k, num_push n :: stack).
Proof.
  intros Hn Hk Hst. apply eval_opcode; try done.
  - unfold eval_op, OP_1, OP_16, OP_1NEGATE. destruct (Z.ltb_spec 0x60 (0x50 + n)); [lia|].
    assert (((0x50 + n =? 0x4f) || ((0x51 <=? 0x50 + n) && (0x50 + n <=? 0x60))) = true) as -> by lia. done.
  - unfold OP_PUSHDATA4. lia.
  - unfold OP_CODESEPARATOR. lia.
  - unfold disabled. cbn [existsb]. lia.
Qed.

(** The redeem script accepts the signatures that match its keys. *)
Lemma eval_redeem m pks (sigs : list ecdsa_sig) :
  m = Z.of_nat (length sigs) → 1 <= m <= Z.of_nat (length pks) → Z.of_nat (length pks) <= 16 →
  Forall pubkey_form pks → Forall (λ s, (length (sig_bytes s) <= 73)%nat) sigs →
  Forall (λ s, CheckSignatureEncoding (sig_bytes s) = Ok tt) sigs →
  matches tx nIn (redeem m pks) (sig_bytes <$> sigs) pks →
  EvalScript tx nIn (rev (sig_bytes <$> sigs) ++ [[]]) (redeem m pks) = Ok [[1]].
Proof.
  intros Em Hm Hn Hp Hl He Hmatch.
  assert (Hc : Forall compressed pks) by (eapply Forall_impl; [|exact Hp]; by intros ? [? _]).
  unfold EvalScript. pose proof (redeem_length m pks Hc) as Hlen.
  destruct (Z.ltb_spec MAX_SCRIPT_SIZE (Z.of_nat (length (redeem m pks)))); [unfold MAX_SCRIPT_SIZE in *; lia|].
  set (script := redeem m pks) at 2. assert (Hsc : script = redeem m pks) by done. clearbody script.
  assert (Hst : (length (rev (sig_bytes <$> sigs) ++ [[]]) <= 17)%nat).
  { rewrite length_app, length_rev, length_fmap. simpl. lia. }
  set (st0 := rev (sig_bytes <$> sigs) ++ [[]]) in *.
  assert (Hf0 : (length (redeem m pks) <= length (redeem m pks))%nat) by lia.
  revert Hf0. generalize (length (redeem m pks)) at 2 3. unfold redeem_items at 1 2. intros f0 Hf0.
  destruct (eval_loop_cons tx nIn f0 script (Op (0x50 + m))
    ((Push <$> pks) ++ [Op (0x50 + Z.of_nat (length pks)); Op OP_CHECKMULTISIG]) 0 st0) as (f1 & Hf1 & ->);
    [apply small_op_ok; unfold small_op, OP_1, OP_16; lia|done|].
  rewrite eval_small_op by (unfold MAX_OPS_PER_SCRIPT, MAX_STACK_SIZE; lia). cbn [mbind result_bind].
  destruct (eval_loop_pushes tx nIn pks [Op (0x50 + Z.of_nat (length pks)); Op OP_CHECKMULTISIG] f1 script 0
    (num_push m :: st0)) as (f2 & Hf2 & ->); [| |done|].
  { eapply Forall_impl; [|exact Hc]. unfold compressed. intros pk E. left. rewrite E.
    unfold MAX_SCRIPT_ELEMENT_SIZE. lia. }
  { cbn [length]. unfold MAX_STACK_SIZE. lia. }
  edestruct (eval_loop_cons tx nIn f2 script) as (f3 & Hf3 & ->);
    [apply small_op_ok; unfold small_op, OP_1, OP_16; lia|done|].
  rewrite eval_small_op; [|lia|unfold MAX_OPS_PER_SCRIPT; lia|].
  2:{ rewrite length_app, length_rev. cbn [length]. unfold MAX_STACK_SIZE. lia. }
  cbn [mbind result_bind].
  edestruct (eval_loop_cons tx nIn f3 script) as (f4 & Hf4 & ->); [|exact Hf3|]; [done|].
  rewrite (eval_opcode tx nIn script OP_CHECKMULTISIG _ _ _ (1 + Z.of_nat (length pks)) [[1]]);
    [by destruct f4| |done..|unfold MAX_STACK_SIZE; simpl; lia].
  unfold st0. subst script.
  cbn -[eval_checkmultisig sig_bytes redeem_items assemble num_push rev].
  rewrite checkmultisig_ok; try done; lia.
Qed.

(** ** Pay to script hash *)

Definition p2sh_items (h : bytes) : list item := [Op OP_HASH160; Push h; Op OP_EQUAL].

Lemma p2sh_assemble h :
  all_bytes h → length h = 20%nat → p2shScriptPubKey h = assemble (p2sh_items h).
Proof.
  intros Hb Hl. unfold p2shScriptPubKey. rewrite u8_of_bytes.
  - unfold assemble, p2sh_items. cbn [fmap list_fmap item_bytes mjoin list_join]. unfold push_script.
    rewrite Hl. done.
  - apply all_bytes_app. split; [repeat constructor; unfold is_byte; lia|].
    apply all_bytes_app. split; [done|]. repeat constructor; unfold is_byte; lia.
Qed.

Lemma eval_p2sh rs stack :
  (length stack <= 100)%nat →
  EvalScript tx nIn (rs :: stack) (p2shScriptPubKey (hash160 rs)) = Ok ([1] :: stack).
Proof.
  intros Hst. assert (Hl : length (hash160 rs) = 20%nat) by apply ripemd160_length.
  assert (Hb : all_bytes (hash160 rs)) by apply ripemd160_bytes.
  assert (Hsz : length (p2shScriptPubKey (hash160 rs)) = 23%nat).
  { unfold p2shScriptPubKey, u8_of. rewrite length_fmap, !length_app, Hl. done. }
  unfold EvalScript. rewrite Hsz. change (MAX_SCRIPT_SIZE <? Z.of_nat 23) with false. cbv match.
  assert (Hf0 : (length (assemble (p2sh_items (hash160 rs))) <= 23)%nat) by (rewrite <- p2sh_assemble by done; lia).
  rewrite p2sh_assemble at 2 by done. set (script := p2shScriptPubKey _). clearbody script.
  unfold p2sh_items in *. set (h := hash160 rs) in *.
  edestruct (eval_loop_cons tx nIn) as (f1 & Hf1 & ->); [|exact Hf0|]; [done|].
  erewrite eval_opcode; [|reflexivity|done..|simpl; unfold MAX_STACK_SIZE; lia]. cbn [mbind result_bind].
  edestruct (eval_loop_cons tx nIn) as (f2 & Hf2 & ->); [|exact Hf1|].
  { simpl. rewrite Hl. unfold MAX_SCRIPT_ELEMENT_SIZE. lia. }
  rewrite eval_push; [|left; rewrite Hl; unfold MAX_SCRIPT_ELEMENT_SIZE; lia|simpl; unfold MAX_STACK_SIZE; lia].
  cbn [mbind result_bind].
  edestruct (eval_loop_cons tx nIn) as (f3 & Hf3 & ->); [|exact Hf2|]; [done|].
  rewrite (eval_opcode tx nIn script OP_EQUAL _ _ _ 2 ([1] :: stack));
    [by destruct f3|by cbn; rewrite bool_decide_eq_true_2|done..|simpl; unfold MAX_STACK_SIZE; lia].
Qed.
End spend.

(** ** Proposals signed apart

    How [signMultisigProposal] and [mergeMultisigProposals] (web-wallet/crypto.js
    426-464) interact: cosigners who sign their own copies of a proposal and
    merge them end up where signing one copy in turn would have ended; and what
    [parsePubkeysInOrder] and the threshold check of
    [finalizeMultisigTransaction] do. *)

Section merge.
Context {P : Primitives}.
Variables (txs : list txin) (outs : list txout) (locktime : Z) (k pub : bytes).

(** The signature an input gets, [None] when the key is not in its script. *)
Definition input_signature (i : nat) (inp : prop_input) : result (option string) :=
  let redeemScript := hexToBytes (pi_redeemScript inp) in
  if negb (scriptContainsPubkey redeemScript pub) then Ok None else
  sighash ← legacySighash txs outs i redeemScript locktime;
  sig ← secp_sign sighash k;
  derSig ← derEncodeSignature sig;
  sigWithType ← concatBytes [derSig; u8_of [0x01]];
  Ok (Some (bytesToHex sigWithType)).

(** Its effect on the signatures of the input. *)
Definition record_signature (i : nat) (inp : prop_input) (m : gmap string string) : gmap string string :=
  match input_signature i inp with Ok (Some h) => <[bytesToHex pub := h]> m | _ => m end.

Lemma sign_input_signature sigs i inp :
  sign_proposal_input txs outs locktime k pub sigs (i, inp) =
  match input_signature i inp with
  | Throw e => Throw e
  | Ok None => Ok sigs
  | Ok (Some h) => match sigs !! i with
                   | None => Throw (ExType "Cannot set properties of undefined")
                   | Some m => Ok (<[i := <[bytesToHex pub := h]> m]> sigs)
                   end
  end.
Proof.
  unfold sign_proposal_input, input_signature.
  destruct (scriptContainsPubkey _ _); cbn [negb]; [|done].
  destruct (legacySighash _ _ _ _ _); [|done]. cbn [mbind result_bind].
  destruct (secp_sign _ _); [|done]. cbn [mbind result_bind].
  destruct (derEncodeSignature _); [|done]. cbn [mbind result_bind].
  destruct (concatBytes _); done.
Qed.

Lemma sign_step_ok sigs i inp m :
  sigs !! i = Some m → is_ok (input_signature i inp) = true →
  sign_proposal_input txs outs locktime k pub sigs (i, inp) = Ok (<[i := record_signature i inp m]> sigs).
Proof.
  intros Hm Hok. rewrite sign_input_signature. unfold record_signature.
  destruct (input_signature i inp) as [[h|]|]; [by rewrite Hm|by rewrite list_insert_id|done].
Qed.

(** The loop, for a proposal with a signature object per input: it succeeds
    exactly when every signature does, and records them side by side. *)
Lemma sign_loop_spec inps j sigs sigs' :
  length sigs = (j + length inps)%nat →
  foldR (sign_proposal_input txs outs locktime k pub) sigs (zip (seq j (length inps)) inps) = Ok sigs' ↔
  (∀ i inp, inps !! i = Some inp → is_ok (input_signature (j + i) inp) = true) ∧
  sigs' = take j sigs ++ zip_with (λ ii m, record_signature ii.1 ii.2 m) (zip (seq j (length inps)) inps) (drop j sigs).
Proof.
  revert j sigs. induction inps as [|inp inps IH]; intros j sigs Hlen.
  { simpl in Hlen. rewrite Nat.add_0_r in Hlen. cbn. rewrite app_nil_r, take_ge by lia.
    split; [intros [= ->]; split; [by intros|done]|by intros [_ ->]]. }
  destruct (lookup_lt_is_Some_2 sigs j) as [m Hm]; [simpl in Hlen; lia|].
  cbn [length seq zip zip_with foldR].
  destruct (is_ok (input_signature j inp)) eqn:Eok.
  - rewrite (sign_step_ok _ _ _ m) by done. cbn [mbind result_bind]. rewrite IH.
    2:{ rewrite length_insert, Hlen. simpl. lia. }
    rewrite (drop_S sigs m j) by done. cbn [zip_with fst snd].
    rewrite drop_insert_lt by lia.
    assert (Ht : take (S j) (<[j := record_signature j inp m]> sigs) = take j sigs ++ [record_signature j inp m]).
    { rewrite (take_S_r _ _ (record_signature j inp m)); [|apply list_lookup_insert_eq; simpl in Hlen; lia].
      by rewrite take_insert_ge by lia. }
    rewrite Ht, <- app_assoc. cbn [app]. split; intros [H1 H2]; split; try done.
    + intros [|i] inp' Hi; cbn in Hi; [by simplify_eq; rewrite Nat.add_0_r|].
      rewrite <- Nat.add_succ_comm. by apply H1.
    + intros i inp' Hi. rewrite Nat.add_succ_comm. by apply H1.
  - split.
    + rewrite sign_input_signature. destruct (input_signature j inp); done.
    + intros [H1 _]. specialize (H1 0%nat inp eq_refl). rewrite Nat.add_0_r in H1. congruence.
Qed.
End merge.

(** Signing a proposal with one signature object per input. *)
Lemma sign_proposal_spec `{Primitives} p k pub p' :
  length (p_signatures p) = length (p_inputs p) →
  let txs := proposal_input <$> p_inputs p in
  let outs := proposal_output <$> p_outputs p in
  signMultisigProposal p k pub = Ok p' ↔
  (∀ i inp, p_inputs p !! i = Some inp → is_ok (input_signature txs outs (p_locktime p) k pub i inp) = true) ∧
  p' = set_signatures p (zip_with (λ ii m, record_signature txs outs (p_locktime p) k pub ii.1 ii.2 m)
         (zip (seq 0 (length (p_inputs p))) (p_inputs p)) (p_signatures p)).
Proof.
  intros Hl txs outs. unfold signMultisigProposal, proposalToTxInputsOutputs. fold txs outs.
  pose proof (sign_loop_spec txs outs (p_locktime p) k pub (p_inputs p) 0 (p_signatures p)) as Hspec.
  destruct (foldR _ _ _) as [sigs|]; cbn [mbind result_bind mret result_ret].
  - destruct (proj1 (Hspec sigs Hl) eq_refl) as [H1 ->]. cbn [take drop app]. split.
    + intros [= <-]. done.
    + by intros [_ ->].
  - split; [done|]. intros [H1 _]. discriminate (proj2 (Hspec _ Hl) (conj H1 eq_refl)).
Qed.

Lemma assign_signatures_zip (a b : list (gmap string string)) :
  length a = length b → assign_signatures a b = zip_with (λ m n, n ∪ m) a b.
Proof.
  unfold assign_signatures. intros Hl. apply list_eq. intros i.
  rewrite list_lookup_imap, lookup_zip_with. destruct (a !! i) as [m|] eqn:Ea; [|done].
  destruct (lookup_lt_is_Some_2 b i) as [n Hn]; [rewrite <- Hl; by eapply lookup_lt_Some|].
  by rewrite Hn.
Qed.

Lemma record_merge (r1 r2 : option string) (key1 key2 : string) (m : gmap string string) :
  m !! key1 = None →
  let put key r (m : gmap string string) := match r with Some h => <[key := h]> m | None => m end in
  put key2 r2 m ∪ put key1 r1 m = put key2 r2 (put key1 r1 m).
Proof.
  intros Hn put. apply map_eq. intros key. unfold put.
  destruct r2 as [h2|], r1 as [h1|]; rewrite lookup_union; cbn.
  - destruct (decide (key2 = key)) as [->|H2]; [rewrite !lookup_insert_eq; by destruct (<[key1:=h1]> m !! key)|].
    rewrite !(lookup_insert_ne _ key2) by done.
    destruct (decide (key1 = key)) as [->|H1]; [by rewrite !lookup_insert_eq, Hn|].
    rewrite lookup_insert_ne by done. by destruct (m !! key).
  - destruct (decide (key2 = key)) as [->|H2]; [rewrite !lookup_insert_eq; by destruct (m !! key)|].
    rewrite !lookup_insert_ne by done. by destruct (m !! key).
  - destruct (decide (key1 = key)) as [->|H1]; [by rewrite !lookup_insert_eq, Hn|].
    rewrite lookup_insert_ne by done. by destruct (m !! key).
  - by destruct (m !! key).
Qed.

(** Two cosigners who sign their own copies of a proposal and merge them get
    the proposal that the second would have got by signing the first one's
    copy, provided the first had not signed it before. *)
Theorem sign_merge_sequential `{Primitives} (p p1 p2 : proposal) (k1 pub1 k2 pub2 : bytes)
    (Hlen : length (p_signatures p) = length (p_inputs p))
    (Hfresh : Forall (λ m : gmap string string, m !! bytesToHex pub1 = None) (p_signatures p))
    (H1 : signMultisigProposal p k1 pub1 = Ok p1) (H2 : signMultisigProposal p k2 pub2 = Ok p2) :
  mergeMultisigProposals [p1; p2] = signMultisigProposal p1 k2 pub2.
Proof.
  apply sign_proposal_spec in H1 as [Hok1 ->]; [|done]. apply sign_proposal_spec in H2 as [Hok2 ->]; [|done].
  symmetry. apply sign_proposal_spec; cbn [set_signatures p_inputs p_outputs p_locktime p_signatures].
  { rewrite !length_zip_with, !length_seq. lia. }
  split; [exact Hok2|]. f_equal. cbn [foldl set_signatures p_signatures]. rewrite assign_signatures_zip.
  2:{ cbn [set_signatures p_signatures]. rewrite !length_zip_with, !length_seq. lia. }
  apply list_eq. intros i. rewrite !lookup_zip_with.
  destruct (seq 0 (length (p_inputs p)) !! i) as [j|]; [|done].
  destruct (p_inputs p !! i) as [inp|] eqn:Ei; [|done].
  destruct (p_signatures p !! i) as [m|] eqn:Em; [|done]. cbn.
  f_equal. unfold record_signature. pose proof (Forall_lookup_1 _ _ i m Hfresh Em) as Hn.
  pose proof (record_merge
    (match input_signature (proposal_input <$> p_inputs p) (proposal_output <$> p_outputs p) (p_locktime p) k1 pub1 j inp
     with Ok o => o | Throw _ => None end)
    (match input_signature (proposal_input <$> p_inputs p) (proposal_output <$> p_outputs p) (p_locktime p) k2 pub2 j inp
     with Ok o => o | Throw _ => None end) _ (bytesToHex pub2) m Hn) as Hr. cbv zeta in Hr.
  destruct (input_signature _ _ _ k1 _ _ _) as [[h1|]|], (input_signature _ _ _ k2 _ _ _) as [[h2|]|]; exact Hr.
Qed.

(** The keys of a redeem script come back in the order they were given, which
    is the order OP_CHECKMULTISIG needs the signatures in. *)
Theorem parsePubkeys_create (m : Z) (pks : list bytes) (rs : bytes)
    (Hrs : createMultisigRedeemScript m pks = Ok rs) :
  parsePubkeysInOrder rs = bytesToHex <$> pks.
Proof.
  apply create_items in Hrs as (Hm & Hn & Hc & ->). apply parse_redeem; [done|lia].
Qed.

Lemma parsePubkeys_create_witness :
  ∃ rs, createMultisigRedeemScript 1 [replicate 33 2; replicate 33 3] = Ok rs ∧
    parsePubkeysInOrder rs = [bytesToHex (replicate 33 2); bytesToHex (replicate 33 3)].
Proof.
  eexists. split; [vm_compute; reflexivity|]. apply (parsePubkeys_create 1 [replicate 33 2; replicate 33 3]).
  vm_compute. reflexivity.
Defined.

(** Fewer signatures than the script asks for: finalizing throws. *)
Theorem finalize_short (i : nat) (m : Z) (pks : list bytes) (rs : bytes) (c : gmap string string)
    (Hrs : createMultisigRedeemScript m pks = Ok rs)
    (Hshort : Z.of_nat (length (ordered_sigs c (bytesToHex <$> pks))) < m) :
  ∃ msg, finalize_scriptSig i rs (Some c) = Throw (ExError msg).
Proof.
  apply create_items in Hrs as (Hm & Hn & Hc & ->).
  unfold finalize_scriptSig. rewrite parse_redeem by (done || lia). change (bool_decide (Some c = None)) with false. cbn [andb throw_if mbind result_bind].
  change (default ∅ (Some c)) with c. change (assemble (redeem_items m pks) !! 0%nat) with (Some (0x50 + m)).
  cbn [fmap option_fmap option_map]. replace (0x50 + m - 0x50) with m by lia.
  change (default false (Some ?b)) with b.
  destruct (Z.ltb_spec (Z.of_nat (length (ordered_sigs c (bytesToHex <$> pks)))) m); [|lia]. by eexists.
Qed.

Lemma finalize_short_witness :
  ∃ rs msg, createMultisigRedeemScript 2 [replicate 33 2; replicate 33 3] = Ok rs ∧
    finalize_scriptSig 0 rs (Some ∅) = Throw (ExError msg).
Proof.
  destruct (finalize_short 0 2 [replicate 33 2; replicate 33 3]
    (match createMultisigRedeemScript 2 [replicate 33 2; replicate 33 3] with Ok r => r | Throw _ => [] end) ∅)
    as [msg Hmsg].
  - vm_compute. reflexivity.
  - vm_compute. reflexivity.
  - eexists _, msg. split; [|exact Hmsg]. vm_compute. reflexivity.
Defined.

(** ** Two cosigners, concretely *)

Module MergeExample.
Import Toy.
Definition k1 : bytes := replicate 32 5.
Definition k2 : bytes := replicate 32 6.
Definition rs : bytes :=
  match createMultisigRedeemScript 2 [secp_public k1; secp_public k2] with Ok r => r | Throw _ => [] end.
Definition p : proposal :=
  createMultisigProposal [{| mu_txid := replicate 32 4; mu_vout := 0; mu_value := 900; mu_redeemScript := rs |}]
    [{| valueSatoshis := 800; scriptPubKey := p2shScriptPubKey (replicate 20 9) |}] 0.
Definition signed (k : bytes) : proposal :=
  match signMultisigProposal p k (secp_public k) with Ok q => q | Throw _ => p end.
End MergeExample.

Lemma sign_merge_sequential_witness :
  mergeMultisigProposals [MergeExample.signed MergeExample.k1; MergeExample.signed MergeExample.k2] =
  signMultisigProposal (P := Toy.prims) (MergeExample.signed MergeExample.k1) MergeExample.k2
    (secp_public (Primitives := Toy.prims) MergeExample.k2).
Proof.
  apply (sign_merge_sequential (H := Toy.prims) MergeExample.p _ _ MergeExample.k1
    (secp_public (Primitives := Toy.prims) MergeExample.k1) MergeExample.k2).
  - vm_compute. reflexivity.
  - apply Forall_singleton. vm_compute. reflexivity.
  - vm_compute. reflexivity.
  - vm_compute. reflexivity.
Defined.
