(* ===== verification/MultisigSpend.v ===== *)
(** * Multisignature spending, end to end

    From a redeem script over a proposal signed by the cosigners to the
    transaction [finalizeMultisigTransaction] (web-wallet/crypto.js 485-511)
    serializes, and the node's verdict on each of its inputs.  The redeem script
    is pushed after [varInt(length)], which is a push only up to 75 bytes: with
    one or two keys the spend is accepted, with three or more it is not. *)

From S2P Require Import Prelude JsString Hex Primitives Base58 Address NodeTx NodeScript ScriptLemmas TxCodec Der Signing Multisig.

Section verify.
Context {P : Primitives} {PL : PrimitiveLaws}.

(** The scriptSig the template asks for: a dummy, the signatures, the script. *)
Definition unlock_items (sigs : list ecdsa_sig) (rs : bytes) : list item :=
  Push <$> ([] :: (sig_bytes <$> sigs) ++ [rs]).

Lemma assemble_pushes_length ds B :
  Forall (λ d, (length d <= 600)%nat) ds → B = (603 * length ds)%nat →
  (length (assemble (Push <$> ds)) <= B)%nat.
Proof.
  intros H ->. induction H as [|d ds Hd _ IH]; [simpl; lia|].
  rewrite fmap_cons, assemble_cons, length_app. cbn [item_bytes length].
  assert (length (push_script d) <= 603)%nat; [|lia].
  unfold push_script, OP_PUSHDATA1. rewrite length_app.
  repeat case_if; cbn [length]; rewrite ?le_bytes_length; lia.
Qed.

Lemma eval_pushes tx i ds :
  Forall push_minimal ds → (length ds <= 16)%nat →
  EvalScript tx i [] (assemble (Push <$> ds)) = Ok (rev ds).
Proof.
  intros Hd Hl. unfold EvalScript.
  assert (Hb : (length (assemble (Push <$> ds)) <= 603 * length ds)%nat).
  { apply (assemble_pushes_length ds _); [|done]. eapply Forall_impl; [|exact Hd].
    intros d [[_ ?]| ->]; [unfold MAX_SCRIPT_ELEMENT_SIZE in *; lia|simpl; lia]. }
  destruct (Z.ltb_spec MAX_SCRIPT_SIZE (Z.of_nat (length (assemble (Push <$> ds)))));
    [unfold MAX_SCRIPT_SIZE in *; lia|].
  set (script := assemble _) at 2. clearbody script.
  rewrite <- (app_nil_r (Push <$> ds)).
  destruct (eval_loop_pushes tx i ds [] (length (assemble ((Push <$> ds) ++ []))) script 0 []) as (f & Hf & ->);
    [done|unfold MAX_STACK_SIZE; simpl; lia|lia|].
  rewrite app_nil_r. by destruct f.
Qed.

Lemma redeem_not_witness m pks :
  Forall compressed pks → 1 <= m <= 16 → pks ≠ [] → IsWitnessProgram (assemble (redeem_items m pks)) = false.
Proof.
  intros Hc Hm Hne. unfold IsWitnessProgram. rewrite redeem_length by done.
  destruct pks as [|pk pks]; [done|]. apply Forall_cons_iff in Hc as [Hpk _].
  unfold redeem_items. rewrite fmap_cons. cbn [app]. rewrite !assemble_cons. cbn [item_bytes app].
  rewrite push_compressed by done. change (at_ _ 1) with 33. cbn [length].
  destruct (Z.eqb_spec (33 + 2) (Z.of_nat (3 + 34 * S (length pks)))); [lia|]. apply andb_false_r.
Qed.

Lemma p2sh_shape h : length h = 20%nat → all_bytes h →
  IsPayToScriptHash (p2shScriptPubKey h) = true ∧ IsWitnessProgram (p2shScriptPubKey h) = false.
Proof.
  intros Hl Hb. assert (Hsz : length (p2shScriptPubKey h) = 23%nat).
  { unfold p2shScriptPubKey, u8_of. rewrite length_fmap, !length_app, Hl. done. }
  unfold IsPayToScriptHash, IsWitnessProgram. rewrite Hsz.
  change (at_ (p2shScriptPubKey h) 0) with 0xa9. change (at_ (p2shScriptPubKey h) 1) with 0x14.
  assert (at_ (p2shScriptPubKey h) 22 = OP_EQUAL) as ->; [|done].
  unfold p2shScriptPubKey. rewrite u8_of_bytes.
  - unfold at_. rewrite lookup_app_r by (simpl; lia). cbn [length].
    rewrite lookup_app_r by lia. rewrite Hl. done.
  - apply all_bytes_app. split; [repeat constructor; unfold is_byte; lia|].
    apply all_bytes_app. split; [done|]. repeat constructor; unfold is_byte; lia.
Qed.

(** The node accepts the template for every redeem script it lets on the stack. *)
Lemma verify_multisig tx i m pks (sigs : list ecdsa_sig) :
  m = Z.of_nat (length sigs) → 1 <= m <= Z.of_nat (length pks) → Z.of_nat (length pks) <= 14 →
  Forall pubkey_form pks → Forall (λ s, (2 <= length (sig_bytes s) <= 73)%nat) sigs →
  Forall (λ s, CheckSignatureEncoding (sig_bytes s) = Ok tt) sigs →
  matches tx i (assemble (redeem_items m pks)) (sig_bytes <$> sigs) pks →
  let rs := assemble (redeem_items m pks) in
  VerifyScript tx i (assemble (unlock_items sigs rs)) (p2shScriptPubKey (hash160 rs)) [] = Ok tt.
Proof.
  intros Em Hm Hn Hp Hl He Hmatch rs.
  assert (Hc : Forall compressed pks) by (eapply Forall_impl; [|exact Hp]; by intros ? [? _]).
  pose proof (redeem_length m pks Hc) as Hlen. fold rs in Hlen.
  assert (Hmin : Forall push_minimal ([] :: (sig_bytes <$> sigs) ++ [rs])).
  { apply Forall_cons_iff. split; [by right|]. apply Forall_app. split.
    - apply Forall_fmap. eapply Forall_impl; [|exact Hl]. intros s Hs. left. cbv beta in Hs. unfold compose, MAX_SCRIPT_ELEMENT_SIZE. lia.
    - apply Forall_singleton. left. unfold MAX_SCRIPT_ELEMENT_SIZE. lia. }
  unfold VerifyScript, unlock_items. rewrite eval_pushes; [|done|].
  2:{ cbn [length]. rewrite length_app, length_fmap. simpl. lia. }
  cbn [mbind result_bind rev]. rewrite rev_app_distr. cbn [rev app].
  rewrite eval_p2sh.
  2:{ rewrite length_app, length_rev, length_fmap. simpl. lia. }
  cbn [mbind result_bind eval_true]. change (CastToBool [1]) with true. cbn [mbind result_bind].
  destruct (p2sh_shape (hash160 rs)) as [-> ->]; [apply ripemd160_length|apply ripemd160_bytes|].
  unfold IsPushOnly. rewrite push_only_items by (done || lia). cbn [negb].
  unfold rs. rewrite eval_redeem; try done; [|lia|]; cycle 1.
  { eapply Forall_impl; [|exact Hl]. simpl. lia. }
  cbn [mbind result_bind eval_true]. change (CastToBool [1]) with true. cbn [mbind result_bind].
  rewrite redeem_not_witness; [done|done|lia|]. intros ->. simpl in Hm. lia.
Qed.
End verify.

(** ** The scriptSig of one input *)

Section finalize.
Context {P : Primitives} {PL : PrimitiveLaws}.

(** A signature that the key [pk] can use at input [i] of [tx]. *)
Definition good_sig (tx : CTransaction) (i : nat) (code pk : bytes) (s : ecdsa_sig) : Prop :=
  CheckECDSASignature tx i (sig_bytes s) pk code = true ∧
  CheckSignatureEncoding (sig_bytes s) = Ok tt ∧
  (2 <= length (sig_bytes s) <= 73)%nat ∧ all_bytes (sig_bytes s).

(** Every signature collected under one of the keys is good. *)
Definition collected_ok (tx : CTransaction) (i : nat) (code : bytes) (pks : list bytes)
    (c : gmap string string) : Prop :=
  Forall (λ pk, ∀ h, c !! bytesToHex pk = Some h →
    ∃ s, h = bytesToHex (sig_bytes s) ∧ good_sig tx i code pk s) pks.

Definition has_sig (c : gmap string string) (pk : bytes) : bool :=
  bool_decide (is_Some (c !! bytesToHex pk)).

Lemma sig_bytes_all_bytes h k sig : secp_sign h k = Ok sig → all_bytes (sig_bytes sig).
Proof.
  intros Hs. pose proof (sign_ranges h k sig Hs).
  destruct (der_value_spec (sig_r sig)) as [(? & ? & _ & _ & L1 & B1 & _) _]; [lia|].
  destruct (der_value_spec (sig_s sig)) as [(? & ? & _ & _ & L2 & B2 & _) _]; [lia|].
  unfold sig_bytes, der_bytes, len. repeat (apply all_bytes_app; split); try done;
    repeat constructor; unfold is_byte; lia.
Qed.

Lemma sign_good tx i code k sig :
  secp_sign (SignatureHash tx code i SIGHASH_ALL) k = Ok sig → good_sig tx i code (secp_public k) sig.
Proof.
  intros Hs. pose proof (sig_bytes_length _ _ _ Hs). split_and!.
  - by apply sig_verifies.
  - by eapply sig_encoding_ok.
  - lia.
  - lia.
  - by eapply sig_bytes_all_bytes.
Qed.

Lemma hex_nonempty b : b ≠ [] → all_bytes b → String.eqb (bytesToHex b) "" = false.
Proof.
  intros Hne Hb. apply String.eqb_neq. intros E. apply Hne, (bytesToHex_inj b []); [done|constructor|].
  by rewrite E.
Qed.

(** In key order, the collected signatures match the keys. *)
Lemma ordered_sigs_spec tx i code pks c :
  collected_ok tx i code pks c →
  ∃ sigs, ordered_sigs c (bytesToHex <$> pks) = (λ s, bytesToHex (sig_bytes s)) <$> sigs ∧
    matches tx i code (sig_bytes <$> sigs) pks ∧
    Forall (λ s, ∃ pk, good_sig tx i code pk s) sigs ∧
    length sigs = length (filter (λ pk, has_sig c pk = true) pks).
Proof.
  unfold collected_ok, has_sig. induction 1 as [|pk pks Hpk _ IH].
  { exists []. split_and!; try done; constructor. }
  destruct IH as (sigs & E & Hm & Hg & Hl). unfold ordered_sigs in *.
  rewrite fmap_cons, filter_cons. cbn [omap list_omap]. destruct (c !! bytesToHex pk) as [h|] eqn:Ec.
  - destruct (Hpk h eq_refl) as (s & -> & Hs). exists (s :: sigs). cbn [mbind option_bind].
    pose proof Hs as (H1 & _ & H3 & H4). rewrite hex_nonempty by (done || by intros ->; simpl in H3; lia).
    rewrite decide_True by (by apply bool_decide_eq_true). rewrite !fmap_cons. split_and!.
    + by rewrite E.
    + by constructor.
    + constructor; [by exists pk|done].
    + cbn [length]. by rewrite Hl.
  - exists sigs. cbn [mbind option_bind]. rewrite decide_False; [|by rewrite bool_decide_eq_true; intros [? ?]].
    split_and!; try done. by constructor.
Qed.

Lemma matches_prefix tx i code sigs keys k :
  matches tx i code sigs keys → matches tx i code (take k sigs) keys.
Proof.
  intros H. revert k. induction H as [|? ? ? ? ? ? IH|? ? ? ? IH]; intros [|j]; cbn [take]; try constructor; auto.
Qed.

Lemma sig_push s : (length (sig_bytes s) <= 73)%nat →
  mjoin [u8_of [len (sig_bytes s)]; sig_bytes s] = item_bytes (Push (sig_bytes s)).
Proof.
  intros H. cbn [item_bytes mjoin list_join]. rewrite app_nil_r. unfold push_script, len, OP_PUSHDATA1.
  destruct (Z.ltb_spec (Z.of_nat (length (sig_bytes s))) 76); [|lia].
  by rewrite u8_of_bytes by (repeat constructor; unfold is_byte; lia).
Qed.

Lemma sig_pushes tx i code sigs :
  Forall (λ s, ∃ pk, good_sig tx i code pk s) sigs →
  mjoin (mjoin ((λ sig, [u8_of [len sig]; sig]) <$>
    (hexToBytes <$> ((λ s, bytesToHex (sig_bytes s)) <$> sigs)))) =
  assemble (Push <$> (sig_bytes <$> sigs)).
Proof.
  induction 1 as [|s sigs (pk & _ & _ & Hl & Hb) _ IH]; [done|].
  rewrite !fmap_cons, assemble_cons, <- IH, hexToBytes_bytesToHex_aux by done.
  change (mjoin (([u8_of [len (sig_bytes s)]; sig_bytes s]) :: ?k))
    with ([u8_of [len (sig_bytes s)]; sig_bytes s] ++ mjoin k). rewrite mjoin_app. f_equal.
  apply sig_push. lia.
Qed.

(** What [finalizeMultisigTransaction] writes for an input: the template, but
    with the redeem script behind a compact size instead of a push. *)
Lemma finalize_scriptSig_ok tx i m pks c :
  let rs := assemble (redeem_items m pks) in
  1 <= m <= Z.of_nat (length pks) → Z.of_nat (length pks) <= 16 → Forall compressed pks →
  collected_ok tx i rs pks c →
  m <= Z.of_nat (length (filter (λ pk, has_sig c pk = true) pks)) →
  ∃ sigs, finalize_scriptSig i rs (Some c) =
      Ok (assemble (Push <$> ([] :: (sig_bytes <$> sigs))) ++ varInt (len rs) ++ rs) ∧
    m = Z.of_nat (length sigs) ∧ matches tx i rs (sig_bytes <$> sigs) pks ∧
    Forall (λ s, ∃ pk, good_sig tx i rs pk s) sigs.
Proof.
  intros rs Hm Hn Hc Hcol Hhave. destruct (ordered_sigs_spec tx i rs pks c Hcol) as (sigs & E & Hmatch & Hg & Hl).
  exists (take (Z.to_nat m) sigs). split_and!; cycle 1.
  { rewrite length_take. lia. }
  { rewrite fmap_take. by apply matches_prefix. }
  { by apply Forall_take. }
  assert (Hparse : parsePubkeysInOrder rs = bytesToHex <$> pks).
  { apply parse_redeem; [done|lia]. }
  unfold finalize_scriptSig. rewrite Hparse. 
  change (bool_decide (Some c = None)) with false. cbn [andb throw_if mbind result_bind].
  change (default ∅ (Some c)) with c. rewrite E, length_fmap.
  assert (Hfirst : rs !! 0%nat = Some (0x50 + m)) by done. rewrite Hfirst. cbn [fmap option_fmap option_map].
  replace (0x50 + m - 0x50) with m by lia. change (default false (Some ?b)) with b.
  destruct (Z.ltb_spec (Z.of_nat (length sigs)) m); [lia|]. change (default 0 (Some m)) with m.
  rewrite concatBytes_join. f_equal.
  replace m with (Z.of_nat (Z.to_nat m)) at 1 by lia. rewrite js_slice_prefix by (rewrite length_fmap; lia).
  rewrite <- fmap_take, !mjoin_app, sig_pushes with (tx := tx) (i := i) (code := rs) by (by apply Forall_take).
  cbn [mjoin list_join]. rewrite !app_nil_r. done.
Qed.
End finalize.

(** ** Signing a proposal *)

Section proposal.
Context {P : Primitives} {PL : PrimitiveLaws}.

(** An output to spend: its outpoint, the threshold and the cosigners' keys. *)
Record mspend := { ms_txid : bytes; ms_vout : Z; ms_value : Z; ms_m : Z; ms_privs : list bytes }.
Definition ms_pks (u : mspend) : list bytes := secp_public <$> ms_privs u.
Definition ms_redeem (u : mspend) : bytes := assemble (redeem_items (ms_m u) (ms_pks u)).
Definition ms_utxo (u : mspend) : multisig_utxo :=
  {| mu_txid := ms_txid u; mu_vout := ms_vout u; mu_value := ms_value u; mu_redeemScript := ms_redeem u |}.

Definition mspend_ok (u : mspend) : Prop :=
  length (ms_txid u) = 32%nat ∧ all_bytes (ms_txid u) ∧ 0 <= ms_vout u < 2 ^ 32 ∧
  1 <= ms_m u <= Z.of_nat (length (ms_privs u)) ∧ Z.of_nat (length (ms_privs u)) <= 16.

Lemma public_form k : pubkey_form (secp_public k).
Proof.
  split; [apply secp_public_length|]. unfold at_. change (Z.to_nat 0) with 0%nat. destruct (secp_public_head k) as [H|H].
  - left. by rewrite H.
  - right. by rewrite H.
Qed.

Lemma ms_pks_form u : Forall pubkey_form (ms_pks u).
Proof. apply Forall_fmap, Forall_forall. intros k _. apply public_form. Qed.
Lemma ms_pks_compressed u : Forall compressed (ms_pks u).
Proof. eapply Forall_impl; [|apply ms_pks_form]. by intros ? [? _]. Qed.

Lemma ms_redeem_length u : length (ms_redeem u) = (3 + 34 * length (ms_privs u))%nat.
Proof. unfold ms_redeem. rewrite redeem_length by apply ms_pks_compressed. unfold ms_pks. by rewrite length_fmap. Qed.

Lemma ms_items_ok u : mspend_ok u → Forall item_ok (redeem_items (ms_m u) (ms_pks u)).
Proof.
  intros (_ & _ & _ & H1 & H2). apply redeem_items_ok; [| |apply ms_pks_compressed];
    unfold ms_pks; rewrite length_fmap; lia.
Qed.

Lemma ms_plain u : mspend_ok u → plain_script (ms_redeem u).
Proof. intros H. unfold plain_script, ms_redeem. apply strip_separators_items; [by apply ms_items_ok|lia]. Qed.

Lemma pushes_bytes (pks : list bytes) :
  Forall compressed pks → Forall all_bytes pks → all_bytes (assemble (Push <$> pks)).
Proof.
  intros Hc. induction Hc as [|pk pks Hpk _ IH]; intros Hb; [constructor|].
  apply Forall_cons_iff in Hb as [Hb Hbs]. rewrite fmap_cons, assemble_cons. apply all_bytes_app.
  split; [|by apply IH]. cbn [item_bytes]. rewrite push_compressed by done.
  apply all_bytes_cons. split; [unfold is_byte; lia|done].
Qed.

Lemma ms_redeem_bytes u : mspend_ok u → all_bytes (ms_redeem u).
Proof.
  intros (_ & _ & _ & H1 & H2). unfold ms_redeem, redeem_items. rewrite assemble_cons, assemble_app.
  assert (Hl : length (ms_pks u) = length (ms_privs u)) by (unfold ms_pks; by rewrite length_fmap).
  apply all_bytes_app. split; [cbn [item_bytes]; repeat constructor; unfold is_byte; lia|].
  apply all_bytes_app. split.
  - apply pushes_bytes; [apply ms_pks_compressed|]. apply Forall_fmap, Forall_forall. intros k _.
    apply secp_public_bytes.
  - rewrite Hl. unfold assemble. cbn [fmap list_fmap item_bytes mjoin list_join app].
    unfold all_bytes, is_byte, OP_CHECKMULTISIG. rewrite !Forall_cons_iff. split_and!; try lia. constructor.
Qed.

(** A cosigner's key is found in the script. *)
Lemma contains_cosigner u k :
  k ∈ ms_privs u → scriptContainsPubkey (ms_redeem u) (secp_public k) = true.
Proof.
  intros Hk. assert (∃ a b, ms_redeem u = a ++ secp_public k ++ b) as (a & b & E).
  { apply list_elem_of_split in Hk as (l1 & l2 & E). unfold ms_redeem, redeem_items, ms_pks.
    rewrite E, !fmap_app, !fmap_cons. exists (assemble (Op (0x50 + ms_m u) :: (Push <$> (secp_public <$> l1))) ++ [33]).
    eexists. rewrite assemble_cons, <- app_assoc, !assemble_app. cbn [app]. rewrite !assemble_cons.
    cbn [item_bytes]. rewrite push_compressed by apply secp_public_length. rewrite <- !app_assoc.
    cbn [app]. reflexivity. }
  unfold scriptContainsPubkey, js_includes. rewrite E, !bytesToHex_app, !chars_app.
  apply includes_chars_spec. eauto.
Qed.

Definition signed_map (tx : CTransaction) (i : nat) (rs k : bytes) (c c' : gmap string string) : Prop :=
  (scriptContainsPubkey rs (secp_public k) = false ∧ c' = c) ∨
  (∃ sig, secp_sign (SignatureHash tx rs i SIGHASH_ALL) k = Ok sig ∧
     c' = <[bytesToHex (secp_public k) := bytesToHex (sig_bytes sig)]> c).

Lemma signed_map_collected tx i pks rs k c c' :
  Forall all_bytes pks → signed_map tx i rs k c c' →
  collected_ok tx i rs pks c → collected_ok tx i rs pks c'.
Proof.
  intros Hb [[_ ->]|(sig & Hs & ->)] Hc; [done|]. unfold collected_ok in *.
  apply list.Forall_forall. intros pk Hpk h Hh. rewrite list.Forall_forall in Hb, Hc.
  destruct (decide (bytesToHex (secp_public k) = bytesToHex pk)) as [E|Hne].
  - rewrite E, lookup_insert_eq in Hh. injection Hh as <-.
    apply bytesToHex_inj in E; [|apply secp_public_bytes|by apply Hb]. subst pk.
    exists sig. split; [done|]. by apply sign_good.
  - rewrite lookup_insert_ne in Hh by done. by apply Hc.
Qed.

Definition key_valid (k : bytes) : Prop := ∀ h, is_ok (secp_sign h k) = true.

(** The input [createMultisigProposal] records for an output. *)
Definition ms_input (u : mspend) : prop_input :=
  {| pi_txid := bytesToHex (ms_txid u); pi_vout := ms_vout u; pi_valueSatoshis := ms_value u;
     pi_redeemScript := bytesToHex (ms_redeem u) |}.

Lemma sign_proposal_input_ok txs outs locktime k sigs i u c :
  key_valid k → mspend_ok u → sigs !! i = Some c →
  ∃ c', sign_proposal_input txs outs locktime k (secp_public k) sigs (i, ms_input u) = Ok (<[i := c']> sigs) ∧
    signed_map (node_tx txs outs locktime) i (ms_redeem u) k c c'.
Proof.
  intros Hk Hu Hc. unfold sign_proposal_input, ms_input. cbn [pi_redeemScript].
  rewrite hexToBytes_bytesToHex_aux by (by apply ms_redeem_bytes).
  destruct (scriptContainsPubkey (ms_redeem u) (secp_public k)) eqn:E; cbn [negb].
  - rewrite sighash_node by (by apply ms_plain). cbn [mbind result_bind].
    set (h := SignatureHash _ _ _ _). specialize (Hk h).
    destruct (secp_sign h k) as [sig|] eqn:Hs; [|done]. cbn [mbind result_bind].
    rewrite (derEncode_sign _ _ _ Hs). cbn [mbind result_bind]. rewrite concatBytes_join.
    cbn [mbind result_bind mjoin list_join]. rewrite app_nil_r. change (u8_of [1]) with [1].
    fold (sig_bytes sig). rewrite Hc. eexists. split; [reflexivity|]. right. by exists sig.
  - exists c. split; [by rewrite list_insert_id|]. by left.
Qed.

Lemma sign_proposal_loop txs outs locktime k us j sigs :
  key_valid k → Forall mspend_ok us → length sigs = (j + length us)%nat →
  ∃ sigs', foldR (sign_proposal_input txs outs locktime k (secp_public k)) sigs
      (zip (seq j (length us)) (ms_input <$> us)) = Ok sigs' ∧
    length sigs' = length sigs ∧ (∀ i, (i < j)%nat → sigs' !! i = sigs !! i) ∧
    ∀ i u, us !! i = Some u → ∃ c c', sigs !! (j + i)%nat = Some c ∧ sigs' !! (j + i)%nat = Some c' ∧
      signed_map (node_tx txs outs locktime) (j + i) (ms_redeem u) k c c'.
Proof.
  intros Hk Hus. revert j sigs. induction Hus as [|u us Hu _ IH]; intros j sigs Hlen.
  { exists sigs. done. }
  destruct (lookup_lt_is_Some_2 sigs j) as [c Hc]; [simpl in Hlen; lia|].
  destruct (sign_proposal_input_ok txs outs locktime k sigs j u c Hk Hu Hc) as (c' & Hs & Hm).
  cbn [length seq fmap list_fmap zip zip_with foldR]. rewrite Hs. cbn [mbind result_bind].
  destruct (IH (S j) (<[j := c']> sigs)) as (sigs' & Hf & Hl & Hpre & Hlook).
  { rewrite length_insert, Hlen. simpl. lia. }
  exists sigs'. split; [exact Hf|]. rewrite length_insert in Hl. split; [done|]. split.
  { intros i Hi. rewrite Hpre by lia. apply list_lookup_insert_ne. lia. }
  intros [|i] u' Hi; cbn in Hi.
  - simplify_eq. rewrite Nat.add_0_r. exists c, c'. split; [done|]. split; [|done].
    rewrite Hpre by lia. apply list_lookup_insert_eq. simpl in Hlen. lia.
  - destruct (Hlook i u' Hi) as (c1 & c2 & H1 & H2 & H3). rewrite Nat.add_succ_comm in *.
    exists c1, c2. rewrite list_lookup_insert_ne in H1 by lia. done.
Qed.

(** The state of a proposal for [us] after some cosigners have signed it. *)
Definition signed_by (us : list mspend) (tx : CTransaction) (ks : list bytes)
    (sigs : list (gmap string string)) : Prop :=
  length sigs = length us ∧
  ∀ i u, us !! i = Some u → ∃ c, sigs !! i = Some c ∧ collected_ok tx i (ms_redeem u) (ms_pks u) c ∧
    ∀ k, k ∈ ks → k ∈ ms_privs u → has_sig c (secp_public k) = true.

Lemma outputs_roundtrip us outs locktime :
  Forall (λ o, all_bytes (scriptPubKey o)) outs →
  proposal_output <$> p_outputs (createMultisigProposal us outs locktime) = outs.
Proof.
  unfold createMultisigProposal. cbn [p_outputs]. rewrite <- list_fmap_compose.
  induction 1 as [|o outs Ho _ IH]; [done|]. rewrite fmap_cons, IH. f_equal.
  unfold compose, proposal_output. cbn [po_scriptPubKey po_valueSatoshis].
  rewrite hexToBytes_bytesToHex_aux by done. by destruct o.
Qed.

Variables (us : list mspend) (outs : list txout) (locktime : Z).
Hypothesis Hus : Forall mspend_ok us.
Hypothesis Houts : Forall (λ o, all_bytes (scriptPubKey o)) outs.

Definition prop0 : proposal := createMultisigProposal (ms_utxo <$> us) outs locktime.
Definition utxins : list txin := proposal_input <$> (ms_input <$> us).
Definition prop_tx : CTransaction := node_tx utxins outs locktime.

Lemma prop0_inputs : p_inputs prop0 = ms_input <$> us.
Proof. unfold prop0, createMultisigProposal. cbn [p_inputs]. by rewrite <- list_fmap_compose. Qed.

Lemma prop0_outputs : proposal_output <$> p_outputs prop0 = outs.
Proof. by apply outputs_roundtrip. Qed.

Lemma sign_proposal_ok p k ks :
  p_inputs p = p_inputs prop0 → p_outputs p = p_outputs prop0 → p_locktime p = locktime →
  key_valid k → signed_by us prop_tx ks (p_signatures p) →
  ∃ sigs, signMultisigProposal p k (secp_public k) = Ok (set_signatures p sigs) ∧
    signed_by us prop_tx (ks ++ [k]) sigs.
Proof.
  intros Ei Eo El Hk [Hlen Hsig]. unfold signMultisigProposal, proposalToTxInputsOutputs.
  rewrite Ei, Eo, El, prop0_outputs, prop0_inputs. fold utxins.
  destruct (sign_proposal_loop utxins outs locktime k us 0 (p_signatures p) Hk Hus Hlen) as (sigs & Hf & Hl & _ & Hlook).
  rewrite length_fmap, Hf. exists sigs. split; [done|]. split; [congruence|].
  intros i u Hi. destruct (Hlook i u Hi) as (c & c' & Hc & Hc' & Hm). rewrite Nat.add_0_l in *.
  destruct (Hsig i u Hi) as (c0 & Hc0 & Hcol & Hhas). rewrite Hc in Hc0. injection Hc0 as <-.
  exists c'. split; [done|]. split.
  { eapply signed_map_collected; [|done|done]. apply Forall_fmap, Forall_forall. intros ? _. apply secp_public_bytes. }
  intros k' Hk' Hin. destruct Hm as [[Hcon ->]|(sig & _ & ->)].
  - rewrite elem_of_app, list_elem_of_singleton in Hk'. destruct Hk' as [Hk'| ->]; [by apply Hhas|].
    rewrite contains_cosigner in Hcon by done. done.
  - unfold has_sig in *. apply bool_decide_eq_true.
    destruct (decide (bytesToHex (secp_public k) = bytesToHex (secp_public k'))) as [E|Hne].
    + rewrite E, lookup_insert_eq. eauto.
    + rewrite lookup_insert_ne by done. rewrite elem_of_app, list_elem_of_singleton in Hk'.
      destruct Hk' as [Hk'| ->]; [|done]. by eapply bool_decide_eq_true, Hhas.
Qed.

(** All cosigners of [ks] sign, one after the other. *)
Definition sign_all (p : proposal) (ks : list bytes) : result proposal :=
  foldR (λ p k, signMultisigProposal p k (secp_public k)) p ks.

Lemma sign_all_from p ks ks0 :
  p_inputs p = p_inputs prop0 → p_outputs p = p_outputs prop0 → p_locktime p = locktime →
  Forall key_valid ks → signed_by us prop_tx ks0 (p_signatures p) →
  ∃ sigs, sign_all p ks = Ok (set_signatures p sigs) ∧ signed_by us prop_tx (ks0 ++ ks) sigs.
Proof.
  intros Ei Eo El Hks. revert p ks0 Ei Eo El. unfold sign_all.
  induction Hks as [|k ks Hk _ IH]; intros p ks0 Ei Eo El Hs.
  { exists (p_signatures p). rewrite app_nil_r. split; [by destruct p|done]. }
  destruct (sign_proposal_ok p k ks0 Ei Eo El Hk Hs) as (sigs & E & Hs'). cbn [foldR]. rewrite E.
  cbn [mbind result_bind].
  destruct (IH (set_signatures p sigs) (ks0 ++ [k])) as (sigs' & E' & Hs''); try done.
  exists sigs'. rewrite E'. split; [done|]. by rewrite <- app_assoc in Hs''.
Qed.

Lemma sign_all_ok ks :
  Forall key_valid ks →
  ∃ sigs, sign_all prop0 ks = Ok (set_signatures prop0 sigs) ∧ signed_by us prop_tx ks sigs.
Proof.
  intros Hks. apply (sign_all_from prop0 ks []); try done. split.
  - unfold prop0, createMultisigProposal. cbn [p_signatures]. by rewrite !length_fmap.
  - intros i u Hi. exists ∅. split_and!.
    + unfold prop0, createMultisigProposal. cbn [p_signatures]. by rewrite !list_lookup_fmap, Hi.
    + apply Forall_forall. intros pk _ h. by rewrite lookup_empty.
    + intros k Hk. by apply not_elem_of_nil in Hk.
Qed.

(** ** Assembling the transaction *)

(** What finalizing leaves in an input. *)
Definition finalized (tx : CTransaction) (i : nat) (u : mspend) (s : bytes) : Prop :=
  ∃ sigs, s = assemble (Push <$> ([] :: (sig_bytes <$> sigs))) ++ varInt (len (ms_redeem u)) ++ ms_redeem u ∧
    ms_m u = Z.of_nat (length sigs) ∧ matches tx i (ms_redeem u) (sig_bytes <$> sigs) (ms_pks u) ∧
    Forall (λ s, ∃ pk, good_sig tx i (ms_redeem u) pk s) sigs.

Lemma finalize_loop (Q : nat → mspend → bytes → Prop) sigs vs j txs :
  (∀ i u, vs !! i = Some u → mspend_ok u ∧
     ∃ s, finalize_scriptSig (j + i) (ms_redeem u) (sigs !! (j + i)%nat) = Ok s ∧ Q (j + i)%nat u s) →
  length txs = (j + length vs)%nat →
  ∃ txs', foldR (finalize_input sigs) txs (zip (seq j (length vs)) (ms_input <$> vs)) = Ok txs' ∧
    outpoint_of <$> txs' = outpoint_of <$> txs ∧ (∀ i, (i < j)%nat → txs' !! i = txs !! i) ∧
    ∀ i u, vs !! i = Some u → ∃ t, txs' !! (j + i)%nat = Some t ∧ Q (j + i)%nat u (scriptSig t).
Proof.
  revert j txs. induction vs as [|u vs IH]; intros j txs Hq Hlen.
  { exists txs. done. }
  destruct (Hq 0%nat u eq_refl) as (Hu & s & Hs & Hqs). rewrite Nat.add_0_r in *.
  cbn [length seq fmap list_fmap zip zip_with foldR].
  assert (E : finalize_input sigs txs (j, ms_input u) = Ok (alter (set_scriptSig s) j txs)).
  { unfold finalize_input, ms_input. cbn [pi_redeemScript].
    rewrite hexToBytes_bytesToHex_aux by (by apply ms_redeem_bytes). by rewrite Hs. }
  rewrite E. cbn [mbind result_bind].
  destruct (IH (S j) (alter (set_scriptSig s) j txs)) as (txs' & Hf & Ho & Hpre & Hlook).
  { intros i u' Hi. rewrite Nat.add_succ_comm. by apply Hq. }
  { rewrite length_alter, Hlen. simpl. lia. }
  exists txs'. split; [exact Hf|]. rewrite outpoint_alter in Ho. split; [done|]. split.
  { intros i Hi. rewrite Hpre by lia. apply list_lookup_alter_ne. lia. }
  intros [|i] u' Hi; cbn in Hi.
  - simplify_eq. rewrite Nat.add_0_r. destruct (lookup_lt_is_Some_2 txs j) as [t Ht]; [simpl in Hlen; lia|].
    exists (set_scriptSig s t). split; [|done]. rewrite Hpre by lia. by rewrite list_lookup_alter_eq, Ht.
  - rewrite <- Nat.add_succ_comm. by apply Hlook.
Qed.

Lemma filter_signers c u (ks : list bytes) :
  (∀ k, k ∈ ks → k ∈ ms_privs u → has_sig c (secp_public k) = true) →
  (length (filter (λ k, k ∈ ks) (ms_privs u)) <= length (filter (λ pk, has_sig c pk = true) (ms_pks u)))%nat.
Proof.
  unfold ms_pks. induction (ms_privs u) as [|k l IH]; intros H; [simpl; lia|].
  rewrite fmap_cons, !filter_cons. assert (IH' := IH ltac:(intros; apply H; [done|by constructor])).
  destruct (decide (k ∈ ks)) as [Hin|].
  - rewrite (decide_True (P := has_sig c (secp_public k) = true)) by (apply H; [done|constructor]).
    cbn [length]. lia.
  - case_decide; cbn [length]; lia.
Qed.

(** Enough signatures on every input: the proposal finalizes. *)
Lemma finalize_ok ks sigs :
  signed_by us prop_tx ks sigs →
  Forall (λ u, ms_m u <= Z.of_nat (length (filter (λ k, k ∈ ks) (ms_privs u)))) us →
  ∃ txs, finalizeMultisigTransaction (set_signatures prop0 sigs) = Ok (tx_bytes 2 txs outs locktime) ∧
    outpoint_of <$> txs = outpoint_of <$> utxins ∧
    ∀ i u, us !! i = Some u → ∃ t, txs !! i = Some t ∧ finalized prop_tx i u (scriptSig t).
Proof.
  intros [Hl Hsig] Hm. unfold finalizeMultisigTransaction, proposalToTxInputsOutputs.
  cbn [set_signatures p_inputs p_outputs p_signatures p_version p_locktime].
  rewrite prop0_outputs, prop0_inputs, length_fmap.
  destruct (finalize_loop (finalized prop_tx) sigs us 0 utxins) as (txs & Hf & Ho & _ & Hlook).
  - intros i u Hi. rewrite Nat.add_0_l. rewrite Forall_lookup in Hus. pose proof (Hus i u Hi) as Hu.
    split; [done|]. destruct (Hsig i u Hi) as (c & Hc & Hcol & Hhas). rewrite Hc.
    destruct Hu as (_ & _ & _ & Hm1 & Hm2). rewrite Forall_lookup in Hm. specialize (Hm i u Hi).
    pose proof (filter_signers c u ks Hhas).
    destruct (finalize_scriptSig_ok prop_tx i (ms_m u) (ms_pks u) c) as (ss & E & H1 & H2 & H3).
    + unfold ms_pks. rewrite length_fmap. lia.
    + unfold ms_pks. rewrite length_fmap. lia.
    + apply ms_pks_compressed.
    + done.
    + lia.
    + eexists. split; [exact E|]. by exists ss.
  - unfold utxins. by rewrite !length_fmap.
  - fold utxins. rewrite Hf. cbn [mbind result_bind]. exists txs.
    split; [apply serializeTx_layout|]. done.
Qed.

(** ** The node's verdict *)

Lemma check_transfer tx tx' i code s pk :
  SignatureHash tx code i SIGHASH_ALL = SignatureHash tx' code i SIGHASH_ALL →
  CheckECDSASignature tx i (sig_bytes s) pk code = CheckECDSASignature tx' i (sig_bytes s) pk code.
Proof.
  intros E. unfold CheckECDSASignature, sig_bytes. rewrite last_snoc. unfold SIGHASH_ALL in E. by rewrite E.
Qed.

Lemma matches_transfer tx tx' i code (sigs : list ecdsa_sig) pks :
  SignatureHash tx code i SIGHASH_ALL = SignatureHash tx' code i SIGHASH_ALL →
  matches tx i code (sig_bytes <$> sigs) pks → matches tx' i code (sig_bytes <$> sigs) pks.
Proof.
  intros E H. remember (sig_bytes <$> sigs) as l eqn:El. revert sigs El.
  induction H as [|s k l keys Hc _ IH|k l keys _ IH]; intros sigs El.
  - constructor.
  - destruct sigs as [|s' sigs]; [done|]. rewrite fmap_cons in El. injection El as -> ->.
    apply matches_take; [by rewrite <- (check_transfer tx tx' i code s' k E)|]. by apply (IH sigs).
  - apply matches_skip. by apply (IH sigs).
Qed.

Lemma finalized_length tx i u s : mspend_ok u → finalized tx i u s → len s <= MAX_SIZE.
Proof.
  intros (_ & _ & _ & Hm & Hn) (sigs & -> & Em & _ & Hg). unfold len, MAX_SIZE. rewrite !length_app.
  pose proof (ms_redeem_length u).
  assert (H1 : (length (assemble (Push <$> ([] :: (sig_bytes <$> sigs)))) <= 603 * length ([] :: (sig_bytes <$> sigs)))%nat).
  { apply assemble_pushes_length; [|done]. apply Forall_cons_iff. split; [simpl; lia|].
    apply Forall_fmap. eapply Forall_impl; [|exact Hg]. intros s (pk & _ & _ & ? & _). unfold compose. lia. }
  cbn [length] in H1. rewrite length_fmap in H1.
  assert ((length (varInt (Z.of_nat (length (ms_redeem u)))) <= 9)%nat).
  { rewrite varInt_WriteCompactSize by lia. unfold WriteCompactSize.
    repeat case_if; rewrite ?length_app, ?le_bytes_length; simpl; lia. }
  lia.
Qed.

(** The finished transaction as the node reads it. *)
Lemma finalized_read txs :
  us ≠ [] → Forall txout_ok outs → 0 <= locktime < 2 ^ 32 →
  Z.of_nat (length us) <= MAX_SIZE → Z.of_nat (length outs) <= MAX_SIZE →
  outpoint_of <$> txs = outpoint_of <$> utxins →
  (∀ i u, us !! i = Some u → ∃ t, txs !! i = Some t ∧ finalized prop_tx i u (scriptSig t)) →
  UnserializeTransaction true (tx_bytes 2 txs outs locktime) = Ok (node_tx txs outs locktime, []).
Proof.
  intros Hne Hout Hlock Hn1 Hn2 Ho Hlook.
  assert (Hlen : length txs = length us).
  { apply (f_equal length) in Ho. unfold utxins in Ho. by rewrite !length_fmap in Ho. }
  rewrite <- (app_nil_r (tx_bytes _ _ _ _)). apply reads_tx. split_and!; try done; try lia.
  { intros ->. by destruct us. }
  apply Forall_lookup. intros i t Ht. pose proof (f_equal (.!! i) Ho) as Hi. unfold utxins in Hi.
  rewrite !list_lookup_fmap, Ht in Hi. cbn in Hi. destruct (us !! i) as [u|] eqn:Eu; [|done].
  cbn in Hi. destruct (Hlook i u Eu) as (t' & Ht' & Hfin). rewrite Ht in Ht'. injection Ht' as <-.
  rewrite Forall_lookup in Hus. pose proof (Hus i u Eu) as Hu. pose proof (finalized_length _ _ _ _ Hu Hfin).
  destruct Hu as (H1 & H2 & H3 & _). injection Hi as E1 E2 E3. unfold txin_ok.
  rewrite E1, E2, E3. rewrite hexToBytes_bytesToHex_aux by done. split_and!; try done; lia.
Qed.

Lemma sighash_final txs i u :
  mspend_ok u → outpoint_of <$> txs = outpoint_of <$> utxins →
  SignatureHash prop_tx (ms_redeem u) i SIGHASH_ALL =
  SignatureHash (node_tx txs outs locktime) (ms_redeem u) i SIGHASH_ALL.
Proof.
  intros Hu Ho. pose proof (sighash_node txs outs i _ locktime (ms_plain u Hu)) as H1.
  pose proof (sighash_node utxins outs i _ locktime (ms_plain u Hu)) as H2.
  rewrite (sighash_outpoint txs utxins) in H1 by done. unfold prop_tx. congruence.
Qed.

(** With at most two keys the compact size of the redeem script is a push. *)
Lemma finalized_template u sigs :
  (length (ms_privs u) <= 2)%nat →
  assemble (Push <$> ([] :: (sig_bytes <$> sigs))) ++ varInt (len (ms_redeem u)) ++ ms_redeem u =
  assemble (unlock_items sigs (ms_redeem u)).
Proof.
  intros Hn. unfold unlock_items. rewrite !fmap_cons, fmap_app, app_comm_cons, assemble_app.
  f_equal. pose proof (ms_redeem_length u) as Hl. rewrite varInt_WriteCompactSize by (unfold len; lia).
  unfold WriteCompactSize, len. rewrite Hl. unfold assemble. cbn [fmap list_fmap item_bytes mjoin list_join].
  unfold push_script, OP_PUSHDATA1. rewrite Hl, app_nil_r.
  destruct (Z.ltb_spec (Z.of_nat (3 + 34 * length (ms_privs u))) 253); [|lia].
  destruct (Z.ltb_spec (Z.of_nat (3 + 34 * length (ms_privs u))) 76); [|lia].
  cbn [le_bytes]. by rewrite Z.mod_small by lia.
Qed.

Lemma finalized_accepted txs i u s :
  mspend_ok u → (length (ms_privs u) <= 2)%nat → outpoint_of <$> txs = outpoint_of <$> utxins →
  finalized prop_tx i u s →
  VerifyScript (node_tx txs outs locktime) i s (p2shScriptPubKey (hash160 (ms_redeem u))) [] = Ok tt.
Proof.
  intros Hu Hn Ho (sigs & -> & Em & Hmatch & Hg). rewrite finalized_template by done.
  pose proof (sighash_final txs i u Hu Ho) as Hh. destruct Hu as (_ & _ & _ & Hm & _).
  apply verify_multisig.
  - done.
  - unfold ms_pks. rewrite length_fmap. lia.
  - unfold ms_pks. rewrite length_fmap. lia.
  - apply ms_pks_form.
  - eapply Forall_impl; [|exact Hg]. by intros s (pk & _ & _ & ? & _).
  - eapply Forall_impl; [|exact Hg]. by intros s (pk & _ & ? & _).
  - by apply (matches_transfer prop_tx).
Qed.

(** From the third key on, the first byte of the compact size is an opcode
    above OP_16, so the scriptSig is not made of pushes. *)
Lemma push_only_stop ds op tail fuel :
  Forall push_minimal ds → OP_16 < op → push_only fuel (assemble (Push <$> ds) ++ op :: tail) = false.
Proof.
  intros Hds Hop. revert fuel. induction Hds as [|d ds Hd _ IH]; intros fuel.
  - cbn [fmap list_fmap assemble mjoin list_join app]. destruct fuel as [|fuel]; [done|]. cbn [push_only].
    unfold GetScriptOp. destruct (Z.leb_spec op OP_PUSHDATA4); [unfold OP_PUSHDATA4, OP_16 in *; lia|].
    destruct (Z.ltb_spec OP_16 op); [done|lia].
  - rewrite fmap_cons, assemble_cons, <- app_assoc. pose proof (item_bytes_length (Push d)) as Hl.
    destruct (item_bytes (Push d) ++ assemble (Push <$> ds) ++ op :: tail) as [|c pc] eqn:E.
    { apply (f_equal length) in E. rewrite length_app in E. cbn [length] in E. lia. }
    destruct fuel as [|fuel]; [done|]. cbn [push_only].
    rewrite <- E, item_parse by (by apply push_minimal_ok). cbn [item_op]. case_if; [done|apply IH].
Qed.

Lemma not_push_only_rejected tx i s h w :
  length h = 20%nat → all_bytes h → IsPushOnly s = false →
  VerifyScript tx i s (p2shScriptPubKey h) w ≠ Ok tt.
Proof.
  intros Hl Hb Hs. unfold VerifyScript. destruct (p2sh_shape h Hl Hb) as [-> ->]. rewrite Hs. cbn [negb].
  destruct (EvalScript tx i [] s) as [st|]; [|done]. cbn [mbind result_bind].
  destruct (EvalScript tx i st _) as [st'|]; [|done]. cbn [mbind result_bind].
  by destruct (eval_true st').
Qed.

Lemma finalized_rejected tx i u s w :
  mspend_ok u → (3 <= length (ms_privs u))%nat → finalized prop_tx i u s →
  VerifyScript tx i s (p2shScriptPubKey (hash160 (ms_redeem u))) w ≠ Ok tt.
Proof.
  intros Hu Hn (sigs & -> & _ & _ & Hg).
  apply not_push_only_rejected; [apply ripemd160_length|apply ripemd160_bytes|].
  destruct Hu as (_ & _ & _ & _ & H16).
  assert (∃ op tail, varInt (len (ms_redeem u)) ++ ms_redeem u = op :: tail ∧ OP_16 < op) as (op & tail & -> & Hop).
  { rewrite varInt_WriteCompactSize by (unfold len; lia). unfold WriteCompactSize, len. rewrite ms_redeem_length.
    destruct (Z.ltb_spec (Z.of_nat (3 + 34 * length (ms_privs u))) 253).
    - eexists _, _. split; [reflexivity|]. rewrite Z.mod_small by lia. unfold OP_16. lia.
    - destruct (Z.leb_spec (Z.of_nat (3 + 34 * length (ms_privs u))) 0xffff); [|lia].
      eexists _, _. split; [reflexivity|]. done. }
  apply push_only_stop; [|done]. apply Forall_cons_iff. split; [by right|]. apply Forall_fmap.
  eapply Forall_impl; [|exact Hg]. intros s (pk & _ & _ & ? & _). left.
  unfold MAX_SCRIPT_ELEMENT_SIZE. lia.
Qed.
End proposal.

(** ** Theorems *)

Section theorems.
Context {P : Primitives} {PL : PrimitiveLaws}.

(** The hypotheses of a spend: outputs, widths, and enough cosigners with valid
    keys for every input. *)
Definition spend_setup (us : list mspend) (outs : list txout) (locktime : Z) (ks : list bytes) : Prop :=
  us ≠ [] ∧ Forall mspend_ok us ∧
  Forall txout_ok outs ∧ Forall (λ o, all_bytes (scriptPubKey o)) outs ∧
  0 <= locktime < 2 ^ 32 ∧ Z.of_nat (length us) <= MAX_SIZE ∧ Z.of_nat (length outs) <= MAX_SIZE ∧
  Forall key_valid ks ∧
  Forall (λ u, ms_m u <= Z.of_nat (length (filter (λ k, k ∈ ks) (ms_privs u)))) us.

Lemma redeem_created u :
  mspend_ok u → createMultisigRedeemScript (ms_m u) (ms_pks u) = Ok (ms_redeem u).
Proof.
  intros (_ & _ & _ & H1 & H2). apply create_items. unfold ms_pks. rewrite length_fmap.
  split_and!; try lia; [apply ms_pks_compressed|done].
Qed.

(** Signing, finalizing and reading back, for any number of keys. *)
Lemma spend_outcome us outs locktime ks :
  spend_setup us outs locktime ks →
  ∃ p raw tx, sign_all (createMultisigProposal (ms_utxo <$> us) outs locktime) ks = Ok p ∧
    finalizeMultisigTransaction p = Ok raw ∧
    UnserializeTransaction true raw = Ok (tx, []) ∧ vout tx = node_out <$> outs ∧
    ∀ i u, us !! i = Some u → ∃ inp, vin tx !! i = Some inp ∧
      prevout inp = {| op_hash := ms_txid u; op_n := ms_vout u |} ∧ scriptWitness inp = [] ∧
      ((length (ms_privs u) <= 2)%nat →
        VerifyScript tx i (txin_scriptSig inp) (p2shScriptPubKey (hash160 (ms_redeem u))) [] = Ok tt) ∧
      ((3 <= length (ms_privs u))%nat →
        VerifyScript tx i (txin_scriptSig inp) (p2shScriptPubKey (hash160 (ms_redeem u))) [] ≠ Ok tt).
Proof.
  intros (Hne & Hus & Hout & Hb & Hlock & Hn1 & Hn2 & Hks & Hm).
  destruct (sign_all_ok us outs locktime Hus Hb ks Hks) as (sigs & Es & Hs).
  destruct (finalize_ok us outs locktime Hus Hb ks sigs Hs Hm) as (txs & Ef & Ho & Hlook).
  exists (set_signatures (prop0 us outs locktime) sigs), (tx_bytes 2 txs outs locktime), (node_tx txs outs locktime).
  split; [exact Es|]. split; [exact Ef|]. split; [by eapply finalized_read|]. split; [done|].
  intros i u Hi. destruct (Hlook i u Hi) as (t & Ht & Hfin). exists (node_in t).
  pose proof (proj1 (Forall_lookup _ _) Hus i u Hi) as Hu.
  pose proof (f_equal (.!! i) Ho) as Hoi. unfold utxins in Hoi. rewrite !list_lookup_fmap, Ht, Hi in Hoi.
  cbn in Hoi. injection Hoi as E1 E2 _. cbn [node_tx vin]. rewrite list_lookup_fmap, Ht. split; [done|].
  cbn [node_in prevout txin_scriptSig scriptWitness]. rewrite E1, E2.
  rewrite hexToBytes_bytesToHex_aux by (by destruct Hu as (_ & ? & _)).
  split_and!; try done; intros Hn.
  - by eapply finalized_accepted.
  - by eapply finalized_rejected.
Qed.
End theorems.

(** C12. Multisignature spending works for one or two cosigners.  A proposal over
    outputs locked by scripts [createMultisigRedeemScript] returns, signed in
    turn by cosigners with valid keys, at least the threshold for every input,
    finalizes to a transaction that the node reads back with the outpoints and
    outputs proposed and whose every input passes [VerifyScript]. *)
Theorem multisig_spend_accepted {P : Primitives} {PL : PrimitiveLaws}
    (us : list mspend) (outs : list txout) (locktime : Z) (ks : list bytes)
    (Hsetup : spend_setup us outs locktime ks)
    (Htwo : Forall (λ u, (length (ms_privs u) <= 2)%nat) us) :
  ∃ p raw tx, sign_all (createMultisigProposal (ms_utxo <$> us) outs locktime) ks = Ok p ∧
    finalizeMultisigTransaction p = Ok raw ∧
    UnserializeTransaction true raw = Ok (tx, []) ∧ vout tx = node_out <$> outs ∧
    ∀ i u, us !! i = Some u →
      createMultisigRedeemScript (ms_m u) (ms_pks u) = Ok (ms_redeem u) ∧
      ∃ inp, vin tx !! i = Some inp ∧
        prevout inp = {| op_hash := ms_txid u; op_n := ms_vout u |} ∧
        VerifyScript tx i (txin_scriptSig inp) (p2shScriptPubKey (hash160 (ms_redeem u)))
          (scriptWitness inp) = Ok tt.
Proof.
  destruct (spend_outcome us outs locktime ks Hsetup) as (p & raw & tx & H1 & H2 & H3 & H4 & H5).
  exists p, raw, tx. split_and!; try done. intros i u Hi.
  split; [apply redeem_created; destruct Hsetup as (_ & Hus & _); by apply (Forall_lookup_1 _ _ i u Hus)|].
  destruct (H5 i u Hi) as (inp & Hv & Hp & Hw & Ha & _). exists inp. rewrite Hw. split_and!; try done.
  apply Ha. by apply (Forall_lookup_1 _ _ i u Htwo).
Qed.

(** C21. With three or more cosigners the same steps return a transaction the node
    refuses: [finalizeMultisigTransaction] puts [varInt(redeemScript.length)]
    where a push opcode belongs, and above 75 bytes that byte is another opcode,
    so the input's scriptSig is not push-only. *)
Theorem multisig_spend_rejected {P : Primitives} {PL : PrimitiveLaws}
    (us : list mspend) (outs : list txout) (locktime : Z) (ks : list bytes) (i : nat) (u : mspend)
    (Hsetup : spend_setup us outs locktime ks)
    (Hi : us !! i = Some u) (Hthree : (3 <= length (ms_privs u))%nat) :
  ∃ p raw tx inp, sign_all (createMultisigProposal (ms_utxo <$> us) outs locktime) ks = Ok p ∧
    finalizeMultisigTransaction p = Ok raw ∧
    UnserializeTransaction true raw = Ok (tx, []) ∧ vin tx !! i = Some inp ∧
    createMultisigRedeemScript (ms_m u) (ms_pks u) = Ok (ms_redeem u) ∧
    VerifyScript tx i (txin_scriptSig inp) (p2shScriptPubKey (hash160 (ms_redeem u)))
      (scriptWitness inp) ≠ Ok tt.
Proof.
  destruct (spend_outcome us outs locktime ks Hsetup) as (p & raw & tx & H1 & H2 & H3 & _ & H5).
  destruct (H5 i u Hi) as (inp & Hv & _ & Hw & _ & Hr). exists p, raw, tx, inp.
  rewrite Hw. split_and!; try done; [|by apply Hr].
  apply redeem_created. destruct Hsetup as (_ & Hus & _). by apply (Forall_lookup_1 _ _ i u Hus).
Qed.

(** ** Concrete cosigners *)

Module MultisigExample.
Definition key (n : Z) : bytes := replicate 32 n.
Definition output (m : Z) (privs : list bytes) : mspend :=
  {| ms_txid := replicate 32 3; ms_vout := 1; ms_value := 7000; ms_m := m; ms_privs := privs |}.
Definition two_of_two : list mspend := [output 2 [key 5; key 6]].
Definition two_of_three : list mspend := [output 2 [key 5; key 6; key 8]].
Definition outs : list txout :=
  [{| valueSatoshis := 6000; scriptPubKey := p2shScriptPubKey (replicate 20 9) |}].

Lemma setup u : u = output 2 [key 5; key 6] ∨ u = output 2 [key 5; key 6; key 8] →
  @spend_setup Toy.prims [u] outs 0 [key 6; key 5].
Proof.
  intros Hu. split_and!; try done.
  - apply Forall_singleton. destruct Hu as [-> | ->]; split_and!; try done;
      apply Forall_replicate; unfold is_byte; lia.
  - apply Forall_singleton. split; vm_compute; [split|]; congruence.
  - apply Forall_singleton. vm_compute. repeat constructor; congruence.
  - apply Forall_cons_iff. split; [|apply Forall_singleton]; done.
  - apply Forall_singleton. destruct Hu as [-> | ->]; vm_compute; congruence.
Qed.
End MultisigExample.

Lemma multisig_spend_accepted_witness :
  ∃ p raw, sign_all (P := Toy.prims)
      (createMultisigProposal (ms_utxo (P := Toy.prims) <$> MultisigExample.two_of_two) MultisigExample.outs 0)
      [MultisigExample.key 6; MultisigExample.key 5] = Ok p ∧ finalizeMultisigTransaction p = Ok raw.
Proof.
  destruct (multisig_spend_accepted (P := Toy.prims) (PL := Toy.laws) MultisigExample.two_of_two MultisigExample.outs 0
    [MultisigExample.key 6; MultisigExample.key 5]) as (p & raw & tx & H1 & H2 & _).
  - apply MultisigExample.setup. left. reflexivity.
  - apply Forall_singleton. vm_compute. lia.
  - exists p, raw. split; [exact H1|exact H2].
Defined.

Lemma multisig_spend_rejected_witness :
  ∃ p raw, sign_all (P := Toy.prims)
      (createMultisigProposal (ms_utxo (P := Toy.prims) <$> MultisigExample.two_of_three) MultisigExample.outs 0)
      [MultisigExample.key 6; MultisigExample.key 5] = Ok p ∧ finalizeMultisigTransaction p = Ok raw.
Proof.
  destruct (multisig_spend_rejected (P := Toy.prims) (PL := Toy.laws) MultisigExample.two_of_three MultisigExample.outs 0
    [MultisigExample.key 6; MultisigExample.key 5] 0 (MultisigExample.output 2
      [MultisigExample.key 5; MultisigExample.key 6; MultisigExample.key 8])) as (p & raw & tx & inp & H1 & H2 & _).
  - apply MultisigExample.setup. right. reflexivity.
  - reflexivity.
  - vm_compute. lia.
  - exists p, raw. split; [exact H1|exact H2].
Defined.
