(* ===== verification/MultisigThreshold.v ===== *)
(** * A multisig threshold that is not a number

    The multisig screen passes [parseInt(field, 10)] to
    [createMultisigRedeemScript] (web-wallet/crypto.js 381-391).  For a field that
    does not begin with a number that is [NaN], which passes the range tests. *)

From S2P Require Import Prelude JsString Hex Primitives Base58 Address NodeTx NodeScript ScriptLemmas TxCodec Der Signing Multisig MultisigSpend.

(** [createMultisigRedeemScript(m, pubkeys)] for what [parseInt] returned.  [NaN]
    passes both range tests, and as a byte it is 0. *)
Definition redeem_script_of (m : option Z) (pubkeys : list bytes) : result bytes :=
  match m with
  | Some m => createMultisigRedeemScript m pubkeys
  | None =>
      let n := Z.of_nat (length pubkeys) in
      if 16 <? n then Throw (ExError "at most 16 pubkeys supported (OP_N range)") else
      parts ← mapR pubkey_parts pubkeys;
      op_n ← opN n;
      concatBytes ([u8_of [0]] ++ mjoin parts ++ [u8_of [op_n; OP_CHECKMULTISIG_JS]])
  end.

Section zero.
  Context {PR : Primitives} {PL : PrimitiveLaws}.

(** OP_0, the keys, OP_n, OP_CHECKMULTISIG. *)
Definition zero_items (pks : list bytes) : list item :=
  (Push <$> [] :: pks) ++ [Op (0x50 + Z.of_nat (length pks)); Op OP_CHECKMULTISIG].

Lemma redeem_script_nan pks :
  1 <= Z.of_nat (length pks) <= 16 → Forall compressed pks →
  redeem_script_of None pks = Ok (assemble (zero_items pks)).
Proof.
  intros Hn Hc. unfold redeem_script_of, opN. destruct (Z.ltb_spec 16 (Z.of_nat (length pks))); [lia|].
  rewrite (proj2 (pubkey_parts_ok pks _) (conj Hc eq_refl)).
  destruct (Z.ltb_spec (Z.of_nat (length pks)) 1); [lia|]. cbn [orb mbind result_bind].
  rewrite concatBytes_join, !mjoin_app, pushes_join by done. f_equal.
  unfold zero_items. rewrite fmap_cons. cbn [app]. rewrite assemble_cons, assemble_app.
  rewrite !u8_of_bytes by (repeat constructor; unfold is_byte, OP_CHECKMULTISIG_JS; lia). done.
Qed.

Lemma zero_length pks : Forall compressed pks → length (assemble (zero_items pks)) = (3 + 34 * length pks)%nat.
Proof.
  intros Hc. rewrite <- (redeem_length 0 pks Hc). unfold zero_items, redeem_items.
  rewrite fmap_cons. cbn [app]. by rewrite !assemble_cons, !length_app.
Qed.

Lemma eval_zero tx i pks :
  1 <= Z.of_nat (length pks) <= 16 → Forall compressed pks →
  EvalScript tx i [[]] (assemble (zero_items pks)) = Ok [[1]].
Proof.
  intros Hn Hc. unfold EvalScript. pose proof (zero_length pks Hc) as Hlen.
  destruct (Z.ltb_spec MAX_SCRIPT_SIZE (Z.of_nat (length (assemble (zero_items pks)))));
    [unfold MAX_SCRIPT_SIZE in *; lia|].
  set (script := assemble (zero_items pks)) at 2. clearbody script.
  assert (Hf0 : (length (assemble (zero_items pks)) <= length (assemble (zero_items pks)))%nat) by lia.
  revert Hf0. generalize (length (assemble (zero_items pks))) at 2 3. unfold zero_items at 1 2. intros f0 Hf0.
  destruct (eval_loop_pushes tx i ([] :: pks) [Op (0x50 + Z.of_nat (length pks)); Op OP_CHECKMULTISIG] f0 script 0
    [[]]) as (f2 & Hf2 & ->);
    [| |exact Hf0|].
  { apply Forall_cons_iff. split; [by right|]. eapply Forall_impl; [|exact Hc]. unfold compressed. intros pk E.
    left. rewrite E. unfold MAX_SCRIPT_ELEMENT_SIZE. lia. }
  { cbn [length]. unfold MAX_STACK_SIZE. lia. }
  edestruct (eval_loop_cons tx i f2 script) as (f3 & Hf3 & ->);
    [apply small_op_ok; unfold small_op, OP_1, OP_16; lia|done|].
  rewrite eval_small_op; [|lia|unfold MAX_OPS_PER_SCRIPT; lia|].
  2:{ rewrite length_app, length_rev. cbn [length]. unfold MAX_STACK_SIZE. lia. }
  cbn [mbind result_bind].
  edestruct (eval_loop_cons tx i f3 script) as (f4 & Hf4 & ->); [|exact Hf3|]; [done|].
  rewrite (eval_opcode tx i script OP_CHECKMULTISIG _ _ _ (1 + Z.of_nat (length pks)) [[1]]);
    [by destruct f4| |done..|unfold MAX_STACK_SIZE; simpl; lia].
  cbn [rev]. rewrite <- app_assoc. cbn -[eval_checkmultisig num_push rev].
  unfold eval_checkmultisig, num_push. rewrite small_num by lia. cbn [mbind result_bind].
  destruct (Z.ltb_spec (Z.of_nat (length pks)) 0); [lia|].
  destruct (Z.ltb_spec MAX_PUBKEYS_PER_MULTISIG (Z.of_nat (length pks))); [unfold MAX_PUBKEYS_PER_MULTISIG in *; lia|].
  destruct (Z.ltb_spec MAX_OPS_PER_SCRIPT (0 + 1 + Z.of_nat (length pks))); [unfold MAX_OPS_PER_SCRIPT in *; lia|].
  cbn [orb]. rewrite Nat2Z.id. rewrite take_app_length', drop_app_length' by (by rewrite length_rev).
  change (scriptnum_value []) with (Ok 0). cbn [mbind result_bind].
  destruct (Z.ltb_spec (Z.of_nat (length pks)) 0); [lia|]. by destruct (rev pks).
Qed.

Lemma zero_not_witness pks :
  Forall compressed pks → pks ≠ [] → IsWitnessProgram (assemble (zero_items pks)) = false.
Proof.
  intros Hc Hne. unfold IsWitnessProgram. rewrite zero_length by done.
  destruct pks as [|pk pks]; [done|]. apply Forall_cons_iff in Hc as [Hpk _].
  unfold zero_items. rewrite !fmap_cons. cbn [app]. rewrite !assemble_cons. cbn [item_bytes app].
  rewrite (push_compressed pk) by done. cbn [push_script app]. change (at_ _ 1) with 33. cbn [length].
  destruct (Z.eqb_spec (33 + 2) (Z.of_nat (3 + 34 * S (length pks)))); [lia|]. apply andb_false_r.
Qed.

Lemma verify_zero tx i pks :
  1 <= Z.of_nat (length pks) <= 15 → Forall compressed pks →
  let rs := assemble (zero_items pks) in
  VerifyScript tx i (assemble (unlock_items [] rs)) (p2shScriptPubKey (hash160 rs)) [] = Ok tt.
Proof.
  intros Hn Hc rs. pose proof (zero_length pks Hc) as Hlen. fold rs in Hlen.
  assert (Hmin : Forall push_minimal [[]; rs]).
  { apply Forall_cons_iff. split; [by right|]. apply Forall_singleton. left. unfold MAX_SCRIPT_ELEMENT_SIZE. lia. }
  unfold VerifyScript, unlock_items. cbn [fmap list_fmap app]. change [Push []; Push rs] with (Push <$> [[]; rs]).
  rewrite eval_pushes; [|done|simpl; lia]. cbn [mbind result_bind rev app].
  rewrite eval_p2sh by (simpl; lia).
  cbn [mbind result_bind eval_true]. change (CastToBool [1]) with true. cbn [mbind result_bind].
  destruct (p2sh_shape (hash160 rs)) as [-> ->]; [apply ripemd160_length|apply ripemd160_bytes|].
  unfold IsPushOnly. rewrite push_only_items by (done || lia). cbn [negb].
  unfold rs. rewrite eval_zero by (done || lia).
  cbn [mbind result_bind eval_true]. change (CastToBool [1]) with true. cbn [mbind result_bind].
  rewrite zero_not_witness; [done|done|]. intros ->. simpl in Hn. lia.
Qed.

Lemma finalize_zero i pks :
  1 <= Z.of_nat (length pks) <= 2 → Forall compressed pks →
  let rs := assemble (zero_items pks) in
  finalize_scriptSig i rs (Some ∅) = Ok (assemble (unlock_items [] rs)).
Proof.
  intros Hn Hc rs. pose proof (zero_length pks Hc) as Hlen. fold rs in Hlen.
  assert (Hfirst : rs !! 0%nat = Some 0) by done. clearbody rs. unfold finalize_scriptSig. change (bool_decide (Some ∅ = None)) with false.
  cbn [andb throw_if mbind result_bind].
  assert (E : ∀ l, ordered_sigs (default ∅ (Some ∅)) l = []) by (by induction l).
  rewrite E, Hfirst. cbn -[concatBytes u8_of varInt len].
  rewrite concatBytes_join. f_equal. unfold unlock_items, assemble.
  cbn [fmap list_fmap item_bytes mjoin list_join app]. rewrite !app_nil_r.
  unfold push_script, varInt, len. rewrite Hlen. 
  destruct (Z.ltb_spec (Z.of_nat (3 + 34 * length pks)) OP_PUSHDATA1); [|unfold OP_PUSHDATA1 in *; lia].
  destruct (Z.ltb_spec (Z.of_nat (3 + 34 * length pks)) 0xfd); [|lia].
  rewrite !u8_of_bytes by (repeat constructor; unfold is_byte; lia).
  change (js_slice (@nil string) 0 (0 - 80)) with (@nil string). cbn. by rewrite app_nil_r.
Qed.

(** A threshold that is not a number makes a redeem script that needs no signature:
    for up to 15 keys (with 16 the script is too long to be spent at all) it is
    accepted, in any transaction, after a scriptSig that holds no signature; with one
    or two keys that is the scriptSig the wallet's own [finalizeMultisigTransaction]
    builds from a proposal nobody signed. *)
Lemma nan_threshold_anyone_spends pks :
  1 <= Z.of_nat (length pks) <= 15 → Forall compressed pks →
  ∃ rs, redeem_script_of None pks = Ok rs ∧
    (∀ tx i, VerifyScript tx i (assemble (unlock_items [] rs)) (p2shScriptPubKey (hash160 rs)) [] = Ok tt) ∧
    ((length pks <= 2)%nat → ∀ i, finalize_scriptSig i rs (Some ∅) = Ok (assemble (unlock_items [] rs))).
Proof.
  intros Hn Hc. exists (assemble (zero_items pks)). split_and!.
  - apply redeem_script_nan; [lia|done].
  - intros tx i. by apply verify_zero.
  - intros H2 i. apply finalize_zero; [lia|done].
Qed.
End zero.
