(* ===== verification/BumpFee.v ===== *)
(** * Fee bumping

    [buildBumpFeeTransaction] (web-wallet/crypto.js 513-550): the replacement of
    a recorded payment spends the same inputs and takes the higher fee from the
    change output.  Amounts are JavaScript numbers holding integers, and their
    differences are rounded to such numbers. *)

From S2P Require Import Prelude JsString JsNum Hex Primitives Base58 Address NodeTx NodeScript TxCodec Der Signing.

Record sent_input := { si_txid : string; si_vout : Z; si_valueSatoshis : Z }.
Record sent_output := { so_scriptPubKeyHex : string; so_valueSatoshis : Z; so_isChange : bool }.

(** The part of a record of the sent-transaction log that is used here. *)
Record sent_record := { r_inputs : list sent_input; r_outputs : list sent_output; r_feeSatoshis : Z }.

(** [xs.findIndex(p)], [-1] when there is none. *)
Fixpoint find_index {A} (p : A → bool) (l : list A) : option nat :=
  match l with
  | [] => None
  | x :: l => if p x then Some O else S <$> find_index p l
  end.

(** [a - b], for numbers that hold integers. *)
Definition js_sub (a b : Z) : Z := to_number (a - b).

Section bump.
Context {P : Primitives}.

Definition bump_input (inputKeys : list keypair) (i : nat) (inp : sent_input) : result spend :=
  match inputKeys !! i with
  | None => Throw (ExType "Cannot read properties of undefined (reading 'publicKeyCompressed')")
  | Some kp =>
      Ok {| u_txid := rev (hexToBytes (si_txid inp)); u_vout := si_vout inp; u_value := si_valueSatoshis inp;
            u_pubkeyHash := hash160 (publicKey kp); u_privateKey := Some (privateKey kp);
            u_publicKey := Some (publicKey kp); u_sequence := None |}
  end.

Definition bump_output (changeOutputIndex : nat) (newChangeValue : Z) (i : nat) (o : sent_output) : sent_output :=
  if bool_decide (i = changeOutputIndex) then
    {| so_scriptPubKeyHex := so_scriptPubKeyHex o; so_valueSatoshis := newChangeValue; so_isChange := so_isChange o |}
  else o.

Definition sent_txout (o : sent_output) : txout :=
  {| valueSatoshis := so_valueSatoshis o; scriptPubKey := hexToBytes (so_scriptPubKeyHex o) |}.

(** The raw transaction and the outputs of the new record. *)
Definition buildBumpFeeTransaction (record : sent_record) (newFeeSatoshis : Z) (inputKeys : list keypair)
    : result (bytes * list sent_output) :=
  match find_index so_isChange (r_outputs record) with
  | None => Throw (ExError "This transaction has no change output to reduce -- can't bump its fee automatically here.")
  | Some changeOutputIndex =>
      let feeIncrease := js_sub newFeeSatoshis (r_feeSatoshis record) in
      match r_outputs record !! changeOutputIndex with
      | None => Throw (ExType "changeOutput is undefined")
      | Some changeOutput =>
          let newChangeValue := js_sub (so_valueSatoshis changeOutput) feeIncrease in
          if newChangeValue <=? 0 then Throw (ExError "Not enough change left to cover a higher fee.") else
          inputs ← mapR (λ ii, bump_input inputKeys ii.1 ii.2)
                     (zip (seq 0 (length (r_inputs record))) (r_inputs record));
          let newOutputs := imap (bump_output changeOutputIndex newChangeValue) (r_outputs record) in
          rawTx ← buildAndSignTransaction inputs (sent_txout <$> newOutputs) None None 0;
          mret (rawTx, newOutputs)
      end
  end.
End bump.

(** ** Lemmas *)

Lemma find_index_Some {A} (p : A → bool) l i :
  find_index p l = Some i → ∃ x, l !! i = Some x ∧ p x = true.
Proof.
  revert i. induction l as [|x l IH]; intros i; simpl; [done|]. destruct (p x) eqn:E.
  - intros [= <-]. by exists x.
  - destruct (find_index p l) as [j|]; [|done]. intros [= <-]. apply (IH j eq_refl).
Qed.

(** Up to 2^53 nothing is rounded. *)
Lemma js_sub_small a b : - 2 ^ 53 <= a - b <= 2 ^ 53 → js_sub a b = a - b.
Proof. apply to_number_small. Qed.

Definition total (outs : list sent_output) : Z := foldr (λ o acc, so_valueSatoshis o + acc) 0 outs.

Lemma total_bump i v outs o :
  outs !! i = Some o → total (imap (bump_output i v) outs) = total outs - so_valueSatoshis o + v.
Proof.
  revert i. induction outs as [|x outs IH]; intros [|i] Hi; cbn in Hi; [done|done| |].
  - simplify_eq. rewrite imap_cons. cbn [total foldr]. change (foldr _ 0 ?l) with (total l).
    assert (E : imap (bump_output 0 v ∘ S) outs = outs).
    { apply list_eq. intros j. rewrite list_lookup_imap. by destruct (outs !! j). }
    rewrite E. unfold bump_output. rewrite bool_decide_eq_true_2 by done. cbn [so_valueSatoshis]. lia.
  - rewrite imap_cons. cbn [total foldr]. change (foldr _ 0 ?l) with (total l).
    assert (E : imap (bump_output (S i) v ∘ S) outs = imap (bump_output i v) outs).
    { apply imap_ext. intros j y _. unfold compose, bump_output. repeat case_bool_decide; done || lia. }
    rewrite E, (IH i Hi). unfold bump_output at 1. rewrite bool_decide_eq_false_2 by lia. lia.
Qed.

Lemma bump_inputs `{Primitives} keys (ins : list sent_input) j :
  (j + length ins <= length keys)%nat →
  ∃ us, mapR (λ ii, bump_input keys ii.1 ii.2) (zip (seq j (length ins)) ins) = Ok us ∧ length us = length ins ∧
    ∀ i inp, ins !! i = Some inp → ∃ kp, keys !! (j + i)%nat = Some kp ∧
      us !! i = Some {| u_txid := rev (hexToBytes (si_txid inp)); u_vout := si_vout inp;
        u_value := si_valueSatoshis inp; u_pubkeyHash := hash160 (publicKey kp);
        u_privateKey := Some (privateKey kp); u_publicKey := Some (publicKey kp); u_sequence := None |}.
Proof.
  revert j. induction ins as [|inp ins IH]; intros j Hl; [by exists []|].
  destruct (lookup_lt_is_Some_2 keys j) as [kp Hkp]; [simpl in Hl; lia|].
  destruct (IH (S j)) as (us & E & Hlen & Hlook); [simpl in Hl; lia|].
  cbn [length seq zip zip_with mapR fst snd].
  assert (E1 : bump_input keys j inp = Ok {| u_txid := rev (hexToBytes (si_txid inp)); u_vout := si_vout inp;
        u_value := si_valueSatoshis inp; u_pubkeyHash := hash160 (publicKey kp);
        u_privateKey := Some (privateKey kp); u_publicKey := Some (publicKey kp); u_sequence := None |}).
  { unfold bump_input. by rewrite Hkp. }
  rewrite E1. cbn [mbind result_bind]. rewrite E. eexists. split; [reflexivity|].
  split; [simpl; by rewrite Hlen|]. intros [|i] inp' Hi; cbn in Hi.
  - simplify_eq. exists kp. rewrite Nat.add_0_r. done.
  - rewrite <- Nat.add_succ_comm. by apply Hlook.
Qed.

(** ** Theorems *)

(** Every way a bump can be refused before anything is signed. *)
Theorem bump_refused `{Primitives} (record : sent_record) (newFee : Z) (keys : list keypair) :
  (find_index so_isChange (r_outputs record) = None →
     ∃ msg, buildBumpFeeTransaction record newFee keys = Throw (ExError msg)) ∧
  (∀ i o, find_index so_isChange (r_outputs record) = Some i → r_outputs record !! i = Some o →
     js_sub (so_valueSatoshis o) (js_sub newFee (r_feeSatoshis record)) <= 0 →
     ∃ msg, buildBumpFeeTransaction record newFee keys = Throw (ExError msg)).
Proof.
  unfold buildBumpFeeTransaction. split.
  - intros ->. by eexists.
  - intros i o -> -> Hle%Z.leb_le. rewrite Hle. by eexists.
Qed.

Section accepted.
Context {P : Primitives} {PL : PrimitiveLaws}.

Definition sent_output_ok (o : sent_output) : Prop := txout_ok (sent_txout o).

(** A key of the wallet that can sign for an input of the record. *)
Definition bump_key_ok (kp : keypair) : Prop :=
  publicKey kp = secp_public (privateKey kp) ∧ (∀ h, is_ok (secp_sign h (privateKey kp)) = true) ∧
  ∀ sig, sig_bytes sig ≠ hash160 (publicKey kp).

Definition sent_input_ok (inp : sent_input) : Prop :=
  length (hexToBytes (si_txid inp)) = 32%nat ∧ 0 <= si_vout inp < 2 ^ 32.

Lemma bumped_outputs_ok i v outs o :
  Forall sent_output_ok outs → outs !! i = Some o → 0 <= v < 2 ^ 63 →
  Forall txout_ok (sent_txout <$> imap (bump_output i v) outs).
Proof.
  intros Ho Hi Hv. apply Forall_fmap, Forall_lookup. intros j x. rewrite list_lookup_imap.
  destruct (outs !! j) as [y|] eqn:Ey; [|done]. intros [= <-].
  pose proof (Forall_lookup_1 _ _ _ _ Ho Ey) as [H1 H2]. unfold compose, bump_output.
  case_bool_decide; [|done]. split; [done|exact H2].
Qed.

Lemma bump_spends_ok keys ins us :
  (∀ i inp, ins !! i = Some inp → ∃ kp, keys !! i = Some kp ∧
      us !! i = Some {| u_txid := rev (hexToBytes (si_txid inp)); u_vout := si_vout inp;
        u_value := si_valueSatoshis inp; u_pubkeyHash := hash160 (publicKey kp);
        u_privateKey := Some (privateKey kp); u_publicKey := Some (publicKey kp); u_sequence := None |}) →
  length us = length ins → Forall sent_input_ok ins → Forall bump_key_ok keys →
  Forall (spend_ok None None) us.
Proof.
  intros Hlook Hlen Hin Hk. apply Forall_lookup. intros i u Hu.
  destruct (lookup_lt_is_Some_2 ins i) as [inp Hi]; [rewrite <- Hlen; by eapply lookup_lt_Some|].
  destruct (Hlook i inp Hi) as (kp & Hkp & E). rewrite Hu in E. injection E as ->.
  pose proof (Forall_lookup_1 _ _ _ _ Hin Hi) as [H1 H2].
  pose proof (Forall_lookup_1 _ _ _ _ Hk Hkp) as (K1 & K2 & K3).
  exists (privateKey kp). cbn [u_txid u_vout u_pubkeyHash u_privateKey u_publicKey u_sequence or_else default].
  rewrite length_rev, K1 in *. split_and!; try done; lia.
Qed.
End accepted.

Definition value_in (ins : list sent_input) : Z := foldr (λ i acc, si_valueSatoshis i + acc) 0 ins.

(** C18. A bump pays exactly the new fee and is accepted by the node: the same
    outpoints are spent, only the change output changes, outputs and new fee add
    up to the inputs, and every input passes [VerifyScript] under the key given
    for it, with a sequence number that still allows replacement.  The fees and the
    change are at most 2^53 satoshis, what a JavaScript number counts exactly. *)
Theorem bump_accepted {P : Primitives} {PL : PrimitiveLaws}
    (record : sent_record) (newFee : Z) (keys : list keypair) (i : nat) (o : sent_output)
    (Hi : find_index so_isChange (r_outputs record) = Some i) (Ho : r_outputs record !! i = Some o)
    (Henough : newFee - r_feeSatoshis record < so_valueSatoshis o) (Hraise : 0 <= r_feeSatoshis record <= newFee)
    (Hsafe : newFee <= 2 ^ 53 ∧ so_valueSatoshis o <= 2 ^ 53)
    (Hbalance : value_in (r_inputs record) = total (r_outputs record) + r_feeSatoshis record)
    (Hne : r_inputs record ≠ []) (Hin : Forall sent_input_ok (r_inputs record))
    (Hout : Forall sent_output_ok (r_outputs record)) (Hk : Forall bump_key_ok keys)
    (Hlen : length keys = length (r_inputs record))
    (Hn1 : Z.of_nat (length (r_inputs record)) <= MAX_SIZE)
    (Hn2 : Z.of_nat (length (r_outputs record)) <= MAX_SIZE) :
  ∃ raw newOutputs tx,
    buildBumpFeeTransaction record newFee keys = Ok (raw, newOutputs) ∧
    value_in (r_inputs record) = total newOutputs + newFee ∧
    length newOutputs = length (r_outputs record) ∧
    (∀ j, j ≠ i → newOutputs !! j = r_outputs record !! j) ∧
    UnserializeTransaction true raw = Ok (tx, []) ∧
    vout tx = node_out <$> (sent_txout <$> newOutputs) ∧
    ∀ j inp kp, r_inputs record !! j = Some inp → keys !! j = Some kp → ∃ txin, vin tx !! j = Some txin ∧
      prevout txin = {| op_hash := rev (hexToBytes (si_txid inp)); op_n := si_vout inp |} ∧
      nSequence txin = 0xfffffffd ∧
      VerifyScript tx j (txin_scriptSig txin) (p2pkhScriptPubKey (hash160 (publicKey kp))) (scriptWitness txin) = Ok tt.
Proof.
  set (v := so_valueSatoshis o - (newFee - r_feeSatoshis record)).
  assert (Hv : 0 < v < 2 ^ 63).
  { pose proof (Forall_lookup_1 _ _ _ _ Hout Ho) as [[? ?] _]. cbn in *. lia. }
  assert (Ev : js_sub (so_valueSatoshis o) (js_sub newFee (r_feeSatoshis record)) = v) by (rewrite (js_sub_small newFee) by lia; apply js_sub_small; fold v; lia).
  destruct (bump_inputs keys (r_inputs record) 0) as (us & Eus & Hul & Hus); [lia|].
  destruct (buildAndSign_accepted_aux us (sent_txout <$> imap (bump_output i v) (r_outputs record)) None None 0)
    as (raw & tx & Eraw & Hread & _ & _ & Hvout & _ & Hvin).
  - intros ->. by destruct (r_inputs record).
  - by eapply bump_spends_ok.
  - eapply bumped_outputs_ok; [done|done|lia].
  - lia.
  - lia.
  - by rewrite length_fmap, length_imap.
  - exists raw, (imap (bump_output i v) (r_outputs record)), tx. split_and!.
    + unfold buildBumpFeeTransaction. rewrite Hi, Ho. cbv zeta. rewrite Ev. destruct (Z.leb_spec v 0); [lia|].
      rewrite Eus. cbn [mbind result_bind]. by rewrite Eraw.
    + rewrite (total_bump i v _ o Ho). unfold v. lia.
    + apply length_imap.
    + intros j Hj. rewrite list_lookup_imap. destruct (r_outputs record !! j); [|done]. cbn.
      unfold bump_output. by rewrite bool_decide_eq_false_2.
    + done.
    + done.
    + intros j inp kp Hj Hkp. destruct (Hus j inp Hj) as (kp' & Hkp' & Eu). simpl in Hkp'.
      rewrite Hkp in Hkp'. injection Hkp' as <-. by destruct (Hvin j _ Eu) as (t & H1 & H2 & H3 & H4); exists t.
Qed.

(** ** A concrete record *)

Module BumpExample.
Import Toy.
Definition kp : keypair := {| privateKey := replicate 32 7; publicKey := secp_public (replicate 32 7) |}.
Definition record : sent_record :=
  {| r_inputs := [{| si_txid := bytesToHex (replicate 32 1); si_vout := 0; si_valueSatoshis := 10000 |}];
     r_outputs := [{| so_scriptPubKeyHex := "00"; so_valueSatoshis := 6000; so_isChange := false |};
                   {| so_scriptPubKeyHex := "51"; so_valueSatoshis := 3500; so_isChange := true |}];
     r_feeSatoshis := 500 |}.
(** Change of 2^53 + 4 satoshis. *)
Definition large : sent_record :=
  {| r_inputs := [{| si_txid := bytesToHex (replicate 32 1); si_vout := 0; si_valueSatoshis := 2 ^ 53 + 504 |}];
     r_outputs := [{| so_scriptPubKeyHex := "51"; so_valueSatoshis := 2 ^ 53 + 4; so_isChange := true |}];
     r_feeSatoshis := 500 |}.
End BumpExample.

(** Above 2^53 satoshis the change is rounded, and the fee paid is another one than
    the one asked for. *)
Theorem bump_rounds : ∃ raw newOutputs,
  buildBumpFeeTransaction (P := Toy.prims) BumpExample.large 501 [BumpExample.kp] = Ok (raw, newOutputs) ∧
  value_in (r_inputs BumpExample.large) = total BumpExample.large.(r_outputs) + 500 ∧
  value_in (r_inputs BumpExample.large) = total newOutputs + 500.
Proof. eexists _, _. split; [vm_compute; reflexivity|]. split; vm_compute; reflexivity. Qed.

Lemma bump_accepted_witness :
  ∃ raw newOutputs, buildBumpFeeTransaction (P := Toy.prims) BumpExample.record 1500 [BumpExample.kp] = Ok (raw, newOutputs) ∧
    10000 = total newOutputs + 1500.
Proof.
  destruct (bump_accepted (P := Toy.prims) (PL := Toy.laws) BumpExample.record 1500 [BumpExample.kp] 1
    {| so_scriptPubKeyHex := "51"; so_valueSatoshis := 3500; so_isChange := true |})
    as (raw & newOutputs & tx & H1 & H2 & _); try reflexivity.
  - split; vm_compute; discriminate.
  - split; vm_compute; discriminate.
  - discriminate.
  - apply Forall_singleton. split; [reflexivity|]. vm_compute. split; congruence.
  - apply Forall_cons_iff. split; [|apply Forall_singleton]; (split; [vm_compute; split; congruence|vm_compute; congruence]).
  - apply Forall_singleton. split; [reflexivity|]. split; [reflexivity|].
    intros sig. apply sig_bytes_ne. vm_compute. congruence.
  - vm_compute. congruence.
  - vm_compute. congruence.
  - exists raw, newOutputs. split; [exact H1|exact H2].
Defined.
