(* ===== verification/Message.v ===== *)
(** * Signed messages

    web-wallet/message.js: the preimage of a signed message, Base64, signing and
    verification, next to the node's own [MessageHash] and [RecoverCompact]
    (codexacoin-core/src/util/message.cpp, pubkey.cpp).  [btoa] and [atob] are
    the browser's functions; a binary string is the list of its code units. *)

From S2P Require Import Prelude JsString Hex Primitives Base58 Address NodeTx TxCodec.

(** ** Base64 *)

Definition B64_ALPHABET : list ascii :=
  chars "ABCDEFGHIJKLMNOPQRSTUVWXYZabcdefghijklmnopqrstuvwxyz0123456789+/".
Definition b64_char (n : Z) : ascii := default "A"%char (B64_ALPHABET !! Z.to_nat n).
Definition b64_val (c : ascii) : Z := index_of c B64_ALPHABET.

(** [btoa(binary)]: three code units to four characters, padded with [=]. *)
Fixpoint btoa (l : bytes) : list ascii :=
  match l with
  | a :: b :: c :: l =>
      b64_char (a / 4) :: b64_char (a mod 4 * 16 + b / 16) :: b64_char (b mod 16 * 4 + c / 64) ::
      b64_char (c mod 64) :: btoa l
  | [a; b] => [b64_char (a / 4); b64_char (a mod 4 * 16 + b / 16); b64_char (b mod 16 * 4); "="%char]
  | [a] => [b64_char (a / 4); b64_char (a mod 4 * 16); "="%char; "="%char]
  | [] => []
  end.

(** Four six-bit values to three bytes; what is left over is cut. *)
Fixpoint unsextets (l : list Z) : bytes :=
  match l with
  | a :: b :: c :: d :: l => (a * 4 + b / 16) :: (b mod 16 * 16 + c / 4) :: (c mod 4 * 64 + d) :: unsextets l
  | [a; b; c] => [a * 4 + b / 16; b mod 16 * 16 + c / 4]
  | [a; b] => [a * 4 + b / 16]
  | _ => []
  end.

(** At most two trailing [=] of a text whose length is a multiple of four. *)
Definition strip_padding (l : list ascii) : list ascii :=
  if (length l mod 4 =? 0)%nat then
    match rev l with
    | a :: b :: _ =>
        if Ascii.eqb a "=" then
          if Ascii.eqb b "=" then take (length l - 2) l else take (length l - 1) l
        else l
    | _ => l
    end
  else l.

(** [atob(data)] *)
Definition atob (s : string) : result bytes :=
  let l := strip_padding (filter (λ c, is_space c = false) (chars s)) in
  if (length l mod 4 =? 1)%nat || existsb (λ c, b64_val c <? 0) l
  then Throw (ExHost "InvalidCharacterError" "The string to be decoded is not correctly encoded.")
  else Ok (unsextets (b64_val <$> l)).

Definition base64Encode (bs : bytes) : string := of_chars (btoa bs).
Definition base64Decode (str : string) : result bytes :=
  binary ← atob str; Ok (u8_of binary).

(** ** Messages *)

(** [encoder.encode(s)]: strings are their UTF-8 bytes. *)
Definition encode_utf8 (s : string) : bytes := code <$> chars s.

(** ["CodexaCoin Signed Message:\n"] *)
Definition MESSAGE_MAGIC : string := "CodexaCoin Signed Message:" +:+ of_chars [chr 10].

Section message.
Context {P : Primitives}.

Definition messageHash (message : string) : result bytes :=
  let magicBytes := encode_utf8 MESSAGE_MAGIC in
  let msgBytes := encode_utf8 message in
  preimage ← concatBytes [varInt (len magicBytes); magicBytes; varInt (len msgBytes); msgBytes];
  mret (sha256 (sha256 preimage)).

Definition signMessage (privateKey : bytes) (message : string) : result string :=
  hash ← messageHash message;
  sig ← secp_sign hash privateKey;
  let header := 27 + sig_recovery sig + 4 in
  raw ← concatBytes [u8_of [header]; compact_bytes sig];
  mret (base64Encode raw).

(** The body after the address has been decoded. *)
Definition verify_signature (hash160_expected : bytes) (signatureBase64 message : string) : result bool :=
  match base64Decode (js_trim signatureBase64) with
  | Throw _ => Throw (ExError "Malformed signature (not valid base64)")
  | Ok sigBytes =>
      if negb (length sigBytes =? 65)%nat then Throw (ExError "Malformed signature (wrong length)") else
      let header := default 0 (sigBytes !! 0%nat) in
      if (header <? 27) || (42 <? header) then Throw (ExError "Malformed signature (bad header byte)") else
      let recovery := js_and (header - 27) 3 in
      hash ← messageHash message;
      match secp_recover (js_slice_from sigBytes 1) recovery hash with
      | Throw _ => Ok false
      | Ok pubkey => Ok (String.eqb (bytesToHex (hash160 pubkey)) (bytesToHex hash160_expected))
      end
  end.

Definition verifyMessage (address signatureBase64 message : string) (net : network) : result bool :=
  decoded ← decodeAddress address net;
  if negb (bool_decide (d_type decoded = P2pkh))
  then Throw (ExError "Only P2PKH addresses support message signing/verification")
  else verify_signature (d_hash decoded) signatureBase64 message.

(** ** The node's side *)

(** [HashWriter << std::string]: compact size, then the bytes. *)
Definition MessageHash (message : string) : bytes :=
  doubleSha256 (write_script (encode_utf8 MESSAGE_MAGIC) ++ write_script (encode_utf8 message)).

(** [CPubKey::RecoverCompact]: the third bit of the header selects the
    compressed form; [uncompressed] is libsecp256k1's other serialization of a
    key. *)
Definition RecoverCompact (uncompressed : bytes → bytes) (hash vchSig : bytes) : result bytes :=
  if negb (length vchSig =? 65)%nat then Throw (ExError "ERR_PUBKEY_NOT_RECOVERED") else
  let recid := Z.land (at_ vchSig 0 - 27) 3 in
  let fComp := negb (Z.land (at_ vchSig 0 - 27) 4 =? 0) in
  pubkey ← secp_recover (drop 1 vchSig) recid hash;
  mret (if fComp then pubkey else uncompressed pubkey).
End message.

(** ** Base64 round trip *)

(** What the proofs need of the alphabet, checked on all its indices. *)
Definition b64_check (n : Z) : bool :=
  if n <? 64 then (b64_val (b64_char n) =? n) && (negb (is_space (b64_char n)) && negb (Ascii.eqb (b64_char n) "="))
  else true.

Lemma b64_all : forallb b64_check (Z.of_nat <$> seq 0 256) = true.
Proof. vm_compute. reflexivity. Qed.

#[local] Opaque b64_val b64_char.

Lemma b64_char_spec n :
  0 <= n < 64 → b64_val (b64_char n) = n ∧ is_space (b64_char n) = false ∧ b64_char n ≠ "="%char.
Proof.
  intros Hn. pose proof (byte_cases b64_check b64_all n ltac:(unfold is_byte; lia)) as H.
  unfold b64_check in H. rewrite (proj2 (Z.ltb_lt n 64)) in H by lia.
  apply andb_true_iff in H as [H0 H]. apply andb_true_iff in H as [H1 H2].
  apply Z.eqb_eq in H0. apply negb_true_iff in H1, H2. split_and!; try done. by apply Ascii.eqb_neq.
Qed.

(** The six-bit groups of a byte string. *)
Fixpoint sextets (l : bytes) : list Z :=
  match l with
  | a :: b :: c :: l => (a / 4) :: (a mod 4 * 16 + b / 16) :: (b mod 16 * 4 + c / 64) :: (c mod 64) :: sextets l
  | [a; b] => [a / 4; a mod 4 * 16 + b / 16; b mod 16 * 4]
  | [a] => [a / 4; a mod 4 * 16]
  | [] => []
  end.
Definition padding (l : bytes) : list ascii :=
  match (length l mod 3)%nat with O => [] | 1%nat => ["="%char; "="%char] | _ => ["="%char] end.

(** Induction three bytes at a time. *)
Lemma triples_ind (Q : bytes → Prop) :
  Q [] → (∀ a, Q [a]) → (∀ a b, Q [a; b]) → (∀ a b c l, Q l → Q (a :: b :: c :: l)) → ∀ l, Q l.
Proof.
  intros H0 H1 H2 H3. exact (fix IH l := match l with
    | [] => H0 | [a] => H1 a | [a; b] => H2 a b | a :: b :: c :: l => H3 a b c l (IH l) end).
Qed.

Lemma padding_step a b c l : padding (a :: b :: c :: l) = padding l.
Proof.
  unfold padding. cbn [length]. replace (S (S (S (length l)))) with (length l + 1 * 3)%nat by lia.
  by rewrite Nat.Div0.mod_add.
Qed.

Lemma btoa_sextets l : btoa l = (b64_char <$> sextets l) ++ padding l.
Proof.
  induction l as [| | |a b c l IH] using triples_ind; [done..|].
  rewrite padding_step. cbn [btoa sextets fmap list_fmap app]. by rewrite IH.
Qed.

Lemma sextets_range l : all_bytes l → Forall (λ n, 0 <= n < 64) (sextets l).
Proof.
  induction l as [|a|a b|a b c l IH] using triples_ind; intros H; cbn [sextets]; [constructor|..];
    unfold all_bytes in H; rewrite ?Forall_cons_iff in H; unfold is_byte in *.
  - destruct H as [H _]. repeat constructor; zdiv.
  - destruct H as (H1 & H2 & _). repeat constructor; zdiv.
  - destruct H as (H1 & H2 & H3 & H). rewrite !Forall_cons_iff. split_and!; try zdiv. by apply IH.
Qed.

Lemma unsextets_sextets l : all_bytes l → unsextets (sextets l) = l.
Proof.
  induction l as [|a|a b|a b c l IH] using triples_ind; intros H; cbn [sextets unsextets]; [done|..];
    unfold all_bytes in H; rewrite ?Forall_cons_iff in H; unfold is_byte in *.
  - destruct H as [H _]. f_equal. zdiv.
  - destruct H as (H1 & H2 & _). f_equal; [|f_equal]; zdiv.
  - destruct H as (H1 & H2 & H3 & H). rewrite IH by done. repeat f_equal; zdiv.
Qed.

Lemma sextets_length l : length (sextets l) = ((4 * length l + 2) / 3)%nat.
Proof.
  induction l as [| | |a b c l IH] using triples_ind; [done..|]. cbn [sextets length]. rewrite IH.
  replace (4 * S (S (S (length l))) + 2)%nat with (4 * length l + 2 + 4 * 3)%nat by lia.
  rewrite Nat.div_add by lia. lia.
Qed.

Lemma strip_padding_none l : (∀ c, c ∈ l → c ≠ "="%char) → strip_padding l = l.
Proof.
  intros H. unfold strip_padding. case_if; [|done]. destruct (rev l) as [|a [|b r]] eqn:Er; [done..|].
  destruct (Ascii.eqb_spec a "=") as [->|]; [|done]. exfalso. apply (H "="%char); [|done].
  rewrite <- (rev_involutive l), Er. cbn [rev]. apply elem_of_app. right. by apply list_elem_of_singleton.
Qed.

(** The padding brings the length to a multiple of four and is what is stripped. *)
Lemma strip_padding_btoa l :
  all_bytes l → strip_padding (btoa l) = b64_char <$> sextets l.
Proof.
  intros Hl. rewrite btoa_sextets. pose proof (sextets_length l) as Hs. pose proof (sextets_range l Hl) as Hr.
  assert (Hplain : ∀ c, c ∈ (b64_char <$> sextets l) → c ≠ "="%char).
  { intros c. rewrite list_elem_of_fmap. intros (n & -> & Hn). rewrite list.Forall_forall in Hr.
    by apply b64_char_spec, Hr. }
  set (body := b64_char <$> sextets l) in *.
  assert (Hb : length body = ((4 * length l + 2) / 3)%nat) by (unfold body; by rewrite length_fmap).
  unfold padding. pose proof (Nat.div_mod_eq (length l) 3) as Hd. set (q := (length l / 3)%nat) in *.
  destruct (length l mod 3)%nat as [|[|[|k]]] eqn:Em; [..|pose proof (Nat.mod_upper_bound (length l) 3); lia].
  - rewrite app_nil_r. by apply strip_padding_none.
  - assert (length body = 4 * q + 2)%nat.
    { rewrite Hb. symmetry. apply (Nat.div_unique _ _ _ 0); lia. }
    unfold strip_padding. rewrite length_app, H. cbn [length].
    replace (4 * q + 2 + 2)%nat with (0 + (q + 1) * 4)%nat by lia. rewrite Nat.Div0.mod_add. cbn [Nat.modulo Nat.divmod Nat.eqb].
    rewrite rev_app_distr. cbn [rev app Ascii.eqb Bool.eqb]. apply take_app_length'. lia.
  - assert (length body = 4 * q + 3)%nat.
    { rewrite Hb. symmetry. apply (Nat.div_unique _ _ _ 1); lia. }
    unfold strip_padding. rewrite length_app, H. cbn [length].
    replace (4 * q + 3 + 1)%nat with (0 + (q + 1) * 4)%nat by lia. rewrite Nat.Div0.mod_add. cbn [Nat.modulo Nat.divmod Nat.eqb].
    rewrite rev_app_distr. cbn [rev app].
    destruct (rev body) as [|b r] eqn:E.
    { apply (f_equal length) in E. rewrite length_rev in E. simpl in E. lia. }
    cbn [Ascii.eqb Bool.eqb]. destruct (Ascii.eqb_spec b "=") as [->|].
    + exfalso. apply (Hplain "="%char); [|done]. rewrite <- (rev_involutive body), E. cbn [rev].
      apply elem_of_app. right. by apply list_elem_of_singleton.
    + apply take_app_length'. lia.
Qed.

Lemma btoa_plain l c : all_bytes l → c ∈ btoa l → is_space c = false.
Proof.
  intros Hl. rewrite btoa_sextets. pose proof (sextets_range l Hl) as Hr. rewrite list.Forall_forall in Hr.
  rewrite elem_of_app, list_elem_of_fmap. intros [(n & -> & Hn)|Hc]; [by apply b64_char_spec, Hr|].
  unfold padding in Hc.
  destruct (length l mod 3)%nat as [|[|k]]; rewrite ?elem_of_cons, ?elem_of_nil in Hc;
    intuition (subst; done).
Qed.

Lemma b64_val_chars k : Forall (λ n, 0 <= n < 64) k → b64_val <$> (b64_char <$> k) = k.
Proof.
  induction 1 as [|n k Hn _ IH]; [done|]. rewrite !fmap_cons, IH.
  by destruct (b64_char_spec n Hn) as [-> _].
Qed.

Lemma base64_roundtrip_aux l : all_bytes l → base64Decode (base64Encode l) = Ok l.
Proof.
  intros Hl. unfold base64Decode, base64Encode, atob. rewrite chars_of_chars.
  rewrite filter_all by (intros c Hc; by eapply btoa_plain). rewrite strip_padding_btoa by done.
  pose proof (sextets_range l Hl) as Hr. rewrite length_fmap.
  assert (E1 : existsb (λ c, b64_val c <? 0) (b64_char <$> sextets l) = false).
  { induction Hr as [|n k Hn _ IH]; [done|]. rewrite fmap_cons. cbn [existsb]. rewrite IH.
    destruct (b64_char_spec n Hn) as [-> _]. destruct (Z.ltb_spec n 0); [lia|done]. }
  assert (E2 : (length (sextets l) mod 4 =? 1)%nat = false).
  { apply Nat.eqb_neq. rewrite sextets_length. clear. intros E.
    pose proof (Nat.div_mod_eq (length l) 3) as Hd. pose proof (Nat.mod_upper_bound (length l) 3).
    set (q := (length l / 3)%nat) in *. set (r := (length l mod 3)%nat) in *.
    replace (4 * length l + 2)%nat with ((4 * r + 2) + (4 * q) * 3)%nat in E by lia.
    rewrite Nat.div_add in E by lia. replace (4 * q)%nat with (q * 4)%nat in E by lia.
    rewrite Nat.Div0.mod_add in E. destruct r as [|[|[|r]]]; simpl in E; lia. }
  rewrite E1, E2. cbn [orb mbind result_bind]. f_equal.
  rewrite b64_val_chars, unsextets_sextets by done. by apply u8_of_bytes.
Qed.

Lemma trim_base64 l : all_bytes l → js_trim (base64Encode l) = base64Encode l.
Proof.
  intros Hl. apply trim_plain. unfold base64Encode. rewrite chars_of_chars.
  intros c Hc. by eapply btoa_plain.
Qed.

(** ** Signing and verifying *)

(** Recovery id and compression flag in the header byte. *)
Lemma header_bits r :
  0 <= r <= 3 →
  Z.land (31 + r - 27) 3 = r ∧ Z.land (31 + r - 27) 4 = 4 ∧
  Z.land (27 + r - 27) 3 = r ∧ Z.land (27 + r - 27) 4 = 0 ∧
  js_and (31 + r - 27) 3 = r ∧ js_and (27 + r - 27) 3 = r.
Proof. intros Hr. assert (r = 0 ∨ r = 1 ∨ r = 2 ∨ r = 3) as [-> | [-> | [-> | ->]]] by lia; done. Qed.

Section theorems.
Context {P : Primitives}.

Lemma messageHash_node_aux message : messageHash message = Ok (MessageHash message).
Proof.
  unfold messageHash, MessageHash, doubleSha256, write_script. rewrite concatBytes_join.
  cbn [mbind result_bind mret result_ret mjoin list_join]. unfold len.
  rewrite !varInt_WriteCompactSize, app_nil_r by lia. by rewrite <- app_assoc.
Qed.

Context {PL : PrimitiveLaws}.

Definition signature_bytes (sig : ecdsa_sig) : bytes := (31 + sig_recovery sig) :: compact_bytes sig.

Lemma signature_bytes_spec h k sig :
  secp_sign h k = Ok sig →
  all_bytes (signature_bytes sig) ∧ length (signature_bytes sig) = 65%nat ∧ 0 <= sig_recovery sig <= 3.
Proof.
  intros Hs. destruct (secp_sign_range h k sig Hs) as (_ & _ & Hr). unfold signature_bytes, compact_bytes. split_and!.
  - apply all_bytes_cons. split; [unfold is_byte; lia|]. apply all_bytes_app. auto with bytes.
  - cbn [length]. by rewrite length_app, !be_bytes_length.
  - lia.
  - lia.
Qed.

Lemma signMessage_ok k message sig :
  secp_sign (MessageHash message) k = Ok sig → signMessage k message = Ok (base64Encode (signature_bytes sig)).
Proof.
  intros Hs. unfold signMessage. rewrite messageHash_node_aux. cbn [mbind result_bind]. rewrite Hs.
  cbn [mbind result_bind]. rewrite concatBytes_join. cbn [mbind result_bind mret result_ret mjoin list_join].
  do 2 f_equal. rewrite app_nil_r. destruct (secp_sign_range _ _ _ Hs) as (_ & _ & Hr).
  rewrite u8_of_bytes by (repeat constructor; unfold is_byte; lia). unfold signature_bytes. cbn [app].
  f_equal. lia.
Qed.

Lemma verify_signature_ok k message sig h :
  secp_sign (MessageHash message) k = Ok sig → all_bytes h →
  verify_signature h (base64Encode (signature_bytes sig)) message =
  Ok (bool_decide (h = hash160 (secp_public k))).
Proof.
  intros Hs Hh. destruct (signature_bytes_spec _ _ _ Hs) as (Hb & Hl & Hr). unfold verify_signature.
  rewrite trim_base64, base64_roundtrip_aux, Hl by done. cbn [Nat.eqb negb].
  change (default 0 (signature_bytes sig !! 0%nat)) with (31 + sig_recovery sig).
  destruct (Z.ltb_spec (31 + sig_recovery sig) 27); [lia|].
  destruct (Z.ltb_spec 42 (31 + sig_recovery sig)); [lia|]. cbn [orb].
  rewrite messageHash_node_aux. cbn [mbind result_bind].
  destruct (header_bits (sig_recovery sig) Hr) as (_ & _ & _ & _ & -> & _). unfold js_slice_from. change (js_slice (signature_bytes sig) 1 _) with (js_slice_from (signature_bytes sig) 1).
  unfold signature_bytes. rewrite js_slice_from_1, (secp_sign_recover _ _ _ Hs). f_equal.
  case_bool_decide as Eh; [subst; apply String.eqb_refl|].
  apply String.eqb_neq. intros Ex. apply Eh. symmetry. apply bytesToHex_inj; [apply ripemd160_bytes|done|done].
Qed.

Lemma recover_node uncompressed k message sig :
  secp_sign (MessageHash message) k = Ok sig →
  RecoverCompact uncompressed (MessageHash message) (signature_bytes sig) = Ok (secp_public k).
Proof.
  intros Hs. destruct (signature_bytes_spec _ _ _ Hs) as (_ & Hl & Hr). unfold RecoverCompact. rewrite Hl.
  cbn [Nat.eqb negb]. change (at_ (signature_bytes sig) 0) with (31 + sig_recovery sig).
  change (drop 1 (signature_bytes sig)) with (compact_bytes sig).
  pose proof (secp_sign_recover _ _ _ Hs) as Hrec.
  destruct (header_bits (sig_recovery sig) Hr) as (-> & -> & _). by rewrite Hrec.
Qed.
End theorems.

(** A message signed with the key of an address verifies against that address,
    and against no other public-key hash. *)
Theorem message_roundtrip {P : Primitives} {PL : PrimitiveLaws}
    (k : bytes) (message address : string) (net : network) (h : bytes)
    (Hk : is_ok (secp_sign (MessageHash message) k) = true) (Hh : all_bytes h)
    (Haddr : decodeAddress address net = Ok {| d_type := P2pkh; d_hash := h |}) :
  ∃ signature, signMessage k message = Ok signature ∧
    verifyMessage address signature message net = Ok (bool_decide (h = hash160 (secp_public k))).
Proof.
  destruct (secp_sign (MessageHash message) k) as [sig|] eqn:Hs; [|done].
  exists (base64Encode (signature_bytes sig)). split; [by apply signMessage_ok|].
  unfold verifyMessage. rewrite Haddr. cbn [mbind result_bind d_type d_hash].
  rewrite bool_decide_eq_true_2 by done. by apply verify_signature_ok.
Qed.

(** The wallet hashes a message as the node does, and the node recovers from
    the wallet's signature the key that made it. *)
Theorem message_node_agrees {P : Primitives} {PL : PrimitiveLaws}
    (k : bytes) (message : string) (uncompressed : bytes → bytes)
    (Hk : is_ok (secp_sign (MessageHash message) k) = true) :
  messageHash message = Ok (MessageHash message) ∧
  ∃ signature raw, signMessage k message = Ok signature ∧ base64Decode signature = Ok raw ∧
    RecoverCompact uncompressed (MessageHash message) raw = Ok (secp_public k).
Proof.
  split; [apply messageHash_node_aux|]. destruct (secp_sign (MessageHash message) k) as [sig|] eqn:Hs; [|done].
  exists (base64Encode (signature_bytes sig)), (signature_bytes sig).
  split; [by apply signMessage_ok|]. split; [|by apply recover_node].
  apply base64_roundtrip_aux. by eapply signature_bytes_spec.
Qed.

(** The two sides differ on the compression bit of the header: without it the
    node compares the hash of the uncompressed key, and the wallet still accepts
    the signature for the address of the compressed one. *)
Theorem verify_ignores_compression_bit {P : Primitives} {PL : PrimitiveLaws}
    (k : bytes) (message : string) (uncompressed : bytes → bytes) (sig : ecdsa_sig)
    (Hs : secp_sign (MessageHash message) k = Ok sig) :
  let raw := (27 + sig_recovery sig) :: compact_bytes sig in
  verify_signature (hash160 (secp_public k)) (base64Encode raw) message = Ok true ∧
  RecoverCompact uncompressed (MessageHash message) raw = Ok (uncompressed (secp_public k)).
Proof.
  intros raw. destruct (signature_bytes_spec _ _ _ Hs) as (Hb & Hl & Hr). unfold signature_bytes in Hb, Hl.
  assert (Hl' : length raw = 65%nat) by exact Hl.
  assert (Hb' : all_bytes raw).
  { apply all_bytes_cons in Hb as [_ Hb]. apply all_bytes_cons. split; [unfold is_byte; lia|done]. }
  pose proof (secp_sign_recover _ _ _ Hs) as Hrec. split.
  - unfold verify_signature. rewrite trim_base64, base64_roundtrip_aux, Hl' by done. cbn [Nat.eqb negb].
    change (default 0 (raw !! 0%nat)) with (27 + sig_recovery sig).
    destruct (Z.ltb_spec (27 + sig_recovery sig) 27); [lia|].
    destruct (Z.ltb_spec 42 (27 + sig_recovery sig)); [lia|]. cbn [orb].
    rewrite messageHash_node_aux. cbn [mbind result_bind]. unfold raw. rewrite js_slice_from_1.
    destruct (header_bits (sig_recovery sig) Hr) as (_ & _ & _ & _ & _ & ->). rewrite Hrec. by rewrite String.eqb_refl.
  - unfold RecoverCompact. rewrite Hl'. cbn [Nat.eqb negb]. change (at_ raw 0) with (27 + sig_recovery sig).
    change (drop 1 raw) with (compact_bytes sig).
    destruct (header_bits (sig_recovery sig) Hr) as (_ & _ & -> & -> & _). by rewrite Hrec.
Qed.

(** Encoded bytes come back from [base64Decode]. *)
Theorem base64_roundtrip (bs : bytes) (Hb : all_bytes bs) : base64Decode (base64Encode bs) = Ok bs.
Proof. by apply base64_roundtrip_aux. Qed.

Lemma base64_roundtrip_witness :
  base64Encode [1; 2; 255; 254] = "AQL//g==" ∧ base64Decode (base64Encode [1; 2; 255; 254]) = Ok [1; 2; 255; 254].
Proof.
  split; [vm_compute; reflexivity|]. apply (base64_roundtrip [1; 2; 255; 254]).
  repeat constructor; unfold is_byte; lia.
Defined.

(** ** A concrete key *)

Definition demo_key : bytes := replicate 32 7.
Definition demo_address : string :=
  match p2pkhAddress (P := Toy.prims) (hash160 (P := Toy.prims) (secp_public (Primitives := Toy.prims) demo_key)) mainnet
  with Ok s => s | Throw _ => "" end.

Lemma message_roundtrip_witness :
  ∃ signature, signMessage (P := Toy.prims) demo_key "hello" = Ok signature ∧
    verifyMessage (P := Toy.prims) demo_address signature "hello" mainnet = Ok true.
Proof.
  destruct (message_roundtrip (P := Toy.prims) (PL := Toy.laws) demo_key "hello" demo_address mainnet
    (hash160 (P := Toy.prims) (secp_public (Primitives := Toy.prims) demo_key))) as (s & H1 & H2).
  - reflexivity.
  - apply be_bytes_bytes.
  - vm_compute. reflexivity.
  - exists s. split; [exact H1|]. rewrite H2. reflexivity.
Defined.

Lemma message_node_agrees_witness :
  ∃ signature raw, signMessage (P := Toy.prims) demo_key "hello" = Ok signature ∧ base64Decode signature = Ok raw ∧
    RecoverCompact (P := Toy.prims) (λ x, x) (MessageHash (P := Toy.prims) "hello") raw =
    Ok (secp_public (Primitives := Toy.prims) demo_key).
Proof. apply (message_node_agrees (P := Toy.prims) (PL := Toy.laws) demo_key "hello" (λ x, x)). reflexivity. Defined.

Lemma verify_ignores_compression_bit_witness :
  ∃ raw, verify_signature (P := Toy.prims)
      (hash160 (P := Toy.prims) (secp_public (Primitives := Toy.prims) demo_key)) (base64Encode raw) "hello" = Ok true ∧
    RecoverCompact (P := Toy.prims) (λ x, 4 :: x) (MessageHash (P := Toy.prims) "hello") raw =
    Ok (4 :: secp_public (Primitives := Toy.prims) demo_key).
Proof.
  eexists. eapply (verify_ignores_compression_bit (P := Toy.prims) (PL := Toy.laws) demo_key "hello" (λ x, 4 :: x)).
  reflexivity.
Defined.
