(* ===== verification/Storage.v ===== *)
(** * The recovery phrase at rest (web-wallet/storage.js)

    Without a PIN the phrase is in [localStorage] as text; setting one replaces
    it by a JSON record of salt, initialisation vector and AES-GCM ciphertext.
    The cryptography is the browser's ([Primitives]); what is proved is that
    the phrase comes back under the PIN it was stored with, that the plain
    entry is gone, and that nothing else in the store changes. *)

From S2P Require Import Prelude JsString JsNum Json Hex JsValue Browser Primitives TxCodec Message.

Definition PBKDF2_ITERATIONS : Z := 200000.

(** [new TextDecoder().decode(bytes)] on the UTF-8 text an encoder wrote: a
    leading byte-order mark is dropped. *)
Definition decode_utf8 (bs : bytes) : string :=
  match bs with
  | 0xEF :: 0xBB :: 0xBF :: r => of_chars (chr <$> r)
  | _ => of_chars (chr <$> bs)
  end.

Section storage.
  Context {PR : Primitives} {EN : Environment} {P : Type}.

Definition deriveAesKey (pin : string) (saltBytes : bytes) : bytes :=
  pbkdf2 (encode_utf8 pin) saltBytes PBKDF2_ITERATIONS.

Definition encryptMnemonic (mnemonic pin : string) : js P json :=
  salt ← random_bytes 16;
  iv ← random_bytes 12;
  let key := deriveAesKey pin salt in
  let ciphertext := aes_encrypt key iv (encode_utf8 mnemonic) in
  mret (JObj [("salt", JStr (bytesToHex salt)); ("iv", JStr (bytesToHex iv));
              ("ciphertext", JStr (bytesToHex ciphertext))]).

Definition decryptMnemonic (blob : val) (pin : string) : result string :=
  s ← get blob "salt"; salt ← hex_val s;
  i ← get blob "iv"; iv ← hex_val i;
  let key := deriveAesKey pin salt in
  c ← get blob "ciphertext"; ciphertext ← hex_val c;
  plaintext ← aes_decrypt key iv ciphertext;
  mret (decode_utf8 plaintext).

Definition isPinSet : js P bool :=
  raw ← local_get "cac_mnemonic_encrypted";
  mret (match raw with Some _ => true | None => false end).

(** [raw ? JSON.parse(raw) : dflt] *)
Definition parse_or (raw : option string) (dflt : json) : result json :=
  match raw with
  | Some s => if String.eqb s "" then Ok dflt else parse s
  | None => Ok dflt
  end.

Definition loadEncryptedBlob : js P json :=
  raw ← local_get "cac_mnemonic_encrypted";
  lift (parse_or raw JNull).

Definition setPin (mnemonic pin : string) : js P unit :=
  blob ← encryptMnemonic mnemonic pin;
  _ ← local_set "cac_mnemonic_encrypted" (stringify blob);
  local_remove "cac_mnemonic".

Definition removePin (mnemonic : string) : js P unit :=
  _ ← local_set "cac_mnemonic" mnemonic;
  local_remove "cac_mnemonic_encrypted".

(** ** Lemmas *)

(** Drawing random bytes changes nothing but the position in the stream. *)
Definition set_drawn (w : browser P) (d : nat) : browser P :=
  Browser (local w) (session w) (dom w) (sent w) d (intervals w) (next_handle w) (effects w) (page w).

Lemma random_run (n : Z) (w : browser P) : random n w = (Ok (entropy (drawn w) mod n), set_drawn w (S (drawn w))).
Proof. done. Qed.

Lemma random_list l (w : browser P) :
  ∃ bs d, collect (P := P) l (λ _ : nat, random 256) w = (Ok bs, set_drawn w d) ∧
    length bs = length l ∧ all_bytes bs.
Proof.
  revert w. induction l as [|x l IH]; intros w.
  - exists [], (drawn w). split; [|split; [done|apply all_bytes_nil]]. by destruct w.
  - destruct (IH (set_drawn w (S (drawn w)))) as (bs & d & Hr & Hl & Hb).
    exists (entropy (drawn w) mod 256 :: bs), d.
    cbn [collect]. rewrite run_bind, random_run, run_bind, Hr.
    split; [done|]. split; [cbn; congruence|].
    apply all_bytes_cons. split; [|done]. apply Z.mod_pos_bound. lia.
Qed.

Lemma random_bytes_run n (w : browser P) :
  ∃ bs d, random_bytes n w = (Ok bs, set_drawn w d) ∧ length bs = n ∧ all_bytes bs.
Proof.
  destruct (random_list (seq 0 n) w) as (bs & d & Hr & Hl & Hb). exists bs, d.
  rewrite length_seq in Hl. done.
Qed.

(** What [setPin] leaves behind. *)
Lemma setPin_run (mnemonic pin : string) (w : browser P) :
  ∃ salt iv d, all_bytes salt ∧ all_bytes iv ∧ length salt = 16%nat ∧ length iv = 12%nat ∧
    let blob := JObj [("salt", JStr (bytesToHex salt)); ("iv", JStr (bytesToHex iv));
      ("ciphertext", JStr (bytesToHex (aes_encrypt (deriveAesKey pin salt) iv (encode_utf8 mnemonic))))] in
    setPin mnemonic pin w =
      (Ok (), Browser (delete "cac_mnemonic" (<["cac_mnemonic_encrypted" := stringify blob]> (local w)))
         (session w) (dom w) (sent w) d (intervals w) (next_handle w) (effects w) (page w)).
Proof.
  destruct (random_bytes_run 16 w) as (salt & d1 & H1 & L1 & B1).
  destruct (random_bytes_run 12 (set_drawn w d1)) as (iv & d2 & H2 & L2 & B2).
  exists salt, iv, d2. do 4 (split; [done|]). cbv zeta.
  unfold setPin, encryptMnemonic. rewrite run_bind, run_bind, H1, run_bind, H2. done.
Qed.

Lemma encode_bytes s : all_bytes (encode_utf8 s).
Proof. apply Forall_fmap, Forall_forall. intros c _. apply code_range. Qed.

Lemma chr_codes (l : list ascii) : chr <$> (code <$> l) = l.
Proof. induction l as [|c l IH]; [done|]. rewrite !fmap_cons, IH, chr_code. done. Qed.

(** Text without a byte-order mark survives encoding and decoding. *)
Lemma decode_encode s :
  is_prefix [chr 0xEF; chr 0xBB; chr 0xBF] (chars s) = false → decode_utf8 (encode_utf8 s) = s.
Proof.
  intros Hp. unfold encode_utf8.
  assert (Hd : decode_utf8 (code <$> chars s) = of_chars (chr <$> (code <$> chars s))).
  { unfold decode_utf8. remember (code <$> chars s) as l eqn:El.
    destruct l as [|b0 [|b1 [|b2 r]]]; [done|by repeat case_match|by repeat case_match|].
    destruct (decide (b0 = 0xEF ∧ b1 = 0xBB ∧ b2 = 0xBF)) as [(-> & -> & ->)|Hn].
    - exfalso. destruct (chars s) as [|c0 [|c1 [|c2 t]]]; [done..|].
      rewrite !fmap_cons in El. injection El as E0 E1 E2 _.
      assert (c0 = chr 0xEF) as -> by (by apply code_inj).
      assert (c1 = chr 0xBB) as -> by (by apply code_inj).
      assert (c2 = chr 0xBF) as -> by (by apply code_inj). done.
    - repeat case_match; try done; exfalso; apply Hn; auto. }
  rewrite Hd, chr_codes. apply of_chars_chars.
Qed.
End storage.

Lemma blob_ok a b c : json_ok (JObj [("salt", JStr a); ("iv", JStr b); ("ciphertext", JStr c)]).
Proof. apply json_ok_obj. split; [|by repeat constructor]. apply (bool_decide_unpack _). by vm_compute. Qed.

Lemma decrypt_blob {PR : Primitives} (a b c : string) (pin : string) :
  decryptMnemonic (Some (JObj [("salt", JStr a); ("iv", JStr b); ("ciphertext", JStr c)])) pin =
  (plaintext ← aes_decrypt (deriveAesKey pin (hexToBytes a)) (hexToBytes b) (hexToBytes c);
   mret (decode_utf8 plaintext)).
Proof. reflexivity. Qed.

Lemma setPin_opens {PR : Primitives} {PL : PrimitiveLaws} {EN : Environment} {P : Type}
    (mnemonic pin : string) (w : browser P)
    (Hm : is_prefix [chr 0xEF; chr 0xBB; chr 0xBF] (chars mnemonic) = false) :
  ∃ w', setPin mnemonic pin w = (Ok (), w') ∧
    local w' !! "cac_mnemonic" = None ∧
    (isPinSet w').1 = Ok true ∧
    (∃ blob, loadEncryptedBlob w' = (Ok blob, w') ∧ decryptMnemonic (Some blob) pin = Ok mnemonic) ∧
    (∀ k, k ≠ "cac_mnemonic" → k ≠ "cac_mnemonic_encrypted" → local w' !! k = local w !! k) ∧
    sent w' = sent w ∧ page w' = page w ∧ dom w' = dom w ∧ session w' = session w.
Proof.
  destruct (setPin_run mnemonic pin w) as (salt & iv & d & Bs & Bi & _ & _ & Hrun).
  eexists. split; [exact Hrun|]. clear Hrun. cbn [local sent page dom session].
  set (blob := JObj _) in *.
  assert (Henc : ∀ m : gmap string string,
    delete "cac_mnemonic" (<["cac_mnemonic_encrypted" := stringify blob]> m) !! "cac_mnemonic_encrypted" =
    Some (stringify blob)) by (intros; by rewrite lookup_delete_ne, lookup_insert_eq).
  split; [by rewrite lookup_delete_eq|]. split.
  { unfold isPinSet. rewrite run_bind. cbn [local_get local]. by rewrite Henc. }
  split.
  { exists blob. split.
    - unfold loadEncryptedBlob. rewrite run_bind. cbn [local_get local]. rewrite Henc. unfold lift, parse_or.
      change (String.eqb (stringify blob) "") with false. unfold stringify.
      rewrite parse_write by apply blob_ok. done.
    - unfold blob. rewrite decrypt_blob.
      rewrite (hexToBytes_bytesToHex_aux salt Bs), (hexToBytes_bytesToHex_aux iv Bi).
      rewrite (hexToBytes_bytesToHex_aux _ (aes_encrypt_bytes _ _ _)).
      rewrite aes_roundtrip by apply encode_bytes. run_bind. by rewrite decode_encode. }
  split; [|done]. intros k H1 H2. by rewrite lookup_delete_ne, lookup_insert_ne.
Qed.

(** C31. Setting a PIN removes the plain phrase, stores a record that the same PIN
    opens again to the phrase, and touches nothing else in the browser's
    storage, its page or its network.  The phrase must not begin with a
    byte-order mark, which a decoder drops. *)
Theorem pin_roundtrip {PR : Primitives} {PL : PrimitiveLaws} {EN : Environment} {P : Type}
    (mnemonic pin : string) (w : browser P)
    (Hm : is_prefix [chr 0xEF; chr 0xBB; chr 0xBF] (chars mnemonic) = false) :
  ∃ w', setPin mnemonic pin w = (Ok (), w') ∧
    local w' !! "cac_mnemonic" = None ∧
    (isPinSet w').1 = Ok true ∧
    (∃ blob, loadEncryptedBlob w' = (Ok blob, w') ∧ decryptMnemonic (Some blob) pin = Ok mnemonic) ∧
    (∀ k, k ≠ "cac_mnemonic" → k ≠ "cac_mnemonic_encrypted" → local w' !! k = local w !! k) ∧
    sent w' = sent w ∧ page w' = page w ∧ dom w' = dom w ∧ session w' = session w.
Proof. by apply setPin_opens. Qed.

(** Removing the PIN puts the phrase back as text and forgets the record. *)
Lemma removePin_run {P : Type} (mnemonic : string) (w : browser P) :
  ∃ w', removePin mnemonic w = (Ok (), w') ∧ local w' !! "cac_mnemonic" = Some mnemonic ∧
    local w' !! "cac_mnemonic_encrypted" = None ∧ page w' = page w.
Proof.
  eexists. split; [reflexivity|]. cbn [local page].
  rewrite lookup_delete_ne, lookup_insert_eq by done. by rewrite lookup_delete_eq.
Qed.

Lemma pin_roundtrip_witness :
  let w := new_browser () in
  ∃ w', setPin (PR := Toy.prims) (EN := demo (λ _, None)) "abandon about" "1234" w = (Ok (), w') ∧
    local w' !! "cac_mnemonic" = None ∧
    (isPinSet w').1 = Ok true ∧
    (∃ blob, loadEncryptedBlob w' = (Ok blob, w') ∧
       decryptMnemonic (PR := Toy.prims) (Some blob) "1234" = Ok "abandon about") ∧
    (∀ k, k ≠ "cac_mnemonic" → k ≠ "cac_mnemonic_encrypted" → local w' !! k = local w !! k) ∧
    sent w' = sent w ∧ page w' = page w ∧ dom w' = dom w ∧ session w' = session w.
Proof.
  intros w. exact (pin_roundtrip (PL := Toy.laws) (EN := demo (λ _, None)) "abandon about" "1234" w eq_refl).
Defined.
