(* ===== verification/Gateway.v ===== *)
(** * The gateway client (web-wallet/gateway.js)

    One definition per method of the [Gateway] class.  Every call makes one
    request and decodes its reply: the parsed body when the status is a
    success, a [GatewayError] built from the body's [error] member otherwise,
    and the language's own error when the body is not JSON. *)

From S2P Require Import Prelude JsString JsNum Json JsValue Browser.

Record Gateway := { baseUrl : string }.

Section gateway.
  Context {EN : Environment} {P : Type}.
  Variable gw : Gateway.

(** [!!auth] *)
Definition has_token (auth : option string) : bool :=
  match auth with Some t => negb (String.eqb t "") | None => false end.
Definition bearer (auth : option string) : list (string * string) :=
  match auth with
  | Some t => if String.eqb t "" then [] else [("Authorization", "Bearer " +:+ t)]
  | None => []
  end.

Definition decode_reply (resp : reply) : result json :=
  data ← parse (body resp);
  if reply_ok resp then mret data
  else
    e ← get (Some data) "error";
    let err := or_val e (Some (JObj [])) in
    c ← get err "code";
    m ← get err "message";
    Throw (ExGateway (to_str (or_val c (Some (JStr "unknown-error"))))
      (to_str (or_val m (Some (JStr ("Request failed (" +:+ show (status resp) +:+ ")")))))).

Definition _get (path : string) (auth : option string) : js P json :=
  resp ← fetch (Request "GET" (baseUrl gw +:+ path) (bearer auth) None);
  lift (decode_reply resp).

Definition _post (path : string) (body : json) (auth : option string) : js P json :=
  let headers := ("Content-Type", "application/json") :: bearer auth in
  resp ← fetch (Request "POST" (baseUrl gw +:+ path) headers (Some (stringify body)));
  lift (decode_reply resp).

Definition networkStatus : js P json := _get "/v1/network/status" None.
Definition balance (address : string) : js P json := _get ("/v1/address/" +:+ address +:+ "/balance") None.
Definition utxos (address : string) : js P json := _get ("/v1/address/" +:+ address +:+ "/utxos") None.
Definition history (address : string) (limit : Z) : js P json :=
  _get ("/v1/address/" +:+ address +:+ "/history?limit=" +:+ show limit) None.
Definition tx (txid : string) : js P json := _get ("/v1/tx/" +:+ txid) None.
Definition broadcast (rawTxHex : string) : js P json :=
  _post "/v1/tx/broadcast" (JObj [("raw_tx_hex", JStr rawTxHex)]) None.
Definition feeEstimate (targetBlocks : Z) : js P json :=
  _get ("/v1/fee-estimate?target_blocks=" +:+ show targetBlocks) None.

Definition signup (email password : string) (kyc : list (string * json)) : js P json :=
  _post "/v1/auth/signup"
    (JObj (foldl (λ l kv, obj_set kv.1 kv.2 l) [("email", JStr email); ("password", JStr password)] kyc)) None.
Definition login (email password : string) : js P json :=
  _post "/v1/auth/login" (JObj [("email", JStr email); ("password", JStr password)]) None.

Definition stakingStatus (token : option string) : js P json := _get "/v1/staking/status" token.
Definition stakingDeposit (token : option string) (amountSatoshis : num) : js P json :=
  _post "/v1/staking/deposit" (JObj [("amount", JStr (num_to_string amountSatoshis))]) token.
Definition stakingWithdraw (token : option string) (amountSatoshis : num) (toAddress : string) : js P json :=
  _post "/v1/staking/withdraw"
    (JObj [("amount", JStr (num_to_string amountSatoshis)); ("to_address", JStr toAddress)]) token.

Definition pushVapidPublicKey : js P json := _get "/v1/push/vapid-public-key" None.
Definition pushSubscribe (token : option string) (subscription : json) : js P json :=
  _post "/v1/push/subscribe" subscription token.

Definition referralStatus (token : option string) : js P json := _get "/v1/referral/status" token.
Definition referralHistory (token : option string) : js P json := _get "/v1/referral/history" token.
Definition referralWithdraw (token : option string) (toAddress : string) : js P json :=
  _post "/v1/referral/withdraw" (JObj [("to_address", JStr toAddress)]) token.

(** ** Lemmas *)

(** The answer the client gives for what the server said. *)
Definition answer (o : option reply) : result json :=
  match o with Some rep => decode_reply rep | None => Throw (ExType "Failed to fetch") end.

Lemma get_run path auth w :
  _get path auth w =
    let r := Request "GET" (baseUrl gw +:+ path) (bearer auth) None in (answer (server (sent w ++ [r])), asked w r).
Proof. unfold _get. rewrite run_bind. unfold fetch. cbv zeta. destruct (server _); done. Qed.

Lemma post_run path b auth w :
  _post path b auth w =
    let r := Request "POST" (baseUrl gw +:+ path) (("Content-Type", "application/json") :: bearer auth) (Some (stringify b)) in
    (answer (server (sent w ++ [r])), asked w r).
Proof. unfold _post. rewrite run_bind. unfold fetch. cbv zeta. destruct (server _); done. Qed.

(** A property of the state that requests do not touch survives every call. *)
Definition ignores_sent (I : browser P → Prop) : Prop := ∀ w r, I w → I (asked w r).

Lemma keeps_get I path auth : ignores_sent I → keeps I (_get path auth).
Proof. intros HI w Hw. rewrite get_run. by apply HI. Qed.
Lemma keeps_post I path b auth : ignores_sent I → keeps I (_post path b auth).
Proof. intros HI w Hw. rewrite post_run. by apply HI. Qed.
End gateway.

(** ** Error replies *)

(** The error body of the API documentation. *)
Definition error_body (code message : string) : json :=
  JObj [("error", JObj [("code", JStr code); ("message", JStr message)])].

(** A reply with the documented error body becomes a [GatewayError] carrying
    that code and message, whatever the failing status; the state only gains
    the request. *)
Theorem gateway_error_reply {EN : Environment} {P : Type} (gw : Gateway) (path : string) (auth : option string)
    (w : browser P) (rep : reply) (c m : string)
    (Hs : server (sent w ++ [Request "GET" (baseUrl gw +:+ path) (bearer auth) None]) = Some rep)
    (Hbad : reply_ok rep = false) (Hb : body rep = stringify (error_body c m) ∨ body rep = stringify2 (error_body c m))
    (Hc : c ≠ "") (Hm : m ≠ "") :
  _get gw path auth w = (Throw (ExGateway c m),
    asked w (Request "GET" (baseUrl gw +:+ path) (bearer auth) None)).
Proof.
  assert (Hp : parse (body rep) = Ok (error_body c m)).
  { assert (json_ok (error_body c m)).
    { unfold error_body. rewrite json_ok_obj. split; [apply (bool_decide_unpack _); by vm_compute|].
      constructor; [|done]. cbn [snd]. rewrite json_ok_obj.
      split; [apply (bool_decide_unpack _); by vm_compute|by repeat constructor]. }
    destruct Hb as [-> | ->]; by apply parse_write. }
  rewrite get_run. cbv zeta. rewrite Hs. f_equal. cbn [answer]. unfold decode_reply. rewrite Hp, Hbad.
  apply String.eqb_neq in Hc, Hm. cbn. unfold or_val, truthy. rewrite Hc, Hm. done.
Qed.

(** A success reply with any well-formed body is returned as that value. *)
Theorem gateway_ok_reply {EN : Environment} {P : Type} (gw : Gateway) (path : string) (b : json) (auth : option string)
    (w : browser P) (rep : reply) (v : json)
    (Hs : server (sent w ++ [Request "POST" (baseUrl gw +:+ path)
      (("Content-Type", "application/json") :: bearer auth) (Some (stringify b))]) = Some rep)
    (Hok : reply_ok rep = true) (Hb : body rep = stringify v) (Hv : json_ok v) :
  (_post gw path b auth w).1 = Ok v.
Proof.
  rewrite post_run. cbv zeta. rewrite Hs. cbn [fst answer]. unfold decode_reply.
  rewrite Hb. unfold stringify at 1. rewrite (parse_write 0 v Hv), Hok. done.
Qed.

Lemma gateway_error_reply_witness :
  let gw := {| baseUrl := "" |} in
  let E := demo (λ _, Some (Reply 401 (stringify (error_body "unauthorized" "Please log in")))) in
  _get (EN := E) gw "/v1/staking/status" (Some "tok") (new_browser ()) =
    (Throw (ExGateway "unauthorized" "Please log in"),
     asked (new_browser ()) (Request "GET" "/v1/staking/status" [("Authorization", "Bearer tok")] None)).
Proof.
  intros gw E.
  exact (gateway_error_reply (EN := E) gw "/v1/staking/status" (Some "tok") (new_browser ())
    (Reply 401 (stringify (error_body "unauthorized" "Please log in"))) "unauthorized" "Please log in"
    eq_refl eq_refl (or_introl eq_refl) ltac:(done) ltac:(done)).
Defined.

Lemma gateway_ok_reply_witness :
  let E := demo (λ _, Some (Reply 200 (stringify (JObj [("txid", JStr "ab")])))) in
  (_post (EN := E) {| baseUrl := "" |} "/v1/tx/broadcast" (JObj []) None (new_browser ())).1 =
    Ok (JObj [("txid", JStr "ab")]).
Proof.
  intros E.
  apply (gateway_ok_reply (EN := E) {| baseUrl := "" |} "/v1/tx/broadcast" (JObj []) None (new_browser ())
    (Reply 200 (stringify (JObj [("txid", JStr "ab")]))) (JObj [("txid", JStr "ab")])); [done|done|done|].
  apply json_ok_obj. split; [apply (bool_decide_unpack _); by vm_compute|by repeat constructor].
Defined.
