(* ===== verification/Price.v ===== *)
(** * The price estimate (web-wallet/price.js)

    Three public sources tried in order; a source that fails in any way counts
    as absent.  Proved: the estimate never throws, the later sources are only
    asked when the earlier ones gave nothing, what the on-chain source computes
    from the pool's reserves, and that the last source, unlike the first two,
    lets a price through that is not a number. *)

From S2P Require Import Prelude JsString JsNum Json Hex JsValue Browser Primitives TxCodec Der.

Record price := { usdPerCac : num; source : string; tradeTime : val }.

Definition CAC_ISSUER : string := "GDFWAGH7DX43XFIGRRCJHIQCJTPP3TTZXTXOJMLAAFV6U2AM7W3L2K4Y".
Definition BNB_POOL_ADDRESS : string := "0x610d052dfafdbd0f8ba6d37ec202e58e4cb7de9a".
Definition BSC_RPC_URL : string := "https://bsc-dataseed.binance.org/".
Definition GET_RESERVES_SELECTOR : string := "0x0902f1ac".

Section price.
  Context {EN : Environment} {P : Type}.

Definition get_url (url : string) : request := Request "GET" url [] None.

(** A promise that has been started: its outcome, not yet thrown. *)
Definition attempt {A} (m : js P A) : js P (result A) := λ w, let '(r, w') := m w in (Ok r, w').

Definition eth_call_body : json :=
  JObj [("jsonrpc", JStr "2.0"); ("id", jint 1); ("method", JStr "eth_call");
        ("params", JArr [JObj [("to", JStr BNB_POOL_ADDRESS); ("data", JStr GET_RESERVES_SELECTOR)]; JStr "latest"])].

(** [!x || !isFinite(x)] *)
Definition no_price (x : num) : bool := num_falsy x || negb (is_finite x).

(** The two reserves in the reply's hex string and their ratio. *)
Definition reserves_price (s : string) : result (option price) :=
  if js_length s <? 2 + 64 * 2 then Ok None
  else
    let hex := str_slice_from s 2 in
    reserveUsdt ← string_to_bigint ("0x" +:+ str_slice hex 0 64);
    reserveCac ← string_to_bigint ("0x" +:+ str_slice hex 64 128);
    if reserveCac =? 0 then Ok None
    else
      let usd := num_div (num_of_Z (Z.quot (reserveUsdt * 1000000000) reserveCac)) (num_of_Z 1000000000) in
      if no_price usd then Ok None
      else Ok (Some {| usdPerCac := usd; source := "bnb"; tradeTime := Some JNull |}).

Definition fetchPancakeDirectPrice : js P (option price) :=
  try_catch (
    resp ← fetch (Request "POST" BSC_RPC_URL [("Content-Type", "application/json")] (Some (stringify eth_call_body)));
    json ← lift (parse (body resp));
    data ← lift (get_opt (Some json) "result");
    (* only a string has both a length and a slice that BigInt reads *)
    lift (match data with Some (JStr s) => reserves_price s | _ => Ok None end))
  (λ _, mret None).

Definition fetchBnbPoolPrice : js P (option price) :=
  try_catch (
    resp ← fetch (get_url ("https://api.geckoterminal.com/api/v2/networks/bsc/pools/" +:+ BNB_POOL_ADDRESS));
    json ← lift (parse (body resp));
    d ← lift (get_opt (Some json) "data");
    a ← lift (get_opt d "attributes");
    b ← lift (get_opt a "base_token_price_usd");
    let usd := to_num b in
    mret (if no_price usd then None
          else Some {| usdPerCac := usd; source := "bnb"; tradeTime := Some JNull |}))
  (λ _, mret None).

Definition STELLAR_TRADES_URL : string :=
  "https://horizon.stellar.org/trades?base_asset_type=native&counter_asset_type=credit_alphanum4&counter_asset_code=CAC&counter_asset_issuer="
    +:+ CAC_ISSUER +:+ "&order=desc&limit=1".
Definition XLM_PRICE_URL : string :=
  "https://api.coingecko.com/api/v3/simple/price?ids=stellar&vs_currencies=usd".

Definition fetchStellarPrice : js P (option price) :=
  try_catch (
    t ← attempt (fetch (get_url STELLAR_TRADES_URL));
    x ← attempt (fetch (get_url XLM_PRICE_URL));
    tradesResp ← lift t;
    xlmPriceResp ← lift x;
    trades ← lift (parse (body tradesResp));
    emb ← lift (get (Some trades) "_embedded");
    recs ← lift (get_opt emb "records");
    record ← lift (get_at_opt recs 0);
    if negb (truthy record) then mret None
    else
      ba ← lift (get record "base_amount");
      ca ← lift (get record "counter_amount");
      let xlmPerCac := num_div (to_num ba) (to_num ca) in
      xlmPriceJson ← lift (parse (body xlmPriceResp));
      st ← lift (get_opt (Some xlmPriceJson) "stellar");
      usdPerXlm ← lift (get_opt st "usd");
      if negb (truthy usdPerXlm) then mret None
      else
        time ← lift (get record "ledger_close_time");
        mret (Some {| usdPerCac := num_mul xlmPerCac (to_num usdPerXlm); source := "stellar"; tradeTime := time |}))
  (λ _, mret None).

Definition fetchCacUsdPrice : js P (option price) :=
  a ← fetchPancakeDirectPrice;
  match a with
  | Some p => mret (Some p)
  | None =>
      b ← fetchBnbPoolPrice;
      match b with Some p => mret (Some p) | None => fetchStellarPrice end
  end.

(** ** Lemmas *)

(** Only the history of requests changes. *)
Definition same_but_sent (w w' : browser P) : Prop :=
  local w' = local w ∧ session w' = session w ∧ dom w' = dom w ∧ drawn w' = drawn w ∧
  intervals w' = intervals w ∧ next_handle w' = next_handle w ∧ effects w' = effects w ∧ page w' = page w.

(** A computation that returns a value and only adds the requests [rs]. *)
Definition asks {A} (m : js P A) (w : browser P) (rs : list request) : Prop :=
  same_but_sent w (m w).2 ∧ sent (m w).2 = sent w ++ rs.

Lemma caught_total {A} (m : js P A) (d : A) w : ∃ a, try_catch m (λ _, mret d) w = (Ok a, (m w).2).
Proof. unfold try_catch. destruct (m w) as [[a|e] w']; by eexists. Qed.

(** Everything after a single request is pure. *)
Lemma asks_fetch {A} (r : request) (k : reply → js P A) w :
  (∀ rep, quiet (k rep)) → asks (fetch r ≫= k) w [r].
Proof.
  intros Hk. unfold asks. rewrite run_bind. unfold fetch. destruct (server _); [rewrite (Hk _ _)|]; by repeat split.
Qed.
End price.

(** ** The three sources *)

Lemma direct_asks {EN : Environment} {P : Type} (w : browser P) :
  ∃ r, fetchPancakeDirectPrice w = (Ok r, (fetchPancakeDirectPrice w).2) ∧
    asks fetchPancakeDirectPrice w
      [Request "POST" BSC_RPC_URL [("Content-Type", "application/json")] (Some (stringify eth_call_body))].
Proof.
  unfold fetchPancakeDirectPrice. match goal with |- context [try_catch ?m _] => set (body := m) end.
  destruct (caught_total body None w) as [r Hr]. exists r. unfold asks. rewrite Hr. cbn [snd].
  split; [done|]. apply asks_fetch. intros rep. auto 8 with quiet.
Qed.

Lemma pool_asks {EN : Environment} {P : Type} (w : browser P) :
  ∃ r, fetchBnbPoolPrice w = (Ok r, (fetchBnbPoolPrice w).2) ∧
    asks fetchBnbPoolPrice w
      [get_url ("https://api.geckoterminal.com/api/v2/networks/bsc/pools/" +:+ BNB_POOL_ADDRESS)].
Proof.
  unfold fetchBnbPoolPrice. match goal with |- context [try_catch ?m _] => set (body := m) end.
  destruct (caught_total body None w) as [r Hr]. exists r. unfold asks. rewrite Hr. cbn [snd].
  split; [done|]. apply asks_fetch. intros rep. auto 12 with quiet.
Qed.

(** Two requests started together, and a pure rest. *)
Lemma asks_both {EN : Environment} {P A : Type} (r1 r2 : request) (k : result reply → result reply → js P A) w :
  (∀ a b, quiet (k a b)) →
  asks (a ← attempt (fetch r1); b ← attempt (fetch r2); k a b) w [r1; r2].
Proof.
  intros Hk. unfold asks.
  assert (Hr : (a ← attempt (fetch r1); b ← attempt (fetch r2); k a b) w =
    k (fetch r1 w).1 (fetch r2 (asked w r1)).1 (asked (asked w r1) r2)) by done.
  rewrite Hr, (Hk _ _ _). split; [by repeat split|]. cbn [asked sent]. by rewrite <- app_assoc.
Qed.

Lemma stellar_asks {EN : Environment} {P : Type} (w : browser P) :
  ∃ r, fetchStellarPrice w = (Ok r, (fetchStellarPrice w).2) ∧
    asks fetchStellarPrice w [get_url STELLAR_TRADES_URL; get_url XLM_PRICE_URL].
Proof.
  unfold fetchStellarPrice. match goal with |- context [try_catch ?m _] => set (body := m) end.
  destruct (caught_total body None w) as [r Hr]. exists r. unfold asks. rewrite Hr. cbn [snd].
  split; [done|]. apply asks_both. intros a b.
  repeat first [apply quiet_bind; [|intros ?] | apply quiet_lift | apply quiet_ret | case_if].
Qed.

(** ** The pool's reserves *)

Lemma hex_no_space bs c : all_bytes bs → c ∈ chars (bytesToHex bs) → is_space c = false.
Proof.
  intros Hb. rewrite bytesToHex_nibbles by done. intros (d & -> & Hd)%list_elem_of_fmap.
  pose proof (nibbles_digits bs Hb) as Hn. rewrite list.Forall_forall in Hn. specialize (Hn d Hd).
  unfold is_digit in Hn. apply digit_char_space. lia.
Qed.

Lemma bigint_hex bs :
  all_bytes bs → bs ≠ [] → string_to_bigint ("0x" +:+ bytesToHex bs) = Ok (of_digits 256 bs).
Proof.
  intros Hb Hne. unfold string_to_bigint. rewrite trim_plain.
  2:{ intros c. rewrite chars_app, elem_of_app. intros [Hc|Hc]; [|by apply (hex_no_space bs)].
      cbn in Hc. rewrite !elem_of_cons in Hc. by destruct Hc as [->|[->|[]%elem_of_nil]]. }
  rewrite chars_app. change (chars "0x" ++ ?l) with ("0"%char :: "x"%char :: l). cbv match.
  change (radix_prefix ("0"%char :: "x"%char :: ?l)) with (Some (16, l)). cbv match.
  rewrite bytesToHex_nibbles by done. unfold all_digits.
  pose proof (take_digits_app 16 (nibbles bs) [] ltac:(lia) (nibbles_digits bs Hb)) as Ht.
  rewrite !app_nil_r in Ht. rewrite Ht, length_fmap, nibbles_value, Nat.eqb_refl.
  destruct bs; [done|]. rewrite nibbles_cons. done.
Qed.

(** From a well-formed [getReserves] reply the direct source computes the ratio
    of the first reserve (USDT) to the second (CAC), cut to nine decimals and
    rounded once to a double; an empty pool or a ratio below 1e-9 is no price. *)
Theorem reserves_price_spec (usdt cac time : bytes)
    (Hu : all_bytes usdt) (Hc : all_bytes cac) (Ht : all_bytes time)
    (Lu : length usdt = 32%nat) (Lc : length cac = 32%nat) :
  let u := of_digits 256 usdt in
  let c := of_digits 256 cac in
  let q := num_div (num_of_Z (u * 1000000000 / c)) (num_of_Z 1000000000) in
  reserves_price ("0x" +:+ bytesToHex (usdt ++ cac ++ time)) =
    Ok (if (c =? 0) || no_price q then None
        else Some {| usdPerCac := q; source := "bnb"; tradeTime := Some JNull |}).
Proof.
  intros u c q. unfold reserves_price.
  assert (Hall : all_bytes (usdt ++ cac ++ time)) by (rewrite !all_bytes_app; auto).
  assert (Hlen : js_length ("0x" +:+ bytesToHex (usdt ++ cac ++ time)) =
    2 + 2 * Z.of_nat (64 + length time)).
  { unfold js_length. rewrite chars_app. change (chars "0x" ++ ?l) with ("0"%char :: "x"%char :: l).
    cbn [foldr]. change (foldr ?f 0 (chars ?s)) with (js_length s).
    rewrite <- (of_chars_chars (bytesToHex _)), bytesToHex_nibbles by done.
    rewrite js_length_digits by (by apply nibbles_digits).
    rewrite nibbles_length, !length_app, Lu, Lc. change (code "0") with 48. change (code "x") with 120. cbn. lia. }
  rewrite Hlen. destruct (Z.ltb_spec (2 + 2 * Z.of_nat (64 + length time)) (2 + 64 * 2)); [lia|].
  unfold str_slice_from, str_slice. rewrite chars_app, (js_slice_from_drop _ 2) by (cbn; lia).
  change (drop 2 (chars "0x" ++ ?l)) with l. rewrite of_chars_chars.
  assert (Hs : chars (bytesToHex (usdt ++ cac ++ time)) =
    chars (bytesToHex usdt) ++ chars (bytesToHex cac) ++ chars (bytesToHex time)).
  { rewrite !bytesToHex_app, !chars_app. done. }
  assert (HL : ∀ b, all_bytes b → length b = 32%nat → length (chars (bytesToHex b)) = 64%nat).
  { intros b Hb Lb. rewrite bytesToHex_nibbles, length_fmap, nibbles_length by done. lia. }
  rewrite Hs. set (tail := chars (bytesToHex time)).
  assert (H1 : js_slice (chars (bytesToHex usdt) ++ chars (bytesToHex cac) ++ tail) 0 64 = chars (bytesToHex usdt))
    by (apply (js_slice_middle []); [done|by rewrite HL]).
  assert (H2 : js_slice (chars (bytesToHex usdt) ++ chars (bytesToHex cac) ++ tail) 64 128 = chars (bytesToHex cac))
    by (apply js_slice_middle; by rewrite HL).
  rewrite H1, H2.
  rewrite !of_chars_chars, !bigint_hex by (done || intros ->; done). rsimpl. fold u c.
  destruct (Z.eqb_spec c 0); [done|]. cbn [orb].
  pose proof (of_digits_bound 256 ltac:(lia) usdt Hu). pose proof (of_digits_bound 256 ltac:(lia) cac Hc).
  rewrite Z.quot_div_nonneg by lia. fold q. by destruct (no_price q).
Qed.

(** What the first two sources may return, and what the last one does. *)
Definition bnb_price (o : option price) : Prop :=
  ∀ p, o = Some p → source p = "bnb" ∧ no_price (usdPerCac p) = false.

Lemma direct_returns {EN : Environment} {P : Type} : returns (P := P) fetchPancakeDirectPrice bnb_price.
Proof.
  unfold fetchPancakeDirectPrice. apply returns_try; [|intros e; by apply returns_ret].
  do 3 (apply returns_bind; intros ?). apply returns_lift. intros o Ho p ->.
  destruct a1 as [[| | |s| |]|]; try done. unfold reserves_price in Ho. destruct (_ <? _) in Ho; [done|].
  do 2 (apply bind_ok in Ho as (? & _ & Ho)). destruct (_ =? 0) in Ho; [done|].
  destruct (no_price _) eqn:En; [done|]. by injection Ho as <-.
Qed.

Lemma pool_returns {EN : Environment} {P : Type} : returns (P := P) fetchBnbPoolPrice bnb_price.
Proof.
  unfold fetchBnbPoolPrice. apply returns_try; [|intros e; by apply returns_ret].
  do 5 (apply returns_bind; intros ?). apply returns_ret. intros p.
  destruct (no_price _) eqn:En; [done|]. by intros [= <-].
Qed.

Lemma stellar_returns {EN : Environment} {P : Type} :
  returns (P := P) fetchStellarPrice (λ o, ∀ p, o = Some p → source p = "stellar").
Proof.
  unfold fetchStellarPrice. apply returns_try; [|intros e; by apply returns_ret].
  do 8 (apply returns_bind; intros ?). case_if; [by apply returns_ret|].
  do 5 (apply returns_bind; intros ?). case_if; [by apply returns_ret|].
  apply returns_bind; intros ?. apply returns_ret. by intros p [= <-].
Qed.

(** The estimate never throws and changes nothing but the history of requests.
    Each source is asked only after every earlier one gave no price, and a
    price from the first two is a finite non-zero number. *)
Theorem price_fallback {EN : Environment} {P : Type} (w : browser P) :
  let direct := Request "POST" BSC_RPC_URL [("Content-Type", "application/json")] (Some (stringify eth_call_body)) in
  let pool := get_url ("https://api.geckoterminal.com/api/v2/networks/bsc/pools/" +:+ BNB_POOL_ADDRESS) in
  ∃ r w', fetchCacUsdPrice w = (Ok r, w') ∧ same_but_sent w w' ∧
    (((fetchPancakeDirectPrice w).1 = Ok r ∧ r ≠ None ∧ sent w' = sent w ++ [direct]) ∨
     ((fetchPancakeDirectPrice w).1 = Ok None ∧ r ≠ None ∧ sent w' = sent w ++ [direct; pool]) ∨
     ((fetchPancakeDirectPrice w).1 = Ok None ∧
      sent w' = sent w ++ [direct; pool; get_url STELLAR_TRADES_URL; get_url XLM_PRICE_URL])) ∧
    (∀ p, r = Some p → source p = "bnb" → no_price (usdPerCac p) = false).
Proof.
  intros direct pool. destruct (direct_asks w) as (a & Ha & Sa & Ra).
  pose proof (direct_returns w a) as Qa. unfold fetchCacUsdPrice. rewrite run_bind.
  rewrite Ha in Qa |- *. set (w1 := (fetchPancakeDirectPrice w).2) in *.
  destruct a as [p|].
  { exists (Some p), w1. do 2 (split; [done|]). split; [by left|]. intros p' [= <-] _. by apply Qa. }
  destruct (pool_asks w1) as (b & Hb & Sb & Rb). pose proof (pool_returns w1 b) as Qb.
  rewrite run_bind. rewrite Hb in Qb |- *. set (w2 := (fetchBnbPoolPrice w1).2) in *.
  assert (S2 : same_but_sent w w2) by (unfold same_but_sent in *; intuition congruence).
  destruct b as [p|].
  { exists (Some p), w2. do 2 (split; [done|]). split; [|intros p' [= <-] _; by apply Qb].
    right; left. split; [done|]. split; [done|]. rewrite Rb, Ra, <- app_assoc. done. }
  destruct (stellar_asks w2) as (c & Hc & Sc & Rc). pose proof (stellar_returns w2 c) as Qc.
  rewrite Hc in Qc |- *. set (w3 := (fetchStellarPrice w2).2) in *. exists c, w3. split; [done|].
  split; [unfold same_but_sent in *; intuition congruence|]. split.
  - right; right. split; [done|]. rewrite Rc, Rb, Ra, <- !app_assoc. done.
  - intros p -> Hp. specialize (Qc eq_refl p eq_refl). congruence.
Qed.

(** The last source has no such test: a trade without its amounts is shown as
    a price that is not a number. *)
Theorem stellar_price_nan :
  let srv := λ h : list request, match h with
    | [_] => Some (Reply 200 (stringify (JObj [("_embedded", JObj [("records", JArr [JObj []])])])))
    | _ => Some (Reply 200 (stringify (JObj [("stellar", JObj [("usd", jint 1)])])))
    end in
  (fetchStellarPrice (EN := demo srv) (new_browser ())).1 =
    Ok (Some {| usdPerCac := NaN; source := "stellar"; tradeTime := None |}).
Proof. by vm_compute. Qed.

Lemma reserves_price_spec_witness :
  reserves_price ("0x" +:+ bytesToHex (be_bytes 32 3000 ++ be_bytes 32 2000 ++ be_bytes 32 7)) =
    Ok (Some {| usdPerCac := num_div (num_of_Z 1500000000) (num_of_Z 1000000000);
                source := "bnb"; tradeTime := Some JNull |}).
Proof.
  exact (reserves_price_spec (be_bytes 32 3000) (be_bytes 32 2000) (be_bytes 32 7)
    (be_bytes_bytes _ _) (be_bytes_bytes _ _) (be_bytes_bytes _ _) eq_refl eq_refl).
Defined.
