(* ===== verification/Qr.v ===== *)
(** * The QR scanner (web-wallet/qr.js)

    [startQrScanner] waits for the camera, then looks at one animation frame
    after another until it reads a code or is stopped.  Its three variables and
    what the browser holds for it (the camera's promise, the scheduled frame, the
    running camera) form a state machine; the events are the ones the browser and
    the page can cause, in any order.  jsQR is third-party code: what it reads from
    a frame, or that the frame fails, is part of the event. *)

From stdpp Require Import relations.
From S2P Require Import Prelude JsString Browser.

(** [renderQr]: the library paints the text on the canvas. *)
Definition renderQr {P} (canvas text : string) : js P unit := emit (Painted canvas text).

(** The promise of [getUserMedia] with its [then]: not settled yet, fulfilled, or
    failed with an exception. *)
Inductive media_state := Asked | Started | Failed (e : exn).

Record scanner := Scanner {
  stopped : bool;
  rafId : option nat;        (* the variable of that name *)
  stream : bool;             (* whether the variable holds the camera's stream *)
  media : media_state;
  frame : option nat;        (* the frame callback the browser has scheduled *)
  fresh : nat;               (* the next frame handle *)
  camera : bool;             (* whether the camera's tracks are running *)
  results : list string;     (* arguments of the onResult calls so far *)
  errors : list exn          (* arguments of the onError calls so far *)
}.

(** The scanner that waits for the camera. *)
Definition waiting : scanner := Scanner false None false Asked None 1 false [] [].

(** On a page without [navigator.mediaDevices] (one not served over HTTPS) the call
    throws before it returns. *)
Definition startQrScanner (mediaDevices : bool) : result scanner :=
  if mediaDevices then Ok waiting
  else Throw (ExType "Cannot read properties of undefined (reading 'getUserMedia')").

(** What a frame shows. *)
Inductive sight :=
  | Not_ready                (* video.readyState *)
  | No_code
  | Code (data : string)
  | Breaks.                  (* drawing or decoding throws *)

Inductive event :=
  | Grant (attached : option exn) (* the stream is there; [video.srcObject = s] or [video.play()] throws *)
  | Reject (e : exn)              (* permission refused, no camera, camera in use, ... *)
  | Frame (x : sight)             (* the frame callback runs *)
  | Stop.                         (* the page calls stop() *)

Definition stop (s : scanner) : scanner :=
  Scanner true (rafId s) (stream s) (media s)
    (if bool_decide (frame s = rafId s) then None else frame s) (fresh s)
    (if stream s then false else camera s) (results s) (errors s).

(** [rafId = requestAnimationFrame(tick)] *)
Definition requestFrame (s : scanner) : scanner :=
  Scanner (stopped s) (Some (fresh s)) (stream s) (media s) (Some (fresh s)) (S (fresh s))
    (camera s) (results s) (errors s).

Definition onResult (text : string) (s : scanner) : scanner :=
  Scanner (stopped s) (rafId s) (stream s) (media s) (frame s) (fresh s) (camera s) (results s ++ [text]) (errors s).

(** [.catch((e) => onError(e))] *)
Definition onError (e : exn) (s : scanner) : scanner :=
  Scanner (stopped s) (rafId s) (stream s) (Failed e) (frame s) (fresh s) (camera s) (results s) (errors s ++ [e]).

(** [tick], called with the scheduled frame consumed.  An exception leaves the
    callback, which the promise's [catch] does not cover. *)
Definition tick (x : sight) (s : scanner) : scanner :=
  if stopped s then s
  else
    match x with
    | Not_ready | No_code => requestFrame s
    | Code data => if String.eqb data "" then requestFrame s else onResult data (stop s)
    | Breaks => s
    end.

(** [.then((s) => ...)]; what it throws goes to [onError], as a rejection does. *)
Definition media_then (attached : option exn) (s : scanner) : scanner :=
  if stopped s
  (* the tracks of the new stream are stopped at once *)
  then Scanner true (rafId s) (stream s) Started (frame s) (fresh s) (camera s) (results s) (errors s)
  else
    let s := Scanner false (rafId s) true Started (frame s) (fresh s) true (results s) (errors s) in
    match attached with None => requestFrame s | Some e => onError e s end.

(** One event; [None] when it cannot happen now. *)
Definition handle (e : event) (s : scanner) : option scanner :=
  match e with
  | Grant attached => match media s with Asked => Some (media_then attached s) | _ => None end
  | Reject e => match media s with Asked => Some (onError e s) | _ => None end
  | Frame x =>
      match frame s with
      | Some _ =>
          Some (tick x (Scanner (stopped s) (rafId s) (stream s) (media s) None (fresh s) (camera s) (results s) (errors s)))
      | None => None
      end
  | Stop => Some (stop s)
  end.

Inductive step (s s' : scanner) : Prop :=
  | step_event e : handle e s = Some s' → step s s'.

Definition reachable (s : scanner) : Prop := rtc step waiting s.

(** ** The invariant *)

(** The calls of [onError] a promise makes. *)
Definition reported (m : media_state) : list exn := match m with Failed e => [e] | _ => [] end.

Record scanner_ok (s : scanner) : Prop := {
  ok_stopped : stopped s = true → camera s = false ∧ frame s = None;
  ok_scanning : stopped s = false → results s = [] ∧ camera s = stream s;
  ok_results : (length (results s) <= 1)%nat;
  ok_raf : frame s ≠ None → frame s = rafId s;
  ok_stream : stream s = true → media s ≠ Asked;
  ok_errors : errors s = reported (media s);
  ok_waiting : frame s ≠ None → media s = Started
}.

Lemma scanner_start_ok : scanner_ok waiting.
Proof. split; cbn; auto; done. Qed.

Lemma stop_ok s : scanner_ok s → scanner_ok (stop s).
Proof.
  intros [H1 H2 H3 H4 H5 H6 H7]. unfold stop. split; cbn; auto; try done.
  - intros _. split.
    + destruct (stream s) eqn:Es; [done|]. destruct (stopped s); [by apply H1|]. by destruct (H2 eq_refl) as [_ ->].
    + case_bool_decide as Hb; [done|]. destruct (frame s); [|done]. exfalso. by apply Hb, H4.
  - by case_bool_decide; auto.
  - by case_bool_decide; auto.
Qed.

Lemma tick_ok x s n :
  scanner_ok s → frame s = Some n →
  scanner_ok (tick x (Scanner (stopped s) (rafId s) (stream s) (media s) None (fresh s) (camera s) (results s) (errors s))).
Proof.
  intros [H1 H2 H3 H4 H5 H6 H7] Hf. unfold tick. cbn [stopped].
  destruct (stopped s) eqn:Es; [destruct (H1 eq_refl); congruence|]. destruct (H2 eq_refl) as [Hr Hc].
  assert (Hm : media s = Started) by (apply H7; by rewrite Hf).
  assert (Hreq : scanner_ok (requestFrame (Scanner false (rafId s) (stream s) (media s) None (fresh s) (camera s) (results s) (errors s))))
    by (split; cbn; auto; done).
  destruct x as [| |data|]; try exact Hreq; [|by split]. case_if; [exact Hreq|].
  unfold onResult, stop. rewrite Hr. split; cbn; auto; try done; try (by case_bool_decide).
  intros _. split; [rewrite Hc; by destruct (stream s)|by case_bool_decide].
Qed.

Lemma handle_ok e s s' : scanner_ok s → handle e s = Some s' → scanner_ok s'.
Proof.
  intros Hok. pose proof Hok as [H1 H2 H3 H4 H5 H6 H7]. destruct e as [attached|e|x|]; cbn [handle].
  - destruct (media s) eqn:Em; try done. intros [= <-]. unfold media_then. destruct (stopped s) eqn:Es.
    + split; cbn; auto; done.
    + destruct (H2 eq_refl) as [Hr _]. assert (Hf : frame s = None) by (destruct (frame s); [by specialize (H7 ltac:(done))|done]).
      destruct attached as [e|]; split; cbn; rewrite ?H6; auto; intros; congruence.
  - destruct (media s) eqn:Em; try done. intros [= <-].
    assert (Hf : frame s = None) by (destruct (frame s); [by specialize (H7 ltac:(done))|done]).
    split; cbn; rewrite ?H6; auto; intros; congruence.
  - destruct (frame s) as [n|] eqn:Ef; [|done]. intros [= <-]. by apply tick_ok with n.
  - intros [= <-]. by apply stop_ok.
Qed.

Lemma reachable_ok s : reachable s → scanner_ok s.
Proof.
  unfold reachable. intros Hr. assert (H : scanner_ok waiting) by apply scanner_start_ok.
  induction Hr as [|x y z [e He] _ IH]; [done|]. apply IH. by apply (handle_ok e x).
Qed.

(** C34. However the browser and the page interleave, [onResult] fires at most once
    and only a stopped scanner has fired; a stopped scanner keeps no camera
    running and no frame scheduled; [onError] has been called once, with the
    exception, when the camera could not be started (its permission refused, no
    camera, the stream not taken by the page), and otherwise not. *)
Theorem scanner_safe (s : scanner) (Hr : reachable s) :
  (length (results s) <= 1)%nat ∧
  (results s ≠ [] → stopped s = true) ∧
  (stopped s = true → camera s = false ∧ frame s = None) ∧
  errors s = match media s with Failed e => [e] | Asked | Started => [] end.
Proof.
  pose proof (reachable_ok s Hr) as [H1 H2 H3 _ _ H6 _]. split_and!; try done.
  intros Hne. destruct (stopped s); [done|]. by destruct (H2 eq_refl).
Qed.

(** As long as a frame is scheduled the scanner is scanning: a frame that shows no
    code is followed by another, and one that shows a readable code delivers it. *)
Theorem scanner_delivers (s : scanner) (data : string)
    (Hr : reachable s) (Hf : frame s ≠ None) (Hd : data ≠ "") :
  (∀ x, x = Not_ready ∨ x = No_code → ∃ s', handle (Frame x) s = Some s' ∧ frame s' ≠ None) ∧
  ∃ s', handle (Frame (Code data)) s = Some s' ∧ results s' = [data] ∧ stopped s' = true ∧ camera s' = false.
Proof.
  pose proof (reachable_ok s Hr) as Hok. pose proof Hok as [H1 H2 _ _ _ _ _].
  assert (Hs : stopped s = false) by (destruct (stopped s); [by destruct (H1 eq_refl)|done]).
  destruct (H2 Hs) as [Hres _]. destruct (frame s) as [n|] eqn:Ef; [|done]. split.
  - intros x Hx. cbn [handle]. rewrite Ef. eexists. split; [done|]. unfold tick. cbn [stopped]. rewrite Hs. by destruct Hx as [-> | ->].
  - pose proof (handle_ok (Frame (Code data)) s) as Hh. cbn [handle] in *. rewrite Ef in *.
    eexists. split; [done|]. specialize (Hh _ Hok eq_refl) as [H1' _ _ _ _ _ _]. revert H1'.
    unfold tick. cbn [stopped]. rewrite Hs. apply String.eqb_neq in Hd. rewrite Hd.
    cbn. rewrite Hres. intros H1'. by destruct (H1' eq_refl).
Qed.

(** [stop()] does not withdraw the request for the camera: a refusal that arrives
    later is still reported to [onError]. *)
Theorem scanner_error_after_stop :
  ∃ s s', reachable s ∧ stopped s = true ∧ errors s = [] ∧ handle (Reject (ExHost "NotAllowedError" "")) s = Some s' ∧
    errors s' = [ExHost "NotAllowedError" ""].
Proof.
  exists (stop waiting). eexists. split.
  - apply rtc_once. by apply (step_event _ _ Stop).
  - do 2 (split; [done|]). split; reflexivity.
Qed.

(** ** Runs *)

Module ScanExample.
Definition run_events (es : list event) : option scanner := foldl (λ s e, s ≫= handle e) (Some waiting) es.

Lemma scan_reachable es s : run_events es = Some s → reachable s.
Proof.
  unfold run_events, reachable. revert s. induction es as [|e es IH] using rev_ind; intros s; [intros [= <-]; apply rtc_refl|].
  rewrite foldl_app. cbn [foldl]. intros H. destruct (foldl _ _ es) as [s0|] eqn:E0; [|done].
  eapply rtc_r; [by apply IH|]. by apply (step_event _ _ e).
Qed.

(** Two frames, the second with a code; and a stream the page does not take. *)
Definition scanned : option scanner := run_events [Grant None; Frame Not_ready; Frame (Code "codexacoin:C1")].
Definition not_taken : option scanner := run_events [Grant (Some (ExType "srcObject")); Stop].
End ScanExample.
Import ScanExample.

(** A frame that fails ends the scan without a word: nothing is scheduled any more,
    the camera runs on, and [onError] is not called. *)
Theorem failed_frame_silent :
  ∃ s, run_events [Grant None; Frame Breaks] = Some s ∧ stopped s = false ∧ frame s = None ∧ camera s = true ∧ errors s = [].
Proof. by eexists. Qed.

Lemma scanner_safe_witness :
  (∃ s, scanned = Some s ∧ results s = ["codexacoin:C1"] ∧ camera s = false ∧ errors s = []) ∧
  (∃ s, not_taken = Some s ∧ camera s = false ∧ errors s = [ExType "srcObject"]).
Proof.
  split.
  - destruct scanned as [s|] eqn:E; [|by vm_compute in E]. exists s. split; [done|].
    destruct (scanner_safe s (scan_reachable _ s E)) as (_ & H1 & H2 & H3).
    assert (Hr : results s = ["codexacoin:C1"]) by (vm_compute in E; by injection E as <-). split; [done|].
    split; [apply H2, H1; by rewrite Hr|]. rewrite H3. vm_compute in E. by injection E as <-.
  - destruct not_taken as [s|] eqn:E; [|by vm_compute in E]. exists s. split; [done|].
    destruct (scanner_safe s (scan_reachable _ s E)) as (_ & _ & H2 & H3).
    split; [apply H2; vm_compute in E; by injection E as <-|]. rewrite H3. vm_compute in E. by injection E as <-.
Defined.

Lemma scanner_delivers_witness :
  ∃ s s', reachable s ∧ handle (Frame (Code "codexacoin:C1")) s = Some s' ∧ results s' = ["codexacoin:C1"].
Proof.
  destruct (run_events [Grant None]) as [s|] eqn:E; [|by vm_compute in E].
  assert (Hf : frame s ≠ None) by (vm_compute in E; by injection E as <-).
  destruct (scanner_delivers s "codexacoin:C1" (scan_reachable _ s E) Hf ltac:(done)) as [_ (s' & H1 & H2 & _)].
  exists s, s'. split; [by apply (scan_reachable [Grant None])|]. split; [exact H1|exact H2].
Defined.
