(* ===== verification/Checkout.v ===== *)
(** * The merchant checkout widget (checkout-widget/checkout.js)

    The widget polls the balance of one address and reports a payment when it
    has risen by the amount due since the first successful poll.  A poll is
    asynchronous, so the widget is a state machine: the reply of the request in
    flight arrives, the timer fires, or the page calls [stop()], in any order
    the browser allows.  The callbacks are the merchant's code: parameters that
    may throw. *)

From stdpp Require Import relations.
From S2P Require Import Prelude JsString JsNum Amount Json JsValue Browser Price.

(** What the widget is created with. *)
Record options := {
  container_found : bool;
  address : string;
  amountCac : val;
  gatewayUrl : string;
  onDetected : option (string → option exn);  (* the exception it throws, if any *)
  onError : option (exn → option exn)
}.

Record checkout := Checkout {
  baseline : option Z;
  detected : bool;
  stopped : bool;
  timer : option nat;            (* the variable of that name *)
  in_flight : bool;              (* a poll is waiting for its reply *)
  scheduled : option nat;        (* the poll the browser has scheduled *)
  fresh : nat;
  status_text : string;
  detections : list string;      (* the balances onDetected was called with *)
  reports : list exn             (* the errors onError was called with *)
}.

(** [BigInt(Math.round(Number(amountCac) * 1e8))] *)
Definition amountSatoshis (o : options) : result Z := to_satoshis (to_num (amountCac o)).

(** The markup of the widget. *)
Definition markup (o : options) (satoshis : Z) : string :=
  dq "
    <div class='cac-checkout' style='font-family:-apple-system,sans-serif;max-width:320px;text-align:center;color:#ece7e0;background:#1c1922;border:1px solid #322c3a;border-radius:12px;padding:20px;'>
      <div style='font-size:13px;color:#9b93a3;margin-bottom:8px;'>Pay with CodexaCoin</div>
      <div style='font-size:20px;font-weight:700;color:#f0c350;margin-bottom:12px;'>" +:+ formatCac satoshis +:+ dq " CAC</div>
      <canvas class='cac-checkout-qr'></canvas>
      <div style='font-family:ui-monospace,monospace;font-size:12px;word-break:break-all;margin:10px 0;'>" +:+ address o +:+ dq "</div>
      <div class='cac-checkout-status' style='font-size:13px;color:#9b93a3;'>Waiting for payment&hellip;</div>
    </div>
  ".

(** The state after the first [poll()] has sent its request. *)
Definition initial : checkout :=
  Checkout None false false None true None 1 "Waiting for payment&hellip;" [] [].

(** Creation: the markup, the amount due and the running widget. *)
Definition createCheckout (o : options) : result (string * Z * checkout) :=
  satoshis ← amountSatoshis o;
  _ ← throw_if (negb (container_found o)) (ExError "createCheckout: container not found");
  mret (markup o satoshis, satoshis, initial).

(** The request of a poll, and what [fetchBalance] makes of its reply. *)
Definition balance_request (o : options) : request :=
  get_url (gatewayUrl o +:+ "/v1/address/" +:+ address o +:+ "/balance").

Definition fetchBalance (r : option reply) : result Z :=
  match r with
  | None => Throw (ExType "Failed to fetch")
  | Some resp =>
      data ← parse (body resp);
      if negb (reply_ok resp) then
        e ← get (Some data) "error";
        m ← get_opt e "message";
        Throw (ExError (to_str (or_val m (Some (JStr ("Request failed (" +:+ show (status resp) +:+ ")"))))))
      else
        c ← get (Some data) "confirmed"; confirmed ← to_bigint c;
        u ← get (Some data) "unconfirmed"; unconfirmed ← to_bigint u;
        Ok (confirmed + unconfirmed)
  end.

Section widget.
  Variable o : options.
  Variable due : Z.

Definition stop (s : checkout) : checkout :=
  Checkout (baseline s) (detected s) true (timer s) (in_flight s)
    (if bool_decide (scheduled s = timer s) then None else scheduled s) (fresh s) (status_text s) (detections s) (reports s).

(** [if (!stopped) timer = setTimeout(poll, pollIntervalMs)], the end of a poll. *)
Definition reschedule (s : checkout) : checkout :=
  if stopped s then s
  else Checkout (baseline s) (detected s) (stopped s) (Some (fresh s)) (in_flight s) (Some (fresh s)) (S (fresh s))
         (status_text s) (detections s) (reports s).

(** The [catch] block and the end of the poll; a throwing [onError] ends the
    poll before the next one is scheduled. *)
Definition poll_failed (e : exn) (s : checkout) : checkout :=
  let s := Checkout (baseline s) (detected s) (stopped s) (timer s) (in_flight s) (scheduled s) (fresh s)
             "Could not check payment status -- retrying..." (detections s) (reports s) in
  match onError o with
  | None => reschedule s
  | Some f =>
      let s := Checkout (baseline s) (detected s) (stopped s) (timer s) (in_flight s) (scheduled s) (fresh s)
                 (status_text s) (detections s) (reports s ++ [e]) in
      match f e with None => reschedule s | Some _ => s end
  end.

(** A poll continues with the balance it fetched. *)
Definition poll_balance (balance : Z) (s : checkout) : checkout :=
  match baseline s with
  | None =>
      reschedule (Checkout (Some balance) (detected s) (stopped s) (timer s) (in_flight s) (scheduled s) (fresh s)
        (status_text s) (detections s) (reports s))
  | Some b =>
      if negb (detected s) && (due <=? balance - b) then
        let s := Checkout (baseline s) true (stopped s) (timer s) (in_flight s) (scheduled s) (fresh s)
                   "Payment received!" (detections s) (reports s) in
        match onDetected o with
        | None => stop s
        | Some f =>
            let s := Checkout (baseline s) (detected s) (stopped s) (timer s) (in_flight s) (scheduled s) (fresh s)
                       (status_text s) (detections s ++ [show balance]) (reports s) in
            match f (show balance) with None => stop s | Some e => poll_failed e s end
        end
      else reschedule s
  end.

Inductive event :=
  | Replied (r : option reply)   (* the reply of the poll in flight *)
  | Timer                        (* the scheduled poll starts *)
  | Stop.                        (* the page calls stop() *)

Definition handle (e : event) (s : checkout) : option checkout :=
  match e with
  | Replied r =>
      if in_flight s then
        let s := Checkout (baseline s) (detected s) (stopped s) (timer s) false (scheduled s) (fresh s)
                   (status_text s) (detections s) (reports s) in
        Some (match fetchBalance r with Ok b => poll_balance b s | Throw e => poll_failed e s end)
      else None
  | Timer =>
      match scheduled s with
      | Some _ =>
          Some (Checkout (baseline s) (detected s) (stopped s) (timer s) (negb (stopped s)) None (fresh s)
            (status_text s) (detections s) (reports s))
      | None => None
      end
  | Stop => Some (stop s)
  end.

Inductive step (s s' : checkout) : Prop :=
  | step_event e : handle e s = Some s' → step s s'.

Definition reachable (s : checkout) : Prop := rtc step initial s.
End widget.

(** ** The invariant *)

Record checkout_ok (s : checkout) : Prop := {
  co_one_poll : in_flight s = true → scheduled s = None;
  co_timer : scheduled s ≠ None → scheduled s = timer s;
  co_stopped : stopped s = true → scheduled s = None;
  co_detected : detected s = false → detections s = [];
  co_once : (length (detections s) <= 1)%nat
}.

Lemma checkout_stop_ok s : checkout_ok s → checkout_ok (stop s).
Proof.
  intros [H1 H2 H3 H4 H5]. split; cbn; auto.
  - intros Hf. rewrite (H1 Hf). by case_bool_decide.
  - case_bool_decide; [done|]. auto.
  - intros _. case_bool_decide as Hb; [done|]. destruct (scheduled s); [|done]. exfalso. by apply Hb, H2.
Qed.

Lemma reschedule_ok s : checkout_ok s → in_flight s = false → checkout_ok (reschedule s).
Proof.
  intros Hok Hf. unfold reschedule. destruct (stopped s) eqn:Es; [done|].
  destruct Hok as [H1 H2 H3 H4 H5]. split; cbn; auto; congruence.
Qed.

Lemma poll_failed_ok o e s : checkout_ok s → in_flight s = false → checkout_ok (poll_failed o e s).
Proof.
  intros [H1 H2 H3 H4 H5] Hf. unfold poll_failed. destruct (onError o) as [f|]; [destruct (f e)|];
    try apply reschedule_ok; try done; by split.
Qed.

Lemma poll_balance_ok o due b s : checkout_ok s → in_flight s = false → checkout_ok (poll_balance o due b s).
Proof.
  intros [H1 H2 H3 H4 H5] Hf. unfold poll_balance.
  destruct (baseline s) as [b0|]; [|apply reschedule_ok; [by split|done]].
  destruct (detected s) eqn:Ed; cbn [negb andb]; [apply reschedule_ok; [split; auto; congruence|done]|].
  case_if; [|apply reschedule_ok; [split; auto|done]].
  destruct (onDetected o) as [f|]; [destruct (f (show b))|]; cbn [detections];
    [apply poll_failed_ok; [|done]|apply checkout_stop_ok|apply checkout_stop_ok];
    (split; cbn; auto; try congruence); rewrite ?(H4 eq_refl); cbn; lia.
Qed.

Lemma checkout_handle_ok o due e s s' : checkout_ok s → handle o due e s = Some s' → checkout_ok s'.
Proof.
  intros Hok. pose proof Hok as [H1 H2 H3 H4 H5]. destruct e as [r| |]; cbn [handle].
  - destruct (in_flight s) eqn:Ef; [|done]. intros [= <-].
    destruct (fetchBalance r); [apply poll_balance_ok|apply poll_failed_ok]; try done; by split.
  - destruct (scheduled s) as [n|] eqn:Es; [|done]. intros [= <-]. by split.
  - intros [= <-]. by apply checkout_stop_ok.
Qed.

Lemma checkout_reachable_ok o due s : reachable o due s → checkout_ok s.
Proof.
  intros Hr. assert (H : checkout_ok initial) by (split; cbn; auto; congruence || lia).
  induction Hr as [|x y z [e He] _ IH]; [done|]. apply IH. by apply (checkout_handle_ok o due e x).
Qed.

(** C33. Whatever the replies, the timing, the callbacks and the calls to [stop()]:
    a payment is reported at most once, never two polls run at a time, and a
    stopped widget has no poll scheduled. *)
Theorem checkout_safe (o : options) (due : Z) (s : checkout) (Hr : reachable o due s) :
  (length (detections s) <= 1)%nat ∧
  (in_flight s = true → scheduled s = None) ∧
  (stopped s = true → scheduled s = None).
Proof. by destruct (checkout_reachable_ok o due s Hr). Qed.

(** ** What the widget promises *)

(** The balance at which a payment of [due] is recognised, from the outcomes of
    the polls alone: the first balance is the baseline, the first later one that
    is higher by [due] is the payment, failed polls do not count. *)
Fixpoint payment (due : Z) (base : option Z) (polls : list (option Z)) : option Z :=
  match polls with
  | [] => None
  | None :: l => payment due base l
  | Some b :: l =>
      match base with
      | None => payment due (Some b) l
      | Some b0 => if due <=? b - b0 then Some b else payment due base l
      end
  end.

(** The replies arrive one after another, the timer firing in between, until
    the widget stops. *)
Fixpoint serve (o : options) (due : Z) (rs : list (option reply)) (s : checkout) : option checkout :=
  match rs with
  | [] => Some s
  | r :: rs =>
      s ← handle o due (Replied r) s;
      if stopped s then Some s else (s ← handle o due Timer s; serve o due rs s)
  end.

Definition polled (r : option reply) : option Z :=
  match fetchBalance r with Ok b => Some b | Throw _ => None end.

(** The callbacks return normally. *)
Definition callbacks_ok (o : options) : Prop :=
  (∀ f b, onDetected o = Some f → f b = None) ∧ (∀ f e, onError o = Some f → f e = None).

Definition polling (s : checkout) : Prop :=
  in_flight s = true ∧ scheduled s = None ∧ stopped s = false ∧ detected s = false.

Lemma serve_polling o due rs s :
  callbacks_ok o → polling s →
  ∃ s', serve o due rs s = Some s' ∧
    match payment due (baseline s) (polled <$> rs) with
    | None => polling s' ∧ detections s' = detections s
    | Some b => stopped s' = true ∧ scheduled s' = None ∧
        detections s' = detections s ++ (match onDetected o with Some _ => [show b] | None => [] end)
    end.
Proof.
  intros [Hd He]. revert s. induction rs as [|r rs IH]; intros s Hp; [by exists s|].
  pose proof Hp as (Hf & Hsch & Hst & Hdet). cbn [serve fmap list_fmap payment]. unfold polled at 1.
  cbn [handle]. rewrite Hf. cbn [mbind option_bind]. destruct (fetchBalance r) as [b|e].
  - unfold poll_balance. cbn [baseline detected]. rewrite Hdet. cbn [negb andb].
    destruct (baseline s) as [b0|] eqn:Eb.
    + destruct (due <=? b - b0) eqn:El.
      * destruct (onDetected o) as [f|] eqn:Ed.
        -- rewrite (Hd f (show b) eq_refl). cbn. rewrite Hsch.
           eexists. split; [done|]. cbn. by case_bool_decide.
        -- cbn. rewrite Hsch. eexists. split; [done|]. cbn. rewrite app_nil_r. by case_bool_decide.
      * unfold reschedule. cbn [stopped]. rewrite Hst. cbn [stopped handle scheduled mbind option_bind].
        edestruct IH as (s' & Hs' & Hpost); [|exists s'; split; [exact Hs'|exact Hpost]]. by repeat split.
    + unfold reschedule. cbn [stopped]. rewrite Hst. cbn [stopped handle scheduled mbind option_bind].
      edestruct IH as (s' & Hs' & Hpost); [|exists s'; split; [exact Hs'|exact Hpost]]. by repeat split.
  - unfold poll_failed. destruct (onError o) as [f|] eqn:Ee; [rewrite (He f e eq_refl)|];
      unfold reschedule; cbn [stopped]; rewrite Hst; cbn [stopped handle scheduled mbind option_bind];
      (edestruct IH as (s' & Hs' & Hpost); [|exists s'; split; [exact Hs'|exact Hpost]]); by repeat split.
Qed.

(** C14. The widget implements [payment]: as long as its callbacks return, it keeps
    polling through failures of the network, and after any list of replies it
    has reported exactly the payment those replies show, if they show one. *)
Theorem checkout_implements_payment (o : options) (due : Z) (rs : list (option reply)) (f : string → option exn)
    (Hcb : callbacks_ok o) (Hd : onDetected o = Some f) :
  ∃ s, serve o due rs initial = Some s ∧
    detections s = match payment due None (polled <$> rs) with Some b => [show b] | None => [] end ∧
    stopped s = bool_decide (payment due None (polled <$> rs) ≠ None).
Proof.
  destruct (serve_polling o due rs initial Hcb) as (s & Hs & Hp); [by repeat split|].
  cbn [baseline initial] in Hp. exists s. split; [done|].
  destruct (payment due None (polled <$> rs)) as [b|].
  - destruct Hp as (-> & _ & ->). rewrite Hd. by rewrite bool_decide_true.
  - destruct Hp as [(_ & _ & -> & _) ->]. by rewrite bool_decide_false by (by intros []).
Qed.

(** ** Runs *)

Module CheckoutExample.
Definition o : options := {|
  container_found := true; address := "CaddrOfTheShop"; amountCac := Some (JStr "1.5"); gatewayUrl := "";
  onDetected := Some (λ _, None); onError := None |}.

Definition balance_reply (confirmed unconfirmed : string) : option reply :=
  Some (Reply 200 (stringify (JObj [("confirmed", JStr confirmed); ("unconfirmed", JStr unconfirmed)]))).

Definition run_events (due : Z) (es : list event) : option checkout :=
  foldl (λ s e, s ≫= handle o due e) (Some initial) es.

Lemma run_reachable due es s : run_events due es = Some s → reachable o due s.
Proof.
  unfold run_events, reachable. revert s. induction es as [|e es IH] using rev_ind; intros s; [intros [= <-]; apply rtc_refl|].
  rewrite foldl_app. cbn [foldl]. intros H. destruct (foldl _ _ es) as [s0|] eqn:E0; [|done].
  eapply rtc_r; [by apply IH|]. by apply (step_event o due _ _ e).
Qed.
End CheckoutExample.
Import CheckoutExample.

(** [stop()] does not reach the poll in flight: a payment its reply shows is
    still reported after the widget was stopped. *)
Theorem checkout_detects_after_stop :
  ∃ s s', reachable o 150000000 s ∧ stopped s = true ∧ detections s = [] ∧
    handle o 150000000 (Replied (balance_reply "150000007" "0")) s = Some s' ∧ detections s' = ["150000007"].
Proof.
  destruct (run_events 150000000 [Replied (balance_reply "7" "0"); Timer; Stop]) as [s|] eqn:E; [|by vm_compute in E].
  exists s. destruct (handle o 150000000 (Replied (balance_reply "150000007" "0")) s) as [s'|] eqn:E'.
  - exists s'. split; [by eapply run_reachable|]. vm_compute in E. injection E as <-.
    vm_compute in E'. by injection E' as <-.
  - exfalso. vm_compute in E. injection E as <-. by vm_compute in E'.
Qed.

(** A poll that fails, a payment, and a page that stops the widget once more. *)
Lemma checkout_safe_witness :
  ∃ s, run_events 150000000 [Replied (balance_reply "7" "0"); Timer; Replied None; Timer; Replied (balance_reply "7" "150000000"); Stop] = Some s ∧
    detections s = ["150000007"] ∧ (length (detections s) <= 1)%nat ∧ scheduled s = None.
Proof.
  destruct (run_events 150000000 [Replied (balance_reply "7" "0"); Timer; Replied None; Timer; Replied (balance_reply "7" "150000000"); Stop]) as [s|] eqn:E;
    [|by vm_compute in E].
  exists s. split; [done|]. destruct (checkout_safe o 150000000 s (run_reachable _ _ s E)) as (H1 & _ & H3).
  split; [vm_compute in E; by injection E as <-|]. split; [exact H1|]. apply H3. vm_compute in E. by injection E as <-.
Defined.

Lemma checkout_implements_payment_witness :
  ∃ s, serve o 150000000 [balance_reply "7" "0"; None; balance_reply "7" "150000000"] initial = Some s ∧
    detections s = ["150000007"].
Proof.
  destruct (checkout_implements_payment o 150000000 [balance_reply "7" "0"; None; balance_reply "7" "150000000"] (λ _, None))
    as (s & Hs & Hd & _); [split; [by intros f b [= <-]|done]|done|].
  exists s. split; [exact Hs|]. rewrite Hd. by vm_compute.
Defined.
