(* ===== verification/Explorer.v ===== *)
(** * The block explorer's page (explorer/app.js)

    The page loads what the location's fragment names and renders the reply.
    Every load is asynchronous and none is cancelled, so the page is a state
    machine: the location changes, a reply arrives for any load in flight, the
    refresh timer of the home view fires, or the user searches, in any order. *)

From stdpp Require Import relations.
From S2P Require Import Prelude JsString JsNum Amount Json Hex JsValue JsDate Browser.

(** ** Formatting *)

(** [formatCac(satoshis)], which accepts whatever [BigInt] does. *)
Definition formatCac_val (satoshis : val) : result string := s ← to_bigint satoshis; Ok (formatCac s).

Definition formatTime (unixSeconds : val) : result string :=
  if negb (truthy unixSeconds) then Ok "-" else
  s ← toISOString (num_mul (to_num unixSeconds) (Fin 1000 0));
  Ok (js_replace ".000Z" " UTC" (js_replace "T" " " s)).

(** The result is a value: what is not a string or an array has no length and
    is returned as it is. *)
Definition shorten (hash : val) (n : Z) : result string :=
  if negb (truthy hash) then Ok "-" else
  l ← get hash "length";
  if negb (num_lt (num_of_Z (n * 2)) (to_num l)) then Ok (to_str hash) else
  match hash with
  | Some (JStr s) => Ok (str_slice s 0 n +:+ "…" +:+ str_slice_from s (- n))
  | Some (JArr a) => Ok (to_str (Some (JArr (js_slice a 0 n))) +:+ "…" +:+ to_str (Some (JArr (js_slice_from a (- n)))))
  | _ => Throw (ExType "hash.slice is not a function")
  end.

(** [x.toPrecision(p)]: the [p] digits [n] nearest to the number, the larger
    ones when two are as near, and its exponent [e]. *)
Definition to_precision (p : Z) (x : num) : string :=
  match x with
  | Fin m ex =>
      let sign := if m <? 0 then "-" else "" in
      let '(n, e) :=
        if m =? 0 then (0, 0) else
        let '(a, b) := num_ratio (Z.abs m) ex in
        let e := dec_exp a b - 1 in
        let '(u, v) := if 0 <=? p - 1 - e then (a * 10 ^ (p - 1 - e), b) else (a, b * 10 ^ (e + 1 - p)) in
        let n := (2 * u + v) / (2 * v) in
        if n =? 10 ^ p then (10 ^ (p - 1), e + 1) else (n, e) in
      let ds := if m =? 0 then zeros p else show n in
      sign +:+
      (if (e <? -6) || (p <=? e) then
         str_slice ds 0 1 +:+ (if p =? 1 then "" else "." +:+ str_slice_from ds 1) +:+
         (if e <? 0 then "e-" else "e+") +:+ show (Z.abs e)
       else if e =? p - 1 then ds
       else if 0 <=? e then str_slice ds 0 (e + 1) +:+ "." +:+ str_slice_from ds (e + 1)
       else "0." +:+ zeros (- (e + 1)) +:+ ds)
  | _ => num_to_string x
  end.

(** ** Requests *)

(** What [api(path)] makes of the reply. *)
Definition api_reply (r : option reply) : result json :=
  match r with
  | None => Throw (ExType "Failed to fetch")
  | Some resp =>
      data ← parse (body resp);
      if negb (reply_ok resp) then
        e ← get (Some data) "error";
        Throw (ExError (to_str (or_val e (Some (JStr ("Request failed (" +:+ show (status resp) +:+ ")"))))))
      else Ok data
  end.

Definition error_html (message : string) : string := dq "<div class='card error'>" +:+ message +:+ "</div>".
Definition loading_html : string := dq "<div class='notice'>Loading...</div>".

(** ** The views *)

(** [`${v.k}`] *)
Definition fld (v : val) (k : string) : result string := x ← get v k; Ok (to_str x).

(** [v.map(f).join("")] *)
Definition map_join (v : val) (f : nat → val → result string) : result string :=
  match v with
  | Some (JArr l) => parts ← mapR (λ ix, f ix.1 (Some ix.2)) (imap pair l); Ok (js_join "" parts)
  | None => Throw (ExType "Cannot read properties of undefined (reading 'map')")
  | Some JNull => Throw (ExType "Cannot read properties of null (reading 'map')")
  | Some _ => Throw (ExType "map is not a function")
  end.

(** [v !== null] *)
Definition not_null (v : val) : bool := match v with Some JNull => false | _ => true end.

(** [x.toFixed(1)] *)
Definition to_fixed1 (x : num) : string :=
  match x with
  | Fin m e => let '(p, q) := num_ratio (Z.abs m) e in if 10 ^ 21 * q <=? p then num_to_string x else to_fixed 1 x
  | _ => num_to_string x
  end.

Definition chart_point (maxHeight : val) (maxSupply : Z) (p : val) : result string :=
  ph ← get p "height";
  let x := num_add (Fin 8 0) (num_mul (num_div (to_num ph) (to_num maxHeight)) (Fin 584 0)) in
  frac ← (if 0 <? maxSupply then
            v ← get p "minted_satoshis"; b ← to_bigint v;
            Ok (num_div (num_of_Z (Z.quot (b * 1000) maxSupply)) (Fin 1000 0))
          else Ok (Fin 0 0));
  let y := num_add (Fin 132 0) (num_opp (num_mul frac (Fin 124 0))) in
  Ok (to_fixed1 x +:+ "," +:+ to_fixed1 y).

Definition supplyChartSvg (points : val) : result string :=
  len ← get points "length";
  if num_lt (to_num len) (Fin 2 0) then Ok "" else
  match points with
  | Some (JArr l) =>
      let last := list.last l in
      h ← get last "height";
      let maxHeight := or_val h (Some (jint 1)) in
      m ← get last "minted_satoshis"; b ← to_bigint m;
      let maxSupply := if b =? 0 then 1 else b in
      coords ← mapR (λ p, chart_point maxHeight maxSupply (Some p)) l;
      Ok (dq "
    <svg viewBox='0 0 600 140' style='width:100%;height:140px;'>
      <polyline points='" +:+ js_join " " coords +:+ dq "' fill='none' stroke='#f0c350' stroke-width='2' />
    </svg>")
  | _ => Throw (ExType "points.map is not a function")
  end.

Definition home_html (stats supply : val) : result string :=
  mined ← fld stats "pow_blocks_mined"; window ← fld stats "pow_window_blocks";
  height ← fld stats "height";
  difficulty ← get stats "difficulty";
  complete ← get stats "pow_phase_complete";
  best ← get stats "best_block_hash"; short ← shorten best 10;
  chain ← fld stats "chain";
  minted ← get stats "minted_from_pow_satoshis"; minted ← formatCac_val minted;
  premine ← get stats "premine_total_satoshis"; premine ← formatCac_val premine;
  points ← get supply "points"; chart ← supplyChartSvg points;
  note ← fld supply "note";
  Ok (dq "
      <div class='stats-grid'>
        <div class='stat-tile'><div class='label'>Height</div><div class='value'>" +:+ height +:+ dq "</div></div>
        <div class='stat-tile'><div class='label'>Difficulty</div><div class='value'>" +:+ to_precision 4 (to_num difficulty) +:+ dq "</div></div>
        <div class='stat-tile'><div class='label'>Premine window</div><div class='value'>" +:+ mined +:+ " / " +:+ window +:+ dq "</div></div>
        <div class='stat-tile'><div class='label'>Phase</div><div class='value'>" +:+ (if truthy complete then "PoS" else "PoW premine") +:+ dq "</div></div>
      </div>
      <div class='card'>
        <div class='detail-row'><span class='k'>Best block</span><span class='v mono'><a href='#/block/" +:+ to_str best +:+ dq "'>" +:+ short +:+ dq "</a></span></div>
        <div class='detail-row'><span class='k'>Chain</span><span class='v'>" +:+ chain +:+ dq "</span></div>
        <div class='detail-row'><span class='k'>Minted from PoW window so far</span><span class='v'>" +:+ minted +:+ dq " CAC</span></div>
        <div class='detail-row'><span class='k'>Total premine (full window)</span><span class='v'>" +:+ premine +:+ dq " CAC</span></div>
      </div>
      <div class='card'>
        <h3 style='margin-top:0'>Supply minted (PoW window)</h3>
        " +:+ chart +:+ dq "
        <p class='notice'>" +:+ note +:+ dq "</p>
      </div>
      <div class='card'>
        <a href='#/richlist'>View rich list &rarr;</a>
      </div>
      <div class='card'>
        <p class='notice'>Enter a block height, block hash, transaction id, or address above to look it up.
        This page auto-refreshes every 20s.</p>
      </div>
    ").

Definition richlist_row (i : nat) (a : val) : result string :=
  addr ← get a "address"; short ← shorten addr 14;
  bal ← get a "balance_satoshis"; bal ← formatCac_val bal;
  Ok (dq "
              <tr>
                <td>" +:+ show (Z.of_nat i + 1) +:+ dq "</td>
                <td class='mono'><a href='#/address/" +:+ to_str addr +:+ dq "'>" +:+ short +:+ dq "</a></td>
                <td>" +:+ bal +:+ dq " CAC</td>
              </tr>").

Definition richlist_html (data : val) : result string :=
  from ← fld data "scanned_from_height"; to ← fld data "scanned_to_height";
  truncated ← get data "truncated";
  addresses ← get data "addresses"; rows ← map_join addresses richlist_row;
  Ok (dq "
      <div class='card'>
        <h2 style='margin-top:0'>Rich list</h2>
        <p class='notice'>Computed from blocks " +:+ from +:+ "&ndash;" +:+ to +:+
        (if truthy truncated then " (older history not included -- see API note)" else "") +:+ dq ".</p>
        <table>
          <thead><tr><th>#</th><th>Address</th><th>Balance</th></tr></thead>
          <tbody>
            " +:+ rows +:+ dq "
          </tbody>
        </table>
      </div>
    ").

(** A link to a block, or what stands for none. *)
Definition block_link (h : val) (none : string) : result string :=
  if truthy h then
    short ← shorten h 10; Ok (dq "<a href='#/block/" +:+ to_str h +:+ dq "'>" +:+ short +:+ "</a>")
  else Ok none.

(** The badge of a coinbase, a coinstake or neither; [is_coinstake] is only read
    when it is not a coinbase. *)
Definition type_badge (t : val) : result string :=
  cb ← get t "is_coinbase";
  if truthy cb then Ok (dq "<span class='badge coinbase'>coinbase</span>") else
  cs ← get t "is_coinstake";
  Ok (if truthy cs then dq "<span class='badge pos'>coinstake</span>" else "transfer").

Definition block_row (_ : nat) (t : val) : result string :=
  txid ← get t "txid"; short ← shorten txid 10; badge ← type_badge t;
  total ← get t "output_total_satoshis"; total ← formatCac_val total;
  Ok (dq "
              <tr>
                <td class='mono'><a href='#/tx/" +:+ to_str txid +:+ dq "'>" +:+ short +:+ dq "</a></td>
                <td>" +:+ badge +:+ dq "</td>
                <td>" +:+ total +:+ dq " CAC</td>
              </tr>").

Definition block_html (b : val) : result string :=
  pos ← get b "is_proof_of_stake";
  let badge := if truthy pos then dq "<span class='badge pos'>PoS</span>" else dq "<span class='badge pow'>PoW</span>" in
  height ← fld b "height"; hash ← fld b "hash"; t ← get b "time"; time ← formatTime t;
  difficulty ← fld b "difficulty"; bits ← fld b "bits";
  root ← get b "merkleroot"; root ← shorten root 10;
  prev ← get b "previousblockhash"; prev ← block_link prev "-";
  next ← get b "nextblockhash"; next ← block_link next "(tip)";
  count ← fld b "tx_count";
  txs ← get b "transactions"; rows ← map_join txs block_row;
  Ok (dq "
      <div class='card'>
        <h2 style='margin-top:0'>Block " +:+ height +:+ " " +:+ badge +:+ dq "</h2>
        <div class='detail-row'><span class='k'>Hash</span><span class='v mono'>" +:+ hash +:+ dq "</span></div>
        <div class='detail-row'><span class='k'>Time</span><span class='v'>" +:+ time +:+ dq "</span></div>
        <div class='detail-row'><span class='k'>Difficulty</span><span class='v'>" +:+ difficulty +:+ dq "</span></div>
        <div class='detail-row'><span class='k'>Bits</span><span class='v mono'>" +:+ bits +:+ dq "</span></div>
        <div class='detail-row'><span class='k'>Merkle root</span><span class='v mono'>" +:+ root +:+ dq "</span></div>
        <div class='detail-row'><span class='k'>Previous block</span><span class='v mono'>" +:+ prev +:+ dq "</span></div>
        <div class='detail-row'><span class='k'>Next block</span><span class='v mono'>" +:+ next +:+ dq "</span></div>
      </div>
      <div class='card'>
        <h3 style='margin-top:0'>Transactions (" +:+ count +:+ dq ")</h3>
        <table>
          <thead><tr><th>Txid</th><th>Type</th><th>Outputs</th></tr></thead>
          <tbody>
            " +:+ rows +:+ dq "
          </tbody>
        </table>
      </div>
    ").

Definition tx_vin (_ : nat) (vin : val) : result string :=
  cb ← get vin "coinbase";
  if truthy cb then
    Ok (dq "<div class='detail-row'><span class='k'>Coinbase</span><span class='v mono'>" +:+ to_str cb +:+ "</span></div>")
  else
    txid ← get vin "txid"; short ← shorten txid 10; vout ← fld vin "vout";
    Ok (dq "<div class='detail-row'><span class='k mono'>" +:+ short +:+ ":" +:+ vout +:+ dq "</span><span class='v'></span></div>").

Definition tx_vout (_ : nat) (vout : val) : result string :=
  script ← get vout "scriptPubKey"; addr ← get script "address"; ty ← get script "type";
  v ← get vout "value";
  value ← num_to_bigint (num_round (num_mul (to_num v) (Fin 100000000 0)));
  Ok (dq "
          <div class='detail-row'>
            <span class='k mono'>" +:+ to_str (or_val (or_val addr ty) (Some (JStr "(no address)"))) +:+ dq "</span>
            <span class='v'>" +:+ formatCac value +:+ dq " CAC</span>
          </div>").

Definition tx_html (t : val) : result string :=
  badge ← type_badge t;
  txid ← fld t "txid";
  h ← get t "height";
  blk ← (if not_null h then
           bh ← fld t "blockhash"; Ok (dq "<a href='#/block/" +:+ bh +:+ dq "'>" +:+ to_str h +:+ "</a>")
         else Ok "unconfirmed");
  confirmations ← fld t "confirmations";
  tm ← get t "time"; time ← formatTime tm;
  rw ← get t "reward_satoshis";
  reward ← (if not_null rw then
              r ← formatCac_val rw;
              Ok (dq "<div class='detail-row'><span class='k'>Staking reward</span><span class='v'>" +:+ r +:+ " CAC</span></div>")
            else Ok "");
  ins ← get t "vin"; nin ← fld ins "length"; vin ← map_join ins tx_vin;
  outs ← get t "vout"; nout ← fld outs "length"; vout ← map_join outs tx_vout;
  Ok (dq "
      <div class='card'>
        <h2 style='margin-top:0'>Transaction " +:+ badge +:+ dq "</h2>
        <div class='detail-row'><span class='k'>Txid</span><span class='v mono'>" +:+ txid +:+ dq "</span></div>
        <div class='detail-row'><span class='k'>Block</span><span class='v'>" +:+ blk +:+ dq "</span></div>
        <div class='detail-row'><span class='k'>Confirmations</span><span class='v'>" +:+ confirmations +:+ dq "</span></div>
        <div class='detail-row'><span class='k'>Time</span><span class='v'>" +:+ time +:+ dq "</span></div>
        " +:+ reward +:+ dq "
      </div>
      <div class='card'>
        <h3 style='margin-top:0'>Inputs (" +:+ nin +:+ dq ")</h3>
        " +:+ vin +:+ dq "
      </div>
      <div class='card'>
        <h3 style='margin-top:0'>Outputs (" +:+ nout +:+ dq ")</h3>
        " +:+ vout +:+ dq "
      </div>
    ").

Definition address_row (_ : nat) (u : val) : result string :=
  txid ← get u "txid"; short ← shorten txid 10; vout ← fld u "vout";
  h ← get u "height";
  v ← get u "value_satoshis"; value ← formatCac_val v;
  cb ← get u "is_coinbase_or_coinstake";
  Ok (dq "
              <tr>
                <td class='mono'><a href='#/tx/" +:+ to_str txid +:+ dq "'>" +:+ short +:+ "</a>:" +:+ vout +:+ dq "</td>
                <td>" +:+ (if not_null h then dq "<a href='#/block/" +:+ to_str h +:+ dq "'>" +:+ to_str h +:+ "</a>" else "-") +:+ dq "</td>
                <td>" +:+ value +:+ " CAC " +:+
                (if truthy cb then dq "<span class='badge coinbase'>coinbase/stake</span>" else "") +:+ dq "</td>
              </tr>").

Definition address_html (a : val) : result string :=
  addr ← fld a "address"; b ← get a "balance_satoshis"; balance ← formatCac_val b; count ← fld a "utxo_count";
  note ← fld a "note";
  us ← get a "utxos"; rows ← map_join us address_row;
  Ok (dq "
      <div class='card'>
        <h2 style='margin-top:0'>Address</h2>
        <div class='detail-row'><span class='k'>Address</span><span class='v mono'>" +:+ addr +:+ dq "</span></div>
        <div class='detail-row'><span class='k'>Balance</span><span class='v'>" +:+ balance +:+ dq " CAC</span></div>
        <div class='detail-row'><span class='k'>UTXOs</span><span class='v'>" +:+ count +:+ dq "</span></div>
      </div>
      <div class='card'>
        <p class='notice'>" +:+ note +:+ dq "</p>
      </div>
      <div class='card'>
        <h3 style='margin-top:0'>Unspent outputs</h3>
        <table>
          <thead><tr><th>Txid</th><th>Height</th><th>Value</th></tr></thead>
          <tbody>
            " +:+ rows +:+ dq "
          </tbody>
        </table>
      </div>
    ").

(** ** The page *)

(** What is being loaded; the home view makes two requests. *)
Inductive load :=
  | LHome
  | LBlock (ident : string)
  | LTx (txid : string)
  | LAddress (address : string)
  | LRichlist
  | LSearch (q : string).

(** The unreserved characters of [encodeURIComponent]. *)
Definition uri_plain (c : ascii) : bool :=
  let n := code c in
  ((65 <=? n) && (n <=? 90)) || ((97 <=? n) && (n <=? 122)) || ((48 <=? n) && (n <=? 57)) ||
  existsb (Ascii.eqb c) (chars "-_.!~*'()").
Definition percent (c : ascii) : list ascii :=
  let up d := if 97 <=? code d then chr (code d - 32) else d in
  "%"%char :: (up <$> pad_start 2 "0" (digits_string 16 (code c))).
Definition encodeURIComponent (s : string) : string :=
  of_chars (mjoin ((λ c, if uri_plain c then [c] else percent c) <$> chars s)).

Definition load_paths (l : load) : list string :=
  match l with
  | LHome => ["/api/stats"; "/api/supply-series"]
  | LBlock i => ["/api/block/" +:+ i]
  | LTx t => ["/api/tx/" +:+ t]
  | LAddress a => ["/api/address/" +:+ a]
  | LRichlist => ["/api/richlist?limit=25"]
  | LSearch q => ["/api/search?q=" +:+ encodeURIComponent q]
  end.

(** How the requests of a load ended; only the home view has two.  [Promise.all]
    waits for both replies, or fails with the first error, the second request's
    when [second] holds. *)
Record answer := Answer { reply1 : option reply; reply2 : option reply; second : bool }.

Definition home_answers (a : answer) : result (json * json) :=
  let stats := api_reply (reply1 a) in
  let supply := api_reply (reply2 a) in
  match stats, supply with
  | Ok st, Ok su => Ok (st, su)
  | Throw e, Ok _ | Ok _, Throw e => Throw e
  | Throw e1, Throw e2 => Throw (if second a then e2 else e1)
  end.

(** The markup a load ends with. *)
Definition view (l : load) (a : answer) : result string :=
  match l with
  | LHome => '(stats, supply) ← home_answers a; home_html (Some stats) (Some supply)
  | LBlock _ => b ← api_reply (reply1 a); block_html (Some b)
  | LTx _ => t ← api_reply (reply1 a); tx_html (Some t)
  | LAddress _ => x ← api_reply (reply1 a); address_html (Some x)
  | LRichlist => x ← api_reply (reply1 a); richlist_html (Some x)
  | LSearch _ => Throw (ExError "")
  end.

Record explorer := Explorer {
  hash : string;                    (* location.hash *)
  content : string;                 (* app.innerHTML *)
  homeRefreshTimer : option nat;
  live : list nat;                  (* the intervals the browser runs *)
  fresh : nat;
  loads : list load;                (* in flight *)
  asked : list string;              (* the paths requested *)
  changes : nat                     (* hashchange events not yet handled *)
}.

Definition render (h : string) (s : explorer) : explorer :=
  Explorer (hash s) h (homeRefreshTimer s) (live s) (fresh s) (loads s) (asked s) (changes s).
Definition renderError (message : string) : explorer → explorer := render (error_html message).

(** The requests of a load go out. *)
Definition begin_load (l : load) (s : explorer) : explorer :=
  Explorer (hash s) (content s) (homeRefreshTimer s) (live s) (fresh s) (loads s ++ [l]) (asked s ++ load_paths l) (changes s).

(** [if (homeRefreshTimer) { clearInterval(homeRefreshTimer); homeRefreshTimer = null; }] *)
Definition clear_refresh (s : explorer) : explorer :=
  match homeRefreshTimer s with
  | Some t => Explorer (hash s) (content s) None (filter (λ x, x ≠ t) (live s)) (fresh s) (loads s) (asked s) (changes s)
  | None => s
  end.
Definition set_refresh (s : explorer) : explorer :=
  Explorer (hash s) (content s) (Some (fresh s)) (live s ++ [fresh s]) (S (fresh s)) (loads s) (asked s) (changes s).

(** The part of each view that runs before its reply. *)
Definition renderHome (s : explorer) : explorer := begin_load LHome (render loading_html (clear_refresh s)).
Definition renderRichlist (s : explorer) : explorer :=
  begin_load LRichlist (render (dq "<div class='notice'>Loading (this scans recent blocks, may take a moment)...</div>") s).
Definition renderBlock (ident : string) (s : explorer) : explorer := begin_load (LBlock ident) (render loading_html s).
Definition renderTx (txid : string) (s : explorer) : explorer := begin_load (LTx txid) (render loading_html s).
Definition renderAddress (address : string) (s : explorer) : explorer := begin_load (LAddress address) (render loading_html s).

(** The location's fragment without its leading [#] or [#/], split at its
    slashes. *)
Definition route_path (h : string) : list ascii :=
  match chars h with
  | "#"%char :: "/"%char :: l => l
  | "#"%char :: l => l
  | l => l
  end.
Definition route_parts (h : string) : string * string :=
  match js_split "/" (of_chars (route_path h)) with
  | [] => ("", "")
  | kind :: rest => (kind, js_join "/" rest)
  end.

Definition route (s : explorer) : explorer :=
  let '(kind, id) := route_parts (hash s) in
  let s := if negb (String.eqb kind "") then clear_refresh s else s in
  if String.eqb kind "" then renderHome s
  else if String.eqb kind "block" then renderBlock id s
  else if String.eqb kind "tx" then renderTx id s
  else if String.eqb kind "address" then renderAddress id s
  else if String.eqb kind "richlist" then renderRichlist s
  else renderError "Unknown page" s.

(** [location.hash = v]: the fragment is percent-encoded, and the browser
    queues an event when it differs. *)
Definition fragment_char (c : ascii) : list ascii :=
  let n := code c in
  if (n =? 9) || (n =? 10) || (n =? 13) then []
  else if (n <=? 32) || (127 <=? n) || existsb (Ascii.eqb c) [chr 34; "<"; ">"; "`"]%char then percent c
  else [c].
Definition fragment (v : string) : string :=
  let l := match chars v with "#"%char :: l => l | l => l end in
  match mjoin (fragment_char <$> l) with [] => "" | f => of_chars ("#"%char :: f) end.
Definition set_location (h : string) (s : explorer) : explorer :=
  if String.eqb h (hash s) then s
  else Explorer h (content s) (homeRefreshTimer s) (live s) (fresh s) (loads s) (asked s) (S (changes s)).

(** The search box: the loads begin, the reply moves the location. *)
Definition doSearch (input : string) (s : explorer) : explorer :=
  let q := js_trim input in if String.eqb q "" then s else begin_load (LSearch q) s.
Definition search_target (a : answer) : result string :=
  r ← api_reply (reply1 a); ty ← fld (Some r) "type"; id ← fld (Some r) "id"; Ok ("#/" +:+ ty +:+ "/" +:+ id).

(** The rest of a load, when its reply is there. *)
Definition finish (l : load) (a : answer) (s : explorer) : explorer :=
  match l with
  | LSearch _ =>
      match search_target a with
      | Ok h => set_location (fragment h) s
      | Throw e => renderError (exn_message e) s
      end
  | _ =>
      match view l a with
      | Ok h => match l with LHome => set_refresh (render h s) | _ => render h s end
      | Throw e => renderError (exn_message e) s
      end
  end.

Inductive event :=
  | Navigate (h : string)           (* the location becomes h: a link, the back button *)
  | Hashchange
  | Replied (k : nat) (a : answer)  (* the k-th load in flight ends *)
  | Tick (t : nat)
  | Search (input : string).

Definition end_load (k : nat) (s : explorer) : explorer :=
  Explorer (hash s) (content s) (homeRefreshTimer s) (live s) (fresh s) (delete k (loads s)) (asked s) (changes s).

Definition handle (e : event) (s : explorer) : option explorer :=
  match e with
  | Navigate h => Some (set_location (fragment h) s)
  | Hashchange =>
      match changes s with
      | O => None
      | S n => Some (route (Explorer (hash s) (content s) (homeRefreshTimer s) (live s) (fresh s) (loads s) (asked s) n))
      end
  | Replied k a => (λ l, finish l a (end_load k s)) <$> loads s !! k
  | Tick t =>
      if bool_decide (t ∈ live s) then
        Some (if String.eqb (hash s) "" || String.eqb (hash s) "#/" then renderHome s else s)
      else None
  | Search input => Some (doSearch input s)
  end.

(** The page as its script ends: the first [route()]. *)
Definition opened (h : string) : explorer := route (Explorer (fragment h) "" None [] 1 [] [] 0).

Inductive step (s s' : explorer) : Prop :=
  | step_event e : handle e s = Some s' → step s s'.
Definition reachable (h : string) (s : explorer) : Prop := rtc step (opened h) s.

(** ** Lemmas *)

Lemma split_join sep l : js_join (of_chars [sep]) (of_chars <$> split_chars sep l) = of_chars l.
Proof.
  induction l as [|c l IH]; [done|]. cbn [split_chars].
  assert (Hne : split_chars sep l ≠ []).
  { destruct l as [|b l]; [done|]. cbn [split_chars]. destruct (Ascii.eqb b sep); [done|]. by destruct (split_chars sep l). }
  destruct (Ascii.eqb c sep) eqn:E.
  - apply Ascii.eqb_eq in E as ->. destruct (split_chars sep l) as [|w ws] eqn:Ew; [done|].
    rewrite !fmap_cons in *. change (of_chars (sep :: l)) with (of_chars [sep] +:+ of_chars l). by rewrite <- IH.
  - destruct (split_chars sep l) as [|w ws]; [done|]. rewrite !fmap_cons in *.
    change (of_chars (c :: l)) with (String c (of_chars l)). rewrite <- IH. by destruct ws.
Qed.

(** A first part without a slash is the kind, the rest is the identifier. *)
Lemma route_parts_of kind id : "/"%char ∉ chars kind →
  route_parts ("#/" +:+ kind +:+ "/" +:+ id) = (kind, id).
Proof.
  intros Hk. unfold route_parts. set (h := "#/" +:+ kind +:+ "/" +:+ id).
  assert (E : route_path h = chars kind ++ "/"%char :: chars id).
  { unfold h, route_path. rewrite !chars_app. done. }
  rewrite E. unfold js_split. rewrite chars_of_chars.
  rewrite split_chars_app, fmap_cons, of_chars_chars by done. f_equal. change "/" with (of_chars ["/"%char]).
  by rewrite split_join, of_chars_chars.
Qed.

(** The page a location names. *)
Definition page_of (h : string) : option load :=
  let '(kind, id) := route_parts h in
  if String.eqb kind "" then Some LHome
  else if String.eqb kind "block" then Some (LBlock id)
  else if String.eqb kind "tx" then Some (LTx id)
  else if String.eqb kind "address" then Some (LAddress id)
  else if String.eqb kind "richlist" then Some LRichlist
  else None.

Lemma clear_refresh_same s :
  hash (clear_refresh s) = hash s ∧ loads (clear_refresh s) = loads s ∧ asked (clear_refresh s) = asked s ∧
  changes (clear_refresh s) = changes s.
Proof. unfold clear_refresh. by destruct (homeRefreshTimer s). Qed.

Lemma route_loads s :
  hash (route s) = hash s ∧ changes (route s) = changes s ∧
  loads (route s) = loads s ++ match page_of (hash s) with Some l => [l] | None => [] end.
Proof.
  unfold route, page_of. destruct (route_parts (hash s)) as [kind id].
  destruct (clear_refresh_same s) as (E1 & E2 & _ & E4).
  destruct (String.eqb_spec kind "") as [->|]; cbn [negb].
  - unfold renderHome. cbn. by rewrite E1, E2, E4.
  - repeat (destruct (String.eqb kind _); [cbn; by rewrite E1, E2, E4|]). cbn. by rewrite app_nil_r.
Qed.

(** What a load leaves on the page. *)
Definition shown (l : load) (a : answer) : string :=
  match view l a with Ok h => h | Throw e => error_html (exn_message e) end.

(** Replies in the order of the requests. *)
Fixpoint replies (answers : list answer) (s : explorer) : option explorer :=
  match answers with
  | [] => Some s
  | a :: answers => s ← handle (Replied 0 a) s; replies answers s
  end.

Definition is_search (l : load) : bool := match l with LSearch _ => true | _ => false end.

Lemma finish_view l a s : is_search l = false →
  hash (finish l a s) = hash s ∧ loads (finish l a s) = loads s ∧ changes (finish l a s) = changes s ∧
  content (finish l a s) = shown l a.
Proof. intros Hl. unfold finish, shown. by destruct l; try done; destruct (view _ a). Qed.

Lemma replies_in_order ls : ∀ l answers s,
  loads s = ls ++ [l] → Forall (λ l, is_search l = false) (ls ++ [l]) → length answers = S (length ls) →
  ∃ s' a, replies answers s = Some s' ∧ list.last answers = Some a ∧ loads s' = [] ∧ hash s' = hash s ∧
    changes s' = changes s ∧ content s' = shown l a.
Proof.
  induction ls as [|x ls IH]; intros l answers s Hl Hs Hn; (destruct answers as [|a answers]; [done|]);
    injection Hn as Hn; cbn [Datatypes.app] in Hl, Hs; apply Forall_cons_iff in Hs as [Hx Hs]; cbn [replies].
  - destruct answers; [|done]. cbn [handle]. rewrite Hl. cbn [lookup list_lookup fmap option_fmap option_map mbind option_bind].
    destruct (finish_view l a (end_load 0 s) Hx) as (E1 & E2 & E3 & E4).
    eexists _, a. split; [reflexivity|]. split; [done|]. rewrite E1, E2, E3, E4. cbn. by rewrite Hl.
  - cbn [handle]. rewrite Hl. cbn [lookup list_lookup fmap option_fmap option_map mbind option_bind].
    destruct (finish_view x a (end_load 0 s) Hx) as (E1 & E2 & E3 & _).
    destruct (IH l answers (finish x a (end_load 0 s))) as (s' & b & Hr & Hb & H1 & H2 & H3 & H4); [|done..|].
    { rewrite E2. cbn. by rewrite Hl. }
    exists s', b. rewrite H2, H3, E1, E3. split_and!; try done. by destruct answers.
Qed.

(** When the location changes and the replies then arrive in the order of the
    requests, the page ends with nothing in flight, at the same location, showing
    what the location names, or the error its request failed with; whatever was
    still loading before. *)
Theorem explorer_in_order (s s1 : explorer) (l : load) (answers : list answer)
    (Hev : handle Hashchange s = Some s1) (Hpage : page_of (hash s) = Some l)
    (Hloads : Forall (λ l, is_search l = false) (loads s)) (Hn : length answers = S (length (loads s))) :
  ∃ s2 a, replies answers s1 = Some s2 ∧ list.last answers = Some a ∧
    loads s2 = [] ∧ hash s2 = hash s ∧ content s2 = shown l a.
Proof.
  cbn in Hev. destruct (changes s) as [|n]; [done|]. injection Hev as <-.
  set (s0 := Explorer _ _ _ _ _ _ _ _) in *. destruct (route_loads s0) as (E1 & _ & E3).
  change (hash s0) with (hash s) in *. change (loads s0) with (loads s) in *. rewrite Hpage in E3.
  assert (Hl : is_search l = false).
  { unfold page_of in Hpage. destruct (route_parts (hash s)). repeat case_match; simplify_eq; done. }
  destruct (replies_in_order (loads s) l answers (route s0)) as (s2 & a & H1 & H2 & H3 & H4 & _ & H6); try done.
  { apply Forall_app. by split; [|apply Forall_singleton]. }
  exists s2, a. split_and!; try done. by rewrite H4.
Qed.


(** The kinds a search can find. *)
Definition found (kind id : string) : option load :=
  if String.eqb kind "block" then Some (LBlock id)
  else if String.eqb kind "tx" then Some (LTx id)
  else if String.eqb kind "address" then Some (LAddress id) else None.

Lemma fragment_plain v : Forall (λ c, fragment_char c = [c]) (chars v) → fragment ("#/" +:+ v) = "#/" +:+ v.
Proof.
  intros Hv. unfold fragment. rewrite chars_app. cbn [chars String.list_ascii_of_string Datatypes.app].
  assert (E : mjoin (fragment_char <$> ("/"%char :: chars v)) = "/"%char :: chars v).
  { change (mjoin (fragment_char <$> ("/"%char :: chars v))) with ("/"%char :: mjoin (fragment_char <$> chars v)).
    f_equal. induction Hv as [|c l Hc _ IH]; [done|]. rewrite fmap_cons, Hc.
    change (mjoin ([c] :: ?b)) with (c :: mjoin b). by rewrite IH. }
  rewrite E. change (of_chars ("#"%char :: "/"%char :: chars v)) with ("#/" +:+ of_chars (chars v)).
  by rewrite of_chars_chars.
Qed.

(** A search that the server answers with a kind and an identifier opens that
    page: the location becomes it and its load starts, with the identifier
    unchanged, slashes included. *)
Theorem search_opens (s : explorer) (k : nat) (q kind id : string) (a : answer) (r : json) (l : load)
    (Hload : loads s !! k = Some (LSearch q)) (Hreply : api_reply (reply1 a) = Ok r)
    (Hkind : get (Some r) "type" = Ok (Some (JStr kind))) (Hid : get (Some r) "id" = Ok (Some (JStr id)))
    (Hfound : found kind id = Some l) (Hplain : Forall (λ c, fragment_char c = [c]) (chars id))
    (Hnew : hash s ≠ "#/" +:+ kind +:+ "/" +:+ id) :
  ∃ s1 s2, handle (Replied k a) s = Some s1 ∧ handle Hashchange s1 = Some s2 ∧
    hash s2 = "#/" +:+ kind +:+ "/" +:+ id ∧ loads s2 = delete k (loads s) ++ [l] ∧ changes s2 = changes s.
Proof.
  assert (Hk : kind = "block" ∨ kind = "tx" ∨ kind = "address").
  { unfold found in Hfound. destruct (String.eqb_spec kind "block"), (String.eqb_spec kind "tx"),
      (String.eqb_spec kind "address"); auto; done. }
  set (h := "#/" +:+ kind +:+ "/" +:+ id) in *.
  assert (Ef : fragment h = h).
  { apply fragment_plain. rewrite !chars_app. repeat (apply Forall_app; split); try done;
      destruct Hk as [->|[->| ->]]; repeat constructor. }
  assert (Ep : page_of h = Some l).
  { unfold page_of, h. rewrite route_parts_of by (destruct Hk as [->|[->| ->]]; set_solver).
    rewrite <- Hfound. by destruct Hk as [->|[->| ->]]. }
  cbn [handle]. rewrite Hload. cbn [fmap option_fmap option_map finish]. unfold search_target, fld.
  rewrite Hreply. cbn [mbind result_bind]. rewrite Hkind. cbn [mbind result_bind]. rewrite Hid.
  cbn [mbind result_bind to_str json_to_string]. fold h. rewrite Ef. unfold set_location. cbn [end_load hash].
  rewrite (proj2 (String.eqb_neq h (hash s))) by done. eexists _, _. split; [reflexivity|]. cbn [handle changes].
  split; [reflexivity|]. match goal with |- context [route ?x] => destruct (route_loads x) as (E1 & E2 & E3) end.
  rewrite E1, E2, E3. cbn [hash loads changes]. by rewrite Ep.
Qed.

(** ** Concrete runs *)

Module ExplorerExample.
Definition replying (v : json) : answer :=
  Answer (Some {| status := 200; body := stringify v |}) None false.
Definition a_tx (txid : string) : answer :=
  replying (JObj [("txid", JStr txid); ("height", JNull); ("confirmations", jint 0); ("time", jint 0);
    ("reward_satoshis", JNull); ("vin", JArr []); ("vout", JArr [])]).
Definition a_home : answer :=
  let stats := JObj [("difficulty", jint 1); ("best_block_hash", JStr "00"); ("minted_from_pow_satoshis", JStr "5");
    ("premine_total_satoshis", JStr "10")] in
  let supply := JObj [("points", JArr []); ("note", JStr "n")] in
  Answer (Some {| status := 200; body := stringify stats |}) (Some {| status := 200; body := stringify supply |}) false.
Fixpoint run (es : list event) (s : explorer) : option explorer :=
  match es with [] => Some s | e :: es => s ← handle e s; run es s end.
End ExplorerExample.

Lemma explorer_run_reachable h es s : ExplorerExample.run es (opened h) = Some s → reachable h s.
Proof.
  unfold reachable. generalize (opened h). induction es as [|e es IH]; cbn; [by intros s0 [= <-]|].
  intros s0. destruct (handle e s0) as [s1|] eqn:E; [|done]. cbn. intros Hs.
  eapply rtc_l; [by econstructor|]. by apply IH.
Qed.

(** Loads are not tied to the location: when the reply for an earlier location
    arrives last, the page shows the earlier transaction at the later location,
    with nothing in flight to correct it. *)
Theorem explorer_stale_page :
  ∃ s, reachable "#/tx/aa" s ∧ hash s = "#/tx/bb" ∧ loads s = [] ∧ changes s = O ∧
    content s = shown (LTx "aa") (ExplorerExample.a_tx "aa") ∧
    content s ≠ shown (LTx "bb") (ExplorerExample.a_tx "bb").
Proof.
  destruct (ExplorerExample.run [Navigate "#/tx/bb"; Hashchange; Replied 1 (ExplorerExample.a_tx "bb");
    Replied 0 (ExplorerExample.a_tx "aa")] (opened "#/tx/aa")) as [s|] eqn:E; [|by vm_compute in E].
  exists s. split; [by eapply explorer_run_reachable|]. vm_compute in E. injection E as <-.
  repeat split; try (vm_compute; reflexivity). by vm_compute.
Qed.

(** Two home views in flight leave two intervals running, of which
    [homeRefreshTimer] names one: the other is never cleared. *)
Theorem explorer_timer_leak :
  ∃ s t, reachable "" s ∧ loads s = [] ∧ homeRefreshTimer s = Some t ∧ length (live s) = 2%nat.
Proof.
  destruct (ExplorerExample.run [Navigate "#/"; Hashchange; Replied 0 ExplorerExample.a_home;
    Replied 0 ExplorerExample.a_home] (opened "")) as [s|] eqn:E; [|by vm_compute in E].
  exists s, 2%nat. split; [by eapply explorer_run_reachable|]. vm_compute in E. injection E as <-. done.
Qed.

Lemma explorer_in_order_witness :
  ∃ s2, replies [ExplorerExample.a_tx "aa"; ExplorerExample.a_tx "bb"]
          (default (opened "") (ExplorerExample.run [Navigate "#/tx/bb"; Hashchange] (opened "#/tx/aa"))) = Some s2 ∧
    hash s2 = "#/tx/bb" ∧ content s2 = shown (LTx "bb") (ExplorerExample.a_tx "bb").
Proof.
  destruct (explorer_in_order (default (opened "") (handle (Navigate "#/tx/bb") (opened "#/tx/aa")))
    (default (opened "") (ExplorerExample.run [Navigate "#/tx/bb"; Hashchange] (opened "#/tx/aa"))) (LTx "bb")
    [ExplorerExample.a_tx "aa"; ExplorerExample.a_tx "bb"]) as (s2 & a & H1 & H2 & _ & H4 & H5).
  - vm_compute. reflexivity.
  - vm_compute. reflexivity.
  - vm_compute. repeat constructor.
  - reflexivity.
  - exists s2. injection H2 as <-. split; [exact H1|]. split; [exact H4|exact H5].
Defined.


Lemma search_opens_witness :
  ∃ s1 s2, handle (Replied 0 (ExplorerExample.replying (JObj [("type", JStr "block"); ("id", JStr "12")])))
      (doSearch " 12 " (Explorer "#/richlist" "" None [] 1 [] [] 0)) = Some s1 ∧
    handle Hashchange s1 = Some s2 ∧ loads s2 = [LBlock "12"].
Proof.
  destruct (search_opens (doSearch " 12 " (Explorer "#/richlist" "" None [] 1 [] [] 0)) 0 "12" "block" "12"
    (ExplorerExample.replying (JObj [("type", JStr "block"); ("id", JStr "12")]))
    (JObj [("type", JStr "block"); ("id", JStr "12")]) (LBlock "12")) as (s1 & s2 & H1 & H2 & _ & H4 & _);
    try (vm_compute; reflexivity).
  - vm_compute. repeat constructor.
  - vm_compute. congruence.
  - by exists s1, s2.
Defined.
