(* ===== verification/Issuer.v ===== *)
(** * The issuer scripts (base-issuer/, bnb-issuer/)

    The wrapped token is issued by three scripts per chain that share files: one
    makes a key and writes it to secrets.local.txt, which the build's
    configuration reads; one deploys the token and writes its address to
    deployed.json; one reads the address and seeds the pool.  A script is a
    function on the files, the transactions sent and what is printed.  The
    ethers library and the chain are parameters: [parseUnits] and the like, and
    what the chain answers after a history of transactions. *)

From S2P Require Import Prelude JsString JsNum Json JsValue.

(** ** Scripts *)

Inductive call :=
  | Deploy (contract : string) (supply : Z) (recipient : string)
  | Approve (token : val) (spender : string) (amount : Z)
  | AddLiquidityETH (token : val) (amountTokenDesired amountTokenMin amountETHMin : Z) (to : string) (deadline value : Z)
  | AddLiquidity (tokenA : val) (tokenB : string) (amountADesired amountBDesired amountAMin amountBMin : Z)
      (to : string) (deadline : Z).

Record machine := Machine {
  files : gmap string string;
  modes : gmap string Z;
  printed : list string;
  calls : list call;
  exitCode : Z
}.

Definition script (A : Type) : Type := machine → result A * machine.
#[export] Instance script_ret : MRet script := λ A a w, (Ok a, w).
#[export] Instance script_bind : MBind script := λ A B f m w,
  match m w with (Ok a, w') => f a w' | (Throw e, w') => (Throw e, w') end.
Definition lift_script {A} (r : result A) : script A := λ w, (r, w).

Definition log (s : string) : script unit := λ w,
  (Ok (), Machine (files w) (modes w) (printed w ++ [s]) (calls w) (exitCode w)).
Fixpoint log_all (l : list string) : script unit :=
  match l with [] => mret () | s :: l => _ ← log s; log_all l end.
Definition writeFile (name content : string) : script unit := λ w,
  (Ok (), Machine (<[name := content]> (files w)) (modes w) (printed w) (calls w) (exitCode w)).
Definition readFile (name : string) : script string := λ w,
  (match files w !! name with
   | Some c => Ok c
   | None => Throw (ExError ("ENOENT: no such file or directory, open '" +:+ name +:+ "'"))
   end, w).
Definition chmod (name : string) (mode : Z) : script unit := λ w,
  (Ok (), Machine (files w) (<[name := mode]> (modes w)) (printed w) (calls w) (exitCode w)).

(** [main().catch((error) => { console.error(error); process.exitCode = 1; })] *)
Definition run_main (main : script unit) (w : machine) : machine :=
  match main w with
  | (Ok _, w') => w'
  | (Throw e, w') => Machine (files w') (modes w') (printed w' ++ [exn_to_string e]) (calls w') 1
  end.

(** The ethers library and the two chains. *)
Record wallet := { w_address : string; w_privateKey : string }.
Class Ethers := {
  createRandom : wallet;
  parseUnits : string → Z → result Z;
  formatUnits : Z → Z → string;
  key_address : string → string;         (* the account of a private key *)
  respond : list call → result string;   (* the hash of the last transaction sent, or its address *)
  mined : list call → result string      (* the hash of its receipt *)
}.

(** What ethers documents: a decimal text is scaled by a power of ten, and a
    random wallet has a 32-byte key in hexadecimal and an address without
    blanks. *)
Definition is_hex (c : ascii) : bool := match digit_val c with Some d => d <? 16 | None => false end.
Definition hex_key (s : string) : Prop := ∃ l, chars s = chars "0x" ++ l ∧ length l = 64%nat ∧ forallb is_hex l = true.
Class EthersLaws {EV : Ethers} := {
  parseUnits_int : ∀ (i : list ascii) (d v : Z), all_digits 10 i = Some v → 0 <= d →
    parseUnits (of_chars i) d = Ok (v * 10 ^ d);
  parseUnits_dec : ∀ (i f : list ascii) (d vi vf : Z),
    all_digits 10 i = Some vi → all_digits 10 f = Some vf → Z.of_nat (length f) <= d →
    parseUnits (of_chars (i ++ "."%char :: f)) d = Ok (vi * 10 ^ d + vf * 10 ^ (d - Z.of_nat (length f)));
  random_key : hex_key (w_privateKey createRandom);
  random_address : ∃ l, chars (w_address createRandom) = chars "0x" ++ l ∧ forallb is_hex l = true
}.

Section scripts.
  Context {EV : Ethers}.

Definition parseEther (s : string) : result Z := parseUnits s 18.
Definition formatEther (z : Z) : string := formatUnits z 18.

(** A transaction is sent, then awaited; a contract made without a signer
    refuses to send. *)
Definition send (signer : option string) (c : call) : script string := λ w,
  match signer with
  | None => (Throw (ExError "contract runner does not support sending transactions"), w)
  | Some _ =>
      let w' := Machine (files w) (modes w) (printed w) (calls w ++ [c]) (exitCode w) in (respond (calls w'), w')
  end.
Definition wait : script string := λ w, (mined (calls w), w).

(** ** scripts/generate_wallet.js *)

Definition secrets_text (intro : string) (x : wallet) : string :=
  intro +:+ of_chars [chr 10] +:+ "Address: " +:+ w_address x +:+ of_chars [chr 10] +:+
  "Private key: " +:+ w_privateKey x +:+ of_chars [chr 10].

Definition generate_wallet (intro : string) (closing : list string) : script unit :=
  let x := createRandom in
  _ ← writeFile "secrets.local.txt" (secrets_text intro x);
  _ ← chmod "secrets.local.txt" 384;  (* 0o600 *)
  _ ← log "Secret written to secrets.local.txt (chmod 600, gitignored).";
  _ ← log ""; _ ← log ("Deployer/distributor address: " +:+ w_address x); _ ← log "";
  log_all closing.

Definition base_intro : string :=
  "CAC Base deployer/distributor account (mints the fixed supply, seeds the Uniswap pool)".
Definition bnb_intro : string :=
  "CAC BNB Chain deployer/distributor account (mints the fixed supply, seeds the PancakeSwap pool)".
Definition base_generate_wallet : script unit := generate_wallet base_intro
  ["Doesn't exist as a funded account yet -- needs real ETH on Base";
   "sent to it before deploy.js or create_pool_and_seed.js can run."].
Definition bnb_generate_wallet : script unit := generate_wallet bnb_intro
  ["Doesn't exist as a funded account yet -- needs real BNB (for gas)";
   "and real USDT (for pool liquidity) sent to it before deploy.js or";
   "create_pool_and_seed.js can run."].

(** ** hardhat.config.js *)

(** [/Private key:\s*(0x[0-9a-fA-F]{64})/] at one position, and its first match. *)
Definition key_at (l : list ascii) : option (list ascii) :=
  if is_prefix (chars "Private key:") l then
    let r := drop_spaces (drop 12 l) in
    if is_prefix (chars "0x") r && (length (take 64 (drop 2 r)) =? 64)%nat && forallb is_hex (take 64 (drop 2 r))
    then Some (take 66 r) else None
  else None.
Fixpoint find_key (l : list ascii) : option (list ascii) :=
  match key_at l with
  | Some k => Some k
  | None => match l with [] => None | _ :: l => find_key l end
  end.

Definition loadDeployerKey (w : machine) : option string :=
  match files w !! "secrets.local.txt" with
  | None => None
  | Some t => of_chars <$> find_key (chars t)
  end.

(** [a || b] on what may be missing. *)
Definition or_else (a b : option string) : option string :=
  match a with Some s => if String.eqb s "" then b else a | None => b end.

Definition DEPLOYER_KEY (env : gmap string string) (w : machine) : option string :=
  or_else (env !! "DEPLOYER_PRIVATE_KEY") (loadDeployerKey w).

Record hardhat_network := { n_url : string; n_chainId : Z; n_accounts : list string }.

Definition accounts_of (key : option string) : list string :=
  match key with Some k => if String.eqb k "" then [] else [k] | None => [] end.
Definition base_network (env : gmap string string) (w : machine) : hardhat_network :=
  {| n_url := default "" (or_else (env !! "BASE_RPC_URL") (Some "https://mainnet.base.org"));
     n_chainId := 8453; n_accounts := accounts_of (DEPLOYER_KEY env w) |}.
Definition bnb_network (env : gmap string string) (w : machine) : hardhat_network :=
  {| n_url := default "" (or_else (env !! "BSC_RPC_URL") (Some "https://bsc-dataseed.binance.org/"));
     n_chainId := 56; n_accounts := accounts_of (DEPLOYER_KEY env w) |}.
(** The fork the local network starts from, when one is asked for. *)
Definition base_forking (env : gmap string string) : option (string * option Z) :=
  match or_else (env !! "FORK_BASE") None with
  | Some _ => Some (default "" (or_else (env !! "BASE_RPC_URL") (Some "https://mainnet.base.org")), Some 49490000)
  | None => None
  end.
Definition bnb_forking (env : gmap string string) : option (string * option Z) :=
  match or_else (env !! "FORK_BSC") None with
  | Some _ => Some (default "" (or_else (env !! "BSC_RPC_URL") (Some "https://bsc-dataseed.binance.org/")), None)
  | None => None
  end.

(** [const [deployer] = await hre.ethers.getSigners()], and its [address]. *)
Definition deployer_of (n : hardhat_network) : option string := key_address <$> head (n_accounts n).
Definition deployer_address (d : option string) : result string :=
  match d with Some a => Ok a | None => Throw (ExType "Cannot read properties of undefined (reading 'address')") end.

(** ** scripts/deploy.js *)

Definition RESERVE_BACKED_SUPPLY : result Z := parseUnits "2000000" 18.

Definition deploy_main (contract explorer : string) (n : hardhat_network) : script unit :=
  supply ← lift_script RESERVE_BACKED_SUPPLY;
  d ← lift_script (deployer_address (deployer_of n));
  _ ← log ("Deploying from: " +:+ d);
  address ← send (Some d) (Deploy contract supply d);
  _ ← wait;
  _ ← log (contract +:+ " deployed to: " +:+ address);
  _ ← log ("Minted " +:+ formatUnits supply 18 +:+ " CAC to " +:+ d);
  _ ← log "";
  _ ← log ("Verify at: " +:+ explorer +:+ address);
  _ ← writeFile "deployed.json" (stringify2 (JObj [("address", JStr address); ("deployer", JStr d)]));
  log (of_chars [chr 10] +:+ "Wrote contract address to deployed.json (needed by create_pool_and_seed.js).").

Definition base_deploy : hardhat_network → script unit := deploy_main "CodexaCoinBase" "https://basescan.org/token/".
Definition bnb_deploy : hardhat_network → script unit := deploy_main "CodexaCoinBnb" "https://bscscan.com/token/".

(** ** scripts/create_pool_and_seed.js *)

(** The token's address, as deploy.js wrote it. *)
Definition token_address : script val :=
  t ← readFile "deployed.json"; v ← lift_script (parse t); lift_script (get (Some v) "address").

(** [Math.floor(Date.now() / 1000) + 600] *)
Definition deadline_of (now : Z) : Z := now / 1000 + 600.
Definition slippage (amount : Z) : Z := Z.quot (amount * 98) 100.

Definition BASE_ROUTER02_ADDRESS : string := "0x4752ba5dbc23f44d87826276bf6fd6b1c372ad24".
Definition BASE_ETH_AMOUNT : result Z := parseEther "0.05".
Definition BASE_CAC_AMOUNT : result Z := parseUnits "7400" 18.

Definition base_seed (now : Z) (n : hardhat_network) : script unit :=
  eth ← lift_script BASE_ETH_AMOUNT; cac ← lift_script BASE_CAC_AMOUNT;
  token ← token_address;
  _ ← log ("Approving router to spend " +:+ formatUnits cac 18 +:+ " CAC...");
  hash ← send (deployer_of n) (Approve token BASE_ROUTER02_ADDRESS cac);
  _ ← wait;
  _ ← log ("Approved: " +:+ hash);
  _ ← log ("Adding liquidity: " +:+ formatEther eth +:+ " ETH + " +:+ formatUnits cac 18 +:+ " CAC...");
  d ← lift_script (deployer_address (deployer_of n));
  _ ← send (deployer_of n) (AddLiquidityETH token cac (slippage cac) (slippage eth) d (deadline_of now) eth);
  receipt ← wait;
  _ ← log ("Pool seeded: " +:+ receipt);
  _ ← log "";
  _ ← log ("Verify at: https://basescan.org/tx/" +:+ receipt);
  log "Pool page (once indexed): https://www.geckoterminal.com/base/uniswap-v2-base/pools".

Definition BNB_ROUTER02_ADDRESS : string := "0x10ED43C718714eb63d5aA57B78B54704E256024E".
Definition USDT_ADDRESS : string := "0x55d398326f99059fF775485246999027B3197955".
Definition USDT_AMOUNT : result Z := parseUnits "21.41008673" 18.
Definition BNB_CAC_AMOUNT : result Z := parseUnits "1712.8069384" 18.

Definition bnb_seed (now : Z) (n : hardhat_network) : script unit :=
  usdt ← lift_script USDT_AMOUNT; cac ← lift_script BNB_CAC_AMOUNT;
  token ← token_address;
  _ ← log ("Approving router to spend " +:+ formatUnits cac 18 +:+ " CAC...");
  hash ← send (deployer_of n) (Approve token BNB_ROUTER02_ADDRESS cac);
  _ ← wait;
  _ ← log ("Approved CAC: " +:+ hash);
  _ ← log ("Approving router to spend " +:+ formatUnits usdt 18 +:+ " USDT...");
  hash ← send (deployer_of n) (Approve (Some (JStr USDT_ADDRESS)) BNB_ROUTER02_ADDRESS usdt);
  _ ← wait;
  _ ← log ("Approved USDT: " +:+ hash);
  _ ← log ("Adding liquidity: " +:+ formatUnits usdt 18 +:+ " USDT + " +:+ formatUnits cac 18 +:+ " CAC...");
  d ← lift_script (deployer_address (deployer_of n));
  _ ← send (deployer_of n) (AddLiquidity token USDT_ADDRESS cac usdt (slippage cac) (slippage usdt) d (deadline_of now));
  receipt ← wait;
  _ ← log ("Pool seeded: " +:+ receipt);
  _ ← log "";
  _ ← log ("Verify at: https://bscscan.com/tx/" +:+ receipt);
  log "Pool page (once indexed): https://www.geckoterminal.com/bsc/pancakeswap-v2/pools".
End scripts.

(** ** The key file *)

(** No [Private key:] begins in a text: no [P] before an [r], nor at its end. *)
Fixpoint no_key (l : list ascii) : bool :=
  match l with
  | [] => true
  | c :: l => negb (Ascii.eqb c "P" && match l with [] => true | d :: _ => Ascii.eqb d "r" end) && no_key l
  end.

Lemma find_key_skip pre l : no_key pre = true → find_key (pre ++ l) = find_key l.
Proof.
  induction pre as [|c pre IH]; [done|]. cbn [no_key]. intros [Hc Hp]%andb_true_iff.
  cbn [Datatypes.app]. rewrite <- (IH Hp). cbn [find_key].
  assert (E : key_at (c :: pre ++ l) = None).
  { unfold key_at. assert (Hf : is_prefix (chars "Private key:") (c :: pre ++ l) = false); [|by rewrite Hf].
    cbn -[Ascii.eqb]. apply negb_true_iff, andb_false_iff in Hc as [Hc|Hc].
    - rewrite Ascii.eqb_sym in Hc. by rewrite Hc.
    - destruct pre as [|d pre]; [done|]. cbn -[Ascii.eqb]. rewrite Ascii.eqb_sym in Hc. rewrite Hc. apply andb_false_r. }
  by rewrite E.
Qed.

Lemma hex_no_key l : forallb is_hex l = true → no_key l = true.
Proof.
  induction l as [|c l IH]; [done|]. cbn [forallb no_key]. intros [Hc Hl]%andb_true_iff. rewrite IH by done.
  destruct (Ascii.eqb_spec c "P") as [->|]; [done|]. done.
Qed.

Lemma key_found (l rest : list ascii) : length l = 64%nat → forallb is_hex l = true →
  find_key (chars "Private key: 0x" ++ l ++ rest) = Some (chars "0x" ++ l).
Proof.
  intros Hl Hh. assert (E : key_at (chars "Private key: 0x" ++ l ++ rest) = Some (chars "0x" ++ l)).
  { unfold key_at. change (is_prefix (chars "Private key:") (chars "Private key: 0x" ++ l ++ rest)) with true. cbv match.
    change (drop_spaces (drop 12 (chars "Private key: 0x" ++ l ++ rest))) with (chars "0x" ++ l ++ rest). cbv zeta.
    change (drop 2 (chars "0x" ++ l ++ rest)) with (l ++ rest). rewrite take_app_length' by lia.
    rewrite Hl, Hh. cbn [Nat.eqb andb]. change (is_prefix (chars "0x") (chars "0x" ++ l ++ rest)) with true. cbn [andb].
    rewrite app_assoc, take_app_length'; [done|]. rewrite length_app, Hl. done. }
  cbn [chars String.list_ascii_of_string Datatypes.app find_key] in *. by rewrite E.
Qed.

(** ** Running a script step by step *)

Section run.
  Context {EV : Ethers} {B : Type}.

Lemma bind_log s (f : unit → script B) w : (log s ≫= f) w = f () (log s w).2.
Proof. done. Qed.
Lemma bind_writeFile n c (f : unit → script B) w : (writeFile n c ≫= f) w = f () (writeFile n c w).2.
Proof. done. Qed.
Lemma bind_chmod n m (f : unit → script B) w : (chmod n m ≫= f) w = f () (chmod n m w).2.
Proof. done. Qed.
Lemma bind_lift_script {A} (r : result A) (f : A → script B) w :
  (lift_script r ≫= f) w = match r with Ok a => f a w | Throw e => (Throw e, w) end.
Proof. by destruct r. Qed.
Lemma bind_send d c (f : string → script B) w :
  (send (Some d) c ≫= f) w =
    match respond (calls w ++ [c]) with Ok a => f a (send (Some d) c w).2 | Throw e => (Throw e, (send (Some d) c w).2) end.
Proof. unfold mbind, script_bind, send. cbn. by destruct (respond _). Qed.
Lemma bind_wait (f : string → script B) w :
  (wait ≫= f) w = match mined (calls w) with Ok a => f a w | Throw e => (Throw e, w) end.
Proof. unfold mbind, script_bind, wait. by destruct (mined _). Qed.
End run.

Lemma log_all_files l w : (log_all l w).1 = Ok () ∧ files (log_all l w).2 = files w ∧ modes (log_all l w).2 = modes w.
Proof.
  revert w. induction l as [|x l IH]; intros w; [done|].
  change (log_all (x :: l) w) with (log_all l (log x w).2). destruct (IH (log x w).2) as (E1 & E2 & E3).
  by rewrite E1, E2, E3.
Qed.

Lemma generated_key {EV : Ethers} {EL : EthersLaws} intro closing w :
  no_key (chars (intro +:+ of_chars [chr 10] +:+ "Address: 0x")) = true →
  let w' := (generate_wallet intro closing w).2 in
  loadDeployerKey w' = Some (w_privateKey createRandom) ∧ modes w' !! "secrets.local.txt" = Some 384.
Proof.
  intros Hi w'. set (x := createRandom).
  assert (E : files w' !! "secrets.local.txt" = Some (secrets_text intro x) ∧ modes w' !! "secrets.local.txt" = Some 384).
  { unfold w', generate_wallet. fold x. rewrite bind_writeFile, bind_chmod, !bind_log.
    match goal with |- context [log_all closing ?v] => destruct (log_all_files closing v) as (_ & -> & ->) end.
    cbn [log writeFile chmod files modes snd]. by rewrite !lookup_insert_eq. }
  destruct E as [E1 E2]. split; [|done]. unfold loadDeployerKey. rewrite E1.
  destruct random_key as (l & Ek & Hl & Hh). destruct random_address as (a & Ea & Ha). fold x in Ek, Ea.
  assert (Et : chars (secrets_text intro x) =
    chars (intro +:+ of_chars [chr 10] +:+ "Address: 0x") ++ a ++ [chr 10] ++ chars "Private key: 0x" ++ l ++ [chr 10]).
  { unfold secrets_text. rewrite !chars_app, Ea, Ek, !chars_of_chars, <- !app_assoc. done. }
  rewrite Et, find_key_skip, find_key_skip, find_key_skip, key_found by (done || by apply hex_no_key).
  cbn [fmap option_fmap option_map]. by rewrite <- Ek, of_chars_chars.
Qed.

(** The key one script writes is the one the configuration signs with: for either
    chain, after the wallet was generated and with no key in the environment,
    the network's only account is the generated private key, and the file is
    readable by its owner alone. *)
Theorem deployer_key_roundtrip {EV : Ethers} {EL : EthersLaws} (env : gmap string string) (w : machine)
    (Henv : env !! "DEPLOYER_PRIVATE_KEY" = None) :
  (∀ w', w' = (base_generate_wallet w).2 →
     n_accounts (base_network env w') = [w_privateKey createRandom] ∧ modes w' !! "secrets.local.txt" = Some 384) ∧
  (∀ w', w' = (bnb_generate_wallet w).2 →
     n_accounts (bnb_network env w') = [w_privateKey createRandom] ∧ modes w' !! "secrets.local.txt" = Some 384).
Proof.
  assert (Hk : w_privateKey createRandom ≠ "").
  { destruct random_key as (l & E & _). intros E'. by rewrite E' in E. }
  unfold base_generate_wallet, bnb_generate_wallet.
  split; intros w' ->; (match goal with |- context [generate_wallet ?i ?c w] =>
    destruct (generated_key i c w eq_refl) as [Hl Hm] end; split; [|exact Hm]);
    cbn [n_accounts base_network bnb_network]; unfold DEPLOYER_KEY; rewrite Henv; cbn [or_else];
    rewrite Hl; unfold accounts_of; by rewrite (proj2 (String.eqb_neq _ _) Hk).
Qed.

(** ** Deployment and the pool *)

(** A chain that accepts and mines every transaction. *)
Definition chain_ok {EV : Ethers} : Prop := ∀ h, is_ok (respond h) = true ∧ is_ok (mined h) = true.

Section issue.
  Context {EV : Ethers} {EL : EthersLaws}.

Lemma answered h : chain_ok → ∃ x y, respond h = Ok x ∧ mined h = Ok y.
Proof. intros Hc. destruct (Hc h) as [H1 H2]. destruct (respond h), (mined h); try done. eauto. Qed.

(** The amounts of the scripts, in the token's smallest unit. *)
Lemma amounts : RESERVE_BACKED_SUPPLY = Ok (2000000 * 10 ^ 18) ∧ BASE_ETH_AMOUNT = Ok (5 * 10 ^ 16) ∧
  BASE_CAC_AMOUNT = Ok (7400 * 10 ^ 18) ∧ USDT_AMOUNT = Ok (2141008673 * 10 ^ 10) ∧ BNB_CAC_AMOUNT = Ok (17128069384 * 10 ^ 11).
Proof.
  unfold RESERVE_BACKED_SUPPLY, BASE_ETH_AMOUNT, parseEther, BASE_CAC_AMOUNT, USDT_AMOUNT, BNB_CAC_AMOUNT.
  split_and!; [apply (parseUnits_int (chars "2000000") 18 2000000)|etrans; [apply (parseUnits_dec (chars "0") (chars "05") 18 0 5)|]|
    apply (parseUnits_int (chars "7400") 18 7400)|etrans; [apply (parseUnits_dec (chars "21") (chars "41008673") 18 21 41008673)|]|
    etrans; [apply (parseUnits_dec (chars "1712") (chars "8069384") 18 1712 8069384)|]]; done.
Qed.

(** Deploying records the address the token was deployed at, where the seeding
    script finds it. *)
Lemma deploy_recorded contract explorer n d w :
  chain_ok → deployer_of n = Some d →
  let c := Deploy contract (2000000 * 10 ^ 18) d in
  ∃ token w', run_main (deploy_main contract explorer n) w = w' ∧ respond (calls w ++ [c]) = Ok token ∧
    calls w' = calls w ++ [c] ∧ exitCode w' = exitCode w ∧
    ∀ B (f : val → script B) w2, files w2 = files w' → (token_address ≫= f) w2 = f (Some (JStr token)) w2.
Proof.
  intros Hc Hd c. destruct (answered (calls w ++ [c]) Hc) as (token & y & Er & Em). exists token. eexists.
  split; [reflexivity|]. split; [done|]. unfold run_main, deploy_main. rewrite bind_lift_script, (proj1 amounts).
  rewrite Hd. cbn [deployer_address]. rewrite bind_lift_script, bind_log, bind_send.
  change (calls (log _ w).2) with (calls w). fold c. rewrite Er, bind_wait.
  change (calls (send (Some d) c (log _ w).2).2) with (calls w ++ [c]). rewrite Em, !bind_log, bind_writeFile.
  set (doc := JObj [("address", JStr token); ("deployer", JStr d)]).
  cbn [log snd calls exitCode files send writeFile]. split; [done|]. split; [done|].
  intros B f w2 Hf.
  assert (Ht : token_address w2 = (Ok (Some (JStr token)), w2)).
  { unfold token_address, mbind, script_bind, readFile. rewrite Hf, lookup_insert_eq.
    unfold stringify2. rewrite parse_write; [done|]. split; [apply list.NoDup_cons; split; [set_solver|apply NoDup_singleton]|done]. }
  unfold mbind, script_bind. fold token_address. by rewrite Ht.
Qed.

(** A script that, on the files [F], ends well after sending [new]. *)
Definition sends {A} (F : gmap string string) (m : script A) (new : list call) : Prop :=
  ∀ w, files w = F → ∃ a w', m w = (Ok a, w') ∧ files w' = F ∧ calls w' = calls w ++ new ∧ exitCode w' = exitCode w.

Section sends.
  Context {B : Type} (F : gmap string string) (new : list call).
  Hypothesis Hc : chain_ok.

Lemma sends_log s : sends F (log s) [].
Proof. intros w Hw. eexists _, _. split; [reflexivity|]. cbn. by rewrite app_nil_r. Qed.
Lemma sends_bind_log s (f : unit → script B) : sends F (f ()) new → sends F (log s ≫= f) new.
Proof. intros Hf w Hw. rewrite bind_log. by apply (Hf (log s w).2). Qed.
Lemma sends_bind_lift {A} (a : A) r (f : A → script B) : r = Ok a → sends F (f a) new → sends F (lift_script r ≫= f) new.
Proof. intros -> Hf w Hw. rewrite bind_lift_script. by apply Hf. Qed.
Lemma sends_bind_send d c (f : string → script B) :
  (∀ a, sends F (f a) new) → sends F (send (Some d) c ≫= f) (c :: new).
Proof.
  intros Hf w Hw. rewrite bind_send. destruct (answered (calls w ++ [c]) Hc) as (x & _ & -> & _).
  destruct (Hf x (send (Some d) c w).2 Hw) as (a & w' & E1 & E2 & E3 & E4). exists a, w'.
  split_and!; try done. rewrite E3. cbn. by rewrite <- app_assoc.
Qed.
Lemma sends_bind_wait (f : string → script B) : (∀ a, sends F (f a) new) → sends F (wait ≫= f) new.
Proof. intros Hf w Hw. rewrite bind_wait. destruct (answered (calls w) Hc) as (_ & y & _ & ->). by apply Hf. Qed.
End sends.

Lemma sends_main F m new w : sends F m new → files w = F →
  calls (run_main m w) = calls w ++ new ∧ exitCode (run_main m w) = exitCode w.
Proof. intros Hm Hw. destruct (Hm w Hw) as (a & w' & E & _ & H1 & H2). unfold run_main. by rewrite E. Qed.

Ltac script_tac :=
  repeat first
    [ apply sends_log
    | apply sends_bind_log
    | apply sends_bind_wait; [done|intros ?]
    | apply sends_bind_send; [done|intros ?]
    | eapply sends_bind_lift; [first [eassumption | reflexivity]|] ].

(** The whole issue on BNB Chain.  After the two scripts, on a chain that mines
    what it is sent, exactly four transactions were sent, in order: the token's
    only issuance, 2000000 CAC to the deployer; the approvals of the router for
    the CAC and the USDT it will take; and the deposit of those amounts of the
    token that was just deployed.  The pool's price is 0.0125 USDT per CAC
    exactly, and no more is accepted to slip than two per cent. *)
Theorem bnb_issue (now : Z) (n : hardhat_network) (d : string) (w : machine)
    (Hc : chain_ok) (Hd : deployer_of n = Some d) :
  let w' := run_main (bnb_seed now n) (run_main (bnb_deploy n) w) in
  ∃ token cac usdt minCac minUsdt,
    calls w' = calls w ++
      [Deploy "CodexaCoinBnb" (2000000 * 10 ^ 18) d;
       Approve (Some (JStr token)) BNB_ROUTER02_ADDRESS cac;
       Approve (Some (JStr USDT_ADDRESS)) BNB_ROUTER02_ADDRESS usdt;
       AddLiquidity (Some (JStr token)) USDT_ADDRESS cac usdt minCac minUsdt d (now / 1000 + 600)] ∧
    respond (calls w ++ [Deploy "CodexaCoinBnb" (2000000 * 10 ^ 18) d]) = Ok token ∧
    10000 * usdt = 125 * cac ∧ cac <= 2000000 * 10 ^ 18 ∧ 100 * minCac = 98 * cac ∧ 100 * minUsdt = 98 * usdt ∧
    exitCode w' = exitCode w.
Proof.
  intros w'. unfold w', bnb_deploy.
  destruct (deploy_recorded "CodexaCoinBnb" "https://bscscan.com/token/" n d w Hc Hd) as (token & w1 & -> & Er & Ec & Ex & Ht).
  destruct amounts as (_ & _ & _ & Eu & Eb).
  exists token, (17128069384 * 10 ^ 11), (2141008673 * 10 ^ 10), (slippage (17128069384 * 10 ^ 11)), (slippage (2141008673 * 10 ^ 10)).
  assert (Hrun : sends (files w1) (bnb_seed now n)
      [Approve (Some (JStr token)) BNB_ROUTER02_ADDRESS (17128069384 * 10 ^ 11);
       Approve (Some (JStr USDT_ADDRESS)) BNB_ROUTER02_ADDRESS (2141008673 * 10 ^ 10);
       AddLiquidity (Some (JStr token)) USDT_ADDRESS (17128069384 * 10 ^ 11) (2141008673 * 10 ^ 10)
         (slippage (17128069384 * 10 ^ 11)) (slippage (2141008673 * 10 ^ 10)) d (now / 1000 + 600)]).
  { unfold bnb_seed. rewrite Hd. script_tac. intros w2 Hw2. rewrite Ht by done. revert w2 Hw2. script_tac. }
  apply (sends_main _ _ _ w1) in Hrun as [E1 E2]; [|done]. rewrite E1, E2, Ec, <- app_assoc.
  split_and!; first [exact Er | exact Ex | vm_compute; congruence | reflexivity].
Qed.

(** On Base the pool is opened with 7400 CAC for 0.05 ETH, 148000 to one, after
    the router was approved for exactly the CAC it will take. *)
Theorem base_issue (now : Z) (n : hardhat_network) (d : string) (w : machine)
    (Hc : chain_ok) (Hd : deployer_of n = Some d) :
  let w' := run_main (base_seed now n) (run_main (base_deploy n) w) in
  ∃ token cac eth minCac minEth,
    calls w' = calls w ++
      [Deploy "CodexaCoinBase" (2000000 * 10 ^ 18) d;
       Approve (Some (JStr token)) BASE_ROUTER02_ADDRESS cac;
       AddLiquidityETH (Some (JStr token)) cac minCac minEth d (now / 1000 + 600) eth] ∧
    respond (calls w ++ [Deploy "CodexaCoinBase" (2000000 * 10 ^ 18) d]) = Ok token ∧
    cac = 148000 * eth ∧ cac <= 2000000 * 10 ^ 18 ∧ 100 * minCac = 98 * cac ∧ 100 * minEth = 98 * eth ∧
    exitCode w' = exitCode w.
Proof.
  intros w'. unfold w', base_deploy.
  destruct (deploy_recorded "CodexaCoinBase" "https://basescan.org/token/" n d w Hc Hd) as (token & w1 & -> & Er & Ec & Ex & Ht).
  destruct amounts as (_ & Ee & Eb & _).
  exists token, (7400 * 10 ^ 18), (5 * 10 ^ 16), (slippage (7400 * 10 ^ 18)), (slippage (5 * 10 ^ 16)).
  assert (Hrun : sends (files w1) (base_seed now n)
      [Approve (Some (JStr token)) BASE_ROUTER02_ADDRESS (7400 * 10 ^ 18);
       AddLiquidityETH (Some (JStr token)) (7400 * 10 ^ 18) (slippage (7400 * 10 ^ 18)) (slippage (5 * 10 ^ 16))
         d (now / 1000 + 600) (5 * 10 ^ 16)]).
  { unfold base_seed. rewrite Hd. script_tac. intros w2 Hw2. rewrite Ht by done. revert w2 Hw2. script_tac. }
  apply (sends_main _ _ _ w1) in Hrun as [E1 E2]; [|done]. rewrite E1, E2, Ec, <- app_assoc.
  split_and!; first [exact Er | exact Ex | vm_compute; congruence | reflexivity].
Qed.
End issue.

(** ** A concrete library and chain *)

Module IssuerExample.
Definition units (s : string) (d : Z) : result Z :=
  match split_chars "." (chars s) with
  | [i] => match all_digits 10 i with Some v => Ok (v * 10 ^ d) | None => Throw (ExType "invalid FixedNumber string value") end
  | [i; f] =>
      match all_digits 10 i, all_digits 10 f with
      | Some vi, Some vf => Ok (vi * 10 ^ d + vf * 10 ^ (d - Z.of_nat (length f)))
      | _, _ => Throw (ExType "invalid FixedNumber string value")
      end
  | _ => Throw (ExType "invalid FixedNumber string value")
  end.
#[local] Instance ethers : Ethers := {|
  createRandom := {| w_address := "0xAb12"; w_privateKey := "0x" +:+ js_repeat "c4" 32 |};
  parseUnits := units;
  formatUnits z d := show z;
  key_address k := "0xfeed";
  respond h := Ok ("0x" +:+ show (Z.of_nat (length h)));
  mined h := Ok ("0x" +:+ show (Z.of_nat (length h)))
|}.
Definition start : machine := Machine ∅ ∅ [] [] 0.
End IssuerExample.

Lemma digits_no_dot l v : all_digits 10 l = Some v → "."%char ∉ l.
Proof.
  unfold all_digits. destruct (Nat.eqb_spec (length (take_digits 10 l)) (length l)) as [E|]; [|by rewrite andb_false_r].
  intros _. induction l as [|c l IH]; [apply not_elem_of_nil|]. cbn [take_digits] in E.
  destruct (digit_val c) as [d|] eqn:Ed; [|done]. destruct (d <? 10); [|done]. injection E as E.
  apply not_elem_of_cons. split; [by intros <-|by apply IH].
Qed.

#[local] Instance example_laws : @EthersLaws IssuerExample.ethers.
Proof.
  split.
  - intros i d v Hi Hd. cbn [parseUnits IssuerExample.ethers]. unfold IssuerExample.units.
    rewrite chars_of_chars, split_chars_none by (by eapply digits_no_dot). by rewrite Hi.
  - intros i f d vi vf Hi Hf Hd. cbn [parseUnits IssuerExample.ethers]. unfold IssuerExample.units.
    rewrite chars_of_chars, split_chars_app, split_chars_none by (by eapply digits_no_dot). by rewrite Hi, Hf.
  - eexists (drop 2 (chars ("0x" +:+ js_repeat "c4" 32))). by vm_compute.
  - by exists (chars "Ab12").
Qed.

Lemma deployer_key_roundtrip_witness :
  n_accounts (bnb_network ∅ (bnb_generate_wallet (EV := IssuerExample.ethers) IssuerExample.start).2) =
    ["0x" +:+ js_repeat "c4" 32].
Proof.
  destruct (deployer_key_roundtrip (EV := IssuerExample.ethers) (EL := example_laws) ∅ IssuerExample.start) as [_ H].
  - reflexivity.
  - destruct (H _ eq_refl) as [H1 _]. exact H1.
Defined.

Lemma bnb_issue_witness :
  ∃ token cac usdt minCac minUsdt,
    calls (run_main (bnb_seed (EV := IssuerExample.ethers) 1700000000000 {| n_url := ""; n_chainId := 56; n_accounts := ["0x01"] |})
      (run_main (bnb_deploy (EV := IssuerExample.ethers) {| n_url := ""; n_chainId := 56; n_accounts := ["0x01"] |}) IssuerExample.start)) =
      [Deploy "CodexaCoinBnb" (2000000 * 10 ^ 18) "0xfeed";
       Approve (Some (JStr token)) BNB_ROUTER02_ADDRESS cac;
       Approve (Some (JStr USDT_ADDRESS)) BNB_ROUTER02_ADDRESS usdt;
       AddLiquidity (Some (JStr token)) USDT_ADDRESS cac usdt minCac minUsdt "0xfeed" 1700000600] ∧ 10000 * usdt = 125 * cac.
Proof.
  destruct (bnb_issue (EV := IssuerExample.ethers) (EL := example_laws) 1700000000000
    {| n_url := ""; n_chainId := 56; n_accounts := ["0x01"] |} "0xfeed" IssuerExample.start)
    as (token & cac & usdt & minCac & minUsdt & H1 & _ & H2 & _).
  - done.
  - reflexivity.
  - exists token, cac, usdt, minCac, minUsdt. split; [exact H1|exact H2].
Defined.

Lemma base_issue_witness :
  ∃ token cac eth minCac minEth,
    calls (run_main (base_seed (EV := IssuerExample.ethers) 1700000000000 {| n_url := ""; n_chainId := 8453; n_accounts := ["0x01"] |})
      (run_main (base_deploy (EV := IssuerExample.ethers) {| n_url := ""; n_chainId := 8453; n_accounts := ["0x01"] |}) IssuerExample.start)) =
      [Deploy "CodexaCoinBase" (2000000 * 10 ^ 18) "0xfeed";
       Approve (Some (JStr token)) BASE_ROUTER02_ADDRESS cac;
       AddLiquidityETH (Some (JStr token)) cac minCac minEth "0xfeed" 1700000600 eth] ∧ cac = 148000 * eth.
Proof.
  destruct (base_issue (EV := IssuerExample.ethers) (EL := example_laws) 1700000000000
    {| n_url := ""; n_chainId := 8453; n_accounts := ["0x01"] |} "0xfeed" IssuerExample.start)
    as (token & cac & eth & minCac & minEth & H1 & _ & H2 & _).
  - done.
  - reflexivity.
  - exists token, cac, eth, minCac, minEth. split; [exact H1|exact H2].
Defined.
