(* ===== verification/ServiceWorker.v ===== *)
(** * The service worker (web-wallet/sw.js)

    A push message becomes a notification, and a click on it opens its
    address.  The message's text is JSON when the gateway sent it; any other
    text is shown as it is. *)

From S2P Require Import Prelude JsString JsNum Json JsValue.

Record notification := { n_title : string; n_body : string; n_url : val }.

(** The payload of [event.data], which is absent for an empty push. *)
Definition push_payload (data : option string) : json :=
  match data with
  | None => JObj [("title", JStr "CodexaCoin Wallet"); ("body", JStr "")]
  | Some text =>
      match parse text with
      | Ok payload => payload
      | Throw _ => JObj [("title", JStr "CodexaCoin Wallet"); ("body", JStr text)]
      end
  end.

Definition on_push (data : option string) : result notification :=
  let payload := Some (push_payload data) in
  title ← get payload "title";
  b ← get payload "body";
  url ← get payload "url";
  mret {| n_title := to_str (or_val title (Some (JStr "CodexaCoin Wallet")));
          n_body := to_str (or_val b (Some (JStr "")));
          n_url := or_val url (Some (JStr "/")) |}.

(** The address [clients.openWindow] is called with. *)
Definition on_notificationclick (n : notification) : string := to_str (or_val (n_url n) (Some (JStr "/"))).

(** The message of the gateway, as it is sent. *)
Definition push_message (title body url : string) : json :=
  JObj [("title", JStr title); ("body", JStr body); ("url", JStr url)].

(** A message in the gateway's form is shown with its own title and text, and a
    click opens its address; an empty title or address falls back to the
    wallet's name and its start page. *)
Theorem push_shown (title body url : string) :
  ∃ n, on_push (Some (stringify (push_message title body url))) = Ok n ∧
    n_title n = (if String.eqb title "" then "CodexaCoin Wallet" else title) ∧
    n_body n = body ∧
    on_notificationclick n = (if String.eqb url "" then "/" else url).
Proof.
  unfold on_push, push_payload.
  assert (Hok : json_ok (push_message title body url)).
  { apply json_ok_obj. split; [apply (bool_decide_unpack _); by vm_compute|by repeat constructor]. }
  unfold stringify. rewrite (parse_write 0 _ Hok).
  eexists. split; [reflexivity|]. unfold on_notificationclick. cbn [n_title n_body n_url push_message obj_get].
  cbn [String.eqb Ascii.eqb Bool.eqb]. rewrite !or_str. cbn [to_str json_to_string].
  split; [done|]. destruct (String.eqb_spec body "") as [->|]; (split; [done|]);
    destruct (String.eqb_spec url "") as [->|Hu]; cbn; try done; apply String.eqb_neq in Hu; by rewrite Hu.
Qed.

(** Text that is not JSON is shown as the body under the wallet's name. *)
Lemma push_text text e :
  parse text = Throw e →
  on_push (Some text) = Ok {| n_title := "CodexaCoin Wallet"; n_body := text; n_url := Some (JStr "/") |}.
Proof.
  intros Hp. unfold on_push, push_payload. rewrite Hp. cbn. unfold or_val, truthy.
  by destruct (String.eqb_spec text "") as [->|].
Qed.

(** A push whose text is the JSON value [null] shows no notification: the
    handler throws when it reads the title. *)
Lemma push_null : is_ok (on_push (Some "null")) = false.
Proof. by vm_compute. Qed.
