(* ===== verification/App.v ===== *)
(** * The wallet page: state, keys and addresses (web-wallet/app.js, 1-115)

    The module-level variables of app.js and the parts of the document its code
    builds itself (recipient rows, quiz fields, which screen is visible) are
    the record [app], the page state of the browser.  This file has the state,
    the helpers every screen uses, and the key and address cache with its
    invariant: a cached key is the one the phrase derives for the network that
    is selected. *)

From S2P Require Import Prelude JsString JsNum Amount Json Hex JsValue Browser Primitives Base58 Address Keys Gateway Price Storage.

(** A row of the send form. *)
Record recipient_row := Row {
  row_id : string;
  row_address : string;
  row_amount : string;
  row_remove_display : string
}.

(** A word asked for in the backup quiz. *)
Record quiz_field := Quiz { quiz_index : Z; quiz_value : string }.

(** Where the text of a scan goes. *)
Inductive scan_target := ToRow (id : string) | ToProposal.

Record app := App {
  network_name : string;
  mnemonic : option string;
  addressIndices : list Z;
  activeIndex : Z;
  keys : gmap Z keypair;
  addresses : gmap Z string;
  gateway : Gateway;
  stakeToken : option string;
  qrScanHandle : option scan_target;
  sendFeeMinRate : option Z;
  sendFeeRateOverride : option Z;
  pendingMnemonic : option string;
  activeSendRecipientId : option string;
  lastHistory : option (list json);
  seenTxidsSet : option (list string);
  txPollHandle : option nat;
  sendRecipientIdCounter : Z;
  sendScreenPrice : option price;
  recipients : list recipient_row;
  quizFields : list quiz_field;
  signOptions : list (string * string);
  screen : option string;
  tab : option string;
  theme : option string;
  gateway_urls : string * string
}.

(** One setter per field. *)
Definition set_network_name (v : string) (a : app) : app :=
  App v (mnemonic a) (addressIndices a) (activeIndex a) (keys a) (addresses a) (gateway a) (stakeToken a) (qrScanHandle a) (sendFeeMinRate a) (sendFeeRateOverride a) (pendingMnemonic a) (activeSendRecipientId a) (lastHistory a) (seenTxidsSet a) (txPollHandle a) (sendRecipientIdCounter a) (sendScreenPrice a) (recipients a) (quizFields a) (signOptions a) (screen a) (tab a) (theme a) (gateway_urls a).
Definition set_mnemonic (v : option string) (a : app) : app :=
  App (network_name a) v (addressIndices a) (activeIndex a) (keys a) (addresses a) (gateway a) (stakeToken a) (qrScanHandle a) (sendFeeMinRate a) (sendFeeRateOverride a) (pendingMnemonic a) (activeSendRecipientId a) (lastHistory a) (seenTxidsSet a) (txPollHandle a) (sendRecipientIdCounter a) (sendScreenPrice a) (recipients a) (quizFields a) (signOptions a) (screen a) (tab a) (theme a) (gateway_urls a).
Definition set_addressIndices (v : list Z) (a : app) : app :=
  App (network_name a) (mnemonic a) v (activeIndex a) (keys a) (addresses a) (gateway a) (stakeToken a) (qrScanHandle a) (sendFeeMinRate a) (sendFeeRateOverride a) (pendingMnemonic a) (activeSendRecipientId a) (lastHistory a) (seenTxidsSet a) (txPollHandle a) (sendRecipientIdCounter a) (sendScreenPrice a) (recipients a) (quizFields a) (signOptions a) (screen a) (tab a) (theme a) (gateway_urls a).
Definition set_activeIndex (v : Z) (a : app) : app :=
  App (network_name a) (mnemonic a) (addressIndices a) v (keys a) (addresses a) (gateway a) (stakeToken a) (qrScanHandle a) (sendFeeMinRate a) (sendFeeRateOverride a) (pendingMnemonic a) (activeSendRecipientId a) (lastHistory a) (seenTxidsSet a) (txPollHandle a) (sendRecipientIdCounter a) (sendScreenPrice a) (recipients a) (quizFields a) (signOptions a) (screen a) (tab a) (theme a) (gateway_urls a).
Definition set_keys (v : gmap Z keypair) (a : app) : app :=
  App (network_name a) (mnemonic a) (addressIndices a) (activeIndex a) v (addresses a) (gateway a) (stakeToken a) (qrScanHandle a) (sendFeeMinRate a) (sendFeeRateOverride a) (pendingMnemonic a) (activeSendRecipientId a) (lastHistory a) (seenTxidsSet a) (txPollHandle a) (sendRecipientIdCounter a) (sendScreenPrice a) (recipients a) (quizFields a) (signOptions a) (screen a) (tab a) (theme a) (gateway_urls a).
Definition set_addresses (v : gmap Z string) (a : app) : app :=
  App (network_name a) (mnemonic a) (addressIndices a) (activeIndex a) (keys a) v (gateway a) (stakeToken a) (qrScanHandle a) (sendFeeMinRate a) (sendFeeRateOverride a) (pendingMnemonic a) (activeSendRecipientId a) (lastHistory a) (seenTxidsSet a) (txPollHandle a) (sendRecipientIdCounter a) (sendScreenPrice a) (recipients a) (quizFields a) (signOptions a) (screen a) (tab a) (theme a) (gateway_urls a).
Definition set_gateway (v : Gateway) (a : app) : app :=
  App (network_name a) (mnemonic a) (addressIndices a) (activeIndex a) (keys a) (addresses a) v (stakeToken a) (qrScanHandle a) (sendFeeMinRate a) (sendFeeRateOverride a) (pendingMnemonic a) (activeSendRecipientId a) (lastHistory a) (seenTxidsSet a) (txPollHandle a) (sendRecipientIdCounter a) (sendScreenPrice a) (recipients a) (quizFields a) (signOptions a) (screen a) (tab a) (theme a) (gateway_urls a).
Definition set_stakeToken (v : option string) (a : app) : app :=
  App (network_name a) (mnemonic a) (addressIndices a) (activeIndex a) (keys a) (addresses a) (gateway a) v (qrScanHandle a) (sendFeeMinRate a) (sendFeeRateOverride a) (pendingMnemonic a) (activeSendRecipientId a) (lastHistory a) (seenTxidsSet a) (txPollHandle a) (sendRecipientIdCounter a) (sendScreenPrice a) (recipients a) (quizFields a) (signOptions a) (screen a) (tab a) (theme a) (gateway_urls a).
Definition set_qrScanHandle (v : option scan_target) (a : app) : app :=
  App (network_name a) (mnemonic a) (addressIndices a) (activeIndex a) (keys a) (addresses a) (gateway a) (stakeToken a) v (sendFeeMinRate a) (sendFeeRateOverride a) (pendingMnemonic a) (activeSendRecipientId a) (lastHistory a) (seenTxidsSet a) (txPollHandle a) (sendRecipientIdCounter a) (sendScreenPrice a) (recipients a) (quizFields a) (signOptions a) (screen a) (tab a) (theme a) (gateway_urls a).
Definition set_sendFeeMinRate (v : option Z) (a : app) : app :=
  App (network_name a) (mnemonic a) (addressIndices a) (activeIndex a) (keys a) (addresses a) (gateway a) (stakeToken a) (qrScanHandle a) v (sendFeeRateOverride a) (pendingMnemonic a) (activeSendRecipientId a) (lastHistory a) (seenTxidsSet a) (txPollHandle a) (sendRecipientIdCounter a) (sendScreenPrice a) (recipients a) (quizFields a) (signOptions a) (screen a) (tab a) (theme a) (gateway_urls a).
Definition set_sendFeeRateOverride (v : option Z) (a : app) : app :=
  App (network_name a) (mnemonic a) (addressIndices a) (activeIndex a) (keys a) (addresses a) (gateway a) (stakeToken a) (qrScanHandle a) (sendFeeMinRate a) v (pendingMnemonic a) (activeSendRecipientId a) (lastHistory a) (seenTxidsSet a) (txPollHandle a) (sendRecipientIdCounter a) (sendScreenPrice a) (recipients a) (quizFields a) (signOptions a) (screen a) (tab a) (theme a) (gateway_urls a).
Definition set_pendingMnemonic (v : option string) (a : app) : app :=
  App (network_name a) (mnemonic a) (addressIndices a) (activeIndex a) (keys a) (addresses a) (gateway a) (stakeToken a) (qrScanHandle a) (sendFeeMinRate a) (sendFeeRateOverride a) v (activeSendRecipientId a) (lastHistory a) (seenTxidsSet a) (txPollHandle a) (sendRecipientIdCounter a) (sendScreenPrice a) (recipients a) (quizFields a) (signOptions a) (screen a) (tab a) (theme a) (gateway_urls a).
Definition set_activeSendRecipientId (v : option string) (a : app) : app :=
  App (network_name a) (mnemonic a) (addressIndices a) (activeIndex a) (keys a) (addresses a) (gateway a) (stakeToken a) (qrScanHandle a) (sendFeeMinRate a) (sendFeeRateOverride a) (pendingMnemonic a) v (lastHistory a) (seenTxidsSet a) (txPollHandle a) (sendRecipientIdCounter a) (sendScreenPrice a) (recipients a) (quizFields a) (signOptions a) (screen a) (tab a) (theme a) (gateway_urls a).
Definition set_lastHistory (v : option (list json)) (a : app) : app :=
  App (network_name a) (mnemonic a) (addressIndices a) (activeIndex a) (keys a) (addresses a) (gateway a) (stakeToken a) (qrScanHandle a) (sendFeeMinRate a) (sendFeeRateOverride a) (pendingMnemonic a) (activeSendRecipientId a) v (seenTxidsSet a) (txPollHandle a) (sendRecipientIdCounter a) (sendScreenPrice a) (recipients a) (quizFields a) (signOptions a) (screen a) (tab a) (theme a) (gateway_urls a).
Definition set_seenTxidsSet (v : option (list string)) (a : app) : app :=
  App (network_name a) (mnemonic a) (addressIndices a) (activeIndex a) (keys a) (addresses a) (gateway a) (stakeToken a) (qrScanHandle a) (sendFeeMinRate a) (sendFeeRateOverride a) (pendingMnemonic a) (activeSendRecipientId a) (lastHistory a) v (txPollHandle a) (sendRecipientIdCounter a) (sendScreenPrice a) (recipients a) (quizFields a) (signOptions a) (screen a) (tab a) (theme a) (gateway_urls a).
Definition set_txPollHandle (v : option nat) (a : app) : app :=
  App (network_name a) (mnemonic a) (addressIndices a) (activeIndex a) (keys a) (addresses a) (gateway a) (stakeToken a) (qrScanHandle a) (sendFeeMinRate a) (sendFeeRateOverride a) (pendingMnemonic a) (activeSendRecipientId a) (lastHistory a) (seenTxidsSet a) v (sendRecipientIdCounter a) (sendScreenPrice a) (recipients a) (quizFields a) (signOptions a) (screen a) (tab a) (theme a) (gateway_urls a).
Definition set_sendRecipientIdCounter (v : Z) (a : app) : app :=
  App (network_name a) (mnemonic a) (addressIndices a) (activeIndex a) (keys a) (addresses a) (gateway a) (stakeToken a) (qrScanHandle a) (sendFeeMinRate a) (sendFeeRateOverride a) (pendingMnemonic a) (activeSendRecipientId a) (lastHistory a) (seenTxidsSet a) (txPollHandle a) v (sendScreenPrice a) (recipients a) (quizFields a) (signOptions a) (screen a) (tab a) (theme a) (gateway_urls a).
Definition set_sendScreenPrice (v : option price) (a : app) : app :=
  App (network_name a) (mnemonic a) (addressIndices a) (activeIndex a) (keys a) (addresses a) (gateway a) (stakeToken a) (qrScanHandle a) (sendFeeMinRate a) (sendFeeRateOverride a) (pendingMnemonic a) (activeSendRecipientId a) (lastHistory a) (seenTxidsSet a) (txPollHandle a) (sendRecipientIdCounter a) v (recipients a) (quizFields a) (signOptions a) (screen a) (tab a) (theme a) (gateway_urls a).
Definition set_recipients (v : list recipient_row) (a : app) : app :=
  App (network_name a) (mnemonic a) (addressIndices a) (activeIndex a) (keys a) (addresses a) (gateway a) (stakeToken a) (qrScanHandle a) (sendFeeMinRate a) (sendFeeRateOverride a) (pendingMnemonic a) (activeSendRecipientId a) (lastHistory a) (seenTxidsSet a) (txPollHandle a) (sendRecipientIdCounter a) (sendScreenPrice a) v (quizFields a) (signOptions a) (screen a) (tab a) (theme a) (gateway_urls a).
Definition set_quizFields (v : list quiz_field) (a : app) : app :=
  App (network_name a) (mnemonic a) (addressIndices a) (activeIndex a) (keys a) (addresses a) (gateway a) (stakeToken a) (qrScanHandle a) (sendFeeMinRate a) (sendFeeRateOverride a) (pendingMnemonic a) (activeSendRecipientId a) (lastHistory a) (seenTxidsSet a) (txPollHandle a) (sendRecipientIdCounter a) (sendScreenPrice a) (recipients a) v (signOptions a) (screen a) (tab a) (theme a) (gateway_urls a).
Definition set_signOptions (v : list (string * string)) (a : app) : app :=
  App (network_name a) (mnemonic a) (addressIndices a) (activeIndex a) (keys a) (addresses a) (gateway a) (stakeToken a) (qrScanHandle a) (sendFeeMinRate a) (sendFeeRateOverride a) (pendingMnemonic a) (activeSendRecipientId a) (lastHistory a) (seenTxidsSet a) (txPollHandle a) (sendRecipientIdCounter a) (sendScreenPrice a) (recipients a) (quizFields a) v (screen a) (tab a) (theme a) (gateway_urls a).
Definition set_screen (v : option string) (a : app) : app :=
  App (network_name a) (mnemonic a) (addressIndices a) (activeIndex a) (keys a) (addresses a) (gateway a) (stakeToken a) (qrScanHandle a) (sendFeeMinRate a) (sendFeeRateOverride a) (pendingMnemonic a) (activeSendRecipientId a) (lastHistory a) (seenTxidsSet a) (txPollHandle a) (sendRecipientIdCounter a) (sendScreenPrice a) (recipients a) (quizFields a) (signOptions a) v (tab a) (theme a) (gateway_urls a).
Definition set_tab (v : option string) (a : app) : app :=
  App (network_name a) (mnemonic a) (addressIndices a) (activeIndex a) (keys a) (addresses a) (gateway a) (stakeToken a) (qrScanHandle a) (sendFeeMinRate a) (sendFeeRateOverride a) (pendingMnemonic a) (activeSendRecipientId a) (lastHistory a) (seenTxidsSet a) (txPollHandle a) (sendRecipientIdCounter a) (sendScreenPrice a) (recipients a) (quizFields a) (signOptions a) (screen a) v (theme a) (gateway_urls a).
Definition set_theme (v : option string) (a : app) : app :=
  App (network_name a) (mnemonic a) (addressIndices a) (activeIndex a) (keys a) (addresses a) (gateway a) (stakeToken a) (qrScanHandle a) (sendFeeMinRate a) (sendFeeRateOverride a) (pendingMnemonic a) (activeSendRecipientId a) (lastHistory a) (seenTxidsSet a) (txPollHandle a) (sendRecipientIdCounter a) (sendScreenPrice a) (recipients a) (quizFields a) (signOptions a) (screen a) (tab a) v (gateway_urls a).
Definition set_gateway_urls (v : string * string) (a : app) : app :=
  App (network_name a) (mnemonic a) (addressIndices a) (activeIndex a) (keys a) (addresses a) (gateway a) (stakeToken a) (qrScanHandle a) (sendFeeMinRate a) (sendFeeRateOverride a) (pendingMnemonic a) (activeSendRecipientId a) (lastHistory a) (seenTxidsSet a) (txPollHandle a) (sendRecipientIdCounter a) (sendScreenPrice a) (recipients a) (quizFields a) (signOptions a) (screen a) (tab a) (theme a) v.

(** [x || dflt] for an item of a storage. *)
Definition item_or (dflt : string) (x : option string) : string :=
  match x with Some s => if String.eqb s "" then dflt else s | None => dflt end.
Definition item_or_null (x : option string) : option string :=
  match x with Some s => if String.eqb s "" then None else Some s | None => None end.

(** The module's variables when its evaluation starts. *)
Definition initial_app (local session : gmap string string) : app := {|
  network_name := item_or "mainnet" (local !! "cac_network");
  mnemonic := None;
  addressIndices := [];
  activeIndex := 0;
  keys := ∅;
  addresses := ∅;
  gateway := {| baseUrl := "" |};
  stakeToken := item_or_null (session !! "cac_stake_token");
  qrScanHandle := None;
  sendFeeMinRate := None;
  sendFeeRateOverride := None;
  pendingMnemonic := None;
  activeSendRecipientId := None;
  lastHistory := None;
  seenTxidsSet := None;
  txPollHandle := None;
  sendRecipientIdCounter := 0;
  sendScreenPrice := None;
  recipients := [];
  quizFields := [];
  signOptions := [];
  screen := None;
  tab := None;
  theme := None;
  gateway_urls := (item_or "" (local !! "cac_gateway_url_mainnet"), item_or "" (local !! "cac_gateway_url_testnet"))
|}.

Section app.
  Context {PR : Primitives} {EN : Environment}.

(** ** Helpers *)

(** [state.x], read and assigned. *)
Definition the {A} (f : app → A) : js app A := a ← get_page; mret (f a).

Lemma bind_the {A B} (f : app → A) (k : A → js app B) w : (the f ≫= k) w = k (f (page w)) w.
Proof. done. Qed.

Definition with_page {P} (w : browser P) (p : P) : browser P :=
  Browser (local w) (session w) (dom w) (sent w) (drawn w) (intervals w) (next_handle w) (effects w) p.

Lemma bind_update {B} (f : app → app) (k : unit → js app B) w :
  (update f ≫= k) w = k () (with_page w (f (page w))).
Proof. done. Qed.

Definition refreshGateway : js app unit :=
  net ← the network_name;
  urls ← the gateway_urls;
  _ ← update (set_gateway {| baseUrl := if String.eqb net "mainnet" then urls.1
                                        else if String.eqb net "testnet" then urls.2 else "undefined" |});
  text "network-badge" net.

Definition escape_html_char (c : ascii) : list ascii :=
  if Ascii.eqb c "&" then chars "&amp;"
  else if Ascii.eqb c "<" then chars "&lt;"
  else if Ascii.eqb c ">" then chars "&gt;"
  else if Ascii.eqb c (chr 34) then chars "&quot;"
  else if Ascii.eqb c "'" then chars "&#39;"
  else [c].
Definition escapeHtml (s : string) : string := of_chars (mjoin (escape_html_char <$> chars s)).

(** [new URLSearchParams(query).get(name)]: the first parameter of that name,
    with plus signs and percent escapes decoded. *)
Fixpoint url_decode (l : list ascii) : list ascii :=
  match l with
  | [] => []
  | c :: l =>
      if Ascii.eqb c "+" then " "%char :: url_decode l
      else if Ascii.eqb c "%" then
        match l with
        | a :: b :: r =>
            match take_digits 16 [a; b] with
            | [x; y] => chr (x * 16 + y) :: url_decode r
            | _ => c :: url_decode l
            end
        | _ => c :: url_decode l
        end
      else c :: url_decode l
  end.

(** A text cut at the first separator. *)
Fixpoint cut (sep : ascii) (l : list ascii) : list ascii * list ascii :=
  match l with
  | [] => ([], [])
  | c :: l => if Ascii.eqb c sep then ([], l) else let '(a, b) := cut sep l in (c :: a, b)
  end.

Fixpoint find_param (name : string) (params : list (list ascii)) : option string :=
  match params with
  | [] => None
  | [] :: l => find_param name l
  | p :: l =>
      let '(k, v) := cut "=" p in
      if String.eqb (of_chars (url_decode k)) name then Some (of_chars (url_decode v)) else find_param name l
  end.
Definition search_param (query name : string) : option string :=
  find_param name (split_chars "&" (chars query)).

Definition parseBip21 (t : string) : string * option num :=
  let trimmed := js_trim t in
  if negb (js_starts_with (js_lower trimmed) "codexacoin:") then (trimmed, None)
  else
    let withoutScheme := str_slice_from trimmed 11 in
    match js_split "?" withoutScheme with
    | addr :: query :: _ =>
        (addr,
         if String.eqb query "" then None
         else match search_param query "amount" with
              | Some s => if String.eqb s "" then None else Some (parseFloat s)
              | None => None
              end)
    | [addr] => (addr, None)
    | [] => ("", None)
    end.

(** [input.value = x] on an input of type number: what is not a number clears it. *)
Definition number_text (x : num) : string := if is_finite x then num_to_string x else "".

(** ** Addresses *)

Definition addressIndicesStorageKey (net : string) : string := "cac_address_indices_" +:+ net.

(** The stored indices; the page only ever writes arrays of integers. *)
Definition index_of_json (v : json) : result Z :=
  match v with JNum x => num_to_bigint x | _ => Throw (ExType "not an index") end.

Definition loadAddressIndices : js app (list Z) :=
  net ← the network_name;
  raw ← local_get (addressIndicesStorageKey net);
  parsed ← lift (parse_or raw JNull);
  match parsed with
  | JArr (v :: vs) => lift (mapR index_of_json (v :: vs))
  | _ => mret [0]
  end.

Definition saveAddressIndices : js app unit :=
  net ← the network_name;
  l ← the addressIndices;
  local_set (addressIndicesStorageKey net) (stringify (JArr (jint <$> l))).

(** [cac.NETWORKS[state.network]] *)
Definition selected_network : js app network :=
  net ← the network_name;
  lift (match NETWORKS net with
        | Some n => Ok n
        | None => Throw (ExType "Cannot read properties of undefined")
        end).

Lemma bind_selected {B} (k : network → js app B) w :
  (selected_network ≫= k) w =
    match NETWORKS (network_name (page w)) with
    | Some n => k n w
    | None => (Throw (ExType "Cannot read properties of undefined"), w)
    end.
Proof. unfold selected_network. rewrite run_bind, bind_the. by destruct (NETWORKS _). Qed.

(** [cac.deriveKey({ mnemonic: state.mnemonic, network, index })]; there is no
    seed without a phrase. *)
Definition derive (m : option string) (net : network) (index : Z) : result keypair :=
  match m with
  | Some m => deriveKey m net index "" false
  | None => Throw (ExType "invalid mnemonic type")
  end.

Definition ensureKey (index : Z) : js app keypair :=
  ks ← the keys;
  match ks !! index with
  | Some key => mret key
  | None =>
      net ← selected_network;
      m ← the mnemonic;
      key ← lift (derive m net index);
      ks ← the keys;
      _ ← update (set_keys (<[index := key]> ks));
      addr ← lift (p2pkhAddress (hash160 (publicKey key)) net);
      addrs ← the addresses;
      _ ← update (set_addresses (<[index := addr]> addrs));
      mret key
  end.

Definition deriveAllKnownAddresses : js app unit :=
  l ← loadAddressIndices;
  _ ← update (set_addressIndices l);
  _ ← for_each l (λ idx, _ ← ensureKey idx; mret ());
  active ← the activeIndex;
  when (negb (bool_decide (active ∈ l))) (update (set_activeIndex (default 0 (list.last l)))).

Definition activeAddress : js app (option string) :=
  i ← the activeIndex;
  addrs ← the addresses;
  mret (addrs !! i).

(** [`${state.addresses[idx]}`] *)
Definition address_text (idx : Z) : js app string :=
  addrs ← the addresses;
  mret (default "undefined" (addrs !! idx)).

(** [{ ...u, _index: idx }]: spreading a primitive gives no fields. *)
Definition tag_index (idx : Z) (u : json) : json :=
  JObj (obj_set "_index" (jint idx) (match u with JObj l => l | _ => [] end)).

Definition gatherAllUtxos : js app (list json) :=
  l ← the addressIndices;
  gw ← the gateway;
  us ← collect l (λ idx,
    a ← address_text idx;
    resp ← utxos gw a;
    us ← lift (get (Some resp) "utxos" ≫= iterate);
    mret (tag_index idx <$> us));
  mret (mjoin us).
End app.

(** ** The key cache *)

Section cache.
  Context {PR : Primitives} {PL : PrimitiveLaws} {EN : Environment}.

(** The key of an index under the selected network and phrase. *)
Definition wallet_key (a : app) (i : Z) : result keypair :=
  match NETWORKS (network_name a) with
  | Some net => derive (mnemonic a) net i
  | None => Throw (ExType "Cannot read properties of undefined")
  end.

(** Every cached key is that key, with its address beside it. *)
Definition cache_ok (a : app) : Prop :=
  (∀ i k, keys a !! i = Some k → wallet_key a i = Ok k ∧
     ∃ net, NETWORKS (network_name a) = Some net ∧
       ∃ s, addresses a !! i = Some s ∧ p2pkhAddress (hash160 (publicKey k)) net = Ok s) ∧
  (∀ i s, addresses a !! i = Some s → is_Some (keys a !! i)).

Lemma cache_ok_empty a : keys a = ∅ → addresses a = ∅ → cache_ok a.
Proof. intros Hk Ha. split; intros i x; [rewrite Hk|rewrite Ha]; by rewrite lookup_empty. Qed.

Definition add_key (a : app) (i : Z) (k : keypair) (s : string) : app :=
  set_addresses (<[i := s]> (addresses a)) (set_keys (<[i := k]> (keys a)) a).

Lemma hash160_address name net b :
  NETWORKS name = Some net → ∃ s, p2pkhAddress (hash160 b) net = Ok s.
Proof.
  intros Hn. pose proof (networks_ok name net Hn) as Hok.
  rewrite p2pkhAddress_encode by (done || apply ripemd160_length).
  rewrite encode_unfold. by eexists.
Qed.

(** The page after more keys were derived. *)
Definition grown (a a' : app) : Prop :=
  ∃ ks ads, a' = set_addresses ads (set_keys ks a) ∧ keys a ⊆ ks ∧ addresses a ⊆ ads.

Lemma grown_refl a : grown a a.
Proof. exists (keys a), (addresses a). split; [by destruct a|done]. Qed.

Lemma grown_trans a b c : grown a b → grown b c → grown a c.
Proof.
  intros (k1 & d1 & -> & H1 & H2) (k2 & d2 & -> & H3 & H4). exists k2, d2. split; [by destruct a|].
  cbn in *. split; by etrans.
Qed.

Lemma wallet_key_grown a a' i : grown a a' → wallet_key a' i = wallet_key a i.
Proof. intros (ks & ads & -> & _). done. Qed.

Lemma cache_ok_add a i k s net :
  cache_ok a → NETWORKS (network_name a) = Some net → wallet_key a i = Ok k →
  p2pkhAddress (hash160 (publicKey k)) net = Ok s → cache_ok (add_key a i k s).
Proof.
  intros [Hc Ha] Hn Hk Hs. split; unfold add_key; cbn.
  - intros j k' [[<- <-]|[Hij Hj]]%lookup_insert_Some.
    + split; [done|]. exists net. split; [done|]. exists s. by rewrite lookup_insert_eq.
    + rewrite lookup_insert_ne by done. by apply Hc.
  - intros j s' [[<- <-]|[Hij Hj]]%lookup_insert_Some; [by rewrite lookup_insert_eq|].
    rewrite lookup_insert_ne by done. by eapply Ha.
Qed.

Lemma with_page_same {P} (w : browser P) : with_page w (page w) = w.
Proof. by destruct w. Qed.

(** [ensureKey] on a page whose cache is right returns the key of the index and
    adds it to the cache, or throws and changes nothing. *)
Lemma ensureKey_run i (w : browser app) :
  cache_ok (page w) →
  match wallet_key (page w) i with
  | Throw e => ensureKey i w = (Throw e, w)
  | Ok k => ∃ a', ensureKey i w = (Ok k, with_page w a') ∧ grown (page w) a' ∧ cache_ok a' ∧ keys a' !! i = Some k
  end.
Proof.
  intros Hok. pose proof Hok as [Hc Ha]. destruct (keys (page w) !! i) as [k|] eqn:Ek.
  - destruct (Hc i k Ek) as [-> _]. exists (page w). rewrite with_page_same.
    split; [|by split; [apply grown_refl|]]. unfold ensureKey. by rewrite bind_the, Ek.
  - unfold ensureKey, wallet_key. rewrite bind_the, Ek, bind_selected.
    destruct (NETWORKS (network_name (page w))) as [net|] eqn:En; [|done].
    rewrite bind_the, bind_lift. destruct (derive (mnemonic (page w)) net i) as [k|e] eqn:Ed; [|done].
    destruct (hash160_address _ net (publicKey k) En) as [s Hs].
    exists (add_key (page w) i k s).
    split; [rewrite bind_the, bind_update, bind_lift, Hs; done|].
    split.
    { exists (<[i := k]> (keys (page w))), (<[i := s]> (addresses (page w))). split; [done|].
      split; apply insert_subseteq; [done|]. destruct (addresses (page w) !! i) eqn:Ea; [|done].
      destruct (Ha i _ Ea). congruence. }
    split; [|by cbn; rewrite lookup_insert_eq].
    apply (cache_ok_add _ _ _ _ net); try done. unfold wallet_key. by rewrite En.
Qed.
End cache.

(** ** Escaping *)

(** How a browser reads character data: the five entities stand for their
    characters.  [skip] counts the rest of an entity already read. *)
Definition entities : list (string * ascii) :=
  [("&amp;", "&"%char); ("&lt;", "<"%char); ("&gt;", ">"%char); ("&quot;", chr 34); ("&#39;", "'"%char)].
Fixpoint entity_at (es : list (string * ascii)) (l : list ascii) : option (ascii * nat) :=
  match es with
  | [] => None
  | (e, c) :: es => if is_prefix (chars e) l then Some (c, pred (length (chars e))) else entity_at es l
  end.
Fixpoint html_text (skip : nat) (l : list ascii) : list ascii :=
  match l with
  | [] => []
  | c :: r =>
      match skip with
      | S k => html_text k r
      | O => match entity_at entities l with
             | Some (d, k) => d :: html_text k r
             | None => c :: html_text 0 r
             end
      end
  end.

Definition markup (c : ascii) : Prop := c ∈ ["<"%char; ">"%char; chr 34; "'"%char].

Lemma entity_at_plain c r : Ascii.eqb c "&" = false → entity_at entities (c :: r) = None.
Proof. intros Hc. unfold entities, entity_at. cbn [chars is_prefix]. cbn -[Ascii.eqb]. by rewrite (Ascii.eqb_sym "&" c), Hc. Qed.

Lemma html_text_escaped c r : html_text 0 (escape_html_char c ++ r) = c :: html_text 0 r.
Proof.
  unfold escape_html_char.
  destruct (Ascii.eqb_spec c "&") as [->|Ha]; [done|]. destruct (Ascii.eqb_spec c "<") as [->|]; [done|].
  destruct (Ascii.eqb_spec c ">") as [->|]; [done|]. destruct (Ascii.eqb_spec c (chr 34)) as [->|]; [done|].
  destruct (Ascii.eqb_spec c "'") as [->|]; [done|]. cbn [Datatypes.app html_text].
  rewrite entity_at_plain; [done|]. by apply Ascii.eqb_neq.
Qed.

Lemma escaped_plain c d : d ∈ escape_html_char c → ¬ markup d.
Proof.
  assert (Hdec : ∀ l, bool_decide (Forall (λ d, ¬ markup d) l) = true → d ∈ l → ¬ markup d).
  { intros l H%bool_decide_eq_true Hd. rewrite list.Forall_forall in H. by apply H. }
  unfold escape_html_char.
  destruct (Ascii.eqb_spec c "&"); [by apply Hdec|]. destruct (Ascii.eqb_spec c "<"); [by apply Hdec|].
  destruct (Ascii.eqb_spec c ">"); [by apply Hdec|]. destruct (Ascii.eqb_spec c (chr 34)); [by apply Hdec|].
  destruct (Ascii.eqb_spec c "'"); [by apply Hdec|]. intros ->%list_elem_of_singleton. unfold markup.
  rewrite !not_elem_of_cons. split_and!; try done. apply not_elem_of_nil.
Qed.

(** What [escapeHtml] returns cannot open a tag or leave an attribute, whatever
    text it is given, and shows as exactly that text. *)
Theorem escapeHtml_safe s :
  Forall (λ c, ¬ markup c) (chars (escapeHtml s)) ∧ of_chars (html_text 0 (chars (escapeHtml s))) = s.
Proof.
  unfold escapeHtml. rewrite chars_of_chars. split.
  - apply list.Forall_forall. intros d (l & Hd & (c & -> & _)%list_elem_of_fmap)%list_elem_of_join. by eapply escaped_plain.
  - transitivity (of_chars (chars s)); [|apply of_chars_chars]. f_equal.
    induction (chars s) as [|c l IH]; [done|]. rewrite fmap_cons.
    change (mjoin (?x :: ?y)) with (x ++ mjoin y). by rewrite html_text_escaped, IH.
Qed.
