(* ===== verification/AppHome.v ===== *)
(** * The home screen (web-wallet/app.js, 293-324) *)

From S2P Require Import Prelude JsString JsNum Amount Json Hex JsValue Browser Primitives Address Gateway Price App.

(** [e instanceof GatewayError ? e.message : String(e)] *)
Definition error_text (e : exn) : string :=
  match e with ExGateway _ m => m | _ => exn_to_string e end.
(** [e instanceof GatewayError ? e.message : other] *)
Definition error_or (other : string) (e : exn) : string :=
  match e with ExGateway _ m => m | _ => other end.

(** The name of a price source on screen. *)
Definition source_label (p : price) : string :=
  if String.eqb (source p) "bnb" then "PancakeSwap (BNB Chain)" else "Stellar DEX".

Section home.
  Context {PR : Primitives} {EN : Environment}.

(** The sum of the two parts of a balance reply. *)
Definition balance_total (b : json) : result Z :=
  c ← get (Some b) "confirmed"; confirmed ← to_bigint c;
  u ← get (Some b) "unconfirmed"; unconfirmed ← to_bigint u;
  mret (confirmed + unconfirmed).

Definition loadFiatValue (totalSatoshis : Z) : js app unit :=
  _ ← text "home-fiat-value" "";
  p ← fetchCacUsdPrice;
  match p with
  | None => pass
  | Some p =>
      let cacAmount := string_to_number (formatCac totalSatoshis) in
      let usdValue := num_mul cacAmount (usdPerCac p) in
      text "home-fiat-value" ("~$" +:+ locale2 usdValue +:+ " (estimated -- based on thin " +:+ source_label p +:+
        " liquidity, not a reliable market price)")
  end.

Definition loadHome : js app unit :=
  _ ← text "home-error" "";
  addr ← activeAddress;
  _ ← text "home-address" (default "" addr);
  l ← the addressIndices;
  _ ← text "home-address-count"
        (if (1 <? length l)%nat then "Balance combined across " +:+ show (Z.of_nat (length l)) +:+ " addresses" else "");
  try_catch (
    gw ← the gateway;
    parts ← collect l (λ idx, a ← address_text idx; b ← balance gw a; lift (balance_total b));
    let total := foldl Z.add 0 parts in
    _ ← text "home-balance" (formatCac total +:+ " CAC");
    spawn (loadFiatValue total))
  (λ e, text "home-error" (error_or ("Could not reach the network: " +:+ exn_to_string e) e)).
End home.
