(* ===== verification/AppSend.v ===== *)
(** * Sending (web-wallet/app.js, 326-579 and 698-788)

    The recipient rows, the fee controls, the send button with its coin
    selection, the local log of sent transactions and the fee bump built on
    it. *)

From S2P Require Import Prelude JsString JsNum Amount Json Hex JsValue Browser Primitives Base58 Bech32 Address Keys TxCodec Signing BumpFee Gateway Price Storage App AppHome.

(** ** Recipient rows *)

Definition recipientRowHtml (id : Z) : string :=
  dq "<div class='recipient-row' data-recipient-id='" +:+ show id +:+ dq "'>
    <div class='recipient-header'>
      <label class='field-label'>Destination address</label>
      <button class='danger remove-recipient-btn' type='button' data-remove-recipient='" +:+ show id +:+ dq "'>Remove</button>
    </div>
    <div class='row'>
      <input class='recipient-address' placeholder='C...' />
      <button class='secondary qr-scan-btn' type='button' title='Scan QR code'>Scan</button>
    </div>
    <label class='field-label'>Amount (CAC)</label>
    <input class='recipient-amount' type='number' step='0.00000001' />
  </div>".

(** Change the row with an id, if it is still on the page. *)
Definition alter_row (id : string) (f : recipient_row → recipient_row) : js app unit :=
  rows ← the recipients;
  update (set_recipients ((λ r, if String.eqb (row_id r) id then f r else r) <$> rows)).

Definition set_row_address (v : string) (r : recipient_row) : recipient_row :=
  Row (row_id r) v (row_amount r) (row_remove_display r).
Definition set_row_amount (v : string) (r : recipient_row) : recipient_row :=
  Row (row_id r) (row_address r) v (row_remove_display r).

Definition updateRecipientRemoveButtons : js app unit :=
  rows ← the recipients;
  update (set_recipients
    ((λ r, Row (row_id r) (row_address r) (row_amount r) (if (1 <? length rows)%nat then "" else "none")) <$> rows)).

Definition addRecipientRow : js app unit :=
  id ← the sendRecipientIdCounter;
  _ ← update (set_sendRecipientIdCounter (id + 1));
  rows ← the recipients;
  _ ← update (set_recipients (rows ++ [Row (show id) "" "" ""]));
  active ← the activeSendRecipientId;
  _ ← match active with None => update (set_activeSendRecipientId (Some (show id))) | Some _ => pass end;
  updateRecipientRemoveButtons.

Definition resetSendRecipients : js app unit :=
  _ ← update (set_recipients []);
  _ ← update (set_sendRecipientIdCounter 0);
  _ ← update (set_activeSendRecipientId None);
  addRecipientRow.

(** ** Fee controls *)

Section send.
  Context {PR : Primitives} {EN : Environment}.

(** [(rate * vsize + 999n) / 1000n] *)
Definition rate_fee (rate vsize : Z) : Z := Z.quot (rate * vsize + 999) 1000.

Definition effective_rate (a : app) : Z :=
  match sendFeeRateOverride a with
  | Some r => r
  | None => default 0 (sendFeeMinRate a)
  end.
Definition effectiveSendFeeRate : js app Z := the effective_rate.

Definition updateSendFeeEstimate : js app unit :=
  m ← the sendFeeMinRate;
  match m with
  | None => text "send-fee-estimate" ""
  | Some minRate =>
      rate ← effectiveSendFeeRate;
      rows ← the recipients;
      let rowCount := if (length rows =? 0)%nat then 1 else Z.of_nat (length rows) in
      let outputCount := rowCount + 1 in
      let roughVsize := 10 + 148 + outputCount * 34 in
      let roughFee := rate_fee rate roughVsize in
      text "send-fee-estimate" ("~" +:+ formatCac roughFee +:+
        " CAC for a single-input send (scales up with more inputs/recipients) -- recommended: " +:+ show minRate +:+ " sat/vB")
  end.

(** The rate a request for [rate] becomes. *)
Definition clamp_rate (minRate rate : Z) : Z :=
  let ceiling := minRate * 50 in
  if rate <? minRate then minRate else if ceiling <? rate then ceiling else rate.

Definition setSendFeeRate (rate : Z) : js app unit :=
  m ← the sendFeeMinRate;
  match m with
  | None => pass
  | Some minRate =>
      let clamped := clamp_rate minRate rate in
      _ ← update (set_sendFeeRateOverride (if clamped =? minRate then None else Some clamped));
      _ ← set_value "send-fee-rate" (show clamped);
      updateSendFeeEstimate
  end.

Definition fee_decrease : js app unit := r ← effectiveSendFeeRate; setSendFeeRate (r - 10).
Definition fee_increase : js app unit := r ← effectiveSendFeeRate; setSendFeeRate (r + 10).
Definition fee_reset : js app unit := m ← the sendFeeMinRate; setSendFeeRate (default 0 m).
(** The number typed: [parseInt] rounds to a double, and a double that is not
    finite or not positive resets the rate. *)
Definition fee_changed (v : string) : js app unit :=
  match parse_int 10 (chars v) with
  | None => fee_reset
  | Some z =>
      match num_of_Z z with
      | Fin _ _ => if to_number z <=? 0 then fee_reset else setSendFeeRate (to_number z)
      | _ => fee_reset
      end
  end.

Definition loadSendFeeRate : js app unit :=
  _ ← try_catch (
    gw ← the gateway;
    feeResp ← feeEstimate gw 6;
    rate ← lift (get (Some feeResp) "fee_rate_sat_per_vbyte" ≫= to_bigint);
    _ ← update (set_sendFeeMinRate (Some rate));
    _ ← update (set_sendFeeRateOverride None);
    _ ← dom_set "send-fee-rate" "min" (show rate);
    set_value "send-fee-rate" (show rate))
  (λ _, update (set_sendFeeMinRate None));
  updateSendFeeEstimate.

Definition updateSendAmountFiat : js app unit :=
  rows ← the recipients;
  p ← the sendScreenPrice;
  let amounts := filter (λ a, num_gt0 a = true) ((λ r, parseFloat (row_amount r)) <$> rows) in
  match p, amounts with
  | Some p, _ :: _ =>
      let total := foldl num_add (Fin 0 0) amounts in
      let usdValue := num_mul total (usdPerCac p) in
      let prefix := if (1 <? length rows)%nat then "Total: " else "" in
      _ ← text "send-amount-fiat" (prefix +:+ "~$" +:+ locale2 usdValue +:+ " (estimated -- thin " +:+ source_label p +:+
        " liquidity, not a reliable market price)");
      updateSendFeeEstimate
  | _, _ => text "send-amount-fiat" ""
  end.

Definition loadSendAmountFiat : js app unit :=
  p ← fetchCacUsdPrice;
  _ ← update (set_sendScreenPrice p);
  updateSendAmountFiat.

(** ** Events of a row *)

Definition row_focus (id : string) : js app unit := update (set_activeSendRecipientId (Some id)).

Definition row_address_changed (id v : string) : js app unit :=
  let '(addr, amount) := parseBip21 v in
  if String.eqb addr v then alter_row id (set_row_address v)
  else
    _ ← alter_row id (set_row_address addr);
    match amount with Some x => alter_row id (set_row_amount (number_text x)) | None => pass end.

Definition row_amount_input (id v : string) : js app unit :=
  _ ← alter_row id (set_row_amount v);
  updateSendAmountFiat.

Definition row_scanned (id t : string) : js app unit :=
  let '(addr, amount) := parseBip21 t in
  _ ← alter_row id (set_row_address addr);
  match amount with Some x => alter_row id (set_row_amount (number_text x)) | None => pass end.

Definition row_remove (id : string) : js app unit :=
  rows ← the recipients;
  _ ← update (set_recipients (filter (λ r, row_id r ≠ id) rows));
  _ ← updateRecipientRemoveButtons;
  updateSendAmountFiat.
End send.

(** ** The fee controls *)

Section controls.
  Context {EN : Environment}.

Lemma clamp_rate_range m r : 0 <= m → m <= clamp_rate m r <= 50 * m.
Proof. intros Hm. unfold clamp_rate. destruct (Z.ltb_spec r m), (Z.ltb_spec (m * 50) r); lia. Qed.

Lemma estimate_quiet w : ∃ w', updateSendFeeEstimate w = (Ok (), w') ∧ page w' = page w.
Proof.
  unfold updateSendFeeEstimate. rewrite bind_the. destruct (sendFeeMinRate (page w)); [|by eexists].
  unfold effectiveSendFeeRate. rewrite !bind_the. by eexists.
Qed.

(** [setSendFeeRate] with a known floor sets the clamped rate. *)
Lemma setSendFeeRate_run w m r :
  sendFeeMinRate (page w) = Some m →
  ∃ w', setSendFeeRate r w = (Ok (), w') ∧ sendFeeMinRate (page w') = Some m ∧
    effective_rate (page w') = clamp_rate m r ∧
    (sendFeeRateOverride (page w') = None ∨ sendFeeRateOverride (page w') = Some (clamp_rate m r)).
Proof.
  intros Hm. unfold setSendFeeRate. rewrite bind_the, Hm, bind_update, run_bind. cbv match.
  match goal with |- context [set_value _ _ ?x] => set (w1 := x) end.
  destruct (estimate_quiet (set_value "send-fee-rate" (show (clamp_rate m r)) w1).2) as (w' & E & Hp).
  change (set_value "send-fee-rate" (show (clamp_rate m r)) w1) with
    (@Ok unit (), (set_value "send-fee-rate" (show (clamp_rate m r)) w1).2). cbv match.
  exists w'. split; [exact E|]. rewrite Hp. unfold effective_rate. cbn.
  destruct (Z.eqb_spec (clamp_rate m r) m) as [->|]; rewrite Hm; by auto.
Qed.

(** Each of the four controls is a request for some rate. *)
Lemma control_request w h v :
  h ∈ [fee_decrease; fee_increase; fee_reset; fee_changed v] → ∃ r, h w = setSendFeeRate r w.
Proof.
  assert (Hreset : ∃ r, fee_reset w = setSendFeeRate r w) by (unfold fee_reset; rewrite bind_the; by eexists).
  rewrite !elem_of_cons. intros [-> |[-> |[-> |[-> |[]%not_elem_of_nil]]]]; [..|exact Hreset|].
  - unfold fee_decrease, effectiveSendFeeRate. rewrite bind_the. by eexists.
  - unfold fee_increase, effectiveSendFeeRate. rewrite bind_the. by eexists.
  - unfold fee_changed. destruct (parse_int 10 (chars v)); [|exact Hreset].
    destruct (num_of_Z _); [exact Hreset..|]. destruct (_ <=? 0); [exact Hreset|by eexists].
Qed.

(** Whatever the user does with the fee controls once the floor [m] is known,
    the rate in effect stays between [m] and fifty times [m], the floor itself
    does not move, and the controls never throw. *)
Theorem fee_controls_clamped w m h v :
  sendFeeMinRate (page w) = Some m → 0 <= m → h ∈ [fee_decrease; fee_increase; fee_reset; fee_changed v] →
  ∃ w', h w = (Ok (), w') ∧ sendFeeMinRate (page w') = Some m ∧ m <= effective_rate (page w') <= 50 * m.
Proof.
  intros Hm H0 Hh. destruct (control_request w h v Hh) as [r ->].
  destruct (setSendFeeRate_run w m r Hm) as (w' & E & Hm' & He & _). exists w'. rewrite He.
  split; [done|]. split; [done|]. by apply clamp_rate_range.
Qed.
End controls.

Lemma fee_controls_clamped_witness :
  let w := new_browser (set_sendFeeMinRate (Some 100) (initial_app ∅ ∅)) in
  ∃ w', fee_changed "9999" w = (Ok (), w') ∧ 100 <= effective_rate (page w') <= 50 * 100.
Proof.
  intros w. destruct (fee_controls_clamped w 100 (fee_changed "9999") "9999") as (w' & H1 & _ & H2).
  - reflexivity.
  - lia.
  - do 3 right. left.
  - exists w'. split; [exact H1|exact H2].
Defined.
