(* ===== verification/AppSpend.v ===== *)
(** * The send button and the fee bump (web-wallet/app.js, 419-579)

    [send_confirm] is the whole click handler: it reads the rows, decodes the
    addresses, gathers the outputs of every known address, selects coins until
    they cover the amounts and the fee, signs, broadcasts and records what it
    sent.  [bumpFee] rebuilds a recorded transaction with a higher fee. *)

From S2P Require Import Prelude JsString JsNum Amount Json Hex JsValue Browser Primitives Base58 Bech32 Address Keys TxCodec Signing BumpFee Gateway Price Storage App AppHome AppSend.

Record recipient := { rc_address : string; rc_amount : Z }.

(** The rows of the form: [None] when one of them is incomplete. *)
Fixpoint read_recipients (rows : list recipient_row) : result (option (list recipient)) :=
  match rows with
  | [] => Ok (Some [])
  | r :: rows =>
      let addr := js_trim (row_address r) in
      let amountCac := parseFloat (row_amount r) in
      if String.eqb addr "" || num_falsy amountCac || num_le0 amountCac then Ok None
      else
        satoshis ← to_satoshis amountCac;
        rest ← read_recipients rows;
        Ok (match rest with Some l => Some ({| rc_address := addr; rc_amount := satoshis |} :: l) | None => None end)
  end.

(** ** The log of sent transactions *)

Section log.
  Context {P : Type}.

Definition loadSentTxLog : js P json :=
  raw ← local_get "cac_sent_tx_log";
  lift (parse_or raw (JObj [])).
Definition saveSentTxLog (log : json) : js P unit := local_set "cac_sent_tx_log" (stringify log).
Definition recordSentTx (txid : string) (record : json) : js P unit :=
  log ← loadSentTxLog;
  log ← lift (set_prop log txid record);
  saveSentTxLog log.
End log.

Section spend.
  Context {PR : Primitives} {EN : Environment}.

(** The script a decoded address pays to. *)
Definition dest_script (d : decoded) : bytes :=
  match d_type d with
  | P2pkh => p2pkhScriptPubKey (d_hash d)
  | P2sh => p2shScriptPubKey (d_hash d)
  | P2wpkh => p2wpkhScriptPubKey (d_hash d)
  end.

Definition dest_output (net : network) (r : recipient) : result txout :=
  d ← decodeAddress (rc_address r) net;
  mret {| valueSatoshis := to_number (rc_amount r); scriptPubKey := dest_script d |}.

(** The rate used: the user's, if it is above the current floor. *)
Definition chosen_rate (minRate : Z) (override : option Z) : Z :=
  match override with Some o => if minRate <? o then o else minRate | None => minRate end.

(** [BigInt(10 + inputs * 148 + outputs * 34)] *)
Definition estimated_vsize (inputs outputs : Z) : Z := 10 + inputs * 148 + outputs * 34.

(** The selection loop: outputs are taken in order until they cover the amount
    and the fee of a transaction with that many inputs. *)
Fixpoint select_coins (vsize : Z → Z) (feeRate amount : Z) (chosen : list json) (totalIn : Z) (us : list json)
    : result (list json * Z) :=
  match us with
  | [] => Ok (chosen, totalIn)
  | u :: us =>
      let chosen := chosen ++ [u] in
      v ← get (Some u) "value" ≫= to_bigint;
      let totalIn := totalIn + v in
      let feeSatoshis := rate_fee feeRate (vsize (Z.of_nat (length chosen))) in
      if amount + feeSatoshis <=? totalIn then Ok (chosen, totalIn)
      else select_coins vsize feeRate amount chosen totalIn us
  end.

(** An input of the transaction; the page's keys are those of the indices the
    outputs were gathered under.  [valueSatoshis] is not read when signing. *)
Definition spend_of (ks : gmap Z keypair) (u : json) : result spend :=
  i ← get (Some u) "_index" ≫= (λ v, match v with Some j => index_of_json j | None => Throw (ExType "no index") end);
  match ks !! i with
  | None => Throw (ExType "Cannot read properties of undefined (reading 'publicKey')")
  | Some key =>
      t ← get (Some u) "txid" ≫= hex_val;
      o ← get (Some u) "vout";
      v ← get (Some u) "value";
      mret {| u_txid := rev t; u_vout := to_uint32 (to_num o);
              u_value := default 0 (num_int (to_num v));
              u_pubkeyHash := hash160 (publicKey key);
              u_privateKey := Some (privateKey key); u_publicKey := Some (publicKey key); u_sequence := None |}
  end.

(** The record of a sent transaction. *)
Definition input_record (u : json) : result json :=
  t ← get (Some u) "txid"; o ← get (Some u) "vout"; v ← get (Some u) "value"; i ← get (Some u) "_index";
  mret (obj [("txid", t); ("vout", o); ("valueSatoshis", Some (JNum (to_num v))); ("derivationIndex", i)]).

Definition output_record (changeAt : option nat) (activeIndex : Z) (i : nat) (o : txout) : json :=
  let isChange := bool_decide (changeAt = Some i) in
  obj [("scriptPubKeyHex", Some (JStr (bytesToHex (scriptPubKey o))));
       ("valueSatoshis", Some (jint (valueSatoshis o)));
       ("isChange", Some (JBool isChange));
       ("changeIndex", if isChange then Some (jint activeIndex) else None)].

(** Everything after the rows have been read; it throws what the handler's
    [catch] shows. *)
Definition send_body (rs : list recipient) : js app unit :=
  net ← selected_network;
  destOutputs ← lift (mapR (dest_output net) rs);
  let amountTotal := foldl Z.add 0 (rc_amount <$> rs) in
  allUtxos ← gatherAllUtxos;
  gw ← the gateway;
  feeResp ← feeEstimate gw 6;
  minRate ← lift (get (Some feeResp) "fee_rate_sat_per_vbyte" ≫= to_bigint);
  _ ← update (set_sendFeeMinRate (Some minRate));
  override ← the sendFeeRateOverride;
  let feeRate := chosen_rate minRate override in
  let outputCount := Z.of_nat (length rs) + 1 in
  let vsize n := estimated_vsize n outputCount in
  '(chosen, totalIn) ← lift (select_coins vsize feeRate amountTotal [] 0 allUtxos);
  let feeSatoshis := rate_fee feeRate (vsize (Z.of_nat (length chosen))) in
  if totalIn <? amountTotal + feeSatoshis then
    text "send-error" ("Insufficient funds: have " +:+ formatCac totalIn +:+ ", need " +:+ formatCac (amountTotal + feeSatoshis))
  else
    let change := totalIn - amountTotal - feeSatoshis in
    active ← the activeIndex;
    changeKey ← ensureKey active;
    let outputs := destOutputs ++
      (if 0 <? change then [{| valueSatoshis := to_number change;
                               scriptPubKey := p2pkhScriptPubKey (hash160 (publicKey changeKey)) |}] else []) in
    ks ← the keys;
    inputs ← lift (mapR (spend_of ks) chosen);
    rawTx ← lift (buildAndSignTransaction inputs outputs None None 0);
    result ← broadcast gw (bytesToHex rawTx);
    txid ← lift (get (Some result) "txid");
    _ ← text "send-success" ("Broadcast: " +:+ to_str txid);
    ins ← lift (mapR input_record chosen);
    let changeAt := if 0 <? change then Some (length outputs - 1)%nat else None in
    _ ← recordSentTx (to_str txid)
          (JObj [("inputs", JArr ins); ("outputs", JArr (imap (output_record changeAt active) outputs));
                 ("feeSatoshis", jint (to_number feeSatoshis))]);
    _ ← resetSendRecipients;
    updateSendAmountFiat.

Definition send_confirm : js app unit :=
  _ ← text "send-error" "";
  _ ← text "send-success" "";
  rows ← the recipients;
  rs ← lift (read_recipients rows);
  match rs with
  | None => text "send-error" "Enter a destination address and a positive amount for every recipient."
  | Some rs => try_catch (send_body rs) (λ e, text "send-error" (error_text e))
  end.

(** ** Fee bumping *)

Definition sent_input_of (v : json) : result sent_input :=
  t ← get (Some v) "txid"; o ← get (Some v) "vout"; x ← get (Some v) "valueSatoshis";
  mret {| si_txid := to_str t; si_vout := to_uint32 (to_num o); si_valueSatoshis := default 0 (num_int (to_num x)) |}.
Definition sent_output_of (v : json) : result sent_output :=
  s ← get (Some v) "scriptPubKeyHex"; x ← get (Some v) "valueSatoshis"; c ← get (Some v) "isChange";
  z ← num_to_bigint (to_num x);
  mret {| so_scriptPubKeyHex := to_str s; so_valueSatoshis := z; so_isChange := truthy c |}.
Definition sent_record_of (ins outs : list json) (fee : num) : result sent_record :=
  si ← mapR sent_input_of ins;
  so ← mapR sent_output_of outs;
  f ← num_to_bigint fee;
  mret {| r_inputs := si; r_outputs := so; r_feeSatoshis := f |}.

(** [Math.max(rateBasedFee, Math.round(record.feeSatoshis * 1.5))] *)
Definition bumped_fee (rateBasedFee : Z) (fee : num) : num :=
  num_max (num_of_Z rateBasedFee) (num_round (num_mul fee (Fin 3 (-1)))).

(** [{ ...o, valueSatoshis: newChangeValue }] at the change output. *)
Definition bumped_outputs (outs : list json) (newOutputs : list sent_output) : list json :=
  zip_with (λ o n, if so_isChange n then
      match o with JObj l => JObj (obj_set "valueSatoshis" (jint (so_valueSatoshis n)) l) | _ => o end
    else o) outs newOutputs.

Definition bumpFee (txid : string) : js app val :=
  log ← loadSentTxLog;
  record ← lift (get (Some log) txid);
  if negb (truthy record) then
    throw (ExError "No local record of this transaction -- it was either sent from a different device/browser, or before this feature existed. Can't bump its fee here.")
  else
    gw ← the gateway;
    feeResp ← feeEstimate gw 6;
    feeRate ← lift (get (Some feeResp) "fee_rate_sat_per_vbyte" ≫= to_bigint);
    ins ← lift (get record "inputs" ≫= iterate);
    outs ← lift (get record "outputs" ≫= iterate);
    fee ← lift (get record "feeSatoshis");
    let estimatedVsize := estimated_vsize (Z.of_nat (length ins)) (Z.of_nat (length outs)) in
    let rateBasedFee := rate_fee feeRate estimatedVsize in
    newFee ← lift (num_to_bigint (bumped_fee (to_number rateBasedFee) (to_num fee)));
    inputKeys ← collect ins (λ inp,
      i ← lift (get (Some inp) "derivationIndex" ≫= (λ v, match v with Some j => index_of_json j | None => Throw (ExType "no index") end));
      ensureKey i);
    r ← lift (sent_record_of ins outs (to_num fee));
    '(rawTx, newOutputs) ← lift (buildBumpFeeTransaction r newFee inputKeys);
    result ← broadcast gw (bytesToHex rawTx);
    log2 ← loadSentTxLog;
    newTxid ← lift (get (Some result) "txid");
    log2 ← lift (set_prop (match log2 with JObj l => JObj (obj_del txid l) | v => v end) (to_str newTxid)
      (JObj [("inputs", JArr ins); ("outputs", JArr (bumped_outputs outs newOutputs));
             ("feeSatoshis", jint newFee); ("replacesTxid", JStr txid)]));
    _ ← saveSentTxLog log2;
    mret newTxid.
End spend.

(** ** Coin selection *)

Definition coin_value (u : json) : Z :=
  match (get (Some u) "value" ≫= to_bigint) with Ok v => v | Throw _ => 0 end.
Definition coin_total (us : list json) : Z := foldr (λ u z, coin_value u + z) 0 us.

Lemma coin_total_app us vs : coin_total (us ++ vs) = coin_total us + coin_total vs.
Proof. induction us as [|u us IH]; [done|]. change (coin_value u + coin_total (us ++ vs) = coin_value u + coin_total us + coin_total vs). lia. Qed.

(** What a selection covers with its first [n] coins. *)
Definition covers (vsize : Z → Z) (feeRate amount : Z) (us : list json) : Prop :=
  amount + rate_fee feeRate (vsize (Z.of_nat (length us))) <= coin_total us.

Lemma select_coins_loop vsize feeRate amount us : ∀ taken chosen totalIn,
  select_coins vsize feeRate amount taken (coin_total taken) us = Ok (chosen, totalIn) →
  ∃ new rest, us = new ++ rest ∧ chosen = taken ++ new ∧ totalIn = coin_total chosen ∧
    (rest = [] ∨ covers vsize feeRate amount chosen) ∧
    ∀ a b, new = a ++ b → a ≠ [] → b ≠ [] → ¬ covers vsize feeRate amount (taken ++ a).
Proof.
  induction us as [|u us IH]; intros taken chosen totalIn; cbn [select_coins].
  { intros [= <- <-]. exists [], []. rewrite (app_nil_r taken). split_and!; [done..|by left|]. by intros [] ? ?. }
  destruct (get (Some u) "value" ≫= to_bigint) as [v|] eqn:Ev; [|done]. run_bind.
  assert (Et : coin_total taken + v = coin_total (taken ++ [u])).
  { rewrite coin_total_app. cbn. unfold coin_value. rewrite Ev. lia. }
  rewrite Et. destruct (Z.leb_spec (amount + rate_fee feeRate (vsize (Z.of_nat (length (taken ++ [u])))))
    (coin_total (taken ++ [u]))) as [Hle|Hgt].
  - intros [= <- <-]. exists [u], us. split_and!; [done..|by right|].
    intros [|x [|y a]] b; [done| |done]. by intros [= <- <-].
  - intros (new & rest & -> & -> & -> & Hend & Hmin)%IH. exists (u :: new), rest.
    split; [done|]. rewrite (cons_middle u taken new). rewrite app_assoc. split_and!; try done.
    intros [|x a] b; [done|]. intros [= <- ->] _ Hb. rewrite (cons_middle u taken a), app_assoc.
    destruct a as [|y a]; [|by apply (Hmin (y :: a) b)]. rewrite app_nil_r. unfold covers. lia.
Qed.

(** Coin selection takes outputs in the order they were gathered.  When it ends,
    the coins chosen are the shortest non-empty run from the front that covers
    the amounts and the fee of a transaction with that many inputs, or all of
    them when no run does; and [totalIn] is what they are worth. *)
Theorem select_coins_shortest vsize feeRate amount us chosen totalIn :
  select_coins vsize feeRate amount [] 0 us = Ok (chosen, totalIn) →
  ∃ rest, us = chosen ++ rest ∧ totalIn = coin_total chosen ∧
    (covers vsize feeRate amount chosen ∨ rest = []) ∧
    ∀ a b, chosen = a ++ b → a ≠ [] → b ≠ [] → ¬ covers vsize feeRate amount a.
Proof.
  intros (new & rest & -> & -> & -> & Hend & Hmin)%(select_coins_loop vsize feeRate amount us []).
  exists rest. split_and!; try done. destruct Hend; [by right|by left].
Qed.

Lemma select_coins_shortest_witness :
  let coin v := JObj [("value", JStr v)] in
  ∃ rest, [coin "600"; coin "500"; coin "900"] = [coin "600"; coin "500"] ++ rest ∧
    1100 = coin_total [coin "600"; coin "500"].
Proof.
  intros coin. destruct (select_coins_shortest (λ n, estimated_vsize n 2) 100 1000 [coin "600"; coin "500"; coin "900"]
    [coin "600"; coin "500"] 1100) as (rest & H1 & H2 & _); [vm_compute; reflexivity|].
  exists rest. split; [exact H1|exact H2].
Defined.
