(* ===== verification/SendProof.v ===== *)
(** * Sending, end to end

    From the page to the node: what the send button broadcasts is a transaction
    the node's deserializer reads and whose inputs it accepts, that pays the
    recipients what was asked, returns the change to the wallet and leaves
    exactly the announced fee. *)

From S2P Require Import Prelude JsString JsNum Amount Json Hex JsValue Browser Primitives Base58 Address Keys NodeTx NodeScript TxCodec Signing Gateway Price App AppSend AppSpend.

(** An output as the gateway lists it. *)
Definition utxo_ok (u : json) : Prop :=
  ∃ l t n v z, u = JObj l ∧ obj_get "txid" l = Some (JStr t) ∧ length (hexToBytes t) = 32%nat ∧
    obj_get "vout" l = Some (jint n) ∧ 0 <= n < 2 ^ 32 ∧
    obj_get "value" l = Some v ∧ to_bigint (Some v) = Ok z ∧ 0 <= z.

Definition utxo_txid (u : json) : bytes :=
  match u with
  | JObj l => match obj_get "txid" l with Some (JStr t) => rev (hexToBytes t) | _ => [] end
  | _ => []
  end.
Definition utxo_vout (u : json) : Z :=
  match u with JObj l => to_uint32 (to_num (obj_get "vout" l)) | _ => 0 end.
(** The address index an output was gathered under. *)
Definition tagged (u : json) (i : Z) : Prop := ∃ l, u = JObj l ∧ obj_get "_index" l = Some (jint i).

Definition output_sum (os : list txout) : Z := foldr (λ o z, valueSatoshis o + z) 0 os.

Lemma output_sum_app a b : output_sum (a ++ b) = output_sum a + output_sum b.
Proof.
  induction a as [|o a IH]; [done|].
  change (valueSatoshis o + output_sum (a ++ b) = valueSatoshis o + output_sum a + output_sum b). lia.
Qed.

(** ** Numbers *)

Lemma to_uint32_small n : 0 <= n < 2 ^ 32 → to_uint32 (num_of_Z n) = n.
Proof.
  intros Hn. destruct (decide (n = 0)) as [->|]; [done|].
  destruct (num_of_Z_small n ltac:(lia)) as (s & Hs & ->). cbn [to_uint32].
  assert (0 < 2 ^ s) by (apply Z.pow_pos_nonneg; lia). rewrite Z.opp_involutive.
  destruct (Z.leb_spec 0 (- s)).
  - assert (s = 0) as -> by lia. change (2 ^ 0) with 1. change (2 ^ (- 0)) with 1. rewrite !Z.mul_1_r.
    by apply Z.mod_small.
  - rewrite Z.quot_mul by lia. by apply Z.mod_small.
Qed.

Lemma rate_fee_nonneg rate vsize : 0 <= rate → 0 <= vsize → 0 <= rate_fee rate vsize.
Proof. intros H1 H2. unfold rate_fee. apply Z.quot_pos; nia. Qed.

Lemma sum_amounts rs z :
  foldl Z.add z (rc_amount <$> rs) = z + foldr (λ r y, rc_amount r + y) 0 rs.
Proof. revert z. induction rs as [|r rs IH]; intros z; cbn in *; [lia|]. rewrite IH. lia. Qed.

Lemma p2pkh_length h : length h = 20%nat → length (p2pkhScriptPubKey h) = 25%nat.
Proof. intros Hl. unfold p2pkhScriptPubKey, u8_of. rewrite length_fmap, !length_app, Hl. done. Qed.

Section send.
  Context {PR : Primitives} {PL : PrimitiveLaws} {EN : Environment}.

(** ** Gathering *)

Lemma collect_returns {A B P} (Q : A → B → Prop) (f : A → js P B) l w ys :
  (∀ x w b, (f x w).1 = Ok b → Q x b) → (collect l f w).1 = Ok ys → Forall2 Q l ys.
Proof.
  intros Hf. revert w ys. induction l as [|x l IH]; intros w ys; cbn [collect].
  { intros [= <-]. constructor. }
  rewrite run_bind. specialize (Hf x w). destruct (f x w) as [[b|e] w1]; [|done].
  rewrite run_bind. specialize (IH w1). destruct (collect l f w1) as [[bs|e] w2]; [|done].
  intros [= <-]. constructor; [by apply Hf|by apply IH].
Qed.

Lemma get_run_same gw path auth (w : browser app) :
  same_but_sent w (_get gw path auth w).2.
Proof. rewrite get_run. by repeat split. Qed.

Lemma gather_ok w us w1 :
  gatherAllUtxos w = (Ok us, w1) →
  same_but_sent w w1 ∧ Forall (λ u, ∃ i, i ∈ addressIndices (page w) ∧ tagged u i) us.
Proof.
  unfold gatherAllUtxos. rewrite !bind_the, run_bind.
  match goal with |- context [collect _ ?g] => set (f := g) end.
  assert (Hk : keeps (same_but_sent w) (collect (addressIndices (page w)) f)).
  { apply keeps_collect. intros i. apply keeps_bind; [by intros ? ?|]. intros a. apply keeps_bind.
    - apply keeps_get. by intros ? ?.
    - intros resp. apply keeps_bind; [by intros ? ?|]. intros. by intros ? ?. }
  specialize (Hk w ltac:(by repeat split)).
  assert (Hr : ∀ uss, (collect (addressIndices (page w)) f w).1 = Ok uss →
    Forall2 (λ i us, Forall (λ u, tagged u i) us) (addressIndices (page w)) uss).
  { intros uss. apply collect_returns. clear Hk. intros i w' b. subst f. cbv beta. rewrite run_bind.
    unfold address_text. rewrite bind_the. cbv match. cbn [mret js_ret]. rewrite run_bind.
    destruct (utxos _ _ _) as [[resp|e] w2]; [|done]. rewrite bind_lift.
    destruct (get (Some resp) "utxos" ≫= iterate) as [l|]; [|done]. intros [= <-].
    apply Forall_fmap, Forall_true. intros u. eexists. split; [reflexivity|]. apply obj_get_set. }
  destruct (collect _ f w) as [[uss|e] w'] eqn:E; [|done]. intros [= <- <-]. split; [done|].
  specialize (Hr uss eq_refl). apply list.Forall_forall. intros u (us' & Hu & Hus)%list_elem_of_join.
  apply list_elem_of_lookup in Hus as [n Hn]. destruct (Forall2_lookup_r _ _ _ _ _ Hr Hn) as (i & Hi & Hall).
  exists i. split; [by eapply list_elem_of_lookup_2|]. rewrite list.Forall_forall in Hall. by apply Hall.
Qed.

(** ** Inputs *)

(** A key the wallet can sign with; its hash is not the encoding of a
    signature, which the node would remove from the script. *)
Definition signs (k : keypair) : Prop :=
  (∀ h, is_ok (secp_sign h (privateKey k)) = true) ∧ ∀ sig, sig_bytes sig ≠ hash160 (publicKey k).

(** The input made of an output and its key. *)
Definition spend_with (k : keypair) (u : json) (s : spend) : Prop :=
  u_txid s = utxo_txid u ∧ u_vout s = utxo_vout u ∧ u_sequence s = None ∧ u_pubkeyHash s = hash160 (publicKey k) ∧
  u_privateKey s = Some (privateKey k) ∧ u_publicKey s = Some (publicKey k).

Lemma cached_public a i k : cache_ok a → keys a !! i = Some k → publicKey k = secp_public (privateKey k).
Proof.
  intros [Hc _] Hk. destruct (Hc i k Hk) as [Hw _]. unfold wallet_key, derive in Hw.
  destruct (NETWORKS _); [|done]. destruct (mnemonic a); [|done]. by eapply hd_derive_public.
Qed.

Lemma spend_of_ok ks u i k :
  utxo_ok u → tagged u i → - 2 ^ 53 <= i <= 2 ^ 53 → ks !! i = Some k →
  ∃ s, spend_of ks u = Ok s ∧ spend_with k u s ∧ length (u_txid s) = 32%nat ∧ 0 <= u_vout s < 2 ^ 32.
Proof.
  intros (l & t & n & v & z & -> & Ht & Hl & Hn & Hb & Hv & Hz & _) (l' & [= <-] & Hi) Hi53 Hk.
  unfold spend_of. cbn [get]. run_bind. rewrite Hi. cbn [index_of_json jint]. rewrite num_to_bigint_small by done.
  run_bind. rewrite Hk, Ht. cbn [hex_val]. run_bind. rewrite Hn, Hv. eexists. split; [reflexivity|]. cbn.
  unfold spend_with, utxo_txid, utxo_vout. rewrite Ht, Hn. cbn. rewrite length_rev. cbn [to_num jint].
  rewrite to_uint32_small by done. done.
Qed.

Lemma mapR_spend ks us :
  Forall (λ u, utxo_ok u ∧ ∃ i k, tagged u i ∧ - 2 ^ 53 <= i <= 2 ^ 53 ∧ ks !! i = Some k ∧ signs k ∧
    publicKey k = secp_public (privateKey k)) us →
  ∃ ss, mapR (spend_of ks) us = Ok ss ∧ Forall (spend_ok None None) ss ∧
    Forall2 (λ u s, ∃ i k, tagged u i ∧ ks !! i = Some k ∧ spend_with k u s) us ss.
Proof.
  induction 1 as [|u us (Hu & i & k & Ht & Hi & Hk & (Hs & Hne) & Hp) _ (ss & E & Hok & Hf)].
  { exists []. by repeat split. }
  destruct (spend_of_ok ks u i k Hu Ht Hi Hk) as (s & Es & Hw & Hl & Hv).
  exists (s :: ss). split; [cbn [mapR]; by rewrite Es; run_bind; rewrite E|].
  split; constructor; try done; [|by exists i, k].
  destruct Hw as (E1 & E2 & E3 & E4 & E5 & E6). exists (privateKey k).
  rewrite E3, E4, E5, E6, <- Hp. cbn. split_and!; try done; lia.
Qed.

(** ** The handler *)

(** The outputs the handler signs: the recipients' and the change. *)
Definition change_outputs (k : keypair) (change : Z) : list txout :=
  if 0 <? change then [{| valueSatoshis := to_number change; scriptPubKey := p2pkhScriptPubKey (hash160 (publicKey k)) |}]
  else [].

Lemma dest_values net rs dests :
  mapR (dest_output net) rs = Ok dests →
  Forall (λ r, 0 < rc_amount r) rs → foldr (λ r y, rc_amount r + y) 0 rs <= 2 ^ 53 →
  output_sum dests = foldr (λ r y, rc_amount r + y) 0 rs ∧ Forall (λ o, 0 <= valueSatoshis o <= 2 ^ 53) dests ∧
  0 <= foldr (λ r y, rc_amount r + y) 0 rs ∧ length dests = length rs.
Proof.
  intros H. apply mapR_ok in H. induction H as [|r o rs dests Ho _ IH]; [by repeat split|].
  intros [Hr Hrs]%Forall_cons_iff Hsum. cbn [foldr] in *.
  assert (Hpos : ∀ l, Forall (λ r, 0 < rc_amount r) l → 0 <= foldr (λ r y, rc_amount r + y) 0 l).
  { induction 1; cbn; lia. }
  specialize (Hpos rs Hrs). destruct (IH Hrs ltac:(lia)) as (E & Hv & Hp & Hl).
  unfold dest_output in Ho. destruct (decodeAddress _ _); [|done]. injection Ho as <-.
  change (output_sum (?o :: ?l)) with (valueSatoshis o + output_sum l). cbn [valueSatoshis].
  rewrite to_number_small by lia. split_and!; [lia| |lia|cbn; lia]. constructor; [|done].
  cbn. lia.
Qed.

(** The situation of a send: a page whose cache is right and holds a signing
    key for each of its addresses; destinations that decode; what the gateway
    answered; and a selection that covers the amounts and the fee. *)
Record sendable (w : browser app) (rs : list recipient) (net : network) (dests : list txout) (us : list json)
    (w2 : browser app) (minRate : Z) (chosen : list json) (totalIn : Z) : Prop := {
  s_net : NETWORKS (network_name (page w)) = Some net;
  s_cache : cache_ok (page w);
  s_keys : ∀ i, i ∈ addressIndices (page w) →
    - 2 ^ 53 <= i <= 2 ^ 53 ∧ ∃ k, keys (page w) !! i = Some k ∧ signs k;
  s_active : activeIndex (page w) ∈ addressIndices (page w);
  s_dest : mapR (dest_output net) rs = Ok dests;
  s_amounts : rs ≠ [] ∧ Forall (λ r, 0 < rc_amount r) rs;
  s_replies : ∃ w1 feeResp, gatherAllUtxos w = (Ok us, w1) ∧
    feeEstimate (gateway (page w)) 6 w1 = (Ok feeResp, w2) ∧
    (get (Some feeResp) "fee_rate_sat_per_vbyte" ≫= to_bigint) = Ok minRate;
  s_utxos : Forall utxo_ok us;
  s_rate : 0 <= minRate;
  s_select : select_coins (λ n, estimated_vsize n (Z.of_nat (length rs) + 1))
    (chosen_rate minRate (sendFeeRateOverride (page w))) (foldl Z.add 0 (rc_amount <$> rs)) [] 0 us = Ok (chosen, totalIn);
  s_size : totalIn <= 2 ^ 53 ∧ Z.of_nat (length us) <= MAX_SIZE ∧ Z.of_nat (length rs) < MAX_SIZE ∧
    Forall (λ o, len (scriptPubKey o) <= MAX_SIZE) dests
}.

(** The fee of the selection. *)
Definition sent_fee (w : browser app) (rs : list recipient) (minRate : Z) (chosen : list json) : Z :=
  rate_fee (chosen_rate minRate (sendFeeRateOverride (page w)))
    (estimated_vsize (Z.of_nat (length chosen)) (Z.of_nat (length rs) + 1)).

Lemma chosen_rate_ge m o : m <= chosen_rate m o.
Proof. unfold chosen_rate. destruct o as [o|]; [|lia]. destruct (Z.ltb_spec m o); lia. Qed.

Section run.
  Context (w : browser app) (rs : list recipient) (net : network) (dests : list txout) (us : list json)
    (w2 : browser app) (minRate : Z) (chosen : list json) (totalIn : Z).
  Hypothesis Hs : sendable w rs net dests us w2 minRate chosen totalIn.
Let amount := foldl Z.add 0 (rc_amount <$> rs).
Let fee := sent_fee w rs minRate chosen.
  Hypothesis Hfunds : amount + fee <= totalIn.

Lemma chosen_part : ∃ rest, us = chosen ++ rest ∧ totalIn = coin_total chosen.
Proof.
  destruct (select_coins_loop _ _ _ us [] chosen totalIn (s_select _ _ _ _ _ _ _ _ _ Hs))
    as (new & rest & -> & -> & -> & _). by exists rest.
Qed.

Lemma sent_fee_nonneg : 0 <= fee.
Proof.
  apply rate_fee_nonneg; [|unfold estimated_vsize; lia].
  pose proof (s_rate _ _ _ _ _ _ _ _ _ Hs). pose proof (chosen_rate_ge minRate (sendFeeRateOverride (page w))). lia.
Qed.

Lemma chosen_spends : ∃ ss, mapR (spend_of (keys (page w))) chosen = Ok ss ∧ Forall (spend_ok None None) ss ∧
  Forall2 (λ u s, ∃ i k, tagged u i ∧ keys (page w) !! i = Some k ∧ spend_with k u s) chosen ss.
Proof.
  apply mapR_spend. destruct chosen_part as (rest & E & _).
  destruct (s_replies _ _ _ _ _ _ _ _ _ Hs) as (w1 & feeResp & Hg & _). apply gather_ok in Hg as [_ Ht].
  pose proof (s_utxos _ _ _ _ _ _ _ _ _ Hs) as Hu. rewrite E in Hu, Ht.
  apply Forall_app in Hu as [Hu _]. apply Forall_app in Ht as [Ht _].
  apply list.Forall_forall. intros u Hin. rewrite list.Forall_forall in Hu, Ht. split; [by apply Hu|].
  destruct (Ht u Hin) as (i & Hi & Htag). destruct (s_keys _ _ _ _ _ _ _ _ _ Hs i Hi) as (Hi53 & k & Hk & Hsg).
  exists i, k. split_and!; try done; try lia. eapply cached_public; [|exact Hk]. apply Hs.
Qed.

Lemma sent_outputs_ok k :
  let outs := dests ++ change_outputs k (totalIn - amount - fee) in
  Forall txout_ok outs ∧ output_sum outs + fee = totalIn ∧ Z.of_nat (length outs) <= MAX_SIZE.
Proof.
  intros outs. pose proof (s_size _ _ _ _ _ _ _ _ _ Hs) as (H53 & _ & Hlen & Hsc).
  pose proof sent_fee_nonneg as Hf. destruct (s_amounts _ _ _ _ _ _ _ _ _ Hs) as [_ Hpos].
  assert (Ea : amount = foldr (λ r y, rc_amount r + y) 0 rs) by (unfold amount; rewrite sum_amounts; lia).
  destruct (dest_values net rs dests) as (Hsum & Hv & Ha & Hl); [apply Hs|done|lia|].
  assert (Hch : output_sum (change_outputs k (totalIn - amount - fee)) = totalIn - amount - fee ∧
    Forall txout_ok (change_outputs k (totalIn - amount - fee)) ∧
    (length (change_outputs k (totalIn - amount - fee)) <= 1)%nat).
  { unfold change_outputs. destruct (Z.ltb_spec 0 (totalIn - amount - fee)); [|cbn; split_and!; [lia|constructor|lia]].
    cbn -[p2pkhScriptPubKey]. rewrite to_number_small by lia. split_and!; [lia| |lia]. apply Forall_singleton.
    split; [cbn; lia|]. unfold scriptPubKey, len. rewrite p2pkh_length by apply ripemd160_length. by vm_compute. }
  destruct Hch as (H1 & H2 & H3). split_and!.
  - apply Forall_app. split; [|done]. apply list.Forall_forall. intros o Ho.
    rewrite list.Forall_forall in Hv, Hsc. split; [|by apply Hsc]. specialize (Hv o Ho). lia.
  - unfold outs. rewrite output_sum_app. lia.
  - unfold outs. rewrite length_app. lia.
Qed.

(** The state when the transaction goes out. *)
Definition fee_noted : browser app := with_page w2 (set_sendFeeMinRate (Some minRate) (page w2)).

Lemma send_run : ∃ k ss raw rest,
  keys (page w) !! activeIndex (page w) = Some k ∧ mapR (spend_of (keys (page w))) chosen = Ok ss ∧
  Forall2 (λ u s, ∃ i k, tagged u i ∧ keys (page w) !! i = Some k ∧ spend_with k u s) chosen ss ∧
  Forall (spend_ok None None) ss ∧
  buildAndSignTransaction ss (dests ++ change_outputs k (totalIn - amount - fee)) None None 0 = raw ∧
  send_body rs w = (lift raw ≫= λ raw, broadcast (gateway (page w)) (bytesToHex raw) ≫= rest raw) fee_noted.
Proof.
  destruct chosen_spends as (ss & Ess & Hok & Hf2).
  destruct (s_keys _ _ _ _ _ _ _ _ _ Hs _ (s_active _ _ _ _ _ _ _ _ _ Hs)) as (_ & k & Hk & _).
  destruct (s_replies _ _ _ _ _ _ _ _ _ Hs) as (w1 & feeResp & Hg & Hfee & Hrate).
  pose proof (gather_ok _ _ _ Hg) as [Hsame1 _].
  assert (Hsame2 : same_but_sent w1 w2).
  { pose proof (get_run_same (gateway (page w)) ("/v1/fee-estimate?target_blocks=" +:+ show 6) None w1) as H.
    unfold feeEstimate in Hfee. by rewrite Hfee in H. }
  assert (Hp1 : page w1 = page w) by apply Hsame1.
  assert (Hp2 : page w2 = page w) by (rewrite <- Hp1; apply Hsame2).
  eexists k, ss, _, _. split; [done|]. split; [done|]. split; [done|]. split; [done|]. split; [reflexivity|].
  unfold send_body. rewrite bind_selected, (s_net _ _ _ _ _ _ _ _ _ Hs), bind_lift, (s_dest _ _ _ _ _ _ _ _ _ Hs).
  rewrite run_bind, Hg. cbv match. rewrite bind_the, Hp1, run_bind, Hfee. cbv match.
  rewrite bind_lift, Hrate, bind_update. fold fee_noted. rewrite bind_the.
  change (sendFeeRateOverride (page fee_noted)) with (sendFeeRateOverride (page w2)). rewrite Hp2.
  rewrite bind_lift, (s_select _ _ _ _ _ _ _ _ _ Hs). fold (sent_fee w rs minRate chosen). fold fee. fold amount.
  destruct (Z.ltb_spec totalIn (amount + fee)); [lia|]. rewrite bind_the.
  change (activeIndex (page fee_noted)) with (activeIndex (page w2)). rewrite Hp2, run_bind.
  assert (Ek : ensureKey (activeIndex (page w)) fee_noted = (Ok k, fee_noted)).
  { unfold ensureKey. rewrite bind_the. change (keys (page fee_noted)) with (keys (page w2)). by rewrite Hp2, Hk. }
  rewrite Ek. cbv match. rewrite bind_the. change (keys (page fee_noted)) with (keys (page w2)). rewrite Hp2.
  rewrite bind_lift, Ess. fold (change_outputs k (totalIn - amount - fee)). reflexivity.
Qed.
End run.

(** C2. When the send handler finds enough coins, what it broadcasts is one
    transaction that the node's deserializer reads with nothing left over.  Its
    outputs are the recipients', in order, then the change, to the key of the
    active address; outputs and fee add up exactly to the coins chosen; and each
    of its inputs spends the outpoint of a chosen coin and passes the node's
    [VerifyScript] against the script of the address the coin was listed
    under. *)
Theorem send_accepted w rs net dests us w2 minRate chosen totalIn
    (Hs : sendable w rs net dests us w2 minRate chosen totalIn)
    (Hfunds : foldl Z.add 0 (rc_amount <$> rs) + sent_fee w rs minRate chosen <= totalIn) :
  ∃ k raw tx rest outs, keys (page w) !! activeIndex (page w) = Some k ∧
    outs = dests ++ change_outputs k (totalIn - foldl Z.add 0 (rc_amount <$> rs) - sent_fee w rs minRate chosen) ∧
    send_body rs w = (broadcast (gateway (page w)) (bytesToHex raw) ≫= rest) (fee_noted w2 minRate) ∧
    UnserializeTransaction true raw = Ok (tx, []) ∧ vout tx = node_out <$> outs ∧
    output_sum outs + sent_fee w rs minRate chosen = coin_total chosen ∧
    length (vin tx) = length chosen ∧
    ∀ n u, chosen !! n = Some u → ∃ i key inp, tagged u i ∧ keys (page w) !! i = Some key ∧
      vin tx !! n = Some inp ∧ prevout inp = {| op_hash := utxo_txid u; op_n := utxo_vout u |} ∧
      VerifyScript tx n (txin_scriptSig inp) (p2pkhScriptPubKey (hash160 (publicKey key))) (scriptWitness inp) = Ok tt.
Proof.
  destruct (send_run _ _ _ _ _ _ _ _ _ Hs Hfunds) as (k & ss & r & rest & Hk & _ & Hf2 & Hok & Hb & Hrun).
  destruct (sent_outputs_ok _ _ _ _ _ _ _ _ _ Hs Hfunds k) as (Hout & Hsum & Hno).
  destruct (chosen_part _ _ _ _ _ _ _ _ _ Hs Hfunds) as (tail & Eus & Etot).
  pose proof (list.Forall2_length _ _ _ Hf2) as Hlen.
  assert (Hne : ss ≠ []).
  { intros ->. destruct chosen; [|done]. cbn in Etot. pose proof (sent_fee_nonneg _ _ _ _ _ _ _ _ _ Hs).
    destruct (s_amounts _ _ _ _ _ _ _ _ _ Hs) as [Hrs Hpos]. rewrite sum_amounts in Hfunds.
    destruct rs as [|r0 rs]; [done|]. apply Forall_cons_iff in Hpos as [Hr0 Hpos]. cbn in Hfunds.
    assert (0 <= foldr (λ r y, rc_amount r + y) 0 rs); [|lia]. clear -Hpos. induction Hpos; cbn; lia. }
  destruct (buildAndSign_accepted_aux ss _ None None 0 Hne Hok Hout ltac:(lia)) as (raw & tx & Eb & Eu & _ & _ & Evo & Evi & Hin);
    [|done|].
  { rewrite <- Hlen. destruct (s_size _ _ _ _ _ _ _ _ _ Hs) as (_ & Hu & _). rewrite Eus, length_app in Hu. lia. }
  exists k, raw, tx, (rest raw). eexists. split_and!; [done|reflexivity| |done|done|by rewrite Hsum|congruence|].
  { rewrite Hrun, <- Hb, Eb. by rewrite bind_lift. }
  intros n u Hu. destruct (Forall2_lookup_l _ _ _ _ _ Hf2 Hu) as (s & Hsn & i & key & Ht & Hkey & Hw).
  destruct Hw as (E1 & E2 & _ & E4 & _). destruct (Hin n s Hsn) as (inp & H1 & H2 & _ & H3).
  exists i, key, inp. rewrite E1, E2 in H2. rewrite E4 in H3. done.
Qed.
End send.

(** ** A payment on a concrete page *)

Module SendExample.
Definition reply_of (v : json) : option reply := Some {| status := 200; body := stringify v |}.
(** Two outputs for the first address, a fee rate, a transaction id. *)
Definition srv (h : list request) : option reply :=
  let coin t v := JObj [("txid", JStr t); ("vout", jint 1); ("value", JStr v)] in
  match list.last h with
  | Some r =>
      if js_includes (r_url r) "/utxos" then
        reply_of (JObj [("utxos", JArr [coin (js_repeat "ab" 32) "60000"; coin (js_repeat "cd" 32) "900000"])])
      else if js_includes (r_url r) "/fee-estimate" then reply_of (JObj [("fee_rate_sat_per_vbyte", JStr "100")])
      else reply_of (JObj [("txid", JStr (js_repeat "ef" 32))])
  | None => None
  end.
Definition env : Environment := demo srv.

Definition fresh : app := set_mnemonic (Some "seed words") (set_addressIndices [0] (initial_app ∅ ∅)).
(** The page after its first address was derived. *)
Definition w : browser app := (ensureKey (PR := Toy.prims) 0 (new_browser fresh)).2.

Definition get_ok {A} (d : A) (r : result A) : A := match r with Ok a => a | Throw _ => d end.
Definition payee : string := get_ok "" (p2pkhAddress (P := Toy.prims) (replicate 20 7) mainnet).
Definition rs : list recipient := [{| rc_address := payee; rc_amount := 500000 |}].
Definition dests : list txout := [{| valueSatoshis := 500000; scriptPubKey := p2pkhScriptPubKey (replicate 20 7) |}].
Definition gathered : result (list json) * browser app := gatherAllUtxos (EN := env) w.
Definition us : list json := get_ok [] gathered.1.
Definition asked_fee : result json * browser app := feeEstimate (EN := env) (gateway (page w)) 6 gathered.2.

Lemma page_cache : cache_ok (PR := Toy.prims) (page w).
Proof.
  assert (H0 : cache_ok (PR := Toy.prims) (page (new_browser fresh))).
  { by apply cache_ok_empty. }
  pose proof (ensureKey_run (PR := Toy.prims) (PL := Toy.laws) 0 (new_browser fresh) H0) as H.
  unfold w. destruct (wallet_key _ 0) as [k|e] eqn:E; [|by vm_compute in E].
  destruct H as (a' & Ea & _ & Hc & _). by rewrite Ea.
Qed.
End SendExample.

Lemma SendExample_ready :
  sendable (PR := Toy.prims) (EN := SendExample.env) SendExample.w SendExample.rs mainnet SendExample.dests
    SendExample.us SendExample.asked_fee.2 100 SendExample.us 960000.
Proof.
  split.
  - by vm_compute.
  - apply SendExample.page_cache.
  - intros i Hi. assert (i = 0) as -> by (by apply list_elem_of_singleton in Hi). split; [lia|].
    destruct (keys (page SendExample.w) !! 0) as [k|] eqn:E; [|by vm_compute in E]. exists k. split; [done|].
    split; [done|]. intros sig. apply sig_bytes_ne. vm_compute in E. injection E as <-. by vm_compute.
  - by left.
  - by vm_compute.
  - split; [done|]. by apply Forall_singleton.
  - exists SendExample.gathered.2, (JObj [("fee_rate_sat_per_vbyte", JStr "100")]).
    fold SendExample.gathered. fold SendExample.asked_fee.
    rewrite (surjective_pairing SendExample.gathered), (surjective_pairing SendExample.asked_fee).
    split_and!; [f_equal; vm_compute; reflexivity..|vm_compute; reflexivity].
  - assert (Hc : ∀ t v z, length (hexToBytes t) = 32%nat → to_bigint (Some (JStr v)) = Ok z → 0 <= z →
      utxo_ok (JObj [("txid", JStr t); ("vout", jint 1); ("value", JStr v); ("_index", jint 0)])).
    { intros t v z H1 H2 H3. eexists _, t, 1, (JStr v), z. split; [reflexivity|]. by split_and!. }
    change SendExample.us with
      [JObj [("txid", JStr (js_repeat "ab" 32)); ("vout", jint 1); ("value", JStr "60000"); ("_index", jint 0)];
       JObj [("txid", JStr (js_repeat "cd" 32)); ("vout", jint 1); ("value", JStr "900000"); ("_index", jint 0)]].
    apply Forall_cons_iff. split; [by apply (Hc _ _ 60000)|]. apply Forall_singleton. by apply (Hc _ _ 900000).
  - lia.
  - by vm_compute.
  - split; [lia|]. split; [vm_compute; congruence|]. split; [vm_compute; congruence|].
    apply Forall_singleton. vm_compute. congruence.
Qed.

Lemma send_accepted_witness :
  ∃ raw tx, UnserializeTransaction true raw = Ok (tx, []) ∧ length (vin tx) = 2%nat ∧
    nth_error (vout tx) 0 = Some (node_out {| valueSatoshis := 500000; scriptPubKey := p2pkhScriptPubKey (replicate 20 7) |}).
Proof.
  destruct (send_accepted (PR := Toy.prims) (PL := Toy.laws) (EN := SendExample.env) _ _ _ _ _ _ _ _ _ SendExample_ready)
    as (k & raw & tx & rest & outs & _ & E & _ & Hu & Ho & _ & Hl & _).
  - vm_compute. congruence.
  - exists raw, tx. split; [exact Hu|]. split; [rewrite Hl; vm_compute; reflexivity|].
    rewrite Ho, E. reflexivity.
Defined.
