(* ===== verification/WalletGateway.v ===== *)
(** * The wallet and the gateway together

    The client of gateway.js against the routes of app.py: a request the wallet
    sends is handled by the gateway, the answer goes over the wire as JSON, and the
    wallet's own functions read it.  The coins the wallet then has are those the
    node listed, to the satoshi. *)

From S2P Require Import Prelude JsString JsNum Amount Json Hex JsValue Python Server GatewayDb Referral Staking GatewayServer GatewayAmounts GatewayLemmas.
From S2P Require Import Browser Gateway AppSpend SendProof.

(** ** The wire *)

(** The JSON value a Python value is written as. *)
Fixpoint to_json (v : py) : json :=
  match v with
  | PNone => JNull
  | PBool b => JBool b
  | PInt z => JNum (num_of_Z z)
  | PFloat x => JNum x
  | PStr s => JStr s
  | PList l => JArr (to_json <$> l)
  | PDict l => JObj ((λ kv, (kv.1, to_json kv.2)) <$> l)
  end.

(** What the web server sends for an answer; [dumps] is the JSON library. *)
Definition http_reply (dumps : py → string) (r : res response) : option reply :=
  match r with Val rep => Some (Reply (rs_status rep) (dumps (rs_body rep))) | Exc _ => None end.

(** The text a JSON library writes is read back as the value, where that is a value
    JSON can carry. *)
Definition writes_json (dumps : py → string) : Prop := ∀ v, json_ok (to_json v) → parse (dumps v) = Ok (to_json v).

(** ** Integers in text *)

Lemma decimal_no_radix d : 0 <= d < 10 →
  Ascii.eqb (lower_char (digit_char d)) "x" = false ∧ Ascii.eqb (lower_char (digit_char d)) "o" = false ∧ Ascii.eqb (lower_char (digit_char d)) "b" = false.
Proof.
  intros Hd. assert (H : d ∈ [0; 1; 2; 3; 4; 5; 6; 7; 8; 9]) by (apply list_elem_of_In; cbn; lia).
  repeat (apply elem_of_cons in H as [->|H]; [by vm_compute|]). by apply not_elem_of_nil in H.
Qed.

(** [BigInt(str(n))] *)
Lemma bigint_show n : 0 <= n → string_to_bigint (show n) = Ok n.
Proof.
  intros Hn. destruct (digits_string_spec n Hn) as (ds & Hds & Hd10 & Hv & Hne). rewrite list.Forall_forall in Hd10.
  assert (Hsp : ∀ c, c ∈ chars (show n) → is_space c = false).
  { intros c. rewrite show_chars, Hds by done. intros (d & -> & Hd)%list_elem_of_fmap. specialize (Hd10 d Hd). unfold is_digit in Hd10. apply digit_char_space. lia. }
  unfold string_to_bigint. rewrite trim_plain, show_chars by done. pose proof (all_digits_show n Hn) as Ha. rewrite Hds in Ha |- *.
  destruct ds as [|d ds]; [done|]. assert (Hr : radix_prefix (digit_char <$> d :: ds) = None).
  { destruct ds as [|d2 ds]; [done|]. cbn [fmap list_fmap radix_prefix]. destruct (negb _); [done|].
    destruct (decimal_no_radix d2) as (-> & -> & ->); [|done]. apply (Hd10 d2). by right; left. }
  rewrite Hr. assert (Hs : split_sign (digit_char <$> d :: ds) = (false, digit_char <$> d :: ds)).
  { assert (Hd : is_digit 10 d) by (apply Hd10; by left). unfold is_digit in Hd.
    destruct (digit_char_sign d ltac:(lia)) as [H1 H2]. cbn [fmap list_fmap split_sign]. apply Ascii.eqb_neq in H1 as ->. by apply Ascii.eqb_neq in H2 as ->. }
  rewrite Hs, Ha. done.
Qed.

(** ** The gateway's answer *)

Section coins.
  Context {CF : Config} {LB : Libraries}.

(** A node that takes the address and lists these outputs of it. *)
Record lists_coins (env : list event → ∀ a, Server.answer a) (a : string) (tip : Z) (us : list unspent) : Prop := {
  lc_configured : String.eqb RPC_USER "" || String.eqb RPC_PASSWORD "" = false;
  lc_valid : ∀ l, env l (Rpc (rpc_path None) (ValidateAddress (PStr a))) = Answer true;
  lc_wallet : ∃ ws, WATCH_WALLET ∈ ws ∧ ∀ l, env l (Rpc (rpc_path (Some "")) ListWallets) = Answer ws;
  lc_descriptor : ∃ d m, (∀ l, env l (Rpc (rpc_path None) (GetDescriptorInfo ("addr(" +:+ a +:+ ")"))) = Answer d) ∧
    ∀ l, env l (Rpc (rpc_path (Some WATCH_WALLET)) (ImportDescriptor d a)) = Answer (true, m);
  lc_tip : ∀ l, env l (Rpc (rpc_path None) GetBlockCount) = Answer tip;
  lc_coins : ∀ l, env l (Rpc (rpc_path (Some WATCH_WALLET)) (ListUnspent 0 a true)) = Answer us
}.

(** An output as the node writes it: an amount of [v] satoshis in decimal. *)
Definition coin_of (u : unspent) (v : Z) : Prop :=
  un_amount u = rnd v COIN ∧ 0 <= v < 2 ^ 25 * COIN ∧ 0 <= un_vout u < 2 ^ 32 ∧ 0 <= un_confirmations u < 2 ^ 32 ∧ length (hexToBytes (un_txid u)) = 32%nat.

Definition utxo_json (tip : Z) (u : unspent) (v : Z) : py :=
  PDict [("txid", PStr (un_txid u)); ("vout", PInt (un_vout u)); ("value", PStr (show v));
    ("height", if 0 <? un_confirmations u then PInt (tip - un_confirmations u + 1) else PNone); ("confirmations", PInt (un_confirmations u))].

Lemma utxo_entries tip us vs : Forall2 coin_of us vs → mapM (utxo_entry tip) us = Val (zip_with (utxo_json tip) us vs).
Proof.
  induction 1 as [|u v us vs (E & Hv & _) _ IH]; [done|]. cbn [mapM zip_with].
  assert (Eu : utxo_entry tip u = Val (utxo_json tip u v)) by (unfold utxo_entry; by rewrite E, to_sat_small).
  rewrite Eu. cbn [mbind res_bind]. by rewrite IH.
Qed.

Lemma yields_watched env a tip us : lists_coins env a tip us → yields env (ensure_address_watched a) (λ _, True).
Proof.
  intros [Hc _ (ws & Hw & Hws) (d & m & Hd & Hi) _ _]. assert (Hcall : ∀ w c x (Q : _ → Prop), (∀ l, env l (Rpc (rpc_path w) c) = Answer x) → Q x → yields (D := gdb) env (rpc_call w c) Q).
  { intros w c x Q Hx HQ. unfold rpc_call. rewrite Hc. by apply (yields_call env _ c x). }
  unfold ensure_address_watched. eapply (yields_bind _ _ _ (λ _, True)); [intros s; by eexists|]. intros [] _; [by apply yields_ret|].
  eapply (yields_bind _ _ _ (λ _, True)).
  { unfold ensure_wallet_loaded, ensure_loaded. eapply (yields_bind _ _ _ (eq ws)); [by apply (Hcall _ ListWallets ws)|]. intros _ <-. rewrite bool_decide_true by done. by apply yields_ret. }
  intros _ _. eapply (yields_bind _ _ _ (eq d)); [by apply (Hcall _ (GetDescriptorInfo _) d)|]. intros _ <-.
  eapply (yields_bind _ _ _ (eq (true, m))); [by apply (Hcall _ (ImportDescriptor d a) (true, m))|]. intros _ <-. cbn [fst negb].
  eapply (yields_bind _ _ _ (λ _, True)); [intros s; by eexists|]. intros now _ s. by eexists.
Qed.

Lemma yields_utxos env a tip us vs q : lists_coins env a tip us → Forall2 coin_of us vs →
  yields env (served (view (Address_utxos a) q))
    (eq (jsonify (PDict [("address", PStr a); ("utxos", PList (zip_with (utxo_json tip) us vs))]))).
Proof.
  intros Hl Hv. pose proof (yields_watched env a tip us Hl) as Hwatch. destruct Hl as [Hc Ha _ _ Ht Hu].
  apply yields_catch. cbn [view]. unfold address_utxos, with_address. eapply (yields_bind _ _ _ (eq true)).
  { apply yields_catch. eapply (yields_bind _ _ _ (eq true)); [|intros _ <-; by apply yields_ret]. unfold rpc_call. rewrite Hc. by apply (yields_call env _ (ValidateAddress (PStr a)) true). }
  intros _ <-. cbn [negb]. eapply yields_bind; [exact Hwatch|]. intros _ _.
  eapply (yields_bind _ _ _ (eq tip)); [unfold rpc_call; rewrite Hc; by apply (yields_call env _ GetBlockCount tip)|]. intros _ <-.
  eapply (yields_bind _ _ _ (eq us)); [unfold list_unspent, rpc_call; rewrite Hc; by apply (yields_call env _ (ListUnspent 0 a true) us)|]. intros _ <-.
  rewrite (utxo_entries tip us vs Hv). by apply yields_ret.
Qed.

(** ** What the wallet reads *)

Lemma coin_json_ok tip u v : coin_of u v → 0 <= tip < 2 ^ 32 → json_ok (to_json (utxo_json tip u v)).
Proof.
  intros (_ & Hv & Hn & Hc & _) Ht. cbn [to_json utxo_json fmap list_fmap fst snd]. rewrite json_ok_obj. split; [apply (bool_decide_unpack _); by vm_compute|].
  assert (Hi : ∀ z, - 2 ^ 53 <= z <= 2 ^ 53 → json_ok (JNum (num_of_Z z))) by (intros z Hz; by exists z).
  constructor; [done|]. constructor; [apply Hi; lia|]. constructor; [done|]. constructor; [|constructor; [apply Hi; lia|constructor]].
  cbn [snd]. destruct (_ <? _); cbn [to_json]; [apply Hi; lia|done].
Qed.

Lemma coin_reads tip u v : coin_of u v →
  let j := to_json (utxo_json tip u v) in
  SendProof.utxo_ok j ∧ coin_value j = v ∧ utxo_txid j = rev (hexToBytes (un_txid u)) ∧ utxo_vout j = un_vout u.
Proof.
  intros (_ & Hv & Hn & _ & Hh) j. assert (Hb : to_bigint (Some (JStr (show v))) = Ok v) by (apply bigint_show; lia).
  assert (Hj : ∃ rest, j = JObj (("txid", JStr (un_txid u)) :: ("vout", jint (un_vout u)) :: ("value", JStr (show v)) :: rest)) by (by eexists).
  destruct Hj as [rest ->]. split; [|split; [|split]].
  - eexists _, (un_txid u), (un_vout u), (JStr (show v)), v. split; [reflexivity|]. split; [reflexivity|]. split; [done|]. split; [reflexivity|]. split; [done|].
    split; [reflexivity|]. split; [done|lia].
  - change (coin_value _) with (match to_bigint (Some (JStr (show v))) with Ok z => z | Throw _ => 0 end). by rewrite Hb.
  - reflexivity.
  - unfold utxo_vout. cbn. by apply to_uint32_small.
Qed.

Lemma wire_coins tip us vs : Forall2 coin_of us vs → 0 <= tip < 2 ^ 32 →
  let js := to_json <$> zip_with (utxo_json tip) us vs in
  Forall json_ok js ∧ Forall SendProof.utxo_ok js ∧ coin_total js = sum_Z vs ∧
  Forall2 (λ u j, utxo_txid j = rev (hexToBytes (un_txid u)) ∧ utxo_vout j = un_vout u) us js.
Proof.
  intros Hf Ht. induction Hf as [|u v us vs Hc _ IH]; [by repeat constructor|]. cbn [zip_with]. rewrite fmap_cons. destruct IH as (I1 & I2 & I3 & I4).
  destruct (coin_reads tip u v Hc) as (R1 & R2 & R3 & R4). split; [constructor; [by apply coin_json_ok|done]|]. split; [by constructor|]. split.
  - change (coin_value (to_json (utxo_json tip u v)) + coin_total (to_json <$> zip_with (utxo_json tip) us vs) = v + sum_Z vs). by rewrite R2, I3.
  - by constructor.
Qed.

(** C6. The coins of an address reach the wallet unchanged: when the gateway answers the
    wallet's request out of what the node lists, the client returns one entry for
    each output, with the outpoint the signing code then uses and the amount in
    satoshis exactly, for outputs below 2^25 coins; each is an entry the send
    screen can spend, and together they are worth what the node says. *)
Theorem wallet_sees_coins {EN : Environment} {P : Type} (gw : Gateway) (a : string) (w : browser P)
    (env : list event → ∀ x, Server.answer x) (s : sys gdb) (q : http_request) (dumps : py → string) (tip : Z) (us : list unspent) (vs : list Z)
    (Hjson : writes_json dumps) (Hnode : lists_coins env a tip us) (Hcoins : Forall2 coin_of us vs) (Htip : 0 <= tip < 2 ^ 32)
    (Hserver : server (sent w ++ [Request "GET" (baseUrl gw +:+ ("/v1/address/" +:+ a +:+ "/utxos")) [] None]) =
      http_reply dumps (run env (served (view (Address_utxos a) q)) s).1) :
  ∃ js, (utxos gw a w).1 = Ok (JObj [("address", JStr a); ("utxos", JArr js)]) ∧
    Forall SendProof.utxo_ok js ∧ coin_total js = sum_Z vs ∧
    Forall2 (λ u j, utxo_txid j = rev (hexToBytes (un_txid u)) ∧ utxo_vout j = un_vout u) us js.
Proof.
  destruct (yields_utxos env a tip us vs q Hnode Hcoins s) as (rep & Er & <-). rewrite Er in Hserver.
  destruct (wire_coins tip us vs Hcoins Htip) as (W1 & W2 & W3 & W4). exists (to_json <$> zip_with (utxo_json tip) us vs).
  split; [|done]. unfold utxos. rewrite get_run. cbn [bearer]. cbv zeta. rewrite Hserver. cbn [fst Gateway.answer http_reply]. unfold decode_reply. cbn [body rs_body jsonify].
  rewrite Hjson; [done|]. cbn [to_json fmap list_fmap fst snd]. rewrite json_ok_obj. split; [apply (bool_decide_unpack _); by vm_compute|].
  constructor; [done|]. constructor; [|constructor]. cbn [snd]. by rewrite json_ok_arr.
Qed.
End coins.

Module Wire.
#[local] Existing Instances Pool.config Pool.libraries.

Definition coin : unspent := Unspent (js_repeat "ab" 32) 1 (rnd 60000 COIN) 10.
Definition chain : Pool.chain := Pool.Chain [] [] (Some coin) false Pushed.
Definition dumps (v : py) : string := stringify (to_json v).
Definition query : http_request := Http_request "" None [].
Definition srv (h : list request) : option reply := http_reply dumps (run (Pool.env chain) (served (view (Address_utxos "D1") query)) Pool.start).1.
Definition gw : Gateway := {| baseUrl := "https://gw" |}.

Lemma dumps_writes : writes_json dumps.
Proof. intros v Hv. by apply (parse_write 0). Qed.

Lemma chain_lists : lists_coins (Pool.env chain) "D1" 600 [coin].
Proof.
  split; [done|done| |by exists "addr(D1)#0", Pool.no_text|done|done]. exists ["gateway"; "stakingpool"; "adminwallet"]. split; [by left|done].
Qed.

Lemma wallet_sees_coins_witness : ∃ js,
  (utxos (EN := demo srv) gw "D1" (new_browser ())).1 = Ok (JObj [("address", JStr "D1"); ("utxos", JArr js)]) ∧
  Forall SendProof.utxo_ok js ∧ coin_total js = 60000 ∧
  Forall2 (λ u j, utxo_txid j = rev (hexToBytes (un_txid u)) ∧ utxo_vout j = un_vout u) [coin] js.
Proof.
  apply (wallet_sees_coins (EN := demo srv) gw "D1" (new_browser ()) (Pool.env chain) Pool.start query dumps 600 [coin] [60000] dumps_writes chain_lists); [|lia|reflexivity].
  constructor; [|constructor]. split; [reflexivity|]. split; [unfold COIN; lia|]. split; [cbn; lia|]. split; [cbn; lia|vm_compute; reflexivity].
Defined.
End Wire.
