(* ===== verification/Fee.v ===== *)
(** * The fee the node asks for

    The minimum fee of codexacoin-core (consensus/tx_verify.cpp, policy/feerate.cpp,
    consensus/params.h) and the fee the send handler pays.  The gateway's
    [/v1/fee-estimate] reports satoshis per virtual byte, the node's floor of
    100000 per kilobyte as 100; the wallet multiplies that rate by the size and
    divides by 1000 again. *)

From S2P Require Import Prelude JsString JsNum Amount Json Hex JsValue Browser Primitives Base58 Bech32 Address Keys NodeTx NodeScript ScriptLemmas TxCodec Signing Gateway Price App AppSend AppSpend SendProof.

(** ** The node *)

(** *** Serialization *)

Definition write_vector {A} (f : A → bytes) (l : list A) : bytes :=
  WriteCompactSize (Z.of_nat (length l)) ++ mjoin (f <$> l).
Definition write_txin (i : CTxIn) : bytes :=
  write_outpoint (prevout i) ++ write_script (txin_scriptSig i) ++ le_bytes 4 (nSequence i).

Definition SerializeTransaction (fAllowWitness : bool) (tx : CTransaction) : bytes :=
  let flags := fAllowWitness && HasWitness (vin tx) in
  le_bytes 4 (nVersion tx) ++
  (if nVersion tx <? 2 then le_bytes 4 (nTime tx) else []) ++
  (if flags then WriteCompactSize 0 ++ le_bytes 1 1 else []) ++
  write_vector write_txin (vin tx) ++ write_vector write_txout (vout tx) ++
  (if flags then mjoin ((λ i, write_vector write_script (scriptWitness i)) <$> vin tx) else []) ++
  le_bytes 4 (nLockTime tx).

(** [size * (WITNESS_SCALE_FACTOR - 1) + size with witness], an [int32_t] *)
Definition GetTransactionWeight (tx : CTransaction) : Z :=
  to_signed 32 ((len (SerializeTransaction false tx) * 3 + len (SerializeTransaction true tx)) mod 2 ^ 32).
(** [GetVirtualTransactionSize(tx)], with no signature operations counted *)
Definition GetVirtualTransactionSize (tx : CTransaction) : Z :=
  Z.quot (Z.max (GetTransactionWeight tx) 0 + 4 - 1) 4.

(** *** Fees *)

Definition MIN_TX_FEE : Z := 10000.
Definition TX_FEE_PER_KB : Z := 100000.
Definition DEFAULT_MIN_RELAY_TX_FEE : Z := 100000.
Definition MAX_MONEY : Z := 2 ^ 63 - 1.
Definition MoneyRange (v : Z) : bool := (0 <=? v) && (v <=? MAX_MONEY).

(** What the checks read of the chain's parameters. *)
Record params := { nProtocolV3_1Time : Z; consensus_maturity : Z; params_maturity : Z }.

Definition IsProtocolV3_1 (p : params) (nTime : Z) : bool :=
  (nProtocolV3_1Time p <? nTime) && negb (nTime =? 1713938400).

(** [CFeeRate::GetFee]: [ceil(nSatoshisPerK * nSize / 1000.0)].  At the rates
    used the product is below 2^49, so the double quotient is within a thousandth
    of the exact one and has the same ceiling. *)
Definition GetFee (nSatoshisPerK num_bytes : Z) : Z :=
  let nSize := num_bytes mod 2 ^ 32 in
  let nFee := (nSatoshisPerK * nSize + 999) / 1000 in
  if (nFee =? 0) && negb (nSize =? 0) then
    if 0 <? nSatoshisPerK then 1 else if nSatoshisPerK <? 0 then -1 else nFee
  else nFee.

Definition GetMinFee (p : params) (nBytes nTime : Z) : Z :=
  let nMinFee :=
    if IsProtocolV3_1 p nTime then
      if nBytes <=? 100 then MIN_TX_FEE else GetFee TX_FEE_PER_KB nBytes
    else GetFee DEFAULT_MIN_RELAY_TX_FEE nBytes in
  if MoneyRange nMinFee then nMinFee else MAX_MONEY.

(** *** Inputs *)

Record Coin := { coin_out : CTxOut; fCoinBase : bool; fCoinStake : bool; coin_height : Z; coin_time : Z }.

Definition outpoint_null (o : COutPoint) : bool :=
  bool_decide (op_hash o = replicate 32 0) && (op_n o =? 0xffffffff).
Definition IsCoinBase (tx : CTransaction) : bool :=
  match vin tx with [i] => outpoint_null (prevout i) | _ => false end.
Definition txout_empty (o : CTxOut) : bool := (nValue o =? 0) && bool_decide (txout_scriptPubKey o = []).
Definition IsCoinStake (tx : CTransaction) : bool :=
  match vin tx, vout tx with
  | i :: _, o :: _ :: _ => negb (outpoint_null (prevout i)) && txout_empty o
  | _, _ => false
  end.

Definition invalid {A} (reason : string) : result A := Throw (ExHost "TxValidationState" reason).
(** Addition of [CAmount]s, 64 bits wide. *)
Definition add_amount (a b : Z) : Z := to_signed 64 ((a + b) mod 2 ^ 64).

Fixpoint GetValueOut (nValueOut : Z) (outs : list CTxOut) : result Z :=
  match outs with
  | [] => Ok nValueOut
  | o :: outs =>
      if negb (MoneyRange (nValue o)) || negb (MoneyRange (add_amount nValueOut (nValue o)))
      then Throw (ExHost "runtime_error" "GetValueOut: value out of range")
      else GetValueOut (add_amount nValueOut (nValue o)) outs
  end.

Section inputs.
  (** The chain's unspent outputs, its parameters and the adjusted time. *)
  Context (view : COutPoint → option Coin) (p : params) (nSpendHeight now : Z).

Definition HaveInputs (tx : CTransaction) : bool :=
  if IsCoinBase tx then true else forallb (λ i, bool_decide (is_Some (view (prevout i)))) (vin tx).

Fixpoint check_coins (nTimeTx nValueIn : Z) (ins : list CTxIn) : result Z :=
  match ins with
  | [] => Ok nValueIn
  | i :: ins =>
      match view (prevout i) with
      | None => Throw (ExHost "assert" "!coin.IsSpent()")
      | Some c =>
          let maturity := if IsProtocolV3_1 p nTimeTx then consensus_maturity p else params_maturity p in
          if (fCoinBase c || fCoinStake c) && (nSpendHeight - coin_height c <? maturity)
          then invalid "bad-txns-premature-spend-of-coinbase" else
          if nTimeTx <? coin_time c then invalid "bad-txns-time-earlier-than-input" else
          let nValueIn := add_amount nValueIn (nValue (coin_out c)) in
          if negb (MoneyRange (nValue (coin_out c))) || negb (MoneyRange nValueIn)
          then invalid "bad-txns-inputvalues-outofrange" else
          check_coins nTimeTx nValueIn ins
      end
  end.

(** [Consensus::CheckTxInputs]: the fee of a transaction ([None] for a
    coinstake, which sets none), or why it is invalid. *)
Definition CheckTxInputs (tx : CTransaction) : result (option Z) :=
  if negb (HaveInputs tx) then invalid "bad-txns-inputs-missingorspent" else
  let nTimeTx := if (nTime tx =? 0) && (2 <=? nVersion tx) then now else nTime tx in
  nValueIn ← check_coins nTimeTx 0 (vin tx);
  if IsCoinStake tx then Ok None else
  value_out ← GetValueOut 0 (vout tx);
  if nValueIn <? value_out then invalid "bad-txns-in-belowout" else
  let txfee_aux := nValueIn - value_out in
  if negb (MoneyRange txfee_aux) then invalid "bad-txns-fee-outofrange" else
  if IsProtocolV3_1 p nTimeTx && (txfee_aux <? GetMinFee p (GetVirtualTransactionSize tx) (nTimeTx mod 2 ^ 32))
  then invalid "bad-txns-fee-not-enough" else Ok (Some txfee_aux).
End inputs.

(** ** The size of what is sent *)

Lemma compact_size_length n : (1 <= length (WriteCompactSize n) <= 9)%nat.
Proof. unfold WriteCompactSize. repeat case_if; rewrite ?length_app, ?le_bytes_length; lia. Qed.

Lemma join_length {A B} (f : A → list B) (l : list A) (a b : nat) :
  Forall (λ x, (a <= length (f x) <= b)%nat) l →
  (a * length l <= length (mjoin (f <$> l)) <= b * length l)%nat.
Proof.
  induction 1 as [|x l Hx _ IH]; [cbn; lia|]. rewrite fmap_cons. change (mjoin (?a :: ?b)) with (a ++ mjoin b).
  rewrite length_app. cbn [length]. lia.
Qed.

Section size.
  Context {PR : Primitives} {PL : PrimitiveLaws}.

Lemma unlock_length_ge tx i u s : unlocks tx i u s → (44 <= length s)%nat.
Proof.
  intros (k & sig & -> & _ & Hs). pose proof (sig_bytes_length _ _ _ Hs). pose proof (secp_public_length k).
  unfold assemble. cbn [fmap list_fmap mjoin list_join item_bytes]. rewrite app_nil_r, length_app.
  unfold push_script, OP_PUSHDATA1. rewrite !length_app. repeat case_if; cbn [length]; rewrite ?le_bytes_length; lia.
Qed.

(** What is signed is what the node serializes again, with and without
    witnesses, and takes between 85 and 250 bytes per input. *)
Lemma signed_inputs_size inputs outs txs locktime :
  Forall (spend_ok None None) inputs → outpoint_of <$> txs = outpoint_of <$> (unsigned <$> inputs) →
  (∀ i u, inputs !! i = Some u → ∃ t, txs !! i = Some t ∧ unlocks (node_tx txs outs locktime) i u (scriptSig t)) →
  Forall (λ t, (85 <= length (input_bytes t) <= 250)%nat) txs.
Proof.
  intros Hok Ho Hu. pose proof (signed_inputs_ok _ _ _ _ _ _ Hok Ho Hu) as Htx. apply Forall_lookup. intros i t Ht.
  rewrite Forall_lookup in Htx. destruct (Htx i t Ht) as (H32 & _).
  assert (Hlt : (i < length inputs)%nat).
  { apply (f_equal length) in Ho. rewrite !length_fmap in Ho. apply lookup_lt_Some in Ht. lia. }
  destruct (lookup_lt_is_Some_2 inputs i Hlt) as [u Hi].
  destruct (Hu i u Hi) as (t' & Ht' & Hun). rewrite Ht in Ht'. injection Ht' as <-.
  pose proof (unlock_length_ge _ _ _ _ Hun). pose proof (unlock_length _ _ _ _ Hun) as Hle. unfold len in Hle.
  unfold input_bytes, write_script. rewrite !length_app, !le_bytes_length, H32.
  pose proof (compact_size_length (Z.of_nat (length (scriptSig t)))). lia.
Qed.

Lemma serialize_node aw ins outs locktime :
  SerializeTransaction aw (node_tx ins outs locktime) = tx_bytes 2 ins outs locktime.
Proof.
  assert (Hw : HasWitness (node_in <$> ins) = false) by (induction ins as [|i ins IH]; [done|]; exact IH).
  unfold SerializeTransaction, tx_bytes. cbn [node_tx vin vout nVersion nTime nLockTime]. rewrite Hw, andb_false_r.
  change (2 <? 2) with false. cbn [Datatypes.app]. unfold write_vector. rewrite !length_fmap, <- !list_fmap_compose.
  assert (E : ∀ i, (write_txin ∘ node_in) i = input_bytes i).
  { intros i. unfold input_bytes. cbn. unfold write_txin, write_outpoint. cbn. by rewrite <- app_assoc. }
  rewrite (list_fmap_ext _ input_bytes ins) by (intros ? i _; apply E). by rewrite <- !app_assoc.
Qed.

Definition outpoint_of_spend (u : spend) : COutPoint := {| op_hash := u_txid u; op_n := u_vout u |}.

Lemma signed_tx inputs outs :
  inputs ≠ [] → Forall (spend_ok None None) inputs → Forall txout_ok outs →
  Forall (λ o, len (scriptPubKey o) <= 100) outs →
  Z.of_nat (length inputs) <= MAX_SIZE → Z.of_nat (length outs) <= MAX_SIZE →
  ∃ raw tx, buildAndSignTransaction inputs outs None None 0 = Ok raw ∧
    UnserializeTransaction true raw = Ok (tx, []) ∧ (∀ aw, SerializeTransaction aw tx = raw) ∧
    nVersion tx = 2 ∧ nTime tx = 0 ∧ vout tx = node_out <$> outs ∧
    prevout <$> vin tx = outpoint_of_spend <$> inputs ∧
    (10 + 85 * length inputs + 9 * length outs <= length raw <= 26 + 250 * length inputs + 117 * length outs)%nat.
Proof.
  intros Hne Hok Hout Hsc Hni Hno.
  destruct (sign_loop outs None None 0 inputs 0 (unsigned <$> inputs)) as (txs & Hf & Ho & _ & Hu);
    [done|by rewrite length_fmap|].
  assert (Hlen : length txs = length inputs) by (apply (f_equal length) in Ho; by rewrite !length_fmap in Ho).
  assert (Hsize : (10 + 85 * length inputs + 9 * length outs <= length (tx_bytes 2 txs outs 0) <=
    26 + 250 * length inputs + 117 * length outs)%nat).
  { pose proof (join_length _ _ _ _ (signed_inputs_size _ _ _ _ Hok Ho Hu)) as Hi.
    assert (Hoo : Forall (λ o, (9 <= length (output_bytes o) <= 117)%nat) outs).
    { eapply Forall_impl; [|exact Hsc]. intros o Hl. unfold len in Hl. cbn beta in Hl. unfold output_bytes, write_script.
      rewrite !length_app, le_bytes_length. pose proof (compact_size_length (Z.of_nat (length (scriptPubKey o)))). lia. }
    apply join_length in Hoo. unfold tx_bytes. rewrite !length_app, !le_bytes_length.
    pose proof (compact_size_length (Z.of_nat (length txs))). pose proof (compact_size_length (Z.of_nat (length outs))).
    lia. }
  exists (tx_bytes 2 txs outs 0), (node_tx txs outs 0). split_and!; try done; try apply Hsize.
  - unfold buildAndSignTransaction. destruct inputs; [done|]. cbn [length Nat.eqb]. cbn [length] in Hf.
    rewrite Hf. cbn [mbind result_bind]. apply serializeTx_layout.
  - rewrite <- (app_nil_r (tx_bytes _ _ _ _)). apply reads_tx. split_and!; try done; try lia.
    + intros ->. by destruct inputs.
    + by eapply signed_inputs_ok.
  - intros aw. apply serialize_node.
  - cbn [node_tx vin]. rewrite <- list_fmap_compose.
    pose proof (f_equal (fmap (λ x : bytes * Z * option Z, {| op_hash := x.1.1; op_n := x.1.2 |})) Ho) as E.
    rewrite <- !list_fmap_compose in E. exact E.
Qed.
End size.

(** ** The values *)

Lemma add_amount_small a b : 0 <= a → 0 <= b → a + b <= 2 ^ 53 → add_amount a b = a + b.
Proof.
  intros. unfold add_amount. rewrite Z.mod_small by lia. unfold to_signed.
  destruct (Z.ltb_spec (a + b) (2 ^ (64 - 1))); [done|lia].
Qed.

Lemma money_small v : 0 <= v <= 2 ^ 53 → MoneyRange v = true.
Proof. intros. unfold MoneyRange, MAX_MONEY. apply andb_true_iff. rewrite !Z.leb_le. lia. Qed.

Lemma output_sum_nonneg outs : Forall txout_ok outs → 0 <= output_sum outs.
Proof.
  induction 1 as [|o l [Ho _] _ IH]; [done|]. change (output_sum (o :: l)) with (valueSatoshis o + output_sum l). lia.
Qed.

Lemma value_out_sum outs : ∀ acc,
  Forall txout_ok outs → 0 <= acc → acc + output_sum outs <= 2 ^ 53 →
  GetValueOut acc (node_out <$> outs) = Ok (acc + output_sum outs).
Proof.
  induction outs as [|o outs IH]; intros acc Hok Ha Hs; [cbn; f_equal; unfold output_sum; cbn; lia|].
  apply Forall_cons_iff in Hok as [[Ho _] Hok]. pose proof (output_sum_nonneg outs Hok).
  change (output_sum (o :: outs)) with (valueSatoshis o + output_sum outs) in *.
  rewrite fmap_cons. cbn [GetValueOut]. change (nValue (node_out o)) with (valueSatoshis o).
  rewrite add_amount_small by lia. rewrite !money_small by lia. cbn [negb orb]. rewrite IH by (done || lia). f_equal. lia.
Qed.

(** A coin the node would let a transaction of time [t] spend, of the value the
    wallet believes it has. *)
Definition spendable (view : COutPoint → option Coin) (t : Z) (ov : COutPoint * Z) : Prop :=
  0 <= ov.2 ∧ ∃ c, view ov.1 = Some c ∧
    nValue (coin_out c) = ov.2 ∧ fCoinBase c = false ∧ fCoinStake c = false ∧ coin_time c <= t.
Definition value_sum (us : list (COutPoint * Z)) : Z := foldr (λ ov s, ov.2 + s) 0 us.

(** The coin of an entry of the gateway's list. *)
Definition listed_coin (u : json) : COutPoint * Z := ({| op_hash := utxo_txid u; op_n := utxo_vout u |}, coin_value u).

Lemma listed_sum us : value_sum (listed_coin <$> us) = coin_total us.
Proof. induction us as [|u us IH]; [done|]. rewrite fmap_cons.
  change (value_sum (?x :: ?l)) with (x.2 + value_sum l). by rewrite IH.
Qed.

Lemma coins_sum view p h t us : ∀ ins acc,
  Forall (spendable view t) us → prevout <$> ins = us.*1 →
  0 <= acc → acc + value_sum us <= 2 ^ 53 → check_coins view p h t acc ins = Ok (acc + value_sum us).
Proof.
  assert (Hp : ∀ l, Forall (spendable view t) l → 0 <= value_sum l).
  { induction 1 as [|u l [Hu _] _ IH]; [done|]. change (value_sum (u :: l)) with (u.2 + value_sum l). lia. }
  induction us as [|u us IH]; intros [|i ins] acc Hok E Ha Hs; try done; [cbn; f_equal; lia|].
  apply Forall_cons_iff in Hok as [(Hu & c & Hc & Hv & Hb & Hst & Ht) Hok]. pose proof (Hp us Hok).
  rewrite !fmap_cons in E. injection E as Ei E.
  change (value_sum (u :: us)) with (u.2 + value_sum us) in *.
  cbn [check_coins]. rewrite Ei, Hc, Hb, Hst, Hv. cbn [orb andb].
  destruct (Z.ltb_spec t (coin_time c)); [lia|].
  rewrite add_amount_small by lia. rewrite !money_small by lia. cbn [negb orb]. rewrite IH by (done || lia). f_equal. lia.
Qed.

(** The script of a destination is at most 25 bytes. *)
Lemma decoded_length {PR : Primitives} a net d : decodeAddress a net = Ok d → length (d_hash d) = 20%nat.
Proof.
  unfold decodeAddress. destruct (looks_bech32 a net).
  - destruct (bech32Decode a) as [hrp data]. unfold throw_if. destruct (negb (String.eqb hrp _)); [done|]. rsimpl.
    destruct (convertBits _ 5 8 false) as [pr|]; [|done]. destruct (negb (bool_decide _)); [done|].
    destruct (Nat.eqb_spec (length pr) 20) as [E|E]; [|done]. intros [= <-]. cbn. by rewrite length_map.
  - destruct (base58checkDecode a) as [dec|]; [|done]. rsimpl.
    destruct (Nat.eqb_spec (length dec) 21) as [E|E]; [|done]. destruct dec as [|v h]; [done|].
    rewrite js_slice_from_1. cbn in E.
    repeat case_match; intros Hd; try done; injection Hd as <-; cbn; lia.
Qed.

Lemma dest_scripts {PR : Primitives} net rs dests :
  mapR (dest_output net) rs = Ok dests → Forall (λ o, len (scriptPubKey o) <= 100) dests.
Proof.
  intros H. apply mapR_ok in H. induction H as [|r o rs dests Ho _ IH]; [done|]. constructor; [|done].
  unfold dest_output in Ho. destruct (decodeAddress _ _) as [d|] eqn:E; [|done]. injection Ho as <-.
  apply decoded_length in E. cbn [scriptPubKey]. unfold len, dest_script.
  destruct (d_type d); unfold p2pkhScriptPubKey, p2shScriptPubKey, p2wpkhScriptPubKey, u8_of;
    rewrite length_fmap, !length_app, E; cbn; lia.
Qed.

(** ** The fee of a send *)

(** Up to 250 times the floor the gateway reports, the fee the wallet computes is
    below the node's minimum. *)
Lemma min_fee_above p rate now size (n m o : nat) :
  IsProtocolV3_1 p now = true → (1 <= n)%nat → (1 <= o)%nat → (m <= o)%nat → 0 <= rate <= 25000 →
  10 + 85 * Z.of_nat n + 9 * Z.of_nat o <= size < 2 ^ 29 →
  rate_fee rate (estimated_vsize (Z.of_nat n) (Z.of_nat m + 1)) < GetMinFee p size now.
Proof.
  intros Hp Hn Ho Hm Hr Hsz. unfold GetMinFee. rewrite Hp. destruct (Z.leb_spec size 100); [lia|].
  assert (Ef : GetFee TX_FEE_PER_KB size = 100 * size).
  { unfold GetFee, TX_FEE_PER_KB. rewrite (Z.mod_small size) by lia.
    replace (100000 * size + 999) with (999 + (100 * size) * 1000) by lia. rewrite Z.div_add by lia.
    change (999 / 1000) with 0. destruct (Z.eqb_spec (0 + 100 * size) 0); cbn [andb]; lia. }
  rewrite Ef, money_small by lia. unfold rate_fee, estimated_vsize.
  rewrite Z.quot_div_nonneg by nia. apply Z.div_lt_upper_bound; nia.
Qed.

Lemma weight_small tx raw :
  (∀ aw, SerializeTransaction aw tx = raw) → len raw < 2 ^ 29 → GetVirtualTransactionSize tx = len raw.
Proof.
  intros E Hl. unfold GetVirtualTransactionSize, GetTransactionWeight. rewrite !E.
  assert (0 <= len raw) by (unfold len; lia). rewrite Z.mod_small by lia. unfold to_signed.
  destruct (Z.ltb_spec (len raw * 3 + len raw) (2 ^ (32 - 1))); [|lia].
  rewrite Z.max_l by lia. rewrite Z.quot_div_nonneg by lia. zdiv.
Qed.

Lemma have_spendable view t us ins :
  Forall (spendable view t) us → prevout <$> ins = us.*1 →
  forallb (λ i, bool_decide (is_Some (view (prevout i)))) ins = true.
Proof.
  intros H. revert ins. induction H as [|u us (_ & c & Hc & _) _ IH]; intros [|i ins] E; try done.
  rewrite !fmap_cons in E. injection E as Ei E. cbn. rewrite Ei, Hc. by apply IH.
Qed.

(** On coins the node knows, [CheckTxInputs] is the comparison of the fee. *)
Lemma check_inputs_fee view p h now tx us outs fee :
  nVersion tx = 2 → nTime tx = 0 → vout tx = node_out <$> outs →
  prevout <$> vin tx = us.*1 →
  Forall (spendable view now) us → Forall txout_ok outs →
  (∃ o outs', outs = o :: outs' ∧ 0 < valueSatoshis o) →
  output_sum outs + fee = value_sum us → 0 <= fee → value_sum us <= 2 ^ 53 →
  CheckTxInputs view p h now tx =
    if IsProtocolV3_1 p now && (fee <? GetMinFee p (GetVirtualTransactionSize tx) (now mod 2 ^ 32))
    then invalid "bad-txns-fee-not-enough" else Ok (Some fee).
Proof.
  intros Hv Ht Ho Hi Hc Hok (o & outs' & Eo & Hpos) Hsum Hf H53. unfold CheckTxInputs, HaveInputs.
  rewrite (have_spendable view now us) by done. rewrite Ht, Hv.
  replace (if IsCoinBase tx then true else true) with true by (by destruct (IsCoinBase tx)). cbn [negb].
  change ((0 =? 0) && (2 <=? 2)) with true. cbv zeta match. rewrite (coins_sum _ _ _ _ us) by (done || lia).
  assert (Hst : IsCoinStake tx = false).
  { unfold IsCoinStake. rewrite Ho, Eo, fmap_cons. destruct (vin tx); [done|]. destruct (node_out <$> outs'); [done|].
    unfold txout_empty. cbn [node_out nValue]. destruct (Z.eqb_spec (valueSatoshis o) 0); [lia|]. apply andb_false_r. }
  cbn [mbind result_bind]. rewrite Hst, Ho, value_out_sum by (done || lia). cbn [mbind result_bind].
  rewrite !Z.add_0_l. destruct (Z.ltb_spec (value_sum us) (output_sum outs)); [lia|].
  replace (value_sum us - output_sum outs) with fee by lia.
  pose proof (output_sum_nonneg outs Hok). by rewrite money_small by lia.
Qed.

(** The outputs and inputs of a send: the first output pays a recipient, there
    are as many as recipients and perhaps the change, and coins are spent. *)
Lemma sent_shape {PR : Primitives} {PL : PrimitiveLaws} {EN : Environment}
    w rs net dests us w2 minRate chosen totalIn k c
    (Hs : sendable w rs net dests us w2 minRate chosen totalIn)
    (Hfunds : foldl Z.add 0 (rc_amount <$> rs) + sent_fee w rs minRate chosen <= totalIn) :
  let outs := dests ++ change_outputs k c in
  (∃ o outs', outs = o :: outs' ∧ 0 < valueSatoshis o) ∧ (1 <= length chosen)%nat ∧
  (1 <= length rs <= length outs)%nat ∧ (length outs <= length rs + 1)%nat ∧
  Forall (λ o, len (scriptPubKey o) <= 100) outs.
Proof.
  intros outs. destruct (s_amounts _ _ _ _ _ _ _ _ _ Hs) as [Hrs Hpos].
  pose proof (s_dest _ _ _ _ _ _ _ _ _ Hs) as Hd. pose proof (sent_fee_nonneg _ _ _ _ _ _ _ _ _ Hs) as Hfee.
  destruct (chosen_part _ _ _ _ _ _ _ _ _ Hs Hfunds) as (_ & _ & Etot).
  pose proof (s_size _ _ _ _ _ _ _ _ _ Hs) as (H53 & _). rewrite sum_amounts in Hfunds.
  destruct (dest_values net rs dests Hd Hpos ltac:(lia)) as (_ & _ & Hge & Hl). apply dest_scripts in Hd as Hsc.
  assert (Hch : (length (change_outputs k c) <= 1)%nat ∧ Forall (λ o, len (scriptPubKey o) <= 100) (change_outputs k c)).
  { unfold change_outputs. destruct (0 <? c); [|by split; [cbn; lia|]]. split; [done|]. apply Forall_singleton.
    cbn [scriptPubKey]. unfold len. rewrite p2pkh_length by apply ripemd160_length. lia. }
  destruct rs as [|r rs]; [done|]. destruct dests as [|o dests]; [done|]. unfold outs.
  apply Forall_cons_iff in Hpos as [Hr Hpos]. cbn [foldr] in *.
  assert (0 <= foldr (λ r y, rc_amount r + y) 0 rs) by (clear -Hpos; induction Hpos; cbn; lia).
  split; [|split; [|split; [|split]]].
  - exists o, (dests ++ change_outputs k c). split; [done|]. apply mapR_ok, Forall2_cons_1 in Hd as [Hd _].
    unfold dest_output in Hd. destruct (decodeAddress (rc_address r) net); [|done]. injection Hd as <-.
    cbn [valueSatoshis]. rewrite to_number_small; lia.
  - destruct chosen; [cbn in Etot; lia|cbn; lia].
  - rewrite length_app. cbn in *. lia.
  - rewrite length_app. cbn in *. lia.
  - apply Forall_app. split; [done|apply Hch].
Qed.

(** C20. A send at a rate of at most 25000, two hundred and fifty times the floor the
    gateway reports, is refused: the transaction the handler broadcasts is one the
    node reads, but on a chain that has the listed coins [CheckTxInputs] answers
    "bad-txns-fee-not-enough", because the rate per byte was divided by 1000. *)
Theorem send_fee_not_enough {PR : Primitives} {PL : PrimitiveLaws} {EN : Environment}
    w rs net dests us w2 minRate chosen totalIn (view : COutPoint → option Coin) (p : params) (h now : Z)
    (Hs : sendable w rs net dests us w2 minRate chosen totalIn)
    (Hfunds : foldl Z.add 0 (rc_amount <$> rs) + sent_fee w rs minRate chosen <= totalIn)
    (Hrate : chosen_rate minRate (sendFeeRateOverride (page w)) <= 25000)
    (Hcount : Z.of_nat (length chosen) + Z.of_nat (length rs) <= 100000)
    (Hcoins : Forall (λ u, spendable view now (listed_coin u)) chosen)
    (Hnow : IsProtocolV3_1 p now = true) (Hclock : 0 <= now < 2 ^ 32) :
  ∃ raw tx rest, send_body rs w = (broadcast (gateway (page w)) (bytesToHex raw) ≫= rest) (fee_noted w2 minRate) ∧
    UnserializeTransaction true raw = Ok (tx, []) ∧
    CheckTxInputs view p h now tx = invalid "bad-txns-fee-not-enough".
Proof.
  destruct (send_run _ _ _ _ _ _ _ _ _ Hs Hfunds) as (k & ss & r & rest & Hk & _ & Hf2 & Hok & Hb & Hrun).
  destruct (sent_outputs_ok _ _ _ _ _ _ _ _ _ Hs Hfunds k) as (Hout & Hsum & Hno).
  destruct (chosen_part _ _ _ _ _ _ _ _ _ Hs Hfunds) as (tail & Eus & Etot).
  pose proof (sent_fee_nonneg _ _ _ _ _ _ _ _ _ Hs) as Hfee. pose proof (list.Forall2_length _ _ _ Hf2) as Hlen.
  pose proof (s_size _ _ _ _ _ _ _ _ _ Hs) as (H53 & Hmax & _). rewrite Eus, length_app in Hmax.
  set (c := totalIn - _ - sent_fee _ _ _ _) in *.
  destruct (sent_shape _ _ _ _ _ _ _ _ _ k c Hs Hfunds) as (Hfirst & Hn & Hm & Ho & Hsc).
  set (outs := dests ++ change_outputs k c) in *.
  destruct (signed_tx ss outs) as (raw & tx & Eb & Eu & Es & Ev & Et & Evo & Evi & Hraw); try done; try lia.
  { intros ->. cbn in Hlen. lia. }
  exists raw, tx, (rest raw). split; [rewrite Hrun, <- Hb, Eb; by rewrite bind_lift|]. split; [done|].
  assert (Eo : outpoint_of_spend <$> ss = (listed_coin <$> chosen).*1).
  { clear -Hf2. induction Hf2 as [|u s us ss (i & key & _ & _ & E1 & E2 & _) _ IH]; [done|].
    rewrite !fmap_cons, IH. unfold outpoint_of_spend. cbn. by rewrite E1, E2. }
  rewrite (check_inputs_fee _ _ _ _ _ (listed_coin <$> chosen) outs (sent_fee w rs minRate chosen));
    rewrite ?listed_sum; try done; try lia; try congruence; [|by apply Forall_fmap].
  assert (Hl : len raw < 2 ^ 29) by (unfold len; lia).
  rewrite Hnow, (weight_small tx raw Es Hl), Z.mod_small by lia. cbn [andb].
  destruct (Z.ltb_spec (sent_fee w rs minRate chosen) (GetMinFee p (len raw) now)) as [_|Hbad]; [done|exfalso].
  pose proof (s_rate _ _ _ _ _ _ _ _ _ Hs). pose proof (chosen_rate_ge minRate (sendFeeRateOverride (page w))).
  pose proof (min_fee_above p (chosen_rate minRate (sendFeeRateOverride (page w))) now (len raw)
    (length chosen) (length rs) (length outs) Hnow) as Hlt.
  unfold sent_fee in Hbad. unfold len in *. lia.
Qed.

(** ** A refused payment *)

Module FeeExample.
Definition mainnet_params : params :=
  {| nProtocolV3_1Time := 1713938400; consensus_maturity := 500; params_maturity := 500 |}.
Definition coin (v : Z) : Coin :=
  {| coin_out := {| nValue := v; txout_scriptPubKey := [] |}; fCoinBase := false; fCoinStake := false;
     coin_height := 10; coin_time := 1750000000 |}.
(** The two outputs of the example page. *)
Definition view (o : COutPoint) : option Coin :=
  if bool_decide (op_hash o = replicate 32 0xab) then Some (coin 60000)
  else if bool_decide (op_hash o = replicate 32 0xcd) then Some (coin 900000) else None.
Definition listed (b v : string) : json :=
  JObj [("txid", JStr (js_repeat b 32)); ("vout", jint 1); ("value", JStr v); ("_index", jint 0)].
End FeeExample.

Lemma send_fee_not_enough_witness :
  ∃ raw tx, UnserializeTransaction true raw = Ok (tx, []) ∧
    CheckTxInputs FeeExample.view FeeExample.mainnet_params 600 1800000000 tx = invalid "bad-txns-fee-not-enough".
Proof.
  destruct (send_fee_not_enough (PR := Toy.prims) (PL := Toy.laws) (EN := SendExample.env) _ _ _ _ _ _ _ _ _
    FeeExample.view FeeExample.mainnet_params 600 1800000000 SendExample_ready) as (raw & tx & rest & _ & H1 & H2).
  - vm_compute. congruence.
  - vm_compute. congruence.
  - vm_compute. congruence.
  - change SendExample.us with [FeeExample.listed "ab" "60000"; FeeExample.listed "cd" "900000"].
    apply Forall_cons_iff. split; [|apply Forall_singleton];
      (split; [by vm_compute|]; eexists; split; [vm_compute; reflexivity|]; by split_and!; vm_compute).
  - reflexivity.
  - lia.
  - by exists raw, tx.
Defined.
