(* ===== verification/AppBook.v ===== *)
(** * The address book, the scanner overlay and watched addresses
    (web-wallet/app.js, 586-676 and 1380-1494) *)

From S2P Require Import Prelude JsString JsNum Amount Json Hex JsValue Browser Primitives Address Keys Storage Gateway App AppHome AppSend.

Section book.
  Context {EN : Environment}.

(** ** The scanner overlay *)

Definition openQrScanner (target : scan_target) : js app unit :=
  _ ← show_el "qr-scan-overlay" "flex";
  _ ← text "qr-scan-error" "";
  _ ← emit Camera_started;
  update (set_qrScanHandle (Some target)).

Definition closeQrScan : js app unit :=
  h ← the qrScanHandle;
  _ ← match h with Some _ => emit Camera_stopped | None => pass end;
  _ ← update (set_qrScanHandle None);
  _ ← show_el "qr-scan-overlay" "none";
  dom_set "qr-video" "srcObject" "null".

(** [onResult] of an open scanner: the text goes to its target, the overlay
    closes. *)
Definition scan_result (t : string) : js app unit :=
  h ← the qrScanHandle;
  match h with
  | None => pass
  | Some target =>
      _ ← match target with
          | ToRow id => row_scanned id t
          | ToProposal => set_value "ms-proposal-json" t
          end;
      closeQrScan
  end.

Definition scan_error : js app unit :=
  text "qr-scan-error"
    "Could not access the camera. Check that this site has camera permission in your browser settings.".

(** ** Lists of named addresses *)

(** [entries.length] and [entries.map]: only arrays have both. *)
Definition as_array (v : json) : result (list json) :=
  match v with JArr l => Ok l | _ => Throw (ExType "entries.map is not a function") end.

(** [l.splice(i, 1)] *)
Definition remove_at {A} (i : nat) (l : list A) : list A := take i l ++ drop (S i) l.

Definition named_address (label address : string) : json := JObj [("label", JStr label); ("address", JStr address)].

(** ** The book *)

Definition loadAddressBookEntries : js app (list json) :=
  raw ← local_get "cac_address_book";
  v ← lift (parse_or raw (JArr []));
  lift (as_array v).
Definition saveAddressBookEntries (entries : list json) : js app unit :=
  local_set "cac_address_book" (stringify (JArr entries)).

Definition book_row (i : nat) (label address : string) : string :=
  dq "
    <div class='book-row'>
      <div class='book-info'>
        <div class='book-label'>" +:+ escapeHtml label +:+ dq "</div>
        <div class='book-address mono'>" +:+ escapeHtml address +:+ dq "</div>
      </div>
      <button class='secondary' type='button' data-use='" +:+ show (Z.of_nat i) +:+ dq "'>Use</button>
      <button class='danger' type='button' data-remove='" +:+ show (Z.of_nat i) +:+ dq "'>Remove</button>
    </div>".

Definition book_entry (i : nat) (e : json) : result string :=
  label ← get (Some e) "label";
  address ← get (Some e) "address";
  mret (book_row i (to_str label) (to_str address)).

(** [xs.map((e, i) => f(i, e))] *)
Definition imapR {A B} (f : nat → A → result B) (l : list A) : result (list B) :=
  mapR (λ ix, f ix.1 ix.2) (zip (seq 0 (length l)) l).

Definition renderAddressBook : js app unit :=
  entries ← loadAddressBookEntries;
  match entries with
  | [] => html "address-book-list" (dq "<p class='notice'>No saved addresses yet.</p>")
  | _ =>
      rows ← lift (imapR book_entry entries);
      html "address-book-list" (js_join "" rows)
  end.

Definition loadAddressBook : js app unit := renderAddressBook.

(** The row the book fills: the one last focused, or the first. *)
Definition target_row (rows : list recipient_row) (active : option string) : option recipient_row :=
  match active with
  | Some id =>
      match filter (λ r, row_id r = id) rows with r :: _ => Some r | [] => head rows end
  | None => head rows
  end.

(** "Use", with the entries that were rendered. *)
Definition book_use (entries : list json) (i : nat) : js app unit :=
  rows ← the recipients;
  active ← the activeSendRecipientId;
  match target_row rows active with
  | None => pass
  | Some r =>
      a ← lift (get (entries !! i) "address");
      alter_row (row_id r) (set_row_address (to_str a))
  end.

Definition book_remove (i : nat) : js app unit :=
  updated ← loadAddressBookEntries;
  _ ← saveAddressBookEntries (remove_at i updated);
  renderAddressBook.

Definition book_add : js app unit :=
  l ← value "new-book-label";
  a ← value "new-book-address";
  let label := js_trim l in
  let address := js_trim a in
  if String.eqb label "" || String.eqb address "" then pass
  else
    entries ← loadAddressBookEntries;
    _ ← saveAddressBookEntries (entries ++ [named_address label address]);
    _ ← set_value "new-book-label" "";
    _ ← set_value "new-book-address" "";
    renderAddressBook.
End book.

(** ** Edits of the book *)

Section edits.
  Context {EN : Environment}.

(** The book is stored as [entries]. *)
Definition book_is (entries : list json) (w : browser app) : Prop :=
  (local w !! "cac_address_book" = Some (stringify (JArr entries)) ∨
   local w !! "cac_address_book" = None ∧ entries = []) ∧ Forall json_ok entries.

Lemma stringify_arr_nonempty l : String.eqb (stringify (JArr l)) "" = false.
Proof. by destruct l. Qed.

Lemma loadAddressBookEntries_run entries w :
  book_is entries w → loadAddressBookEntries w = (Ok entries, w).
Proof.
  intros [Hl Hok]. unfold loadAddressBookEntries. rewrite run_bind. unfold local_get.
  destruct Hl as [-> | [-> ->]]; [|done]. cbv match. rewrite bind_lift. unfold parse_or.
  rewrite stringify_arr_nonempty. unfold stringify. by rewrite parse_write by (by apply json_ok_arr).
Qed.

Lemma render_keeps_local (L : gmap string string) : keeps (λ w : browser app, local w = L) renderAddressBook.
Proof.
  unfold renderAddressBook, loadAddressBookEntries, saveAddressBookEntries.
  apply keeps_bind; [|intros entries].
  - apply keeps_bind; [by intros ? ?|]. intros raw. apply keeps_bind; [by intros ? ?|]. intros v. by intros ? ?.
  - destruct entries; [by intros ? ?|]. apply keeps_bind; [by intros ? ?|]. intros rows. by intros ? ?.
Qed.

Lemma save_entries_run entries w :
  ∃ w', saveAddressBookEntries entries w = (Ok (), w') ∧ dom w' = dom w ∧
    local w' = <["cac_address_book" := stringify (JArr entries)]> (local w).
Proof. by eexists. Qed.

Lemma book_is_set entries w L :
  local w = <["cac_address_book" := stringify (JArr entries)]> L → Forall json_ok entries → book_is entries w.
Proof. intros E Hok. split; [|done]. left. rewrite E. apply lookup_insert_eq. Qed.

Lemma named_address_ok l a : json_ok (named_address l a).
Proof. apply json_ok_obj. split; [by apply (bool_decide_unpack _)|]. by repeat constructor. Qed.

Lemma book_remove_ok entries i w : book_is entries w → book_is (remove_at i entries) (book_remove i w).2.
Proof.
  intros Hb. unfold book_remove. rewrite run_bind, (loadAddressBookEntries_run entries) by done. cbv match.
  destruct (save_entries_run (remove_at i entries) w) as (w' & E & _ & Hl). rewrite run_bind, E. cbv match.
  eapply book_is_set; [by apply render_keeps_local; rewrite Hl|].
  destruct Hb as [_ Hok]. apply Forall_app. split; [by apply Forall_take|by apply Forall_drop].
Qed.

Lemma book_add_ok entries w l a :
  book_is entries w → js_trim (default "" (dom w !! ("new-book-label", "value"))) = l →
  js_trim (default "" (dom w !! ("new-book-address", "value"))) = a → l ≠ "" → a ≠ "" →
  book_is (entries ++ [named_address l a]) (book_add w).2.
Proof.
  intros Hb El Ea Hl Ha. unfold book_add. rewrite !bind_value.
  rewrite El, Ea. destruct (String.eqb_spec l ""); [done|]. destruct (String.eqb_spec a ""); [done|]. cbn [orb].
  rewrite run_bind, (loadAddressBookEntries_run entries) by done. cbv match.
  destruct (save_entries_run (entries ++ [named_address l a]) w) as (w' & E & _ & Hloc). rewrite run_bind, E. cbv match.
  eapply (book_is_set _ _ (local w)).
  - rewrite <- Hloc. set (L := local w').
    assert (Hk : ∀ v1 v2, keeps (λ w : browser app, local w = L)
      (_ ← set_value "new-book-label" v1; _ ← set_value "new-book-address" v2; renderAddressBook)).
    { intros v1 v2. apply keeps_bind; [by intros ? ?|]. intros _. apply keeps_bind; [by intros ? ?|]. intros _. apply render_keeps_local. }
    by apply Hk.
  - destruct Hb as [_ Hok]. apply Forall_app. split; [done|]. apply Forall_singleton, named_address_ok.
Qed.

(** An entry added to the address book is stored after the others, whatever its
    label and address hold, and every other entry survives; removing it again
    leaves the book as it was. *)
Theorem book_add_remove entries w l a :
  book_is entries w → js_trim (default "" (dom w !! ("new-book-label", "value"))) = l →
  js_trim (default "" (dom w !! ("new-book-address", "value"))) = a → l ≠ "" → a ≠ "" →
  loadAddressBookEntries (book_add w).2 = (Ok (entries ++ [named_address l a]), (book_add w).2) ∧
  book_is entries (book_remove (length entries) (book_add w).2).2.
Proof.
  intros Hb El Ea Hl Ha. pose proof (book_add_ok entries w l a Hb El Ea Hl Ha) as H1.
  split; [by apply loadAddressBookEntries_run|].
  pose proof (book_remove_ok _ (length entries) _ H1) as H2. unfold remove_at in H2.
  rewrite take_app_length, drop_ge, app_nil_r in H2 by (rewrite length_app; cbn; lia). done.
Qed.
End edits.

Lemma book_add_remove_witness :
  let w0 := new_browser (initial_app ∅ ∅) in
  let w := (set_value "new-book-address" " C1 " (set_value "new-book-label" "<b>Bob" w0).2).2 in
  loadAddressBookEntries (book_add w).2 = (Ok [named_address "<b>Bob" "C1"], (book_add w).2).
Proof.
  intros w0 w. destruct (book_add_remove [] w "<b>Bob" "C1") as [H _].
  - split; [right; split; reflexivity|constructor].
  - vm_compute. reflexivity.
  - vm_compute. reflexivity.
  - discriminate.
  - discriminate.
  - exact H.
Defined.

(** ** Watched addresses (web-wallet/app.js, 1380-1494) *)

(** [min(50, x)] *)
Definition num_min50 (x : num) : num := if num_lt (num_of_Z 50) x then num_of_Z 50 else x.

(** [Math.max(1, Math.min(50, Number(text) || 0))] *)
Definition xpub_count (t : string) : num :=
  let n := string_to_number t in
  num_max (num_of_Z 1) (num_min50 (if num_falsy n then num_of_Z 0 else n)).

(** The values of [i] in [for (let i = 0; i < count; i++)], for a count that is
    at most 50. *)
Definition loop_indices (count : num) : list Z := filter (λ i, num_lt (num_of_Z i) count = true) (seqZ 0 50).

Section watch.
  Context {PR : Primitives} {EN : Environment}.

Definition loadWatchList : js app (list json) :=
  raw ← local_get "cac_watch_list";
  v ← lift (parse_or raw (JArr []));
  lift (as_array v).
Definition saveWatchList (entries : list json) : js app unit :=
  local_set "cac_watch_list" (stringify (JArr entries)).

Definition watch_row (i : nat) (label address : string) : string :=
  dq "
    <div class='book-row'>
      <div class='book-info'>
        <div class='book-label'>" +:+ escapeHtml label +:+ dq "</div>
        <div class='book-address mono'>" +:+ escapeHtml address +:+ dq "</div>
        <div class='notice small' id='watch-balance-" +:+ show (Z.of_nat i) +:+ dq "'>Loading balance...</div>
      </div>
      <button class='secondary' type='button' data-explorer='" +:+ show (Z.of_nat i) +:+ dq "'>Explorer</button>
      <button class='danger' type='button' data-remove='" +:+ show (Z.of_nat i) +:+ dq "'>Remove</button>
    </div>".

Definition watch_entry (i : nat) (e : json) : result string :=
  label ← get (Some e) "label";
  address ← get (Some e) "address";
  mret (watch_row i (to_str label) (to_str address)).

(** One turn of the balance loop. *)
Definition watch_balance (ie : nat * json) : js app unit :=
  let el := "watch-balance-" +:+ show (Z.of_nat ie.1) in
  try_catch (
    gw ← the gateway;
    address ← lift (get (Some ie.2) "address");
    b ← balance gw (to_str address);
    total ← lift (balance_total b);
    text el (formatCac total +:+ " CAC"))
  (λ _, text el "Could not fetch balance").

Definition loadWatch : js app unit :=
  entries ← loadWatchList;
  match entries with
  | [] => html "watch-list" (dq "<p class='notice'>No watched addresses yet.</p>")
  | _ =>
      rows ← lift (imapR watch_entry entries);
      _ ← html "watch-list" (js_join "" rows);
      for_each (zip (seq 0 (length entries)) entries) watch_balance
  end.

Definition watch_remove (i : nat) : js app unit :=
  updated ← loadWatchList;
  _ ← saveWatchList (remove_at i updated);
  spawn loadWatch.

(** "Explorer", with the entries that were rendered. *)
Definition watch_explorer (entries : list json) (i : nat) : js app unit :=
  a ← lift (get (entries !! i) "address");
  emit (Opened ("https://codexacoin.com/blockexplorer/#/address/" +:+ to_str a)).

Definition show_xpub : js app unit :=
  d ← dom_get "my-xpub-output" "style.display";
  if negb (String.eqb d "none") then show_el "my-xpub-output" "none"
  else
    _ ← dom_set "btn-show-xpub" "disabled" "true";
    try_finally (
      net ← selected_network;
      m ← the mnemonic;
      xpub ← lift (match m with
                   | Some m => deriveAccountXpub m net ""
                   | None => Throw (ExType "invalid mnemonic type")
                   end);
      _ ← set_value "my-xpub-output" xpub;
      show_el "my-xpub-output" "block")
    (dom_set "btn-show-xpub" "disabled" "false").

(** The entry of one derived address. *)
Definition xpub_entry (label xpub : string) (net : network) (i : Z) : result json :=
  address ← deriveXpubAddress xpub net i;
  mret (JObj [("label", JStr (label +:+ " #" +:+ show i)); ("address", JStr address);
              ("xpubGroup", JStr (str_slice_from xpub (-8)))]).

Definition watch_xpub_add : js app unit :=
  _ ← text "watch-xpub-error" "";
  l ← value "watch-xpub-label";
  x ← value "watch-xpub-input";
  c ← value "watch-xpub-count";
  let label := js_trim l in
  let xpub := js_trim x in
  let count := xpub_count c in
  if String.eqb label "" || String.eqb xpub "" then text "watch-xpub-error" "Enter a label and an xpub."
  else
    try_catch (
      net ← selected_network;
      entries ← loadWatchList;
      new ← lift (mapR (xpub_entry label xpub net) (loop_indices count));
      _ ← saveWatchList (entries ++ new);
      _ ← set_value "watch-xpub-label" "";
      _ ← set_value "watch-xpub-input" "";
      spawn loadWatch)
    (λ e, text "watch-xpub-error"
            (if String.eqb (exn_message e) "" then "Could not derive addresses from this xpub." else exn_message e)).

Definition watch_add : js app unit :=
  l ← value "watch-label";
  a ← value "watch-address";
  let label := js_trim l in
  let address := js_trim a in
  if String.eqb label "" || String.eqb address "" then pass
  else
    entries ← loadWatchList;
    _ ← saveWatchList (entries ++ [named_address label address]);
    _ ← set_value "watch-label" "";
    _ ← set_value "watch-address" "";
    spawn loadWatch.
End watch.
