(* ===== verification/AppReceive.v ===== *)
(** * Receiving (web-wallet/app.js, 680-696 and 790-821) *)

From S2P Require Import Prelude JsString JsNum Amount Json JsValue Browser Primitives Base58 Keys Address Qr Storage App.

Section receive.
  Context {PR : Primitives} {EN : Environment}.

(** The text of the code: a bare address, or a payment request. *)
Definition receive_uri (addr : string) (amount : string) : string :=
  let amountNum := parseFloat (js_trim amount) in
  if num_gt0 amountNum then "codexacoin:" +:+ addr +:+ "?amount=" +:+ num_to_string amountNum else addr.

Definition refreshReceiveQr : js app unit :=
  amount ← value "receive-request-amount";
  addr ← activeAddress;
  renderQr "receive-qr" (receive_uri (default "undefined" addr) amount).

Definition address_row (active idx : Z) (addr : option string) : string :=
  dq "
    <div class='addr-row " +:+ (if idx =? active then "current" else "") +:+ dq "'>
      <span class='mono addr-info'>" +:+ default "undefined" addr +:+ dq "</span>
      <button class='secondary' type='button' data-select='" +:+ show idx +:+ dq "'>" +:+
    (if idx =? active then "Current" else "Use") +:+ dq "</button>
    </div>".

Definition renderAddressList : js app unit :=
  l ← the addressIndices;
  active ← the activeIndex;
  addrs ← the addresses;
  html "address-list" (js_join "" ((λ idx, address_row active idx (addrs !! idx)) <$> l)).

Definition loadReceive : js app unit :=
  addr ← activeAddress;
  _ ← text "receive-address" (default "" addr);
  _ ← set_value "receive-request-amount" "";
  _ ← refreshReceiveQr;
  renderAddressList.

Definition address_select (idx : Z) : js app unit :=
  _ ← update (set_activeIndex idx);
  loadReceive.

(** [Math.max(...indices)]; the list is never empty. *)
Definition max_index (l : list Z) : Z := match l with [] => -1 | i :: l => foldr Z.max i l end.

Definition new_address : js app unit :=
  l ← the addressIndices;
  let nextIndex := max_index l + 1 in
  _ ← update (set_addressIndices (l ++ [nextIndex]));
  _ ← saveAddressIndices;
  _ ← ensureKey nextIndex;
  _ ← update (set_activeIndex nextIndex);
  loadReceive.

Definition view_on_explorer : js app unit :=
  addr ← activeAddress;
  emit (Opened ("https://codexacoin.com/blockexplorer/#/address/" +:+ default "undefined" addr)).

Definition copy_address : js app unit :=
  addr ← activeAddress;
  emit (Copied (default "undefined" addr)).
End receive.

(** ** A new address *)

Section new_address.
  Context {PR : Primitives} {PL : PrimitiveLaws} {EN : Environment}.

Lemma max_index_ge l i : i ∈ l → i <= max_index l.
Proof.
  destruct l as [|x l]; [by intros []%not_elem_of_nil|]. cbn [max_index]. revert x.
  induction l as [|y l IH]; intros x; cbn [foldr].
  - intros ->%list_elem_of_singleton. lia.
  - rewrite !elem_of_cons. intros [-> |[-> |Hi]]; [|lia|].
    + specialize (IH x ltac:(by left)). lia.
    + specialize (IH x ltac:(by right)). lia.
Qed.

Lemma loadReceive_run w : ∃ w', loadReceive w = (Ok (), w') ∧ page w' = page w ∧ local w' = local w.
Proof. eexists. split; [reflexivity|]. done. Qed.

Lemma indices_back l : Forall (λ i, - 2 ^ 53 <= i <= 2 ^ 53) l → mapR index_of_json (jint <$> l) = Ok l.
Proof. intros H. apply mapR_ok. induction H; rewrite ?fmap_cons; constructor; [by apply num_to_bigint_small|done]. Qed.

Lemma loadAddressIndices_run l w :
  l ≠ [] → Forall (λ i, - 2 ^ 53 <= i <= 2 ^ 53) l →
  local w !! addressIndicesStorageKey (network_name (page w)) = Some (stringify (JArr (jint <$> l))) →
  loadAddressIndices w = (Ok l, w).
Proof.
  intros Hne Hl Hs. unfold loadAddressIndices. rewrite bind_the, run_bind. unfold local_get. rewrite Hs. cbv match.
  rewrite bind_lift. unfold parse_or. assert (String.eqb (stringify (JArr (jint <$> l))) "" = false) as -> by (by destruct l).
  unfold stringify. rewrite parse_write.
  - destruct l as [|i l]; [done|]. unfold lift. f_equal. exact (indices_back (i :: l) Hl).
  - apply json_ok_arr, Forall_fmap. eapply Forall_impl; [|exact Hl]. intros i Hi. by exists i.
Qed.

(** "New address" adds the index after the largest known one, which is new,
    makes it the active one with its key in the cache, and stores the indices
    so that a later visit to the page loads the same list. *)
Theorem new_address_kept w l n k :
  cache_ok (page w) → addressIndices (page w) = l → l ≠ [] → n = max_index l + 1 →
  Forall (λ i, - 2 ^ 53 <= i <= 2 ^ 53) (l ++ [n]) → wallet_key (page w) n = Ok k →
  ∃ w', new_address w = (Ok (), w') ∧ (n ∉ l) ∧ addressIndices (page w') = l ++ [n] ∧ activeIndex (page w') = n ∧
    keys (page w') !! n = Some k ∧ loadAddressIndices w' = (Ok (l ++ [n]), w').
Proof.
  intros Hc El Hne En Hsmall Hk. unfold new_address. rewrite bind_the, El. cbv zeta. rewrite <- En, bind_update.
  set (w1 := with_page w _). rewrite run_bind.
  set (w2 := (saveAddressIndices w1).2). change (saveAddressIndices w1) with (@Ok unit (), w2). cbv match.
  pose proof (ensureKey_run n w2 Hc) as Hr. change (wallet_key (page w2) n) with (wallet_key (page w) n) in Hr.
  rewrite Hk in Hr. destruct Hr as (a' & Ee & Hg & _ & Hkn). rewrite run_bind, Ee. cbv match. rewrite bind_update.
  match goal with |- context [loadReceive ?x] => set (w3 := x) end.
  destruct (loadReceive_run w3) as (w' & Er & Hp & Hl). exists w'.
  assert (Ha : addressIndices (page w3) = l ++ [n] ∧ network_name (page w3) = network_name (page w)).
  { destruct Hg as (ks & ads & -> & _). done. }
  split; [exact Er|]. split; [|rewrite Hp; split; [apply Ha|]; split; [done|]; split; [done|]].
  - intros Hin%max_index_ge. lia.
  - apply loadAddressIndices_run; [by destruct l|done|]. rewrite Hl, Hp, (proj2 Ha). apply lookup_insert_eq.
Qed.
End new_address.

Lemma new_address_kept_witness :
  let w := new_browser (set_mnemonic (Some "seed words") (set_addressIndices [0; 4] (initial_app ∅ ∅))) in
  ∃ w', new_address (PR := Toy.prims) w = (Ok (), w') ∧
    loadAddressIndices w' = (Ok [0; 4; 5], w').
Proof.
  intros w. destruct (wallet_key (PR := Toy.prims) (page w) 5) as [k|] eqn:E; [|discriminate E].
  destruct (new_address_kept (PR := Toy.prims) (PL := Toy.laws) w [0; 4] 5 k)
    as (w' & H1 & _ & _ & _ & _ & H2).
  - apply cache_ok_empty; reflexivity.
  - reflexivity.
  - discriminate.
  - reflexivity.
  - repeat (apply Forall_cons_iff; split; [lia|]). constructor.
  - exact E.
  - exists w'. split; [exact H1|exact H2].
Defined.

(** ** Payment requests *)

Section uri.

Lemma parseFloat_show n : 0 <= n → parseFloat (show n) = num_of_Z n.
Proof.
  intros Hn. destruct (digits_string_spec n Hn) as (ds & Hds & Hd10 & Hv & Hne).
  unfold parseFloat. rewrite show_chars, Hds by done.
  assert (Hsp : ∀ c, c ∈ digit_char <$> ds → is_space c = false).
  { intros c (d & -> & Hd)%list_elem_of_fmap. rewrite list.Forall_forall in Hd10. specialize (Hd10 d Hd).
    unfold is_digit in Hd10. apply digit_char_space. lia. }
  rewrite drop_spaces_plain by done.
  assert (Hsign : split_sign (digit_char <$> ds) = (false, digit_char <$> ds)).
  { destruct ds as [|d ds]; [done|]. apply Forall_cons_iff in Hd10 as [Hd _]. unfold is_digit in Hd.
    destruct (digit_char_sign d ltac:(lia)) as [H1 H2]. cbn [fmap list_fmap split_sign].
    apply Ascii.eqb_neq in H1 as ->. by apply Ascii.eqb_neq in H2 as ->. }
  rewrite Hsign. unfold parse_unsigned. pose proof (take_digits_app 10 ds [] ) as Ht. rewrite app_nil_r in Ht.
  rewrite Ht by (done || lia). cbn [take_digits]. rewrite app_nil_r, drop_ge by (by rewrite length_fmap).
  rewrite app_nil_r. destruct ds as [|d ds]; [done|]. unfold decimal. cbn [parse_exponent length].
  change (0 - Z.of_nat 0) with 0. cbn [Z.leb Z.compare]. rewrite Hv. unfold num_of_Z. change (10 ^ 0) with 1. by rewrite Z.mul_1_r.
Qed.

Lemma num_to_string_small n : - 2 ^ 53 <= n <= 2 ^ 53 → num_to_string (num_of_Z n) = show n.
Proof.
  intros Hn. pose proof (num_to_bigint_small n Hn) as Hb. unfold num_to_string, num_int.
  destruct (num_of_Z n) as [| |m e]; [done..|]. rewrite Hb. destruct (Z.leb_spec (Z.abs n) (2 ^ 53)); [done|lia].
Qed.

Lemma num_gt0_small n : 0 < n < 2 ^ 53 → num_gt0 (num_of_Z n) = true.
Proof.
  intros Hn. destruct (num_of_Z_small n Hn) as (s & Hs & ->). cbn.
  assert (0 < 2 ^ s) by (apply Z.pow_pos_nonneg; lia). apply Z.ltb_lt. nia.
Qed.

Definition base58_text (s : string) : Prop := Forall (λ c, c ∈ chars B58_ALPHABET) (chars s).

(** Characters of addresses and digits are neither blank nor special. *)
Definition ordinary (c : ascii) : Prop :=
  is_space c = false ∧ c ∉ ["?"%char; "&"%char; "="%char; "+"%char; "%"%char].

Lemma ordinary_base58 c : c ∈ chars B58_ALPHABET → ordinary c.
Proof.
  intros Hc. assert (H : bool_decide (Forall ordinary (chars B58_ALPHABET)) = true) by (by vm_compute).
  apply bool_decide_eq_true in H. rewrite list.Forall_forall in H. by apply H.
Qed.
Lemma ordinary_digits n c : 0 <= n → c ∈ chars (show n) → ordinary c.
Proof.
  intros Hn. rewrite show_chars by done. destruct (digits_string_spec n Hn) as (ds & -> & Hd10 & _).
  intros (d & -> & Hd)%list_elem_of_fmap. rewrite list.Forall_forall in Hd10. specialize (Hd10 d Hd).
  assert (H : bool_decide (Forall (λ d, ordinary (digit_char d)) (seqZ 0 10)) = true) by (by vm_compute).
  apply bool_decide_eq_true in H. rewrite list.Forall_forall in H. apply H, elem_of_seqZ. unfold is_digit in Hd10. lia.
Qed.

Lemma url_decode_ordinary l : (∀ c, c ∈ l → ordinary c) → url_decode l = l.
Proof.
  induction l as [|c l IH]; intros H; [done|]. destruct (H c ltac:(by left)) as [_ Hc].
  rewrite !not_elem_of_cons in Hc. destruct Hc as (_ & _ & _ & Hp & Hq & _). cbn [url_decode].
  apply Ascii.eqb_neq in Hp as ->. apply Ascii.eqb_neq in Hq as ->. f_equal. apply IH. intros. apply H. by right.
Qed.

(** The code shown for a requested whole amount, scanned by a wallet, gives back
    the address and the amount. *)
Theorem receive_uri_roundtrip addr n :
  base58_text addr → 0 < n < 2 ^ 53 →
  parseBip21 (receive_uri addr (show n)) = (addr, Some (num_of_Z n)).
Proof.
  intros Ha Hn. unfold base58_text in Ha. rewrite list.Forall_forall in Ha.
  assert (Hd : ∀ c, c ∈ chars (show n) → ordinary c) by (intros c; apply ordinary_digits; lia).
  assert (Ho : ∀ c, c ∈ chars addr → ordinary c) by (intros c Hc; by apply ordinary_base58, Ha).
  unfold receive_uri. rewrite trim_plain by (intros c Hc; by apply Hd). rewrite parseFloat_show by lia.
  rewrite num_gt0_small, num_to_string_small by lia.
  set (q := "amount=" +:+ show n).
  assert (Eu : chars ("codexacoin:" +:+ addr +:+ "?amount=" +:+ show n) =
    chars "codexacoin:" ++ chars addr ++ "?"%char :: chars q) by (unfold q; by rewrite !chars_app).
  assert (Hq : ∀ c, c ∈ chars q → is_space c = false ∧ c ≠ "?"%char ∧ c ≠ "&"%char).
  { unfold q. rewrite chars_app. intros c [Hc|Hc]%elem_of_app.
    - assert (H : bool_decide (Forall (λ c, is_space c = false ∧ c ≠ "?"%char ∧ c ≠ "&"%char) (chars "amount=")) = true)
        by (by vm_compute). apply bool_decide_eq_true in H. rewrite list.Forall_forall in H. by apply H.
    - destruct (Hd c Hc) as [H1 H2]. rewrite !not_elem_of_cons in H2. naive_solver. }
  unfold parseBip21. rewrite trim_plain.
  2:{ intros c. rewrite Eu, !elem_of_app, elem_of_cons. intros [Hc|[Hc|[->|Hc]]]; [|by apply Ho|done|by apply Hq].
      assert (H : bool_decide (Forall (λ c, is_space c = false) (chars "codexacoin:")) = true) by (by vm_compute).
      apply bool_decide_eq_true in H. rewrite list.Forall_forall in H. by apply H. }
  assert (js_starts_with (js_lower ("codexacoin:" +:+ addr +:+ "?amount=" +:+ show n)) "codexacoin:" = true) as ->.
  { unfold js_starts_with, js_lower. rewrite chars_of_chars, Eu, fmap_app. apply is_prefix_app. }
  cbn [negb]. unfold str_slice_from. rewrite Eu. rewrite (js_slice_from_drop _ 11) by (rewrite !length_app; cbn; lia).
  rewrite drop_app_length' by done. unfold js_split. rewrite chars_of_chars, split_chars_app.
  2:{ intros Hin. destruct (Ho _ Hin) as [_ H]. rewrite !not_elem_of_cons in H. naive_solver. }
  rewrite split_chars_none by (intros Hin; by destruct (Hq _ Hin) as (_ & H & _)). cbn [fmap list_fmap].
  rewrite !of_chars_chars. f_equal. unfold search_param.
  rewrite split_chars_none by (intros Hin; by destruct (Hq _ Hin) as (_ & _ & H)).
  unfold q. rewrite chars_app. cbn -[show chars_app parseFloat url_decode num_of_Z of_chars].
  rewrite (url_decode_ordinary (chars (show n)) Hd), of_chars_chars.
  destruct (String.eqb_spec ("amount=" +:+ show n) ""); [done|].
  match goal with |- context [String.eqb ?x "amount"] => change (String.eqb x "amount") with true end. cbv match.
  rewrite parseFloat_show by lia. destruct (String.eqb_spec (show n) "") as [E|]; [|done].
  apply (f_equal chars) in E. rewrite show_chars in E by lia.
  destruct (digits_string_spec n ltac:(lia)) as (ds & E' & _ & _ & Hne). rewrite E' in E. by destruct ds.
Qed.
End uri.

Lemma receive_uri_roundtrip_witness : parseBip21 (receive_uri "CaC1x" (show 25)) = ("CaC1x", Some (num_of_Z 25)).
Proof.
  apply (receive_uri_roundtrip "CaC1x" 25); [|lia]. unfold base58_text. rewrite <- (bool_decide_eq_true (Forall _ _)).
  vm_compute. reflexivity.
Defined.
