(* ===== verification/Derivation.v ===== *)
(** * Deriving keys while the page goes on (web-wallet/app.js)

    [ensureKey] awaits the derivation of a key and stores it afterwards, so
    several derivations can be under way at once, and the user can switch the
    network or lock the wallet in between.  Here a step ends where the code
    awaits: an event runs a handler up to its first derivation, and [Done] runs
    one derivation's continuation up to the next.  Arrays are shared: "New
    address" pushes onto the array a walk may be iterating over. *)

From stdpp Require Import relations.
From S2P Require Import Prelude JsString Primitives Base58 Address Keys App AppReceive.

(** What follows a derivation: the rest of the loop of
    [deriveAllKnownAddresses] over an array, the "New address" handler, or a
    handler that only needs the key. *)
Inductive continuation :=
  | Walk (array pos : nat)
  | Fresh (index : Z)
  | Once.

(** A derivation under way, with what it captured when it began. *)
Record thread := Thread {
  t_net : network;
  t_mnemonic : option string;
  t_index : Z;
  t_then : continuation
}.

Record page := Page {
  p_network : string;
  p_mnemonic : option string;
  p_keys : gmap Z keypair;
  p_addresses : gmap Z string;
  p_arrays : list (list Z);              (* the arrays made so far *)
  p_indices : nat;                       (* which of them state.addressIndices is *)
  p_active : Z;
  p_stored : gmap string (list Z)        (* the indices stored for each network *)
}.

Definition array_of (p : page) (h : nat) : list Z := default [] (p_arrays p !! h).
Definition indices_of (p : page) : list Z := array_of p (p_indices p).

Definition set_active (i : Z) (p : page) : page :=
  Page (p_network p) (p_mnemonic p) (p_keys p) (p_addresses p) (p_arrays p) (p_indices p) i (p_stored p).
Definition set_cache (ks : gmap Z keypair) (ads : gmap Z string) (p : page) : page :=
  Page (p_network p) (p_mnemonic p) ks ads (p_arrays p) (p_indices p) (p_active p) (p_stored p).

(** The end of [deriveAllKnownAddresses]. *)
Definition adjust_active (p : page) : page :=
  if bool_decide (p_active p ∈ indices_of p) then p else set_active (default 0 (list.last (indices_of p))) p.

Section derivation.
  Context {PR : Primitives}.

(** The derivation [ensureKey(i)] begins, with the network and phrase of now. *)
Definition begin_key (p : page) (i : Z) (k : continuation) : option thread :=
  match NETWORKS (p_network p) with
  | Some net => Some (Thread net (p_mnemonic p) i k)
  | None => None
  end.

(** The loop over [array] from [pos] on, where [l] is left of it. *)
Fixpoint walk (p : page) (array pos : nat) (l : list Z) : page * option thread :=
  match l with
  | [] => (adjust_active p, None)
  | i :: l =>
      match p_keys p !! i with
      | Some _ => walk p array (S pos) l
      | None => (p, begin_key p i (Walk array pos))
      end
  end.

Definition resume (p : page) (k : continuation) : page * option thread :=
  match k with
  | Walk array pos => walk p array (S pos) (drop (S pos) (array_of p array))
  | Fresh i => (set_active i p, None)
  | Once => (p, None)
  end.

(** [ensureKey(i)] and what follows, up to the await if there is one. *)
Definition ensure (p : page) (i : Z) (k : continuation) : page * option thread :=
  match p_keys p !! i with
  | Some _ => resume p k
  | None => (p, begin_key p i k)
  end.

(** The continuation of a derivation: the key and its address are stored, under
    the network the derivation began with. *)
Definition complete (p : page) (t : thread) : page * option thread :=
  match derive (t_mnemonic t) (t_net t) (t_index t) with
  | Throw _ => (p, None)
  | Ok key =>
      let ks := <[t_index t := key]> (p_keys p) in
      match p2pkhAddress (hash160 (publicKey key)) (t_net t) with
      | Throw _ => (set_cache ks (p_addresses p) p, None)
      | Ok s => resume (set_cache ks (<[t_index t := s]> (p_addresses p)) p) (t_then t)
      end
  end.

(** [deriveAllKnownAddresses()] up to its first await: the stored indices become
    a new array. *)
Definition derive_all (p : page) : page * option thread :=
  let l := match p_stored p !! p_network p with Some (i :: l) => i :: l | _ => [0] end in
  let h := length (p_arrays p) in
  walk (Page (p_network p) (p_mnemonic p) (p_keys p) (p_addresses p) (p_arrays p ++ [l]) h (p_active p) (p_stored p)) h 0 l.

Inductive event :=
  | Enter (m : string)      (* the stored phrase is opened: boot, unlock *)
  | Restore (m : string)    (* a phrase is entered, or a new one confirmed *)
  | Switch (net : string)
  | Lock
  | New_address
  | Use (i : Z)             (* a handler asks for a key *)
  | Done (n : nat).         (* the n-th derivation under way ends *)

Definition begin (p : page) (e : event) : page * option thread :=
  match e with
  | Enter m =>
      derive_all (Page (p_network p) (Some m) (p_keys p) (p_addresses p) (p_arrays p) (p_indices p) (p_active p) (p_stored p))
  | Restore m =>
      derive_all (Page (p_network p) (Some m) (p_keys p) (p_addresses p) (p_arrays p ++ [[0]]) (length (p_arrays p)) (p_active p)
                    (<[p_network p := [0]]> (p_stored p)))
  | Switch net =>
      derive_all (Page net (p_mnemonic p) ∅ ∅ (p_arrays p) (p_indices p) (p_active p) (p_stored p))
  | Lock => (Page (p_network p) None ∅ ∅ (p_arrays p) (p_indices p) (p_active p) (p_stored p), None)
  | New_address =>
      let n := max_index (indices_of p) + 1 in
      let l := indices_of p ++ [n] in
      ensure (Page (p_network p) (p_mnemonic p) (p_keys p) (p_addresses p) (<[p_indices p := l]> (p_arrays p))
                (p_indices p) (p_active p) (<[p_network p := l]> (p_stored p))) n (Fresh n)
  | Use i => ensure p i Once
  | Done _ => (p, None)
  end.

Definition system : Type := page * list thread.

Definition handle (s : system) (e : event) : option system :=
  match e with
  | Done n =>
      match s.2 !! n with
      | Some t => let '(p, o) := complete s.1 t in Some (p, delete n s.2 ++ option_list o)
      | None => None
      end
  | _ => let '(p, o) := begin s.1 e in Some (p, s.2 ++ option_list o)
  end.

(** The page as it loads: no phrase, no array but the empty one. *)
Definition loaded (net : string) (stored : gmap string (list Z)) : system :=
  (Page net None ∅ ∅ [[]] 0 0 stored, []).
End derivation.

(** ** Derivations on a page that stays put *)

(** What a derivation's own continuation does not change. *)
Definition agree (p p' : page) : Prop :=
  p_network p' = p_network p ∧ p_mnemonic p' = p_mnemonic p ∧ p_keys p' = p_keys p ∧
  p_addresses p' = p_addresses p ∧ p_arrays p' = p_arrays p ∧ p_indices p' = p_indices p.

(** A derivation for the network and the phrase in use. *)
Definition current (p : page) (t : thread) : Prop :=
  NETWORKS (p_network p) = Some (t_net t) ∧ t_mnemonic t = p_mnemonic p.

(** The derivation will store index [i], or its loop still comes to it. *)
Definition will (p : page) (t : thread) (i : Z) : Prop :=
  t_index t = i ∨ ∃ array pos, t_then t = Walk array pos ∧ i ∈ drop (S pos) (array_of p array).

Definition served (p : page) (ts : list thread) (i : Z) : Prop :=
  is_Some (p_keys p !! i) ∨ ∃ t, t ∈ ts ∧ will p t i.

Lemma agree_refl p : agree p p.
Proof. done. Qed.

Lemma agree_active i p : agree p (set_active i p).
Proof. done. Qed.

Lemma served_agree p p' ts i : agree p p' → served p ts i → served p' ts i.
Proof.
  intros (_ & _ & Hk & _ & Ha & _) [H|(t & Ht & Hw)]; [left; by rewrite Hk|right]. exists t. split; [done|].
  unfold will, array_of in *. by rewrite Ha.
Qed.

Lemma served_mono p ts ts' i : (∀ t, t ∈ ts → t ∈ ts') → served p ts i → served p ts' i.
Proof. intros Hs [H|(t & Ht & Hw)]; [by left|right; eauto]. Qed.

Section quiet.
  Context {PR : Primitives} {PL : PrimitiveLaws}.

Lemma begin_key_spec p i k : is_Some (NETWORKS (p_network p)) →
  ∃ t, begin_key p i k = Some t ∧ current p t ∧ t_index t = i ∧ t_then t = k.
Proof. intros [net E]. unfold begin_key. rewrite E. by eexists. Qed.

Lemma walk_spec array l : ∀ pos p, is_Some (NETWORKS (p_network p)) → drop pos (array_of p array) = l →
  let '(p', o) := walk p array pos l in
  agree p p' ∧ Forall (current p) (option_list o) ∧ ∀ i, i ∈ l → served p (option_list o) i.
Proof.
  induction l as [|i l IH]; intros pos p Hn Hl; cbn [walk].
  - split; [|split; [constructor|set_solver]]. unfold adjust_active. case_bool_decide; [apply agree_refl|apply agree_active].
  - assert (Hl' : drop (S pos) (array_of p array) = l).
    { replace (S pos) with (pos + 1)%nat by lia. by rewrite <- drop_drop, Hl. }
    destruct (p_keys p !! i) as [k|] eqn:Ek.
    + specialize (IH (S pos) p Hn Hl'). destruct (walk p array (S pos) l) as [p' o]. destruct IH as (H1 & H2 & H3).
      split; [done|]. split; [done|]. intros j [->|Hj]%elem_of_cons; [left; by rewrite Ek|by apply H3].
    + destruct (begin_key_spec p i (Walk array pos) Hn) as (t & -> & Hc & Hi & Ht). split; [apply agree_refl|].
      split; [by apply Forall_singleton|]. intros j Hj. right. exists t. split; [by left|].
      apply elem_of_cons in Hj as [->|Hj]; [by left|right]. exists array, pos. by rewrite Hl'.
Qed.

Lemma resume_spec p k : is_Some (NETWORKS (p_network p)) →
  let '(p', o) := resume p k in
  agree p p' ∧ Forall (current p) (option_list o) ∧
  ∀ i array pos, k = Walk array pos → i ∈ drop (S pos) (array_of p array) → served p (option_list o) i.
Proof.
  intros Hn. destruct k as [array pos|j|]; cbn [resume].
  - pose proof (walk_spec array _ (S pos) p Hn eq_refl) as H. destruct (walk _ _ _ _) as [p' o].
    destruct H as (H1 & H2 & H3). split; [done|]. split; [done|]. intros i a b [= <- <-]. apply H3.
  - split; [apply agree_active|]. split; [constructor|done].
  - split; [apply agree_refl|]. split; [constructor|done].
Qed.

Lemma ensure_spec p i k : is_Some (NETWORKS (p_network p)) →
  let '(p', o) := ensure p i k in
  agree p p' ∧ Forall (current p) (option_list o) ∧ served p (option_list o) i.
Proof.
  intros Hn. unfold ensure. destruct (p_keys p !! i) eqn:Ek.
  - pose proof (resume_spec p k Hn) as H. destruct (resume p k) as [p' o]. destruct H as (H1 & H2 & _).
    split; [done|]. split; [done|]. left. by rewrite Ek.
  - destruct (begin_key_spec p i k Hn) as (t & -> & Hc & Hi & _). split; [apply agree_refl|].
    split; [by apply Forall_singleton|]. right. exists t. split; by left.
Qed.

(** Every cached key is the one of its index, for the network and the phrase in
    use, beside its address. *)
Definition cache_right (p : page) : Prop := ∀ i k, p_keys p !! i = Some k →
  ∃ net a, NETWORKS (p_network p) = Some net ∧ derive (p_mnemonic p) net i = Ok k ∧
    p_addresses p !! i = Some a ∧ p2pkhAddress (hash160 (publicKey k)) net = Ok a.

Record derivation_ok (s : system) : Prop := {
  d_net : is_Some (NETWORKS (p_network s.1));
  d_array : (p_indices s.1 < length (p_arrays s.1))%nat;
  d_cache : cache_right s.1;
  d_current : Forall (current s.1) s.2;
  d_served : p_mnemonic s.1 ≠ None → ∀ i, i ∈ indices_of s.1 → served s.1 s.2 i
}.

(** The indices in the page, in storage and under way are not hardened ones, and
    the phrase is a valid one. *)
Record derivable (s : system) : Prop := {
  d_phrase : ∀ m, p_mnemonic s.1 = Some m → bip39_valid m = true;
  d_arrays : Forall (Forall child_index) (p_arrays s.1);
  d_stored : map_Forall (λ _ l, Forall child_index l) (p_stored s.1);
  d_threads : Forall (λ t, child_index (t_index t)) s.2
}.

(** The events of a page on which the network changes, or the wallet is locked or
    opened, only while nothing is being derived. *)
Definition settled (s : system) (e : event) : Prop :=
  match e with
  | Enter m | Restore m => p_mnemonic s.1 = None ∧ bip39_valid m = true ∧ s.2 = []
  | Switch net => is_Some (NETWORKS net) ∧ s.2 = []
  | Lock => s.2 = []
  | New_address => p_mnemonic s.1 ≠ None ∧ child_index (max_index (indices_of s.1) + 1)
  | Use i => p_mnemonic s.1 ≠ None ∧ child_index i
  | Done _ => True
  end.
Inductive settled_step (s s' : system) : Prop :=
  | settled_event e : settled s e → handle s e = Some s' → settled_step s s'.

(** A valid phrase derives a key at every such index, on each of the wallet's
    networks. *)
Hypothesis total : ∀ m name net i,
  bip39_valid m = true → NETWORKS name = Some net → child_index i → is_ok (derive (Some m) net i) = true.

Lemma cache_right_agree p p' : agree p p' → cache_right p → cache_right p'.
Proof. intros (E1 & E2 & E3 & E4 & _). unfold cache_right. by rewrite E1, E2, E3, E4. Qed.

Lemma current_agree p p' t : agree p p' → current p t → current p' t.
Proof. intros (E1 & E2 & _). unfold current. by rewrite E1, E2. Qed.

Lemma indices_agree p p' : agree p p' → indices_of p' = indices_of p.
Proof. intros (_ & _ & _ & _ & E5 & E6). unfold indices_of, array_of. by rewrite E5, E6. Qed.

(** A page that only gained derivations for what it needs. *)
Lemma derivation_ok_grow p p' ts new :
  is_Some (NETWORKS (p_network p)) → (p_indices p < length (p_arrays p))%nat → cache_right p →
  Forall (current p) (ts ++ new) → agree p p' →
  (p_mnemonic p ≠ None → ∀ i, i ∈ indices_of p → served p (ts ++ new) i) → derivation_ok (p', ts ++ new).
Proof.
  intros Hn Ha Hc Ht Hag Hs. pose proof Hag as (E1 & E2 & _ & _ & E5 & E6). split; cbn [fst snd].
  - by rewrite E1.
  - by rewrite E5, E6.
  - by eapply cache_right_agree.
  - eapply Forall_impl; [|exact Ht]. intros t. by apply current_agree.
  - rewrite E2. intros Hm i Hi. apply (served_agree p); [done|]. apply Hs; [done|]. by rewrite <- (indices_agree p p').
Qed.

(** A loop over all stored indices, begun on a page with nothing under way. *)
Lemma derive_all_ok p : is_Some (NETWORKS (p_network p)) → cache_right p →
  let '(p', o) := derive_all p in derivation_ok (p', option_list o).
Proof.
  intros Hn Hc. unfold derive_all. set (l := match p_stored p !! p_network p with Some _ => _ | None => _ end). set (q := Page _ _ _ _ _ _ _ _).
  assert (Hl : array_of q (length (p_arrays p)) = l).
  { unfold array_of, q. cbn. by rewrite lookup_app_r, Nat.sub_diag by lia. }
  pose proof (walk_spec (length (p_arrays p)) l 0 q Hn ltac:(by rewrite Hl)) as H.
  destruct (walk q _ 0 l) as [p' o]. destruct H as (H1 & H2 & H3).
  apply (derivation_ok_grow q p' [] (option_list o)); try done.
  - unfold q. cbn. rewrite length_app. cbn. lia.
  - intros _ i Hi. cbn [Datatypes.app]. apply H3. unfold indices_of in Hi. change (p_indices q) with (length (p_arrays p)) in Hi.
    by rewrite Hl in Hi.
Qed.

Lemma done_ok p ts n t : derivation_ok (p, ts) → derivable (p, ts) → ts !! n = Some t →
  let '(p', o) := complete p t in derivation_ok (p', delete n ts ++ option_list o).
Proof.
  intros [Hn Ha Hc Ht Hs] [Hv _ _ Hi] Hts. cbn [fst snd] in *. pose proof (delete_Permutation ts n t Hts) as Hperm.
  rewrite Hperm in Ht. apply Forall_cons_iff in Ht as [[En Em] Ht]. unfold complete. rewrite Em.
  destruct (p_mnemonic p) as [m|] eqn:Epm.
  2:{ cbn [derive option_list]. apply (derivation_ok_grow p); rewrite ?app_nil_r, ?Epm; done. }
  rewrite Hperm in Hi. apply Forall_cons_iff in Hi as [Hi _].
  pose proof (total m _ (t_net t) (t_index t) (Hv m eq_refl) En Hi) as Hok. destruct (derive (Some m) (t_net t) (t_index t)) as [key|] eqn:Ed; [|done].
  destruct (hash160_address _ (t_net t) (publicKey key) En) as [a Hadr]. rewrite Hadr.
  set (q := set_cache _ _ p). pose proof (resume_spec q (t_then t) Hn) as Hr.
  destruct (resume q (t_then t)) as [p' o]. destruct Hr as (Hag & Hcur & Hwalk).
  apply (derivation_ok_grow q); try done.
  - intros i k. unfold q. cbn. rewrite Epm. intros [[<- <-]|[Hij Hk]]%lookup_insert_Some.
    + exists (t_net t), a. by rewrite lookup_insert_eq.
    + rewrite lookup_insert_ne by done. rewrite <- Epm. by apply Hc.
  - apply Forall_app. split; [|exact Hcur]. exact Ht.
  - intros _ i Hi'. destruct (Hs ltac:(by rewrite ?Epm) i Hi') as [[k Hk]|(t' & Ht' & Hw)].
    + left. unfold q. cbn. destruct (decide (t_index t = i)) as [<-|]; [by rewrite lookup_insert_eq|].
      by rewrite lookup_insert_ne, Hk.
    + rewrite Hperm in Ht'. apply elem_of_cons in Ht' as [->|Ht'].
      * destruct Hw as [<-|(array & pos & E & Hin)]; [left; unfold q; cbn; by rewrite lookup_insert_eq|].
        apply (served_mono _ (option_list o)); [intros; apply elem_of_app; by right|]. by apply (Hwalk i array pos).
      * right. exists t'. split; [apply elem_of_app; by left|exact Hw].
Qed.

Lemma forget_ok p net m : cache_right (Page net m ∅ ∅ (p_arrays p) (p_indices p) (p_active p) (p_stored p)).
Proof. intros i k. cbn. by rewrite lookup_empty. Qed.

Lemma begin_ok p ts e : derivation_ok (p, ts) → settled (p, ts) e → (∀ n, e ≠ Done n) →
  let '(p', o) := begin p e in derivation_ok (p', ts ++ option_list o).
Proof.
  intros [Hn Ha Hc Ht Hs] He Hd. cbn [fst snd] in *. destruct e as [m|m|net| | |i|n]; cbn [begin settled fst snd] in *.
  - destruct He as (Hm & _ & ->). apply derive_all_ok; [done|]. intros i k Hk. destruct (Hc i k Hk) as (net & a & _ & E & _).
    by rewrite Hm in E.
  - destruct He as (Hm & _ & ->). apply derive_all_ok; [done|]. intros i k Hk. destruct (Hc i k Hk) as (net & a & _ & E & _).
    by rewrite Hm in E.
  - destruct He as [Hv ->]. apply derive_all_ok; [done|]. apply forget_ok.
  - subst ts. by split; cbn.
  - destruct He as [He _]. set (l := indices_of p ++ [_]). set (q := Page _ _ _ _ _ _ _ _).
    assert (Eq : indices_of q = l) by (unfold indices_of, array_of, q; cbn; by rewrite list_lookup_insert_eq).
    pose proof (ensure_spec q (max_index (indices_of p) + 1) (Fresh (max_index (indices_of p) + 1)) Hn) as H.
    destruct (ensure q _ _) as [p' o]. destruct H as (H1 & H2 & H3).
    apply (derivation_ok_grow q); try done.
    + unfold q. cbn. by rewrite length_insert.
    + apply Forall_app. by split.
    + intros _ i. rewrite Eq. intros [Hi|Hi]%elem_of_app.
      * apply (served_mono _ ts); [intros; apply elem_of_app; by left|].
        destruct (Hs He i Hi) as [Hk|(t & Ht' & [Hw|(array & pos & E & Hin)])]; [by left|right; exists t; by split; [|left]|].
        right. exists t. split; [done|right]. exists array, pos. split; [done|]. unfold array_of, q in *. cbn.
        destruct (decide (p_indices p = array)) as [<-|]; [|by rewrite list_lookup_insert_ne].
        rewrite list_lookup_insert_eq by done. unfold l, indices_of, array_of. cbn. rewrite drop_app. apply elem_of_app. by left.
      * apply list_elem_of_singleton in Hi as ->. apply (served_mono _ (option_list o)); [intros; apply elem_of_app; by right|done].
  - destruct He as [He _]. pose proof (ensure_spec p i Once Hn) as H. destruct (ensure p i Once) as [p' o]. destruct H as (H1 & H2 & H3).
    apply (derivation_ok_grow p); try done; [apply Forall_app; by split|]. intros _ j Hj.
    apply (served_mono _ ts); [intros; apply elem_of_app; by left|]. by apply Hs.
  - by destruct (Hd n).
Qed.

(** A page whose arrays and storage stay, with derivations at indices of theirs. *)
Definition derivable_next (p p' : page) (o : option thread) : Prop :=
  p_mnemonic p' = p_mnemonic p ∧ p_arrays p' = p_arrays p ∧ p_stored p' = p_stored p ∧
  Forall (λ t, child_index (t_index t)) (option_list o).

Lemma begin_key_derivable p i k : child_index i → derivable_next p p (begin_key p i k).
Proof. intros Hi. repeat split. unfold begin_key. destruct (NETWORKS _); repeat constructor; done || apply Hi. Qed.

Lemma walk_derivable p array l : ∀ pos, Forall child_index l →
  derivable_next p (walk p array pos l).1 (walk p array pos l).2.
Proof.
  induction l as [|i l IH]; intros pos Hl; cbn [walk].
  - unfold adjust_active. case_bool_decide; repeat split; constructor.
  - apply Forall_cons_iff in Hl as [Hi Hl]. destruct (p_keys p !! i); [by apply IH|by apply begin_key_derivable].
Qed.

Lemma array_derivable p array : Forall (Forall child_index) (p_arrays p) → Forall child_index (array_of p array).
Proof.
  intros H. unfold array_of. destruct (p_arrays p !! array) as [l|] eqn:E; [|constructor].
  by apply (Forall_lookup_1 _ _ _ _ H E).
Qed.

Lemma resume_derivable p k : Forall (Forall child_index) (p_arrays p) →
  derivable_next p (resume p k).1 (resume p k).2.
Proof.
  intros H. destruct k as [array pos|j|]; cbn [resume]; [|repeat split; constructor..].
  apply walk_derivable, Forall_drop. by apply array_derivable.
Qed.

Lemma ensure_derivable p i k : Forall (Forall child_index) (p_arrays p) → child_index i →
  derivable_next p (ensure p i k).1 (ensure p i k).2.
Proof.
  intros H Hi. unfold ensure. destruct (p_keys p !! i); [by apply resume_derivable|by apply begin_key_derivable].
Qed.

Lemma complete_derivable p t : Forall (Forall child_index) (p_arrays p) →
  derivable_next p (complete p t).1 (complete p t).2.
Proof.
  intros H. unfold complete. destruct (derive _ _ _); [|repeat split; constructor].
  destruct (p2pkhAddress _ _); [|repeat split; constructor]. apply (resume_derivable (set_cache _ _ p) _ H).
Qed.

Lemma derivable_grow p p' ts o : derivable (p, ts) → derivable_next p p' o → derivable (p', ts ++ option_list o).
Proof.
  intros [H1 H2 H3 H4] (E1 & E2 & E3 & Ho). split; cbn [fst snd] in *; rewrite ?E1, ?E2, ?E3; try done.
  apply Forall_app. by split.
Qed.

Lemma derive_all_derivable p : derivable (p, []) →
  derivable ((derive_all p).1, option_list (derive_all p).2).
Proof.
  intros [H1 H2 H3 H4]. unfold derive_all. set (l := match p_stored p !! p_network p with Some _ => _ | None => _ end).
  set (q := Page _ _ _ _ _ _ _ _). assert (Hl : Forall child_index l).
  { unfold l. destruct (p_stored p !! p_network p) as [[|i l']|] eqn:E; [by repeat constructor| |by repeat constructor].
    apply (H3 _ _ E). }
  apply (derivable_grow q _ []); [|by apply walk_derivable].
  split; cbn; try done. apply Forall_app. by repeat constructor.
Qed.

Lemma settled_step_derivable s s' : derivable s → settled_step s s' → derivable s'.
Proof.
  destruct s as [p ts]. intros Hd [e He Hh]. pose proof Hd as [H1 H2 H3 H4]. cbn [fst snd] in *.
  destruct e as [m|m|net| | |i|n]; cbn [handle begin settled fst snd] in *.
  - destruct He as (_ & Hm & ->). set (q := Page _ _ _ _ _ _ _ _) in Hh.
    pose proof (derive_all_derivable q) as H. destruct (derive_all q) as [p' o]. injection Hh as <-.
    apply H. split; cbn; try done. by intros ? [= <-].
  - destruct He as (_ & Hm & ->). set (q := Page _ _ _ _ _ _ _ _) in Hh.
    pose proof (derive_all_derivable q) as H. destruct (derive_all q) as [p' o]. injection Hh as <-.
    apply H. split; cbn; [by intros ? [= <-]| |apply map_Forall_insert_2; [|done]|done].
    + apply Forall_app. by repeat constructor.
    + by repeat constructor.
  - destruct He as [_ ->]. set (q := Page _ _ _ _ _ _ _ _) in Hh.
    pose proof (derive_all_derivable q) as H. destruct (derive_all q) as [p' o]. injection Hh as <-. by apply H.
  - injection Hh as <-. subst ts. by split.
  - destruct He as [_ Hi]. set (q := Page _ _ _ _ _ _ _ _) in Hh.
    assert (Hl : Forall child_index (indices_of p ++ [max_index (indices_of p) + 1])).
    { apply Forall_app. split; [by apply array_derivable|by apply Forall_singleton]. }
    assert (Hq : derivable (q, ts)).
    { split; cbn; [done|by apply Forall_insert|by apply map_Forall_insert_2|done]. }
    pose proof (ensure_derivable q _ (Fresh (max_index (indices_of p) + 1)) (d_arrays _ Hq) Hi) as H.
    destruct (ensure q _ _) as [p' o]. injection Hh as <-. by apply (derivable_grow q).
  - destruct He as [_ Hi]. pose proof (ensure_derivable p i Once H2 Hi) as H. destruct (ensure p i Once) as [p' o].
    injection Hh as <-. by apply (derivable_grow p).
  - destruct (ts !! n) as [t|] eqn:Et; [|done]. pose proof (complete_derivable p t H2) as H.
    destruct (complete p t) as [p' o]. injection Hh as <-. apply (derivable_grow p); [|done].
    split; cbn; try done. by apply Forall_delete.
Qed.

Lemma settled_step_ok s s' : derivation_ok s → derivable s → settled_step s s' → derivation_ok s'.
Proof.
  destruct s as [p ts]. intros Hok Hd [e He Hh]. destruct e as [m|m|net| | |i|n]; cbn [handle fst snd] in Hh;
    try (match type of Hh with context [begin p ?e] => pose proof (begin_ok p ts e Hok He ltac:(done)) as H; destruct (begin p e) end;
         injection Hh as <-; exact H).
  destruct (ts !! n) as [t|] eqn:Et; [|done]. pose proof (done_ok p ts n t Hok Hd Et) as H.
  destruct (complete p t). injection Hh as <-. exact H.
Qed.

(** ** The derivations end *)

Definition work (p : page) (t : thread) : nat :=
  match t_then t with Walk array pos => (length (array_of p array) - pos)%nat | _ => 1%nat end.
Definition total_work (s : system) : nat := foldr (λ t n, (S (work s.1 t) + n)%nat) O s.2.

Lemma walk_later array l : ∀ pos p p' t, drop pos (array_of p array) = l → walk p array pos l = (p', Some t) →
  ∃ pos', t_then t = Walk array pos' ∧ (pos <= pos' < length (array_of p array))%nat.
Proof.
  induction l as [|i l IH]; intros pos p p' t Hl; cbn [walk]; [done|].
  assert (Hlen : (pos < length (array_of p array))%nat).
  { apply (f_equal length) in Hl. rewrite length_drop in Hl. cbn in Hl. lia. }
  destruct (p_keys p !! i).
  - intros H. apply IH in H as (pos' & E & Hp); [exists pos'; split; [done|lia]|].
    replace (S pos) with (pos + 1)%nat by lia. by rewrite <- drop_drop, Hl.
  - unfold begin_key. destruct (NETWORKS _); [|done]. intros [= _ <-]. exists pos. cbn. split; [done|lia].
Qed.

Lemma complete_arrays p t : p_arrays (complete p t).1 = p_arrays p.
Proof.
  assert (Hw : ∀ l array pos q, p_arrays (walk q array pos l).1 = p_arrays q).
  { induction l as [|i l IH]; intros array pos q; cbn [walk].
    - unfold adjust_active. by case_bool_decide.
    - by destruct (p_keys q !! i). }
  unfold complete. destruct (derive _ _ _); [|done]. destruct (p2pkhAddress _ _); [|done].
  destruct (t_then t); cbn [resume]; [by rewrite Hw|done|done].
Qed.

Lemma complete_later p t p' t' : complete p t = (p', Some t') → (work p t' < work p t)%nat.
Proof.
  unfold complete. destruct (derive _ _ _); [|done]. destruct (p2pkhAddress _ _); [|done].
  set (q := set_cache _ _ p). unfold resume, work at 2. destruct (t_then t) as [array pos|j|] eqn:E; [|done..].
  intros H. apply walk_later in H as (pos' & E' & Hp); [|done]. unfold work. rewrite E'.
  change (array_of q array) with (array_of p array) in Hp. lia.
Qed.

Lemma total_work_perm p ts ts' : ts ≡ₚ ts' → total_work (p, ts) = total_work (p, ts').
Proof. unfold total_work. cbn. induction 1; cbn; lia. Qed.

Lemma done_decreases s n s' : handle s (Done n) = Some s' → (total_work s' < total_work s)%nat.
Proof.
  destruct s as [p ts]. cbn [handle fst snd]. destruct (ts !! n) as [t|] eqn:Et; [|done].
  rewrite (total_work_perm p ts (t :: delete n ts)) by (by apply delete_Permutation).
  pose proof (complete_arrays p t) as Ha. destruct (complete p t) as [p' o] eqn:E. intros [= <-]. cbn [fst] in Ha.
  assert (Hsame : ∀ l, total_work (p', l) = total_work (p, l)).
  { intros l. unfold total_work, work, array_of. cbn [fst snd]. by rewrite Ha. }
  rewrite Hsame. rewrite (total_work_perm p _ (option_list o ++ delete n ts)) by apply Permutation_app_comm.
  unfold total_work. cbn [fst snd foldr]. destruct o as [t'|]; [|cbn; lia].
  apply complete_later in E. cbn. lia.
Qed.

Fixpoint done_all (ns : list nat) (s : system) : option system :=
  match ns with [] => Some s | n :: ns => s ← handle s (Done n); done_all ns s end.

Lemma done_all_bound ns s s' : done_all ns s = Some s' → (length ns + total_work s' <= total_work s)%nat.
Proof.
  revert s. induction ns as [|n ns IH]; intros s; cbn [done_all]; [intros [= <-]; cbn; lia|].
  destruct (handle s (Done n)) as [s1|] eqn:E; [|done]. cbn [mbind option_bind]. intros H. apply IH in H.
  apply done_decreases in E. cbn. lia.
Qed.

(** C30. When a valid phrase derives a key at every index that is not hardened, on
    mainnet and on testnet: as long as the network changes, and the wallet is locked or opened, only
    while nothing is being derived, any number of derivations may be under way
    and end in any order.  At every moment each cached key is the one the phrase
    in use gives its index on the network in use.  The derivations under way end
    after a bounded number of completions, and once none is left every known
    address of an open wallet has its key. *)
Theorem derivations_settle (net : string) (stored : gmap string (list Z)) (s : system)
    (Hnet : is_Some (NETWORKS net)) (Hstored : map_Forall (λ _ l, Forall child_index l) stored)
    (Hr : rtc settled_step (loaded net stored) s) :
  cache_right s.1 ∧
  (∀ ns s', done_all ns s = Some s' → (length ns <= total_work s)%nat) ∧
  (s.2 ≠ [] → is_Some (handle s (Done 0))) ∧
  (s.2 = [] → p_mnemonic s.1 ≠ None → ∀ i, i ∈ indices_of s.1 → is_Some (p_keys s.1 !! i)).
Proof.
  assert (H0 : derivation_ok (loaded net stored)).
  { split; cbn; done || lia. }
  assert (Hd : derivable (loaded net stored)) by (split; cbn; try done; by repeat constructor).
  assert (Hok : derivation_ok s) by (clear Hnet Hstored; induction Hr; eauto using settled_step_ok, settled_step_derivable).
  destruct Hok as [_ _ Hc _ Hs]. split; [done|]. split; [|split].
  - intros ns s' H. apply done_all_bound in H. lia.
  - destruct s as [p [|t ts]]; [done|]. intros _. cbn. destruct (complete p t). by eexists.
  - intros E Hm i Hi. destruct (Hs Hm i Hi) as [H|(t & Ht & _)]; [done|]. rewrite E in Ht. by apply not_elem_of_nil in Ht.
Qed.
End quiet.

(** ** Races *)

Module DerivationExample.
Definition stored : gmap string (list Z) := {["mainnet" := [0; 1]; "testnet" := [0; 1]]}.
Fixpoint run (es : list event) (s : system) : option system :=
  match es with [] => Some s | e :: es => s ← handle (PR := Toy.prims) s e; run es s end.
(** Switched to testnet and back while the second address is being derived; every
    derivation ends in the order it began. *)
Definition switched : option system :=
  run [Enter "seed words"; Done 0; Done 0; Switch "testnet"; Done 0; Switch "mainnet"; Done 0; Done 0] (loaded "mainnet" stored).
(** Locked while the first address is being derived. *)
Definition locked : option system := run [Enter "seed words"; Lock; Done 0; Done 0] (loaded "mainnet" stored).
(** Opened, with a new address asked for while the first is being derived. *)
Definition opened : option system :=
  run [Enter "seed words"; Done 0; New_address; Done 1; Done 0] (loaded "mainnet" stored).
End DerivationExample.

(** A run whose every event is a settled one. *)
Fixpoint settled_run {PR : Primitives} (es : list event) (s : system) : Prop :=
  match es with
  | [] => True
  | e :: es => settled s e ∧ match handle s e with Some s => settled_run es s | None => False end
  end.

Lemma settled_run_reaches es : ∀ s s', settled_run (PR := Toy.prims) es s → DerivationExample.run es s = Some s' →
  rtc (settled_step (PR := Toy.prims)) s s'.
Proof.
  induction es as [|e es IH]; intros s s'; cbn [settled_run DerivationExample.run]; [by intros _ [= <-]|].
  intros [He Hr]. destruct (handle s e) as [s1|] eqn:E; [|done]. cbn [mbind option_bind]. intros H.
  eapply rtc_l; [by eapply settled_event|by apply IH].
Qed.

Lemma derivations_settle_witness :
  ∃ p, DerivationExample.opened = Some (p, []) ∧ indices_of p = [0; 1; 2] ∧ cache_right (PR := Toy.prims) p ∧
    is_Some (p_keys p !! 2).
Proof.
  destruct DerivationExample.opened as [[p [|t ts]]|] eqn:E; [|by vm_compute in E..]. exists p. split; [done|].
  assert (Hi : indices_of p = [0; 1; 2]) by (vm_compute in E; by injection E as <-). split; [done|].
  assert (Hm : p_mnemonic p ≠ None) by (vm_compute in E; by injection E as <-).
  destruct (derivations_settle (PR := Toy.prims) (PL := Toy.laws) ltac:(intros; reflexivity) "mainnet" DerivationExample.stored (p, []))
    as (Hc & _ & _ & Hk).
  - by eexists.
  - by apply map_Forall_insert_2; [repeat constructor|apply map_Forall_singleton; repeat constructor].
  - refine (settled_run_reaches _ _ _ _ E). vm_compute. repeat split; congruence.
  - split; [done|]. apply Hk; [done|done|]. cbn [fst]. rewrite Hi. right; right; left.
Defined.

(** A derivation that outlives a switch of the network stores its key for the
    network left, and the loop for the new network then skips the index: with
    nothing under way any more, the page on mainnet keeps the testnet key and
    shows its testnet address. *)
Theorem switch_keeps_stale_key :
  ∃ p k a, DerivationExample.switched = Some (p, []) ∧ p_network p = "mainnet" ∧
    p_keys p !! 1 = Some k ∧ derive (PR := Toy.prims) (p_mnemonic p) testnet 1 = Ok k ∧
    derive (PR := Toy.prims) (p_mnemonic p) mainnet 1 ≠ Ok k ∧
    p_addresses p !! 1 = Some a ∧ is_ok (decodeAddress (P := Toy.prims) a mainnet) = false.
Proof.
  destruct DerivationExample.switched as [[p [|t ts]]|] eqn:E; [|by vm_compute in E..].
  destruct (p_keys p !! 1) as [k|] eqn:Ek; [|vm_compute in E; injection E as <-; by vm_compute in Ek].
  destruct (p_addresses p !! 1) as [a|] eqn:Ea; [|vm_compute in E; injection E as <-; by vm_compute in Ea].
  exists p, k, a. vm_compute in E. injection E as <-. vm_compute in Ek, Ea. injection Ek as <-. injection Ea as <-.
  repeat split; try (vm_compute; reflexivity). by vm_compute.
Qed.

(** A derivation that outlives "Lock now" puts a private key back on the locked
    page. *)
Theorem lock_keeps_key :
  ∃ p k, DerivationExample.locked = Some (p, []) ∧ p_mnemonic p = None ∧ p_keys p !! 0 = Some k ∧
    derive (PR := Toy.prims) (Some "seed words") mainnet 0 = Ok k.
Proof.
  destruct DerivationExample.locked as [[p [|t ts]]|] eqn:E; [|by vm_compute in E..].
  destruct (p_keys p !! 0) as [k|] eqn:Ek; [|vm_compute in E; injection E as <-; by vm_compute in Ek].
  exists p, k. vm_compute in E. injection E as <-. vm_compute in Ek. injection Ek as <-.
  repeat split; vm_compute; reflexivity.
Qed.
