(* ===== verification/AppHistory.v ===== *)
(** * History, polling, export and transaction details (web-wallet/app.js, 823-1000)

    Transaction ids are texts in the gateway's replies; the set of seen ids is
    the list of their texts in insertion order. *)

From Stdlib Require Import Sorted.
From S2P Require Import Prelude JsString JsNum Amount Json Hex JsValue Browser Primitives Gateway App AppHome AppBook AppSpend.

Section history.
  Context {PR : Primitives} {EN : Environment}.

(** ** The combined history *)

Definition txid_of (t : json) : result string := x ← get (Some t) "txid"; mret (to_str x).

(** [t.height ?? Infinity] as the comparator reads it. *)
Definition sort_height (t : json) : num :=
  match get (Some t) "height" with
  | Ok h => if nullish h then Inf false else to_num h
  | Throw _ => NaN
  end.

(** [sort((a, b) => height(b) - height(a))]: stable, highest first; a difference
    that is not a number counts as equal. *)
Fixpoint insert_tx (t : json) (l : list json) : list json :=
  match l with
  | [] => [t]
  | u :: l' => if num_lt (sort_height u) (sort_height t) then t :: l else u :: insert_tx t l'
  end.
Definition sort_txs (l : list json) : list json := foldl (λ acc t, insert_tx t acc) [] l.

(** The inner loop: transactions not seen before are added. *)
Fixpoint add_new (seen : list string) (acc ts : list json) : result (list string * list json) :=
  match ts with
  | [] => Ok (seen, acc)
  | t :: ts =>
      id ← txid_of t;
      if bool_decide (id ∈ seen) then add_new seen acc ts else add_new (seen ++ [id]) (acc ++ [t]) ts
  end.

Fixpoint combine_history (gw : Gateway) (seen : list string) (acc : list json) (l : list Z) : js app (list json) :=
  match l with
  | [] => mret acc
  | idx :: l =>
      a ← address_text idx;
      resp ← history gw a 50;
      ts ← lift (get (Some resp) "transactions" ≫= iterate);
      '(seen, acc) ← lift (add_new seen acc ts);
      combine_history gw seen acc l
  end.

Definition fetchCombinedHistory : js app (list json) :=
  l ← the addressIndices;
  gw ← the gateway;
  all ← combine_history gw [] [] l;
  mret (sort_txs all).

(** ** Seen transactions *)

(** [set.add] for every transaction. *)
Definition add_seen (seen ids : list string) : list string :=
  foldl (λ s id, if bool_decide (id ∈ s) then s else s ++ [id]) seen ids.

Definition seenTxids (txs : list json) : js app unit :=
  s ← the seenTxidsSet;
  _ ← update (set_seenTxidsSet (Some (default [] s)));
  ids ← lift (mapR txid_of txs);
  update (set_seenTxidsSet (Some (add_seen (default [] s) ids))).

Definition history_row (t : json) : result string :=
  id ← get (Some t) "txid";
  h ← get (Some t) "height";
  mret (dq "<div class='tx-row mono' data-txid='" +:+ to_str id +:+ dq "'>" +:+ to_str id +:+
    dq "<br><span class='notice'>" +:+ (if truthy h then "Height " +:+ to_str h else "Pending") +:+ dq "</span></div>").

Definition loadHistory : js app unit :=
  _ ← html "history-list" (dq "<p class='notice'>Loading...</p>");
  try_catch (
    allTxs ← fetchCombinedHistory;
    _ ← update (set_lastHistory (Some allTxs));
    _ ← seenTxids allTxs;
    match allTxs with
    | [] => html "history-list" (dq "<p class='notice'>No transactions yet.</p>")
    | _ =>
        rows ← lift (mapR history_row allTxs);
        html "history-list" (js_join "" rows)
    end)
  (λ e, html "history-list" (dq "<p class='error'>" +:+ error_or "Could not reach the network." e +:+ "</p>")).

(** ** Polling *)

Definition stopTxPolling : js app unit :=
  h ← the txPollHandle;
  match h with
  | Some h => _ ← clear_interval h; update (set_txPollHandle None)
  | None => pass
  end.
Definition startTxPolling : js app unit :=
  _ ← stopTxPolling;
  h ← set_interval;
  update (set_txPollHandle (Some h)).

Definition showNewTxBanner (count : Z) : js app unit :=
  _ ← text "new-tx-banner-text" (if count =? 1 then "1 new transaction" else show count +:+ " new transactions");
  show_el "new-tx-banner" "flex".

(** The transactions of a list whose ids are not in a set. *)
Definition unseen (seen ids : list string) : list string := filter (λ id, id ∉ seen) ids.

Definition checkForNewTx : js app unit :=
  m ← the mnemonic;
  match m with
  | None => pass
  | Some m =>
      if String.eqb m "" then pass else
      try_catch (
        allTxs ← fetchCombinedHistory;
        seen ← the seenTxidsSet;
        match seen with
        | None => seenTxids allTxs
        | Some seen =>
            ids ← lift (mapR txid_of allTxs);
            let newOnes := unseen seen ids in
            _ ← seenTxids allTxs;
            when (0 <? length newOnes)%nat (showNewTxBanner (Z.of_nat (length newOnes)))
        end)
      (λ _, pass)
  end.

Definition new_tx_dismiss : js app unit := show_el "new-tx-banner" "none".

(** ** CSV export *)

Definition csv_cell (s : string) : string :=
  let q := of_chars [chr 34] in q +:+ replace_char (chr 34) (q +:+ q) s +:+ q.
Definition csv_line (cells : list string) : string := js_join "," (csv_cell <$> cells).

Definition csv_row (t : json) : result (list string) :=
  id ← get (Some t) "txid";
  h ← get (Some t) "height";
  fee ← get (Some t) "fee";
  mret [to_str id;
        if truthy h && num_gt0 (to_num h) then "confirmed" else "pending";
        to_str (coalesce h (Some (JStr "")));
        to_str (coalesce fee (Some (JStr "")))].

Definition export_csv : js app unit :=
  h ← the lastHistory;
  match default [] h with
  | [] => pass
  | txs =>
      rows ← lift (mapR csv_row txs);
      let csv := js_join (of_chars [chr 10]) (csv_line <$> ["txid"; "status"; "height"; "fee_satoshis"] :: rows) in
      emit (Downloaded ("codexacoin-history-" +:+ today +:+ ".csv") csv)
  end.

(** ** Details of a transaction *)

Definition kv_row (kv : string * string) : string :=
  dq "<div class='kv-row'><span>" +:+ escapeHtml kv.1 +:+ dq "</span><span class='mono'>" +:+ escapeHtml kv.2 +:+ "</span></div>".

Definition vin_text (vin : json) : result string :=
  c ← get (Some vin) "coinbase";
  if truthy c then Ok "coinbase"
  else
    t ← get (Some vin) "txid";
    match t with
    | Some (JStr s) =>
        n ← get (Some vin) "vout";
        Ok (str_slice s 0 16 +:+ "...:" +:+ to_str n)
    | _ => Throw (ExType "Cannot read properties of undefined (reading 'slice')")
    end.

Definition vout_text (vout : json) : result string :=
  spk ← get (Some vout) "scriptPubKey";
  a ← get_opt spk "address";
  l ← get_opt spk "addresses";
  a0 ← get_at_opt l 0;
  v ← get (Some vout) "value";
  mret (to_str (or_val a (or_val a0 (Some (JStr "(non-standard output)")))) +:+ ": " +:+ to_str v +:+ " CAC").

(** The rows of the detail view. *)
Definition detail_rows (tx : json) : result (list (string * string)) :=
  id ← get (Some tx) "txid";
  h ← get (Some tx) "height";
  conf ← get (Some tx) "confirmations";
  cs ← get (Some tx) "is_coinstake";
  rw ← get (Some tx) "reward_satoshis";
  reward ← (if truthy cs && negb (nullish rw) then
              z ← to_bigint rw;
              mret [("Type", "Staking reward (coinstake)"); ("Reward", formatCac z +:+ " CAC")]
            else Ok []);
  vins ← get (Some tx) "vin" ≫= iterate;
  ins ← mapR vin_text vins;
  vouts ← get (Some tx) "vout" ≫= iterate;
  outs ← mapR vout_text vouts;
  mret ([("Txid", to_str id);
         ("Status", if truthy h then "Confirmed, height " +:+ to_str h +:+ " (" +:+ to_str conf +:+ " confirmations)" else "Pending")]
        ++ reward ++ (pair "Input" <$> ins) ++ (pair "Output" <$> outs)).

(** Whether the fee of the transaction can be bumped here: it is not confirmed
    and this browser has a record of sending it. *)
Definition can_bump (tx : json) (txid : string) : js app bool :=
  h ← lift (get (Some tx) "height");
  if truthy h then mret false
  else
    log ← loadSentTxLog;
    r ← lift (get (Some log) txid);
    mret (truthy r).

Definition openTxDetail (txid : string) : js app unit :=
  _ ← show_el "tx-detail-overlay" "flex";
  _ ← show_el "btn-tx-detail-bump-fee" "none";
  _ ← text "tx-detail-bump-error" "";
  _ ← text "tx-detail-bump-success" "";
  _ ← html "tx-detail-body" (dq "<p class='notice'>Loading...</p>");
  try_catch (
    gw ← the gateway;
    tx ← Gateway.tx gw txid;
    b ← can_bump tx txid;
    _ ← when b (show_el "btn-tx-detail-bump-fee" "block");
    rows ← lift (detail_rows tx);
    html "tx-detail-body" (js_join "" (kv_row <$> rows)))
  (λ e, html "tx-detail-body" (dq "<p class='error'>" +:+ error_or "Could not load transaction." e +:+ "</p>")).

(** The bump button of the detail view. *)
Definition bump_clicked (txid : string) : js app unit :=
  _ ← text "tx-detail-bump-error" "";
  _ ← text "tx-detail-bump-success" "";
  _ ← dom_set "btn-tx-detail-bump-fee" "disabled" "true";
  try_finally
    (try_catch (
       newTxid ← bumpFee txid;
       _ ← text "tx-detail-bump-success" ("Rebroadcast with a higher fee: " +:+ to_str newTxid);
       show_el "btn-tx-detail-bump-fee" "none")
     (λ e, text "tx-detail-bump-error"
             (if String.eqb (exn_message e) "" then "Could not bump fee." else exn_message e)))
    (dom_set "btn-tx-detail-bump-fee" "disabled" "false").

Definition detail_explorer (txid : string) : js app unit :=
  emit (Opened ("https://codexacoin.com/blockexplorer/#/tx/" +:+ txid)).
Definition tx_detail_close : js app unit := show_el "tx-detail-overlay" "none".
End history.

(** ** What the combined history holds *)

Definition tx_id (t : json) : string := match txid_of t with Ok s => s | Throw _ => "" end.
Definition has_txid (t : json) : Prop := is_ok (txid_of t) = true.

Lemma txid_of_id t : has_txid t → txid_of t = Ok (tx_id t).
Proof. unfold has_txid, tx_id. by destruct (txid_of t). Qed.

Lemma add_new_spec acc ts :
  NoDup (tx_id <$> acc) → Forall has_txid ts →
  ∃ acc', add_new (tx_id <$> acc) acc ts = Ok (tx_id <$> acc', acc') ∧ NoDup (tx_id <$> acc') ∧
    (∀ t, t ∈ acc' → t ∈ acc ∨ t ∈ ts) ∧
    ∀ id, id ∈ tx_id <$> acc' ↔ id ∈ tx_id <$> acc ∨ id ∈ tx_id <$> ts.
Proof.
  intros Hnd Hts. revert acc Hnd. induction Hts as [|t ts Ht _ IH]; intros acc Hnd; cbn [add_new].
  { exists acc. split_and!; try done; [by left|]. intros id. split; [by left|]. by intros [|[]%not_elem_of_nil]. }
  rewrite txid_of_id by done. run_bind. destruct (bool_decide_reflect (tx_id t ∈ tx_id <$> acc)) as [Hin|Hout].
  - destruct (IH acc Hnd) as (acc' & -> & Hnd' & Hsub & Hids). exists acc'. split_and!; try done.
    + intros u Hu. destruct (Hsub u Hu); [by left|right; by right].
    + intros id. rewrite Hids, fmap_cons, elem_of_cons. split; [tauto|]. intros [?|[-> |?]]; by auto.
  - change [tx_id t] with (tx_id <$> [t]). rewrite <- fmap_app. destruct (IH (acc ++ [t])) as (acc' & -> & Hnd' & Hsub & Hids).
    { rewrite fmap_app. apply list.NoDup_app. split; [done|]. split; [|apply NoDup_singleton].
      by intros id Hid ->%list_elem_of_singleton. }
    exists acc'. split_and!; try done.
    + intros u Hu. destruct (Hsub u Hu) as [[?| ->%list_elem_of_singleton]%elem_of_app|?]; [by left|right; by left|right; by right].
    + intros id. rewrite Hids, fmap_app, elem_of_app. cbn [fmap list_fmap]. rewrite !elem_of_cons, elem_of_nil. tauto.
Qed.

(** Sorting keeps the transactions and puts no lower height before a higher. *)
Lemma insert_tx_perm t l : insert_tx t l ≡ₚ t :: l.
Proof.
  induction l as [|u l IH]; [done|]. cbn [insert_tx]. destruct (num_lt _ _); [done|].
  rewrite IH. apply Permutation_swap.
Qed.
Lemma sort_txs_perm l : sort_txs l ≡ₚ l.
Proof.
  unfold sort_txs. assert (H : ∀ acc, foldl (λ acc t, insert_tx t acc) acc l ≡ₚ l ++ acc); [|by rewrite H, app_nil_r].
  induction l as [|t l IH]; intros acc; [done|]. cbn [foldl]. rewrite IH, insert_tx_perm.
  by rewrite <- Permutation_middle.
Qed.

Lemma num_lt_asym x y : num_lt x y = true → num_lt y x = false.
Proof.
  destruct x as [|n1|m1 e1], y as [|n2|m2 e2]; try done; cbn; try (by destruct n1); try (by destruct n2).
  { by destruct n1, n2. }
  rewrite (Z.min_comm e2 e1), !Z.ltb_lt, Z.ltb_ge. lia.
Qed.

Definition not_above (t u : json) : Prop := num_lt (sort_height t) (sort_height u) = false.

Lemma insert_tx_sorted t l : Sorted not_above l → Sorted not_above (insert_tx t l).
Proof.
  induction 1 as [|u l Hl IH Hhd]; [by repeat constructor|]. cbn [insert_tx].
  destruct (num_lt (sort_height u) (sort_height t)) eqn:E.
  - constructor; [by constructor|]. constructor. by apply num_lt_asym.
  - constructor; [done|]. destruct l as [|v l]; cbn [insert_tx]; [by constructor|].
    destruct (num_lt (sort_height v) (sort_height t)); [by constructor|]. by inversion Hhd; constructor.
Qed.
Lemma sort_txs_sorted l : Sorted not_above (sort_txs l).
Proof.
  unfold sort_txs. assert (H : ∀ acc, Sorted not_above acc → Sorted not_above (foldl (λ acc t, insert_tx t acc) acc l)).
  { induction l as [|t l IH]; intros acc Ha; [done|]. apply IH. by apply insert_tx_sorted. }
  apply H. constructor.
Qed.

(** The server answers a request for the history of an address with that
    address's list, whatever was asked before. *)
Definition serves {PR : Primitives} {EN : Environment} (a : app) (txs : Z → list json) : Prop :=
  ∀ i w, i ∈ addressIndices a →
    ∃ r, (history (P := app) (gateway a) (default "undefined" (addresses a !! i)) 50 w).1 = Ok r ∧
      (get (Some r) "transactions" ≫= iterate) = Ok (txs i) ∧ Forall has_txid (txs i).

Section combined.
  Context {PR : Primitives} {EN : Environment}.

Lemma history_page gw addr (w : browser app) : page (history gw addr 50 w).2 = page w.
Proof. unfold history. by rewrite get_run. Qed.

Lemma combine_history_run a txs l w acc :
  serves a txs → page w = a → (∀ i, i ∈ l → i ∈ addressIndices a) → NoDup (tx_id <$> acc) →
  ∃ all w', combine_history (gateway a) (tx_id <$> acc) acc l w = (Ok all, w') ∧ page w' = a ∧
    NoDup (tx_id <$> all) ∧ (∀ t, t ∈ all → t ∈ acc ∨ t ∈ mjoin (txs <$> l)) ∧
    ∀ id, id ∈ tx_id <$> all ↔ id ∈ tx_id <$> acc ∨ id ∈ tx_id <$> mjoin (txs <$> l).
Proof.
  intros Hs. revert w acc. induction l as [|i l IH]; intros w acc Hw Hl Hnd; cbn [combine_history].
  { exists acc, w. split_and!; try done; [by left|]. intros id. split; [by left|]. by intros [|[]%not_elem_of_nil]. }
  unfold address_text. rewrite run_bind, bind_the. cbv match. cbn [mret js_ret]. rewrite run_bind, Hw.
  destruct (Hs i w (Hl i ltac:(by left))) as (r & Er & Ets & Hts).
  pose proof (history_page (gateway a) (default "undefined" (addresses a !! i)) w) as Hpage.
  destruct (history (gateway a) _ 50 w) as [res w1]. cbn in Er, Hpage. subst res. cbv match.
  rewrite bind_lift, Ets, bind_lift. destruct (add_new_spec acc (txs i) Hnd Hts) as (acc' & -> & Hnd' & Hsub & Hids).
  destruct (IH w1 acc') as (all & w' & -> & Hp & Hnd'' & Hsub' & Hids'); [congruence|by intros; apply Hl; right|done|].
  exists all, w'. split_and!; try done.
  - intros t Ht. rewrite fmap_cons. cbn [mjoin list_join]. rewrite elem_of_app.
    destruct (Hsub' t Ht) as [Ha|?]; [|by auto]. destruct (Hsub t Ha); by auto.
  - intros id. rewrite Hids', Hids, fmap_cons. cbn [mjoin list_join]. rewrite fmap_app, elem_of_app. tauto.
Qed.

(** The combined history lists every transaction of every known address once:
    its ids are those of the addresses' lists, none twice; it holds only
    transactions the server sent; and it is ordered, no transaction standing
    before one of greater height, those without a height first. *)
Theorem combined_history w txs :
  serves (page w) txs →
  ∃ all w', fetchCombinedHistory w = (Ok all, w') ∧ NoDup (tx_id <$> all) ∧ Sorted not_above all ∧
    (∀ t, t ∈ all → t ∈ mjoin (txs <$> addressIndices (page w))) ∧
    ∀ id, id ∈ tx_id <$> all ↔ id ∈ tx_id <$> mjoin (txs <$> addressIndices (page w)).
Proof.
  intros Hs. unfold fetchCombinedHistory. rewrite !bind_the, run_bind.
  destruct (combine_history_run (page w) txs (addressIndices (page w)) w [] Hs eq_refl)
    as (all & w' & E & _ & Hnd & Hsub & Hids); [done|constructor|].
  change (tx_id <$> []) with (@nil string) in E. rewrite E. exists (sort_txs all), w'.
  split; [done|]. pose proof (sort_txs_perm all) as Hp. split_and!.
  - by rewrite Hp.
  - apply sort_txs_sorted.
  - intros t Ht. rewrite Hp in Ht. by destruct (Hsub t Ht) as [[]%not_elem_of_nil|].
  - intros id. rewrite Hp, Hids. split; [|by right]. by intros [[]%not_elem_of_nil|].
Qed.
End combined.

Module HistoryExample.
Definition txs : list json :=
  [JObj [("txid", JStr "aa"); ("height", jint 5)]; JObj [("txid", JStr "bb"); ("height", JNull)];
   JObj [("txid", JStr "cc"); ("height", jint 9)]].
(** Any request is answered with the same three transactions. *)
Definition env : Environment :=
  demo (λ _, Some {| status := 200; body := stringify (JObj [("transactions", JArr txs)]) |}).
Definition w : browser app := new_browser (set_addressIndices [0; 1] (initial_app ∅ ∅)).
End HistoryExample.

Lemma combined_history_witness :
  ∃ all w', fetchCombinedHistory (EN := HistoryExample.env) HistoryExample.w = (Ok all, w') ∧
    NoDup (tx_id <$> all) ∧ "bb" ∈ tx_id <$> all.
Proof.
  destruct (combined_history (PR := Toy.prims) (EN := HistoryExample.env) HistoryExample.w (λ _, HistoryExample.txs))
    as (all & w' & H1 & H2 & _ & _ & H3).
  - intros i w Hi. exists (JObj [("transactions", JArr HistoryExample.txs)]). split.
    + unfold history. rewrite get_run. vm_compute. reflexivity.
    + split; [reflexivity|]. repeat constructor.
  - exists all, w'. split; [exact H1|]. split; [exact H2|]. apply H3. vm_compute. right. left.
Defined.
