(* ===== verification/AppStaking.v ===== *)
(** * Staking, referrals and push (web-wallet/app.js, 1004-1198) *)

From S2P Require Import Prelude JsString JsNum Amount Json Hex JsValue Browser Primitives TxCodec Gateway App AppHome AppBook Message.

Section staking.
  Context {EN : Environment}.

(** [!!state.stakeToken] *)
Definition stakingLoggedIn : js app bool := t ← the stakeToken; mret (has_token t).

(** [el.textContent = v] *)
Definition text_val (id : string) (v : val) : js app unit := text id (if nullish v then "" else to_str v).

(** [`${formatCac(v)} CAC`] *)
Definition cac_text (v : val) : result string := z ← to_bigint v; mret (formatCac z +:+ " CAC").

(** [`${v / 100}`] *)
Definition bp_text (v : val) : string := num_to_string (num_div (to_num v) (num_of_Z 100)).

Definition show_staking_status (status : json) : js app unit :=
  d ← lift (get (Some status) "delegated_amount" ≫= cac_text);
  _ ← text "stat-delegated" d;
  r ← lift (get (Some status) "accrued_rewards" ≫= cac_text);
  _ ← text "stat-rewards" r;
  rate ← lift (get (Some status) "effective_monthly_rate_bp");
  _ ← text "stat-rate" (bp_text rate +:+ "% / month");
  fee ← lift (get (Some status) "pool_fee_bp");
  text "stat-fee" (bp_text fee +:+ "%").

Definition show_referral_status (ref : json) : js app unit :=
  c ← lift (get (Some ref) "referral_code");
  _ ← text_val "stat-referral-code" c;
  n ← lift (get (Some ref) "referred_count");
  _ ← text_val "stat-referral-count" n;
  a ← lift (get (Some ref) "available_satoshis" ≫= cac_text);
  text "stat-referral-available" a.

Definition referral_row (r : json) : result string :=
  j ← get (Some r) "joined_at";
  let joined := locale_date (num_mul (to_num j) (num_of_Z 1000)) in
  a ← get (Some r) "amount_satoshis";
  w ← get (Some r) "withdrawn";
  status ← (if nullish a then Ok "no funded deposit yet"
            else t ← cac_text a;
                 mret (t +:+ if truthy w then " earned (withdrawn)" else " earned (available)"));
  m ← get (Some r) "referred_email_masked";
  mret (dq "<div class='stat-row'><span>" +:+ escapeHtml (to_str m) +:+ " (joined " +:+ joined +:+ ")</span><span>" +:+
    escapeHtml status +:+ "</span></div>").

Definition show_referral_history (reply : json) : js app unit :=
  rs ← lift (get (Some reply) "referrals");
  n ← lift (get rs "length");
  if negb (truthy n) then html "referral-history-list" (dq "<p class='notice'>No referrals yet.</p>")
  else
    l ← lift (match rs with Some v => as_array v | None => Throw (ExType "referrals is undefined") end);
    rows ← lift (mapR referral_row l);
    html "referral-history-list" (js_join "" rows).

(** The cards of the screen, and whether to go on. *)
Definition show_staking_cards : js app bool :=
  b ← stakingLoggedIn;
  let vis := if b : bool then "block" else "none" in
  _ ← show_el "staking-auth-card" (if b then "none" else "block");
  _ ← show_el "staking-status-card" vis;
  _ ← show_el "push-card" (if b && push_supported then "block" else "none");
  _ ← show_el "staking-actions-card" vis;
  _ ← show_el "referral-card" vis;
  mret b.

(** [loadStaking] calls itself once more after an expired session, which logs
    the user out first; [fuel] bounds the calls, and two are enough. *)
Fixpoint load_staking (fuel : nat) : js app unit :=
  match fuel with
  | O => pass
  | S fuel =>
      b ← show_staking_cards;
      if negb b then pass
      else
        gw ← the gateway;
        token ← the stakeToken;
        expired ← try_catch (
          status ← stakingStatus gw token;
          _ ← show_staking_status status;
          mret false)
        (λ e, match e with
              | ExGateway c _ => mret (String.eqb c "unauthorized")
              | _ => mret false
              end);
        if expired : bool then
          _ ← update (set_stakeToken None);
          _ ← session_remove "cac_stake_token";
          spawn (load_staking fuel)
        else
          _ ← try_catch (ref ← referralStatus gw token; show_referral_status ref) (λ _, pass);
          try_catch (h ← referralHistory gw token; show_referral_history h) (λ _, pass)
  end.
Definition loadStaking : js app unit := load_staking 2.

Definition referral_copy : js app unit :=
  code ← dom_get "stat-referral-code" "textContent";
  if String.eqb code "" || String.eqb code "-" then pass
  else if clipboard_ok then
    _ ← emit (Copied code);
    original ← dom_get "btn-referral-copy" "textContent";
    _ ← text "btn-referral-copy" "Copied!";
    emit (Timeout_set 1500 "btn-referral-copy" original)
  else pass.

(** [JSON] fields of the sign-up form. *)
Definition kyc_fields : js app (list (string * json)) :=
  full ← value "stake-full-name";
  dob ← value "stake-dob";
  idt ← value "stake-id-type";
  idn ← value "stake-id-number";
  ref ← value "stake-referral-code";
  mret [("full_name", JStr (js_trim full)); ("date_of_birth", JStr dob); ("id_type", JStr idt);
        ("id_number", JStr (js_trim idn)); ("referral_code", JStr (js_trim ref))].

Definition stakeAuth (action : string) : js app unit :=
  _ ← text "stake-auth-error" "";
  e ← value "stake-email";
  let email := js_trim e in
  password ← value "stake-password";
  try_catch (
    gw ← the gateway;
    result ← (if String.eqb action "login" then login gw email password
              else kyc ← kyc_fields; signup gw email password kyc);
    token ← lift (get (Some result) "token");
    _ ← update (set_stakeToken (if nullish token then None else Some (to_str token)));
    _ ← session_set "cac_stake_token" (to_str token);
    spawn loadStaking)
  (λ e, text "stake-auth-error" (error_text e)).

Definition stake_deposit : js app unit :=
  v ← value "deposit-amount";
  let amountCac := parseFloat v in
  if num_falsy amountCac || num_le0 amountCac then pass
  else
    _ ← text "staking-action-error" "";
    try_catch (
      let amountSatoshis := num_round (num_mul amountCac (Fin 100000000 0)) in
      gw ← the gateway;
      token ← the stakeToken;
      result ← stakingDeposit gw token amountSatoshis;
      a ← lift (get (Some result) "deposit_address");
      text "deposit-result" ("Send funds to: " +:+ to_str a))
    (λ e, _ ← text "deposit-result" ""; text "staking-action-error" (error_text e)).

Definition stake_withdraw : js app unit :=
  _ ← text "staking-action-error" "";
  _ ← text "staking-action-success" "";
  v ← value "withdraw-amount";
  a ← value "withdraw-address";
  let amountCac := parseFloat v in
  let toAddress := js_trim a in
  if num_falsy amountCac || num_le0 amountCac || String.eqb toAddress "" then
    text "staking-action-error" "Enter an amount and destination address."
  else
    try_catch (
      let amountSatoshis := num_round (num_mul amountCac (Fin 100000000 0)) in
      gw ← the gateway;
      token ← the stakeToken;
      result ← stakingWithdraw gw token amountSatoshis toAddress;
      t ← lift (get (Some result) "txid");
      _ ← text "staking-action-success" ("Withdrawal broadcast: " +:+ to_str t);
      spawn loadStaking)
    (λ e, text "staking-action-error" (error_text e)).

Definition referral_withdraw : js app unit :=
  _ ← text "referral-action-error" "";
  _ ← text "referral-action-success" "";
  a ← value "referral-withdraw-address";
  let toAddress := js_trim a in
  if String.eqb toAddress "" then text "referral-action-error" "Enter a destination address."
  else
    try_catch (
      gw ← the gateway;
      token ← the stakeToken;
      result ← referralWithdraw gw token toAddress;
      t ← lift (get (Some result) "txid");
      _ ← text "referral-action-success" ("Withdrawal broadcast: " +:+ to_str t);
      spawn loadStaking)
    (λ e, text "referral-action-error" (error_text e)).

(** ** Web push *)

(** base64url with its padding restored; [atob] throws on what is not base64. *)
Definition urlBase64ToUint8Array (base64url : string) : result bytes :=
  let padding := js_repeat "=" (Z.to_nat ((4 - js_length base64url mod 4) mod 4)) in
  let base64 := replace_char "_" "/" (replace_char "-" "+" (base64url +:+ padding)) in
  base64Decode base64.

Definition enable_push : js app unit :=
  _ ← text "push-error" "";
  _ ← text "push-success" "";
  try_catch (
    permission ← lift ask_notifications;
    if negb (String.eqb permission "granted") then text "push-error" "Notification permission was not granted."
    else
      gw ← the gateway;
      r ← pushVapidPublicKey gw;
      k ← lift (get (Some r) "public_key");
      _ ← lift register_worker;
      existing ← lift current_subscription;
      subscription ← lift (match existing with
        | Some s => Ok s
        | None =>
            match k with
            | Some (JStr key) => raw ← urlBase64ToUint8Array key; push_subscribe raw
            | _ => Throw (ExType "Cannot read properties of undefined (reading 'length')")
            end
        end);
      token ← the stakeToken;
      _ ← pushSubscribe gw token subscription;
      text "push-success" "Notifications enabled.")
  (λ e, text "push-error" (error_text e)).
End staking.

(** ** The retry after an expired session *)

Section retry.
  Context {EN : Environment}.

Lemma bind_ext {P A B} (m : js P A) (f g : A → js P B) w :
  (∀ a w', m w = (Ok a, w') → f a w' = g a w') → (m ≫= f) w = (m ≫= g) w.
Proof. intros H. rewrite !run_bind. destruct (m w) as [[a|e] w'] eqn:E; [by apply H|done]. Qed.

Lemma show_staking_cards_run w :
  ∃ w', show_staking_cards w = (Ok (has_token (stakeToken (page w))), w').
Proof.
  unfold show_staking_cards. rewrite run_bind.
  change (stakingLoggedIn w) with (@Ok bool (has_token (stakeToken (page w))), w). cbv match.
  eexists. reflexivity.
Qed.

(** Without a session the screen is done after its cards. *)
Lemma load_staking_logged_out n m w :
  stakeToken (page w) = None → load_staking (S n) w = load_staking (S m) w.
Proof.
  intros Ht. cbn [load_staking]. apply bind_ext. intros b w' E.
  destruct (show_staking_cards_run w) as (w'' & E'). rewrite Ht in E'. cbn in E'. rewrite E' in E.
  by injection E as <- _.
Qed.

(** Loading the staking screen ends: it calls itself again only after an expired
    session, which it has closed by then, so more than the two calls of
    [loadStaking] are never made, whatever the server answers. *)
Theorem loadStaking_terminates n w : load_staking (S (S n)) w = loadStaking w.
Proof.
  unfold loadStaking. cbn [load_staking]. apply bind_ext. intros b w1 _. destruct (negb b); [done|].
  rewrite !bind_the. apply bind_ext. intros expired w2 _. destruct expired; [|done].
  rewrite !bind_update. apply bind_ext. intros [] w3 E.
  assert (Ht : stakeToken (page w3) = None) by (by injection E as <-).
  change (spawn (load_staking (S n)) w3 = spawn (load_staking 1) w3). unfold spawn.
  by rewrite (load_staking_logged_out n 0 w3 Ht).
Qed.
End retry.
