(* ===== verification/AppMultisig.v ===== *)
(** * The multisig screen (web-wallet/app.js, 1200-1376)

    A proposal travels between cosigners as JSON text.  Its members have the
    shape [createMultisigProposal] gives them; text of another shape is a
    [TypeError] here, as it is (later, and with another text) in the source.
    The order of the keys inside a signature object is not kept. *)

From S2P Require Import Prelude JsString JsNum Amount Json Hex JsValue NodeTx NodeScript ScriptLemmas Browser Primitives Base58 Bech32 Address Keys TxCodec Der Signing Multisig MultisigSpend MultisigThreshold Gateway Qr App AppHome AppSend AppSpend AppBook.

(** ** Proposals as JSON *)

Definition as_int (v : val) : result Z :=
  match v with Some (JNum x) => num_to_bigint x | _ => Throw (ExType "not a number") end.
Definition as_str (v : val) : result string :=
  match v with Some (JStr s) => Ok s | _ => Throw (ExType "not a string") end.
Definition as_list (v : val) : result (list json) :=
  match v with Some (JArr l) => Ok l | _ => Throw (ExType "not an array") end.
Definition list_of {A} (f : json → result A) (v : val) : result (list A) := l ← as_list v; mapR f l.

Definition signatures_json (m : gmap string string) : json :=
  JObj ((λ kv, (kv.1, JStr kv.2)) <$> map_to_list m).
Definition prop_input_json (i : prop_input) : json :=
  JObj [("txid", JStr (pi_txid i)); ("vout", jint (pi_vout i)); ("valueSatoshis", jint (pi_valueSatoshis i));
        ("redeemScript", JStr (pi_redeemScript i))].
Definition prop_output_json (o : prop_output) : json :=
  JObj [("scriptPubKey", JStr (po_scriptPubKey o)); ("valueSatoshis", jint (po_valueSatoshis o))].
Definition proposal_json (p : proposal) : json :=
  JObj [("version", jint (p_version p)); ("locktime", jint (p_locktime p));
        ("inputs", JArr (prop_input_json <$> p_inputs p)); ("outputs", JArr (prop_output_json <$> p_outputs p));
        ("signatures", JArr (signatures_json <$> p_signatures p))].

Definition signatures_of (v : json) : result (gmap string string) :=
  match v with
  | JObj l => kvs ← mapR (λ kv : string * json, s ← as_str (Some kv.2); mret (kv.1, s)) l; mret (list_to_map kvs)
  | _ => Throw (ExType "not an object")
  end.
Definition prop_input_of (v : json) : result prop_input :=
  t ← get (Some v) "txid" ≫= as_str; o ← get (Some v) "vout" ≫= as_int;
  x ← get (Some v) "valueSatoshis" ≫= as_int; r ← get (Some v) "redeemScript" ≫= as_str;
  mret {| pi_txid := t; pi_vout := o; pi_valueSatoshis := x; pi_redeemScript := r |}.
Definition prop_output_of (v : json) : result prop_output :=
  s ← get (Some v) "scriptPubKey" ≫= as_str; x ← get (Some v) "valueSatoshis" ≫= as_int;
  mret {| po_scriptPubKey := s; po_valueSatoshis := x |}.
Definition proposal_of (v : json) : result proposal :=
  ver ← get (Some v) "version" ≫= as_int; lock ← get (Some v) "locktime" ≫= as_int;
  ins ← get (Some v) "inputs" ≫= list_of prop_input_of;
  outs ← get (Some v) "outputs" ≫= list_of prop_output_of;
  sigs ← get (Some v) "signatures" ≫= list_of signatures_of;
  mret {| p_version := ver; p_locktime := lock; p_inputs := ins; p_outputs := outs; p_signatures := sigs |}.

(** ** The screen *)

(** [String(e.message || e)] *)
Definition message_text (e : exn) : string :=
  if String.eqb (exn_message e) "" then exn_to_string e else exn_message e.

(** [s.trim().split("\n").map(trim).filter(Boolean)] *)
Definition nonempty_lines (s : string) : list string :=
  filter (λ l, l ≠ "") (js_trim <$> js_split (chr 10) (js_trim s)).

Section multisig_screen.
  Context {PR : Primitives} {EN : Environment}.

Definition loadMultisig : js app unit :=
  key ← ensureKey 0;
  text "my-pubkey" (bytesToHex (publicKey key)).

Definition ms_create : js app unit :=
  _ ← text "ms-create-error" "";
  _ ← show_el "ms-create-result" "none";
  try_catch (
    key ← ensureKey 0;
    lines ← value "ms-pubkeys";
    let allPubkeys := publicKey key :: (hexToBytes <$> nonempty_lines lines) in
    mv ← value "ms-m";
    redeemScript ← lift (redeem_script_of (parse_int 10 (chars mv)) allPubkeys);
    net ← selected_network;
    address ← lift (multisigAddress redeemScript net);
    _ ← text "ms-redeem-script" (bytesToHex redeemScript);
    _ ← text "ms-address" address;
    _ ← show_el "ms-create-result" "block";
    _ ← set_value "ms-propose-address" address;
    set_value "ms-propose-redeem" (bytesToHex redeemScript))
  (λ e, text "ms-create-error" (message_text e)).

(** [BigInt(10 + n * (redeemScript.length + 150) + 2 * 34)] *)
Definition multisig_vsize (redeemScript : bytes) (n : Z) : Z := 10 + n * (len redeemScript + 150) + 2 * 34.

Definition multisig_input (redeemScript : bytes) (u : json) : result multisig_utxo :=
  t ← get (Some u) "txid" ≫= hex_val;
  o ← get (Some u) "vout" ≫= as_int;
  v ← get (Some u) "value";
  v ← as_int (Some (JNum (to_num v)));
  mret {| mu_txid := rev t; mu_vout := o; mu_value := v; mu_redeemScript := redeemScript |}.

Definition ms_propose_body (address redeemScriptHex toAddress : string) (amountCac : num) : js app unit :=
  let redeemScript := hexToBytes redeemScriptHex in
  net ← selected_network;
  d ← lift (decodeAddress toAddress net);
  amountSatoshis ← lift (to_satoshis amountCac);
  gw ← the gateway;
  utxoResp ← utxos gw address;
  feeResp ← feeEstimate gw 6;
  feeRate ← lift (get (Some feeResp) "fee_rate_sat_per_vbyte" ≫= to_bigint);
  us ← lift (get (Some utxoResp) "utxos" ≫= iterate);
  '(chosen, totalIn) ← lift (select_coins (multisig_vsize redeemScript) feeRate amountSatoshis [] 0 us);
  let feeSatoshis := rate_fee feeRate (multisig_vsize redeemScript (Z.of_nat (length chosen))) in
  if totalIn <? amountSatoshis + feeSatoshis then
    text "ms-propose-error" ("Insufficient funds at this address: have " +:+ formatCac totalIn +:+ ", need " +:+
      formatCac (amountSatoshis + feeSatoshis))
  else
    let change := totalIn - amountSatoshis - feeSatoshis in
    let outputs := {| valueSatoshis := to_number amountSatoshis; scriptPubKey := dest_script d |} ::
      (if 0 <? change then [{| valueSatoshis := to_number change;
                               scriptPubKey := p2shScriptPubKey (hash160 redeemScript) |}] else []) in
    inputs ← lift (mapR (multisig_input redeemScript) chosen);
    let p := createMultisigProposal inputs outputs 0 in
    set_value "ms-proposal-json" (stringify2 (proposal_json p)).

Definition ms_propose : js app unit :=
  _ ← text "ms-propose-error" "";
  try_catch (
    a ← value "ms-propose-address";
    r ← value "ms-propose-redeem";
    t ← value "ms-propose-to";
    v ← value "ms-propose-amount";
    let address := js_trim a in
    let redeemScriptHex := js_trim r in
    let toAddress := js_trim t in
    let amountCac := parseFloat v in
    if String.eqb address "" || String.eqb redeemScriptHex "" || String.eqb toAddress "" ||
       num_falsy amountCac || num_le0 amountCac then text "ms-propose-error" "Fill in every field."
    else ms_propose_body address redeemScriptHex toAddress amountCac)
  (λ e, text "ms-propose-error" (message_text e)).

Definition ms_sign : js app unit :=
  _ ← text "ms-sign-error" "";
  _ ← text "ms-sign-success" "";
  try_catch (
    key ← ensureKey 0;
    t ← value "ms-proposal-json";
    p ← lift (parse t ≫= proposal_of);
    p ← lift (signMultisigProposal p (privateKey key) (publicKey key));
    _ ← set_value "ms-proposal-json" (stringify2 (proposal_json p));
    text "ms-sign-success" "Signed with your key. Send this JSON to the next cosigner, or finalize if enough signatures are collected.")
  (λ e, text "ms-sign-error" (message_text e)).

Definition ms_broadcast : js app unit :=
  _ ← text "ms-sign-error" "";
  _ ← text "ms-sign-success" "";
  try_catch (
    t ← value "ms-proposal-json";
    p ← lift (parse t ≫= proposal_of);
    rawTx ← lift (finalizeMultisigTransaction p);
    gw ← the gateway;
    result ← broadcast gw (bytesToHex rawTx);
    id ← lift (get (Some result) "txid");
    text "ms-sign-success" ("Broadcast: " +:+ to_str id))
  (λ e, text "ms-sign-error" (error_or (message_text e) e)).

Definition MS_QR_MAX_CHARS : Z := 1500.

Definition ms_show_qr : js app unit :=
  _ ← text "ms-qr-error" "";
  t ← value "ms-proposal-json";
  let json := js_trim t in
  if String.eqb json "" then text "ms-qr-error" "Nothing to show -- paste or create a proposal first."
  else if MS_QR_MAX_CHARS <? js_length json then
    text "ms-qr-error" ("This proposal is too large for a reliable QR code (" +:+ show (js_length json) +:+
      " characters). Share the JSON text directly instead.")
  else
    _ ← show_el "ms-qr-overlay" "flex";
    renderQr "ms-qr-canvas" json.

Definition ms_qr_close : js app unit := show_el "ms-qr-overlay" "none".
Definition ms_scan_qr : js app unit := openQrScanner ToProposal.
End multisig_screen.

(** ** A proposal survives its text *)

Definition small (z : Z) : Prop := - 2 ^ 53 <= z <= 2 ^ 53.
Definition proposal_small (p : proposal) : Prop :=
  small (p_version p) ∧ small (p_locktime p) ∧
  Forall (λ i, small (pi_vout i) ∧ small (pi_valueSatoshis i)) (p_inputs p) ∧
  Forall (λ o, small (po_valueSatoshis o)) (p_outputs p).

Lemma jint_ok z : small z → json_ok (jint z).
Proof. intros Hz. exists z. by split. Qed.

Lemma proposal_json_ok p : proposal_small p → json_ok (proposal_json p).
Proof.
  intros (Hv & Hl & Hi & Ho). apply json_ok_obj. split; [by apply (bool_decide_unpack _)|].
  repeat (apply Forall_cons_iff; split); try apply Forall_nil; cbn [snd]; try (by apply jint_ok).
  all: try done.
  - apply json_ok_arr, Forall_fmap. eapply Forall_impl; [|exact Hi]. intros i [H1 H2].
    apply json_ok_obj. split; [by apply (bool_decide_unpack _)|].
    repeat (apply Forall_cons_iff; split); try done; by apply jint_ok.
  - apply json_ok_arr, Forall_fmap. eapply Forall_impl; [|exact Ho]. intros o H1.
    apply json_ok_obj. split; [by apply (bool_decide_unpack _)|].
    repeat (apply Forall_cons_iff; split); try done; by apply jint_ok.
  - apply json_ok_arr, Forall_fmap, Forall_true. intros m. apply json_ok_obj.
    rewrite <- list_fmap_compose. split; [apply NoDup_fst_map_to_list|].
    apply Forall_fmap, Forall_true. done.
Qed.

Lemma as_int_jint z : small z → as_int (Some (jint z)) = Ok z.
Proof. apply num_to_bigint_small. Qed.

Lemma signatures_back m : signatures_of (signatures_json m) = Ok m.
Proof.
  unfold signatures_of, signatures_json.
  rewrite (mapR_total _ (λ kv, (kv.1, match kv.2 with JStr s => s | _ => "" end))).
  - run_bind. rewrite <- list_fmap_compose. rewrite (list_fmap_ext _ id).
    + by rewrite list_fmap_id, list_to_map_to_list.
    + by intros ? [? ?] ?.
  - intros [k v] ([k' s] & [= -> ->] & _)%list_elem_of_fmap. done.
Qed.

Lemma mapR_back {A} (f : json → result A) (g : A → json) l :
  Forall (λ x, f (g x) = Ok x) l → mapR f (g <$> l) = Ok l.
Proof. intros H. apply mapR_ok. induction H; rewrite ?fmap_cons; by constructor. Qed.

Lemma proposal_back p : proposal_small p → proposal_of (proposal_json p) = Ok p.
Proof.
  intros (Hv & Hl & Hi & Ho). destruct p as [ver lock ins outs sigs]. cbn [p_version p_locktime p_inputs p_outputs] in *.
  unfold proposal_of, proposal_json. cbn -[jint as_int mapR as_list].
  rewrite as_int_jint by done. run_bind. rewrite as_int_jint by done. run_bind.
  unfold list_of. cbn [as_list]. run_bind. rewrite (mapR_back prop_input_of), (mapR_back prop_output_of),
    (mapR_back signatures_of); [done| | |].
  - apply Forall_true, signatures_back.
  - eapply Forall_impl; [|exact Ho]. intros [sp v] H. unfold prop_output_of. cbn -[jint as_int].
    by rewrite as_int_jint.
  - eapply Forall_impl; [|exact Hi]. intros [t o v r] [H1 H2]. unfold prop_input_of. cbn -[jint as_int].
    rewrite as_int_jint by done. run_bind. by rewrite as_int_jint.
Qed.

(** ** Proposals travel *)

(** A proposal copied from one cosigner's screen and pasted into another's is
    the same proposal: the parsed text gives back every field and every
    signature, so signing goes on from it. *)
Theorem proposal_text_roundtrip p :
  proposal_small p →
  (v ← parse (stringify2 (proposal_json p)); proposal_of v) = Ok p.
Proof. intros Hp. unfold stringify2. rewrite parse_write by (by apply proposal_json_ok). by apply proposal_back. Qed.

Lemma proposal_text_roundtrip_witness :
  let p := {| p_version := 2; p_locktime := 0;
    p_inputs := [{| pi_txid := "00ff"; pi_vout := 1; pi_valueSatoshis := 7000; pi_redeemScript := "51" |}];
    p_outputs := [{| po_scriptPubKey := "a914"; po_valueSatoshis := 6000 |}];
    p_signatures := [{["02ab" := "3044"]}] |} in
  (v ← parse (stringify2 (proposal_json p)); proposal_of v) = Ok p.
Proof.
  intros p. apply (proposal_text_roundtrip p). unfold proposal_small, small.
  split_and!; try (simpl; lia); apply Forall_singleton; simpl; lia.
Defined.

(** ** A threshold that is not a number *)

Section threshold.
  Context {PR : Primitives} {PL : PrimitiveLaws} {EN : Environment}.

(** What is typed into a field, and what an element shows. *)
Definition typed (w : browser app) (id : string) : string := default "" (dom w !! (id, "value")).
Definition shown (w : browser app) (id : string) : option string := dom w !! (id, "textContent").

(** The keys the multisig screen takes: the wallet's first and the pasted ones. *)
Definition ms_keys (key : keypair) (w : browser app) : list bytes := publicKey key :: (hexToBytes <$> nonempty_lines (typed w "ms-pubkeys")).

Lemma ensureKey_cached i key w : keys (page w) !! i = Some key → ensureKey i w = (Ok key, w).
Proof. intros Hk. unfold ensureKey. rewrite bind_the, Hk. done. Qed.

(** The page with its elements changed. *)
Definition put (d : gmap (string * string) string) (w : browser app) : browser app :=
  Browser (local w) (session w) d (sent w) (drawn w) (intervals w) (next_handle w) (effects w) (page w).
Lemma bind_put {B} id prop v (k : unit → js app B) w : (dom_set id prop v ≫= k) w = k () (put (<[(id, prop) := v]> (dom w)) w).
Proof. done. Qed.
Lemma put_last id prop v w : dom_set id prop v w = (Ok (), put (<[(id, prop) := v]> (dom w)) w).
Proof. done. Qed.
Lemma dom_put d w : dom (put d w) = d.
Proof. done. Qed.
Lemma page_put d w : page (put d w) = page w.
Proof. done. Qed.

Lemma multisig_address name net rs : NETWORKS name = Some net → ∃ a, multisigAddress rs net = Ok a.
Proof.
  intros Hn. unfold multisigAddress. rewrite p2shAddress_encode by (by eapply networks_ok || apply ripemd160_length).
  rewrite encode_unfold. by eexists.
Qed.

(** C22. On the multisig screen of an open wallet, whatever text is in the threshold's
    field that does not begin with a number, the empty one included: with one to 15
    keys in all, each of 33 bytes, the screen shows a redeem script and the address
    made of it, and no error; and coins sent to this address need no signature.  In any
    transaction the node accepts a scriptSig that holds none; with one or two keys this
    is the scriptSig the wallet builds itself from a proposal nobody signed. *)
Theorem nan_threshold_screen (w : browser app) (key : keypair) (net : network)
    (Hkey : keys (page w) !! 0 = Some key) (Hnet : NETWORKS (network_name (page w)) = Some net)
    (Hnan : parse_int 10 (chars (typed w "ms-m")) = None)
    (Hc : Forall compressed (ms_keys key w)) (Hn : (length (ms_keys key w) <= 15)%nat) :
  ∃ rs address w', ms_create w = (Ok (), w') ∧
    shown w' "ms-create-error" = Some "" ∧ dom w' !! ("ms-create-result", "style.display") = Some "block" ∧
    shown w' "ms-redeem-script" = Some (bytesToHex rs) ∧ shown w' "ms-address" = Some address ∧ multisigAddress rs net = Ok address ∧
    (∀ tx i, VerifyScript tx i (assemble (unlock_items [] rs)) (p2shScriptPubKey (hash160 rs)) [] = Ok tt) ∧
    ((length (ms_keys key w) <= 2)%nat → ∀ i, finalize_scriptSig i rs (Some ∅) = Ok (assemble (unlock_items [] rs))).
Proof.
  destruct (nan_threshold_anyone_spends (ms_keys key w)) as (rs & Hrs & Hany & Hfin); [unfold ms_keys in *; cbn [length] in *; lia|done|].
  destruct (multisig_address _ net rs Hnet) as [address Ha]. exists rs, address. eexists. split.
  - unfold ms_create, text, show_el, set_value. rewrite !bind_put. unfold try_catch.
    rewrite run_bind, (ensureKey_cached 0 key) by done. rewrite bind_value, bind_value. rewrite !dom_put, !lookup_insert_ne by done.
    fold (typed w "ms-pubkeys") (typed w "ms-m"). fold (ms_keys key w). rewrite Hnan, bind_lift, Hrs, bind_selected.
    rewrite !page_put, Hnet, bind_lift, Ha. rewrite !bind_put. rewrite put_last. reflexivity.
  - unfold shown. rewrite !dom_put. split_and!; [..|done|done|done]; rewrite ?(lookup_insert_ne _ _ _ _) by done; apply lookup_insert_eq.
Qed.
End threshold.

Module ThresholdExample.
#[local] Existing Instances Toy.prims Toy.laws.
Definition key : keypair := {| privateKey := replicate 32 7; publicKey := secp_public (replicate 32 7) |}.
(** The page with one pasted key, and a word where the threshold should be. *)
Definition page : browser app :=
  Browser ∅ ∅ {[("ms-pubkeys", "value") := bytesToHex (secp_public (replicate 32 9)); ("ms-m", "value") := "two"]} [] 0 [] 0 []
    (set_keys {[0 := key]} (set_network_name "mainnet" (initial_app ∅ ∅))).
End ThresholdExample.

Lemma nan_threshold_screen_witness :
  ∃ rs address w', ms_create (PR := Toy.prims) ThresholdExample.page = (Ok (), w') ∧
    shown w' "ms-redeem-script" = Some (bytesToHex rs) ∧ shown w' "ms-address" = Some address ∧
    ∀ i, finalize_scriptSig i rs (Some ∅) = Ok (assemble (unlock_items [] rs)).
Proof.
  destruct (nan_threshold_screen (PR := Toy.prims) (PL := Toy.laws) ThresholdExample.page ThresholdExample.key mainnet)
    as (rs & address & w' & H1 & _ & _ & H2 & H3 & _ & _ & H4).
  - reflexivity.
  - reflexivity.
  - vm_compute. reflexivity.
  - repeat constructor.
  - vm_compute. lia.
  - exists rs, address, w'. split; [exact H1|]. split; [exact H2|]. split; [exact H3|]. apply H4. vm_compute. lia.
Defined.
