(* ===== verification/AppSettings.v ===== *)
(** * Settings (web-wallet/app.js, 1502-1630 and 1644-1653) *)

From S2P Require Import Prelude JsString JsNum Json Hex JsValue Browser Primitives Base58 Address Keys Message Storage App.

(** [e.message || other] *)
Definition message_or (other : string) (e : exn) : string :=
  if String.eqb (exn_message e) "" then other else exn_message e.

(** [String(b)] *)
Definition bool_text (b : bool) : string := if b then "true" else "false".

(** [b ? "block" : "none"] *)
Definition display_of (b : bool) : string := if b then "block" else "none".

Section settings.
  Context {PR : Primitives} {EN : Environment}.

Definition refreshLockCardVisibility : js app unit :=
  pinSet ← isPinSet;
  _ ← show_el "lock-not-set" (display_of (negb pinSet));
  show_el "lock-is-set" (display_of pinSet).

(** [classList.toggle("active", b)] *)
Definition toggle_active (id : string) (b : bool) : js app unit := dom_set id "active" (bool_text b).

Definition refreshThemeButtons : js app unit :=
  t ← local_get "cac_theme";
  let current := match t with Some t => if String.eqb t "" then "system" else t | None => "system" end in
  _ ← toggle_active "btn-theme-system" (String.eqb current "system");
  _ ← toggle_active "btn-theme-dark" (String.eqb current "dark");
  toggle_active "btn-theme-light" (String.eqb current "light").

Definition applyTheme (choice : string) : js app unit :=
  _ ← (if String.eqb choice "dark" || String.eqb choice "light" then
         _ ← local_set "cac_theme" choice;
         update (set_theme (Some choice))
       else
         _ ← local_remove "cac_theme";
         update (set_theme None));
  refreshThemeButtons.

(** The options of the address selector: value and text. *)
Definition sign_option (addrs : gmap Z string) (idx : Z) : string * string :=
  (show idx,
   match addrs !! idx with
   | Some s => if String.eqb s "" then "(address #" +:+ show idx +:+ ")" else s
   | None => "(address #" +:+ show idx +:+ ")"
   end).

(** [sel.value = v] selects the option of that value; with no such option the
    value reads back empty. *)
Definition refreshMsgSignAddressList : js app unit :=
  l ← the addressIndices;
  addrs ← the addresses;
  active ← the activeIndex;
  let options := sign_option addrs <$> l in
  _ ← update (set_signOptions options);
  set_value "msg-sign-address" (if bool_decide (show active ∈ options.*1) then show active else "").

Definition loadSettings : js app unit :=
  _ ← refreshLockCardVisibility;
  _ ← text "lock-settings-error" "";
  _ ← text "lock-settings-success" "";
  _ ← refreshThemeButtons;
  refreshMsgSignAddressList.

(** ** Messages *)

(** [await ensureKey(Number(text))]: a value that is not an integer is no index
    of a derivation path. *)
Definition key_of_option (t : string) : js app keypair :=
  match num_int (string_to_number t) with
  | Some idx => ensureKey idx
  | None => throw (ExError "Invalid child index")
  end.

Definition msg_sign : js app unit :=
  _ ← text "msg-sign-error" "";
  _ ← show_el "msg-sign-result" "none";
  i ← value "msg-sign-address";
  message ← value "msg-sign-input";
  if String.eqb message "" then text "msg-sign-error" "Enter a message to sign."
  else
    try_catch (
      key ← key_of_option i;
      signature ← lift (signMessage (privateKey key) message);
      _ ← set_value "msg-sign-output" signature;
      show_el "msg-sign-result" "block")
    (λ e, text "msg-sign-error" (message_or "Could not sign message." e)).

Definition msg_verify : js app unit :=
  _ ← text "msg-verify-error" "";
  _ ← text "msg-verify-success" "";
  a ← value "msg-verify-address";
  message ← value "msg-verify-message";
  s ← value "msg-verify-signature";
  let address := js_trim a in
  let signature := js_trim s in
  if String.eqb address "" || String.eqb signature "" then
    text "msg-verify-error" "Enter an address and a signature to verify."
  else
    try_catch (
      net ← selected_network;
      valid ← lift (verifyMessage address signature message net);
      if valid : bool then
        text "msg-verify-success" "Valid signature -- this address signed this exact message."
      else text "msg-verify-error" "Invalid signature -- does not match this address/message.")
    (λ e, text "msg-verify-error" (message_or "Could not verify signature." e)).

(** ** The PIN *)

(** [state.mnemonic] as a text argument; only an unlocked wallet shows these
    buttons, [null] would be written as its name. *)
Definition mnemonic_text : js app string :=
  m ← the mnemonic;
  mret (default "null" m).

Definition set_pin : js app unit :=
  _ ← text "lock-settings-error" "";
  _ ← text "lock-settings-success" "";
  pin ← value "set-pin";
  confirmPin ← value "set-pin-confirm";
  if js_length pin <? 4 then text "lock-settings-error" "PIN must be at least 4 characters."
  else if negb (String.eqb pin confirmPin) then text "lock-settings-error" "PINs don't match."
  else
    m ← mnemonic_text;
    _ ← setPin m pin;
    _ ← set_value "set-pin" "";
    _ ← set_value "set-pin-confirm" "";
    _ ← text "lock-settings-success" "PIN set. Your recovery phrase is now encrypted at rest.";
    refreshLockCardVisibility.

Definition lock_now : js app unit :=
  _ ← update (set_mnemonic None);
  _ ← update (set_keys ∅);
  _ ← update (set_addresses ∅);
  _ ← show_el "tabbar" "none";
  _ ← update (set_screen None);
  show_el "lock-overlay" "flex".

Definition remove_pin : js app unit :=
  m ← mnemonic_text;
  _ ← removePin m;
  _ ← text "lock-settings-success" "PIN removed; recovery phrase is now stored in plain text.";
  _ ← text "lock-settings-error" "";
  refreshLockCardVisibility.

Definition wipe_wallet : js app unit :=
  if negb (answer_confirm "This deletes your recovery phrase from this browser. If you have not backed it up, any funds will be permanently unrecoverable. Continue?") then pass
  else
    _ ← local_remove "cac_mnemonic";
    _ ← local_remove "cac_mnemonic_encrypted";
    _ ← local_remove "cac_address_indices_mainnet";
    _ ← local_remove "cac_address_indices_testnet";
    _ ← local_remove "cac_address_book";
    _ ← session_remove "cac_stake_token";
    emit Reloaded.
End settings.
