(* ===== verification/AppMain.v ===== *)
(** * Screens, onboarding, the lock and the network (web-wallet/app.js, 12-36, 117-289, 918-921, 1632-1642)

    The handlers that compose the others: starting the page, creating and
    restoring a wallet, unlocking it, moving between screens and networks.
    [event] lists what can happen to a running page. *)

From S2P Require Import Prelude JsString JsNum Json JsValue Browser Primitives Keys Gateway Storage App AppHome AppSend AppSpend AppBook AppReceive AppHistory AppStaking AppMultisig AppSettings.

(** Whether a screen polls for transactions. *)
Definition polled (name : string) : bool := String.eqb name "home" || String.eqb name "history".

(** [indices.sort((a, b) => a - b)] *)
Fixpoint insert_index (i : Z) (l : list Z) : list Z :=
  match l with [] => [i] | j :: l' => if i <? j then i :: l else j :: insert_index i l' end.
Definition sort_indices (l : list Z) : list Z := foldl (λ acc i, insert_index i acc) [] l.

Section main.
  Context {PR : Primitives} {EN : Environment}.

(** What a screen loads when it is shown: an [async] function's exception stays
    in its promise, another one's leaves [showScreen]. *)
Definition load_screen (name : string) : js app unit :=
  if String.eqb name "home" then spawn loadHome
  else if String.eqb name "send" then _ ← loadAddressBook; _ ← spawn loadSendAmountFiat; spawn loadSendFeeRate
  else if String.eqb name "receive" then spawn loadReceive
  else if String.eqb name "history" then spawn loadHistory
  else if String.eqb name "staking" then spawn loadStaking
  else if String.eqb name "multisig" then spawn loadMultisig
  else if String.eqb name "watch" then spawn loadWatch
  else if String.eqb name "settings" then loadSettings
  else pass.

Definition showScreen (name : string) : js app unit :=
  _ ← update (set_screen (Some name));
  _ ← update (set_tab (Some name));
  _ ← load_screen name;
  if polled name then startTxPolling else stopTxPolling.

Definition enterWallet : js app unit :=
  _ ← deriveAllKnownAddresses;
  _ ← update (λ a, if bool_decide (screen a = Some "onboarding") then set_screen None a else a);
  _ ← show_el "lock-overlay" "none";
  _ ← show_el "tabbar" "flex";
  showScreen "home".

(** ** Onboarding *)

Definition create_wallet : js app unit :=
  bs ← random_bytes 16;
  let mnemonic := generateMnemonic bs in
  _ ← text "new-mnemonic" mnemonic;
  _ ← show_el "new-mnemonic-card" "block";
  _ ← show_el "btn-create-wallet" "none";
  _ ← show_el "btn-show-restore" "none";
  update (set_pendingMnemonic (Some mnemonic)).

Definition confirm_written (checked : bool) : js app unit :=
  dom_set "btn-mnemonic-continue" "disabled" (bool_text (negb checked)).

(** [while (indices.length < 3)]: [None] when [fuel] draws were not enough. *)
Fixpoint quiz_loop (fuel : nat) (n : Z) (indices : list Z) : js app (option (list Z)) :=
  if (3 <=? length indices)%nat then mret (Some indices)
  else
    match fuel with
    | O => mret None
    | S fuel =>
        i ← random n;
        quiz_loop fuel n (if bool_decide (i ∈ indices) then indices else indices ++ [i])
    end.

(** Whether the loop was left, and the quiz shown. *)
Definition showMnemonicQuiz (fuel : nat) (mnemonic : string) : js app bool :=
  let words := js_split " " mnemonic in
  indices ← quiz_loop fuel (Z.of_nat (length words)) [];
  match indices with
  | None => mret false
  | Some l =>
      _ ← update (set_quizFields ((λ i, {| quiz_index := i; quiz_value := "" |}) <$> sort_indices l));
      _ ← text "mnemonic-quiz-error" "";
      _ ← show_el "new-mnemonic-card" "none";
      _ ← show_el "mnemonic-quiz-card" "block";
      mret true
  end.

(** [null] has no [split]. *)
Definition pending : js app string :=
  m ← the pendingMnemonic;
  lift (match m with
        | Some m => Ok m
        | None => Throw (ExType "Cannot read properties of undefined (reading 'split')")
        end).

Definition mnemonic_continue (fuel : nat) : js app bool := m ← pending; showMnemonicQuiz fuel m.

(** The user types a word of the quiz. *)
Definition quiz_type (i : nat) (v : string) : js app unit :=
  update (λ a, set_quizFields (alter (λ q, {| quiz_index := quiz_index q; quiz_value := v |}) i (quizFields a)) a).

Definition quiz_back : js app unit :=
  _ ← show_el "mnemonic-quiz-card" "none";
  show_el "new-mnemonic-card" "block".

Definition quiz_correct (words : list string) (q : quiz_field) : bool :=
  bool_decide (Some (js_lower (js_trim (quiz_value q))) = words !! Z.to_nat (quiz_index q)).

(** Store a new phrase and open its wallet at the first address. *)
Definition open_phrase (m : string) : js app unit :=
  _ ← update (set_mnemonic (Some m));
  _ ← local_set "cac_mnemonic" m;
  _ ← update (set_addressIndices [0]);
  saveAddressIndices.

Definition quiz_verify : js app unit :=
  m ← pending;
  let words := js_split " " m in
  fields ← the quizFields;
  if negb (forallb (quiz_correct words) fields) then
    text "mnemonic-quiz-error" "One or more words don't match. Check your written-down phrase and try again."
  else
    _ ← text "mnemonic-quiz-error" "";
    _ ← open_phrase m;
    _ ← show_el "mnemonic-quiz-card" "none";
    enterWallet.

Definition show_restore : js app unit := show_el "restore-card" "block".

Definition restore_confirm : js app unit :=
  v ← value "restore-mnemonic";
  let mnemonic := js_trim v in
  if negb (isValidMnemonic mnemonic) then text "restore-error" "Invalid recovery phrase."
  else
    _ ← text "restore-error" "";
    _ ← open_phrase mnemonic;
    enterWallet.

(** ** Starting and unlocking *)

Definition boot : js app unit :=
  b ← isPinSet;
  if b : bool then show_el "lock-overlay" "flex"
  else
    stored ← local_get "cac_mnemonic";
    _ ← update (set_mnemonic (item_or_null stored));
    match item_or_null stored with
    | Some _ => enterWallet
    | None => pass
    end.

(** The evaluation of the module.  [boot] is not awaited; its first [await]
    lets the rest of the module, which adds the first row, run before it. *)
Definition start : js app unit :=
  _ ← refreshGateway;
  _ ← addRecipientRow;
  spawn boot.

Definition unlock : js app unit :=
  pin ← value "lock-pin";
  _ ← text "lock-error" "";
  try_catch (
    blob ← loadEncryptedBlob;
    m ← lift (decryptMnemonic (Some blob) pin);
    _ ← update (set_mnemonic (Some m));
    _ ← set_value "lock-pin" "";
    enterWallet)
  (λ _, text "lock-error" "Incorrect PIN.").

Definition lock_keydown (key : string) : js app unit := when (String.eqb key "Enter") (spawn unlock).

(** ** Networks and the banner *)

Definition switchNetwork (net : string) : js app unit :=
  _ ← update (set_network_name net);
  _ ← local_set "cac_network" net;
  _ ← refreshGateway;
  _ ← update (set_keys ∅);
  _ ← update (set_addresses ∅);
  _ ← deriveAllKnownAddresses;
  showScreen "home".

Definition banner_clicked : js app unit :=
  _ ← show_el "new-tx-banner" "none";
  showScreen "history".
End main.
