(* ===== verification/AppEvents.v ===== *)
(** * The running page

    Everything that can happen to the wallet page is an [event] with its
    handler; a page runs from its start through any sequence of events.  The
    invariant of every such run: the key cache holds the keys of the phrase and
    network in use, at most one polling timer is alive and the page knows it,
    and the send form has at least one row, with distinct ids. *)

From stdpp Require Import relations.
From S2P Require Import Prelude JsString JsNum Amount Json JsValue Browser Primitives Address Keys Gateway Price Qr Storage App AppHome AppSend AppSpend AppBook AppReceive AppHistory AppStaking AppMultisig AppSettings AppMain.

Inductive event :=
  | Typed (id v : string)
  | Show_screen (name : string)
  | Create_wallet | Confirm_written (b : bool) | Mnemonic_continue (fuel : nat)
  | Quiz_type (i : nat) (v : string) | Quiz_back | Quiz_verify | Show_restore | Restore_confirm
  | Unlock | Lock_keydown (key : string)
  | Add_recipient | Row_focus (id : string) | Row_address (id v : string) | Row_amount (id v : string)
  | Row_scan (id : string) | Row_remove (id : string) | Send_confirm
  | Scan_result (t : string) | Scan_error | Scan_cancel
  | Fee_decrease | Fee_increase | Fee_reset | Fee_changed (v : string)
  | Book_use (entries : list json) (i : nat) | Book_remove (i : nat) | Book_add
  | Receive_amount | View_explorer | Copy_address | Address_select (idx : Z) | New_address
  | Poll | Dismiss | Banner | Export | Open_tx (txid : string) | Bump (txid : string)
  | Detail_explorer (txid : string) | Detail_close
  | Referral_copy | Stake_auth (action : string) | Stake_deposit | Stake_withdraw | Referral_withdraw | Enable_push
  | Ms_create | Ms_propose | Ms_sign | Ms_broadcast | Ms_show_qr | Ms_qr_close | Ms_scan
  | Watch_remove (i : nat) | Watch_explorer (entries : list json) (i : nat) | Show_xpub | Watch_xpub_add | Watch_add
  | Msg_sign | Msg_verify | Theme (choice : string) | Set_pin | Lock_now | Remove_pin | Switch (net : string)
  | Wipe | Reload.

(** Loading the page again: the storages stay, everything else is new. *)
Definition reload (w : browser app) : browser app :=
  Browser (local w) (session w) ∅ (sent w) (drawn w) [] 1 (effects w) (initial_app (local w) (session w)).

Section events.
  Context {PR : Primitives} {EN : Environment}.

Definition handler (e : event) : js app unit :=
  match e with
  | Typed id v => set_value id v
  | Show_screen name => showScreen name
  | Create_wallet => create_wallet
  | Confirm_written b => confirm_written b
  | Mnemonic_continue fuel => _ ← mnemonic_continue fuel; mret ()
  | Quiz_type i v => quiz_type i v
  | Quiz_back => quiz_back
  | Quiz_verify => quiz_verify
  | Show_restore => show_restore
  | Restore_confirm => restore_confirm
  | Unlock => unlock
  | Lock_keydown key => lock_keydown key
  | Add_recipient => addRecipientRow
  | Row_focus id => row_focus id
  | Row_address id v => row_address_changed id v
  | Row_amount id v => row_amount_input id v
  | Row_scan id => openQrScanner (ToRow id)
  | Row_remove id => row_remove id
  | Send_confirm => send_confirm
  | Scan_result t => scan_result t
  | Scan_error => scan_error
  | Scan_cancel => closeQrScan
  | Fee_decrease => fee_decrease
  | Fee_increase => fee_increase
  | Fee_reset => fee_reset
  | Fee_changed v => fee_changed v
  | Book_use entries i => book_use entries i
  | Book_remove i => book_remove i
  | Book_add => book_add
  | Receive_amount => refreshReceiveQr
  | View_explorer => view_on_explorer
  | Copy_address => copy_address
  | Address_select idx => address_select idx
  | New_address => new_address
  | Poll => checkForNewTx
  | Dismiss => new_tx_dismiss
  | Banner => banner_clicked
  | Export => export_csv
  | Open_tx txid => openTxDetail txid
  | Bump txid => bump_clicked txid
  | Detail_explorer txid => detail_explorer txid
  | Detail_close => tx_detail_close
  | Referral_copy => referral_copy
  | Stake_auth action => stakeAuth action
  | Stake_deposit => stake_deposit
  | Stake_withdraw => stake_withdraw
  | Referral_withdraw => referral_withdraw
  | Enable_push => enable_push
  | Ms_create => ms_create
  | Ms_propose => ms_propose
  | Ms_sign => ms_sign
  | Ms_broadcast => ms_broadcast
  | Ms_show_qr => ms_show_qr
  | Ms_qr_close => ms_qr_close
  | Ms_scan => ms_scan_qr
  | Watch_remove i => watch_remove i
  | Watch_explorer entries i => watch_explorer entries i
  | Show_xpub => show_xpub
  | Watch_xpub_add => watch_xpub_add
  | Watch_add => watch_add
  | Msg_sign => msg_sign
  | Msg_verify => msg_verify
  | Theme choice => applyTheme choice
  | Set_pin => set_pin
  | Lock_now => lock_now
  | Remove_pin => remove_pin
  | Switch net => switchNetwork net
  | Wipe => wipe_wallet
  | Reload => λ w, start (reload w)
  end.

(** When an event can happen.  This is the page's markup, not a test of the handlers:
    the onboarding cards and the lock are shown only while no wallet is open, so
    while no key is cached; the remove button of a row is hidden when there is one
    row; a poll needs a live timer. *)
Definition allowed (e : event) (w : browser app) : Prop :=
  match e with
  | Quiz_verify | Restore_confirm | Unlock | Lock_keydown _ => keys (page w) = ∅ ∧ addresses (page w) = ∅
  | Row_remove id => ∃ r, r ∈ recipients (page w) ∧ row_id r = id ∧ row_remove_display r ≠ "none"
  | Poll => intervals w ≠ []
  | _ => True
  end.

Inductive step (w w' : browser app) : Prop :=
  | event_step e : allowed e w → (handler e w).2 = w' → step w w'.

(** The page has just been opened in a browser with the given storages. *)
Definition opened (local session : gmap string string) : browser app :=
  (start (reload (Browser local session ∅ [] 0 [] 1 [] (initial_app local session)))).2.

Definition reachable (w : browser app) : Prop := ∃ local session, rtc step (opened local session) w.
End events.

(** ** The invariant *)

Definition poll_ok (w : browser app) : Prop :=
  (1 <= next_handle w)%nat ∧
  match txPollHandle (page w) with
  | Some h => intervals w = [h] ∧ (1 <= h < next_handle w)%nat
  | None => intervals w = []
  end.

Definition remove_display (n : nat) : string := if (1 <? n)%nat then "" else "none".

Definition rows_ok (a : app) : Prop :=
  recipients a ≠ [] ∧ NoDup (row_id <$> recipients a) ∧
  Forall (λ r, row_remove_display r = remove_display (length (recipients a))) (recipients a) ∧
  Forall (λ r, ∃ z, 0 <= z < sendRecipientIdCounter a ∧ row_id r = show z) (recipients a).

Definition page_ok {PR : Primitives} (w : browser app) : Prop :=
  cache_ok (page w) ∧ poll_ok w ∧ rows_ok (page w).

Lemma keeps_attempt {P A} (I : browser P → Prop) (m : js P A) : keeps I m → keeps I (attempt m).
Proof. intros Hm w Hw. unfold attempt. specialize (Hm w Hw). by destruct (m w). Qed.

(** A script is taken apart at its binds, branches and calls; what is left are
    the browser's own operations, which touch nothing the invariant reads, and
    the lemmas of the [page] database. *)
Create HintDb page.

Ltac head_of t := match t with ?f _ => head_of f | _ => t end.

Ltac keeps_leaf := let H := fresh in intros ? H; exact H.

Ltac keeps_step :=
  first
  [ progress intros
  | solve [auto 2 with page]
  | match goal with
    | |- keeps _ (mbind _ _) => apply keeps_bind
    | |- keeps _ (try_catch _ _) => apply keeps_try
    | |- keeps _ (try_finally _ _) => apply keeps_finally
    | |- keeps _ (spawn _) => apply keeps_spawn
    | |- keeps _ (when _ _) => apply keeps_when
    | |- keeps _ (attempt _) => apply keeps_attempt
    | |- keeps _ (for_each _ _) => apply keeps_each
    | |- keeps _ (collect _ _) => apply keeps_collect
    | |- keeps _ (mret _) => apply keeps_ret
    | |- keeps _ (lift _) => apply keeps_lift
    | |- keeps _ (_get _ _ _) => apply keeps_get
    | |- keeps _ (_post _ _ _ _) => apply keeps_post
    | |- ignores_sent _ => intros ? ? ?; assumption
    | |- keeps _ (update _) => keeps_leaf
    | |- keeps _ (dom_set _ _ _) => keeps_leaf
    | |- keeps _ (dom_get _ _) => keeps_leaf
    | |- keeps _ (emit _) => keeps_leaf
    | |- keeps _ (local_get _) => keeps_leaf
    | |- keeps _ (with_local _) => keeps_leaf
    | |- keeps _ (with_session _) => keeps_leaf
    | |- keeps _ (fetch _) => keeps_leaf
    | |- keeps _ (random _) => keeps_leaf
    | |- keeps _ get_page => keeps_leaf
    | |- keeps _ (match ?x with _ => _ end) => destruct x
    | |- keeps _ ?m => let h := head_of m in unfold h
    end ].
Ltac keeps_tac := repeat keeps_step.

Section invariant.
  Context {PR : Primitives} {PL : PrimitiveLaws} {EN : Environment}.

(** ** Keys *)

Lemma page_ok_with (w : browser app) a' :
  page_ok w → grown (page w) a' → cache_ok a' → page_ok (with_page w a').
Proof. intros (_ & Hp & Hr) (ks & ads & -> & _) Hc. split; [done|]. by split. Qed.

Lemma keeps_ensureKey i : keeps page_ok (ensureKey i).
Proof.
  intros w Hw. pose proof (ensureKey_run i w ltac:(apply Hw)) as H.
  destruct (wallet_key (page w) i); [|by rewrite H].
  destruct H as (a' & -> & Hg & Hc & _). by apply page_ok_with.
Qed.

(** ** Timers *)

(** The state after the timer is cleared, and after a new one is set. *)
Definition unpolled (w : browser app) : browser app :=
  match txPollHandle (page w) with
  | None => w
  | Some h => Browser (local w) (session w) (dom w) (sent w) (drawn w) (filter (λ x, x ≠ h) (intervals w))
                (next_handle w) (effects w) (set_txPollHandle None (page w))
  end.
Definition with_timer (w : browser app) : browser app :=
  Browser (local w) (session w) (dom w) (sent w) (drawn w) (intervals w ++ [next_handle w])
    (S (next_handle w)) (effects w) (set_txPollHandle (Some (next_handle w)) (page w)).

Lemma stopTxPolling_run w : stopTxPolling w = (Ok (), unpolled w).
Proof. unfold stopTxPolling, unpolled. rewrite bind_the. by destruct (txPollHandle (page w)). Qed.
Lemma startTxPolling_run w : startTxPolling w = (Ok (), with_timer (unpolled w)).
Proof. unfold startTxPolling. rewrite run_bind, stopTxPolling_run. done. Qed.

Lemma unpolled_none w : poll_ok w → intervals (unpolled w) = [] ∧ next_handle (unpolled w) = next_handle w ∧
  txPollHandle (page (unpolled w)) = None.
Proof.
  intros [Hn Hp]. unfold unpolled. destruct (txPollHandle (page w)) as [h|] eqn:Eh; [|done].
  destruct Hp as [Hi Hh]. cbn. rewrite Hi, filter_cons_False by (intros H; by apply H). done.
Qed.

Lemma unpolled_page w : cache_ok (page w) → rows_ok (page w) →
  cache_ok (page (unpolled w)) ∧ rows_ok (page (unpolled w)).
Proof. intros Hc Hr. unfold unpolled. by destruct (txPollHandle (page w)). Qed.

Lemma keeps_stopTxPolling : keeps page_ok stopTxPolling.
Proof.
  intros w (Hc & Hp & Hr). rewrite stopTxPolling_run. destruct (unpolled_page w Hc Hr) as [Hc' Hr'].
  split; [done|]. split; [|done]. destruct (unpolled_none w Hp) as (Hi & Hn & Ht). destruct Hp as [Hp _].
  split; cbn [snd]; [by rewrite Hn|by rewrite Ht].
Qed.

Lemma keeps_startTxPolling : keeps page_ok startTxPolling.
Proof.
  intros w (Hc & Hp & Hr). rewrite startTxPolling_run. destruct (unpolled_page w Hc Hr) as [Hc' Hr'].
  split; [done|]. split; [|done]. destruct (unpolled_none w Hp) as (Hi & Hn & Ht). destruct Hp as [Hp _].
  split; cbn; [lia|]. rewrite Hi, Hn. split; [done|lia].
Qed.

(** ** Rows *)

Lemma show_inj x y : 0 <= x → 0 <= y → show x = show y → x = y.
Proof.
  intros Hx Hy H. apply (f_equal chars) in H. rewrite !show_chars in H by done.
  apply (f_equal (all_digits 10)) in H. rewrite !all_digits_show in H by done. by injection H.
Qed.

(** The rows with their remove buttons brought up to date. *)
Definition refreshed (rows : list recipient_row) : list recipient_row :=
  (λ r, Row (row_id r) (row_address r) (row_amount r) (remove_display (length rows))) <$> rows.

Lemma rows_ok_refreshed a rows n :
  rows ≠ [] → NoDup (row_id <$> rows) → Forall (λ r, ∃ z, 0 <= z < n ∧ row_id r = show z) rows →
  recipients a = refreshed rows → sendRecipientIdCounter a = n → rows_ok a.
Proof.
  intros Hne Hnd Hid Ha Hn. unfold rows_ok. rewrite Ha, Hn. unfold refreshed. split_and!.
  - by destruct rows.
  - by rewrite <- list_fmap_compose.
  - apply Forall_fmap, Forall_true. intros r. by rewrite length_fmap.
  - by apply Forall_fmap.
Qed.

Lemma rows_ok_alter a a' id f :
  (∀ r, row_id (f r) = row_id r ∧ row_remove_display (f r) = row_remove_display r) →
  recipients a' = (λ r, if String.eqb (row_id r) id then f r else r) <$> recipients a →
  sendRecipientIdCounter a' = sendRecipientIdCounter a → rows_ok a → rows_ok a'.
Proof.
  intros Hf Ha Hn (Hne & Hnd & Hd & Hid). unfold rows_ok. rewrite Ha, Hn.
  assert (E : ∀ r, row_id (if String.eqb (row_id r) id then f r else r) = row_id r ∧
    row_remove_display (if String.eqb (row_id r) id then f r else r) = row_remove_display r).
  { intros r. destruct (String.eqb _ _); [apply Hf|done]. }
  rewrite length_fmap. split_and!.
  - by destruct (recipients a).
  - rewrite <- list_fmap_compose. erewrite list_fmap_ext; [exact Hnd|]. intros ? r _. apply E.
  - apply Forall_fmap. eapply Forall_impl; [|exact Hd]. intros r. cbn. by rewrite (proj2 (E r)).
  - apply Forall_fmap. eapply Forall_impl; [|exact Hid]. intros r. cbn. by rewrite (proj1 (E r)).
Qed.

Lemma keeps_alter_row id f :
  (∀ r, row_id (f r) = row_id r ∧ row_remove_display (f r) = row_remove_display r) →
  keeps page_ok (alter_row id f).
Proof. intros Hf w (Hc & Hp & Hr). split; [done|]. split; [done|]. by apply (rows_ok_alter (page w) _ id f). Qed.

Lemma keeps_row_address id v : keeps page_ok (alter_row id (set_row_address v)).
Proof. by apply keeps_alter_row. Qed.
Lemma keeps_row_amount id v : keeps page_ok (alter_row id (set_row_amount v)).
Proof. by apply keeps_alter_row. Qed.

(** The page after a row is added. *)
Definition row_added (a : app) : app :=
  let id := sendRecipientIdCounter a in
  let a := set_recipients (refreshed (recipients a ++ [Row (show id) "" "" ""])) (set_sendRecipientIdCounter (id + 1) a) in
  match activeSendRecipientId a with
  | None => set_activeSendRecipientId (Some (show id)) a
  | Some _ => a
  end.

Lemma addRecipientRow_run w : addRecipientRow w = (Ok (), with_page w (row_added (page w))).
Proof.
  unfold addRecipientRow, row_added. rewrite bind_the, bind_update, bind_the, bind_update, bind_the.
  destruct w as [? ? ? ? ? ? ? ? a]. cbn. by destruct (activeSendRecipientId a).
Qed.

Lemma rows_ok_added a :
  0 <= sendRecipientIdCounter a → NoDup (row_id <$> recipients a) →
  Forall (λ r, ∃ z, 0 <= z < sendRecipientIdCounter a ∧ row_id r = show z) (recipients a) → rows_ok (row_added a).
Proof.
  intros Hn Hnd Hid. apply (rows_ok_refreshed _ (recipients a ++ [Row (show (sendRecipientIdCounter a)) "" "" ""])
    (sendRecipientIdCounter a + 1)).
  - by destruct (recipients a).
  - rewrite fmap_app. apply list.NoDup_app. split; [done|]. split; [|apply NoDup_singleton].
    intros s Hs ->%list_elem_of_singleton. apply list_elem_of_fmap in Hs as (r & E & Hr).
    rewrite list.Forall_forall in Hid. destruct (Hid r Hr) as (z & Hz & Ez).
    cbn in E. rewrite Ez in E. apply show_inj in E; lia.
  - apply Forall_app. split.
    + eapply Forall_impl; [|exact Hid]. intros r (z & Hz & E). exists z. split; [lia|done].
    + apply Forall_singleton. exists (sendRecipientIdCounter a). split; [lia|done].
  - unfold row_added. cbn. by destruct (activeSendRecipientId a).
  - unfold row_added. cbn. by destruct (activeSendRecipientId a).
Qed.

Lemma row_added_cache a : cache_ok a → cache_ok (row_added a).
Proof. intros H. unfold row_added. cbn. by destruct (activeSendRecipientId a). Qed.

Lemma rows_counter a : rows_ok a → 0 <= sendRecipientIdCounter a.
Proof. intros (Hne & _ & _ & Hid). destruct Hid as [|r rows (z & Hz & _) _]; [done|lia]. Qed.

Lemma poll_ok_page w a : txPollHandle a = txPollHandle (page w) → poll_ok w → poll_ok (with_page w a).
Proof. intros E [Hn Hp]. split; [done|]. cbn. by rewrite E. Qed.

Lemma row_added_timer a : txPollHandle (row_added a) = txPollHandle a.
Proof. unfold row_added. cbn. by destruct (activeSendRecipientId a). Qed.

Lemma keeps_addRecipientRow : keeps page_ok addRecipientRow.
Proof.
  intros w (Hc & Hp & Hr). rewrite addRecipientRow_run. split; [by apply row_added_cache|]. split.
  - apply poll_ok_page; [apply row_added_timer|done].
  - apply rows_ok_added; [by apply rows_counter|apply Hr|apply Hr].
Qed.

Lemma keeps_resetSendRecipients : keeps page_ok resetSendRecipients.
Proof.
  intros w (Hc & Hp & _). unfold resetSendRecipients. rewrite !bind_update, addRecipientRow_run.
  split; [by apply row_added_cache|]. split.
  - apply poll_ok_page; [apply row_added_timer|done].
  - apply rows_ok_added; cbn; [lia|constructor|constructor].
Qed.

Lemma NoDup_fmap_filter {A B} (f : A → B) (P : A → Prop) `{∀ x, Decision (P x)} l :
  NoDup (f <$> l) → NoDup (f <$> filter P l).
Proof.
  induction l as [|x l IH]; [done|]. rewrite fmap_cons, list.NoDup_cons, filter_cons. intros [Hx Hl].
  case_decide; [|by apply IH]. rewrite fmap_cons. apply list.NoDup_cons. split; [|by apply IH].
  intros (y & Ey & [_ Hy]%list_elem_of_filter)%list_elem_of_fmap. apply Hx, list_elem_of_fmap. by exists y.
Qed.

Lemma updateSendAmountFiat_keeps : keeps page_ok updateSendAmountFiat.
Proof. keeps_tac. Qed.

Lemma row_remove_ok w id : page_ok w → allowed (Row_remove id) w → page_ok (row_remove id w).2.
Proof.
  intros (Hc & Hp & Hne & Hnd & Hd & Hid) (r & Hr & Er & Hnone). unfold row_remove. rewrite bind_the, bind_update.
  set (rows := filter (λ r, row_id r ≠ id) (recipients (page w))).
  assert (Hlen : (1 < length (recipients (page w)))%nat).
  { rewrite list.Forall_forall in Hd. rewrite (Hd r Hr) in Hnone. unfold remove_display in Hnone.
    by destruct (Nat.ltb_spec 1 (length (recipients (page w)))). }
  assert (Hrows : rows ≠ []).
  { intros E. assert (Hall : ∀ x, x ∈ recipients (page w) → row_id x = id).
    { intros x Hx. destruct (decide (row_id x = id)); [done|].
      assert (x ∈ rows) as Hin by (by apply list_elem_of_filter). rewrite E in Hin. by apply not_elem_of_nil in Hin. }
    destruct (recipients (page w)) as [|x [|y l]]; cbn in Hlen; [lia|lia|].
    cbn in Hnd. apply list.NoDup_cons in Hnd as [Hnd _]. apply Hnd. rewrite (Hall x) by (by left).
    rewrite <- (Hall y) by (right; by left). by left. }
  rewrite run_bind. change (updateRecipientRemoveButtons ?w) with
    (@Ok unit (), with_page w (set_recipients (refreshed rows) (page w))). cbv match.
  apply updateSendAmountFiat_keeps. split; [done|]. split; [done|].
  apply (rows_ok_refreshed _ rows (sendRecipientIdCounter (page w))); [done| | |done|done].
  - by apply NoDup_fmap_filter.
  - apply list.Forall_forall. intros x [_ Hx]%list_elem_of_filter. rewrite list.Forall_forall in Hid. by apply Hid.
Qed.
End invariant.

#[export] Hint Resolve keeps_ensureKey keeps_stopTxPolling keeps_startTxPolling keeps_row_address keeps_row_amount
  keeps_addRecipientRow keeps_resetSendRecipients updateSendAmountFiat_keeps : page.

Section handlers.
  Context {PR : Primitives} {PL : PrimitiveLaws} {EN : Environment}.

(** ** The other handlers *)

Lemma keeps_combine_history gw seen acc l : keeps page_ok (combine_history gw seen acc l).
Proof. revert seen acc. induction l; intros; cbn [combine_history]; keeps_tac. Qed.

Lemma keeps_load_staking fuel : keeps page_ok (load_staking fuel).
Proof. induction fuel; cbn [load_staking]; keeps_tac. Qed.

Lemma keeps_quiz_loop fuel n l : keeps page_ok (quiz_loop fuel n l).
Proof. revert l. induction fuel; intros; cbn [quiz_loop]; keeps_tac. Qed.
End handlers.

#[export] Hint Resolve keeps_combine_history keeps_load_staking keeps_quiz_loop : page.

Section events_keep.
  Context {PR : Primitives} {PL : PrimitiveLaws} {EN : Environment}.

Lemma keeps_deriveAll : keeps page_ok deriveAllKnownAddresses.
Proof. keeps_tac. Qed.

Lemma keeps_fetchCombinedHistory : keeps page_ok fetchCombinedHistory.
Proof. keeps_tac. Qed.

Lemma keeps_showScreen name : keeps page_ok (showScreen name).
Proof. keeps_tac. Qed.

Lemma keeps_enterWallet : keeps page_ok enterWallet.
Proof.
  unfold enterWallet. apply keeps_bind; [apply keeps_deriveAll|]. intros _. apply keeps_bind.
  { intros w Hw. cbn. unfold update. cbn. by destruct (bool_decide _). }
  keeps_tac.
Qed.

(** A page with nothing cached stays right whatever phrase and network it is
    given. *)
Definition blank_ok (w : browser app) : Prop :=
  keys (page w) = ∅ ∧ addresses (page w) = ∅ ∧ poll_ok w ∧ rows_ok (page w).

Lemma blank_page w : blank_ok w → page_ok w.
Proof. intros (Hk & Ha & Hp & Hr). split; [by apply cache_ok_empty|done]. Qed.

Lemma keeps_blank {A} (m : js app A) w : keeps page_ok m → blank_ok w → page_ok (m w).2.
Proof. intros Hm Hw. by apply Hm, blank_page. Qed.

Lemma blank_open_phrase m : keeps blank_ok (open_phrase m).
Proof. keeps_tac. Qed.

Lemma keeps_then {A B} (I J : browser app → Prop) (m : js app A) (f : A → js app B) :
  (∀ w, I w → J w) → keeps I m → (∀ a w, I w → J (f a w).2) → ∀ w, I w → J ((m ≫= f) w).2.
Proof.
  intros HIJ Hm Hf w Hw. rewrite run_bind. specialize (Hm w Hw).
  destruct (m w) as [[a|e] w']; [by apply Hf|by apply HIJ].
Qed.

Lemma blank_try {A} (m : js app A) h w :
  (∀ w, blank_ok w → page_ok (m w).2) → (∀ e, keeps page_ok (h e)) → blank_ok w → page_ok (try_catch m h w).2.
Proof.
  intros Hm Hh Hw. unfold try_catch. specialize (Hm w Hw). destruct (m w) as [[a|e] w']; [done|by apply Hh].
Qed.

Lemma blank_quiz_verify w : blank_ok w → page_ok (quiz_verify w).2.
Proof.
  unfold quiz_verify. revert w. apply keeps_then; [apply blank_page|keeps_tac|]. intros m.
  apply keeps_then; [apply blank_page|keeps_tac|]. intros fields w Hw.
  destruct (negb _); [by apply blank_page|]. revert w Hw.
  apply keeps_then; [apply blank_page|keeps_tac|]. intros _.
  apply keeps_then; [apply blank_page|apply blank_open_phrase|]. intros _ w Hw.
  apply keeps_blank; [|done]. apply keeps_bind; [keeps_tac|]. intros _. apply keeps_enterWallet.
Qed.

Lemma blank_restore w : blank_ok w → page_ok (restore_confirm w).2.
Proof.
  unfold restore_confirm. revert w. apply keeps_then; [apply blank_page|keeps_tac|]. intros v w Hw.
  destruct (negb _); [by apply blank_page|]. revert w Hw.
  apply keeps_then; [apply blank_page|keeps_tac|]. intros _.
  apply keeps_then; [apply blank_page|apply blank_open_phrase|]. intros _ w Hw.
  apply keeps_blank; [apply keeps_enterWallet|done].
Qed.

Lemma blank_unlock w : blank_ok w → page_ok (unlock w).2.
Proof.
  unfold unlock. revert w. apply keeps_then; [apply blank_page|keeps_tac|]. intros pin.
  apply keeps_then; [apply blank_page|keeps_tac|]. intros _ w. apply blank_try; [|keeps_tac].
  apply keeps_then; [apply blank_page|keeps_tac|]. intros blob.
  apply keeps_then; [apply blank_page|keeps_tac|]. intros m.
  apply keeps_then; [apply blank_page|keeps_tac|]. intros _.
  apply keeps_then; [apply blank_page|keeps_tac|]. intros _ w' Hw.
  apply keeps_blank; [apply keeps_enterWallet|done].
Qed.

Lemma blank_boot w : blank_ok w → page_ok (boot w).2.
Proof.
  unfold boot. revert w. apply keeps_then; [apply blank_page|keeps_tac|]. intros b w Hw.
  destruct b; [by apply blank_page|]. revert w Hw.
  apply keeps_then; [apply blank_page|keeps_tac|]. intros stored.
  apply keeps_then; [apply blank_page|keeps_tac|]. intros _ w Hw.
  apply keeps_blank; [|done]. destruct (item_or_null stored); [apply keeps_enterWallet|keeps_tac].
Qed.

Lemma start_ok w : page_ok (start (reload w)).2.
Proof.
  unfold start. rewrite run_bind. 
  set (w1 := (refreshGateway (reload w)).2).
  change (refreshGateway (reload w)) with (@Ok unit (), w1). cbv match.
  rewrite run_bind, addRecipientRow_run. cbv match. apply blank_boot.
  split_and!; [done|done|by apply poll_ok_page|].
  assert (sendRecipientIdCounter (page w1) = 0 ∧ recipients (page w1) = []) as [E1 E2] by done.
  apply rows_ok_added; rewrite ?E1, ?E2; [lia|constructor|constructor].
Qed.

Lemma switch_ok w net : page_ok w → page_ok (switchNetwork net w).2.
Proof.
  intros (_ & Hp & Hr). unfold switchNetwork. rewrite bind_update, run_bind.
  set (w1 := with_page _ _). change (local_set "cac_network" net w1) with (@Ok unit (), (local_set "cac_network" net w1).2).
  cbv match. set (w2 := (local_set _ _ w1).2). rewrite run_bind.
  change (refreshGateway w2) with (@Ok unit (), (refreshGateway w2).2). cbv match. set (w3 := (refreshGateway w2).2).
  rewrite !bind_update. apply keeps_blank.
  - apply keeps_bind; [apply keeps_deriveAll|]. intros _. apply keeps_showScreen.
  - by split_and!.
Qed.

Lemma lock_ok w : page_ok w → page_ok (lock_now w).2.
Proof.
  intros (_ & Hp & Hr). unfold lock_now. rewrite !bind_update. apply keeps_blank; [keeps_tac|]. by split_and!.
Qed.

Lemma handler_ok e w : allowed e w → page_ok w → page_ok (handler e w).2.
Proof.
  intros Ha Hw. assert (Hblank : keys (page w) = ∅ ∧ addresses (page w) = ∅ → blank_ok w).
  { intros [Hk Hd]. destruct Hw as (_ & Hp & Hr). by split_and!. }
  destruct e; cbn [handler allowed] in *.
  all: lazymatch goal with
    | |- page_ok (quiz_verify _).2 => by apply blank_quiz_verify, Hblank
    | |- page_ok (restore_confirm _).2 => by apply blank_restore, Hblank
    | |- page_ok (unlock _).2 => by apply blank_unlock, Hblank
    | |- page_ok (lock_keydown _ _).2 =>
        unfold lock_keydown, when, spawn; destruct (String.eqb _ _); [by apply blank_unlock, Hblank|done]
    | |- page_ok (row_remove _ _).2 => by apply row_remove_ok
    | |- page_ok (switchNetwork _ _).2 => by apply switch_ok
    | |- page_ok (lock_now _).2 => by apply lock_ok
    | |- page_ok (start _).2 => apply start_ok
    | |- page_ok (?m ?x).2 => clear Ha Hblank; revert x Hw; change (keeps page_ok m); keeps_tac
    end.
Qed.

(** C7. On every page that has run through any sequence of events since it was
    opened, each handled to its end: each cached key is the one the phrase in use derives for the
    network in use, and its address stands beside it; the timers that are alive
    are exactly the one the page remembers, so there is never a second poll;
    and the send form has a row, its rows have distinct ids, and their remove
    buttons are hidden exactly when there is one row. *)
Theorem page_invariant w : reachable w → page_ok w.
Proof.
  intros (local & session & Hsteps). remember (opened local session) as w0 eqn:E0.
  assert (H0 : page_ok w0) by (subst; apply start_ok). clear E0.
  induction Hsteps as [|w w1 w2 [e Ha <-] _ IH]; [done|]. apply IH. by apply handler_ok.
Qed.

(** ** Screens and polling *)

Lemma keeps_load_screen name : keeps page_ok (load_screen name).
Proof. keeps_tac. Qed.

(** Moving to a screen leaves exactly one timer alive when the screen is home or
    history, and none otherwise. *)
Theorem polling_follows_screen w name w' :
  page_ok w → showScreen name w = (Ok (), w') →
  length (intervals w') = (if AppMain.polled name then 1 else 0)%nat.
Proof.
  intros Hw. unfold showScreen. rewrite !bind_update, run_bind.
  match goal with |- context [load_screen name ?x] => set (w1 := x) end.
  pose proof (keeps_load_screen name w1 ltac:(exact Hw)) as (_ & Hp & _).
  destruct (load_screen name w1) as [[u|e] w2]; [|done]. cbn [snd] in Hp.
  destruct (unpolled_none w2 Hp) as (Hi & _). destruct (AppMain.polled name).
  - rewrite startTxPolling_run. intros [= <-]. cbn [with_timer intervals]. by rewrite Hi.
  - rewrite stopTxPolling_run. intros [= <-]. by rewrite Hi.
Qed.
End events_keep.

Module PageExample.
Definition env : Environment := demo (λ _, None).
Definition run (e : event) (w : browser app) : browser app := (handler (PR := Toy.prims) (EN := env) e w).2.
Definition page0 : browser app := opened (PR := Toy.prims) (EN := env) ∅ ∅.
Definition visited : browser app := run Add_recipient (run (Show_screen "home") page0).
End PageExample.

Lemma page_invariant_witness :
  poll_ok PageExample.visited ∧ intervals PageExample.visited = [1%nat] ∧
  length (recipients (page PageExample.visited)) = 2%nat.
Proof.
  assert (H : page_ok (PR := Toy.prims) PageExample.visited).
  { apply (page_invariant (PR := Toy.prims) (PL := Toy.laws) (EN := PageExample.env)). exists ∅, ∅.
    apply (rtc_l _ _ (PageExample.run (Show_screen "home") PageExample.page0)).
    - apply (event_step _ _ (Show_screen "home") I). unfold PageExample.run, PageExample.page0. reflexivity.
    - apply (rtc_l _ _ PageExample.visited); [|apply rtc_refl].
      apply (event_step _ _ Add_recipient I). unfold PageExample.visited. unfold PageExample.run at 2. reflexivity. }
  split; [apply H|]. split; vm_compute; reflexivity.
Defined.

Lemma polling_follows_screen_witness :
  length (intervals (PageExample.run (Show_screen "history") PageExample.page0)) = 1%nat.
Proof.
  apply (polling_follows_screen (PR := Toy.prims) (PL := Toy.laws) (EN := PageExample.env) PageExample.page0 "history").
  - unfold PageExample.page0, opened. apply (start_ok (PR := Toy.prims) (PL := Toy.laws) (EN := PageExample.env)).
  - vm_compute. reflexivity.
Defined.
