(* ===== verification/AppLock.v ===== *)
(** * Onboarding, the lock and the network, end to end

    What the handlers of AppMain.v and AppSettings.v guarantee when they are run
    one after another, and where they fall short. *)

From Stdlib Require Import Sorted.
From S2P Require Import Prelude JsString JsNum Json JsValue Browser Primitives Address Keys Gateway Storage App AppSend AppHistory AppSettings AppMain AppEvents.

Section quiz.
  Context {PR : Primitives} {EN : Environment}.

(** ** The backup quiz *)

(** From any point on, the random stream yields every residue. *)
Definition fair (n : Z) : Prop := ∀ d r, 0 <= r < n → ∃ gap : nat, entropy (d + gap) mod n = r.

Lemma random_page n (w : browser app) : random n w = (Ok (entropy (drawn w) mod n), set_drawn w (S (drawn w))).
Proof. done. Qed.

(** A residue not drawn yet. *)
Lemma missing_residue n (l : list Z) : Z.of_nat (length l) < n → ∃ r, 0 <= r < n ∧ r ∉ l.
Proof.
  intros Hl. destruct (decide (Forall (.∈ l) (seqZ 0 n))) as [Hall|Hnot].
  - exfalso. assert (Hsub : seqZ 0 n ⊆+ l).
    { apply NoDup_submseteq; [apply NoDup_seqZ|]. intros r Hr. rewrite list.Forall_forall in Hall. by apply Hall. }
    apply submseteq_length in Hsub. rewrite length_seqZ in Hsub. lia.
  - apply not_Forall_Exists in Hnot; [|apply _]. apply list.Exists_exists in Hnot as (r & Hr & Hn).
    exists r. apply elem_of_seqZ in Hr. split; [lia|done].
Qed.

Definition quiz_ok (n : Z) (l : list Z) : Prop := NoDup l ∧ Forall (λ i, 0 <= i < n) l ∧ (length l <= 3)%nat.

Lemma quiz_ok_snoc n l i : quiz_ok n l → 0 <= i < n → i ∉ l → (length l < 3)%nat → quiz_ok n (l ++ [i]).
Proof.
  intros (Hnd & Hr & Hl) Hi Hni Hlt. split_and!.
  - apply list.NoDup_app. split; [done|]. split; [|apply NoDup_singleton]. by intros x Hx ->%list_elem_of_singleton.
  - apply Forall_app. split; [done|]. by apply Forall_singleton.
  - rewrite length_app. cbn. lia.
Qed.

Lemma quiz_loop_step fuel n l (w : browser app) :
  (length l < 3)%nat → let i := entropy (drawn w) mod n in
  quiz_loop (S fuel) n l w = quiz_loop fuel n (if bool_decide (i ∈ l) then l else l ++ [i]) (set_drawn w (S (drawn w))).
Proof. intros Hl i. cbn [quiz_loop]. destruct (Nat.leb_spec 3 (length l)); [lia|]. by rewrite run_bind, random_page. Qed.

Lemma quiz_loop_ends n m : 3 <= n → fair n → ∀ l w, quiz_ok n l → m = (3 - length l)%nat →
  ∃ fuel l' d, quiz_loop fuel n l w = (Ok (Some l'), set_drawn w d) ∧ quiz_ok n l' ∧ length l' = 3%nat.
Proof.
  intros Hn Hfair. induction m as [m IHm] using lt_wf_ind. intros l w Hl Hm.
  destruct (Nat.leb_spec 3 (length l)) as [H3|Hlt].
  { exists 0%nat, l, (drawn w). cbn [quiz_loop]. destruct (Nat.leb_spec 3 (length l)); [|lia].
    split; [by destruct w|]. split; [done|]. destruct Hl as (_ & _ & ?). lia. }
  destruct (missing_residue n l ltac:(lia)) as (r & Hr & Hnr). destruct (Hfair (drawn w) r Hr) as [gap Hgap].
  assert (Hgo : entropy (drawn w + gap) mod n ∉ l) by (by rewrite Hgap). clear Hgap Hnr.
  revert w Hgo. induction gap as [|gap IHgap]; intros w Hgo.
  all: set (i := entropy (drawn w) mod n); assert (Hi : 0 <= i < n) by (apply Z.mod_pos_bound; lia).
  all: destruct (bool_decide_reflect (i ∈ l)) as [Hin|Hout].
  - by rewrite Nat.add_0_r in Hgo.
  - destruct (IHm (3 - length (l ++ [i]))%nat ltac:(rewrite length_app; cbn; lia) (l ++ [i]) (set_drawn w (S (drawn w))))
      as (fuel & l' & d & E & H'); [by apply quiz_ok_snoc|done|].
    exists (S fuel), l', d. split; [|done]. rewrite quiz_loop_step by done. cbv zeta. fold i.
    rewrite bool_decide_eq_false_2 by done. exact E.
  - destruct (IHgap (set_drawn w (S (drawn w)))) as (fuel & l' & d & E & H').
    { cbn. by replace (S (drawn w + gap)) with (drawn w + S gap)%nat by lia. }
    exists (S fuel), l', d. split; [|done]. rewrite quiz_loop_step by done. cbv zeta. fold i.
    rewrite bool_decide_eq_true_2 by done. exact E.
  - destruct (IHm (3 - length (l ++ [i]))%nat ltac:(rewrite length_app; cbn; lia) (l ++ [i]) (set_drawn w (S (drawn w))))
      as (fuel & l' & d & E & H'); [by apply quiz_ok_snoc|done|].
    exists (S fuel), l', d. split; [|done]. rewrite quiz_loop_step by done. cbv zeta. fold i.
    rewrite bool_decide_eq_false_2 by done. exact E.
Qed.

(** More fuel than the loop needs changes nothing. *)
Lemma quiz_loop_more fuel k n l l' (w w' : browser app) :
  quiz_loop fuel n l w = (Ok (Some l'), w') → quiz_loop (fuel + k) n l w = (Ok (Some l'), w').
Proof.
  revert l w. induction fuel as [|fuel IH]; intros l w.
  - cbn [quiz_loop Nat.add]. destruct (3 <=? length l)%nat eqn:E3; [|done]. intros H.
    destruct k; cbn [quiz_loop]; by rewrite E3.
  - cbn [Nat.add quiz_loop]. destruct (3 <=? length l)%nat; [done|]. rewrite !run_bind, random_page. cbv match. apply IH.
Qed.

Lemma insert_index_perm i l : insert_index i l ≡ₚ i :: l.
Proof. induction l as [|j l IH]; [done|]. cbn [insert_index]. destruct (i <? j); [done|]. rewrite IH. apply Permutation_swap. Qed.
Lemma sort_indices_perm l : sort_indices l ≡ₚ l.
Proof.
  unfold sort_indices. assert (H : ∀ acc, foldl (λ acc i, insert_index i acc) acc l ≡ₚ l ++ acc); [|by rewrite H, app_nil_r].
  induction l as [|t l IH]; intros acc; [done|]. cbn [foldl]. rewrite IH, insert_index_perm. by rewrite <- Permutation_middle.
Qed.
Lemma insert_index_sorted i l : Sorted Z.le l → Sorted Z.le (insert_index i l).
Proof.
  induction 1 as [|j l Hl IH Hhd]; [by repeat constructor|]. cbn [insert_index]. destruct (Z.ltb_spec i j).
  - constructor; [by constructor|]. constructor. lia.
  - constructor; [done|]. destruct l as [|v l]; cbn [insert_index]; [by constructor|].
    destruct (Z.ltb_spec i v); [by constructor|]. by inversion Hhd; constructor.
Qed.
Lemma sort_indices_sorted l : Sorted Z.le (sort_indices l).
Proof.
  unfold sort_indices. assert (H : ∀ acc, Sorted Z.le acc → Sorted Z.le (foldl (λ acc i, insert_index i acc) acc l)).
  { induction l as [|t l IH]; intros acc Ha; [done|]. apply IH. by apply insert_index_sorted. }
  apply H. constructor.
Qed.

(** C39. The loop that picks the words of the backup quiz ends whenever the phrase
    has three words and every position keeps turning up in the random stream:
    some number of draws is enough, more of them change nothing, and the quiz
    then asks for three different words of the phrase, in order. *)
Theorem quiz_ends phrase n w :
  n = Z.of_nat (length (js_split " " phrase)) → 3 <= n → fair n →
  ∃ fuel w', (∀ more, showMnemonicQuiz (fuel + more) phrase w = (Ok true, w')) ∧
    length (quizFields (page w')) = 3%nat ∧ NoDup (quiz_index <$> quizFields (page w')) ∧
    Sorted Z.le (quiz_index <$> quizFields (page w')) ∧
    Forall (λ q, 0 <= quiz_index q < n ∧ quiz_value q = "") (quizFields (page w')).
Proof.
  intros En Hn Hf. destruct (quiz_loop_ends n 3 Hn Hf [] w) as (fuel & l & d & E & (Hnd & Hr & _) & Hl).
  { split_and!; [constructor|constructor|cbn; lia]. } { done. }
  exists fuel. eexists. split.
  { intros more. unfold showMnemonicQuiz. rewrite <- En. rewrite run_bind, (quiz_loop_more _ _ _ _ _ _ _ E). reflexivity. }
  cbn. rewrite <- list_fmap_compose. unfold compose. cbn. rewrite list_fmap_id.
  pose proof (sort_indices_perm l) as Hp. split_and!.
  - by rewrite length_fmap, Hp.
  - by rewrite Hp.
  - apply sort_indices_sorted.
  - apply Forall_fmap. rewrite Hp. eapply Forall_impl; [|exact Hr]. done.
Qed.
End quiz.

(** The demonstration stream steps through every residue of 4. *)
Lemma demo_fair srv : @fair (demo srv) 4.
Proof.
  intros d r Hr. exists (Z.to_nat ((r - 3 - Z.of_nat d) mod 4)). cbn [entropy demo].
  rewrite Nat2Z.inj_add, Z2Nat.id by (apply Z.mod_pos_bound; lia).
  pose proof (Z.div_mod (r - 3 - Z.of_nat d) 4 ltac:(lia)) as H. set (q := (r - 3 - Z.of_nat d) / 4) in *.
  set (g := (r - 3 - Z.of_nat d) mod 4) in *. clearbody q g.
  replace ((Z.of_nat d + g) * 37 + 11) with (r + (9 * (Z.of_nat d + g) + 2 - q) * 4) by lia.
  rewrite Z.mod_add by lia. by apply Z.mod_small.
Qed.

Lemma quiz_ends_witness :
  ∃ fuel w', showMnemonicQuiz (EN := demo (λ _, None)) (fuel + 0) "one two three four" (new_browser (initial_app ∅ ∅)) = (Ok true, w').
Proof.
  destruct (quiz_ends (EN := demo (λ _, None)) "one two three four" 4 (new_browser (initial_app ∅ ∅)))
    as (fuel & w' & H & _).
  - vm_compute. reflexivity.
  - lia.
  - apply demo_fair.
  - exists fuel, w'. apply H.
Defined.

(** ** The lock *)

Section lock.
  Context {PR : Primitives} {PL : PrimitiveLaws} {EN : Environment}.

Lemma refresh_lock_run w : ∃ w', refreshLockCardVisibility w = (Ok (), w') ∧ page w' = page w ∧ local w' = local w.
Proof. eexists. split; [reflexivity|]. done. Qed.

Lemma mnemonic_text_run w : mnemonic_text w = (Ok (default "null" (mnemonic (page w))), w).
Proof. done. Qed.

(** "Set PIN" with a good PIN typed twice. *)
Lemma set_pin_run w m pin :
  mnemonic (page w) = Some m → is_prefix [chr 0xEF; chr 0xBB; chr 0xBF] (chars m) = false →
  dom w !! ("set-pin", "value") = Some pin → dom w !! ("set-pin-confirm", "value") = Some pin → 4 <= js_length pin →
  ∃ w', set_pin w = (Ok (), w') ∧ page w' = page w ∧ local w' !! "cac_mnemonic" = None ∧
    ∃ blob, (∀ w'' : browser app, local w'' = local w' → loadEncryptedBlob w'' = (Ok blob, w'')) ∧
      decryptMnemonic (Some blob) pin = Ok m.
Proof.
  intros Hm Hbom Hp Hc Hl. unfold set_pin. rewrite run_bind. set (w1 := (text "lock-settings-error" "" w).2).
  change (text "lock-settings-error" "" w) with (@Ok unit (), w1). cbv match. rewrite run_bind.
  set (w2 := (text "lock-settings-success" "" w1).2).
  change (text "lock-settings-success" "" w1) with (@Ok unit (), w2). cbv match. rewrite !bind_value.
  assert (H1 : dom w2 !! ("set-pin", "value") = Some pin) by (cbn; by rewrite !lookup_insert_ne by done).
  assert (H2 : dom w2 !! ("set-pin-confirm", "value") = Some pin) by (cbn; by rewrite !lookup_insert_ne by done).
  rewrite H1, H2. change (default "" (Some pin)) with pin. destruct (Z.ltb_spec (js_length pin) 4); [lia|]. rewrite String.eqb_refl. cbn [negb].
  rewrite run_bind, mnemonic_text_run. cbv match. change (mnemonic (page w2)) with (mnemonic (page w)). rewrite Hm.
  change (default "null" (Some m)) with m. rewrite run_bind.
  destruct (setPin_opens m pin w2 Hbom) as (w3 & -> & Hloc & _ & (blob & Hb & Hd) & _ & _ & Hpage & _). cbv match.
  rewrite run_bind. set (w4 := (set_value "set-pin" "" w3).2). change (set_value "set-pin" "" w3) with (@Ok unit (), w4).
  cbv match. rewrite run_bind. set (w5 := (set_value "set-pin-confirm" "" w4).2).
  change (set_value "set-pin-confirm" "" w4) with (@Ok unit (), w5). cbv match. rewrite run_bind.
  match goal with |- context [text ?a ?b w5] => set (w6 := (text a b w5).2); change (text a b w5) with (@Ok unit (), w6) end.
  cbv match. destruct (refresh_lock_run w6) as (w' & E & Ep & El). exists w'. split; [exact E|].
  split; [by rewrite Ep|]. split; [by rewrite El|]. exists blob. split; [|done]. intros w'' Hw. rewrite El in Hw.
  unfold loadEncryptedBlob in *. rewrite run_bind. rewrite run_bind in Hb. unfold local_get in *. rewrite Hw.
  change (local w6) with (local w3). unfold lift in *. by injection Hb as ->.
Qed.

(** The page once it is locked. *)
Definition locked (a : app) : app := set_screen None (set_addresses ∅ (set_keys ∅ (set_mnemonic None a))).

Lemma lock_now_run w : ∃ w', lock_now w = (Ok (), w') ∧ page w' = locked (page w) ∧ local w' = local w.
Proof.
  unfold lock_now. rewrite !bind_update, run_bind. set (w1 := with_page _ _).
  change (show_el "tabbar" "none" w1) with (@Ok unit (), (show_el "tabbar" "none" w1).2). cbv match.
  rewrite bind_update. eexists. split; [reflexivity|]. split; reflexivity.
Qed.

(** "Unlock" when the record opens with the PIN typed, and when it does not. *)
Lemma unlock_run (w : browser app) blob pin :
  dom w !! ("lock-pin", "value") = Some pin →
  (∀ w'' : browser app, local w'' = local w → loadEncryptedBlob w'' = (Ok blob, w'')) →
  match decryptMnemonic (Some blob) pin with
  | Ok m => ∃ w', page w' = set_mnemonic (Some m) (page w) ∧ local w' = local w ∧
      unlock w = try_catch enterWallet (λ _, text "lock-error" "Incorrect PIN.") w'
  | Throw _ => ∃ w', unlock w = (Ok (), w') ∧ page w' = page w ∧ local w' = local w ∧
      dom w' !! ("lock-error", "textContent") = Some "Incorrect PIN."
  end.
Proof.
  intros Hp Hb. unfold unlock. rewrite bind_value, Hp, run_bind. change (default "" (Some pin)) with pin.
  set (w1 := (text "lock-error" "" w).2). change (text "lock-error" "" w) with (@Ok unit (), w1). cbv match.
  match goal with |- context [try_catch ?m _ w1] => set (body := m) end.
  assert (E : body w1 = match decryptMnemonic (Some blob) pin with
    | Ok m => enterWallet (set_value "lock-pin" "" (with_page w1 (set_mnemonic (Some m) (page w1)))).2
    | Throw e => (Throw e, w1)
    end).
  { unfold body. rewrite run_bind, (Hb w1 eq_refl). cbv match. rewrite bind_lift. by destruct (decryptMnemonic _ _). }
  clearbody body. unfold try_catch. rewrite E. destruct (decryptMnemonic (Some blob) pin) as [m|e].
  - exists (set_value "lock-pin" "" (with_page w1 (set_mnemonic (Some m) (page w1)))).2. done.
  - eexists. split; [reflexivity|]. split; [done|]. split; [done|]. cbn. apply lookup_insert_eq.
Qed.

(** C29. Setting a PIN, locking and unlocking.  With the PIN set the phrase is no
    longer stored as text; locking clears the phrase in use ([state.mnemonic]), the
    keys and the addresses; the same PIN opens the same phrase again, and the wallet is
    entered with it; and a PIN under which the stored record does not decrypt leaves
    the page locked, with an error. *)
Theorem lock_unlock w m pin :
  mnemonic (page w) = Some m → is_prefix [chr 0xEF; chr 0xBB; chr 0xBF] (chars m) = false →
  dom w !! ("set-pin", "value") = Some pin → dom w !! ("set-pin-confirm", "value") = Some pin → 4 <= js_length pin →
  let w1 := (set_pin w).2 in let w2 := (lock_now w1).2 in
  local w2 !! "cac_mnemonic" = None ∧ page w2 = locked (page w) ∧
  (∃ w3, page w3 = set_mnemonic (Some m) (page w2) ∧
     unlock (set_value "lock-pin" pin w2).2 = try_catch enterWallet (λ _, text "lock-error" "Incorrect PIN.") w3) ∧
  ∃ blob, loadEncryptedBlob w2 = (Ok blob, w2) ∧ ∀ pin', is_ok (decryptMnemonic (Some blob) pin') = false →
    ∃ w3, unlock (set_value "lock-pin" pin' w2).2 = (Ok (), w3) ∧ page w3 = page w2 ∧
      dom w3 !! ("lock-error", "textContent") = Some "Incorrect PIN.".
Proof.
  intros Hm Hbom Hp Hc Hl w1 w2.
  destruct (set_pin_run w m pin Hm Hbom Hp Hc Hl) as (w1' & E1 & Hp1 & Hn & blob & Hb & Hd).
  assert (Ew1 : w1 = w1') by (unfold w1; by rewrite E1). destruct (lock_now_run w1') as (w2' & E2 & Hp2 & Hl2).
  assert (Ew2 : w2 = w2') by (unfold w2; by rewrite Ew1, E2). clearbody w1 w2. subst w1 w2. rewrite Hp1 in Hp2.
  assert (Hpin : ∀ p, dom (set_value "lock-pin" p w2').2 !! ("lock-pin", "value") = Some p).
  { intros p. apply lookup_insert_eq. }
  assert (Hload : ∀ p (w'' : browser app), local w'' = local (set_value "lock-pin" p w2').2 →
    loadEncryptedBlob w'' = (Ok blob, w'')).
  { intros p w'' E. apply Hb. rewrite E. exact Hl2. }
  split; [by rewrite Hl2|]. split; [done|]. split.
  - pose proof (unlock_run _ blob pin (Hpin pin) (Hload pin)) as H. rewrite Hd in H.
    destruct H as (w3 & H1 & _ & H2). by exists w3.
  - exists blob. split; [by apply Hb|]. intros pin' Hf. pose proof (unlock_run _ blob pin' (Hpin pin') (Hload pin')) as H.
    destruct (decryptMnemonic (Some blob) pin'); [done|]. destruct H as (w3 & H1 & H2 & _ & H3). by exists w3.
Qed.
End lock.

Lemma lock_unlock_witness :
  let w0 := new_browser (set_mnemonic (Some "abandon about") (initial_app ∅ ∅)) in
  let w := (set_value "set-pin-confirm" "2580" (set_value "set-pin" "2580" w0).2).2 in
  local (lock_now (set_pin (PR := Toy.prims) (EN := demo (λ _, None)) w).2).2 !! "cac_mnemonic" = None.
Proof.
  intros w0 w. destruct (lock_unlock (PR := Toy.prims) (PL := Toy.laws) (EN := demo (λ _, None)) w "abandon about" "2580")
    as (H & _).
  - reflexivity.
  - reflexivity.
  - reflexivity.
  - reflexivity.
  - vm_compute. congruence.
  - exact H.
Defined.

(** ** What the lock leaves *)

Module LockExample.
Definition env : Environment := demo (λ _, None).
Definition run (w : browser app) (e : event) : browser app := (handler (PR := Toy.prims) (EN := env) e w).2.
Definition page0 : browser app := opened (PR := Toy.prims) (EN := env) ∅ ∅.

(** The user writes a new phrase down, answers the quiz and sees the wallet. *)
Definition quizzed : browser app := foldl run page0 [Create_wallet; Mnemonic_continue 20].
Definition phrase : string := default "" (pendingMnemonic (page quizzed)).
Definition answers : list event :=
  imap (λ i q, Quiz_type i (nth (Z.to_nat (quiz_index q)) (js_split " " phrase) "")) (quizFields (page quizzed)).
Definition open : browser app := foldl run quizzed (answers ++ [Quiz_verify]).
(** A PIN is set and the wallet locked. *)
Definition locked : browser app :=
  foldl run open [Typed "set-pin" "2580"; Typed "set-pin-confirm" "2580"; Set_pin; Lock_now].
End LockExample.

(** Locking does not remove the phrase from the page.  After a wallet is created
    on a page, a PIN set and the wallet locked, the phrase is gone from the
    storage and from [state.mnemonic]; but [state._pendingMnemonic] and the text
    of the onboarding card still hold it. *)
Theorem lock_leaves_phrase :
  mnemonic (page LockExample.open) = Some LockExample.phrase ∧
  local LockExample.locked !! "cac_mnemonic" = None ∧ mnemonic (page LockExample.locked) = None ∧
  pendingMnemonic (page LockExample.locked) = Some LockExample.phrase ∧
  dom LockExample.locked !! ("new-mnemonic", "textContent") = Some LockExample.phrase.
Proof. split_and!; vm_compute; reflexivity. Qed.

(** ** The network switch *)

Module SwitchExample.
(** The server knows one old, confirmed transaction per network. *)
Definition srv (h : list request) : option reply :=
  let ok v := Some {| status := 200; body := stringify v |} in
  let tx id := JObj [("transactions", JArr [JObj [("txid", JStr id); ("height", jint 5)]])] in
  match list.last h with
  | Some r =>
      if js_includes (r_url r) "/history" then
        ok (tx (if js_starts_with (r_url r) "https://test" then "old testnet payment" else "old mainnet payment"))
      else None
  | None => None
  end.
Definition env : Environment := demo srv.
Definition run (w : browser app) (e : event) : browser app := (handler (PR := Toy.prims) (EN := env) e w).2.
Definition store (net : string) : gmap string string :=
  <["cac_mnemonic" := "seed words"]> (<["cac_network" := net]> {["cac_gateway_url_testnet" := "https://test"]}).
Definition opened_on (net : string) : browser app := opened (PR := Toy.prims) (EN := env) (store net) ∅.
Definition banner (w : browser app) : option string := dom w !! ("new-tx-banner-text", "textContent").
End SwitchExample.

(** The ids already seen are not forgotten when the network changes.  A page
    opened on testnet seeds them at its first poll and announces nothing; a
    page that polled on mainnet and then switches to testnet announces the same
    old transaction as a new one. *)
Theorem switch_announces_old :
  SwitchExample.banner (foldl SwitchExample.run (SwitchExample.opened_on "testnet") [Poll; Poll]) = None ∧
  SwitchExample.banner (foldl SwitchExample.run (SwitchExample.opened_on "mainnet") [Poll; Switch "testnet"; Poll]) =
    Some "1 new transaction".
Proof. split; vm_compute; reflexivity. Qed.
