(* ===== verification/Dart.v ===== *)
(** * Dart, as the mobile wallet uses it

    The language behind cac_wallet/lib: 64-bit integers that wrap around,
    [int.parse], typed byte lists, ranges that throw.  A Dart [throw] is a value
    of [exn] under the name of its class; text is held as in [JsString], one
    byte per character for the hexadecimal strings read here. *)

From S2P Require Import Prelude JsString JsNum Amount Hex.

(** ** Exceptions *)

Definition ArgumentError (m : string) : exn := ExHost "ArgumentError" m.
Definition StateError (m : string) : exn := ExHost "StateError" m.
Definition FormatException (m : string) : exn := ExHost "FormatException" m.
Definition RangeError (m : string) : exn := ExHost "RangeError" m.
(** What a failed [as] raises. *)
Definition TypeError (m : string) : exn := ExHost "TypeError" m.

(** ** Integers *)

(** The value a 64-bit integer keeps. *)
Definition dart_int (z : Z) : Z := (z + 2 ^ 63) mod 2 ^ 64 - 2 ^ 63.

(** [a << n] for [0 <= n < 64]; [>>] keeps the sign, [&] and [|] are exact. *)
Definition dart_shl (a n : Z) : Z := dart_int (Z.shiftl a n).

(** [int.parse(s, radix: radix)]: blanks around, a sign, then digits and nothing
    else; no [0x], and a value that does not fit 64 bits is refused. *)
Definition trim_chars (l : list ascii) : list ascii :=
  reverse (drop_spaces (reverse (drop_spaces l))).
Fixpoint all_digits (radix : Z) (l : list ascii) : option (list Z) :=
  match l with
  | [] => Some []
  | c :: l => d ← digit_val c; if d <? radix then cons d <$> all_digits radix l else None
  end.
Definition int_tryParse (radix : Z) (l : list ascii) : option Z :=
  let '(neg, l) := split_sign (trim_chars l) in
  ds ← all_digits radix l;
  match ds with
  | [] => None
  | _ => let z := if neg then - of_digits radix ds else of_digits radix ds in
         if z =? dart_int z then Some z else None
  end.
Definition int_parse (radix : Z) (l : list ascii) : result Z :=
  match int_tryParse radix l with
  | Some z => Ok z
  | None => Throw (FormatException "Invalid number")
  end.

(** [BigInt.parse(s)] and [int.parse(s)], which also read [0x] before the digits;
    a hexadecimal [int] may use all 64 bits. *)
Definition parse_literal (l : list ascii) : option (bool * Z) :=
  let '(neg, l) := split_sign (trim_chars l) in
  let '(radix, l) := match l with
    | a :: b :: l' => if Ascii.eqb a "0" && Ascii.eqb (lower_char b) "x" then (16, l') else (10, l)
    | _ => (10, l)
    end in
  ds ← all_digits radix l;
  match ds with
  | [] => None
  | _ => Some (radix =? 16, if neg then - of_digits radix ds else of_digits radix ds)
  end.
Definition bigint_parse (s : string) : result Z :=
  match parse_literal (chars s) with
  | Some (_, z) => Ok z
  | None => Throw (FormatException "Could not parse BigInt")
  end.
Definition int_tryParse10 (s : string) : option Z :=
  match parse_literal (chars s) with
  | Some (hex, z) => if (z =? dart_int z) || (hex && (0 <=? z) && (z <? 2 ^ 64)) then Some (dart_int z) else None
  | None => None
  end.
Definition int_parse10 (s : string) : result Z :=
  match int_tryParse10 s with Some z => Ok z | None => Throw (FormatException "Invalid number") end.

(** ** Doubles *)

Definition float_exponent (l : list ascii) : option Z :=
  match l with
  | [] => Some 0
  | c :: l =>
      if Ascii.eqb (lower_char c) "e" then
        let '(neg, l) := split_sign l in
        ds ← all_digits 10 l;
        match ds with
        | [] => None
        | _ => Some (if neg then - of_digits 10 ds else of_digits 10 ds)
        end
      else None
  end.
(** Digits, a point and more digits (at least one digit in all), an exponent, and
    nothing after it. *)
Definition float_literal (l : list ascii) : option num :=
  if bool_decide (l = chars "Infinity") then Some (Inf false) else if bool_decide (l = chars "NaN") then Some NaN else
  let ds := take_digits 10 l in
  let rest := drop (length ds) l in
  let '(fs, rest) :=
    match rest with
    | c :: r => if Ascii.eqb c "." then let fs := take_digits 10 r in (fs, drop (length fs) r) else ([], rest)
    | [] => ([], [])
    end in
  e ← float_exponent rest;
  match ds ++ fs with
  | [] => None
  | all => Some (decimal (of_digits 10 all) (e - Z.of_nat (length fs)))
  end.
(** [double.tryParse(s)] *)
Definition double_tryParse (s : string) : option num :=
  let '(neg, l) := split_sign (trim_chars (chars s)) in
  x ← float_literal l;
  Some (if neg then num_opp x else x).

(** [x.round()]: halves away from zero, the nearest integer of 64 bits. *)
Definition dart_round (x : num) : result Z :=
  match x with
  | Fin m e =>
      let r := if 0 <=? e then Z.abs m * 2 ^ e else (Z.abs m + 2 ^ (- e - 1)) / 2 ^ (- e) in
      Ok (Z.max (- 2 ^ 63) (Z.min (2 ^ 63 - 1) (Z.sgn m * r)))
  | _ => Throw (ExHost "UnsupportedError" "Infinity or NaN toInt")
  end.
(** [(amountCac * 100000000).round()] *)
Definition cac_satoshis (amountCac : num) : result Z := dart_round (num_mul amountCac (Fin 100000000 0)).

(** ** Lists *)

(** [Uint8List.fromList(l)] *)
Definition fromList (l : list Z) : bytes := to_u8 <$> l.

(** [l[i]] *)
Definition index {A} (l : list A) (i : nat) : result A :=
  match l !! i with Some x => Ok x | None => Throw (RangeError "index") end.

(** [l.sublist(s, e)] *)
Definition sublist {A} (l : list A) (s e : nat) : result (list A) :=
  if (s <=? e)%nat && (e <=? length l)%nat then Ok (take (e - s) (drop s l))
  else Throw (RangeError "end").

(** [Uint8List(n)..setRange(off, off + length, src)] writes [src] at [off]; a
    destination that is too short throws, as does [u8_set]. *)

(** Two programs that return the same value, or both throw. *)
Definition agrees {A} (x y : result A) : Prop :=
  match x, y with
  | Ok a, Ok b => a = b
  | Throw _, Throw _ => True
  | _, _ => False
  end.

(** ** Hexadecimal (transaction.dart; the other libraries hold copies) *)

Definition _bytesToHexLocal (b : bytes) : string :=
  of_chars (mjoin ((λ x, pad_start 2 "0"%char (digits_string 16 x)) <$> b)).

(** [out[i] = int.parse(hex.substring(i * 2, i * 2 + 2), radix: 16)] *)
Definition _hexToBytesLocal (hex : string) : result bytes :=
  mapR (λ i, to_u8 <$> int_parse 16 (js_substr (chars hex) (i * 2) 2)) (seq 0 (length (chars hex) / 2)).

Definition _hexToBytesReversedLocal (hex : string) : result bytes :=
  bytes ← _hexToBytesLocal hex; mret (fromList (reverse bytes)).

(** A hexadecimal digit of either case. *)
Definition hex_digit (c : ascii) : bool :=
  match digit_val c with Some d => d <? 16 | None => false end.
Definition hex_text (s : string) : bool := forallb hex_digit (chars s).

(** ** Lemmas *)

Lemma agrees_ok {A} (x y : result A) a : agrees x y → x = Ok a → y = Ok a.
Proof. destruct x, y; simpl; naive_solver. Qed.

Lemma agrees_ok_r {A} (x y : result A) a : agrees x y → y = Ok a → x = Ok a.
Proof. destruct x, y; simpl; naive_solver. Qed.

Lemma dart_int_small z : - 2 ^ 63 <= z < 2 ^ 63 → dart_int z = z.
Proof. intros ?. unfold dart_int. rewrite Z.mod_small by lia. lia. Qed.

Lemma dart_int_range z : - 2 ^ 63 <= dart_int z < 2 ^ 63.
Proof. unfold dart_int. pose proof (Z.mod_pos_bound (z + 2 ^ 63) (2 ^ 64)). lia. Qed.

Lemma dart_int_mod z : dart_int z mod 2 ^ 64 = z mod 2 ^ 64.
Proof.
  unfold dart_int. rewrite Zminus_mod_idemp_l. f_equal. lia.
Qed.

(** The bits below 64 are those of the unbounded integer. *)
Lemma dart_int_mod_pow2 z k : 0 <= k <= 64 → dart_int z mod 2 ^ k = z mod 2 ^ k.
Proof.
  intros Hk. assert (Hd : (2 ^ k | 2 ^ 64)).
  { exists (2 ^ (64 - k)). rewrite <- Z.pow_add_r by lia. f_equal. lia. }
  by rewrite <- (Z.mod_mod_divide (dart_int z) _ _ Hd), <- (Z.mod_mod_divide z _ _ Hd), dart_int_mod.
Qed.

Lemma fromList_bytes l : all_bytes l → fromList l = l.
Proof. apply all_bytes_map_u8. Qed.

Lemma fromList_all_bytes l : all_bytes (fromList l).
Proof. apply Forall_fmap, Forall_forall. intros. apply to_u8_byte. Qed.

Lemma digit_not_letter d : is_digit 10 d → digit_char d ≠ "I"%char ∧ digit_char d ≠ "N"%char.
Proof.
  intros Hd. unfold is_digit in Hd.
  assert (d = 0 ∨ d = 1 ∨ d = 2 ∨ d = 3 ∨ d = 4 ∨ d = 5 ∨ d = 6 ∨ d = 7 ∨ d = 8 ∨ d = 9) as Hc by lia.
  by repeat destruct Hc as [->|Hc]; [..|subst].
Qed.

Lemma formatCac_plain n c : 0 <= n → c ∈ chars (formatCac n) → is_space c = false.
Proof.
  intros Hn. destruct (formatCac_digits n Hn) as (ds & fs & -> & Hd & _).
  assert (Hdig : ∀ d, d ∈ ds ++ fs → is_space (digit_char d) = false).
  { intros d Hin. apply digit_char_space. rewrite list.Forall_forall in Hd. specialize (Hd d Hin). unfold is_digit in Hd. lia. }
  rewrite elem_of_app, elem_of_cons. intros [Hc|[->|Hc]]; [|done|];
    apply list_elem_of_fmap in Hc as (d & -> & Hin); apply Hdig, elem_of_app; auto.
Qed.

(** An amount written with eight decimals is read as the double nearest to it. *)
Lemma double_formatCac n : 0 <= n → double_tryParse (formatCac n) = Some (rnd n COIN).
Proof.
  intros Hn. assert (Hplain := λ c, formatCac_plain n c Hn). unfold double_tryParse, trim_chars.
  rewrite (drop_spaces_plain (chars _)) by done.
  rewrite (drop_spaces_plain (reverse _)), reverse_involutive by (intros c Hc; apply Hplain; by apply elem_of_reverse).
  destruct (formatCac_digits n Hn) as (ds & fs & -> & Hd & Hne & Hl & Hv). apply Forall_app in Hd as [Hd Hf].
  destruct ds as [|d tl]; [done|]. pose proof Hd as Hd'. apply Forall_cons_iff in Hd' as [Hdd _].
  destruct (digit_not_letter d Hdd) as [HI HN]. unfold is_digit in Hdd. rewrite fmap_cons. cbn [app]. unfold split_sign.
  destruct (digit_char_sign d ltac:(lia)) as [H1 H2].
  destruct (Ascii.eqb_spec (digit_char d) "-"); [done|]. destruct (Ascii.eqb_spec (digit_char d) "+"); [done|].
  unfold float_literal. rewrite !bool_decide_eq_false_2 by (by intros [= ? _]).
  change (digit_char d :: (digit_char <$> tl) ++ ?k) with ((digit_char <$> d :: tl) ++ k).
  rewrite take_digits_app by (done || lia).
  change (take_digits 10 ("."%char :: _)) with (@nil Z). rewrite app_nil_r.
  rewrite <- (length_fmap digit_char (d :: tl)), drop_app_length.
  cbn [Ascii.eqb Bool.eqb]. pose proof (take_digits_app 10 fs [] ltac:(lia) Hf) as Ht.
  rewrite !app_nil_r in Ht. rewrite Ht.
  rewrite drop_ge by (rewrite length_fmap; lia). cbn [app] in Hv |- *. cbn [float_exponent mbind option_bind].
  rewrite Hv, Hl. done.
Qed.

Lemma cac_positive n : 0 < n < 2 ^ 25 * COIN → num_le0 (rnd n COIN) = false.
Proof.
  unfold COIN. intros Hn. destruct (rnd_fraction n 100000000) as (m & s & -> & _ & _ & Herr & Hmag); [lia|lia| | |].
  - apply not_true_is_false. rewrite ratio_ge_true by lia. lia.
  - apply ratio_ge_neg; [lia|]. assert (100000000 <= 2 ^ 1022) by by vm_compute. change (- -1022) with 1022. nia.
  - cbn. apply Z.leb_gt. lia.
Qed.

(** ... and the number of satoshis it stands for comes back, below 2^25 coins. *)
Lemma cac_satoshis_decimal n : 0 < n < 2 ^ 25 * COIN → cac_satoshis (rnd n COIN) = Ok n.
Proof.
  intros Hn. unfold cac_satoshis, COIN in *. destruct (satoshi_product n Hn) as (m & s & -> & Hs & Herr).
  unfold dart_round. destruct (Z.leb_spec 0 (- s)); [lia|]. rewrite Z.opp_involutive.
  assert (HB : 2 ^ s = 2 * 2 ^ (s - 1)) by (rewrite <- Z.pow_succ_r by lia; f_equal; lia).
  assert (0 < 2 ^ (s - 1)) by (apply Z.pow_pos_nonneg; lia). assert (0 < m) by nia.
  rewrite Z.abs_eq, Z.sgn_pos, Z.mul_1_l by lia. f_equal.
  assert (E : n = (m + 2 ^ (s - 1)) / 2 ^ s); [|rewrite <- E; lia].
  apply (Z.div_unique_pos _ _ _ (m + 2 ^ (s - 1) - 2 ^ s * n)); [|lia]. lia.
Qed.

(** The digits of both cases, to check a property of pairs by evaluation. *)
Definition hex_digits : list ascii := chars "0123456789abcdefABCDEF".

Lemma hex_digit_elem c : hex_digit c = true → c ∈ hex_digits.
Proof.
  intros Hc. assert (H : implb (hex_digit (chr (code c))) (bool_decide (chr (code c) ∈ hex_digits)) = true).
  { generalize (code_range c). generalize (code c). apply byte_cases. by vm_compute. }
  rewrite chr_code, Hc in H. by apply bool_decide_eq_true in H.
Qed.

(** On two digits [int.parse] and [parseInt] read the same byte. *)
Lemma int_parse_pair c d :
  hex_digit c = true → hex_digit d = true → to_u8 <$> int_parse 16 [c; d] = Ok (hexPair [c; d] 0).
Proof.
  intros Hc%hex_digit_elem Hd%hex_digit_elem.
  assert (H : forallb (λ c, forallb (λ d,
    bool_decide (int_tryParse 16 [c; d] = Some (hexPair [c; d] 0))) hex_digits) hex_digits = true) by by vm_compute.
  rewrite forallb_forall in H. specialize (H c (proj1 (list_elem_of_In _ _) Hc)).
  rewrite forallb_forall in H. specialize (H d (proj1 (list_elem_of_In _ _) Hd)).
  apply bool_decide_eq_true in H. unfold int_parse. rewrite H. cbn [fmap result_fmap].
  by rewrite to_u8_id by apply hexPair_byte.
Qed.

Lemma take_two {A} (l : list A) (j : nat) :
  (S j < length l)%nat → ∃ c d, take 2 (drop j l) = [c; d] ∧ l !! j = Some c ∧ l !! S j = Some d.
Proof.
  intros Hj. destruct (lookup_lt_is_Some_2 l j ltac:(lia)) as [c Hc].
  destruct (lookup_lt_is_Some_2 l (S j) Hj) as [d Hd]. exists c, d.
  rewrite (drop_S l c j Hc), (drop_S l d (S j) Hd). done.
Qed.

(** The phone's reader and the web wallet's agree on text made of digits. *)
Lemma hexToBytesLocal_digits s : hex_text s = true → _hexToBytesLocal s = Ok (hexToBytes s).
Proof.
  unfold hex_text, _hexToBytesLocal, hexToBytes. intros Hs.
  apply mapR_total. intros i Hi%elem_of_seq. rewrite forallb_forall in Hs.
  destruct (take_two (chars s) (i * 2)) as (c & d & E & Hc & Hd).
  { pose proof (Nat.Div0.div_mod (length (chars s)) 2). pose proof (Nat.mod_upper_bound (length (chars s)) 2). lia. }
  unfold hexPair, js_substr. rewrite E.
  apply int_parse_pair; apply Hs, list_elem_of_In; by eapply list_elem_of_lookup_2.
Qed.

Lemma bytesToHexLocal_eq b : _bytesToHexLocal b = bytesToHex b.
Proof. done. Qed.

Lemma hex_text_bytesToHex b : all_bytes b → hex_text (bytesToHex b) = true.
Proof.
  intros Hb. unfold hex_text. rewrite bytesToHex_chars. induction Hb as [|x b Hx _ IH]; [done|].
  rewrite fmap_cons. change (mjoin (?a :: ?k)) with (a ++ mjoin k). rewrite forallb_app, IH, andb_true_r.
  revert x Hx. apply byte_cases. by vm_compute.
Qed.

Lemma hexToBytesLocal_hex b : all_bytes b → _hexToBytesLocal (_bytesToHexLocal b) = Ok b.
Proof.
  intros Hb. rewrite bytesToHexLocal_eq, hexToBytesLocal_digits by (by apply hex_text_bytesToHex).
  by rewrite hexToBytes_bytesToHex_aux.
Qed.

#[export] Hint Resolve fromList_all_bytes : bytes.
