(* ===== verification/MobilePackages.v ===== *)
(** * The packages the mobile wallet depends on

    cac_wallet/lib takes ECDSA from pointycastle, Base58Check from bs58check,
    the bech32 string format from bech32 and key derivation from bip32 and
    bip39.  None of them is in the repository: [MobilePackages] holds the calls
    the sources make, [MobilePackageLaws] what their documentation promises, as
    the standards they implement (RFC 6979, Base58Check, BIP173, BIP32, BIP39)
    against the definitions the web wallet is modelled with.  SHA-256 and
    RIPEMD-160 are the functions of [Primitives]: a digest is the same whichever
    package computes it.  [ToyPackages] is a concrete instance whose signer
    returns high values of s, which the wallet has to normalise. *)

From S2P Require Import Prelude JsString Hex Primitives Base58 Bech32 Address Keys Dart.

Class MobilePackages := {
  (** [ECDSASigner(null, HMac(SHA256Digest(), 64))..init(true, d)] and
      [generateSignature(hash)]: r and s. *)
  ec_sign : bytes → Z → result (Z * Z);
  bs58check_encode : bytes → string;
  bs58check_decode : string → result bytes;
  (** [Bech32Codec().encode(Bech32(hrp, data))] and [decode(s, s.length)] *)
  bech32_encode : string → list Z → result string;
  bech32_decode : string → result (string * list Z);
  (** [bip39.mnemonicToSeed(m)] and [bip39.validateMnemonic(m)] *)
  mnemonicToSeed : string → string → bytes;
  validateMnemonic : string → bool;
  (** [BIP32.fromSeed(seed).derivePath(path)]: the private key if the node has
      one, and the public key. *)
  bip32_derive : bytes → string → result (option bytes * bytes);
  (** [BIP32.fromSeed(seed, versions).derivePath(path).neutered().toBase58()] *)
  bip32_xpub : bytes → bip32_versions → string → result string;
  (** [BIP32.fromBase58(xpub, versions).derivePath(path).publicKey] *)
  bip32_xpub_derive : string → bip32_versions → string → result bytes;
}.

Definition lower_text (s : string) : Prop := js_lower s = s.

Class MobilePackageLaws `{Primitives} `{!MobilePackages} := {
  (** Both signers take their nonce from RFC 6979, so r is the same; s is not
      normalised by pointycastle. *)
  ec_sign_rfc6979 h k sig : all_bytes k → length k = 32%nat → secp_sign h k = Ok sig →
    ∃ s, ec_sign h (of_digits 256 k) = Ok (sig_r sig, s) ∧ (s = sig_s sig ∨ s = secp_order - sig_s sig);
  bs58check_encode_spec p s : all_bytes p → base58checkEncode p = Ok s → bs58check_encode p = s;
  bs58check_decode_spec s p : bs58check_decode s = Ok p ↔ all_bytes p ∧ s = bs58check_encode p;
  (** BIP173 strings of at most 90 characters under a lower-case tag. *)
  bech32_encode_spec hrp d : hrp ≠ "" → lower_text hrp → Forall (is_digit 32) d →
    (length (chars hrp) + length d + 7 <= 90)%nat → bech32_encode hrp d = Ok (bech32Encode hrp d);
  bech32_decode_sound s hrp d : bech32_decode s = Ok (hrp, d) →
    Forall (is_digit 32) d ∧ js_lower s = bech32Encode hrp d;
  bech32_decode_complete hrp d : hrp = "cac" ∨ hrp = "tcac" → Forall (is_digit 32) d →
    bech32_decode (bech32Encode hrp d) = Ok (hrp, d);
  seed_bip39 m : bip39_valid m = true → mnemonicToSeed m "" = bip39_seed m "";
  derive_bip32 seed net c i kp : child_index c → child_index i →
    hd_derive seed (account_path net +:+ "/" +:+ show c +:+ "/" +:+ show i) = Ok kp →
    bip32_derive seed (account_path net +:+ "/" +:+ show c +:+ "/" +:+ show i) =
      Ok (Some (privateKey kp), publicKey kp);
  xpub_bip32 seed vs net x : hd_xpub seed vs (account_path net) = Ok x →
    bip32_xpub seed vs (account_path net) = Ok x;
  xpub_derive_bip32 x vs i pub : child_index i → hd_xpub_derive x vs ("m/0/" +:+ show i) = Ok pub →
    bip32_xpub_derive x vs ("0/" +:+ show i) = Ok pub;
  (** Keys are byte strings of the lengths BIP32 gives them. *)
  hd_private_bytes seed path kp : hd_derive seed path = Ok kp →
    all_bytes (privateKey kp) ∧ length (privateKey kp) = 32%nat;
}.

(** ** A concrete instance *)

Module ToyPackages.
Section packages_of.
Context {P : Primitives} {PL : PrimitiveLaws}.

Definition encode58 (p : bytes) : string := match base58checkEncode p with Ok s => s | Throw _ => "" end.

Definition decode32 (s : string) : result (string * list Z) :=
  let '(hrp, d) := bech32Decode (js_lower s) in
  if bool_decide (Forall (is_digit 32) d) && String.eqb (bech32Encode hrp d) (js_lower s)
  then Ok (hrp, d) else Throw (ArgumentError "bech32").

(** Packages that do what those of the browser do, whatever they are. *)
Definition packages_of : MobilePackages := {|
  ec_sign h d := sig ← secp_sign h (be_bytes 32 d); mret (sig_r sig, secp_order - sig_s sig);
  bs58check_encode := encode58;
  bs58check_decode s := p ← base58checkDecode s;
    if bool_decide (all_bytes p) then Ok p else Throw (ArgumentError "bytes");
  bech32_encode hrp d := Ok (bech32Encode hrp d);
  bech32_decode := decode32;
  mnemonicToSeed := bip39_seed;
  validateMnemonic := bip39_valid;
  bip32_derive seed path := kp ← hd_derive seed path; mret (Some (privateKey kp), publicKey kp);
  bip32_xpub := hd_xpub;
  bip32_xpub_derive x vs path := hd_xpub_derive x vs ("m/" +:+ path);
|}.

Lemma be_bytes_of_digits n k :
  all_bytes k → length k = n → be_bytes n (of_digits 256 k) = k.
Proof.
  intros Hk Hl. pose proof (of_digits_bound 256 ltac:(lia) k Hk). rewrite Hl in *.
  apply (of_digits_inj_length 256); [apply be_bytes_bytes|done|by rewrite be_bytes_length|].
  rewrite be_bytes_value. by apply Z.mod_small.
Qed.

Lemma encode58_ok p : all_bytes p → base58checkEncode p = Ok (encode58 p) ∧ base58checkDecode (encode58 p) = Ok p.
Proof.
  intros Hp. destruct (base58check_roundtrip_aux p Hp) as (s & Hs & Hd). unfold encode58. by rewrite Hs.
Qed.

(** The text of a bech32 string under a lower-case tag is lower case. *)
Lemma charset_lower d : is_digit 32 d → lower_char <$> bech32_char d = bech32_char d.
Proof.
  intros Hd. assert (H : bool_decide (lower_char <$> bech32_char d = bech32_char d) = true).
  { assert (Hb : is_byte d) by (unfold is_digit, is_byte in *; lia). clear Hd. revert d Hb.
    apply byte_cases. by vm_compute. }
  by apply bool_decide_eq_true in H.
Qed.

Lemma bech32_lower hrp d : lower_text hrp → Forall (is_digit 32) d → lower_text (bech32Encode hrp d).
Proof.
  intros Hh Hd. unfold lower_text, bech32Encode in *. rewrite !lower_app, Hh. f_equal. f_equal.
  unfold js_lower. rewrite chars_of_chars. f_equal.
  assert (Hf : Forall (is_digit 32) (d ++ bech32CreateChecksum hrp d))
    by (apply Forall_app; split; [done|apply bech32_checksum_digits]).
  induction Hf as [|x l Hx _ IH]; [done|]. rewrite fmap_cons. change (mjoin (?a :: ?k)) with (a ++ mjoin k).
  by rewrite fmap_app, IH, charset_lower.
Qed.

Lemma packages_of_laws
    (Hkeys : ∀ seed path kp, hd_derive seed path = Ok kp → all_bytes (privateKey kp) ∧ length (privateKey kp) = 32%nat) :
  MobilePackageLaws (H0 := packages_of).
Proof.
  split; intros; cbn [packages_of ec_sign bs58check_encode bs58check_decode bech32_encode bech32_decode
    mnemonicToSeed bip32_derive bip32_xpub bip32_xpub_derive] in *.
  - rewrite be_bytes_of_digits by done. eexists. split; [by rewrite H1|]. by right.
  - unfold encode58. by rewrite H0.
  - rewrite bind_ok. split.
    + intros (q & Hq & Hp). case_bool_decide; [|done]. simplify_eq. split; [done|].
      unfold encode58. by rewrite (base58checkDecode_canonical s p Hq).
    + intros [Hp ->]. exists p. split; [by apply encode58_ok|]. by rewrite bool_decide_eq_true_2.
  - done.
  - unfold decode32 in *. destruct (bech32Decode _) as [h e].
    destruct (bool_decide _ && _) eqn:E; [|done]. simplify_eq.
    apply andb_true_iff in E as [E1%bool_decide_eq_true E2%String.eqb_eq]. by split.
  - unfold decode32. rewrite !bech32_lower by (done || by destruct H as [->| ->]).
    rewrite bech32_decode_encode by done.
    by rewrite bool_decide_eq_true_2, String.eqb_refl.
  - done.
  - by rewrite H1.
  - done.
  - done.
  - by eapply Hkeys.
Qed.
End packages_of.

#[export] Instance packages : MobilePackages := packages_of (P := Toy.prims).
#[export] Instance package_laws : MobilePackageLaws (H := Toy.prims) (H0 := packages).
Proof.
  apply (packages_of_laws (P := Toy.prims) (PL := Toy.laws)). intros seed path kp H. cbn [Toy.prims hd_derive] in H.
  injection H as <-. cbn [privateKey]. split; [apply be_bytes_bytes|apply be_bytes_length].
Qed.
End ToyPackages.
