(* ===== verification/MobileAddress.v ===== *)
(** * Addresses and keys on the phone

    cac_wallet/lib/config/network_config.dart, crypto/address.dart,
    crypto/keys.dart and crypto/xpub.dart.  The parameters, the regrouping of
    bits on 64-bit integers, the three encoders, the decoder and the key paths,
    against the web wallet's definitions of [Address] and [Keys]: a recovery
    phrase gives the same keys, addresses and account key on both, an address
    one wallet writes the other reads as the same destination. *)

From S2P Require Import Prelude JsString Primitives Base58 Bech32 Address Keys Dart MobilePackages.

(** ** Parameters *)

Inductive CacNetwork := CacMainnet | CacTestnet.

#[export] Instance CacNetwork_eq_dec : EqDecision CacNetwork.
Proof. solve_decision. Defined.

Record NetworkConfig := {
  nc_network : CacNetwork; nc_name : string;
  nc_p2pkhVersion : Z; nc_p2shVersion : Z; nc_wifVersion : Z;
  nc_bech32Hrp : string; nc_bip44CoinType : Z; nc_gatewayBaseUrl : string }.

Definition mainnetConfig : NetworkConfig := {|
  nc_network := CacMainnet; nc_name := "CodexaCoin Mainnet";
  nc_p2pkhVersion := 0x1c; nc_p2shVersion := 0x3f; nc_wifVersion := 0x9c;
  nc_bech32Hrp := "cac"; nc_bip44CoinType := 3377; nc_gatewayBaseUrl := "https://codexacoin.com/v1" |}.

Definition testnetConfig : NetworkConfig := {|
  nc_network := CacTestnet; nc_name := "CodexaCoin Testnet";
  nc_p2pkhVersion := 0x6f; nc_p2shVersion := 0xc4; nc_wifVersion := 0xef;
  nc_bech32Hrp := "tcac"; nc_bip44CoinType := 1;
  nc_gatewayBaseUrl := "https://testnet-api.codexacoin.example/v1" |}.

Definition forNetwork (n : CacNetwork) : NetworkConfig :=
  if bool_decide (n = CacMainnet) then mainnetConfig else testnetConfig.

(** ** Regrouping bits *)

(** [while (bits >= toBits) { bits -= toBits; result.add((acc >> bits) & maxv); }] *)
Fixpoint _drain (fuel : nat) (acc bits toBits maxv : Z) (result : list Z) : Z * list Z :=
  match fuel with
  | O => (bits, result)
  | S fuel =>
      if toBits <=? bits
      then _drain fuel acc (bits - toBits) toBits maxv
             (result ++ [Z.land (Z.shiftr acc (bits - toBits)) maxv])
      else (bits, result)
  end.

Definition _convert_step (fromBits toBits : Z) (st : cb_state) (value : Z) : result cb_state :=
  if (value <? 0) || negb (Z.shiftr value fromBits =? 0)
  then Throw (FormatException "Invalid data for bit conversion")
  else
    let acc := Z.lor (dart_shl (cb_acc st) fromBits) value in
    let bits := cb_bits st + fromBits in
    let maxv := dart_shl 1 toBits - 1 in
    let '(bits, ret) := _drain (Z.to_nat bits) acc bits toBits maxv (cb_ret st) in
    Ok {| cb_acc := acc; cb_bits := bits; cb_ret := ret |}.

Definition _convertBits (data : bytes) (fromBits toBits : Z) (pad : bool) : result bytes :=
  let maxv := dart_shl 1 toBits - 1 in
  st ← foldR (_convert_step fromBits toBits) {| cb_acc := 0; cb_bits := 0; cb_ret := [] |} data;
  let acc := cb_acc st in let bits := cb_bits st in let result := cb_ret st in
  if pad then
    Ok (fromList (if 0 <? bits then result ++ [Z.land (dart_shl acc (toBits - bits)) maxv] else result))
  else if (fromBits <=? bits) || negb (Z.land (dart_shl acc (toBits - bits)) maxv =? 0)
  then Throw (FormatException "Invalid padding in bit conversion")
  else Ok (fromList result).

(** ** Addresses *)

Section mobile_address.
Context {P : Primitives} {MP : MobilePackages}.

(** [payload[0] = version; payload.setRange(1, 21, hash)] on 21 fresh bytes. *)
Definition base58Address (what : string) (version : Z) (hash : bytes) : result string :=
  if negb (length hash =? 20)%nat then Throw (ArgumentError (what +:+ " must be exactly 20 bytes")) else
  payload ← u8_set (to_u8 version :: u8_new 20) hash 1;
  mret (bs58check_encode payload).

Definition p2pkhAddress (pubkeyHash20 : bytes) (net : NetworkConfig) : result string :=
  base58Address "pubkeyHash20" (nc_p2pkhVersion net) pubkeyHash20.

Definition p2shAddress (scriptHash20 : bytes) (net : NetworkConfig) : result string :=
  base58Address "scriptHash20" (nc_p2shVersion net) scriptHash20.

Definition p2wpkhAddress (pubkeyHash20 : bytes) (net : NetworkConfig) : result string :=
  if negb (length pubkeyHash20 =? 20)%nat then Throw (ArgumentError "pubkeyHash20 must be exactly 20 bytes") else
  witnessProgram ← _convertBits pubkeyHash20 8 5 true;
  bech32_encode (nc_bech32Hrp net) (fromList (0 :: witnessProgram)).

Definition decodeAddress (address : string) (net : NetworkConfig) : result decoded :=
  if js_starts_with (js_lower address) (nc_bech32Hrp net +:+ "1") then
    '(hrp, data) ← bech32_decode address;
    _ ← throw_if (negb (String.eqb hrp (nc_bech32Hrp net))) (FormatException "Address is for a different network");
    witnessVersion ← index data 0;
    rest ← sublist data 1 (length data);
    program ← _convertBits (fromList rest) 5 8 false;
    _ ← throw_if (negb (witnessVersion =? 0) || negb (length program =? 20)%nat)
          (FormatException "Unsupported witness version/program length");
    Ok {| d_type := P2wpkh; d_hash := program |}
  else
    decoded ← bs58check_decode address;
    _ ← throw_if (negb (length decoded =? 21)%nat) (FormatException "Invalid Base58Check address length");
    version ← index decoded 0;
    payload ← sublist decoded 1 (length decoded);
    if version =? nc_p2pkhVersion net then Ok {| d_type := P2pkh; d_hash := payload |}
    else if version =? nc_p2shVersion net then Ok {| d_type := P2sh; d_hash := payload |}
    else Throw (FormatException ("Address version byte " +:+ show version +:+ " does not match " +:+ nc_name net)).

(** ** Keys *)

Definition deriveKey (mnemonic : string) (net : NetworkConfig) (index : Z) (passphrase : string) (change : bool)
    : result keypair :=
  let seed := mnemonicToSeed mnemonic passphrase in
  let path := "m/44'/" +:+ show (nc_bip44CoinType net) +:+ "'/0'/" +:+
              show (if change then 1 else 0) +:+ "/" +:+ show index in
  '(priv, pub) ← bip32_derive seed path;
  match priv with
  | None => Throw (StateError ("Derived node has no private key (path=" +:+ path +:+ ")"))
  | Some k => Ok {| privateKey := fromList k; publicKey := fromList pub |}
  end.

Definition _bip32NetworkFor (net : NetworkConfig) : bip32_versions :=
  if bool_decide (nc_network net = CacTestnet)
  then {| v_private := 0x04358394; v_public := 0x043587cf |}
  else {| v_private := 0x0488ade4; v_public := 0x0488b21e |}.

Definition deriveAccountXpub (mnemonic : string) (net : NetworkConfig) (passphrase : string) : result string :=
  let seed := mnemonicToSeed mnemonic passphrase in
  bip32_xpub seed (_bip32NetworkFor net) ("m/44'/" +:+ show (nc_bip44CoinType net) +:+ "'/0'").

Definition deriveXpubAddress (xpub : string) (net : NetworkConfig) (index : Z) : result string :=
  pub ← bip32_xpub_derive xpub (_bip32NetworkFor net) ("0/" +:+ show index);
  p2pkhAddress (hash160 pub) net.
End mobile_address.

(** ** The 64-bit and the 32-bit accumulator *)

Section convert.
Context (from to : Z) (Hfrom : 1 <= from <= 8) (Hto : 1 <= to <= 8).

Lemma dart_maxv : dart_shl 1 to - 1 = 2 ^ to - 1.
Proof.
  assert (2 ^ to <= 2 ^ 8) by (apply Z.pow_le_mono_r; lia).
  assert (0 < 2 ^ to) by (apply Z.pow_pos_nonneg; lia). unfold dart_shl.
  rewrite Z.shiftl_mul_pow2, dart_int_small by lia. lia.
Qed.

Lemma land_maxv a : Z.land a (2 ^ to - 1) = a mod 2 ^ to.
Proof. rewrite <- Z.land_ones, Z.ones_equiv by lia. done. Qed.

(** A group read at [b] only depends on the low 32 bits. *)
Lemma group_low a b :
  0 <= b → b + to <= 32 → (a / 2 ^ b) mod 2 ^ to = (a mod 2 ^ 32 / 2 ^ b) mod 2 ^ to.
Proof.
  intros Hb Hbt. rewrite <- !Z.shiftr_div_pow2, <- !Z.land_ones by lia. apply Z.bits_inj'. intros i Hi.
  rewrite !Z.land_spec, !Z.shiftr_spec, Z.testbit_ones_nonneg by lia.
  destruct (Z.ltb_spec i to); [|by rewrite !andb_false_r].
  rewrite Z.land_spec, Z.testbit_ones_nonneg by lia.
  destruct (Z.ltb_spec (i + b) 32); [by rewrite !andb_true_r|lia].
Qed.

Lemma drain_same fuel a j bits ret :
  a mod 2 ^ 32 = j mod 2 ^ 32 → 0 <= bits <= 24 → Forall (is_digit 256) ret → (Z.to_nat bits <= fuel)%nat →
  _drain fuel a bits to (2 ^ to - 1) ret = drain fuel j bits to (2 ^ to - 1) ret ∧
  0 <= (_drain fuel a bits to (2 ^ to - 1) ret).1 < to ∧
  Forall (is_digit 256) (_drain fuel a bits to (2 ^ to - 1) ret).2.
Proof.
  intros Ha. revert bits ret. induction fuel as [|f IH]; intros bits ret Hb Hr Hf; simpl; [split_and!; (done || lia)|].
  destruct (Z.leb_spec to bits); [|split_and!; (done || simpl; lia)].
  assert (E : Z.land (Z.shiftr a (bits - to)) (2 ^ to - 1) = js_and (js_shr j (bits - to)) (2 ^ to - 1)).
  { rewrite land_maxv, Z.shiftr_div_pow2, js_and_ones, js_shr_div, <- Ha by lia. apply group_low; lia. }
  rewrite <- E. apply IH; [lia| |lia]. apply Forall_app. split; [done|]. apply Forall_singleton.
  rewrite land_maxv. pose proof (Z.mod_pos_bound (Z.shiftr a (bits - to)) (2 ^ to) ltac:(lia)).
  assert (2 ^ to <= 2 ^ 8) by (apply Z.pow_le_mono_r; lia). unfold is_digit. lia.
Qed.

(** The states of the two loops. *)
Definition cb_same (s t : cb_state) : Prop :=
  cb_acc s mod 2 ^ 32 = cb_acc t mod 2 ^ 32 ∧ cb_bits s = cb_bits t ∧ cb_ret s = cb_ret t ∧
  0 <= cb_bits s < to ∧ Forall (is_digit 256) (cb_ret s).

Lemma acc_same a j v :
  0 <= v < 2 ^ from → a mod 2 ^ 32 = j mod 2 ^ 32 →
  Z.lor (dart_shl a from) v mod 2 ^ 32 = js_or (js_shl j from) v mod 2 ^ 32.
Proof.
  intros Hv Ha. rewrite js_shl_or by lia. unfold dart_shl. rewrite Z.shiftl_mul_pow2 by lia.
  rewrite (lor_disjoint _ _ from); [|lia|done|rewrite dart_int_mod_pow2 by lia; apply Z.mod_mul; lia].
  rewrite Z.add_mod, dart_int_mod_pow2, Z.mul_mod, Ha, <- Z.mul_mod, <- Z.add_mod by lia. done.
Qed.

Lemma step_same s t v :
  is_byte v → cb_same s t →
  match _convert_step from to s v, convert_step from to t v with
  | Ok s', Ok t' => cb_same s' t'
  | Throw _, Throw _ => True
  | _, _ => False
  end.
Proof.
  intros [Hv0 Hv] (Ha & Hb & Hr & Hbits & Hd). unfold _convert_step, convert_step.
  unfold js_sar. rewrite to_i32_small, (Z.mod_small from 32) by lia.
  destruct (_ || _) eqn:G; [done|]. rewrite dart_maxv, maxv_eq by done.
  apply orb_false_iff in G as [_ G%negb_false_iff]. apply Z.eqb_eq in G.
  rewrite Z.shiftr_div_pow2 in G by lia. apply Z.div_small_iff in G as [G|G]; [|lia|lia].
  rewrite <- Hb, <- Hr. pose proof (acc_same _ _ v G Ha) as Hacc.
  destruct (drain_same (Z.to_nat (cb_bits s + from)) _ _ (cb_bits s + from) (cb_ret s) Hacc)
    as (E & Hrange & Hdig); [lia|done|lia|].
  rewrite <- E. destruct (_drain _ _ _ _ _ _) as [bits ret]. done.
Qed.

Lemma loop_same data s t :
  all_bytes data → cb_same s t →
  match foldR (_convert_step from to) s data, foldR (convert_step from to) t data with
  | Ok s', Ok t' => cb_same s' t'
  | Throw _, Throw _ => True
  | _, _ => False
  end.
Proof.
  intros Hd. revert s t. induction Hd as [|v data Hv _ IH]; intros s t Hst; [done|]. cbn [foldR].
  pose proof (step_same s t v Hv Hst) as H.
  destruct (_convert_step _ _ _ _), (convert_step _ _ _ _); try done. by apply IH.
Qed.

(** The phone's [_convertBits] and the browser's [convertBits] return the same
    groups and refuse the same inputs. *)
Lemma convertBits_same data pad :
  all_bytes data → agrees (_convertBits data from to pad) (convertBits data from to pad).
Proof.
  intros Hd. unfold _convertBits, convertBits.
  pose proof (loop_same data {| cb_acc := 0; cb_bits := 0; cb_ret := [] |}
    {| cb_acc := 0; cb_bits := 0; cb_ret := [] |} Hd ltac:(split_and!; (done || simpl; lia))) as H.
  destruct (foldR _ _ _) as [s|], (foldR _ _ _) as [t|]; try done.
  destruct H as (Ha & Hb & Hr & Hbits & Hdig).
  cbn [mbind result_bind]. rewrite dart_maxv, maxv_eq, <- Hb, <- Hr by done.
  assert (E : Z.land (dart_shl (cb_acc s) (to - cb_bits s)) (2 ^ to - 1) =
              js_and (js_shl (cb_acc t) (to - cb_bits s)) (2 ^ to - 1)).
  { rewrite land_maxv, js_and_ones by lia. unfold dart_shl. rewrite Z.shiftl_mul_pow2, dart_int_mod_pow2 by lia.
    apply mod_pow2_weaken; [lia|]. rewrite js_shl_mod, Z.mul_mod, Ha, <- Z.mul_mod by lia. done. }
  rewrite <- E. set (x := Z.land _ _).
  assert (is_byte x).
  { unfold x. rewrite land_maxv. pose proof (Z.mod_pos_bound (dart_shl (cb_acc s) (to - cb_bits s)) (2 ^ to) ltac:(lia)).
    assert (2 ^ to <= 2 ^ 8) by (apply Z.pow_le_mono_r; lia). unfold is_byte. lia. }
  destruct pad; [destruct (_ <? _)|destruct (_ || _)]; cbn [agrees]; try done; apply fromList_bytes; [|done..].
  apply Forall_app. split; [done|]. by apply Forall_singleton.
Qed.
End convert.

(** ** The same wallet on the phone and in the browser *)

(** The web wallet's entry for a network. *)
Definition web_network (n : CacNetwork) : network :=
  match n with CacMainnet => mainnet | CacTestnet => testnet end.

Lemma web_network_name n : ∃ name, NETWORKS name = Some (web_network n).
Proof. destruct n; [by exists "mainnet"|by exists "testnet"]. Qed.

Lemma web_network_ok n : network_ok (web_network n).
Proof. destruct (web_network_name n) as [name Hn]. by apply (networks_ok name). Qed.

Lemma digits_bytes d : Forall (is_digit 32) d → all_bytes d.
Proof. intros Hd. eapply Forall_impl; [|exact Hd]. unfold is_digit, is_byte. lia. Qed.

Section same.
Context {P : Primitives} {PL : PrimitiveLaws} {MP : MobilePackages} {ML : MobilePackageLaws}.

Lemma base58Address_ok what v h s :
  is_byte v → all_bytes h → length h = 20%nat → base58checkEncode (v :: h) = Ok s →
  base58Address what v h = Ok s.
Proof.
  intros Hv Hh Hl Hs. unfold base58Address. rewrite Hl. cbn [Nat.eqb negb].
  pose proof (versioned_ok v h Hl) as E. unfold versioned in E. rewrite E. cbn [mbind result_bind].
  rewrite to_u8_id by done. rewrite (bs58check_encode_spec (v :: h) s); [done| |done]. by apply all_bytes_cons.
Qed.

(** Every address form is the same text. *)
Lemma encode_same n h :
  all_bytes h → length h = 20%nat →
  p2pkhAddress h (forNetwork n) = Address.p2pkhAddress h (web_network n) ∧
  p2shAddress h (forNetwork n) = Address.p2shAddress h (web_network n) ∧
  p2wpkhAddress h (forNetwork n) = Address.p2wpkhAddress h (web_network n).
Proof.
  intros Hh Hl. pose proof (web_network_ok n) as Hok.
  rewrite p2pkhAddress_encode, p2shAddress_encode by done. destruct Hok as (_ & Hv1 & Hv2 & _).
  destruct (base58check_roundtrip_aux (p2pkhVersion (web_network n) :: h)) as (s1 & E1 & _); [by apply all_bytes_cons|].
  destruct (base58check_roundtrip_aux (p2shVersion (web_network n) :: h)) as (s2 & E2 & _); [by apply all_bytes_cons|].
  rewrite E1, E2. split; [|split].
  - apply base58Address_ok; [by destruct n|done|done|by destruct n].
  - apply base58Address_ok; [by destruct n|done|done|by destruct n].
  - unfold p2wpkhAddress, Address.p2wpkhAddress. rewrite Hl. cbn [Nat.eqb negb].
    pose proof (convertBits_same 8 5 ltac:(lia) ltac:(lia) h true Hh) as Hs.
    destruct (convertBits_pad 8 5 ltac:(lia) ltac:(lia) h Hh) as (p & k & Hp & Hk & Hd & Hlen & _).
    rewrite (agrees_ok_r _ _ p Hs Hp), Hp. cbn [mbind result_bind].
    assert (Hd' : Forall (is_digit 32) (0 :: p)) by (constructor; [unfold is_digit; lia|done]).
    rewrite fromList_bytes by (by apply digits_bytes).
    rewrite bech32_encode_spec; [by destruct n|by destruct n|by destruct n|done|].
    rewrite Hl in Hlen. assert (length p <= 32)%nat by lia.
    assert (length (chars (nc_bech32Hrp (forNetwork n))) <= 4)%nat by (destruct n; vm_compute; lia).
    cbn [length]. lia.
Qed.

(** What Base58Check decoding returns is made of bytes. *)
Lemma base58checkDecode_bytes s p : base58checkDecode s = Ok p → all_bytes p.
Proof.
  intros Hd. pose proof Hd as Hn. unfold base58checkDecode in Hn.
  apply bind_ok in Hn as (num & Hnum & _). apply b58_fold_inv in Hnum as (ds & Hds & Hs & _).
  assert (s = of_chars (b58_char <$> ds)) as -> by by rewrite <- Hs, of_chars_chars.
  rewrite decode_unfold in Hd by done. cbv zeta in Hd. apply split_checked in Hd.
  assert (Hb : all_bytes (checked p)).
  { rewrite <- Hd. apply all_bytes_app. split; [|apply to_digits_digits; lia].
    apply Forall_replicate. unfold is_byte. lia. }
  by apply all_bytes_app in Hb as [? _].
Qed.

Lemma bs58check_same s p : bs58check_decode s = Ok p ↔ base58checkDecode s = Ok p.
Proof.
  rewrite bs58check_decode_spec. split.
  - intros [Hp ->]. destruct (base58check_roundtrip_aux p Hp) as (s & Hs & Hd).
    by rewrite (bs58check_encode_spec p s Hp Hs).
  - intros Hd. pose proof (base58checkDecode_bytes s p Hd) as Hp. split; [done|]. symmetry.
    apply bs58check_encode_spec; [done|]. by apply base58checkDecode_canonical.
Qed.

(** Data the browser regroups consists of 5-bit values. *)
Lemma convert_digits data st st' :
  foldR (convert_step 5 8) st data = Ok st' → Forall (λ v, -2 ^ 31 <= v < 2 ^ 31) data →
  Forall (is_digit 32) data.
Proof.
  revert st. induction data as [|v data IH]; intros st Hf Hs; [constructor|].
  apply Forall_cons_iff in Hs as [Hv Hs]. cbn [foldR] in Hf. apply bind_ok in Hf as (s1 & H1 & Hf).
  constructor; [|by eapply IH]. unfold convert_step in H1.
  destruct (_ || _) eqn:G; [done|]. apply orb_false_iff in G as [G0%Z.ltb_ge G%negb_false_iff].
  apply Z.eqb_eq in G. unfold js_sar in G. rewrite to_i32_small in G by lia.
  change (5 mod 32) with 5 in G. rewrite Z.shiftr_div_pow2 in G by lia.
  apply Z.div_small_iff in G as [G|G]; [|lia..]. done.
Qed.

(** The tail of the segwit branch, once the string is split. *)
Definition program_of (w : Z) (data : list Z) : result decoded :=
  program ← convertBits data 5 8 false;
  if negb (w =? 0) || negb (length program =? 20)%nat then Throw (ExError "") else
  Ok {| d_type := P2wpkh; d_hash := program |}.

Lemma mobile_segwit n s w data d :
  bech32_decode s = Ok (nc_bech32Hrp (forNetwork n), w :: data) → Forall (is_digit 32) (w :: data) →
  js_starts_with (js_lower s) (nc_bech32Hrp (forNetwork n) +:+ "1") = true →
  decodeAddress s (forNetwork n) = Ok d ↔ program_of w data = Ok d.
Proof.
  intros Hs Hd Hb. unfold decodeAddress, program_of. rewrite Hb, Hs. cbn [mbind result_bind].
  rewrite String.eqb_refl. cbn [negb throw_if mbind result_bind index lookup list_lookup].
  unfold sublist. cbn [Nat.leb length]. rewrite Nat.leb_refl. cbn [andb mbind result_bind drop Nat.sub].
  rewrite Nat.sub_0_r, firstn_all.
  apply Forall_cons_iff in Hd as [_ Hd]. rewrite fromList_bytes by (by apply digits_bytes).
  pose proof (convertBits_same 5 8 ltac:(lia) ltac:(lia) data false (digits_bytes _ Hd)) as Ha.
  destruct (_convertBits _ _ _ _) as [p|], (convertBits _ _ _ _) as [q|]; cbn [agrees] in Ha; try done.
  subst q. cbn [mbind result_bind]. destruct (_ || _); cbn; naive_solver.
Qed.

Lemma convertBits_bytes data from to pad p : _convertBits data from to pad = Ok p → all_bytes p.
Proof.
  unfold _convertBits. intros (st & _ & H)%bind_ok.
  destruct pad; [|destruct (_ || _); [done|]]; injection H as <-; apply fromList_all_bytes.
Qed.

Lemma bech32Decode_range s : Forall (λ v, -2 ^ 31 <= v < 2 ^ 31) (bech32Decode s).2.
Proof.
  unfold bech32Decode. cbn [snd]. apply Forall_fmap, Forall_forall. intros c _.
  change (-2 ^ 31 <= index_of c (chars BECH32_CHARSET) < 2 ^ 31).
  pose proof (index_of_range c (chars BECH32_CHARSET)) as H. rewrite bech32_charset_length in H. lia.
Qed.

Lemma web_segwit n s data d :
  looks_bech32 s (web_network n) = true → bech32Decode s = (bech32Hrp (web_network n), data) →
  Address.decodeAddress s (web_network n) = Ok d ↔
  ∃ w rest, data = w :: rest ∧ Forall (is_digit 32) data ∧ program_of w rest = Ok d.
Proof.
  intros Hb Hs. unfold Address.decodeAddress, program_of. rewrite Hb, Hs, String.eqb_refl.
  cbn [negb throw_if mbind result_bind]. pose proof (bech32Decode_range s) as Hr. rewrite Hs in Hr. cbn [snd] in Hr.
  destruct data as [|w rest]; [by split; [|intros (? & ? & ? & _)]|]. rewrite js_slice_from_1.
  apply Forall_cons_iff in Hr as [_ Hr]. split.
  - intros (p & Hp & H)%bind_ok. exists w, rest. split; [done|]. rewrite Hp. cbn [mbind result_bind].
    assert (Hd : Forall (is_digit 32) rest)
      by (unfold convertBits in Hp; apply bind_ok in Hp as (st & Hf & _); by eapply convert_digits).
    assert (Hbp : all_bytes p).
    { pose proof (convertBits_same 5 8 ltac:(lia) ltac:(lia) rest false (digits_bytes _ Hd)) as Ha.
      eapply convertBits_bytes. by apply (agrees_ok_r _ _ p Ha). }
    unfold throw_if in H. cbn [lookup list_lookup] in H. rewrite all_bytes_map_u8 in H by done.
    case_bool_decide as Hw; [|done]. injection Hw as ->. cbn [negb orb Z.eqb] in *.
    split; [constructor; [unfold is_digit; lia|done]|]. by destruct (_ =? 20)%nat.
  - intros (w' & rest' & [= <- <-] & Hd & H). apply bind_ok in H as (p & Hp & H). rewrite Hp.
    cbn [mbind result_bind lookup list_lookup]. apply Forall_cons_iff in Hd as [_ Hd].
    assert (Hbp : all_bytes p).
    { pose proof (convertBits_same 5 8 ltac:(lia) ltac:(lia) rest false (digits_bytes _ Hd)) as Ha.
      eapply convertBits_bytes. by apply (agrees_ok_r _ _ p Ha). }
    destruct (Z.eqb_spec w 0) as [->|]; [|done]. rewrite bool_decide_eq_true_2 by done. cbn [negb orb] in *.
    destruct (_ =? 20)%nat; [|done]. cbn. by rewrite all_bytes_map_u8.
Qed.

Lemma hrp_same n : nc_bech32Hrp (forNetwork n) = bech32Hrp (web_network n).
Proof. by destruct n. Qed.

Lemma decode_base58 n s d :
  looks_bech32 s (web_network n) = false →
  decodeAddress s (forNetwork n) = Ok d ↔ Address.decodeAddress s (web_network n) = Ok d.
Proof.
  intros Hb. unfold decodeAddress, Address.decodeAddress. unfold looks_bech32 in *. rewrite hrp_same, Hb.
  rewrite !bind_ok. apply exist_proper. intros p. rewrite bs58check_same. apply and_iff_compat_l.
  destruct (length p =? 21)%nat eqn:El; [|done]. apply Nat.eqb_eq in El. destruct p as [|v p]; [done|].
  cbn [negb throw_if mbind result_bind index lookup list_lookup default length].
  unfold sublist. cbn [Nat.leb length]. rewrite Nat.leb_refl. cbn [andb mbind result_bind drop Nat.sub].
  rewrite Nat.sub_0_r, firstn_all, js_slice_from_1.
  replace (nc_p2pkhVersion (forNetwork n)) with (p2pkhVersion (web_network n)) by by destruct n.
  replace (nc_p2shVersion (forNetwork n)) with (p2shVersion (web_network n)) by by destruct n.
  repeat (destruct (_ =? _)); naive_solver.
Qed.
End same.

(** The phone reads an address as the browser does, checksum apart.  On text
    that is not in capitals the two decoders return the same destination, except
    that the phone also asks that the last six characters of a segwit address
    are its BIP173 checksum, which the browser never looks at. *)
Theorem mobile_decodes_same {P : Primitives} {PL : PrimitiveLaws} {MP : MobilePackages} {ML : MobilePackageLaws}
    (n : CacNetwork) (s : string) (d : decoded)
    (Hlow : looks_bech32 s (web_network n) = true → lower_text s) :
  decodeAddress s (forNetwork n) = Ok d ↔
  Address.decodeAddress s (web_network n) = Ok d ∧
  (looks_bech32 s (web_network n) = true → s = bech32Encode (bech32Decode s).1 (bech32Decode s).2).
Proof.
  destruct (looks_bech32 s (web_network n)) eqn:Hb;
    [|rewrite decode_base58 by done; split; [intros H; split; [exact H|discriminate]|intros [H _]; exact H]].
  specialize (Hlow eq_refl).
  assert (Hb' : js_starts_with (js_lower s) (nc_bech32Hrp (forNetwork n) +:+ "1") = true) by by rewrite hrp_same.
  split.
  - intros H. pose proof H as H0. unfold decodeAddress in H0. rewrite Hb' in H0.
    apply bind_ok in H0 as ([hrp data] & Hs & H0).
    destruct (bech32_decode_sound s hrp data Hs) as [Hd He]. rewrite Hlow in He.
    assert (Hdec : bech32Decode s = (hrp, data)) by (rewrite He; by apply bech32_decode_encode).
    apply bind_ok in H0 as (? & Ht & H0). unfold throw_if in Ht.
    destruct (String.eqb_spec hrp (nc_bech32Hrp (forNetwork n))) as [->|]; [|done].
    apply bind_ok in H0 as (w & Hw & _). destruct data as [|w' rest]; [done|].
    rewrite Hdec. cbn [fst snd]. split; [|done]. rewrite hrp_same in Hdec.
    apply (web_segwit n s _ d Hb Hdec). exists w', rest. split; [done|]. split; [done|].
    by apply (mobile_segwit n s w' rest d Hs Hd Hb').
  - intros [H He]. specialize (He eq_refl). destruct (bech32Decode s) as [hrp data] eqn:Hdec. cbn [fst snd] in He.
    assert (hrp = bech32Hrp (web_network n)) as ->.
    { unfold Address.decodeAddress in H. rewrite Hb, Hdec in H. apply bind_ok in H as (? & Ht & _).
      unfold throw_if in Ht. by destruct (String.eqb_spec hrp (bech32Hrp (web_network n))). }
    destruct (proj1 (web_segwit n s _ d Hb Hdec) H) as (w & rest & -> & Hd & Hp).
    apply (mobile_segwit n s w rest d); [|done|done|done]. rewrite He, hrp_same.
    apply bech32_decode_complete; [destruct n; auto|done].
Qed.

Lemma mobile_decodes_same_witness :
  ∃ s, lower_text s ∧ decodeAddress (MP := ToyPackages.packages) s (forNetwork CacMainnet) = Ok {| d_type := P2wpkh; d_hash := replicate 20 9 |}.
Proof.
  set (s := bech32Encode "cac" (0 :: match convertBits (replicate 20 9) 8 5 true with Ok p => p | Throw _ => [] end)).
  assert (Hlow : lower_text s) by by vm_compute.
  exists s. split; [exact Hlow|].
  apply (mobile_decodes_same (P := Toy.prims) (PL := Toy.laws) (MP := ToyPackages.packages)
    (ML := ToyPackages.package_laws) CacMainnet s _); [intros _; exact Hlow|].
  split; [by vm_compute|]. intros _. by vm_compute.
Defined.

Lemma wallet_same {P : Primitives} {PL : PrimitiveLaws} {MP : MobilePackages} {ML : MobilePackageLaws}
    n mnemonic index change kp :
  bip39_valid mnemonic = true → child_index index →
  Keys.deriveKey mnemonic (web_network n) index "" change = Ok kp →
  deriveKey mnemonic (forNetwork n) index "" change = Ok kp ∧
  p2pkhAddress (hash160 (publicKey kp)) (forNetwork n) =
    Address.p2pkhAddress (hash160 (publicKey kp)) (web_network n) ∧
  p2wpkhAddress (hash160 (publicKey kp)) (forNetwork n) =
    Address.p2wpkhAddress (hash160 (publicKey kp)) (web_network n) ∧
  (∀ xpub, Keys.deriveAccountXpub mnemonic (web_network n) "" = Ok xpub →
    deriveAccountXpub mnemonic (forNetwork n) "" = Ok xpub ∧
    (change = false →
      deriveXpubAddress xpub (forNetwork n) index = Address.p2pkhAddress (hash160 (publicKey kp)) (web_network n))).
Proof.
  intros Hvalid Hi Hk.
  assert (Hh : all_bytes (hash160 (publicKey kp)) ∧ length (hash160 (publicKey kp)) = 20%nat)
    by (unfold hash160; split; [apply ripemd160_bytes|apply ripemd160_length]).
  destruct Hh as [Hh Hl]. destruct (encode_same n _ Hh Hl) as (E1 & _ & E2).
  assert (Hc : child_index (if change then 1 else 0)) by (unfold child_index; destruct change; lia).
  assert (Hpub : publicKey kp = secp_public (privateKey kp)) by (by eapply hd_derive_public).
  unfold Keys.deriveKey in Hk. pose proof (hd_private_bytes _ _ _ Hk) as [Hkb _].
  assert (Hacc : "m/44'/" +:+ show (nc_bip44CoinType (forNetwork n)) +:+ "'/0'" = account_path (web_network n)) by by destruct n.
  split; [|split; [done|split; [done|]]].
  - unfold deriveKey. rewrite seed_bip39 by done. pose proof (derive_bip32 _ _ _ _ _ Hc Hi Hk) as Hd.
    match goal with |- context [bip32_derive _ ?p] =>
      replace p with (account_path (web_network n) +:+ "/" +:+ show (if change then 1 else 0) +:+ "/" +:+ show index)
        by by destruct n end.
    rewrite Hd. cbn [mbind result_bind]. rewrite !fromList_bytes; [by destruct kp| |done].
    rewrite Hpub. apply secp_public_bytes.
  - intros x Hx. unfold deriveAccountXpub, deriveXpubAddress. rewrite seed_bip39, Hacc by done.
    assert (Hv : _bip32NetworkFor (forNetwork n) = bip32Versions (web_network n)) by by destruct n.
    rewrite Hv. split; [by apply xpub_bip32|]. intros ->.
    pose proof (hd_xpub_children _ _ _ _ 0 index kp Hc Hi Hx Hk) as Hch.
    rewrite (xpub_derive_bip32 _ _ _ _ Hi Hch). cbn [mbind result_bind]. done.
Qed.

(** C36. One recovery phrase is one wallet.  Every key the browser derives from a
    valid phrase the phone derives too, both show the same three addresses for
    it, both export the same account key, and the addresses either watches
    through that account key are the addresses of the wallet's keys. *)
Theorem mobile_wallet_same {P : Primitives} {PL : PrimitiveLaws} {MP : MobilePackages} {ML : MobilePackageLaws}
    (n : CacNetwork) (mnemonic : string) (index : Z) (change : bool) (kp : keypair)
    (Hvalid : bip39_valid mnemonic = true) (Hi : child_index index)
    (Hk : Keys.deriveKey mnemonic (web_network n) index "" change = Ok kp) :
  deriveKey mnemonic (forNetwork n) index "" change = Ok kp ∧
  p2pkhAddress (hash160 (publicKey kp)) (forNetwork n) =
    Address.p2pkhAddress (hash160 (publicKey kp)) (web_network n) ∧
  p2wpkhAddress (hash160 (publicKey kp)) (forNetwork n) =
    Address.p2wpkhAddress (hash160 (publicKey kp)) (web_network n) ∧
  (∀ xpub, Keys.deriveAccountXpub mnemonic (web_network n) "" = Ok xpub →
    deriveAccountXpub mnemonic (forNetwork n) "" = Ok xpub ∧
    (change = false →
      deriveXpubAddress xpub (forNetwork n) index = Address.p2pkhAddress (hash160 (publicKey kp)) (web_network n))).
Proof. by apply wallet_same. Qed.

Lemma mobile_wallet_same_witness :
  ∃ kp, Keys.deriveKey (P := Toy.prims) "abandon ability" mainnet 3 "" false = Ok kp ∧
    deriveKey (MP := ToyPackages.packages) "abandon ability" mainnetConfig 3 "" false = Ok kp.
Proof.
  eexists. split; [reflexivity|].
  apply (mobile_wallet_same (P := Toy.prims) (PL := Toy.laws) (MP := ToyPackages.packages)
    (ML := ToyPackages.package_laws) CacMainnet "abandon ability" 3 false); [reflexivity| |reflexivity].
  split; lia.
Defined.
