(* ===== verification/MobileTx.v ===== *)
(** * Transactions on the phone

    cac_wallet/lib/crypto/transaction.dart 76-264 and 330-392: scripts, compact
    sizes, serialization, the legacy signature hash, DER and the signing loop,
    with pointycastle's signer as the one foreign part.  A [Utxo] is a [spend], a
    [_TxInput] a [txin] and a [TxOutputSpec] a [txout]: the fields are the same
    as the web wallet's.  [mobile_signs_same] is the equivalence with
    web-wallet/crypto.js, byte for byte; [mobile_sign_accepted] carries the web
    wallet's guarantee over: the node accepts what the phone signs. *)

From S2P Require Import Prelude JsString Hex Primitives Base58 Address NodeTx NodeScript ScriptLemmas TxCodec Der Signing.
From S2P Require Import Dart MobilePackages.

Definition sighashAll : Z := 0x01.

(** ** Scripts *)

Definition p2pkhScriptPubKey (pubkeyHash20 : bytes) : bytes :=
  fromList ([0x76; 0xa9; 0x14] ++ pubkeyHash20 ++ [0x88; 0xac]).
Definition p2shScriptPubKey (scriptHash20 : bytes) : bytes :=
  fromList ([0xa9; 0x14] ++ scriptHash20 ++ [0x87]).
Definition p2wpkhScriptPubKey (pubkeyHash20 : bytes) : bytes :=
  fromList ([0x00; 0x14] ++ pubkeyHash20).

(** ** Serialization *)

(** [Uint8List(k)..[0] = tag] with an integer set at offset 1, little endian. *)
Definition _varInt (n : Z) : bytes :=
  if n <? 0xfd then fromList [n]
  else if n <=? 0xffff then 0xfd :: le_bytes 2 n
  else if n <=? 0xffffffff then 0xfe :: le_bytes 4 n
  else 0xff :: le_bytes 8 n.

Definition _uint32le (n : Z) : bytes := le_bytes 4 n.
Definition _uint64le (n : Z) : bytes := le_bytes 8 n.

(** The bytes a [BytesBuilder] holds after the calls to [add]. *)
Definition _serialize (version : Z) (inputs : list txin) (outputs : list txout) (locktime : Z) : bytes :=
  _uint32le version ++ _varInt (Z.of_nat (length inputs)) ++
  mjoin ((λ i, prevTxid i ++ _uint32le (prevVout i) ++ _varInt (len (scriptSig i)) ++ scriptSig i ++
               _uint32le (default 0xffffffff (sequence i))) <$> inputs) ++
  _varInt (Z.of_nat (length outputs)) ++
  mjoin ((λ o, _uint64le (valueSatoshis o) ++ _varInt (len (scriptPubKey o)) ++ scriptPubKey o) <$> outputs) ++
  _uint32le locktime.

(** ** DER *)

Definition _bigIntToBytes (v : Z) : result bytes :=
  if v =? 0 then Ok (fromList [0]) else
  let hex := int_to_string 16 v in
  let hex := if Z.odd (js_length hex) then "0" +:+ hex else hex in
  _hexToBytesLocal hex.

Definition _encodeInt (v : Z) : result bytes :=
  bs ← _bigIntToBytes v;
  let bs := match bs with b :: _ => if negb (Z.land b 0x80 =? 0) then fromList (0 :: bs) else bs | [] => bs end in
  Ok (fromList ([0x02; len bs] ++ bs)).

Definition _derEncodeSignature (sig : Z * Z) : result bytes :=
  let n := secp_order in
  let '(r, s) := sig in
  let s := if Z.shiftr n 1 <? s then n - s else s in
  rEnc ← _encodeInt r;
  sEnc ← _encodeInt s;
  Ok (fromList ([0x30; len rEnc + len sEnc] ++ rEnc ++ sEnc)).

(** [result = (result << 8) | BigInt.from(b)] *)
Definition _bytesToBigInt (bs : bytes) : Z := foldl (λ result b, Z.lor (Z.shiftl result 8) b) 0 bs.

Section mobile_tx.
Context {P : Primitives} {MP : MobilePackages}.

Definition _doubleSha256 (data : bytes) : bytes := sha256 (sha256 data).

Definition _legacySighash (inputs : list txin) (outputs : list txout) (inputIndex : nat)
    (subscript : bytes) (locktime : Z) : bytes :=
  let blanked := imap (λ i inp,
    {| prevTxid := prevTxid inp; prevVout := prevVout inp;
       scriptSig := if bool_decide (i = inputIndex) then subscript else [];
       sequence := sequence inp |}) inputs in
  let preimage := _serialize 2 blanked outputs locktime in
  let withSighashType := fromList (preimage ++ _uint32le sighashAll) in
  _doubleSha256 withSighashType.

(** [signer.init(true, key)], [generateSignature] and the DER form with its type. *)
Definition _signature (key : bytes) (sighash : bytes) : result bytes :=
  sig ← ec_sign sighash (_bytesToBigInt key);
  derSig ← _derEncodeSignature sig;
  mret (fromList (derSig ++ [sighashAll])).

(** One turn of the loop of [buildAndSignTransaction]. *)
Definition _sign_input (outputs : list txout) (privateKey publicKeyCompressed : option bytes) (locktime : Z)
    (txInputs : list txin) (iu : nat * spend) : result (list txin) :=
  let '(i, u) := iu in
  match or_else (u_privateKey u) privateKey, or_else (u_publicKey u) publicKeyCompressed with
  | Some inputPrivateKey, Some inputPublicKey =>
      let subscript := p2pkhScriptPubKey (u_pubkeyHash u) in
      let sighash := _legacySighash txInputs outputs i subscript locktime in
      sigWithType ← _signature inputPrivateKey sighash;
      let s := fromList ([len sigWithType] ++ sigWithType ++ [len inputPublicKey] ++ inputPublicKey) in
      mret (alter (set_scriptSig s) i txInputs)
  | _, _ => Throw (ArgumentError ("Input " +:+ show (Z.of_nat i) +:+
              " has no signing key (neither its own nor a global fallback)"))
  end.

Definition buildAndSignTransaction (inputs : list spend) (outputs : list txout)
    (privateKey publicKeyCompressed : option bytes) (locktime : Z) : result bytes :=
  if (length inputs =? 0)%nat then Throw (ArgumentError "No inputs provided") else
  let txInputs := (λ u, {| prevTxid := u_txid u; prevVout := u_vout u; scriptSig := [];
                           sequence := Some (default 0xfffffffd (u_sequence u)) |}) <$> inputs in
  txInputs ← foldR (_sign_input outputs privateKey publicKeyCompressed locktime) txInputs
               (zip (seq 0 (length inputs)) inputs);
  Ok (_serialize 2 txInputs outputs locktime).
End mobile_tx.

(** ** Serialization *)

Lemma _varInt_WriteCompactSize n : 0 <= n → _varInt n = WriteCompactSize n.
Proof.
  intros Hn. unfold _varInt, WriteCompactSize.
  destruct (Z.ltb_spec n 0xfd); [done|].
  destruct (Z.leb_spec n 0xffff); [done|]. by destruct (Z.leb_spec n 0xffffffff).
Qed.

(** Both wallets write the same layout. *)
Lemma serialize_same version ins outs locktime :
  _serialize version ins outs locktime = tx_bytes version ins outs locktime.
Proof.
  unfold _serialize, tx_bytes, _uint32le. rewrite !_varInt_WriteCompactSize, <- !app_assoc by lia.
  assert (E1 : ∀ i, prevTxid i ++ le_bytes 4 (prevVout i) ++ _varInt (len (scriptSig i)) ++ scriptSig i ++
    le_bytes 4 (default 0xffffffff (sequence i)) = input_bytes i).
  { intros i. unfold input_bytes, write_script, len. by rewrite _varInt_WriteCompactSize, <- !app_assoc by lia. }
  assert (E2 : ∀ o, _uint64le (valueSatoshis o) ++ _varInt (len (scriptPubKey o)) ++ scriptPubKey o = output_bytes o).
  { intros o. unfold output_bytes, write_script, len. by rewrite _varInt_WriteCompactSize by lia. }
  rewrite (list_fmap_ext _ input_bytes ins) by (intros; apply E1).
  by rewrite (list_fmap_ext _ output_bytes outs) by (intros; apply E2).
Qed.

(** What a [Uint8List] guarantees of a transaction's fields. *)
Definition typed_in (i : txin) : Prop := all_bytes (prevTxid i).
Definition typed_out (o : txout) : Prop := all_bytes (scriptPubKey o).

Lemma mjoin_bytes {A} (w : A → bytes) l : Forall (λ x, all_bytes (w x)) l → all_bytes (mjoin (w <$> l)).
Proof.
  induction 1 as [|x l Hx _ IH]; [apply all_bytes_nil|]. rewrite fmap_cons.
  change (mjoin (w x :: ?k)) with (w x ++ mjoin k). by apply all_bytes_app.
Qed.

Lemma WriteCompactSize_bytes n : all_bytes (WriteCompactSize n).
Proof. unfold WriteCompactSize. repeat case_if; rewrite ?all_bytes_app; split_and?; apply le_bytes_bytes. Qed.

#[local] Hint Resolve WriteCompactSize_bytes le_bytes_bytes : bytes.

Lemma tx_bytes_bytes version ins outs locktime :
  Forall (λ i, typed_in i ∧ all_bytes (scriptSig i)) ins → Forall typed_out outs →
  all_bytes (tx_bytes version ins outs locktime).
Proof.
  intros Hi Ho. unfold tx_bytes. rewrite !all_bytes_app. split_and!; auto with bytes; apply mjoin_bytes.
  - eapply Forall_impl; [|exact Hi]. intros i [H1 H2]. unfold input_bytes, write_script.
    rewrite !all_bytes_app. split_and!; auto with bytes.
  - eapply Forall_impl; [|exact Ho]. intros o H. unfold output_bytes, write_script.
    rewrite !all_bytes_app. split_and!; auto with bytes.
Qed.

Lemma sighash_same `{Primitives} ins outs i sub locktime h :
  Forall typed_in ins → Forall typed_out outs → all_bytes sub →
  legacySighash ins outs i sub locktime = Ok h → _legacySighash ins outs i sub locktime = h.
Proof.
  intros Hi Ho Hs. unfold legacySighash, _legacySighash. rewrite serializeTx_layout, serialize_same.
  cbn [mbind result_bind]. rewrite concatBytes_join. cbn [mbind result_bind].
  intros <-%Toy.Ok_inj. cbn [mjoin list_join]. rewrite app_nil_r, fromList_bytes; [done|]. apply all_bytes_app.
  split; [|apply le_bytes_bytes]. apply tx_bytes_bytes; [|done].
  apply Forall_lookup. intros j t Ht. rewrite list_lookup_imap in Ht.
  destruct (ins !! j) as [t'|] eqn:E; [|done]. simplify_eq/=. rewrite Forall_lookup in Hi.
  split; [by apply (Hi j t')|]. case_bool_decide; [done|apply all_bytes_nil].
Qed.

(** ** Signatures *)

Lemma bytesToBigInt_value bs : all_bytes bs → _bytesToBigInt bs = of_digits 256 bs.
Proof.
  unfold _bytesToBigInt, of_digits. generalize 0. induction bs as [|b bs IH]; intros acc H; [done|].
  apply all_bytes_cons in H as [Hb H]. cbn [foldl]. rewrite IH by done. f_equal.
  rewrite Z.shiftl_mul_pow2 by lia. apply (lor_disjoint _ _ 8); [lia|done|]. apply Z.mod_mul. lia.
Qed.

Lemma digit_char_hex d : is_digit 16 d → hex_digit (digit_char d) = true.
Proof.
  intros Hd. assert (Hb : is_byte d) by (unfold is_digit, is_byte in *; lia).
  assert (H : implb (d <? 16) (hex_digit (digit_char d)) = true) by (clear Hd; revert d Hb; apply byte_cases; by vm_compute).
  destruct (Z.ltb_spec d 16); [done|]. unfold is_digit in Hd. lia.
Qed.

Lemma hex_string_digits v :
  0 < v → let hex := int_to_string 16 v in hex_text (if Z.odd (js_length hex) then "0" +:+ hex else hex) = true.
Proof.
  intros Hv. cbv zeta. assert (H : hex_text (int_to_string 16 v) = true).
  { unfold int_to_string, digits_string, hex_text. destruct (Z.ltb_spec v 0); [lia|].
    destruct (Z.eqb_spec v 0); [lia|]. rewrite chars_of_chars. apply forallb_forall. intros c Hc%list_elem_of_In.
    apply list_elem_of_fmap in Hc as (d & -> & Hd). apply digit_char_hex.
    pose proof (to_digits_digits 16 ltac:(lia) v) as Hf. by eapply list.Forall_forall in Hf. }
  destruct (Z.odd _); [|done]. unfold hex_text in *. by rewrite chars_app, forallb_app, H.
Qed.

Lemma bigIntToBytes_ok v : 0 < v → _bigIntToBytes v = Ok (to_digits 256 v).
Proof.
  intros Hv. unfold _bigIntToBytes. destruct (Z.eqb_spec v 0); [lia|].
  rewrite hexToBytesLocal_digits by (by apply hex_string_digits). by rewrite (hex_bytes v).
Qed.

Lemma der_value_bytes v : 0 < v < 2 ^ 256 → all_bytes (der_value v) ∧ (length (der_value v) <= 33)%nat.
Proof. intros Hv. by destruct (der_value_spec v Hv) as [(? & ? & _ & _ & ? & ? & _) _]. Qed.

Lemma _encodeInt_ok v : 0 < v < 2 ^ 256 → _encodeInt v = Ok ([2; len (der_value v)] ++ der_value v).
Proof.
  intros Hv. destruct (der_value_bytes v Hv) as [Hb Hl]. unfold _encodeInt. rewrite bigIntToBytes_ok by lia.
  cbn [mbind result_bind].
  assert (E : (match to_digits 256 v with
    | b :: _ => if negb (Z.land b 0x80 =? 0) then fromList (0 :: to_digits 256 v) else to_digits 256 v
    | [] => to_digits 256 v end) = der_value v).
  { unfold der_value. pose proof (to_digits_digits 256 ltac:(lia) v) as Hd.
    destruct (to_digits 256 v) as [|b tl]; [done|].
    rewrite land_128 by (by apply Forall_cons_iff in Hd as [? _]). destruct (b <? 128); [done|].
    cbn [negb]. apply fromList_bytes, all_bytes_cons. split; [unfold is_byte; lia|done]. }
  rewrite E. f_equal. apply fromList_bytes. rewrite all_bytes_app. split; [|done].
  repeat constructor; unfold len; lia.
Qed.

Lemma der_bytes_bytes R S :
  all_bytes R → all_bytes S → (length R <= 33)%nat → (length S <= 33)%nat → all_bytes (der_bytes R S).
Proof.
  intros HR HS LR LS. unfold der_bytes, len. rewrite !all_bytes_app.
  split; [|split; [exact HR|split; [|exact HS]]]; repeat constructor; lia.
Qed.

(** The phone's DER encoder brings s below half the order itself. *)
Lemma _derEncode_ok r s s' :
  0 < r < secp_order → 0 < s <= secp_order / 2 → s' = s ∨ s' = secp_order - s →
  _derEncodeSignature (r, s') = Ok (der_bytes (der_value r) (der_value s)).
Proof.
  intros Hr Hs Hs'. assert (Ho : secp_order < 2 ^ 256) by by vm_compute.
  assert (Hodd : secp_order = 2 * (secp_order / 2) + 1) by by vm_compute.
  assert (Hr' : 0 < r < 2 ^ 256) by lia. assert (Hss : 0 < s < 2 ^ 256) by lia.
  unfold _derEncodeSignature. rewrite Z.shiftr_div_pow2 by lia. change (2 ^ 1) with 2.
  assert (E : (if secp_order / 2 <? s' then secp_order - s' else s') = s).
  { destruct Hs' as [-> | ->]; [destruct (Z.ltb_spec (secp_order / 2) s)|destruct (Z.ltb_spec (secp_order / 2) (secp_order - s))]; lia. }
  rewrite E, !_encodeInt_ok by done. cbn [mbind result_bind]. f_equal.
  destruct (der_value_bytes r Hr') as [Br Lr]. destruct (der_value_bytes s Hss) as [Bs Ls].
  rewrite <- (fromList_bytes (der_bytes _ _)) by (by apply der_bytes_bytes). f_equal.
  unfold der_bytes, len. rewrite !length_app. cbn [length]. rewrite <- !app_assoc. cbn [app]. do 2 f_equal. lia.
Qed.

Section signs.
Context {P : Primitives} {PL : PrimitiveLaws} {MP : MobilePackages} {ML : MobilePackageLaws}.

Lemma sig_bytes_bytes h k sig : secp_sign h k = Ok sig → all_bytes (sig_bytes sig).
Proof.
  intros Hs. destruct (sign_ranges h k sig Hs) as (Hr & Hl & Hso & Ho).
  destruct (der_value_bytes (sig_r sig)) as [B1 L1]; [lia|]. destruct (der_value_bytes (sig_s sig)) as [B2 L2]; [lia|].
  unfold sig_bytes. apply all_bytes_app. split; [by apply der_bytes_bytes|]. repeat constructor; lia.
Qed.

(** A private key as BIP32 hands it out. *)
Definition typed_key (k : bytes) : Prop := all_bytes k ∧ length k = 32%nat.

Lemma signature_same h k sig :
  typed_key k → secp_sign h k = Ok sig → _signature k h = Ok (sig_bytes sig).
Proof.
  intros [Hk Hl] Hs. destruct (ec_sign_rfc6979 h k sig Hk Hl Hs) as (s & Hec & Hlow).
  destruct (sign_ranges h k sig Hs) as (Hr & Hsr & _).
  unfold _signature. rewrite bytesToBigInt_value, Hec by done. cbn [mbind result_bind].
  rewrite (_derEncode_ok _ (sig_s sig)) by done. cbn [mbind result_bind mret result_ret]. f_equal.
  apply fromList_bytes. by apply (sig_bytes_bytes h k).
Qed.

(** The fields of a [Utxo] and the fallback keys. *)
Definition typed_spend (privateKey publicKeyCompressed : option bytes) (u : spend) : Prop :=
  all_bytes (u_txid u) ∧ all_bytes (u_pubkeyHash u) ∧
  (∀ k, or_else (u_privateKey u) privateKey = Some k → typed_key k) ∧
  (∀ pub, or_else (u_publicKey u) publicKeyCompressed = Some pub → all_bytes pub).

Lemma typed_alter s i txs : Forall typed_in txs → Forall typed_in (alter (set_scriptSig s) i txs).
Proof. intros H. by apply Forall_alter. Qed.

Lemma sign_input_same outs pk pub locktime txs iu txs' :
  Forall typed_in txs → Forall typed_out outs → typed_spend pk pub iu.2 →
  sign_input outs pk pub locktime txs iu = Ok txs' →
  _sign_input outs pk pub locktime txs iu = Ok txs' ∧ Forall typed_in txs'.
Proof.
  destruct iu as [i u]. cbn [snd]. intros Ht Ho (_ & Hh & Hk & Hp) H.
  unfold sign_input in H. apply bind_ok in H as (h & Hsh & H). apply bind_ok in H as (sig & Hs & H).
  unfold sign_with in Hs. unfold _sign_input.
  destruct (or_else (u_privateKey u) pk) as [k|]; [|done]. specialize (Hk k eq_refl).
  rewrite (derEncode_sign h k sig Hs) in H. cbn [mbind result_bind] in H.
  rewrite concatBytes_join in H. cbn [mbind result_bind] in H.
  destruct (or_else (u_publicKey u) pub) as [pb|]; [|done]. specialize (Hp pb eq_refl).
  rewrite concatBytes_join in H. cbn [mbind result_bind mjoin list_join] in H. rewrite !app_nil_r in H.
  change (u8_of [1]) with [1] in H. fold (sig_bytes sig) in H. injection H as <-.
  rewrite (sighash_same txs outs i _ locktime h Ht Ho) by (done || apply fromList_all_bytes).
  rewrite (signature_same h k sig Hk Hs). cbn [mbind result_bind]. split; [|by apply typed_alter].
  unfold mret, result_ret. do 3 f_equal. unfold fromList, u8_of. rewrite !fmap_app.
  rewrite (all_bytes_map_u8 (sig_bytes sig)) by (by apply (sig_bytes_bytes h k)).
  by rewrite (all_bytes_map_u8 pb).
Qed.

Lemma sign_loop_same outs pk pub locktime l txs txs' :
  Forall typed_in txs → Forall typed_out outs → Forall (λ iu, typed_spend pk pub iu.2) l →
  foldR (sign_input outs pk pub locktime) txs l = Ok txs' →
  foldR (_sign_input outs pk pub locktime) txs l = Ok txs'.
Proof.
  intros Ht Ho Hl. revert txs Ht. induction Hl as [|iu l Hu _ IH]; intros txs Ht H; [done|].
  cbn [foldR] in *. apply bind_ok in H as (t1 & H1 & H).
  destruct (sign_input_same outs pk pub locktime txs iu t1) as [E Ht1]; try done.
  rewrite E. cbn [mbind result_bind]. by apply IH.
Qed.

Lemma Forall_zip_seq (Q : spend → Prop) us j :
  Forall Q us → Forall (λ iu : nat * spend, Q iu.2) (zip (seq j (length us)) us).
Proof. intros H. revert j. induction H; intros j; cbn; constructor; auto. Qed.

Lemma mobile_signs_same_aux inputs outs pk pub locktime raw :
  Forall (typed_spend pk pub) inputs → Forall typed_out outs →
  Signing.buildAndSignTransaction inputs outs pk pub locktime = Ok raw →
  buildAndSignTransaction inputs outs pk pub locktime = Ok raw.
Proof.
  intros Hi Ho. unfold Signing.buildAndSignTransaction, buildAndSignTransaction.
  destruct (length inputs =? 0)%nat; [done|]. intros (txs & Hf & H)%bind_ok.
  rewrite serializeTx_layout in H. apply Toy.Ok_inj in H as <-.
  rewrite (sign_loop_same outs pk pub locktime _ _ txs); [by rewrite <- serialize_same| |done| |exact Hf].
  - apply Forall_fmap. eapply Forall_impl; [|exact Hi]. by intros u [? _].
  - by apply (Forall_zip_seq (typed_spend pk pub)).
Qed.
End signs.

(** C37. The phone signs the bytes the browser signs.  Whenever the web wallet's
    [buildAndSignTransaction] returns a transaction for the same coins, outputs
    and keys, the phone's returns it too, byte for byte, although it serializes
    with a [BytesBuilder], takes its signatures from another library and lowers
    s itself. *)
Theorem mobile_signs_same {P : Primitives} {PL : PrimitiveLaws} {MP : MobilePackages} {ML : MobilePackageLaws}
    (inputs : list spend) (outs : list txout) (pk pub : option bytes) (locktime : Z) (raw : bytes)
    (Hin : Forall (typed_spend pk pub) inputs) (Hout : Forall typed_out outs)
    (Hweb : Signing.buildAndSignTransaction inputs outs pk pub locktime = Ok raw) :
  buildAndSignTransaction inputs outs pk pub locktime = Ok raw.
Proof. by apply mobile_signs_same_aux. Qed.

(** The node accepts what the phone signs: its bytes are read as a transaction
    with the outputs asked for, spending the coins asked for, every input of
    which passes the node's script verification. *)
Theorem mobile_sign_accepted {P : Primitives} {PL : PrimitiveLaws} {MP : MobilePackages} {ML : MobilePackageLaws}
    (inputs : list spend) (outs : list txout) (pk pub : option bytes) (locktime : Z)
    (Hne : inputs ≠ []) (Hok : Forall (spend_ok pk pub) inputs) (Hout : Forall txout_ok outs)
    (Htyped : Forall (typed_spend pk pub) inputs) (Hscripts : Forall typed_out outs)
    (Hlock : 0 <= locktime < 2 ^ 32)
    (Hni : Z.of_nat (length inputs) <= MAX_SIZE) (Hno : Z.of_nat (length outs) <= MAX_SIZE) :
  ∃ raw tx,
    buildAndSignTransaction inputs outs pk pub locktime = Ok raw ∧
    UnserializeTransaction true raw = Ok (tx, []) ∧
    nVersion tx = 2 ∧ nLockTime tx = locktime ∧ vout tx = node_out <$> outs ∧
    length (vin tx) = length inputs ∧
    ∀ i u, inputs !! i = Some u → ∃ inp, vin tx !! i = Some inp ∧
      prevout inp = {| op_hash := u_txid u; op_n := u_vout u |} ∧
      nSequence inp = default 0xfffffffd (u_sequence u) ∧
      VerifyScript tx i (txin_scriptSig inp) (p2pkhScriptPubKey (u_pubkeyHash u)) (scriptWitness inp) = Ok tt.
Proof.
  destruct (buildAndSign_accepted_aux inputs outs pk pub locktime) as (raw & tx & Hraw & Hrest); try done.
  exists raw, tx. split; [by apply mobile_signs_same_aux|exact Hrest].
Qed.

Module MobileTxExample.
#[local] Existing Instances Toy.prims Toy.laws ToyPackages.packages ToyPackages.package_laws.
Import SigningExample.

Lemma typed : Forall (typed_spend (Some key1) (Some (secp_public key1))) inputs.
Proof.
  assert (Hrep : ∀ n b, is_byte b → all_bytes (replicate n b)) by (intros; by apply Forall_replicate).
  unfold inputs. rewrite !Forall_cons_iff. split; [|split; [|constructor]].
  all: split; [apply Hrep; unfold is_byte; lia|]; split; [apply ripemd160_bytes|].
  all: split; intros k [= <-]; [split; [apply Hrep; unfold is_byte; lia|done]|apply (@secp_public_bytes Toy.prims Toy.laws)].
Qed.

Lemma outs_typed : Forall typed_out outs.
Proof. apply Forall_singleton. apply fromList_all_bytes. Qed.

Lemma outs_ok : Forall txout_ok outs.
Proof. apply Forall_singleton. split; [vm_compute; split; congruence|vm_compute; congruence]. Qed.
End MobileTxExample.

Lemma mobile_signs_same_witness :
  ∃ raw, Signing.buildAndSignTransaction (P := Toy.prims) SigningExample.inputs SigningExample.outs
      (Some SigningExample.key1) (Some (secp_public (Primitives := Toy.prims) SigningExample.key1)) 0 = Ok raw ∧
    buildAndSignTransaction (P := Toy.prims) (MP := ToyPackages.packages) SigningExample.inputs SigningExample.outs
      (Some SigningExample.key1) (Some (secp_public (Primitives := Toy.prims) SigningExample.key1)) 0 = Ok raw.
Proof.
  assert (Hw : is_ok (Signing.buildAndSignTransaction (P := Toy.prims) SigningExample.inputs SigningExample.outs
      (Some SigningExample.key1) (Some (secp_public (Primitives := Toy.prims) SigningExample.key1)) 0) = true)
    by (vm_compute; reflexivity).
  destruct (Signing.buildAndSignTransaction _ _ _ _ _) as [raw|e] eqn:E; [|discriminate Hw].
  exists raw. split; [reflexivity|].
  exact (mobile_signs_same (P := Toy.prims) (PL := Toy.laws) (MP := ToyPackages.packages)
    (ML := ToyPackages.package_laws) _ _ _ _ _ raw MobileTxExample.typed MobileTxExample.outs_typed E).
Defined.

Lemma mobile_sign_accepted_witness :
  ∃ raw tx, buildAndSignTransaction (P := Toy.prims) (MP := ToyPackages.packages) SigningExample.inputs SigningExample.outs
      (Some SigningExample.key1) (Some (secp_public (Primitives := Toy.prims) SigningExample.key1)) 0 = Ok raw ∧
    UnserializeTransaction true raw = Ok (tx, []) ∧ length (vin tx) = 2%nat.
Proof.
  destruct (mobile_sign_accepted (P := Toy.prims) (PL := Toy.laws) (MP := ToyPackages.packages)
    (ML := ToyPackages.package_laws) SigningExample.inputs SigningExample.outs
    (Some SigningExample.key1) (Some (secp_public (Primitives := Toy.prims) SigningExample.key1)) 0)
    as (raw & tx & H1 & H2 & _ & _ & _ & H3 & _).
  - discriminate.
  - exact SigningExample.inputs_ok.
  - exact MobileTxExample.outs_ok.
  - exact MobileTxExample.typed.
  - exact MobileTxExample.outs_typed.
  - lia.
  - vm_compute. congruence.
  - vm_compute. congruence.
  - exists raw, tx. split; [exact H1|]. split; [exact H2|exact H3].
Defined.
