(* ===== verification/MobileMultisig.v ===== *)
(** * Multisignature proposals and fee bumps on the phone

    cac_wallet/lib/crypto/transaction.dart 412-644: redeem scripts, proposals,
    signing, merging and finalizing, and the text in which the screen of
    screens/multisig_screen.dart passes a proposal on.  A proposal has the fields
    of the web wallet's, so it is the same record; [jsonDecode] and
    [JsonEncoder.withIndent('  ')] read and write what [JSON.parse] and
    [JSON.stringify(v, null, 2)] do, on text whose integers are written without a
    point.  The casts [as int] and [as String] are made here when the proposal is
    read, in Dart when the member is used.  The theorems: cosigners on browsers
    and phones, in any mixture, arrive at the transaction browsers alone would
    build; and the two places where the phone's code differs from the code it
    mirrors.  Sent payments and the fee bump (lines 268-383) follow. *)

From S2P Require Import Prelude JsString JsNum Amount Json Hex JsValue Browser Primitives Base58 Address NodeTx NodeScript ScriptLemmas TxCodec Der.
From S2P Require Import Signing Multisig MultisigSpend BumpFee AppMultisig Dart MobilePackages MobileAddress MobileTx.

Definition opCheckMultisig : Z := 0xae.

Definition _opN (n : Z) : result Z :=
  if (n <? 1) || (16 <? n) then Throw (ArgumentError "OP_N only supports 1..16") else Ok (0x50 + n).

(** [parts.addByte(pk.length); parts.add(pk);] *)
Definition _add_pubkey (parts : bytes) (pk : bytes) : result bytes :=
  if negb (length pk =? 33)%nat then Throw (ArgumentError "Only compressed (33-byte) pubkeys are supported")
  else Ok (parts ++ [to_u8 (len pk)] ++ pk).

Definition createMultisigRedeemScript (m : Z) (pubkeysCompressed : list bytes) : result bytes :=
  let n := Z.of_nat (length pubkeysCompressed) in
  if (m <? 1) || (n <? m) then Throw (ArgumentError "m must be between 1 and the number of pubkeys") else
  if 16 <? n then Throw (ArgumentError "at most 16 pubkeys supported (OP_N range)") else
  op_m ← _opN m;
  parts ← foldR _add_pubkey [to_u8 op_m] pubkeysCompressed;
  op_n ← _opN n;
  Ok (parts ++ [to_u8 op_n] ++ [to_u8 opCheckMultisig]).

(** [inputs[i]] with [redeemScripts[i]]. *)
Definition createMultisigProposal (inputs : list spend) (redeemScripts : list bytes) (outputs : list txout)
    (locktime : Z) : result proposal :=
  ins ← mapR (λ iu : nat * spend, let '(i, u) := iu in
          redeemScript ← index redeemScripts i;
          mret {| pi_txid := _bytesToHexLocal (u_txid u); pi_vout := u_vout u; pi_valueSatoshis := u_value u;
                  pi_redeemScript := _bytesToHexLocal redeemScript |})
        (zip (seq 0 (length inputs)) inputs);
  Ok {| p_version := 2; p_locktime := locktime; p_inputs := ins;
        p_outputs := (λ o, {| po_scriptPubKey := _bytesToHexLocal (scriptPubKey o);
                              po_valueSatoshis := valueSatoshis o |}) <$> outputs;
        p_signatures := (λ _, ∅) <$> inputs |}.

Definition _proposalTxInputs (p : proposal) : result (list txin) :=
  mapR (λ i, txid ← _hexToBytesLocal (pi_txid i);
             mret {| prevTxid := txid; prevVout := pi_vout i; scriptSig := []; sequence := None |}) (p_inputs p).

Definition _proposalOutputs (p : proposal) : result (list txout) :=
  mapR (λ o, script ← _hexToBytesLocal (po_scriptPubKey o);
             mret {| valueSatoshis := po_valueSatoshis o; scriptPubKey := script |}) (p_outputs p).

Definition _scriptContainsPubkey (redeemScript pubkeyCompressed : bytes) : bool :=
  js_includes (_bytesToHexLocal redeemScript) (_bytesToHexLocal pubkeyCompressed).

(** ** Text *)

Definition dart_int_of (v : option json) : result Z :=
  match v with
  | Some (JNum x) => match num_to_bigint x with Ok z => Ok z | Throw _ => Throw (TypeError "double is not an int") end
  | _ => Throw (TypeError "not an int")
  end.
Definition dart_string_of (v : option json) : result string :=
  match v with Some (JStr s) => Ok s | _ => Throw (TypeError "not a String") end.
Definition dart_list_of (v : option json) : result (list json) :=
  match v with Some (JArr l) => Ok l | _ => Throw (TypeError "not a List") end.
Definition dart_map_of (v : json) : result (list (string * json)) :=
  match v with JObj l => Ok l | _ => Throw (TypeError "not a Map") end.

Definition signatures_fromJson (v : json) : result (gmap string string) :=
  l ← dart_map_of v;
  kvs ← mapR (λ kv : string * json, s ← dart_string_of (Some kv.2); mret (kv.1, s)) l;
  mret (list_to_map kvs).
Definition input_fromJson (v : json) : result prop_input :=
  j ← dart_map_of v;
  txid ← dart_string_of (obj_get "txid" j); vout ← dart_int_of (obj_get "vout" j);
  value ← dart_int_of (obj_get "valueSatoshis" j); script ← dart_string_of (obj_get "redeemScript" j);
  mret {| pi_txid := txid; pi_vout := vout; pi_valueSatoshis := value; pi_redeemScript := script |}.
Definition output_fromJson (v : json) : result prop_output :=
  j ← dart_map_of v;
  script ← dart_string_of (obj_get "scriptPubKey" j); value ← dart_int_of (obj_get "valueSatoshis" j);
  mret {| po_scriptPubKey := script; po_valueSatoshis := value |}.
Definition fromJson (v : json) : result proposal :=
  j ← dart_map_of v;
  version ← dart_int_of (obj_get "version" j); locktime ← dart_int_of (obj_get "locktime" j);
  ins ← dart_list_of (obj_get "inputs" j) ≫= mapR input_fromJson;
  outs ← dart_list_of (obj_get "outputs" j) ≫= mapR output_fromJson;
  sigs ← dart_list_of (obj_get "signatures" j) ≫= mapR signatures_fromJson;
  mret {| p_version := version; p_locktime := locktime; p_inputs := ins; p_outputs := outs; p_signatures := sigs |}.

Definition toJson (p : proposal) : json :=
  JObj [("version", jint (p_version p)); ("locktime", jint (p_locktime p));
        ("inputs", JArr ((λ i, JObj [("txid", JStr (pi_txid i)); ("vout", jint (pi_vout i));
           ("valueSatoshis", jint (pi_valueSatoshis i)); ("redeemScript", JStr (pi_redeemScript i))]) <$> p_inputs p));
        ("outputs", JArr ((λ o, JObj [("scriptPubKey", JStr (po_scriptPubKey o));
           ("valueSatoshis", jint (po_valueSatoshis o))]) <$> p_outputs p));
        ("signatures", JArr ((λ m, JObj ((λ kv, (kv.1, JStr kv.2)) <$> map_to_list m)) <$> p_signatures p))].

(** ** Signing, merging, finalizing *)

Section mobile_multisig.
Context {P : Primitives} {MP : MobilePackages}.

Definition multisigAddress (redeemScript : bytes) (net : NetworkConfig) : result string :=
  p2shAddress (hash160 redeemScript) net.

Definition _sign_proposal_input (txInputs : list txin) (outputs : list txout) (locktime : Z)
    (privateKey publicKeyCompressed : bytes)
    (sigs : list (gmap string string)) (iu : nat * prop_input) : result (list (gmap string string)) :=
  let '(i, inp) := iu in
  redeemScript ← _hexToBytesLocal (pi_redeemScript inp);
  if negb (_scriptContainsPubkey redeemScript publicKeyCompressed) then Ok sigs else
  let sighash := _legacySighash txInputs outputs i redeemScript locktime in
  sigWithType ← _signature privateKey sighash;
  m ← index sigs i;
  Ok (<[i := <[_bytesToHexLocal publicKeyCompressed := _bytesToHexLocal sigWithType]> m]> sigs).

Definition signMultisigProposal (p : proposal) (privateKey publicKeyCompressed : bytes) : result proposal :=
  txInputs ← _proposalTxInputs p;
  outputs ← _proposalOutputs p;
  sigs ← foldR (_sign_proposal_input txInputs outputs (p_locktime p) privateKey publicKeyCompressed)
           (p_signatures p) (zip (seq 0 (length (p_inputs p))) (p_inputs p));
  mret (set_signatures p sigs).

(** [merged.signatures[i].addAll(p.signatures[i])] for every [i]. *)
Definition addAll_signatures (merged sigs : list (gmap string string)) : result (list (gmap string string)) :=
  mapR (λ im : nat * gmap string string, s ← index sigs im.1; mret (s ∪ im.2)) (zip (seq 0 (length merged)) merged).

(** [fromJson(first.toJson())] copies the list of signature maps but each element
    is a view ([cast]) of the first proposal's own map, so [addAll] writes to the
    first proposal as well: the result is the merged proposal and what the
    arguments have become. *)
Definition mergeMultisigProposals (proposals : list proposal) : result (proposal * list proposal) :=
  match proposals with
  | [] => Throw (StateError "No element")
  | p0 :: rest =>
      sigs ← foldR (λ s p, addAll_signatures s (p_signatures p)) (p_signatures p0) rest;
      mret (set_signatures p0 sigs, set_signatures p0 sigs :: rest)
  end.

Fixpoint _parse_pubkeys (fuel : nat) (redeemScript : bytes) (i : nat) : result (list string) :=
  match fuel with
  | O => Ok []
  | S fuel =>
      match redeemScript !! i with
      | None => Ok []
      | Some opcode =>
          if (1 <=? opcode) && (opcode <=? 75) then
            pk ← sublist redeemScript (i + 1) (i + 1 + Z.to_nat opcode);
            rest ← _parse_pubkeys fuel redeemScript (i + 1 + Z.to_nat opcode);
            mret (_bytesToHexLocal pk :: rest)
          else Ok []
      end
  end.
Definition _parsePubkeysInOrder (redeemScript : bytes) : result (list string) :=
  _parse_pubkeys (length redeemScript) redeemScript 1.

(** [orderedSigs.take(m)] *)
Definition dart_take {A} (l : list A) (m : Z) : result (list A) :=
  if m <? 0 then Throw (RangeError "count") else Ok (take (Z.to_nat m) l).

Definition _finalize_scriptSig (i : nat) (redeemScript : bytes) (sigs : list (gmap string string)) : result bytes :=
  first ← index redeemScript 0;
  let m := first - 0x50 in
  pubkeysInOrder ← _parsePubkeysInOrder redeemScript;
  collected ← index sigs i;
  let orderedSigs := omap (λ pk, collected !! pk) pubkeysInOrder in
  let have := Z.of_nat (length orderedSigs) in
  if have <? m then
    Throw (StateError ("Input " +:+ show (Z.of_nat i) +:+ " has " +:+ show have +:+ " signature(s), needs " +:+ show m))
  else
    use ← dart_take orderedSigs m;
    sigsToUse ← mapR _hexToBytesLocal use;
    Ok ([0x00] ++ mjoin ((λ sig, [to_u8 (len sig)] ++ sig) <$> sigsToUse) ++ _varInt (len redeemScript) ++ redeemScript).

Definition _finalize_input (sigs : list (gmap string string)) (txInputs : list txin) (iu : nat * prop_input)
    : result (list txin) :=
  let '(i, inp) := iu in
  redeemScript ← _hexToBytesLocal (pi_redeemScript inp);
  s ← _finalize_scriptSig i redeemScript sigs;
  mret (alter (set_scriptSig s) i txInputs).

Definition finalizeMultisigTransaction (p : proposal) : result bytes :=
  txInputs ← _proposalTxInputs p;
  outputs ← _proposalOutputs p;
  txInputs ← foldR (_finalize_input (p_signatures p)) txInputs (zip (seq 0 (length (p_inputs p))) (p_inputs p));
  Ok (_serialize (p_version p) txInputs outputs (p_locktime p)).
End mobile_multisig.

(** ** The same steps as the browser's *)

(** Every member of the proposal that holds bytes is hexadecimal. *)
Definition proposal_hex (p : proposal) : Prop :=
  Forall (λ i, hex_text (pi_txid i) = true ∧ hex_text (pi_redeemScript i) = true) (p_inputs p) ∧
  Forall (λ o, hex_text (po_scriptPubKey o) = true) (p_outputs p).

Lemma txInputs_hex p : proposal_hex p → _proposalTxInputs p = Ok (proposal_input <$> p_inputs p).
Proof.
  intros [Hi _]. apply mapR_total. intros i Hin. rewrite list.Forall_forall in Hi.
  destruct (Hi i Hin) as [Ht _]. by rewrite hexToBytesLocal_digits.
Qed.

Lemma outputs_hex p : proposal_hex p → _proposalOutputs p = Ok (proposal_output <$> p_outputs p).
Proof.
  intros [_ Ho]. apply mapR_total. intros o Hin. rewrite list.Forall_forall in Ho.
  by rewrite hexToBytesLocal_digits by (by apply Ho).
Qed.

Lemma Forall_zip_snd {A} (Q : A → Prop) (l : list A) j :
  Forall Q l → Forall (λ iu : nat * A, Q iu.2) (zip (seq j (length l)) l).
Proof. intros H. revert j. induction H; intros j; cbn; constructor; auto. Qed.

(** Two folds whose steps agree when they succeed. *)
Lemma foldR_same {A S} (f g : S → A → result S) (Q : A → Prop) l s s' :
  (∀ s a s', Q a → f s a = Ok s' → g s a = Ok s') → Forall Q l → foldR f s l = Ok s' → foldR g s l = Ok s'.
Proof.
  intros Hfg Hl. revert s. induction Hl as [|a l Ha _ IH]; intros s H; [done|]. cbn [foldR] in *.
  apply bind_ok in H as (s1 & H1 & H). rewrite (Hfg s a s1 Ha H1). by apply IH.
Qed.

Section same.
Context {P : Primitives} {PL : PrimitiveLaws} {MP : MobilePackages} {ML : MobilePackageLaws}.

Lemma sign_proposal_input_same txs outs locktime k pub sigs iu sigs' :
  Forall typed_in txs → Forall typed_out outs → typed_key k → hex_text (pi_redeemScript iu.2) = true →
  Multisig.sign_proposal_input txs outs locktime k pub sigs iu = Ok sigs' →
  _sign_proposal_input txs outs locktime k pub sigs iu = Ok sigs'.
Proof.
  destruct iu as [i inp]. cbn [snd]. intros Ht Ho Hk Hr H. unfold _sign_proposal_input.
  rewrite hexToBytesLocal_digits by done. cbn [mbind result_bind]. unfold Multisig.sign_proposal_input in H.
  change (_scriptContainsPubkey ?a ?b) with (scriptContainsPubkey a b).
  destruct (negb _); [done|]. apply bind_ok in H as (h & Hh & H). apply bind_ok in H as (sig & Hs & H).
  rewrite (derEncode_sign h k sig Hs) in H. cbn [mbind result_bind] in H. rewrite concatBytes_join in H.
  cbn [mbind result_bind mjoin list_join] in H. rewrite app_nil_r in H. change (u8_of [1]) with [1] in H.
  fold (sig_bytes sig) in H.
  rewrite (sighash_same txs outs i _ locktime h Ht Ho (hexToBytes_bytes _) Hh), (signature_same h k sig Hk Hs).
  cbn [mbind result_bind]. unfold index. by destruct (sigs !! i).
Qed.

Lemma typed_inputs (l : list prop_input) : Forall typed_in (proposal_input <$> l).
Proof. apply Forall_fmap, Forall_true. intros i. apply hexToBytes_bytes. Qed.
Lemma typed_outputs (l : list prop_output) : Forall typed_out (proposal_output <$> l).
Proof. apply Forall_fmap, Forall_true. intros o. apply hexToBytes_bytes. Qed.

Lemma sign_same p k pub p' :
  proposal_hex p → typed_key k →
  Multisig.signMultisigProposal p k pub = Ok p' → signMultisigProposal p k pub = Ok p'.
Proof.
  intros Hp Hk H. unfold Multisig.signMultisigProposal, proposalToTxInputsOutputs in H.
  apply bind_ok in H as (sigs & Hf & H). unfold signMultisigProposal.
  rewrite txInputs_hex, outputs_hex by done. cbn [mbind result_bind].
  erewrite (foldR_same _ _ (λ iu : nat * prop_input, hex_text (pi_redeemScript iu.2) = true)); [done| | |exact Hf].
  - intros s a s' Ha. by apply sign_proposal_input_same; [apply typed_inputs|apply typed_outputs|..].
  - apply (Forall_zip_snd (λ i, hex_text (pi_redeemScript i) = true)).
    eapply Forall_impl; [|apply Hp]. by intros i [_ ?].
Qed.

(** The phone walks a redeem script without leaving it. *)
Lemma _parse_pubkeys_pushes pks pre op tail fuel :
  Forall compressed pks → 75 < op → (length pks < fuel)%nat →
  _parse_pubkeys fuel (pre ++ assemble (Push <$> pks) ++ op :: tail) (length pre) = Ok (bytesToHex <$> pks).
Proof.
  intros Hc Hop. revert pre fuel. induction Hc as [|pk pks Hpk _ IH]; intros pre [|fuel] Hf; try (simpl in Hf; lia).
  - cbn [_parse_pubkeys]. rewrite lookup_app_r, Nat.sub_diag by lia. cbn.
    destruct (Z.leb_spec op 75); [lia|]. by rewrite andb_false_r.
  - rewrite fmap_cons, assemble_cons. cbn [item_bytes]. rewrite push_compressed by done.
    cbn [_parse_pubkeys]. rewrite lookup_app_r, Nat.sub_diag by lia. cbn [app lookup list_lookup].
    change ((1 <=? 33) && (33 <=? 75)) with true. cbv match.
    specialize (IH (pre ++ 33 :: pk) fuel ltac:(simpl in Hf; lia)).
    replace ((pre ++ 33 :: pk) ++ assemble (Push <$> pks) ++ op :: tail)
      with (pre ++ 33 :: (pk ++ assemble (Push <$> pks)) ++ op :: tail) in IH by (by rewrite <- !app_assoc).
    rewrite length_app in IH. cbn [length] in IH. unfold compressed in Hpk. rewrite Hpk in IH.
    unfold sublist. rewrite (proj2 (Nat.leb_le _ _)) by lia.
    rewrite (proj2 (Nat.leb_le _ _)).
    2:{ rewrite !length_app. cbn [length]. rewrite !length_app. cbn [length]. lia. }
    cbn [andb mbind result_bind]. change (Z.to_nat 33) with 33%nat.
    replace (length pre + 1 + 33)%nat with (length pre + 34)%nat by lia. rewrite IH. cbn [mbind result_bind].
    unfold mret, result_ret. rewrite fmap_cons. do 2 f_equal. rewrite bytesToHexLocal_eq. f_equal.
    replace (length pre + 34 - (length pre + 1))%nat with 33%nat by lia. rewrite <- drop_drop, drop_app_length.
    cbn [drop]. rewrite <- !app_assoc, <- Hpk. apply take_app_length.
Qed.

Lemma _parse_redeem u : mspend_ok u → _parsePubkeysInOrder (ms_redeem u) = Ok (bytesToHex <$> ms_pks u).
Proof.
  intros Hu. pose proof (ms_redeem_length u) as Hl. unfold _parsePubkeysInOrder, ms_redeem, redeem_items in *.
  rewrite assemble_cons, assemble_app in *.
  apply (_parse_pubkeys_pushes (ms_pks u) [0x50 + ms_m u] (0x50 + Z.of_nat (length (ms_pks u))) [OP_CHECKMULTISIG]).
  - apply ms_pks_compressed.
  - destruct Hu as (_ & _ & _ & H1 & H2). unfold ms_pks. rewrite length_fmap. lia.
  - rewrite Hl. unfold ms_pks. rewrite length_fmap. lia.
Qed.

Lemma ordered_raw tx i code pks c :
  collected_ok tx i code pks c →
  ordered_sigs c (bytesToHex <$> pks) = omap (λ pk, c !! pk) (bytesToHex <$> pks) ∧
  Forall (λ h, hex_text h = true) (omap (λ pk, c !! pk) (bytesToHex <$> pks)).
Proof.
  unfold collected_ok, ordered_sigs. induction 1 as [|pk pks Hpk _ [E IH]]; [by split; [|constructor]|].
  rewrite fmap_cons. cbn [omap list_omap]. destruct (c !! bytesToHex pk) as [h|]; [|done].
  destruct (Hpk h eq_refl) as (s & -> & _ & _ & Hl & Hb). cbn [mbind option_bind].
  rewrite hex_nonempty by (done || by intros E0; rewrite E0 in Hl; simpl in Hl; lia).
  split; [by rewrite E|]. constructor; [by apply hex_text_bytesToHex|done].
Qed.

Lemma finalize_scriptSig_same tx i u c sigs s :
  mspend_ok u → collected_ok tx i (ms_redeem u) (ms_pks u) c → sigs !! i = Some c →
  finalize_scriptSig i (ms_redeem u) (sigs !! i) = Ok s → _finalize_scriptSig i (ms_redeem u) sigs = Ok s.
Proof.
  intros Hu Hc Hi H. rewrite Hi in H. unfold finalize_scriptSig in H. unfold _finalize_scriptSig.
  assert (Hparse : parsePubkeysInOrder (ms_redeem u) = bytesToHex <$> ms_pks u).
  { apply parse_redeem; [apply ms_pks_compressed|]. destruct Hu as (_ & _ & _ & H1 & H2).
    unfold ms_pks. rewrite length_fmap. lia. }
  destruct (ordered_raw _ _ _ _ _ Hc) as [E Hhex]. rewrite Hparse in H.
  change (bool_decide (Some c = None)) with false in H. cbn [andb throw_if mbind result_bind] in H.
  change (default ∅ (Some c)) with c in H. rewrite E in H.
  assert (Hfirst : ms_redeem u !! 0%nat = Some (0x50 + ms_m u)) by done.
  rewrite Hfirst in H. cbn [fmap option_fmap option_map] in H.
  change (default false (Some ?b)) with b in H. change (default 0 (Some ?b)) with b in H.
  unfold index. rewrite Hfirst, Hi. cbn [mbind result_bind]. rewrite _parse_redeem by done. cbn [mbind result_bind].
  replace (0x50 + ms_m u - 0x50) with (ms_m u) in * by lia.
  set (l := omap _ _) in *. destruct (Z.ltb_spec (Z.of_nat (length l)) (ms_m u)); [done|].
  destruct Hu as (_ & _ & _ & Hm & _). unfold dart_take. destruct (Z.ltb_spec (ms_m u) 0); [lia|].
  cbn [mbind result_bind]. replace (ms_m u) with (Z.of_nat (Z.to_nat (ms_m u))) in H by lia.
  rewrite js_slice_prefix in H by lia. rewrite concatBytes_join in H. apply Toy.Ok_inj in H as <-.
  rewrite (mapR_total _ hexToBytes).
  2:{ intros h Hh. apply hexToBytesLocal_digits. rewrite list.Forall_forall in Hhex.
      apply Hhex. by eapply elem_of_take in Hh as (? & ? & _); eapply list_elem_of_lookup_2. }
  cbn [mbind result_bind]. f_equal. rewrite !mjoin_app. cbn [mjoin list_join]. rewrite !app_nil_r.
  rewrite (mjoin_parts _ (λ sig, [to_u8 (len sig)] ++ sig)) by (intros x; cbn [mjoin list_join]; by rewrite app_nil_r).
  rewrite _varInt_WriteCompactSize, varInt_WriteCompactSize by (unfold len; lia). done.
Qed.

(** A proposal over outputs to spend holds hexadecimal text. *)
Lemma prop0_hex us outs locktime sigs :
  Forall mspend_ok us → Forall (λ o, all_bytes (scriptPubKey o)) outs →
  proposal_hex (set_signatures (prop0 us outs locktime) sigs).
Proof.
  intros Hus Ho. split.
  - change (p_inputs (set_signatures ?p _)) with (p_inputs p). rewrite prop0_inputs. apply Forall_fmap.
    eapply Forall_impl; [|exact Hus]. intros u Hu.
    split; apply hex_text_bytesToHex; [by destruct Hu as (_ & ? & _)|by apply ms_redeem_bytes].
  - cbn [set_signatures p_outputs prop0 Multisig.createMultisigProposal]. apply Forall_fmap.
    eapply Forall_impl; [|exact Ho]. intros o H. by apply hex_text_bytesToHex.
Qed.

Lemma zip_seq_lookup {A} (l : list A) n i x :
  zip (seq 0 (length l)) l !! n = Some (i, x) → i = n ∧ l !! n = Some x.
Proof.
  intros H. apply lookup_zip_with_Some in H as (a & b & [= -> ->] & Ha & Hb).
  apply lookup_seq in Ha as [-> _]. done.
Qed.

(** Finalizing a proposal over [us] that cosigners have signed. *)
Lemma finalize_same us outs locktime ks sigs raw :
  Forall mspend_ok us → Forall (λ o, all_bytes (scriptPubKey o)) outs →
  signed_by us (prop_tx us outs locktime) ks sigs →
  Multisig.finalizeMultisigTransaction (set_signatures (prop0 us outs locktime) sigs) = Ok raw →
  finalizeMultisigTransaction (set_signatures (prop0 us outs locktime) sigs) = Ok raw.
Proof.
  intros Hus Houts [Hl Hs] H. unfold Multisig.finalizeMultisigTransaction, proposalToTxInputsOutputs in H.
  apply bind_ok in H as (txs & Hf & H). rewrite serializeTx_layout in H. apply Toy.Ok_inj in H as <-.
  pose proof (prop0_hex us outs locktime sigs Hus Houts) as Hp. unfold finalizeMultisigTransaction.
  rewrite txInputs_hex, outputs_hex by done. cbn [mbind result_bind].
  erewrite (foldR_same _ _ (λ iu : nat * prop_input, ∃ u c, iu.2 = ms_input u ∧ mspend_ok u ∧
    sigs !! iu.1 = Some c ∧ collected_ok (prop_tx us outs locktime) iu.1 (ms_redeem u) (ms_pks u) c)); [| | |exact Hf].
  - cbn [mbind result_bind]. by rewrite serialize_same.
  - intros t [i inp] t' (u & c & Einp & Hu & Hc & Hcol) Hstep. cbn [fst snd] in *. subst inp.
    unfold finalize_input in Hstep. apply bind_ok in Hstep as (s & Hss & Hstep). unfold _finalize_input.
    cbn [ms_input pi_redeemScript] in *. rewrite hexToBytes_bytesToHex_aux in Hss by (by apply ms_redeem_bytes).
    rewrite hexToBytesLocal_hex by (by apply ms_redeem_bytes). cbn [mbind result_bind].
    change (p_signatures (set_signatures ?p ?s)) with s in *.
    by rewrite (finalize_scriptSig_same _ i u c sigs s Hu Hcol Hc Hss).
  - change (p_inputs (set_signatures ?p _)) with (p_inputs p). rewrite prop0_inputs. apply Forall_lookup.
    intros n [i inp] (-> & Hn)%zip_seq_lookup. rewrite list_lookup_fmap in Hn.
    destruct (us !! n) as [u|] eqn:Eu; [|done]. injection Hn as <-. destruct (Hs n u Eu) as (c & Hc & Hcol & _).
    exists u, c. split_and!; try done. by apply (Forall_lookup_1 _ _ n u Hus).
Qed.
End same.

(** ** Cosigners on different devices *)

Inductive device := OnBrowser | OnPhone.

Lemma toJson_same p : toJson p = proposal_json p.
Proof. done. Qed.

Lemma fromJson_back p : proposal_small p → fromJson (toJson p) = Ok p.
Proof.
  intros (Hv & Hl & Hi & Ho). destruct p as [ver lock ins outs sigs]. cbn [p_version p_locktime p_inputs p_outputs] in *.
  assert (Hint : ∀ z, small z → dart_int_of (Some (jint z)) = Ok z).
  { intros z Hz. unfold dart_int_of, jint. by rewrite num_to_bigint_small. }
  unfold fromJson, toJson. cbn -[jint dart_int_of mapR].
  rewrite !Hint by done. cbn [mbind result_bind]. rewrite (mapR_back input_fromJson), (mapR_back output_fromJson),
    (mapR_back signatures_fromJson); [done| | |].
  - apply Forall_true. intros m. unfold signatures_fromJson. cbn [dart_map_of mbind result_bind].
    rewrite (mapR_total _ (λ kv, (kv.1, match kv.2 with JStr s => s | _ => "" end))).
    + cbn [mbind result_bind]. rewrite <- list_fmap_compose, (list_fmap_ext _ id) by (by intros ? [? ?] ?).
      by rewrite list_fmap_id, list_to_map_to_list.
    + intros [k v] ([k' s] & [= -> ->] & _)%list_elem_of_fmap. done.
  - eapply Forall_impl; [|exact Ho]. intros [sp v] H. unfold output_fromJson. cbn -[jint dart_int_of].
    by rewrite Hint.
  - eapply Forall_impl; [|exact Hi]. intros [t o v r] [H1 H2]. unfold input_fromJson. cbn -[jint dart_int_of].
    rewrite Hint by done. cbn [mbind result_bind]. by rewrite Hint.
Qed.

Section devices.
Context {P : Primitives} {MP : MobilePackages}.

(** The text of a proposal, written and read on either device. *)
Definition write_on (d : device) (p : proposal) : string :=
  stringify2 (match d with OnBrowser => proposal_json p | OnPhone => toJson p end).
Definition read_on (d : device) (text : string) : result proposal :=
  v ← parse text; match d with OnBrowser => proposal_of v | OnPhone => fromJson v end.

(** A cosigner pastes the text, signs with a key and passes the new text on. *)
Definition cosign (text : string) (dk : device * bytes) : result string :=
  let '(d, k) := dk in
  p ← read_on d text;
  p ← (match d with
       | OnBrowser => Multisig.signMultisigProposal p k (secp_public k)
       | OnPhone => signMultisigProposal p k (secp_public k)
       end);
  mret (write_on d p).

Definition finalize_on (d : device) (text : string) : result bytes :=
  p ← read_on d text;
  match d with
  | OnBrowser => Multisig.finalizeMultisigTransaction p
  | OnPhone => finalizeMultisigTransaction p
  end.

(** The coin of an output to spend, as the phone's screen builds it. *)
Definition ms_coin (u : mspend) : spend :=
  {| u_txid := ms_txid u; u_vout := ms_vout u; u_value := ms_value u; u_pubkeyHash := replicate 20 0;
     u_privateKey := None; u_publicKey := None; u_sequence := None |}.

Definition create_on (d : device) (us : list mspend) (outs : list txout) (locktime : Z) : result proposal :=
  match d with
  | OnBrowser => Ok (Multisig.createMultisigProposal (ms_utxo <$> us) outs locktime)
  | OnPhone => createMultisigProposal (ms_coin <$> us) (ms_redeem <$> us) outs locktime
  end.

Lemma create_same d us outs locktime :
  create_on d us outs locktime = Ok (Multisig.createMultisigProposal (ms_utxo <$> us) outs locktime).
Proof.
  destruct d; [done|]. unfold create_on, createMultisigProposal, Multisig.createMultisigProposal.
  assert (E : mapR (λ iu : nat * spend, let '(i, u) := iu in
      redeemScript ← index (ms_redeem <$> us) i;
      mret {| pi_txid := _bytesToHexLocal (u_txid u); pi_vout := u_vout u; pi_valueSatoshis := u_value u;
              pi_redeemScript := _bytesToHexLocal redeemScript |})
    (zip (seq 0 (length (ms_coin <$> us))) (ms_coin <$> us)) = Ok (ms_input <$> us)).
  { apply mapR_ok, Forall2_same_length_lookup_2.
    - by rewrite length_zip, length_seq, !length_fmap, Nat.min_id.
    - intros n [i u] inp (-> & Hu)%zip_seq_lookup Hin. rewrite list_lookup_fmap in Hu. rewrite list_lookup_fmap in Hin.
      unfold index. rewrite list_lookup_fmap. destruct (us !! n) as [v|]; [|done].
      injection Hu as <-. injection Hin as <-. done. }
  rewrite E. cbn [mbind result_bind]. rewrite <- !list_fmap_compose. done.
Qed.
End devices.

Lemma text_passes d d' p : proposal_small p → read_on d' (write_on d p) = Ok p.
Proof.
  intros Hp. unfold read_on, write_on.
  assert (E : (match d with OnBrowser => proposal_json p | OnPhone => toJson p end) = proposal_json p) by by destruct d.
  rewrite E. unfold stringify2. rewrite parse_write by (by apply proposal_json_ok). cbn [mbind result_bind].
  destruct d'; [by apply proposal_back|]. by apply fromJson_back.
Qed.

Section mixed.
Context {P : Primitives} {PL : PrimitiveLaws} {MP : MobilePackages} {ML : MobilePackageLaws}.

Lemma cosign_same d0 d p k p' :
  proposal_small p → proposal_hex p → typed_key k →
  Multisig.signMultisigProposal p k (secp_public k) = Ok p' →
  cosign (write_on d0 p) (d, k) = Ok (write_on d p').
Proof.
  intros Hs Hh Hk H. unfold cosign. rewrite text_passes by done. cbn [mbind result_bind].
  destruct d; [by rewrite H|]. by rewrite (sign_same p k _ p').
Qed.

(** Cosigners in turn, each on the device at hand. *)
Lemma cosign_all_same d0 ds p p' :
  proposal_small p → proposal_hex p → Forall typed_key (snd <$> ds) →
  sign_all p (snd <$> ds) = Ok p' →
  ∃ d, foldR cosign (write_on d0 p) ds = Ok (write_on d p').
Proof.
  revert d0 p. induction ds as [|[d k] ds IH]; intros d0 p Hs Hh Hk H.
  { exists d0. cbn in H. injection H as <-. done. }
  cbn [fmap list_fmap snd] in Hk, H. apply Forall_cons_iff in Hk as [Hk Hks].
  unfold sign_all in H. cbn [foldR] in *. apply bind_ok in H as (p1 & H1 & H).
  assert (Hp1 : ∃ sigs, p1 = set_signatures p sigs).
  { unfold Multisig.signMultisigProposal in H1. destruct (proposalToTxInputsOutputs p).
    apply bind_ok in H1 as (sigs & _ & [= <-]). by exists sigs. }
  destruct Hp1 as [sigs ->]. rewrite (cosign_same d0 d p k _ Hs Hh Hk H1). cbn [mbind result_bind].
  by apply (IH d (set_signatures p sigs)).
Qed.
End mixed.

(** C13. Cosigners may use whichever device they have.  A proposal created on a
    browser or a phone, passed on as text and signed in turn on browsers and
    phones in any order, finalizes on either to a transaction the node reads as
    the proposed one; its inputs are accepted when the redeem script has one or
    two keys and refused when it has three or more, on both devices alike. *)
Theorem mixed_cosigners {P : Primitives} {PL : PrimitiveLaws} {MP : MobilePackages} {ML : MobilePackageLaws}
    (us : list mspend) (outs : list txout) (locktime : Z) (creator final : device) (ds : list (device * bytes))
    (Hsetup : spend_setup us outs locktime (snd <$> ds))
    (Hkeys : Forall typed_key (snd <$> ds))
    (Hsmall : proposal_small (Multisig.createMultisigProposal (ms_utxo <$> us) outs locktime)) :
  ∃ p text raw tx,
    create_on creator us outs locktime = Ok p ∧
    foldR cosign (write_on creator p) ds = Ok text ∧
    finalize_on final text = Ok raw ∧
    UnserializeTransaction true raw = Ok (tx, []) ∧ vout tx = node_out <$> outs ∧
    ∀ i u, us !! i = Some u → ∃ inp, vin tx !! i = Some inp ∧
      prevout inp = {| op_hash := ms_txid u; op_n := ms_vout u |} ∧
      ((length (ms_privs u) <= 2)%nat →
        VerifyScript tx i (txin_scriptSig inp) (p2shScriptPubKey (hash160 (ms_redeem u))) (scriptWitness inp) = Ok tt) ∧
      ((3 <= length (ms_privs u))%nat →
        VerifyScript tx i (txin_scriptSig inp) (p2shScriptPubKey (hash160 (ms_redeem u))) (scriptWitness inp) ≠ Ok tt).
Proof.
  destruct (spend_outcome us outs locktime _ Hsetup) as (p & raw & tx & H1 & H2 & H3 & H4 & H5).
  destruct Hsetup as (_ & Hus & _ & Hb & _ & _ & _ & Hks & _).
  destruct (sign_all_ok us outs locktime Hus Hb _ Hks) as (sigs & Es & Hs).
  fold (prop0 us outs locktime) in *. rewrite Es in H1. injection H1 as <-.
  assert (Hhex : proposal_hex (prop0 us outs locktime)) by (by apply (prop0_hex us outs locktime (p_signatures (prop0 us outs locktime)))).
  destruct (cosign_all_same creator ds (prop0 us outs locktime) _ Hsmall Hhex Hkeys Es) as (d & Hd).
  eexists _, _, raw, tx. split; [apply create_same|]. split; [exact Hd|]. split.
  { unfold finalize_on. rewrite text_passes by done. cbn [mbind result_bind].
    destruct final; [exact H2|]. by eapply finalize_same. }
  split; [exact H3|]. split; [exact H4|].
  intros i u Hi. destruct (H5 i u Hi) as (inp & Hv & Hp & Hw & Ha & Hr). exists inp. by rewrite Hw.
Qed.

Lemma mixed_cosigners_witness :
  ∃ p text raw, create_on (P := Toy.prims) OnPhone MultisigExample.two_of_two MultisigExample.outs 0 = Ok p ∧
    foldR (cosign (P := Toy.prims) (MP := ToyPackages.packages)) (write_on OnPhone p)
      [(OnBrowser, MultisigExample.key 6); (OnPhone, MultisigExample.key 5)] = Ok text ∧
    finalize_on OnBrowser text = Ok raw.
Proof.
  destruct (mixed_cosigners (P := Toy.prims) (PL := Toy.laws) (MP := ToyPackages.packages)
    (ML := ToyPackages.package_laws) MultisigExample.two_of_two MultisigExample.outs 0 OnPhone OnBrowser
    [(OnBrowser, MultisigExample.key 6); (OnPhone, MultisigExample.key 5)])
    as (p & text & raw & tx & H1 & H2 & H3 & _).
  - apply MultisigExample.setup. left. reflexivity.
  - repeat constructor; lia.
  - unfold proposal_small, small. split; [split; vm_compute; discriminate|]. split; [split; vm_compute; discriminate|].
    split; repeat constructor; vm_compute; discriminate.
  - exists p, text, raw. split; [exact H1|]. split; [exact H2|exact H3].
Defined.

(** ** Where the phone departs from the code it mirrors *)

Lemma addAll_assign a b : length a = length b → addAll_signatures a b = Ok (assign_signatures a b).
Proof.
  intros Hl. unfold addAll_signatures, assign_signatures. apply mapR_ok, Forall2_same_length_lookup_2.
  - by rewrite length_zip, length_seq, length_imap, Nat.min_id.
  - intros n [i m] y (-> & Hm)%zip_seq_lookup Hy. rewrite list_lookup_imap, Hm in Hy. injection Hy as <-.
    unfold index. cbn [fst snd]. destruct (lookup_lt_is_Some_2 b n) as [s Hs]; [rewrite <- Hl; by eapply lookup_lt_Some|].
    by rewrite Hs.
Qed.

(** Merging copies with as many signature maps gives the proposal the browser's
    [mergeMultisigProposals] gives, but the first argument has become it too: a
    cosigner who kept that copy to compare with, or to sign apart, no longer has
    it. *)
Theorem merge_same_but_shared (p0 : proposal) (rest : list proposal)
    (Hl : Forall (λ p, length (p_signatures p) = length (p_signatures p0)) rest) :
  ∃ merged, Multisig.mergeMultisigProposals (p0 :: rest) = Ok merged ∧
    mergeMultisigProposals (p0 :: rest) = Ok (merged, merged :: rest).
Proof.
  eexists. split; [reflexivity|]. unfold mergeMultisigProposals.
  assert (E : ∀ s, length s = length (p_signatures p0) →
    foldR (λ s p, addAll_signatures s (p_signatures p)) s rest = Ok (foldl (λ s p, assign_signatures s (p_signatures p)) s rest)).
  { induction Hl as [|p rest Hp _ IH]; intros s Hs; [done|]. cbn [foldR foldl].
    rewrite addAll_assign by congruence. cbn [mbind result_bind]. apply IH.
    unfold assign_signatures. by rewrite length_imap. }
  by rewrite E.
Qed.

Lemma merge_same_but_shared_witness :
  ∃ p0 p1 merged, p0 ≠ merged ∧ mergeMultisigProposals [p0; p1] = Ok (merged, [merged; p1]).
Proof.
  pose (p0 := {| p_version := 2; p_locktime := 0; p_inputs := []; p_outputs := []; p_signatures := [{["02" := "30"]}] |}).
  pose (p1 := {| p_version := 2; p_locktime := 0; p_inputs := []; p_outputs := []; p_signatures := [{["03" := "31"]}] |}).
  destruct (merge_same_but_shared p0 [p1]) as (merged & Hm & Hp); [repeat constructor|].
  exists p0, p1, merged. split; [|exact Hp].
  injection Hm as <-. intros E. apply (f_equal (λ p, head (p_signatures p) ≫= (.!! "03"))) in E.
  vm_compute in E. discriminate E.
Defined.

(** An empty signature counts on the phone.  [containsKey] asks only whether a
    signature was recorded, the browser's [filter(Boolean)] also drops empty ones:
    for a one-key-of-n script whose only entry is the empty string, the browser
    reports a missing signature and the phone assembles a transaction. *)
Theorem empty_signature_counts {P : Primitives} {PL : PrimitiveLaws} (u : mspend) (k : bytes)
    (Hu : mspend_ok u) (Hm : ms_m u = 1) (Hk : k ∈ ms_privs u) :
  let sigs := [{[bytesToHex (secp_public k) := ""]}] in
  is_ok (finalize_scriptSig 0 (ms_redeem u) (sigs !! 0%nat)) = false ∧
  is_ok (_finalize_scriptSig 0 (ms_redeem u) sigs) = true.
Proof.
  intros sigs. set (c := {[bytesToHex (secp_public k) := ""]} : gmap string string).
  assert (Hparse : parsePubkeysInOrder (ms_redeem u) = bytesToHex <$> ms_pks u).
  { apply parse_redeem; [apply ms_pks_compressed|]. destruct Hu as (_ & _ & _ & H1 & H2).
    unfold ms_pks. rewrite length_fmap. lia. }
  assert (Hfirst : ms_redeem u !! 0%nat = Some (0x50 + 1)) by (rewrite <- Hm; done).
  change (sigs !! 0%nat) with (Some c). split.
  - unfold finalize_scriptSig. rewrite Hparse, Hfirst. change (bool_decide (Some c = None)) with false.
    cbn [andb throw_if mbind result_bind fmap option_fmap option_map]. change (default ∅ (Some c)) with c.
    assert (E : ordered_sigs c (bytesToHex <$> ms_pks u) = []).
    { unfold ordered_sigs. clear Hparse. induction (bytesToHex <$> ms_pks u) as [|h l IH]; [done|]. cbn [omap list_omap].
      unfold c at 1. destruct (decide (bytesToHex (secp_public k) = h)) as [<-|Hne].
      - rewrite lookup_singleton_eq. exact IH.
      - rewrite lookup_singleton_ne by done. exact IH. }
    by rewrite E.
  - unfold _finalize_scriptSig, index. rewrite Hfirst. cbn [mbind result_bind]. rewrite _parse_redeem by done.
    cbn [mbind result_bind]. change (sigs !! 0%nat) with (Some c). cbn [mbind result_bind].
    set (l := omap _ _). assert (Hl : ∃ t, l = "" :: t ∧ Forall (λ s, s = "") t).
    { assert (Hin : bytesToHex (secp_public k) ∈ bytesToHex <$> ms_pks u).
      { apply list_elem_of_fmap_2. unfold ms_pks. by apply list_elem_of_fmap_2. }
      assert (Hall : Forall (λ s, s = "") l).
      { unfold l, c. apply list.Forall_forall. intros s Hs. apply list_elem_of_omap in Hs as (h & _ & Hs).
        by apply lookup_singleton_Some in Hs as [_ <-]. }
      destruct l as [|s t] eqn:El; [|apply Forall_cons_iff in Hall as [-> Ht]; eauto].
      assert ("" ∈ l) as Hn; [|by rewrite El in Hn; apply not_elem_of_nil in Hn].
      apply list_elem_of_omap. eexists. split; [exact Hin|]. unfold c. apply lookup_singleton_eq. }
    destruct Hl as (t & -> & _). cbn [length]. change (0x50 + 1 - 0x50) with 1.
    destruct (Z.ltb_spec (Z.of_nat (S (length t))) 1); [lia|]. done.
Qed.

Lemma empty_signature_counts_witness :
  let u := MultisigExample.output 1 [MultisigExample.key 5; MultisigExample.key 6] in
  is_ok (_finalize_scriptSig 0 (@ms_redeem Toy.prims u)
    [{[bytesToHex (@secp_public Toy.prims (MultisigExample.key 6)) := ""]}]) = true.
Proof.
  intros u. apply (empty_signature_counts (P := Toy.prims) (PL := Toy.laws) u (MultisigExample.key 6)).
  - split_and!; try (vm_compute; congruence); try reflexivity. apply Forall_replicate. unfold is_byte. lia.
  - reflexivity.
  - right. left.
Defined.

(** ** Sent payments and fee bumping on the phone

    cac_wallet/lib/crypto/transaction.dart 268-392: the record of a sent payment,
    its JSON form and [buildBumpFeeTransaction].  Amounts are 64-bit integers.
    The replacement is the one the web wallet's [buildBumpFeeTransaction] builds
    from the same record. *)

Record SentTxInput := { txidHex : string; sent_vout : Z; sent_value : Z; derivationIndex : Z }.
Record SentTxRecord := { sr_inputs : list SentTxInput; sr_outputs : list sent_output; sr_feeSatoshis : Z }.

Definition input_toJson (i : SentTxInput) : json :=
  JObj [("txid", JStr (txidHex i)); ("vout", jint (sent_vout i)); ("valueSatoshis", jint (sent_value i));
        ("derivationIndex", jint (derivationIndex i))].
Definition output_toJson (o : sent_output) : json :=
  JObj [("scriptPubKeyHex", JStr (so_scriptPubKeyHex o)); ("valueSatoshis", jint (so_valueSatoshis o));
        ("isChange", JBool (so_isChange o))].
Definition record_toJson (r : SentTxRecord) : json :=
  JObj [("inputs", JArr (input_toJson <$> sr_inputs r)); ("outputs", JArr (output_toJson <$> sr_outputs r));
        ("feeSatoshis", jint (sr_feeSatoshis r))].

(** [j['isChange'] as bool? ?? false] *)
Definition dart_bool_of (v : option json) : result bool :=
  match v with
  | Some (JBool b) => Ok b
  | None | Some JNull => Ok false
  | _ => Throw (TypeError "not a bool")
  end.

Definition sent_input_fromJson (v : json) : result SentTxInput :=
  j ← dart_map_of v;
  txid ← dart_string_of (obj_get "txid" j); vout ← dart_int_of (obj_get "vout" j);
  value ← dart_int_of (obj_get "valueSatoshis" j); idx ← dart_int_of (obj_get "derivationIndex" j);
  mret {| txidHex := txid; sent_vout := vout; sent_value := value; derivationIndex := idx |}.
Definition sent_output_fromJson (v : json) : result sent_output :=
  j ← dart_map_of v;
  script ← dart_string_of (obj_get "scriptPubKeyHex" j); value ← dart_int_of (obj_get "valueSatoshis" j);
  change ← dart_bool_of (obj_get "isChange" j);
  mret {| so_scriptPubKeyHex := script; so_valueSatoshis := value; so_isChange := change |}.
Definition record_fromJson (v : json) : result SentTxRecord :=
  j ← dart_map_of v;
  ins ← dart_list_of (obj_get "inputs" j) ≫= mapR sent_input_fromJson;
  outs ← dart_list_of (obj_get "outputs" j) ≫= mapR sent_output_fromJson;
  fee ← dart_int_of (obj_get "feeSatoshis" j);
  mret {| sr_inputs := ins; sr_outputs := outs; sr_feeSatoshis := fee |}.

Section bump.
Context {P : Primitives} {MP : MobilePackages}.

Definition _bump_input (keys : list keypair) (iu : nat * SentTxInput) : result spend :=
  let '(i, inp) := iu in
  txid ← _hexToBytesReversedLocal (txidHex inp);
  kp ← index keys i;
  mret {| u_txid := txid; u_vout := sent_vout inp; u_value := sent_value inp;
          u_pubkeyHash := hash160 (publicKey kp); u_privateKey := Some (privateKey kp);
          u_publicKey := Some (publicKey kp); u_sequence := None |}.

(** [inputPrivateKeys[i]] and [inputPublicKeys[i]] are the halves of one key. *)
Definition buildBumpFeeTransaction (record : SentTxRecord) (newFeeSatoshis : Z) (keys : list keypair)
    : result (bytes * list sent_output) :=
  match find_index so_isChange (sr_outputs record) with
  | None => Throw (StateError "This transaction has no change output to reduce -- can't bump its fee automatically here.")
  | Some changeIndex =>
      changeOutput ← index (sr_outputs record) changeIndex;
      let feeIncrease := dart_int (newFeeSatoshis - sr_feeSatoshis record) in
      let newChangeValue := dart_int (so_valueSatoshis changeOutput - feeIncrease) in
      if newChangeValue <=? 0 then Throw (StateError "Not enough change left to cover a higher fee.") else
      inputs ← mapR (_bump_input keys) (zip (seq 0 (length (sr_inputs record))) (sr_inputs record));
      outputs ← mapR (λ io : nat * sent_output, let '(i, o) := io in
                  script ← _hexToBytesLocal (so_scriptPubKeyHex o);
                  mret {| valueSatoshis := if (i =? changeIndex)%nat then newChangeValue else so_valueSatoshis o;
                          scriptPubKey := script |})
                (zip (seq 0 (length (sr_outputs record))) (sr_outputs record));
      rawTx ← buildAndSignTransaction inputs outputs None None 0;
      let newOutputs := imap (λ i o, if (i =? changeIndex)%nat
            then {| so_scriptPubKeyHex := so_scriptPubKeyHex o; so_valueSatoshis := newChangeValue; so_isChange := true |}
            else o) (sr_outputs record) in
      Ok (rawTx, newOutputs)
  end.
End bump.

(** ** Round trip *)

Definition record_small (r : SentTxRecord) : Prop :=
  Forall (λ i, small (sent_vout i) ∧ small (sent_value i) ∧ small (derivationIndex i)) (sr_inputs r) ∧
  Forall (λ o, small (so_valueSatoshis o)) (sr_outputs r) ∧ small (sr_feeSatoshis r).

Lemma dart_int_jint z : small z → dart_int_of (Some (jint z)) = Ok z.
Proof. intros Hz. unfold dart_int_of, jint. by rewrite num_to_bigint_small. Qed.

Lemma record_back r : record_small r → record_fromJson (record_toJson r) = Ok r.
Proof.
  intros (Hi & Ho & Hf). destruct r as [ins outs fee]. cbn [sr_inputs sr_outputs sr_feeSatoshis] in *.
  unfold record_fromJson, record_toJson. cbn -[jint dart_int_of mapR].
  rewrite (mapR_back sent_input_fromJson), (mapR_back sent_output_fromJson).
  - cbn [mbind result_bind]. by rewrite dart_int_jint.
  - eapply Forall_impl; [|exact Ho]. intros [sc v c] H. unfold sent_output_fromJson. cbn -[jint dart_int_of].
    by rewrite dart_int_jint.
  - eapply Forall_impl; [|exact Hi]. intros [t o v x] (H1 & H2 & H3). unfold sent_input_fromJson.
    cbn -[jint dart_int_of]. by repeat (rewrite dart_int_jint by done; cbn [mbind result_bind]).
Qed.

(** ** The same replacement as the browser's *)

(** The record as the web wallet keeps it. *)
Definition web_record (r : SentTxRecord) : sent_record :=
  {| r_inputs := (λ i, {| si_txid := txidHex i; si_vout := sent_vout i; si_valueSatoshis := sent_value i |}) <$> sr_inputs r;
     r_outputs := sr_outputs r; r_feeSatoshis := sr_feeSatoshis r |}.

Definition record_hex (r : SentTxRecord) : Prop :=
  Forall (λ i, hex_text (txidHex i) = true) (sr_inputs r) ∧
  Forall (λ o, hex_text (so_scriptPubKeyHex o) = true) (sr_outputs r).

(** Amounts that a JavaScript number counts exactly. *)
Definition amount (z : Z) : Prop := 0 <= z <= 2 ^ 53.

Lemma reverse_hex s :
  hex_text s = true → _hexToBytesReversedLocal s = Ok (rev (hexToBytes s)).
Proof.
  intros Hs. unfold _hexToBytesReversedLocal. rewrite hexToBytesLocal_digits by done. cbn [mbind result_bind].
  unfold mret, result_ret. f_equal. rewrite rev_alt. apply fromList_bytes. unfold reverse. rewrite <- rev_alt.
  apply Forall_rev. apply hexToBytes_bytes.
Qed.

Section bump_same.
Context {P : Primitives} {PL : PrimitiveLaws} {MP : MobilePackages} {ML : MobilePackageLaws}.

Lemma bump_inputs_same keys ins us :
  Forall (λ i, hex_text (txidHex i) = true) ins →
  mapR (λ ii, bump_input keys ii.1 ii.2)
    (zip (seq 0 (length ins)) ((λ i, {| si_txid := txidHex i; si_vout := sent_vout i; si_valueSatoshis := sent_value i |}) <$> ins)) = Ok us →
  mapR (_bump_input keys) (zip (seq 0 (length ins)) ins) = Ok us.
Proof.
  generalize 0%nat. intros j Hi. revert j us. induction Hi as [|inp ins Hin _ IH]; intros j us H; [exact H|].
  cbn [length seq fmap list_fmap zip zip_with mapR] in *. apply bind_ok in H as (u & Hu & H).
  apply bind_ok in H as (us' & Hus & [= <-]). cbn [fst snd] in Hu.
  assert (E : _bump_input keys (j, inp) = Ok u).
  { unfold bump_input in Hu. unfold _bump_input, index. rewrite reverse_hex by done. cbn [mbind result_bind].
    destruct (keys !! j) as [kp|]; [exact Hu|done]. }
  rewrite E. cbn [mbind result_bind]. by rewrite (IH (S j) us' Hus).
Qed.

Lemma bump_outputs_same change v outs o :
  Forall (λ o, hex_text (so_scriptPubKeyHex o) = true) outs → outs !! change = Some o → so_isChange o = true →
  mapR (λ io : nat * sent_output, let '(i, o) := io in
      script ← _hexToBytesLocal (so_scriptPubKeyHex o);
      mret {| valueSatoshis := if (i =? change)%nat then v else so_valueSatoshis o; scriptPubKey := script |})
    (zip (seq 0 (length outs)) outs) = Ok (sent_txout <$> imap (bump_output change v) outs) ∧
  imap (λ i o, if (i =? change)%nat
    then {| so_scriptPubKeyHex := so_scriptPubKeyHex o; so_valueSatoshis := v; so_isChange := true |} else o) outs =
  imap (bump_output change v) outs.
Proof.
  intros Hh Ho Hc. split.
  - apply mapR_ok, Forall2_same_length_lookup_2.
    + by rewrite length_zip, length_seq, length_fmap, length_imap, Nat.min_id.
    + intros n [i x] y (-> & Hx)%zip_seq_lookup Hy. rewrite list_lookup_fmap, list_lookup_imap, Hx in Hy.
      injection Hy as <-. rewrite Forall_lookup in Hh. rewrite hexToBytesLocal_digits by (by apply (Hh n)).
      cbn [mbind result_bind]. unfold mret, result_ret, sent_txout, bump_output.
      by case_bool_decide; destruct (Nat.eqb_spec n change).
  - apply imap_ext. intros n x Hx. unfold bump_output. case_bool_decide as En; destruct (Nat.eqb_spec n change); try done.
    subst. rewrite Ho in Hx. by injection Hx as <-; rewrite Hc.
Qed.
End bump_same.

(** A payment recorded on the phone is bumped to the transaction the browser
    would build from the same record: whenever the web wallet's
    [buildBumpFeeTransaction] returns a replacement, the phone's returns the same
    bytes and the same new outputs, and its 64-bit amounts never wrap around.  The
    fee is raised, and no amount is above 2^53 satoshis, where the browser rounds. *)
Theorem mobile_bump_same {P : Primitives} {PL : PrimitiveLaws} {MP : MobilePackages} {ML : MobilePackageLaws}
    (r : SentTxRecord) (newFee : Z) (keys : list keypair) (raw : bytes) (outs : list sent_output)
    (Hhex : record_hex r) (Hkeys : Forall (λ kp, typed_key (privateKey kp) ∧ all_bytes (publicKey kp)) keys)
    (Hfee : amount newFee) (Hold : 0 <= sr_feeSatoshis r <= newFee)
    (Hvals : Forall (λ o, amount (so_valueSatoshis o)) (sr_outputs r))
    (Hweb : BumpFee.buildBumpFeeTransaction (web_record r) newFee keys = Ok (raw, outs)) :
  buildBumpFeeTransaction r newFee keys = Ok (raw, outs).
Proof.
  unfold BumpFee.buildBumpFeeTransaction, web_record in Hweb. cbn [r_inputs r_outputs r_feeSatoshis] in Hweb.
  unfold buildBumpFeeTransaction. destruct (find_index so_isChange (sr_outputs r)) as [c|] eqn:Ec; [|done].
  destruct (find_index_Some _ _ _ Ec) as (o & Ho & Hch). unfold index. rewrite Ho in *. cbn [mbind result_bind].
  assert (Hov : amount (so_valueSatoshis o)) by (by apply (Forall_lookup_1 _ _ _ _ Hvals Ho)). unfold amount in *.
  rewrite (dart_int_small (newFee - _)) by lia. rewrite dart_int_small by lia.
  assert (Hsub : js_sub (so_valueSatoshis o) (js_sub newFee (sr_feeSatoshis r)) = so_valueSatoshis o - (newFee - sr_feeSatoshis r)) by (rewrite (js_sub_small newFee) by lia; apply js_sub_small; lia). rewrite Hsub in Hweb.
  destruct (_ <=? 0) eqn:El; [done|]. destruct Hhex as [Hi Hh].
  rewrite length_fmap in Hweb. apply bind_ok in Hweb as (us & Hus & Hweb). apply bind_ok in Hweb as (raw' & Hraw & [= -> <-]).
  rewrite (bump_inputs_same keys _ us Hi Hus). cbn [mbind result_bind].
  destruct (bump_outputs_same c (so_valueSatoshis o - (newFee - sr_feeSatoshis r)) (sr_outputs r) o Hh Ho Hch) as [E1 E2].
  rewrite E1. cbn [mbind result_bind]. rewrite (mobile_signs_same_aux us _ None None 0 raw); [|..|exact Hraw].
  - cbn [mbind result_bind]. by rewrite E2.
  - apply mapR_ok in Hus. apply Forall_lookup. intros n u Hn.
    destruct (Forall2_lookup_r _ _ _ _ _ Hus Hn) as ([i inp] & _ & Hb). cbn [fst snd] in Hb. unfold bump_input in Hb.
    destruct (keys !! i) as [kp|] eqn:Ek; [|done]. injection Hb as <-. unfold typed_spend. cbn [u_txid u_pubkeyHash u_privateKey u_publicKey or_else].
    destruct (Forall_lookup_1 _ _ _ _ Hkeys Ek) as [Hk1 Hk2]. split_and!.
    + apply Forall_rev. apply hexToBytes_bytes.
    + apply ripemd160_bytes.
    + by intros k [= <-].
    + by intros k [= <-].
  - apply Forall_fmap, Forall_true. intros x. apply hexToBytes_bytes.
Qed.
