(* ===== verification/MobileWallet.v ===== *)
(** * The phone's wallet service

    cac_wallet/lib/services/wallet_service.dart with the storage of
    wallet_storage.dart and the client of gateway_api.dart: the one object behind
    all screens.  Dart runs one piece of code at a time and switches to another
    only at an [await], so an asynchronous method is a tree of synchronous pieces
    with awaits between them ([cont]); [app_step] lets any number of calls, begun
    at any time, take turns at the awaits.  A stored value is read or written in a
    step of its own between two awaits.  [network] and [_gateway] are always
    assigned together, so one field stands for both; what the gateway answers is
    not constrained. *)

From stdpp Require Import relations.
From S2P Require Import Prelude JsString JsNum Amount Json Hex JsValue Primitives Base58 Address TxCodec Signing BumpFee AppMultisig.
From S2P Require Import Dart MobilePackages MobileAddress MobileTx MobileMultisig.

(** ** State *)

Record wallet := Wallet {
  w_network : CacNetwork;
  w_mnemonic : option string;
  w_stakeToken : option string;
  w_loaded : bool;
  w_themeMode : string;
  w_addressIndices : list Z;
  w_activeIndex : Z;
  w_keys : gmap Z keypair;
  w_addresses : gmap Z string;
  w_store : gmap string string             (* FlutterSecureStorage *)
}.

Definition net (st : wallet) : NetworkConfig := forNetwork (w_network st).

(** The state of a service object that has just been made, on a device with a store. *)
Definition fresh (store : gmap string string) : wallet :=
  Wallet CacMainnet None None false "system" [0] 0 ∅ ∅ store.

Definition set_network (n : CacNetwork) (st : wallet) : wallet :=
  Wallet n (w_mnemonic st) (w_stakeToken st) (w_loaded st) (w_themeMode st) (w_addressIndices st) (w_activeIndex st)
    (w_keys st) (w_addresses st) (w_store st).
Definition set_mnemonic (m : option string) (st : wallet) : wallet :=
  Wallet (w_network st) m (w_stakeToken st) (w_loaded st) (w_themeMode st) (w_addressIndices st) (w_activeIndex st)
    (w_keys st) (w_addresses st) (w_store st).
Definition set_token (t : option string) (st : wallet) : wallet :=
  Wallet (w_network st) (w_mnemonic st) t (w_loaded st) (w_themeMode st) (w_addressIndices st) (w_activeIndex st)
    (w_keys st) (w_addresses st) (w_store st).
Definition set_loaded (st : wallet) : wallet :=
  Wallet (w_network st) (w_mnemonic st) (w_stakeToken st) true (w_themeMode st) (w_addressIndices st) (w_activeIndex st)
    (w_keys st) (w_addresses st) (w_store st).
Definition set_theme (t : string) (st : wallet) : wallet :=
  Wallet (w_network st) (w_mnemonic st) (w_stakeToken st) (w_loaded st) t (w_addressIndices st) (w_activeIndex st)
    (w_keys st) (w_addresses st) (w_store st).
Definition set_indices (l : list Z) (st : wallet) : wallet :=
  Wallet (w_network st) (w_mnemonic st) (w_stakeToken st) (w_loaded st) (w_themeMode st) l (w_activeIndex st)
    (w_keys st) (w_addresses st) (w_store st).
Definition set_active (i : Z) (st : wallet) : wallet :=
  Wallet (w_network st) (w_mnemonic st) (w_stakeToken st) (w_loaded st) (w_themeMode st) (w_addressIndices st) i
    (w_keys st) (w_addresses st) (w_store st).
Definition set_caches (ks : gmap Z keypair) (ads : gmap Z string) (st : wallet) : wallet :=
  Wallet (w_network st) (w_mnemonic st) (w_stakeToken st) (w_loaded st) (w_themeMode st) (w_addressIndices st)
    (w_activeIndex st) ks ads (w_store st).
Definition set_store (s : gmap string string) (st : wallet) : wallet :=
  Wallet (w_network st) (w_mnemonic st) (w_stakeToken st) (w_loaded st) (w_themeMode st) (w_addressIndices st)
    (w_activeIndex st) (w_keys st) (w_addresses st) s.

(** ** Asynchronous code *)

(** What an [await] waits for: its turn, or a response of the gateway (a status
    and a body, or the exception of the HTTP client). *)
Inductive request :=
  | Turn
  | Http (url : string) (auth : option string) (body : option json).
Definition response (r : request) : Type :=
  match r with Turn => unit | Http _ _ _ => result (Z * string) end.

Inductive cont (A : Type) : Type :=
  | Return (a : A)
  | Throws (e : exn)
  | Await (r : request) (k : response r → wallet → wallet * cont A).
Arguments Return {A} a.
Arguments Throws {A} e.
Arguments Await {A} r k.

Definition cont_nested {A} (Q : cont A → Prop) (Hret : ∀ a, Q (Return a)) (Hthrow : ∀ e, Q (Throws e))
    (Hawait : ∀ r k, (∀ x st, Q (k x st).2) → Q (Await r k)) : ∀ c, Q c :=
  fix go c :=
    match c with
    | Return a => Hret a
    | Throws e => Hthrow e
    | Await r k => Hawait r k (λ x st, match k x st as y return Q y.2 with (st', c') => go c' end)
    end.

Definition task (A : Type) : Type := wallet → wallet * cont A.

Fixpoint then_do {A B} (c : cont A) (g : A → task B) : task B :=
  match c with
  | Return a => g a
  | Throws e => λ st, (st, Throws e)
  | Await r k => λ st, (st, Await r (λ x st, let '(st', c') := k x st in then_do c' g st'))
  end.

#[export] Instance task_ret : MRet task := λ A a st, (st, Return a).
#[export] Instance task_bind : MBind task := λ A B g m st, let '(st', c) := m st in then_do c g st'.

Definition lift {A} (r : result A) : task A :=
  λ st, match r with Ok a => (st, Return a) | Throw e => (st, Throws e) end.
Definition throw {A} (e : exn) : task A := λ st, (st, Throws e).
Definition gets {A} (f : wallet → A) : task A := λ st, (st, Return (f st)).
Definition modify (f : wallet → wallet) : task unit := λ st, (f st, Return ()).
Definition turn : task unit := λ st, (st, Await Turn (λ _ st, (st, Return ()))).
Definition send_request (url : string) (auth : option string) (body : option json) : task (Z * string) :=
  λ st, (st, Await (Http url auth body) (λ x, lift x)).

(** [await f()]: the caller goes on in a later turn. *)
Definition await {A} (m : task A) : task A := a ← m; _ ← turn; mret a.

(** [for (final x in xs) { ... }] *)
Fixpoint for_each {A} (xs : list A) (f : A → task unit) : task unit :=
  match xs with [] => mret () | x :: xs => _ ← f x; for_each xs f end.
Fixpoint fold_task {A S} (f : S → A → task S) (s : S) (xs : list A) : task S :=
  match xs with [] => mret s | x :: xs => s' ← f s x; fold_task f s' xs end.

(** ** Storage *)

Definition mnemonicKey : string := "cac_wallet_mnemonic_v1".
Definition activeNetworkKey : string := "cac_wallet_active_network_v1".
Definition themeModeKey : string := "cac_wallet_theme_mode_v1".
Definition stakeTokenKey : string := "cac_wallet_stake_token_v1".
Definition addressIndicesKeyPrefix : string := "cac_wallet_address_indices_v1_".
Definition addressBookKey : string := "cac_wallet_address_book_v1".
Definition watchListKey : string := "cac_wallet_watch_list_v1".
Definition sentTxLogKey : string := "cac_wallet_sent_tx_log_v1".
Definition seenTxidsKey : string := "cac_wallet_seen_txids_v1".

Definition storage {A} (f : gmap string string → A) (g : gmap string string → gmap string string) : task A :=
  _ ← turn;
  a ← (λ st, (set_store (g (w_store st)) st, Return (f (w_store st))));
  _ ← turn;
  mret a.
Definition sread (key : string) : task (option string) := storage (λ s, s !! key) id.
Definition swrite (key value : string) : task unit := storage (λ _, ()) <[key := value]>.
Definition sdelete (key : string) : task unit := storage (λ _, ()) (delete key).

Definition int_list (v : json) : result (list Z) := dart_list_of (Some v) ≫= mapR (λ x, dart_int_of (Some x)).
Definition string_list (v : json) : result (list string) := dart_list_of (Some v) ≫= mapR (λ x, dart_string_of (Some x)).

Definition saveAddressIndices (networkName : string) (indices : list Z) : task unit :=
  swrite (addressIndicesKeyPrefix +:+ networkName) (stringify (JArr (jint <$> indices))).
Definition readAddressIndices (networkName : string) : task (list Z) :=
  raw ← sread (addressIndicesKeyPrefix +:+ networkName);
  match raw with
  | None => mret [0]
  | Some t => l ← lift (parse t ≫= int_list); mret (match l with [] => [0] | _ => l end)
  end.
Definition saveSeenTxids (txids : list string) : task unit := swrite seenTxidsKey (stringify (JArr (JStr <$> txids))).
Definition readSeenTxids : task (list string) :=
  raw ← sread seenTxidsKey;
  match raw with None => mret [] | Some t => lift (parse t ≫= string_list) end.
Definition saveSentTxLog (log : list (string * json)) : task unit := swrite sentTxLogKey (stringify (JObj log)).
Definition readSentTxLog : task (list (string * json)) :=
  raw ← sread sentTxLogKey;
  match raw with None => mret [] | Some t => lift (parse t ≫= dart_map_of) end.

Definition wipeStorage : task unit :=
  for_each [mnemonicKey; stakeTokenKey; addressIndicesKeyPrefix +:+ "mainnet"; addressIndicesKeyPrefix +:+ "testnet";
            addressBookKey; watchListKey; sentTxLogKey; seenTxidsKey] sdelete.

(** ** The gateway's client *)

(** [v as Map<String, dynamic>?] and [v as String?] *)
Definition dart_map_opt (v : option json) : result (option (list (string * json))) :=
  match v with
  | None | Some JNull => Ok None
  | Some (JObj l) => Ok (Some l)
  | _ => Throw (TypeError "not a Map")
  end.
Definition dart_string_opt (v : option json) : result (option string) :=
  match v with
  | None | Some JNull => Ok None
  | Some (JStr s) => Ok (Some s)
  | _ => Throw (TypeError "not a String")
  end.

Definition _decode (statusCode : Z) (body : string) : result (list (string * json)) :=
  decoded ← parse body ≫= dart_map_of;
  if 400 <=? statusCode then
    error ← dart_map_opt (obj_get "error" decoded);
    code ← dart_string_opt (error ≫= obj_get "code");
    message ← dart_string_opt (error ≫= obj_get "message");
    Throw (ExGateway (default "unknown-error" code)
             (default ("Request failed (" +:+ show statusCode +:+ ")") message))
  else Ok decoded.

Definition _request (path : string) (auth : option string) (body : option json) : task (list (string * json)) :=
  url ← gets (λ st, nc_gatewayBaseUrl (net st) +:+ path);
  '(status, text) ← send_request url auth body;
  lift (_decode status text).

Definition g_balance (address : string) := _request ("/address/" +:+ address +:+ "/balance") None None.
Definition g_utxos (address : string) := _request ("/address/" +:+ address +:+ "/utxos") None None.
Definition g_history (address : string) := _request ("/address/" +:+ address +:+ "/history?limit=50") None None.
Definition g_feeEstimate := _request "/fee-estimate?target_blocks=6" None None.
Definition g_broadcast (rawTxHex : string) : task string :=
  result ← _request "/tx/broadcast" None (Some (JObj [("raw_tx_hex", JStr rawTxHex)]));
  lift (dart_string_of (obj_get "txid" result)).
Definition g_login (email password : string) : task string :=
  result ← _request "/auth/login" None (Some (JObj [("email", JStr email); ("password", JStr password)]));
  lift (dart_string_of (obj_get "token" result)).
Definition g_signup (email password fullName dateOfBirth idType idNumber : string) (referralCode : option string)
    : task string :=
  result ← _request "/auth/signup" None (Some (JObj ([("email", JStr email); ("password", JStr password);
      ("full_name", JStr fullName); ("date_of_birth", JStr dateOfBirth); ("id_type", JStr idType);
      ("id_number", JStr idNumber)] ++
      match referralCode with Some c => if String.eqb c "" then [] else [("referral_code", JStr c)] | None => [] end)));
  lift (dart_string_of (obj_get "token" result)).

(** ** The service *)

Section service.
Context {P : Primitives} {MP : MobilePackages}.

Definition _networkStorageName (st : wallet) : string :=
  match w_network st with CacTestnet => "testnet" | CacMainnet => "mainnet" end.

Definition ensureKey (index : Z) : task keypair :=
  cached ← gets (λ st, w_keys st !! index);
  match cached with
  | Some key => mret key
  | None =>
      m ← gets w_mnemonic;
      match m with
      | None => throw (StateError "No wallet loaded")
      | Some mnemonic =>
          network ← gets net;
          key ← lift (deriveKey mnemonic network index "" false);
          _ ← modify (λ st, set_caches (<[index := key]> (w_keys st)) (w_addresses st) st);
          address ← lift (p2pkhAddress (hash160 (publicKey key)) network);
          _ ← modify (λ st, set_caches (w_keys st) (<[index := address]> (w_addresses st)) st);
          mret key
      end
  end.

Definition _deriveAllKnownAddresses : task unit :=
  name ← gets _networkStorageName;
  indices ← await (readAddressIndices name);
  _ ← modify (set_indices indices);
  _ ← for_each indices (λ idx, _ ← await (ensureKey idx); mret ());
  st ← gets id;
  if bool_decide (w_activeIndex st ∈ w_addressIndices st) then mret () else
  match list.last (w_addressIndices st) with
  | Some i => modify (set_active i)
  | None => throw (StateError "No element")
  end.

Definition bootstrap : task unit :=
  stored ← await (sread activeNetworkKey);
  _ ← modify (set_network (if bool_decide (stored = Some "testnet") then CacTestnet else CacMainnet));
  m ← await (sread mnemonicKey);
  _ ← modify (set_mnemonic m);
  t ← await (sread stakeTokenKey);
  _ ← modify (set_token t);
  theme ← await (sread themeModeKey);
  _ ← modify (set_theme (default "system" theme));
  has ← gets w_mnemonic;
  _ ← (match has with Some _ => await _deriveAllKnownAddresses | None => mret () end);
  modify set_loaded.

Definition setThemeMode (mode : string) : task unit :=
  _ ← modify (set_theme mode);
  await (swrite themeModeKey mode).

(** [_addressIndices.reduce((a, b) => a > b ? a : b)], and -1 for no address. *)
Definition highest (l : list Z) : Z :=
  match l with [] => -1 | x :: l => foldl (λ a b, if b <? a then a else b) x l end.

Definition generateNewAddress : task string :=
  next ← gets (λ st, dart_int (highest (w_addressIndices st) + 1));
  _ ← modify (λ st, set_indices (w_addressIndices st ++ [next]) st);
  name ← gets _networkStorageName;
  indices ← gets w_addressIndices;
  _ ← await (saveAddressIndices name indices);
  _ ← await (ensureKey next);
  _ ← modify (set_active next);
  address ← gets (λ st, w_addresses st !! next);
  match address with
  | Some a => mret a
  | None => throw (TypeError "Null check operator used on a null value")
  end.

Definition setActiveIndex (index : Z) : task unit :=
  modify (λ st, if bool_decide (index ∈ w_addressIndices st) then set_active index st else st).

Definition stakingLogin (email password : string) : task unit :=
  token ← await (g_login email password);
  _ ← modify (set_token (Some token));
  await (swrite stakeTokenKey token).

Definition stakingSignup (email password fullName dateOfBirth idType idNumber : string) (referralCode : option string)
    : task unit :=
  token ← await (g_signup email password fullName dateOfBirth idType idNumber referralCode);
  _ ← modify (set_token (Some token));
  await (swrite stakeTokenKey token).

Definition stakingLogout : task unit :=
  _ ← modify (set_token None);
  await (sdelete stakeTokenKey).

(** The calls of the staking service: without a token none of them is sent. *)
Definition staking_call (path : string) (body : option json) : task (list (string * json)) :=
  t ← gets w_stakeToken;
  match t with
  | None => throw (StateError "Not logged in to staking")
  | Some token => _request path (Some token) body
  end.
Definition fetchStakingStatus := staking_call "/staking/status" None.
Definition stakingDeposit (amountSatoshis : Z) :=
  staking_call "/staking/deposit" (Some (JObj [("amount", JStr (show amountSatoshis))])).
Definition stakingWithdraw (amountSatoshis : Z) (toAddress : string) :=
  staking_call "/staking/withdraw"
    (Some (JObj [("amount", JStr (show amountSatoshis)); ("to_address", JStr toAddress)])).
Definition referralWithdraw (toAddress : string) :=
  staking_call "/referral/withdraw" (Some (JObj [("to_address", JStr toAddress)])).

(** Both ways to get a wallet, once there is a phrase. *)
Definition install (mnemonic : string) : task unit :=
  _ ← await (swrite mnemonicKey mnemonic);
  _ ← modify (λ st, set_caches ∅ ∅ (set_active 0 (set_indices [0] (set_mnemonic (Some mnemonic) st))));
  name ← gets _networkStorageName;
  indices ← gets w_addressIndices;
  _ ← await (saveAddressIndices name indices);
  _ ← await (ensureKey 0);
  mret ().
Definition createNewWallet (generated : string) : task string := _ ← install generated; mret generated.
Definition restoreWallet (mnemonic : string) : task unit :=
  if negb (validateMnemonic mnemonic) then throw (ArgumentError "Invalid recovery phrase") else install mnemonic.

(** The part of [switchNetwork] after its first await. *)
Definition switch_rest : task unit :=
  _ ← modify (λ st, set_active 0 (set_caches ∅ ∅ st));
  m ← gets w_mnemonic;
  match m with Some _ => await _deriveAllKnownAddresses | None => mret () end.
Definition switchNetwork (n : CacNetwork) : task unit :=
  _ ← modify (set_network n);
  _ ← await (swrite activeNetworkKey (match n with CacTestnet => "testnet" | CacMainnet => "mainnet" end));
  switch_rest.

Definition wipeWallet : task unit :=
  _ ← await wipeStorage;
  modify (λ st, set_caches ∅ ∅ (set_active 0 (set_indices [0] (set_token None (set_mnemonic None st))))).

(** [_requireKey] and [activeAddress] *)
Definition _requireKey (st : wallet) : result keypair :=
  match w_keys st !! w_activeIndex st with
  | Some key => Ok key
  | None => match w_mnemonic st with
            | None => Throw (StateError "No wallet loaded")
            | Some m => deriveKey m (net st) (w_activeIndex st) "" false
            end
  end.
Definition activeAddress (st : wallet) : result string :=
  match w_addresses st !! w_activeIndex st with
  | Some a => Ok a
  | None => key ← _requireKey st; p2pkhAddress (hash160 (publicKey key)) (net st)
  end.
Definition activePubkeyHash (st : wallet) : result bytes := key ← _requireKey st; Ok (hash160 (publicKey key)).
Definition exportAccountXpub (st : wallet) : result string :=
  match w_mnemonic st with
  | None => Throw (StateError "No wallet loaded")
  | Some m => deriveAccountXpub m (net st) ""
  end.
End service.
