(* ===== verification/MobileSend.v ===== *)
(** * Balances, history and payments on the phone

    The rest of cac_wallet/lib/services/wallet_service.dart (the combined balance
    and history, the count of new transactions, gathering coins, sending and
    bumping), with [formatCac] of models/wallet_models.dart and the send screen's
    [_setFeeRate] and [_send] (screens/send_screen.dart 58-66, 157-230).
    [List.sort] is a parameter: Dart documents that it sorts, not how it orders
    equal elements. *)

From S2P Require Import Prelude JsString JsNum Amount Json Hex JsValue Primitives Base58 Address TxCodec Signing BumpFee AppMultisig.
From S2P Require Import Dart MobilePackages MobileAddress MobileTx MobileMultisig MobileWallet.

(** [BigInt] division truncates, [%] is never negative. *)
Definition formatCac (satoshis : Z) : string :=
  let coin := 100000000 in
  let whole := Z.quot satoshis coin in
  let frac := show (Z.abs (satoshis mod coin)) in
  show whole +:+ "." +:+ of_chars (pad_start 8 "0"%char (chars frac)).

(** [x.toString()]; a list or a map never reads as a number. *)
Definition dart_text (v : option json) : string :=
  match v with
  | None | Some JNull => "null"
  | Some (JArr _) => "[...]"
  | Some (JObj _) => "{...}"
  | Some v => json_to_string v
  end.

(** [v as List<dynamic>? ?? const []] *)
Definition dart_list_opt (v : option json) : result (list json) :=
  match v with
  | None | Some JNull => Ok []
  | Some (JArr l) => Ok l
  | _ => Throw (TypeError "not a List")
  end.
(** [v as int?] *)
Definition dart_int_opt (v : option json) : result (option Z) :=
  match v with
  | None | Some JNull => Ok None
  | _ => Some <$> dart_int_of v
  end.

(** [int.tryParse(feeResp['fee_rate_sat_per_vbyte']?.toString() ?? '') ?? 1] *)
Definition fee_rate (resp : list (string * json)) : Z :=
  match obj_get "fee_rate_sat_per_vbyte" resp with
  | None | Some JNull => 1
  | v => default 1 (int_tryParse10 (dart_text v))
  end.

(** [(feeRate * vsize + 999) ~/ 1000] *)
Definition fee_for (feeRate vsize : Z) : Z := Z.quot (dart_int (dart_int (feeRate * vsize) + 999)) 1000.

Record SendRecipient := { rc_address : string; rc_amountSatoshis : Z }.

Section service.
Context {P : Primitives} {MP : MobilePackages}.
Variable sort : (json → json → Z) → list json → list json.

(** [_addresses[idx]!] *)
Definition known_address (idx : Z) : task string :=
  a ← gets (λ st, w_addresses st !! idx);
  match a with Some a => mret a | None => throw (TypeError "Null check operator used on a null value") end.

Definition fetchBalance : task (Z * Z) :=
  indices ← gets w_addressIndices;
  fold_task (λ '(confirmed, unconfirmed) idx,
    address ← known_address idx;
    j ← await (g_balance address);
    c ← lift (dart_string_of (obj_get "confirmed" j) ≫= bigint_parse);
    u ← lift (dart_string_of (obj_get "unconfirmed" j) ≫= bigint_parse);
    mret (confirmed + c, unconfirmed + u)) (0, 0) indices.

(** The comparison of [all.sort]: pending first, then by height downwards. *)
Definition height_of (t : json) : Z :=
  match t with JObj l => match dart_int_opt (obj_get "height" l) with Ok (Some h) => h | _ => 0 end | _ => 0 end.
(** The cast the comparison makes of every height. *)
Definition height_checked (t : json) : result (option Z) := m ← dart_map_of t; dart_int_opt (obj_get "height" m).
Definition compare_history (a b : json) : Z :=
  let ha := height_of a in let hb := height_of b in
  if (ha <=? 0) && (hb <=? 0) then 0 else if ha <=? 0 then -1 else if hb <=? 0 then 1
  else if hb <? ha then -1 else if ha <? hb then 1 else 0.

(** One transaction of a page: kept unless its id was seen. *)
Definition add_unseen (acc : list string * list json) (t : json) : result (list string * list json) :=
  let '(seen, all) := acc in
  m ← dart_map_of t;
  txid ← dart_string_of (obj_get "txid" m);
  Ok (if bool_decide (txid ∈ seen) then (seen, all) else (seen ++ [txid], all ++ [t])).

Definition fetchHistory : task (list json) :=
  indices ← gets w_addressIndices;
  '(_, all) ← fold_task (λ acc idx,
    address ← known_address idx;
    j ← await (g_history address);
    lift (dart_list_opt (obj_get "transactions" j) ≫= foldR add_unseen acc)) ([], []) indices;
  _ ← lift (if (2 <=? length all)%nat then mapR height_checked all else Ok []);
  mret (sort compare_history all).

Definition txid_of (t : json) : result string := m ← dart_map_of t; dart_string_of (obj_get "txid" m).

Definition checkForNewTransactions : task Z :=
  transactions ← await fetchHistory;
  txids ← lift (mapR txid_of transactions);
  let currentTxids := remove_dups txids in
  seenList ← await readSeenTxids;
  _ ← await (saveSeenTxids currentTxids);
  if bool_decide (seenList = []) then mret 0 else
  mret (Z.of_nat (length (filter (λ t, t ∉ seenList) currentTxids))).

(** One coin of the gateway's answer. *)
Definition coin_of (key : keypair) (u : json) : result spend :=
  m ← dart_map_of u;
  txid ← dart_string_of (obj_get "txid" m) ≫= _hexToBytesReversedLocal;
  vout ← dart_int_of (obj_get "vout" m);
  value ← int_parse10 (dart_text (obj_get "value" m));
  mret {| u_txid := txid; u_vout := vout; u_value := value; u_pubkeyHash := hash160 (publicKey key);
          u_privateKey := Some (privateKey key); u_publicKey := Some (publicKey key); u_sequence := None |}.

Definition gatherAllUtxos : task (list spend) :=
  indices ← gets w_addressIndices;
  fold_task (λ result idx,
    key ← await (ensureKey idx);
    address ← known_address idx;
    resp ← await (g_utxos address);
    coins ← lift (dart_list_opt (obj_get "utxos" resp) ≫= mapR (coin_of key));
    mret (result ++ coins)) [] indices.

Definition script_for (d : decoded) : bytes :=
  match d_type d with
  | P2pkh => p2pkhScriptPubKey (d_hash d)
  | P2sh => p2shScriptPubKey (d_hash d)
  | P2wpkh => p2wpkhScriptPubKey (d_hash d)
  end.

(** [destOutputs] and [amountTotal] *)
Definition add_recipient (network : NetworkConfig) (acc : list txout * Z) (r : SendRecipient) : result (list txout * Z) :=
  let '(outs, total) := acc in
  d ← decodeAddress (rc_address r) network;
  Ok (outs ++ [{| valueSatoshis := rc_amountSatoshis r; scriptPubKey := script_for d |}],
      dart_int (total + rc_amountSatoshis r)).

(** The transaction [sendTransaction] signs: its outputs with the change last,
    the total of its inputs and the change. *)
Definition payment_outputs (network : NetworkConfig) (changeHash : bytes) (utxos : list spend)
    (recipients : list SendRecipient) (feeSatoshis : Z) : result (list txout * Z) :=
  '(destOutputs, amountTotal) ← foldR (add_recipient network) ([], 0) recipients;
  let totalIn := foldl (λ sum u, dart_int (sum + u_value u)) 0 utxos in
  let change := dart_int (dart_int (totalIn - amountTotal) - feeSatoshis) in
  if change <? 0 then Throw (ArgumentError ("Insufficient funds: have " +:+ show totalIn +:+ ", need " +:+
                               show (dart_int (amountTotal + feeSatoshis)))) else
  Ok (destOutputs ++ (if 0 <? change then [{| valueSatoshis := change; scriptPubKey := p2pkhScriptPubKey changeHash |}] else []),
      change).

Definition _indexForPubkeyHash (st : wallet) (pubkeyHash : bytes) : result Z :=
  match list_find (λ idx, (λ key, hash160 (publicKey key)) <$> w_keys st !! idx = Some pubkeyHash) (w_addressIndices st) with
  | Some (_, idx) => Ok idx
  | None => Throw (StateError "No known address for this UTXO's pubkey hash")
  end.

Definition _bytesToHexReversed (b : bytes) : string := _bytesToHexLocal (fromList (reverse b)).

(** The record kept for [bumpFee]; every output but the change pays a recipient. *)
Definition sent_record_of (st : wallet) (utxos : list spend) (outs : list txout) (change feeSatoshis : Z)
    : result SentTxRecord :=
  ins ← mapR (λ u, idx ← _indexForPubkeyHash st (u_pubkeyHash u);
                   mret {| txidHex := _bytesToHexReversed (u_txid u); sent_vout := u_vout u; sent_value := u_value u;
                           derivationIndex := idx |}) utxos;
  Ok {| sr_inputs := ins;
        sr_outputs := imap (λ i o, {| so_scriptPubKeyHex := _bytesToHexLocal (scriptPubKey o);
          so_valueSatoshis := valueSatoshis o;
          so_isChange := (0 <? change) && (S i =? length outs)%nat |}) outs;
        sr_feeSatoshis := feeSatoshis |}.

Definition sendTransaction (utxos : list spend) (recipients : list SendRecipient) (feeSatoshis : Z) : task string :=
  if bool_decide (recipients = []) then throw (ArgumentError "No recipients specified") else
  active ← gets w_activeIndex;
  changeKey ← await (ensureKey active);
  network ← gets net;
  '(outputs, change) ← lift (payment_outputs network (hash160 (publicKey changeKey)) utxos recipients feeSatoshis);
  rawTx ← lift (buildAndSignTransaction utxos outputs None None 0);
  txid ← await (g_broadcast (_bytesToHexLocal rawTx));
  st ← gets id;
  record ← lift (sent_record_of st utxos outputs change feeSatoshis);
  log ← await readSentTxLog;
  _ ← await (saveSentTxLog (obj_set txid (record_toJson record) log));
  mret txid.

Definition bumpFee (txid : string) : task string :=
  log ← await readSentTxLog;
  match obj_get txid log with
  | None | Some JNull => throw (StateError "No local record of this transaction -- it was either sent from a different device/install, or before this feature existed. Can't bump its fee here.")
  | Some recordJson =>
      record ← lift (record_fromJson recordJson);
      feeResp ← await g_feeEstimate;
      let feeRate := fee_rate feeResp in
      let estimatedVsize := 10 + Z.of_nat (length (sr_inputs record)) * 148 + Z.of_nat (length (sr_outputs record)) * 34 in
      let rateBasedFee := fee_for feeRate estimatedVsize in
      let half_more := Z.quot (dart_int (sr_feeSatoshis record * 3)) 2 in
      let newFeeSatoshis := if half_more <? rateBasedFee then rateBasedFee else half_more in
      keys ← fold_task (λ keys inp, key ← await (ensureKey (derivationIndex inp)); mret (keys ++ [key])) [] (sr_inputs record);
      '(rawTx, newOutputs) ← lift (MobileMultisig.buildBumpFeeTransaction record newFeeSatoshis keys);
      newTxid ← await (g_broadcast (_bytesToHexLocal rawTx));
      log2 ← await readSentTxLog;
      _ ← await (saveSentTxLog (obj_set newTxid (record_toJson {| sr_inputs := sr_inputs record; sr_outputs := newOutputs;
             sr_feeSatoshis := newFeeSatoshis |}) (obj_del txid log2)));
      mret newTxid
  end.

Definition multisigKey : task keypair := ensureKey 0.

(** ** The send screen *)

(** A recipient row holds the texts of its address and of its amount. *)
Definition recipient_of (row : string * string) : result SendRecipient :=
  let address := js_trim row.1 in
  let bad := Throw (ArgumentError "Enter a valid address and amount for every recipient") in
  match double_tryParse (js_trim row.2) with
  | None => bad
  | Some amountCac =>
      if String.eqb address "" || num_le0 amountCac then bad else
      amount ← cac_satoshis amountCac;
      mret {| rc_address := address; rc_amountSatoshis := amount |}
  end.

(** Both screens that build a payment: 148 bytes per input, 34 per output and 10. *)
Definition vsize_for (inputs outputs : nat) : Z := 10 + Z.of_nat inputs * 148 + Z.of_nat outputs * 34.

Fixpoint choose {A} (value : A → Z) (feeRate : Z) (outputs : nat) (amount : Z) (chosen : list A) (totalIn : Z) (l : list A)
    : list A * Z :=
  match l with
  | [] => (chosen, totalIn)
  | u :: l =>
      let chosen := chosen ++ [u] in
      let totalIn := dart_int (totalIn + value u) in
      let feeSatoshis := fee_for feeRate (vsize_for (length chosen) outputs) in
      if dart_int (amount + feeSatoshis) <=? totalIn then (chosen, totalIn)
      else choose value feeRate outputs amount chosen totalIn l
  end.

(** The coins for an amount and the fee they cost, or the error of the screen. *)
Definition choose_coins {A} (value : A → Z) (feeRate : Z) (outputs : nat) (amount : Z) (all : list A)
    : result (list A * Z * Z) :=
  let '(chosen, totalIn) := choose value feeRate outputs amount [] 0 all in
  let feeSatoshis := fee_for feeRate (vsize_for (length chosen) outputs) in
  if totalIn <? dart_int (amount + feeSatoshis)
  then Throw (StateError ("Insufficient funds: have " +:+ show totalIn +:+ ", need " +:+ show (dart_int (amount + feeSatoshis))))
  else Ok (chosen, totalIn, feeSatoshis).

(** The rate in force: the user's, if it is above the gateway's of the moment. *)
Definition rate_in_force (override : option Z) (minRate : Z) : Z :=
  match override with Some r => if minRate <? r then r else minRate | None => minRate end.

(** The body of [_send].  The rows are read before its first await, the chosen
    rate after the gateway has answered; the fields it sets for display are left out. *)
Definition _send (rows : list (string * string)) (feeRateOverride : option Z) : task string :=
  recipients ← lift (mapR recipient_of rows);
  let amountTotal := foldl (λ sum r, dart_int (sum + rc_amountSatoshis r)) 0 recipients in
  allUtxos ← await gatherAllUtxos;
  if bool_decide (allUtxos = []) then throw (StateError "No spendable funds found") else
  feeJson ← await g_feeEstimate;
  let feeRate := rate_in_force feeRateOverride (fee_rate feeJson) in
  '(chosen, _, feeSatoshis) ← lift (choose_coins u_value feeRate (length recipients + 1) amountTotal allUtxos);
  await (sendTransaction chosen recipients feeSatoshis).
End service.

(** [_setFeeRate]: the new override and the text of the field; nothing before the
    gateway has told its rate. *)
Definition _setFeeRate (minFeeRate : option Z) (rate : Z) : option (option Z * string) :=
  min ← minFeeRate;
  let ceiling := dart_int (min * 50) in
  let clamped := if rate <? min then min else if ceiling <? rate then ceiling else rate in
  Some (if clamped =? min then None else Some clamped, show clamped).
