(* ===== verification/MobileSession.v ===== *)
(** * A session of the phone's wallet

    Everything the screens call on the wallet service, begun at any time and
    interleaved at every await, after [bootstrap] has run (main.dart shows
    nothing else until [loaded]).  The main result is about the caches
    [_keys] and [_addresses]: an entry belongs to the current phrase and the
    current network, except while a [switchNetwork] is under way, which names the
    new network before it empties them. *)

From stdpp Require Import relations.
From S2P Require Import Prelude JsString JsNum Amount Json Hex JsValue Primitives Base58 Address TxCodec Signing BumpFee AppMultisig.
From S2P Require Import Dart MobilePackages MobileAddress MobileTx MobileMultisig MobileWallet MobileSend.

(** ** One call, alone *)

(** The rest of a call when nothing else runs and the gateway answers [env]. *)
Fixpoint finish {A} (env : ∀ r, response r) (c : cont A) (st : wallet) : wallet * result A :=
  match c with
  | Return a => (st, Ok a)
  | Throws e => (st, Throw e)
  | Await r k => let '(st', c') := k (env r) st in finish env c' st'
  end.
Definition run {A} (env : ∀ r, response r) (t : task A) (st : wallet) : wallet * result A :=
  let '(st', c) := t st in finish env c st'.

(** ** All calls *)

Section session.
Context {P : Primitives} {MP : MobilePackages}.
Variable sort : (json → json → Z) → list json → list json.

Inductive call :=
  | SetThemeMode (mode : string)
  | EnsureKey (index : Z)
  | GenerateNewAddress
  | SetActiveIndex (index : Z)
  | StakingLogin (email password : string)
  | StakingSignup (email password fullName dateOfBirth idType idNumber : string) (referralCode : option string)
  | StakingLogout
  | FetchStakingStatus
  | StakingDeposit (amountSatoshis : Z)
  | StakingWithdraw (amountSatoshis : Z) (toAddress : string)
  | ReferralWithdraw (toAddress : string)
  | CreateNewWallet (generated : string)
  | RestoreWallet (mnemonic : string)
  | SwitchNetwork (n : CacNetwork)
  | FetchBalance
  | FetchHistory
  | CheckForNewTransactions
  | GatherAllUtxos
  | SendTransaction (utxos : list spend) (recipients : list SendRecipient) (feeSatoshis : Z)
  | BumpFee (txid : string)
  | WipeWallet.

Definition forget {A} (t : task A) : task unit := _ ← t; mret ().

Definition code_of (c : call) : task unit :=
  match c with
  | SetThemeMode mode => setThemeMode mode
  | EnsureKey index => forget (ensureKey index)
  | GenerateNewAddress => forget generateNewAddress
  | SetActiveIndex index => setActiveIndex index
  | StakingLogin email password => stakingLogin email password
  | StakingSignup e p f d t i r => stakingSignup e p f d t i r
  | StakingLogout => stakingLogout
  | FetchStakingStatus => forget fetchStakingStatus
  | StakingDeposit amount => forget (stakingDeposit amount)
  | StakingWithdraw amount to => forget (stakingWithdraw amount to)
  | ReferralWithdraw to => forget (referralWithdraw to)
  | CreateNewWallet m => forget (createNewWallet m)
  | RestoreWallet m => restoreWallet m
  | SwitchNetwork n => switchNetwork n
  | FetchBalance => forget fetchBalance
  | FetchHistory => forget (fetchHistory sort)
  | CheckForNewTransactions => forget (checkForNewTransactions sort)
  | GatherAllUtxos => forget gatherAllUtxos
  | SendTransaction utxos rs fee => forget (sendTransaction utxos rs fee)
  | BumpFee txid => forget (bumpFee txid)
  | WipeWallet => wipeWallet
  end.

(** A screen begins a call, or one under way is answered and goes on to its next
    await; a call that has returned or thrown stays as it is. *)
Definition phone : Type := wallet * list (call * cont unit).
Inductive app_step : phone → phone → Prop :=
  | begin st ts c : app_step (st, ts) ((code_of c st).1, ts ++ [(c, (code_of c st).2)])
  | resume st ts i c r k x :
      ts !! i = Some (c, Await r k) → app_step (st, ts) ((k x st).1, <[i := (c, (k x st).2)]> ts).

(** The app after start-up on a device with the given store, and any number of steps. *)
Definition session (store : gmap string string) (a : phone) : Prop :=
  ∃ env st0, run env bootstrap (fresh store) = (st0, Ok ()) ∧ rtc app_step (st0, []) a.

(** ** The caches *)

Definition key_at (st : wallet) (i : Z) (key : keypair) : Prop :=
  ∃ m, w_mnemonic st = Some m ∧ deriveKey m (net st) i "" false = Ok key.

Definition caches_ok (st : wallet) : Prop :=
  (∀ i key, w_keys st !! i = Some key → key_at st i key) ∧
  (∀ i a, w_addresses st !! i = Some a → ∃ key, key_at st i key ∧
     p2pkhAddress (hash160 (publicKey key)) (net st) = Ok a).

(** Whether a call is still under way. *)
Definition unfinished {A} (c : cont A) : Prop := match c with Await _ _ => True | _ => False end.

Definition keeps (st st' : wallet) : Prop := caches_ok st → caches_ok st'.

(** Every piece of the rest of a call keeps the caches right. *)
Fixpoint careful {A} (c : cont A) : Prop :=
  match c with
  | Return _ | Throws _ => True
  | Await r k => ∀ x st, keeps st (k x st).1 ∧ careful (k x st).2
  end.
Definition careful_task {A} (t : task A) : Prop := ∀ st, keeps st (t st).1 ∧ careful (t st).2.

(** The rest of a call that makes them right before anything else. *)
Fixpoint settling (c : cont unit) : Prop :=
  match c with
  | Return _ | Throws _ => False
  | Await r k => ∀ x st, settling (k x st).2 ∨ (caches_ok (k x st).1 ∧ careful (k x st).2)
  end.
End session.

(** ** Composition *)

Section careful.
Context {P : Primitives} {MP : MobilePackages}.

Lemma careful_then {A B} (c : cont A) (g : A → task B) :
  careful c → (∀ a, careful_task (g a)) → careful_task (then_do c g).
Proof.
  intros Hc Hg. revert Hc. induction c as [a|e|r k IH] using cont_nested; intros Hc st; cbn [then_do].
  - apply Hg.
  - split; [by intros H|done].
  - split; [by intros H|]. intros x st'. destruct (Hc x st') as [H1 H2]. specialize (IH x st' H2).
    destruct (k x st') as [s' c']. cbn [fst snd] in *. destruct (IH s') as [H3 H4].
    split; [|done]. intros H. by apply H3, H1.
Qed.

Lemma careful_bind {A B} (m : task A) (g : A → task B) :
  careful_task m → (∀ a, careful_task (g a)) → careful_task (m ≫= g).
Proof.
  intros Hm Hg st. unfold mbind, task_bind. destruct (Hm st) as [H1 H2]. destruct (m st) as [st' c]. cbn [fst snd] in *.
  destruct (careful_then c g H2 Hg st') as [H3 H4]. split; [|done]. intros H. by apply H3, H1.
Qed.

Lemma careful_ret {A} (a : A) : careful_task (mret a).
Proof. intros st. split; [by intros H|done]. Qed.
Lemma careful_throw {A} e : careful_task (throw (A := A) e).
Proof. intros st. split; [by intros H|done]. Qed.
Lemma careful_lift {A} (r : result A) : careful_task (lift r).
Proof. intros st. destruct r; split; (done || by intros H). Qed.
Lemma careful_gets {A} (f : wallet → A) : careful_task (gets f).
Proof. intros st. split; [by intros H|done]. Qed.
Lemma careful_modify f : (∀ st, keeps st (f st)) → careful_task (modify f).
Proof. intros Hf st. split; [apply Hf|done]. Qed.
Lemma careful_turn : careful_task turn.
Proof. intros st. split; [by intros H|]. intros x st'. split; [by intros H|done]. Qed.
Lemma careful_send url auth body : careful_task (send_request url auth body).
Proof.
  intros st. split; [by intros H|]. intros [[s t]|e] st'; split; (done || by intros H).
Qed.

Lemma careful_storage {A} (f : gmap string string → A) g : careful_task (storage f g).
Proof.
  apply careful_bind; [apply careful_turn|]. intros _. apply careful_bind; [|intros a].
  - intros st. split; [by intros H|done].
  - apply careful_bind; [apply careful_turn|]. intros _. apply careful_ret.
Qed.

Create HintDb careful.
#[local] Hint Resolve careful_ret careful_throw careful_lift careful_gets careful_turn careful_send careful_storage : careful.

Lemma careful_await {A} (m : task A) : careful_task m → careful_task (await m).
Proof. intros H. apply careful_bind; [done|]. intros a. apply careful_bind; auto with careful. Qed.

Lemma careful_for_each {A} (xs : list A) f : (∀ x, careful_task (f x)) → careful_task (for_each xs f).
Proof. intros Hf. induction xs as [|x xs IH]; cbn [for_each]; [apply careful_ret|]. by apply careful_bind. Qed.

Lemma careful_fold {A S} (f : S → A → task S) xs : (∀ s x, careful_task (f s x)) → ∀ s, careful_task (fold_task f s xs).
Proof.
  intros Hf. induction xs as [|x xs IH]; intros s; cbn [fold_task]; [apply careful_ret|]. by apply careful_bind.
Qed.

Lemma ensureKey_eq i st :
  ensureKey i st =
  match w_keys st !! i, w_mnemonic st with
  | Some key, _ => (st, Return key)
  | None, None => (st, Throws (StateError "No wallet loaded"))
  | None, Some m =>
      match deriveKey m (net st) i "" false with
      | Throw e => (st, Throws e)
      | Ok key =>
          match p2pkhAddress (hash160 (publicKey key)) (net st) with
          | Throw e => (set_caches (<[i := key]> (w_keys st)) (w_addresses st) st, Throws e)
          | Ok a => (set_caches (<[i := key]> (w_keys st)) (<[i := a]> (w_addresses st)) st, Return key)
          end
      end
  end.
Proof.
  unfold ensureKey, mbind, task_bind, gets. cbn [then_do].
  destruct (w_keys st !! i); [done|]. cbn [then_do]. destruct (w_mnemonic st) as [m|]; [|done]. cbn [then_do].
  unfold lift at 1. destruct (deriveKey m (net st) i "" false) as [key|]; [|done]. cbn [then_do]. unfold modify, lift.
  cbn [then_do]. by destruct (p2pkhAddress _ _).
Qed.

(** Deriving a key stores it, and its address, for the phrase and network of the moment. *)
Lemma careful_ensureKey i : careful_task (ensureKey i).
Proof.
  intros st. rewrite ensureKey_eq. destruct (w_keys st !! i) as [key|]; [split; [by intros H|done]|].
  destruct (w_mnemonic st) as [m|] eqn:Em; [|split; [by intros H|done]].
  destruct (deriveKey m (net st) i "" false) as [key|e] eqn:Ed; [|split; [by intros H|done]].
  assert (Hkey : ∀ ks ads, key_at (set_caches ks ads st) i key) by (intros; by exists m).
  destruct (p2pkhAddress (hash160 (publicKey key)) (net st)) as [a|e] eqn:Ea; (split; [|done]); cbn [fst]; intros [H1 H2]; split.
  - intros j k Hj. change (w_keys (set_caches ?ks _ _)) with ks in Hj.
    destruct (decide (i = j)) as [<-|Hne]; [rewrite lookup_insert_eq in Hj; injection Hj as <-; apply Hkey|].
    rewrite lookup_insert_ne in Hj by done. by apply H1.
  - intros j b Hj. change (w_addresses (set_caches _ ?ads _)) with ads in Hj.
    destruct (decide (i = j)) as [<-|Hne]; [rewrite lookup_insert_eq in Hj; injection Hj as <-; by exists key|].
    rewrite lookup_insert_ne in Hj by done. by apply H2.
  - intros j k Hj. change (w_keys (set_caches ?ks _ _)) with ks in Hj.
    destruct (decide (i = j)) as [<-|Hne]; [rewrite lookup_insert_eq in Hj; injection Hj as <-; apply Hkey|].
    rewrite lookup_insert_ne in Hj by done. by apply H1.
  - intros j b Hj. by apply H2.
Qed.

Lemma emptied_ok st ks ads : ks = ∅ → ads = ∅ → caches_ok (set_caches ks ads st).
Proof. intros -> ->. split; intros j x Hj; cbn in Hj; by rewrite lookup_empty in Hj. Qed.

#[local] Hint Resolve careful_ensureKey careful_await careful_for_each careful_fold : careful.

(** Calls made of careful parts. *)
Ltac careful :=
  repeat first
    [ progress auto with careful
    | apply careful_bind; [|intros ?]
    | apply careful_await | apply careful_for_each; intros ? | apply careful_fold; intros ? ?
    | apply careful_modify; intros ?; first [by intros [H1 H2]; split; intros; eauto | by intros _; apply emptied_ok]
    | case_match
    | progress cbv zeta ].

Lemma careful_request path auth body : careful_task (_request path auth body).
Proof. unfold _request. careful. Qed.
#[local] Hint Resolve careful_request : careful.

Lemma careful_derive_all : careful_task _deriveAllKnownAddresses.
Proof. unfold _deriveAllKnownAddresses, readAddressIndices, sread. careful. Qed.
#[local] Hint Resolve careful_derive_all : careful.

Lemma careful_install m : careful_task (install m).
Proof. unfold install, saveAddressIndices, swrite. careful. Qed.

Lemma careful_known idx : careful_task (known_address idx).
Proof. unfold known_address. careful. Qed.
#[local] Hint Resolve careful_install careful_known : careful.

(** Every call but a switch of networks keeps the caches right at every await. *)
Lemma careful_calls sort c : (∀ n, c ≠ SwitchNetwork n) → careful_task (code_of sort c).
Proof.
  intros Hc. destruct c; try (by destruct (Hc n)); cbn [code_of]; unfold forget.
  all: unfold setThemeMode, generateNewAddress, saveAddressIndices, setActiveIndex, stakingLogin, stakingSignup,
    stakingLogout, g_login, g_signup, fetchStakingStatus, stakingDeposit, stakingWithdraw, referralWithdraw, staking_call,
    createNewWallet, restoreWallet, fetchBalance, checkForNewTransactions, fetchHistory, readSeenTxids, saveSeenTxids,
    gatherAllUtxos, sendTransaction, bumpFee, readSentTxLog, saveSentTxLog, g_balance, g_history, g_utxos, g_feeEstimate,
    g_broadcast, wipeWallet, wipeStorage, swrite, sread, sdelete.
  all: careful. apply careful_modify. intros st. by case_bool_decide; intros [H1 H2]; split; intros; eauto.
Qed.

Lemma switch_rest_ok st : caches_ok (switch_rest st).1 ∧ careful (switch_rest st).2.
Proof.
  unfold switch_rest, mbind, task_bind, modify, gets. cbn [then_do].
  set (st' := set_active 0 _). assert (Hst : caches_ok st') by (by apply emptied_ok).
  destruct (w_mnemonic st') as [m|]; [|by split].
  destruct (careful_await _ careful_derive_all st') as [H1 H2]. split; [by apply H1|done].
Qed.

Lemma switch_settles n st : settling (switchNetwork n st).2.
Proof.
  unfold switchNetwork, await, swrite, storage, turn, modify, mbind, task_bind. cbn -[switch_rest].
  intros _ s1. left. cbn -[switch_rest]. intros _ s2. left. cbn -[switch_rest]. intros _ s3.
  right. destruct (switch_rest_ok s3). by destruct (switch_rest s3).
Qed.
End careful.

(** ** Start-up *)

Section startup.
Context {P : Primitives} {MP : MobilePackages}.
Variable env : ∀ r, response r.

Lemma finish_then {A B} (c : cont A) (g : A → task B) st :
  (let '(st', c') := then_do c g st in finish env c' st') =
  match finish env c st with (st', Ok a) => run env (g a) st' | (st', Throw e) => (st', Throw e) end.
Proof.
  revert st. induction c as [a|e|r k IH] using cont_nested; intros st; cbn [then_do finish]; [done|done|].
  specialize (IH (env r) st). destruct (k (env r) st) as [s' c']. cbn [snd] in IH. apply IH.
Qed.

Lemma task_run_bind {A B} (m : task A) (g : A → task B) st :
  run env (m ≫= g) st =
  match run env m st with (st', Ok a) => run env (g a) st' | (st', Throw e) => (st', Throw e) end.
Proof. unfold run at 1 2, mbind, task_bind. destruct (m st) as [s' c]. apply finish_then. Qed.

Lemma careful_finish {A} (c : cont A) st : careful c → caches_ok st → caches_ok (finish env c st).1.
Proof.
  revert st. induction c as [a|e|r k IH] using cont_nested; intros st Hc H; cbn [finish]; [done|done|].
  destruct (Hc (env r) st) as [H1 H2]. specialize (IH (env r) st). destruct (k (env r) st) as [s' c'].
  cbn [fst snd] in *. by apply IH, H1.
Qed.

Lemma careful_run {A} (t : task A) st : careful_task t → caches_ok st → caches_ok (run env t st).1.
Proof.
  intros Ht H. unfold run. destruct (Ht st) as [H1 H2]. destruct (t st) as [s' c]. by apply careful_finish, H1.
Qed.

Lemma run_await {A} (t : task A) st : run env (await t) st = run env t st.
Proof. unfold await. rewrite task_run_bind. destruct (run env t st) as [s' [a|e]]; done. Qed.

Lemma run_sread key st : run env (sread key) st = (st, Ok (w_store st !! key)).
Proof. by destruct st. Qed.

(** The state once the store has been read. *)
Definition booted (store : gmap string string) : wallet :=
  Wallet (if bool_decide (store !! activeNetworkKey = Some "testnet") then CacTestnet else CacMainnet)
    (store !! mnemonicKey) (store !! stakeTokenKey) false (default "system" (store !! themeModeKey)) [0] 0 ∅ ∅ store.

Lemma bootstrap_run store :
  run env bootstrap (fresh store) =
  match store !! mnemonicKey with
  | None => (set_loaded (booted store), Ok ())
  | Some _ => match run env _deriveAllKnownAddresses (booted store) with
              | (st, Ok _) => (set_loaded st, Ok ())
              | (st, Throw e) => (st, Throw e)
              end
  end.
Proof.
  unfold bootstrap. repeat (rewrite task_run_bind, run_await, run_sread; rewrite task_run_bind; cbn [run modify finish]).
  change (run env (modify ?f) ?st) with (f st, Ok (A := unit) tt). cbv beta iota.
  rewrite task_run_bind. change (run env (gets ?f) ?st) with (st, Ok (f st)). cbv beta iota. rewrite task_run_bind.
  match goal with |- context [set_theme ?a ?b] => change (set_theme a b) with (booted store) end.
  change (w_mnemonic (booted store)) with (store !! mnemonicKey). destruct (store !! mnemonicKey); [|done].
  rewrite run_await. by destruct (run env _deriveAllKnownAddresses (booted store)) as [? [?|?]].
Qed.

Lemma bootstrap_caches store : caches_ok (run env bootstrap (fresh store)).1.
Proof.
  assert (Hb : caches_ok (booted store)) by (by apply (emptied_ok (booted store))).
  rewrite bootstrap_run. destruct (store !! mnemonicKey); [|done].
  pose proof (careful_run _ _ careful_derive_all Hb) as H.
  by destruct (run env _deriveAllKnownAddresses (booted store)) as [? [?|?]].
Qed.
End startup.

(** ** The invariant *)

Section invariant.
Context {P : Primitives} {MP : MobilePackages}.
Variable sort : (json → json → Z) → list json → list json.

Lemma settling_unfinished c : settling c → unfinished c.
Proof. by destruct c. Qed.

Definition entry_ok (e : call * cont unit) : Prop :=
  careful e.2 ∨ ((∃ n, e.1 = SwitchNetwork n) ∧ settling e.2).
Definition app_ok (a : phone) : Prop :=
  Forall entry_ok a.2 ∧
  ((∃ i n c, a.2 !! i = Some (SwitchNetwork n, c) ∧ settling c) ∨ caches_ok a.1).

Lemma call_begin_ok st ts c : app_ok (st, ts) → app_ok ((code_of sort c st).1, ts ++ [(c, (code_of sort c st).2)]).
Proof.
  intros [Hts Hst].
  assert (Hsw : (∃ n, c = SwitchNetwork n) ∨ ∀ n, c ≠ SwitchNetwork n) by (destruct c; try (by right); left; by eexists).
  destruct Hsw as [[n ->]|Hn].
  - pose proof (switch_settles n st) as Hs. split.
    + apply Forall_app. split; [done|]. apply Forall_singleton. right. split; [by exists n|done].
    + left. exists (length ts), n. eexists. cbn [snd code_of]. split; [by rewrite lookup_app_r, Nat.sub_diag by lia|done].
  - destruct (careful_calls sort c) with st as [H1 H2]; [done|]. split.
    + apply Forall_app. split; [done|]. apply Forall_singleton. by left.
    + destruct Hst as [(i & n & d & Hi & Hd)|Hst]; [left|right; by apply H1].
      exists i, n, d. cbn [snd] in *. split; [by apply lookup_app_l_Some|done].
Qed.

Lemma resume_ok st ts i c r k x :
  ts !! i = Some (c, Await r k) → app_ok (st, ts) → app_ok ((k x st).1, <[i := (c, (k x st).2)]> ts).
Proof.
  intros Hi [Hts Hst]. cbn [fst snd] in *.
  assert (Hlt : (i < length ts)%nat) by (by eapply lookup_lt_Some).
  assert (Hother : ∀ d, entry_ok (c, d) → Forall entry_ok (<[i := (c, d)]> ts)) by (intros; by apply Forall_insert).
  assert (Hsettles : settling (Await r k) → (∃ n, c = SwitchNetwork n) →
    app_ok ((k x st).1, <[i := (c, (k x st).2)]> ts)).
  { intros Hs [n ->]. destruct (Hs x st) as [H|[H1 H2]]; (split; cbn [fst snd]; [apply Hother|]).
    - right. split; [by exists n|done].
    - left. exists i, n. eexists. split; [by apply list_lookup_insert_eq|done].
    - by left.
    - by right. }
  destruct (proj1 (Forall_lookup _ _) Hts i _ Hi) as [Hc|[Hn Hs]]; [|by apply Hsettles].
  destruct Hst as [(j & n & d & Hj & Hd)|Hst].
  - destruct (decide (i = j)) as [<-|Hne]; [rewrite Hi in Hj; injection Hj as -> <-; apply Hsettles; [done|by exists n]|].
    split; [apply Hother; left; apply (Hc x st)|]. left. exists j, n, d. cbn [snd].
    by rewrite list_lookup_insert_ne.
  - destruct (Hc x st) as [H1 H2]. split; [apply Hother; by left|]. right. by apply H1.
Qed.

Lemma session_ok store a : session sort store a → app_ok a.
Proof.
  intros (env & st0 & Hboot & Hsteps).
  assert (H0 : app_ok (st0, [])).
  { split; [constructor|]. right. pose proof (bootstrap_caches env store) as H. by rewrite Hboot in H. }
  clear Hboot. induction Hsteps as [|a b c Hstep _ IH]; [done|]. apply IH.
  destruct Hstep; [by apply call_begin_ok|by apply resume_ok].
Qed.
End invariant.

(** C8. The phone never mixes up keys.  In a session of calls begun at any time and
    interleaved at every await, whenever no [switchNetwork] is under way every
    cached key is the key of the current phrase at its index on the current
    network, and every cached address is the address of that key. *)
Theorem caches_consistent {P : Primitives} {MP : MobilePackages}
    (sort : (json → json → Z) → list json → list json) (store : gmap string string)
    (st : wallet) (ts : list (call * cont unit))
    (Hs : session sort store (st, ts))
    (Hswitch : ∀ i n c, ts !! i = Some (SwitchNetwork n, c) → ¬ unfinished c) :
  caches_ok st.
Proof.
  destruct (session_ok _ _ _ Hs) as [_ [(i & n & c & Hi & Hc)|H]]; [|exact H].
  destruct (Hswitch i n c Hi). by apply settling_unfinished.
Qed.

(** While a switch is under way the phone shows the old network's address.  From
    any quiet moment of a session with a cached active address, beginning
    [switchNetwork] leads to a state that names the new network and still answers
    [activeAddress] with the address of the old one. *)
Theorem switch_shows_old_address {P : Primitives} {MP : MobilePackages}
    (sort : (json → json → Z) → list json → list json) (store : gmap string string)
    (st : wallet) (ts : list (call * cont unit)) (n : CacNetwork) (a : string)
    (Hs : session sort store (st, ts))
    (Hswitch : ∀ i n c, ts !! i = Some (SwitchNetwork n, c) → ¬ unfinished c)
    (Ha : w_addresses st !! w_activeIndex st = Some a) :
  ∃ st' ts', session sort store (st', ts') ∧ w_network st' = n ∧ activeAddress st' = Ok a ∧
    ∃ key, key_at st (w_activeIndex st) key ∧ p2pkhAddress (hash160 (publicKey key)) (net st) = Ok a.
Proof.
  destruct (session_ok _ _ _ Hs) as [_ [(i & m & c & Hi & Hc)|[_ H2]]].
  { destruct (Hswitch i m c Hi). by apply settling_unfinished. }
  exists (set_network n st). eexists. destruct Hs as (env & st0 & Hboot & Hsteps).
  split; [exists env, st0; split; [done|]; eapply rtc_r; [exact Hsteps|]; apply (begin sort st ts (SwitchNetwork n))|].
  split; [done|]. split; [|by apply H2]. unfold activeAddress.
  change (w_addresses (set_network n st)) with (w_addresses st).
  change (w_activeIndex (set_network n st)) with (w_activeIndex st). by rewrite Ha.
Qed.

(** ** A concrete session *)

Module SessionExample.
#[local] Existing Instances Toy.prims Toy.laws ToyPackages.packages ToyPackages.package_laws.

Definition store : gmap string string := {[mnemonicKey := "abandon ability"]}.
Definition no_sort : (json → json → Z) → list json → list json := λ _ l, l.
Definition offline (r : request) : response r :=
  match r with Turn => () | Http _ _ _ => Throw (ExHost "SocketException" "offline") end.
Definition started : wallet := (run offline bootstrap (fresh store)).1.

Lemma boots : run offline bootstrap (fresh store) = (started, Ok ()).
Proof. vm_compute. reflexivity. Qed.

(** The screen asks for a new address; its call waits for the store. *)
Definition asked : phone := ((code_of no_sort GenerateNewAddress started).1, [(GenerateNewAddress, (code_of no_sort GenerateNewAddress started).2)]).

Lemma asked_session : session no_sort store asked.
Proof.
  exists offline, started. split; [exact boots|]. apply rtc_once.
  exact (begin no_sort started [] GenerateNewAddress).
Qed.
End SessionExample.

Lemma caches_consistent_witness :
  ∃ st, session (P := Toy.prims) (MP := ToyPackages.packages) SessionExample.no_sort SessionExample.store st ∧
    is_Some (w_keys st.1 !! 0) ∧ caches_ok (P := Toy.prims) (MP := ToyPackages.packages) st.1.
Proof.
  exists SessionExample.asked. split; [exact SessionExample.asked_session|]. split; [by eexists; vm_compute|].
  apply (caches_consistent (P := Toy.prims) (MP := ToyPackages.packages) SessionExample.no_sort SessionExample.store
    SessionExample.asked.1 SessionExample.asked.2 SessionExample.asked_session).
  intros [|i] n c H; discriminate H.
Defined.

Lemma switch_shows_old_address_witness :
  ∃ st' ts' a, session (P := Toy.prims) (MP := ToyPackages.packages) SessionExample.no_sort SessionExample.store (st', ts') ∧
    w_network st' = CacTestnet ∧ activeAddress (P := Toy.prims) (MP := ToyPackages.packages) st' = Ok a.
Proof.
  destruct (w_addresses SessionExample.asked.1 !! w_activeIndex SessionExample.asked.1) as [a|] eqn:E;
    [|vm_compute in E; discriminate E].
  destruct (switch_shows_old_address (P := Toy.prims) (MP := ToyPackages.packages) SessionExample.no_sort SessionExample.store
    SessionExample.asked.1 SessionExample.asked.2 CacTestnet a SessionExample.asked_session) as (st' & ts' & H1 & H2 & H3 & _).
  - intros [|i] n c H; discriminate H.
  - exact E.
  - exists st', ts', a. split; [exact H1|]. split; [exact H2|exact H3].
Defined.
