(* ===== verification/MobilePay.v ===== *)
(** * What the phone sends

    The run of the send screen's [_send] on a wallet whose caches are right: which
    coins it gathers and spends, the outputs it signs, and what the node says to
    the transaction it broadcasts.  Then the list of transactions and the count of
    new ones. *)

From S2P Require Import Prelude JsString JsNum Amount Json Hex JsValue Primitives Base58 Address Keys NodeTx NodeScript ScriptLemmas TxCodec Signing.
From S2P Require Import BumpFee SendProof Fee AppMultisig Dart MobilePackages MobileAddress MobileTx MobileMultisig MobileWallet MobileSend MobileSession.

(** ** Amounts *)

Lemma formatCac_nonneg n : 0 <= n → formatCac n = Amount.formatCac n.
Proof.
  intros Hn. unfold formatCac, Amount.formatCac, COIN. rewrite Z.rem_mod_nonneg by lia.
  by rewrite Z.abs_eq by (apply Z.mod_pos_bound; lia).
Qed.

(** An amount the phone shows, typed into the send screen, is sent exactly: below
    2^25 coins, eight decimals, the reading as a double, the multiplication by
    1e8 and the rounding give the same number of satoshis back. *)
Theorem typed_amount_exact (address : string) (n : Z)
    (Ha : js_trim address ≠ "") (Hn : 0 < n < 2 ^ 25 * COIN) :
  recipient_of (address, formatCac n) = Ok {| rc_address := js_trim address; rc_amountSatoshis := n |}.
Proof.
  unfold recipient_of. cbn [fst snd]. rewrite formatCac_nonneg by lia.
  rewrite (trim_plain (Amount.formatCac n)) by (intros c; apply formatCac_plain; lia).
  rewrite double_formatCac by lia. destruct (String.eqb_spec (js_trim address) ""); [done|]. cbn [orb].
  by rewrite cac_positive, cac_satoshis_decimal by done.
Qed.

(** ** Choosing coins *)

Definition sum_of {A} (v : A → Z) (l : list A) : Z := foldr (λ x s, v x + s) 0 l.

Section sums.
Context {A : Type} (v : A → Z).

Lemma sum_of_cons x l : sum_of v (x :: l) = v x + sum_of v l.
Proof. done. Qed.

Lemma sum_of_app l k : sum_of v (l ++ k) = sum_of v l + sum_of v k.
Proof. induction l as [|x l IH]; [done|]. cbn [Datatypes.app]. rewrite !sum_of_cons. lia. Qed.

Lemma sum_of_nonneg l : Forall (λ x, 0 <= v x) l → 0 <= sum_of v l.
Proof. induction 1 as [|x l Hx _ IH]; [done|]. rewrite sum_of_cons. cbn beta in Hx. lia. Qed.

(** A 64-bit sum that stays small is the sum. *)
Lemma dart_sum l : ∀ acc, Forall (λ x, 0 <= v x) l → 0 <= acc → acc + sum_of v l < 2 ^ 63 →
  foldl (λ sum x, dart_int (sum + v x)) acc l = acc + sum_of v l.
Proof.
  induction l as [|x l IH]; intros acc Hl Ha Hs; [unfold sum_of; cbn; lia|].
  apply Forall_cons_iff in Hl as [Hx Hl]. pose proof (sum_of_nonneg l Hl).
  rewrite sum_of_cons in *. cbn [foldl].
  rewrite dart_int_small by lia. rewrite IH; [lia|done|lia|lia].
Qed.

(** The loop takes the coins in order and adds up their values. *)
Lemma choose_prefix rate outs amount l : ∀ chosen total,
  Forall (λ x, 0 <= v x) l → 0 <= total → total + sum_of v l < 2 ^ 63 →
  ∃ new tail, l = new ++ tail ∧ choose v rate outs amount chosen total l = (chosen ++ new, total + sum_of v new) ∧
    (tail = [] ∨ dart_int (amount + fee_for rate (vsize_for (length (chosen ++ new)) outs)) <= total + sum_of v new).
Proof.
  induction l as [|x l IH]; intros chosen total Hl Ht Hs.
  { exists [], []. cbn. rewrite app_nil_r, Z.add_0_r. auto. }
  apply Forall_cons_iff in Hl as [Hx Hl]. pose proof (sum_of_nonneg l Hl).
  rewrite sum_of_cons in *. cbn [choose]. rewrite (dart_int_small (total + v x)) by lia.
  destruct (Z.leb_spec (dart_int (amount + fee_for rate (vsize_for (length (chosen ++ [x])) outs))) (total + v x)) as [Hle|Hgt].
  - exists [x], l. split; [done|]. unfold sum_of. cbn [foldr]. rewrite Z.add_0_r. auto.
  - destruct (IH (chosen ++ [x]) (total + v x)) as (new & tail & -> & E & Hend); [done|lia|lia|].
    exists (x :: new), tail. split; [done|]. rewrite sum_of_cons.
    rewrite <- app_assoc in *. cbn [Datatypes.app] in *. rewrite E, Z.add_assoc. auto.
Qed.

Lemma choose_coins_spec rate outs amount all :
  Forall (λ x, 0 <= v x) all → sum_of v all < 2 ^ 63 →
  match choose_coins v rate outs amount all with
  | Ok (chosen, totalIn, fee) => ∃ tail, all = chosen ++ tail ∧ totalIn = sum_of v chosen ∧
      fee = fee_for rate (vsize_for (length chosen) outs) ∧ dart_int (amount + fee) <= totalIn
  | Throw _ => sum_of v all < dart_int (amount + fee_for rate (vsize_for (length all) outs))
  end.
Proof.
  intros Hv Hs. destruct (choose_prefix rate outs amount all [] 0 Hv) as (new & tail & -> & E & Hend); [lia|lia|].
  unfold choose_coins. rewrite E. cbn [Datatypes.app] in *. rewrite Z.add_0_l in *.
  destruct (Z.ltb_spec (sum_of v new) (dart_int (amount + fee_for rate (vsize_for (length new) outs)))) as [Hlt|Hge].
  - destruct Hend as [->|?]; [|lia]. by rewrite app_nil_r.
  - by exists tail.
Qed.
End sums.

(** Fees at plausible rates do not wrap around. *)
Lemma fee_for_exact rate vsize :
  0 <= rate <= 2 ^ 31 → 0 <= vsize <= 2 ^ 31 → fee_for rate vsize = (rate * vsize + 999) / 1000 ∧ 0 <= fee_for rate vsize <= 2 ^ 53.
Proof.
  intros Hr Hv. assert (0 <= rate * vsize <= 2 ^ 62) by nia. unfold fee_for.
  rewrite (dart_int_small (rate * vsize)) by lia. rewrite dart_int_small, Z.quot_div_nonneg by lia. split; [done|].
  split; [apply Z.div_pos; lia|]. apply Z.div_le_upper_bound; lia.
Qed.

(** If all coins together cover an amount and the fee of spending them all, some
    first coins are chosen, and they cover it with the fee they cost. *)
Lemma choose_enough {A} (v : A → Z) rate outs amount all :
  0 <= rate <= 2 ^ 31 → Forall (λ x, 0 <= v x) all → sum_of v all <= 2 ^ 53 →
  Z.of_nat (length all) + Z.of_nat outs <= 200000 → 0 < amount →
  amount + fee_for rate (vsize_for (length all) outs) <= sum_of v all →
  ∃ chosen tail, let fee := fee_for rate (vsize_for (length chosen) outs) in
    choose_coins v rate outs amount all = Ok (chosen, sum_of v chosen, fee) ∧
    all = chosen ++ tail ∧ chosen ≠ [] ∧ 0 <= fee ∧ amount + fee <= sum_of v chosen <= 2 ^ 53.
Proof.
  intros Hrate Hv H53 Hcount Hpos Hfunds.
  assert (Hfee : ∀ n, (n <= length all)%nat → 0 <= fee_for rate (vsize_for n outs) <= 2 ^ 53)
    by (intros n Hn; apply fee_for_exact; [done|unfold vsize_for; lia]).
  pose proof (choose_coins_spec v rate outs amount all Hv ltac:(lia)) as Hc. pose proof (Hfee (length all) ltac:(lia)).
  destruct (choose_coins v rate outs amount all) as [[[chosen totalIn] fee]|e]; [|rewrite dart_int_small in Hc by lia; lia].
  destruct Hc as (tail & Eall & -> & -> & Hle). exists chosen, tail. cbv zeta.
  assert (Hl : (length chosen <= length all)%nat) by (rewrite Eall, length_app; lia). pose proof (Hfee _ Hl).
  assert (Hs : sum_of v all = sum_of v chosen + sum_of v tail) by (rewrite Eall; apply sum_of_app).
  rewrite Eall in Hv. apply Forall_app in Hv as [_ Hv]. pose proof (sum_of_nonneg _ _ Hv).
  rewrite dart_int_small in Hle by lia. split; [done|]. split; [done|]. split; [|lia].
  intros ->. change (sum_of v []) with 0 in Hle. lia.
Qed.

(** ** The outputs *)

Section outputs.
Context {P : Primitives} {MP : MobilePackages}.

Definition paid_to (network : NetworkConfig) (r : SendRecipient) : result txout :=
  d ← decodeAddress (rc_address r) network;
  Ok {| valueSatoshis := rc_amountSatoshis r; scriptPubKey := script_for d |}.

Definition change_to (h : bytes) (change : Z) : list txout :=
  if 0 <? change then [{| valueSatoshis := change; scriptPubKey := p2pkhScriptPubKey h |}] else [].

Lemma recipients_fold network rs dests :
  mapR (paid_to network) rs = Ok dests → ∀ outs total,
  Forall (λ r, 0 <= rc_amountSatoshis r) rs → 0 <= total → total + sum_of rc_amountSatoshis rs < 2 ^ 63 →
  foldR (add_recipient network) (outs, total) rs = Ok (outs ++ dests, total + sum_of rc_amountSatoshis rs).
Proof.
  intros H. apply mapR_ok in H. induction H as [|r o rs dests Ho _ IH]; intros outs total Hr Ht Hs.
  { cbn. by rewrite app_nil_r, Z.add_0_r. }
  apply Forall_cons_iff in Hr as [Hr Hrs]. pose proof (sum_of_nonneg _ _ Hrs).
  rewrite sum_of_cons in *.
  unfold paid_to in Ho. destruct (decodeAddress (rc_address r) network) as [d|] eqn:Ed; [|done]. injection Ho as <-.
  assert (E : add_recipient network (outs, total) r = Ok (outs ++ [{| valueSatoshis := rc_amountSatoshis r;
    scriptPubKey := script_for d |}], total + rc_amountSatoshis r)).
  { unfold add_recipient. rewrite Ed. cbn [mbind result_bind]. by rewrite dart_int_small by lia. }
  cbn [foldR]. rewrite E. cbn [mbind result_bind].
  rewrite (IH (outs ++ _) (total + rc_amountSatoshis r)); [|done|lia|lia]. rewrite <- app_assoc. f_equal. f_equal. lia.
Qed.

(** The payment balances: what is left of the coins after the amounts and the fee
    is the change. *)
Lemma payment_balances network h utxos rs fee dests :
  mapR (paid_to network) rs = Ok dests → Forall (λ r, 0 <= rc_amountSatoshis r) rs →
  Forall (λ u, 0 <= u_value u) utxos → sum_of u_value utxos <= 2 ^ 53 → 0 <= fee →
  sum_of rc_amountSatoshis rs + fee <= sum_of u_value utxos →
  payment_outputs network h utxos rs fee =
    Ok (dests ++ change_to h (sum_of u_value utxos - sum_of rc_amountSatoshis rs - fee),
        sum_of u_value utxos - sum_of rc_amountSatoshis rs - fee).
Proof.
  intros Hd Hr Hu Hs Hf Hle. pose proof (sum_of_nonneg _ _ Hr). unfold payment_outputs.
  rewrite (recipients_fold network rs dests Hd) by (done || lia). cbn [mbind result_bind Datatypes.app]. rewrite Z.add_0_l.
  rewrite (dart_sum u_value) by (done || lia). rewrite Z.add_0_l.
  rewrite (dart_int_small (sum_of u_value utxos - _)) by lia. rewrite (dart_int_small (_ - fee)) by lia.
  by destruct (Z.ltb_spec (sum_of u_value utxos - sum_of rc_amountSatoshis rs - fee) 0); [lia|].
Qed.

Lemma paid_sum network rs dests : mapR (paid_to network) rs = Ok dests → output_sum dests = sum_of rc_amountSatoshis rs.
Proof.
  intros H. apply mapR_ok in H. induction H as [|r o rs dests Ho _ IH]; [done|]. unfold paid_to in Ho.
  destruct (decodeAddress (rc_address r) network); [|done]. injection Ho as <-. unfold output_sum, sum_of in *. cbn. by rewrite IH.
Qed.
End outputs.

(** ** Running one call *)

Section running.
Context {P : Primitives} {PL : PrimitiveLaws} {MP : MobilePackages} {ML : MobilePackageLaws}.
Variable env : ∀ r, response r.

(** The requests the rest of a call makes, in order, when nothing else runs. *)
Fixpoint asked_by {A} (c : cont A) (st : wallet) : list request :=
  match c with
  | Await r k => (match r with Turn => [] | _ => [r] end) ++ (let '(st', c') := k (env r) st in asked_by c' st')
  | _ => []
  end.
Definition requests {A} (t : task A) (st : wallet) : list request := let '(st', c) := t st in asked_by c st'.

Lemma asked_then {A B} (c : cont A) (g : A → task B) st :
  (let '(st', c') := then_do c g st in asked_by c' st') =
  asked_by c st ++ match finish env c st with (st', Ok a) => requests (g a) st' | _ => [] end.
Proof.
  revert st. induction c as [a|e|r k IH] using cont_nested; intros st; cbn [then_do asked_by finish]; [done|done|].
  specialize (IH (env r) st). destruct (k (env r) st) as [s' c']. cbn [snd] in IH. rewrite IH. by rewrite app_assoc.
Qed.

Lemma requests_bind {A B} (m : task A) (g : A → task B) st :
  requests (m ≫= g) st = requests m st ++ match run env m st with (st', Ok a) => requests (g a) st' | _ => [] end.
Proof. unfold requests at 1 2, run, mbind, task_bind. destruct (m st) as [s' c]. apply asked_then. Qed.

Lemma requests_await {A} (m : task A) st : requests (await m) st = requests m st.
Proof. unfold await. rewrite requests_bind. destruct (run env m st) as [? [?|?]]; by rewrite app_nil_r. Qed.

Lemma run_lift {A} (r : result A) st : run env (lift r) st = (st, r).
Proof. by destruct r. Qed.
Lemma requests_lift {A} (r : result A) st : requests (lift r) st = [].
Proof. by destruct r. Qed.
Lemma run_gets {A} (f : wallet → A) st : run env (gets f) st = (st, Ok (f st)).
Proof. done. Qed.

Lemma run_ok_bind {A B} (m : task A) (g : A → task B) st st' b :
  run env (m ≫= g) st = (st', Ok b) → ∃ s a, run env m st = (s, Ok a) ∧ run env (g a) s = (st', Ok b).
Proof. rewrite task_run_bind. destruct (run env m st) as [s [a|e]]; [|done]. by exists s, a. Qed.

(** A request leaves the wallet as it is. *)
Lemma run_request path auth body st :
  let url := nc_gatewayBaseUrl (net st) +:+ path in
  run env (_request path auth body) st =
    (st, '(status, text) ← env (Http url auth body); _decode status text) ∧
  requests (_request path auth body) st = [Http url auth body].
Proof.
  intros url. assert (E : run env (send_request url auth body) st = (st, env (Http url auth body))).
  { unfold run, send_request. cbn [finish]. by destruct (env (Http url auth body)). }
  unfold _request. split.
  - rewrite task_run_bind, run_gets, task_run_bind. fold url. rewrite E.
    destruct (env (Http url auth body)) as [[status text]|e]; [|done]. apply run_lift.
  - rewrite requests_bind, run_gets, requests_bind. fold url. rewrite E. unfold requests at 2, send_request. cbn [asked_by].
    destruct (env (Http url auth body)) as [[status text]|e]; cbn; [|done]. by rewrite requests_lift.
Qed.
End running.

(** ** Keys and coins *)

Section coins.
Context {P : Primitives} {PL : PrimitiveLaws} {MP : MobilePackages} {ML : MobilePackageLaws}.

(** A key that signs: the halves belong together, and no signature has the bytes
    of its hash. *)
Definition owner (kp : keypair) : Prop :=
  signs kp ∧ typed_key (privateKey kp) ∧ publicKey kp = secp_public (privateKey kp).

(** BIP32 derives a key that signs at the index. *)
Definition keyed (m : string) (n : CacNetwork) (i : Z) : Prop :=
  child_index i ∧ ∃ kp, Keys.deriveKey m (web_network n) i "" false = Ok kp ∧ signs kp.

Lemma pubkey_hash kp : all_bytes (hash160 (publicKey kp)) ∧ length (hash160 (publicKey kp)) = 20%nat.
Proof. unfold hash160. split; [apply ripemd160_bytes|apply ripemd160_length]. Qed.

Lemma keyed_derives m n i :
  bip39_valid m = true → keyed m n i →
  ∃ kp a, deriveKey m (forNetwork n) i "" false = Ok kp ∧ owner kp ∧
    p2pkhAddress (hash160 (publicKey kp)) (forNetwork n) = Ok a.
Proof.
  intros Hm (Hi & kp & Hk & Hs). destruct (wallet_same n m i false kp Hm Hi Hk) as (Hd & _).
  destruct (pubkey_hash kp) as [Hb Hl]. destruct (encode_same n _ Hb Hl) as (E & _ & _).
  rewrite p2pkhAddress_encode in E by (done || apply web_network_ok). pose proof (web_network_ok n) as (_ & Hv1 & _).
  destruct (base58check_roundtrip_aux (p2pkhVersion (web_network n) :: hash160 (publicKey kp))) as (s & Es & _);
    [by apply all_bytes_cons|].
  exists kp, s. rewrite E, Es. split; [done|]. split; [|done].
  unfold Keys.deriveKey in Hk. split; [done|]. split; [exact (hd_private_bytes _ _ _ Hk)|exact (hd_derive_public _ _ _ Hk)].
Qed.

(** Everything but the caches. *)
Definition same_wallet (st st' : wallet) : Prop := st' = set_caches (w_keys st') (w_addresses st') st.

Lemma same_refl st : same_wallet st st.
Proof. by destruct st. Qed.
Lemma same_trans a b c : same_wallet a b → same_wallet b c → same_wallet a c.
Proof. unfold same_wallet. destruct a, b, c. cbn. intros [=] [=]. by subst. Qed.

(** A wallet with a phrase whose caches are right and whose indices have keys. *)
Record wallet_ready (m : string) (st : wallet) : Prop := {
  wr_mnemonic : w_mnemonic st = Some m;
  wr_valid : bip39_valid m = true;
  wr_caches : caches_ok st;
  wr_active : keyed m (w_network st) (w_activeIndex st);
  wr_keys : ∀ i, i ∈ w_addressIndices st → keyed m (w_network st) i
}.

Lemma ready_same m st st' : wallet_ready m st → same_wallet st st' → caches_ok st' → wallet_ready m st'.
Proof. intros [H1 H2 H3 H4 H5] E Hc. rewrite E in *. by split. Qed.

Context (env : ∀ r, response r).

Lemma ensure_run m st i :
  wallet_ready m st → keyed m (w_network st) i →
  ∃ st' kp, run env (ensureKey i) st = (st', Ok kp) ∧ same_wallet st st' ∧ caches_ok st' ∧ key_at st i kp ∧ owner kp ∧
    requests env (ensureKey i) st = [].
Proof.
  intros Hr Hi. destruct (keyed_derives m (w_network st) i (wr_valid _ _ Hr) Hi) as (kp & a & Hd & Ho & Ha).
  pose proof (careful_run env (ensureKey i) st (careful_ensureKey i) (wr_caches _ _ Hr)) as Hc.
  assert (Hat : key_at st i kp) by (exists m; split; [apply Hr|done]).
  unfold run, requests in *. rewrite ensureKey_eq in *. destruct (w_keys st !! i) as [k|] eqn:Ek.
  - exists st, k. destruct (proj1 (wr_caches _ _ Hr) i k Ek) as (m' & Hm' & Hd').
    rewrite (wr_mnemonic _ _ Hr) in Hm'. injection Hm' as <-. unfold net in Hd'. rewrite Hd in Hd'. injection Hd' as <-.
    split; [done|]. split; [apply same_refl|]. split; [exact Hc|done].
  - rewrite (wr_mnemonic _ _ Hr) in *. unfold net in *. rewrite Hd in *. cbn [hash160] in *. rewrite Ha in *.
    eexists _, kp. split; [done|]. split; [done|]. split; [exact Hc|done].
Qed.

(** A coin of the wallet: an entry of the gateway's list under one of its keys. *)
Definition owned (st : wallet) (u : spend) : Prop :=
  ∃ i kp, i ∈ w_addressIndices st ∧ key_at st i kp ∧ owner kp ∧ all_bytes (u_txid u) ∧
    u_pubkeyHash u = hash160 (publicKey kp) ∧ u_privateKey u = Some (privateKey kp) ∧
    u_publicKey u = Some (publicKey kp) ∧ u_sequence u = None.

Lemma coin_owned st i kp j u :
  i ∈ w_addressIndices st → key_at st i kp → owner kp → coin_of kp j = Ok u → owned st u.
Proof.
  intros Hi Hk Ho H. unfold coin_of in H. apply bind_ok in H as (mp & _ & H). apply bind_ok in H as (txid & Ht & H).
  apply bind_ok in H as (vout & _ & H). apply bind_ok in H as (value & _ & [= <-]).
  exists i, kp. do 3 (split; [done|]). split; [|done]. cbn [u_txid].
  apply bind_ok in Ht as (t & _ & Ht). unfold _hexToBytesReversedLocal in Ht. apply bind_ok in Ht as (b & _ & [= <-]).
  apply fromList_all_bytes.
Qed.

Lemma gather_run m st st1 us :
  wallet_ready m st → run env gatherAllUtxos st = (st1, Ok us) →
  same_wallet st st1 ∧ wallet_ready m st1 ∧ Forall (owned st) us.
Proof.
  intros Hr. unfold gatherAllUtxos. rewrite task_run_bind, run_gets.
  assert (Hsub : ∀ i, i ∈ w_addressIndices st → i ∈ w_addressIndices st) by done. revert Hsub.
  generalize (w_addressIndices st) at 1 3. generalize (same_refl st) Hr (Forall_nil (owned st)). generalize st at 2 3 6.
  generalize (@nil spend). intros acc s Hs Hrs Hacc idxs. revert acc s Hs Hrs Hacc.
  induction idxs as [|i idxs IH]; intros acc s Hs Hrs Hacc Hsub H; cbn [fold_task] in H.
  { injection H as <- <-. done. }
  assert (Hi : i ∈ w_addressIndices st) by (apply Hsub; left).
  assert (Hk : keyed m (w_network s) i) by (apply (wr_keys _ _ Hrs); rewrite Hs; exact Hi).
  apply run_ok_bind in H as (s2 & acc2 & H & Hrest).
  destruct (ensure_run m s i Hrs Hk) as (s1 & kp & E1 & Hs1 & Hc1 & Hat & Ho & _).
  rewrite task_run_bind, run_await, E1 in H.
  assert (E2 : ∃ r, run env (known_address i) s1 = (s1, r)).
  { unfold known_address. rewrite task_run_bind, run_gets. destruct (w_addresses s1 !! i); by eexists. }
  destruct E2 as [[a|] E2]; rewrite task_run_bind, E2 in H; [|done]. rewrite task_run_bind, run_await in H.
  assert (E3 : ∃ r, run env (g_utxos a) s1 = (s1, r)) by (eexists; apply run_request).
  destruct E3 as [[resp|] E3]; rewrite E3 in H; [|done]. rewrite task_run_bind, run_lift in H.
  destruct (dart_list_opt (obj_get "utxos" resp) ≫= mapR (coin_of kp)) as [coins|] eqn:Ec; [|done].
  injection H as <- <-. pose proof (same_trans _ _ _ Hs Hs1) as Hs'.
  apply (IH (acc ++ coins) s1 Hs'); [by eapply ready_same| |by intros j Hj; apply Hsub; right|exact Hrest].
  apply Forall_app. split; [done|]. apply bind_ok in Ec as (l & _ & Ec). apply mapR_ok in Ec. clear -Ec Hi Hat Ho Hs.
  assert (Hat' : key_at st i kp) by (destruct Hat as (m' & H1 & H2); rewrite Hs in H1, H2; by exists m').
  induction Ec as [|j u l us Hu _ IH]; constructor; [by eapply coin_owned|done].
Qed.
End coins.

(** ** Sending *)

Section send.
Context {P : Primitives} {PL : PrimitiveLaws} {MP : MobilePackages} {ML : MobilePackageLaws}.
Context (env : ∀ r, response r).

(** Code that asks the gateway for nothing. *)
Definition silent {A} (t : task A) : Prop := ∀ st, requests env t st = [].

Lemma silent_bind {A B} (m : task A) (g : A → task B) : silent m → (∀ a, silent (g a)) → silent (m ≫= g).
Proof.
  intros Hm Hg st. rewrite requests_bind, Hm. destruct (run env m st) as [s [a|e]]; [|done]. apply Hg.
Qed.
Lemma silent_lift {A} (r : result A) : silent (lift r).
Proof. intros st. apply requests_lift. Qed.
Lemma silent_storage {A} (f : gmap string string → A) g : silent (storage f g).
Proof. by intros st. Qed.
Lemma silent_await {A} (m : task A) : silent m → silent (await m).
Proof. intros H st. rewrite requests_await. apply H. Qed.

Lemma silent_log : silent readSentTxLog ∧ ∀ log, silent (saveSentTxLog log).
Proof.
  split; [|intros log; apply silent_storage]. apply silent_bind; [apply silent_storage|]. intros [t|]; [apply silent_lift|by intros st].
Qed.

Lemma owned_spend st u :
  owned st u → length (u_txid u) = 32%nat → 0 <= u_vout u < 2 ^ 32 → spend_ok None None u ∧ typed_spend None None u.
Proof.
  intros (i & kp & _ & _ & ((Hs1 & Hs2) & Hk & Hp) & Ht & E1 & E2 & E3 & E4) H32 Hv.
  unfold typed_spend, spend_ok. rewrite E1, E2, E3, E4. cbn [or_else]. split.
  - exists (privateKey kp). rewrite Hp in *. split_and!; try done; cbn; lia.
  - split; [done|]. split; [apply pubkey_hash|]. split; [by intros k [= <-]|]. intros pub [= <-]. rewrite Hp. apply secp_public_bytes.
Qed.

Lemma script_typed network rs dests : mapR (paid_to network) rs = Ok dests → Forall typed_out dests.
Proof.
  intros H. apply mapR_ok in H. induction H as [|r o rs dests Ho _ IH]; [done|]. constructor; [|done].
  unfold paid_to in Ho. destruct (decodeAddress _ _) as [d|]; [|done]. injection Ho as <-. unfold typed_out. cbn [scriptPubKey].
  unfold script_for. destruct (d_type d); apply fromList_all_bytes.
Qed.

Lemma mobile_decoded_length n a d : decodeAddress a (forNetwork n) = Ok d → length (d_hash d) = 20%nat.
Proof.
  unfold decodeAddress, throw_if. destruct (js_starts_with _ _).
  - intros H. apply bind_ok in H as ([hrp data] & _ & H). destruct (negb _); [done|]. rsimpl.
    apply bind_ok in H as (w & _ & H). apply bind_ok in H as (rest & _ & H). apply bind_ok in H as (p & _ & H).
    destruct (Nat.eqb_spec (length p) 20) as [E|E]; [|by rewrite orb_true_r in H].
    rewrite orb_false_r in H. destruct (negb _) in H; [done|]. by injection H as <-.
  - intros H. apply bind_ok in H as (dec & _ & H). destruct (Nat.eqb_spec (length dec) 21) as [E|E]; [|done]. rsimpl.
    apply bind_ok in H as (v & _ & H). apply bind_ok in H as (p & Hp & H). unfold sublist in Hp.
    destruct ((1 <=? length dec)%nat && (length dec <=? length dec)%nat); [|done]. injection Hp as <-.
    assert (length (take (length dec - 1) (drop 1 dec)) = 20%nat) by (rewrite length_take, length_drop; lia).
    repeat (destruct (_ =? _) in H; [by injection H as <-|]). done.
Qed.

(** A payment the screen can make: a wallet that is ready, rows that read, the
    gateway's answers, and coins for the amounts and the fee of spending them all. *)
Record payable (m : string) (st : wallet) (rows : list (string * string)) (override : option Z)
    (rs : list SendRecipient) (dests : list txout) (us : list spend) (st1 : wallet) (rate : Z) : Prop := {
  py_ready : wallet_ready m st;
  py_rows : mapR recipient_of rows = Ok rs;
  py_dests : mapR (paid_to (net st)) rs = Ok dests;
  py_amounts : rs ≠ [] ∧ Forall (λ r, 0 < rc_amountSatoshis r) rs;
  py_gather : run env gatherAllUtxos st = (st1, Ok us);
  py_fee : ∃ feeResp, run env g_feeEstimate st1 = (st1, Ok feeResp) ∧ rate = rate_in_force override (fee_rate feeResp);
  py_rate : 0 <= rate <= 2 ^ 31;
  py_coins : Forall (λ u, length (u_txid u) = 32%nat ∧ 0 <= u_vout u < 2 ^ 32 ∧ 0 <= u_value u) us;
  py_size : sum_of u_value us <= 2 ^ 53 ∧ Z.of_nat (length us) + Z.of_nat (length rs) <= 100000;
  py_funds : sum_of rc_amountSatoshis rs + fee_for rate (vsize_for (length us) (length rs + 1)) <= sum_of u_value us
}.

#[global] Arguments py_ready {_ _ _ _ _ _ _ _ _} _.
#[global] Arguments py_rows {_ _ _ _ _ _ _ _ _} _.
#[global] Arguments py_dests {_ _ _ _ _ _ _ _ _} _.
#[global] Arguments py_amounts {_ _ _ _ _ _ _ _ _} _.
#[global] Arguments py_gather {_ _ _ _ _ _ _ _ _} _.
#[global] Arguments py_fee {_ _ _ _ _ _ _ _ _} _.
#[global] Arguments py_rate {_ _ _ _ _ _ _ _ _} _.
#[global] Arguments py_coins {_ _ _ _ _ _ _ _ _} _.
#[global] Arguments py_size {_ _ _ _ _ _ _ _ _} _.
#[global] Arguments py_funds {_ _ _ _ _ _ _ _ _} _.

Context (m : string) (st : wallet) (rows : list (string * string)) (override : option Z)
  (rs : list SendRecipient) (dests : list txout) (us : list spend) (st1 : wallet) (rate : Z).
Hypothesis Hpay : payable m st rows override rs dests us st1 rate.

Lemma amounts_nonneg : Forall (λ r, 0 <= rc_amountSatoshis r) rs ∧ 0 < sum_of rc_amountSatoshis rs.
Proof.
  destruct (py_amounts Hpay) as [Hne Hpos].
  assert (Hn : Forall (λ r, 0 <= rc_amountSatoshis r) rs) by (eapply Forall_impl; [|exact Hpos]; intros r Hr; cbn beta in Hr; lia).
  split; [done|]. destruct rs as [|r l]; [done|]. rewrite sum_of_cons.
  apply Forall_cons_iff in Hpos as [Hr _]. apply Forall_cons_iff in Hn as [_ Hl]. pose proof (sum_of_nonneg _ _ Hl). lia.
Qed.

Lemma send_chooses :
  ∃ chosen tail, let fee := fee_for rate (vsize_for (length chosen) (length rs + 1)) in
    choose_coins u_value rate (length rs + 1) (sum_of rc_amountSatoshis rs) us = Ok (chosen, sum_of u_value chosen, fee) ∧
    us = chosen ++ tail ∧ chosen ≠ [] ∧ 0 <= fee ∧ sum_of rc_amountSatoshis rs + fee <= sum_of u_value chosen <= 2 ^ 53.
Proof.
  pose proof (py_size Hpay) as [H53 Hcount]. destruct amounts_nonneg as [_ Hpos].
  apply choose_enough; try apply Hpay; try lia.
  eapply Forall_impl; [|exact (py_coins Hpay)]. intros u Hu. apply Hu.
Qed.

(** The outputs of the payment, the change last. *)
Definition sent_outs (kp : keypair) (chosen : list spend) (fee : Z) : list txout :=
  dests ++ change_to (hash160 (publicKey kp)) (sum_of u_value chosen - sum_of rc_amountSatoshis rs - fee).

Lemma dest_outs : Forall2 (λ r o, valueSatoshis o = rc_amountSatoshis r ∧ len (scriptPubKey o) <= 100) rs dests.
Proof.
  pose proof (py_dests Hpay) as Hd. apply mapR_ok in Hd. eapply Forall2_impl; [|exact Hd]. intros r o Ho. cbn beta in Ho. unfold paid_to, net in Ho.
  destruct (decodeAddress (rc_address r) _) as [d|] eqn:Ed; [|done]. injection Ho as <-. split; [done|].
  apply mobile_decoded_length in Ed. cbn [scriptPubKey]. unfold len, script_for, fromList.
  destruct (d_type d); unfold p2pkhScriptPubKey, p2shScriptPubKey, p2wpkhScriptPubKey, fromList;
    rewrite length_fmap, !length_app, Ed; cbn; lia.
Qed.

Lemma sent_outs_ok kp chosen fee :
  0 <= fee → sum_of rc_amountSatoshis rs + fee <= sum_of u_value chosen <= 2 ^ 53 →
  let outs := sent_outs kp chosen fee in
  Forall txout_ok outs ∧ Forall typed_out outs ∧ Forall (λ o, len (scriptPubKey o) <= 100) outs ∧
  (length rs <= length outs <= length rs + 1)%nat ∧ (∃ o outs', outs = o :: outs' ∧ 0 < valueSatoshis o) ∧
  output_sum outs + fee = sum_of u_value chosen.
Proof.
  intros Hf Hs outs. unfold outs, sent_outs. destruct (py_amounts Hpay) as [Hne Hpos].
  pose proof dest_outs as Hd. pose proof (list.Forall2_length _ _ _ Hd) as Hl. destruct amounts_nonneg as [Hnn Hposs].
  pose proof (paid_sum _ _ _ (py_dests Hpay)) as Hsum.
  pose proof (script_typed _ _ _ (py_dests Hpay)) as Hty.
  set (c := sum_of u_value chosen - sum_of rc_amountSatoshis rs - fee).
  assert (Hch : Forall (λ o, txout_ok o ∧ typed_out o ∧ len (scriptPubKey o) <= 100) (change_to (hash160 (publicKey kp)) c) ∧
    output_sum (change_to (hash160 (publicKey kp)) c) = c ∧ (length (change_to (hash160 (publicKey kp)) c) <= 1)%nat).
  { unfold change_to. destruct (Z.ltb_spec 0 c); [|unfold output_sum; cbn; split; [done|]; unfold c in *; lia].
    split; [|unfold output_sum; cbn; lia]. apply Forall_singleton.
    assert (len (p2pkhScriptPubKey (hash160 (publicKey kp))) = 25).
    { unfold len, p2pkhScriptPubKey, fromList. rewrite length_fmap, !length_app, (proj2 (pubkey_hash kp)). done. }
    unfold txout_ok, typed_out, MAX_SIZE. cbn [valueSatoshis scriptPubKey]. split; [unfold c in *; lia|]. split; [apply fromList_all_bytes|lia]. }
  rewrite !list.Forall_and in Hch. destruct Hch as ((Hc1 & Hc2 & Hc3) & Hcs & Hcl).
  assert (Hdok : Forall (λ o, txout_ok o ∧ len (scriptPubKey o) <= 100) dests).
  { assert (Hb : sum_of rc_amountSatoshis rs <= 2 ^ 53) by lia. clear -Hd Hnn Hb.
    induction Hd as [|r o rs dests [E Ho] _ IH]; [done|]. rewrite sum_of_cons in Hb. apply Forall_cons_iff in Hnn as [Hr Hnn].
    pose proof (sum_of_nonneg _ _ Hnn). constructor; [|apply IH; [done|lia]]. unfold txout_ok, MAX_SIZE. rewrite E. lia. }
  rewrite list.Forall_and in Hdok. destruct Hdok as [Hd1 Hd2]. rewrite !Forall_app, length_app, output_sum_app, Hsum, Hcs.
  split_and!; try done; try lia. inversion Hd as [E1 E2|r o rs' dests' [E _] _ E1 E2]; [by rewrite <- E1 in Hne|].
  exists o. eexists. split; [done|]. rewrite <- E1 in Hpos. apply Forall_cons_iff in Hpos as [Hr _]. lia.
Qed.

(** The last request of the call: the signed transaction, to be broadcast. *)
Definition broadcast_request (raw : bytes) : request :=
  Http (nc_gatewayBaseUrl (net st) +:+ "/tx/broadcast") None (Some (JObj [("raw_tx_hex", JStr (_bytesToHexLocal raw))])).

Lemma transaction_requests s chosen fee :
  wallet_ready m s → same_wallet st s → Forall (λ u, 0 <= u_value u) chosen → 0 <= fee →
  sum_of rc_amountSatoshis rs + fee <= sum_of u_value chosen <= 2 ^ 53 →
  ∃ kp, key_at st (w_activeIndex st) kp ∧ ∀ raw,
    buildAndSignTransaction chosen (sent_outs kp chosen fee) None None 0 = Ok raw →
    requests env (sendTransaction chosen rs fee) s = [broadcast_request raw].
Proof.
  intros Hr Hs Hv Hf Hsum. destruct (py_amounts Hpay) as [Hne _]. destruct amounts_nonneg as [Hnn _].
  destruct (ensure_run env m s (w_activeIndex s) Hr (wr_active _ _ Hr)) as (s2 & kp & E & Hs2 & _ & Hat & _ & Eq).
  exists kp. split. { destruct Hat as (m' & H1 & H2). rewrite Hs in H1, H2. by exists m'. }
  intros raw Hraw. unfold sendTransaction. rewrite bool_decide_eq_false_2 by done.
  rewrite requests_bind, run_gets. change (requests env (gets _) s) with (@nil request). cbn [Datatypes.app].
  rewrite requests_bind, requests_await, Eq, run_await, E. cbn [Datatypes.app].
  rewrite requests_bind, run_gets. change (requests env (gets _) s2) with (@nil request). cbn [Datatypes.app].
  assert (En : net s2 = net st) by (pose proof (same_trans _ _ _ Hs Hs2) as E'; by rewrite E').
  rewrite En, (payment_balances _ _ _ _ _ dests) by (done || apply (py_dests Hpay) || lia).
  rewrite requests_bind, requests_lift, run_lift. cbn [Datatypes.app].
  rewrite requests_bind, requests_lift, run_lift. fold (sent_outs kp chosen fee). rewrite Hraw. cbn [Datatypes.app].
  rewrite requests_bind, requests_await. unfold g_broadcast at 1. rewrite requests_bind.
  destruct (run_request env "/tx/broadcast" None (Some (JObj [("raw_tx_hex", JStr (_bytesToHexLocal raw))])) s2) as [_ Er].
  rewrite Er, En. fold (broadcast_request raw).
  assert (Hq : ∀ t, silent (st ← gets id; record ← lift (sent_record_of st chosen (sent_outs kp chosen fee)
      (sum_of u_value chosen - sum_of rc_amountSatoshis rs - fee) fee);
    log ← await readSentTxLog; _ ← await (saveSentTxLog (obj_set t (record_toJson record) log)); mret t)).
  { intros t. destruct silent_log as [Q1 Q2]. apply silent_bind; [by intros ?|]. intros s3. apply silent_bind; [apply silent_lift|].
    intros rec. apply silent_bind; [by apply silent_await|]. intros log. apply silent_bind; [by apply silent_await|by intros ? ?]. }
  destruct (run env (await _) s2) as [s3 [t|]]; [rewrite Hq|]; rewrite app_nil_r; destruct (run env (_request _ _ _) s2) as [? [?|]];
    by rewrite ?requests_lift.
Qed.

Lemma coins_good : Forall (λ u, spend_ok None None u ∧ typed_spend None None u ∧ 0 <= u_value u) us.
Proof.
  destruct (gather_run env m st st1 us (py_ready Hpay) (py_gather Hpay)) as (_ & _ & Ho).
  pose proof (py_coins Hpay) as Hc. rewrite Forall_lookup in *. intros i u Hu.
  destruct (Hc i u Hu) as (H1 & H2 & H3). destruct (owned_spend st u (Ho i u Hu) H1 H2). auto.
Qed.

(** The call ends with the broadcast of a transaction that spends a prefix of the
    coins; the browser would have signed the same bytes. *)
Lemma send_signed :
  ∃ chosen tail kp raw, let fee := fee_for rate (vsize_for (length chosen) (length rs + 1)) in
    us = chosen ++ tail ∧ chosen ≠ [] ∧ 0 <= fee ∧ sum_of rc_amountSatoshis rs + fee <= sum_of u_value chosen <= 2 ^ 53 ∧
    Forall (spend_ok None None) chosen ∧ key_at st (w_activeIndex st) kp ∧
    Signing.buildAndSignTransaction chosen (sent_outs kp chosen fee) None None 0 = Ok raw ∧
    list.last (requests env (_send rows override) st) = Some (broadcast_request raw).
Proof.
  destruct send_chooses as (chosen & tail & Ec & Eus & Hne & Hf & Hs). set (fee := fee_for _ _) in *.
  pose proof coins_good as Hg. rewrite Eus in Hg. apply Forall_app in Hg as [Hg _].
  rewrite !list.Forall_and in Hg. destruct Hg as (Hok & Hty & Hv).
  destruct (gather_run env m st st1 us (py_ready Hpay) (py_gather Hpay)) as (Hs1 & Hr1 & _).
  destruct (transaction_requests st1 chosen fee Hr1 Hs1 Hv Hf Hs) as (kp & Hkp & Hreq).
  destruct (sent_outs_ok kp chosen fee Hf Hs) as (Hout & Htyped & Hlen & Hcount & _).
  pose proof (py_size Hpay) as [_ Hsize]. rewrite Eus, length_app in Hsize.
  destruct (signed_tx chosen (sent_outs kp chosen fee)) as (raw & tx & Hraw & _); try done; try (unfold MAX_SIZE; lia).
  exists chosen, tail, kp, raw. cbv zeta. fold fee. split_and!; try done; try lia.
  unfold _send. rewrite requests_bind, requests_lift, run_lift, (py_rows Hpay). cbn [Datatypes.app].
  rewrite requests_bind, run_await, (py_gather Hpay), bool_decide_eq_false_2 by (intros ->; by destruct chosen).
  destruct (py_fee Hpay) as (feeResp & Efee & Erate).
  rewrite requests_bind, run_await, Efee, <- Erate. destruct amounts_nonneg as [Hnn _].
  rewrite (dart_sum rc_amountSatoshis) by (done || lia). rewrite Z.add_0_l, Ec.
  rewrite requests_bind, requests_lift, run_lift. cbn [Datatypes.app]. rewrite !requests_await.
  rewrite (Hreq raw) by (by apply mobile_signs_same_aux). by rewrite !app_assoc, list.last_snoc.
Qed.
End send.

Lemma coins_value us : value_sum ((λ u, (outpoint_of_spend u, u_value u)) <$> us) = sum_of u_value us.
Proof.
  induction us as [|u us IH]; [done|]. rewrite fmap_cons, sum_of_cons, <- IH. done.
Qed.

(** C3. A payment made on the phone is right.  If the coins cover the amounts and the
    fee, [_send] ends by posting a transaction that the node reads, that spends a
    prefix of the wallet's coins, that pays every recipient the amount asked for, in
    order, and the rest less the fee back to the active key, and whose every input
    passes the node's script verification. *)
Theorem phone_send_accepted {P : Primitives} {PL : PrimitiveLaws} {MP : MobilePackages} {ML : MobilePackageLaws}
    (env : ∀ r, response r) (m : string) (st : wallet) (rows : list (string * string)) (override : option Z)
    (rs : list SendRecipient) (dests : list txout) (us : list spend) (st1 : wallet) (rate : Z)
    (Hpay : payable env m st rows override rs dests us st1 rate) :
  ∃ chosen tail kp raw tx, let fee := fee_for rate (vsize_for (length chosen) (length rs + 1)) in
    us = chosen ++ tail ∧ key_at st (w_activeIndex st) kp ∧
    list.last (requests env (_send rows override) st) = Some (broadcast_request st raw) ∧
    UnserializeTransaction true raw = Ok (tx, []) ∧
    vout tx = node_out <$> sent_outs rs dests kp chosen fee ∧
    output_sum (sent_outs rs dests kp chosen fee) + fee = sum_of u_value chosen ∧
    length (vin tx) = length chosen ∧
    ∀ i u, chosen !! i = Some u → ∃ inp, vin tx !! i = Some inp ∧
      prevout inp = {| op_hash := u_txid u; op_n := u_vout u |} ∧
      VerifyScript tx i (txin_scriptSig inp) (p2pkhScriptPubKey (u_pubkeyHash u)) (scriptWitness inp) = Ok tt.
Proof.
  destruct (send_signed _ _ _ _ _ _ _ _ _ _ Hpay) as (chosen & tail & kp & raw & Eus & Hne & Hf & Hs & Hok & Hkp & Hraw & Hreq).
  destruct (sent_outs_ok _ _ _ _ _ _ _ _ _ _ Hpay kp chosen _ Hf Hs) as (Hout & _ & _ & Hcount & _ & Hsum).
  pose proof (py_size _ Hpay) as [_ Hsize]. rewrite Eus, length_app in Hsize.
  destruct (buildAndSign_accepted_aux chosen _ None None 0 Hne Hok Hout) as (raw' & tx & Hraw' & Hu & _ & _ & Hvo & Hvi & Hin);
    [lia|unfold MAX_SIZE; lia|unfold MAX_SIZE; lia|].
  rewrite Hraw in Hraw'. apply Toy.Ok_inj in Hraw' as <-.
  exists chosen, tail, kp, raw, tx. cbv zeta. split_and!; try done. intros i u Hi.
  destruct (Hin i u Hi) as (inp & H1 & H2 & _ & H3). by exists inp.
Qed.

(** ... and refused for its fee.  At any rate up to 25000, two hundred and fifty times
    the floor the gateway reports, the transaction of [_send] fails the node's
    [CheckTxInputs] with "bad-txns-fee-not-enough" on a chain that has the coins: the
    rate is per byte and the screen divides by 1000. *)
Theorem phone_fee_not_enough {P : Primitives} {PL : PrimitiveLaws} {MP : MobilePackages} {ML : MobilePackageLaws}
    (env : ∀ r, response r) (m : string) (st : wallet) (rows : list (string * string)) (override : option Z)
    (rs : list SendRecipient) (dests : list txout) (us : list spend) (st1 : wallet) (rate : Z)
    (view : COutPoint → option Coin) (p : params) (h now : Z)
    (Hpay : payable env m st rows override rs dests us st1 rate) (Hrate : rate <= 25000)
    (Hcoins : Forall (λ u, spendable view now (outpoint_of_spend u, u_value u)) us)
    (Hnow : IsProtocolV3_1 p now = true) (Hclock : 0 <= now < 2 ^ 32) :
  ∃ raw tx, list.last (requests env (_send rows override) st) = Some (broadcast_request st raw) ∧
    UnserializeTransaction true raw = Ok (tx, []) ∧
    CheckTxInputs view p h now tx = invalid "bad-txns-fee-not-enough".
Proof.
  destruct (send_signed _ _ _ _ _ _ _ _ _ _ Hpay) as (chosen & tail & kp & raw & Eus & Hne & Hf & Hs & Hok & Hkp & Hraw & Hreq).
  set (fee := fee_for _ _) in *.
  destruct (sent_outs_ok _ _ _ _ _ _ _ _ _ _ Hpay kp chosen fee Hf Hs) as (Hout & _ & Hlen & Hcount & Hfirst & Hsum).
  pose proof (py_size _ Hpay) as [_ Hsize]. rewrite Eus, length_app in Hsize.
  rewrite Eus in Hcoins. apply Forall_app in Hcoins as [Hcoins _].
  destruct (signed_tx chosen (sent_outs rs dests kp chosen fee)) as (raw' & tx & Hraw' & Eu & Es & Ev & Et & Evo & Evi & Hl);
    try done; try (unfold MAX_SIZE; lia).
  rewrite Hraw in Hraw'. apply Toy.Ok_inj in Hraw' as <-. exists raw, tx. split; [done|]. split; [done|].
  set (coins := (λ u, (outpoint_of_spend u, u_value u)) <$> chosen).
  assert (Ecoins : value_sum coins = sum_of u_value chosen) by apply coins_value.
  rewrite (check_inputs_fee _ _ _ _ _ coins (sent_outs rs dests kp chosen fee) fee); rewrite ?Ecoins; try done; try lia.
  - assert (Hraw29 : len raw < 2 ^ 29) by (unfold len; lia).
    rewrite Hnow, (weight_small tx raw Es Hraw29), Z.mod_small by lia. cbn [andb].
    destruct (Z.ltb_spec fee (GetMinFee p (len raw) now)) as [_|Hbad]; [done|exfalso].
    destruct amounts_nonneg with (1 := Hpay) as [_ Hpos]. pose proof (py_rate _ Hpay).
    destruct (fee_for_exact rate (vsize_for (length chosen) (length rs + 1))) as [Ef _]; [lia|unfold vsize_for; lia|].
    pose proof (min_fee_above p rate now (len raw) (length chosen) (length rs) (length (sent_outs rs dests kp chosen fee)) Hnow) as Hlt.
    assert (E : AppSend.rate_fee rate (AppSpend.estimated_vsize (Z.of_nat (length chosen)) (Z.of_nat (length rs) + 1)) = fee).
    { unfold fee. rewrite Ef. unfold AppSend.rate_fee, AppSpend.estimated_vsize, vsize_for. rewrite Z.quot_div_nonneg, Nat2Z.inj_add by nia. done. }
    rewrite E in Hlt. assert (chosen ≠ [] → rs ≠ [] → (1 <= length chosen ∧ 1 <= length rs)%nat) as Hnz by (by destruct chosen, rs; cbn; try done; lia).
    destruct Hnz as [? ?]; [done|apply Hpay|]. unfold len in *. lia.
  - unfold coins. rewrite <- list_fmap_compose. exact Evi.
  - by apply Forall_fmap.
Qed.

(** ** A payment *)

Module PayExample.
#[local] Existing Instances Toy.prims Toy.laws ToyPackages.packages ToyPackages.package_laws.

(** Two outputs for the address, a fee rate of 100, a transaction id. *)
Definition answers (r : request) : response r :=
  match r with
  | Turn => ()
  | Http url _ _ =>
      let coin t v := JObj [("txid", JStr t); ("vout", jint 1); ("value", JStr v)] in
      Ok (200, stringify (
        if js_includes url "/utxos" then JObj [("utxos", JArr [coin (js_repeat "ab" 32) "60000"; coin (js_repeat "cd" 32) "900000"])]
        else if js_includes url "/fee-estimate" then JObj [("fee_rate_sat_per_vbyte", JStr "100")]
        else JObj [("txid", JStr (js_repeat "ef" 32))]))
  end.

Definition payee : string := SendExample.get_ok "" (p2pkhAddress (replicate 20 7) mainnetConfig).
Definition rows : list (string * string) := [(payee, "0.005")].
Definition recipients : list SendRecipient := [{| rc_address := payee; rc_amountSatoshis := 500000 |}].
Definition outs : list txout := [{| valueSatoshis := 500000; scriptPubKey := p2pkhScriptPubKey (replicate 20 7) |}].
Definition gathered : wallet * result (list spend) := run answers gatherAllUtxos SessionExample.started.
Definition coins : list spend := SendExample.get_ok [] gathered.2.

Lemma started_ready : wallet_ready "abandon ability" SessionExample.started.
Proof.
  assert (Hk : keyed "abandon ability" CacMainnet 0).
  { split; [split; lia|]. eexists. split; [reflexivity|]. split; [done|]. intros sig. apply sig_bytes_ne. by vm_compute. }
  split.
  - by vm_compute.
  - by vm_compute.
  - exact (bootstrap_caches SessionExample.offline SessionExample.store).
  - exact Hk.
  - intros i Hi. assert (i = 0) as -> by (by apply list_elem_of_singleton in Hi). exact Hk.
Qed.

Lemma pay_ready : payable answers "abandon ability" SessionExample.started rows None recipients outs coins gathered.1 100.
Proof.
  split.
  - exact started_ready.
  - by vm_compute.
  - by vm_compute.
  - split; [done|]. by apply Forall_singleton.
  - vm_compute. reflexivity.
  - exists [("fee_rate_sat_per_vbyte", JStr "100")]. split; vm_compute; reflexivity.
  - lia.
  - assert (H : Forall (λ u, (length (u_txid u) =? 32)%nat && (u_vout u =? 1) && (0 <=? u_value u) = true) coins)
      by (apply Forall_forall, forallb_forall; vm_compute; reflexivity).
    eapply Forall_impl; [|exact H]. intros u Hu.
    apply andb_true_iff in Hu as [[H1%Nat.eqb_eq H2%Z.eqb_eq]%andb_true_iff H3%Z.leb_le]. lia.
  - split; vm_compute; congruence.
  - vm_compute. congruence.
Qed.
End PayExample.

Lemma phone_send_accepted_witness :
  ∃ raw tx, list.last (requests PayExample.answers (_send (P := Toy.prims) (MP := ToyPackages.packages) PayExample.rows None)
      SessionExample.started) = Some (broadcast_request SessionExample.started raw) ∧
    UnserializeTransaction true raw = Ok (tx, []) ∧
    nth_error (vout tx) 0 = Some {| nValue := 500000; txout_scriptPubKey := p2pkhScriptPubKey (replicate 20 7) |}.
Proof.
  destruct (phone_send_accepted (P := Toy.prims) (PL := Toy.laws) (MP := ToyPackages.packages) (ML := ToyPackages.package_laws)
    _ _ _ _ _ _ _ _ _ _ PayExample.pay_ready) as (chosen & tail & kp & raw & tx & _ & _ & Hreq & Hu & Ho & _).
  exists raw, tx. split; [exact Hreq|]. split; [exact Hu|]. rewrite Ho. reflexivity.
Defined.

Lemma phone_fee_not_enough_witness :
  ∃ raw tx, UnserializeTransaction true raw = Ok (tx, []) ∧
    CheckTxInputs FeeExample.view FeeExample.mainnet_params 600 1800000000 tx = invalid "bad-txns-fee-not-enough".
Proof.
  destruct (phone_fee_not_enough (P := Toy.prims) (PL := Toy.laws) (MP := ToyPackages.packages) (ML := ToyPackages.package_laws)
    _ _ _ _ _ _ _ _ _ _ FeeExample.view FeeExample.mainnet_params 600 1800000000 PayExample.pay_ready)
    as (raw & tx & _ & H1 & H2).
  - lia.
  - assert (E : (λ u, (outpoint_of_spend u, u_value u)) <$> PayExample.coins =
      [({| op_hash := replicate 32 0xab; op_n := 1 |}, 60000); ({| op_hash := replicate 32 0xcd; op_n := 1 |}, 900000)])
      by (vm_compute; reflexivity).
    apply (proj1 (Forall_fmap (λ u, (outpoint_of_spend u, u_value u)) (spendable FeeExample.view 1800000000) PayExample.coins)).
    rewrite E. apply Forall_cons_iff. split; [|apply Forall_singleton].
    all: split; [cbn; lia|]; eexists; split; [vm_compute; reflexivity|]; split_and!; vm_compute; congruence.
  - reflexivity.
  - lia.
  - exists raw, tx. split; [exact H1|exact H2].
Defined.

Lemma typed_amount_exact_witness :
  recipient_of (" addr ", formatCac 123456789) = Ok {| rc_address := "addr"; rc_amountSatoshis := 123456789 |}.
Proof. apply (typed_amount_exact " addr " 123456789); [vm_compute; discriminate|unfold COIN; lia]. Defined.

(** ** The phone's combined history and its count of new transactions

    [fetchHistory] and [checkForNewTransactions] of
    cac_wallet/lib/services/wallet_service.dart 264-335, run against the gateway:
    the combined list holds every listed transaction once, and a check counts what
    the check before it had not listed. *)

Section history.
Variable env : ∀ r, response r.

(** The transactions the gateway lists for an address. *)
Definition page (st : wallet) (address : string) : result (list json) :=
  j ← (run env (g_history address) st).2; dart_list_opt (obj_get "transactions" j).

(** A transaction is listed under an address of the wallet. *)
Definition listed (st : wallet) (idxs : list Z) (txid : string) : Prop :=
  ∃ idx a l t, idx ∈ idxs ∧ w_addresses st !! idx = Some a ∧ page st a = Ok l ∧ t ∈ l ∧ txid_of t = Ok txid.

(** The loop's two variables agree. *)
Definition acc_ok (acc : list string * list json) : Prop := mapR txid_of acc.2 = Ok acc.1 ∧ NoDup acc.1.

Lemma add_unseen_ok acc t acc' :
  acc_ok acc → add_unseen acc t = Ok acc' →
  acc_ok acc' ∧ ∃ x, txid_of t = Ok x ∧ ∀ y, y ∈ acc'.1 ↔ y ∈ acc.1 ∨ y = x.
Proof.
  destruct acc as [seen all]. intros [Hm Hn] H. unfold add_unseen in H. apply bind_ok in H as (mp & Hmp & H).
  apply bind_ok in H as (x & Hx & [= <-]). assert (Et : txid_of t = Ok x) by (unfold txid_of; by rewrite Hmp).
  cbn [fst snd] in *. case_bool_decide as Hin; cbn [fst snd].
  - split; [done|]. exists x. split; [done|]. intros y. split; [by left|]. by intros [?| ->].
  - split.
    + split; cbn [fst snd].
      * apply mapR_ok, Forall2_app; [by apply mapR_ok|]. by constructor.
      * apply list.NoDup_app. split; [done|]. split; [|apply NoDup_singleton]. by intros y Hy ->%list_elem_of_singleton.
    + exists x. split; [done|]. intros y. by rewrite elem_of_app, list_elem_of_singleton.
Qed.

Lemma add_page_ok l : ∀ acc acc', acc_ok acc → foldR add_unseen acc l = Ok acc' →
  acc_ok acc' ∧ ∀ y, y ∈ acc'.1 ↔ y ∈ acc.1 ∨ ∃ t, t ∈ l ∧ txid_of t = Ok y.
Proof.
  induction l as [|t l IH]; intros acc acc' Ha H; cbn [foldR] in H.
  { injection H as <-. split; [done|]. intros y. split; [by left|]. intros [?|(t & Ht & _)]; [done|by apply not_elem_of_nil in Ht]. }
  apply bind_ok in H as (acc1 & H1 & H2). destruct (add_unseen_ok _ _ _ Ha H1) as (Ha1 & x & Hx & Hi).
  destruct (IH _ _ Ha1 H2) as [Ha' Hi']. split; [done|]. intros y. rewrite Hi', Hi. split.
  - intros [[?| ->]|(s & Hs & Es)]; [by left|right; exists t; split; [left|done]|right; exists s; split; [by right|done]].
  - intros [?|(s & [->|Hs]%elem_of_cons & Es)]; [by left; left| |right; by exists s].
    left. right. rewrite Hx in Es. by injection Es.
Qed.

Lemma run_known st i : run env (known_address i) st =
  (st, match w_addresses st !! i with Some a => Ok a | None => Throw (TypeError "Null check operator used on a null value") end).
Proof. unfold known_address. rewrite task_run_bind, run_gets. by destruct (w_addresses st !! i). Qed.

Lemma fetch_loop st idxs : ∀ acc s acc', acc_ok acc →
  run env (fold_task (λ acc idx, address ← known_address idx; j ← await (g_history address);
    lift (dart_list_opt (obj_get "transactions" j) ≫= foldR add_unseen acc)) acc idxs) st = (s, Ok acc') →
  s = st ∧ acc_ok acc' ∧ ∀ y, y ∈ acc'.1 ↔ y ∈ acc.1 ∨ listed st idxs y.
Proof.
  induction idxs as [|i idxs IH]; intros acc s acc' Ha H; cbn [fold_task] in H.
  { injection H as <- <-. split; [done|]. split; [done|]. intros y. split; [by left|].
    intros [?|(i & _ & _ & _ & Hi & _)]; [done|by apply not_elem_of_nil in Hi]. }
  apply run_ok_bind in H as (s1 & acc1 & H & Hrest). rewrite task_run_bind, run_known in H.
  destruct (w_addresses st !! i) as [a|] eqn:Ea; [|done]. rewrite task_run_bind, run_await in H.
  assert (Ep : ∃ r, run env (g_history a) st = (st, r)) by (eexists; apply run_request).
  destruct Ep as [[j|] Ep]; rewrite Ep in H; [|done]. rewrite run_lift in H. injection H as <- H.
  apply bind_ok in H as (l & Hl & H). assert (Hpage : page st a = Ok l) by (unfold page; by rewrite Ep).
  destruct (add_page_ok l _ _ Ha H) as [Ha1 Hi1]. destruct (IH _ _ _ Ha1 Hrest) as (-> & Ha' & Hi').
  split; [done|]. split; [done|]. intros y. rewrite Hi', Hi1. split.
  - intros [[?|(t & Ht & Et)]|(i' & a' & l' & t & Hin & Hrest')]; [by left| |].
    + right. exists i, a, l, t. split; [left|done].
    + right. exists i', a', l', t. split; [by right|done].
  - intros [?|(i' & a' & l' & t & [->|Hin]%elem_of_cons & Ea' & Ep' & Ht & Et)]; [by left; left| |right; by exists i', a', l', t].
    left. right. rewrite Ea in Ea'. injection Ea' as <-. rewrite Hpage in Ep'. injection Ep' as <-. by exists t.
Qed.
End history.

Lemma remove_dups_same (l : list string) : NoDup l → remove_dups l = l.
Proof.
  induction 1 as [|x l Hx _ IH]; [done|]. cbn [remove_dups]. destruct (decide_rel elem_of x l); [done|]. by rewrite IH.
Qed.

Section checks.
Variable sort : (json → json → Z) → list json → list json.
(** [List.sort] rearranges the list. *)
Hypothesis Hsort : ∀ c l, sort c l ≡ₚ l.

Lemma history_once env st st' txs :
  run env (fetchHistory sort) st = (st', Ok txs) →
  st' = st ∧ ∃ ids, mapR txid_of txs = Ok ids ∧ NoDup ids ∧ ∀ t, t ∈ ids ↔ listed env st (w_addressIndices st) t.
Proof.
  intros H. unfold fetchHistory in H. rewrite task_run_bind, run_gets in H.
  apply run_ok_bind in H as (s & [seen all] & Hl & H).
  assert (H0 : acc_ok ([], [])) by (split; [done|apply NoDup_nil_2]).
  destruct (fetch_loop env st _ _ _ _ H0 Hl) as (-> & [Hm Hn] & Hi).
  rewrite task_run_bind, run_lift in H. destruct (if _ : bool then _ else _) in H; [|done]. injection H as <- <-. split; [done|].
  cbn [fst snd] in *. apply mapR_ok in Hm. destruct (Permutation_Forall2 (symmetry (Hsort compare_history all)) Hm) as (ids & Hp & Hf).
  exists ids. split; [by apply mapR_ok|]. split; [by rewrite <- Hp|]. intros t. rewrite <- Hp, Hi. split; [|by right].
  intros [Ht|?]; [by apply not_elem_of_nil in Ht|done].
Qed.

(** The store after a check: the ids just listed. *)
Definition seen_store (ids : list string) (st : wallet) : wallet :=
  set_store (<[seenTxidsKey := stringify (JArr (JStr <$> ids))]> (w_store st)) st.

Lemma run_readSeen env st :
  run env readSeenTxids st = (st, match w_store st !! seenTxidsKey with None => Ok [] | Some t => parse t ≫= string_list end).
Proof.
  unfold readSeenTxids. rewrite task_run_bind, run_sread. destruct (w_store st !! seenTxidsKey); [apply run_lift|done].
Qed.

(** What a check saves it reads again. *)
Lemma seen_back ids : parse (stringify (JArr (JStr <$> ids))) ≫= string_list = Ok ids.
Proof.
  unfold stringify. rewrite parse_write by (apply json_ok_arr, Forall_fmap, Forall_true; done). cbn [mbind result_bind].
  unfold string_list, dart_list_of. cbn [mbind result_bind]. apply mapR_ok. induction ids; by constructor.
Qed.

Lemma check_run env st st' c :
  run env (checkForNewTransactions sort) st = (st', Ok c) →
  ∃ ids seen, NoDup ids ∧ (∀ t, t ∈ ids ↔ listed env st (w_addressIndices st) t) ∧
    (run env readSeenTxids st).2 = Ok seen ∧ st' = seen_store ids st ∧
    c = if bool_decide (seen = []) then 0 else Z.of_nat (length (filter (λ t, t ∉ seen) ids)).
Proof.
  unfold checkForNewTransactions. intros H. rewrite task_run_bind, run_await in H.
  destruct (run env (fetchHistory sort) st) as [s [txs|]] eqn:Eh; [|done].
  destruct (history_once env st s txs Eh) as (-> & ids & Hm & Hn & Hi). rewrite task_run_bind, run_lift, Hm in H.
  rewrite remove_dups_same in H by done. rewrite task_run_bind, run_await in H.
  destruct (run env readSeenTxids st) as [s [seen|]] eqn:Es; [|done]. rewrite run_readSeen in Es. injection Es as <- Es.
  exists ids, seen. rewrite task_run_bind, run_await in H.
  change (run env (saveSeenTxids ids) st) with (seen_store ids st, Ok (A := unit) tt) in H. cbv beta iota in H.
  case_bool_decide; injection H as <- <-; done.
Qed.
End checks.

(** The phone's list of transactions is complete and has no duplicates: every
    transaction the gateway lists under some address of the wallet is in it, once,
    and nothing else; fetching it changes nothing. *)
Theorem phone_history
    (sort : (json → json → Z) → list json → list json) (env : ∀ r, response r) (st st' : wallet) (txs : list json)
    (Hsort : ∀ c l, sort c l ≡ₚ l) (Hrun : run env (fetchHistory sort) st = (st', Ok txs)) :
  st' = st ∧ ∃ ids, mapR txid_of txs = Ok ids ∧ NoDup ids ∧ ∀ t, t ∈ ids ↔ listed env st (w_addressIndices st) t.
Proof. by apply (history_once sort). Qed.

(** A check counts the transactions that the check before it did not list, but
    says 0 if that one listed none: the first payment to an empty wallet is never
    announced. *)
Theorem second_check
    (sort : (json → json → Z) → list json → list json) (env1 env2 : ∀ r, response r) (st st1 st2 : wallet) (c1 c2 : Z)
    (Hsort : ∀ c l, sort c l ≡ₚ l)
    (H1 : run env1 (checkForNewTransactions sort) st = (st1, Ok c1))
    (H2 : run env2 (checkForNewTransactions sort) st1 = (st2, Ok c2)) :
  ∃ ids1 ids2, NoDup ids1 ∧ NoDup ids2 ∧
    (∀ t, t ∈ ids1 ↔ listed env1 st (w_addressIndices st) t) ∧
    (∀ t, t ∈ ids2 ↔ listed env2 st1 (w_addressIndices st) t) ∧
    c2 = if bool_decide (ids1 = []) then 0 else Z.of_nat (length (filter (λ t, t ∉ ids1) ids2)).
Proof.
  destruct (check_run sort Hsort _ _ _ _ H1) as (ids1 & seen1 & Hn1 & Hi1 & _ & -> & _).
  destruct (check_run sort Hsort _ _ _ _ H2) as (ids2 & seen2 & Hn2 & Hi2 & Hs & _ & ->).
  rewrite run_readSeen in Hs. cbn [snd] in Hs.
  change (w_store (seen_store ids1 st)) with (<[seenTxidsKey := stringify (JArr (JStr <$> ids1))]> (w_store st)) in Hs.
  rewrite lookup_insert_eq, seen_back in Hs. apply Toy.Ok_inj in Hs as <-. by exists ids1, ids2.
Qed.

(** ** The first payment *)

Module HistoryExample.
(** A gateway that lists the given transactions for every address. *)
Definition lists (txids : list string) (r : request) : response r :=
  match r with
  | Turn => ()
  | Http _ _ _ => Ok (200, stringify (JObj [("transactions",
      JArr ((λ t, JObj [("txid", JStr t); ("height", jint 7)]) <$> txids))]))
  end.
(** The wallet after a check that found nothing. *)
Definition checked : wallet :=
  (run (lists []) (checkForNewTransactions SessionExample.no_sort) SessionExample.started).1.
Definition paid : wallet :=
  (run (lists ["f00d"]) (checkForNewTransactions SessionExample.no_sort) checked).1.
End HistoryExample.

Lemma phone_history_witness :
  ∃ txs ids, run (HistoryExample.lists ["f00d"; "beef"; "f00d"])
      (fetchHistory SessionExample.no_sort) SessionExample.started =
      (SessionExample.started, Ok txs) ∧ mapR txid_of txs = Ok ids ∧ NoDup ids.
Proof.
  eexists. eexists. split; [vm_compute; reflexivity|].
  destruct (phone_history SessionExample.no_sort
    (HistoryExample.lists ["f00d"; "beef"; "f00d"]) SessionExample.started SessionExample.started
    ((λ t, JObj [("txid", JStr t); ("height", jint 7)]) <$> ["f00d"; "beef"]))
    as (_ & ids & Hm & Hn & _); [done|vm_compute; reflexivity|].
  split; [vm_compute; reflexivity|]. vm_compute in Hm. injection Hm as <-. exact Hn.
Defined.

Lemma second_check_witness :
  ∃ ids2 : list string, (∀ t, t ∈ ids2 ↔ listed (HistoryExample.lists ["f00d"])
      HistoryExample.checked [0] t) ∧
    (run (HistoryExample.lists ["f00d"]) (checkForNewTransactions
      SessionExample.no_sort) HistoryExample.checked).2 = Ok 0.
Proof.
  destruct (second_check SessionExample.no_sort
    (HistoryExample.lists []) (HistoryExample.lists ["f00d"]) SessionExample.started HistoryExample.checked HistoryExample.paid 0 0)
    as (ids1 & ids2 & _ & _ & _ & H2 & _); [done|vm_compute; reflexivity|vm_compute; reflexivity|].
  exists ids2. split; [exact H2|vm_compute; reflexivity].
Defined.
