(* ===== verification/MobileOffline.v ===== *)
(** * Air-gapped payments between two phones

    cac_wallet/lib/crypto/offline_signing.dart with the two screens around it,
    offline_send_screen.dart (the online, watch-only side: [_buildRequest]) and
    offline_sign_screen.dart (the side that holds the seed: [_sign]), and
    [signOfflineSignRequest] of the wallet service.  A request travels as JSON text
    from one device to the other; what comes back is a signed transaction.  The
    private copies of the hexadecimal helpers are those of [Dart]. *)

From S2P Require Import Prelude JsString JsNum Amount Json Hex JsValue Primitives Base58 Address Keys NodeTx NodeScript ScriptLemmas TxCodec Signing SendProof AppMultisig.
From S2P Require Import Dart MobilePackages MobileAddress MobileTx MobileMultisig MobileWallet MobileSend MobileSession MobilePay.

(** ** Requests *)

Record OfflineSignInput := {
  oi_txidHex : string; oi_vout : Z; oi_valueSatoshis : Z; oi_derivationIndex : Z; oi_pubkeyHashHex : string }.
Record OfflineSignOutput := { oo_scriptPubKeyHex : string; oo_valueSatoshis : Z }.
Record OfflineSignRequest := { oq_locktime : Z; oq_inputs : list OfflineSignInput; oq_outputs : list OfflineSignOutput }.

Definition offline_input_toJson (i : OfflineSignInput) : json :=
  JObj [("txid", JStr (oi_txidHex i)); ("vout", jint (oi_vout i)); ("valueSatoshis", jint (oi_valueSatoshis i));
        ("derivationIndex", jint (oi_derivationIndex i)); ("pubkeyHash", JStr (oi_pubkeyHashHex i))].
Definition offline_input_fromJson (v : json) : result OfflineSignInput :=
  j ← dart_map_of v;
  txid ← dart_string_of (obj_get "txid" j); vout ← dart_int_of (obj_get "vout" j);
  value ← dart_int_of (obj_get "valueSatoshis" j); idx ← dart_int_of (obj_get "derivationIndex" j);
  h ← dart_string_of (obj_get "pubkeyHash" j);
  mret {| oi_txidHex := txid; oi_vout := vout; oi_valueSatoshis := value; oi_derivationIndex := idx; oi_pubkeyHashHex := h |}.

Definition offline_output_toJson (o : OfflineSignOutput) : json :=
  JObj [("scriptPubKeyHex", JStr (oo_scriptPubKeyHex o)); ("valueSatoshis", jint (oo_valueSatoshis o))].
Definition offline_output_fromJson (v : json) : result OfflineSignOutput :=
  j ← dart_map_of v;
  script ← dart_string_of (obj_get "scriptPubKeyHex" j); value ← dart_int_of (obj_get "valueSatoshis" j);
  mret {| oo_scriptPubKeyHex := script; oo_valueSatoshis := value |}.

Definition request_tag : string := "cac_offline_sign_request".
Definition request_toJson (r : OfflineSignRequest) : json :=
  JObj [("type", JStr request_tag); ("v", jint 1); ("locktime", jint (oq_locktime r));
        ("inputs", JArr (offline_input_toJson <$> oq_inputs r)); ("outputs", JArr (offline_output_toJson <$> oq_outputs r))].
Definition request_fromJson (j : list (string * json)) : result OfflineSignRequest :=
  if negb (match obj_get "type" j with Some (JStr t) => String.eqb t request_tag | _ => false end)
  then Throw (FormatException "Not a CodexaCoin offline-signing request.") else
  locktime ← dart_int_of (obj_get "locktime" j);
  ins ← dart_list_of (obj_get "inputs" j) ≫= mapR offline_input_fromJson;
  outs ← dart_list_of (obj_get "outputs" j) ≫= mapR offline_output_fromJson;
  mret {| oq_locktime := locktime; oq_inputs := ins; oq_outputs := outs |}.

(** ** Signing *)

Definition _bytesEqual (a b : bytes) : bool :=
  if negb (length a =? length b)%nat then false else forallb (λ xy, xy.1 =? xy.2) (zip a b).

Section offline.
Context {P : Primitives} {MP : MobilePackages}.

(** The coin of an input, if this seed has its key. *)
Definition offline_coin (mnemonic : string) (network : NetworkConfig) (inp : OfflineSignInput) : result spend :=
  key ← deriveKey mnemonic network (oi_derivationIndex inp) "" false;
  let actualHash := hash160 (publicKey key) in
  claimedHash ← _hexToBytesLocal (oi_pubkeyHashHex inp);
  if negb (_bytesEqual actualHash claimedHash)
  then Throw (StateError ("Input at derivation index " +:+ show (oi_derivationIndex inp) +:+ " doesn't belong to this seed. Wrong device, wrong seed, or this request wasn't built for this wallet -- refusing to sign it.")) else
  txid ← _hexToBytesReversedLocal (oi_txidHex inp);
  mret {| u_txid := txid; u_vout := oi_vout inp; u_value := oi_valueSatoshis inp; u_pubkeyHash := actualHash;
          u_privateKey := Some (privateKey key); u_publicKey := Some (publicKey key); u_sequence := None |}.

Definition signOfflineTransaction (request : OfflineSignRequest) (mnemonic : string) (network : NetworkConfig) : result bytes :=
  if bool_decide (oq_inputs request = []) then Throw (ArgumentError "This request has no inputs to sign.") else
  utxos ← mapR (offline_coin mnemonic network) (oq_inputs request);
  outputs ← mapR (λ o, script ← _hexToBytesLocal (oo_scriptPubKeyHex o);
                       mret {| valueSatoshis := oo_valueSatoshis o; scriptPubKey := script |}) (oq_outputs request);
  buildAndSignTransaction utxos outputs None None (oq_locktime request).

Definition signOfflineSignRequest (st : wallet) (request : OfflineSignRequest) : result bytes :=
  match w_mnemonic st with
  | None => Throw (StateError "No wallet loaded")
  | Some m => signOfflineTransaction request m (net st)
  end.

(** The sign screen: the pasted text, and the hexadecimal text shown. *)
Definition _sign (st : wallet) (text : string) : result string :=
  json ← parse (js_trim text) ≫= dart_map_of;
  request ← request_fromJson json;
  rawTx ← signOfflineSignRequest st request;
  mret (_bytesToHexLocal rawTx).

(** ** Building a request *)

Record offline_form := {
  of_xpub : string; of_count : string; of_changeIndex : string; of_to : string; of_amount : string }.

Definition candidate_of (i : Z) (pubkeyHash : bytes) (u : json) : result OfflineSignInput :=
  m ← dart_map_of u;
  txid ← dart_string_of (obj_get "txid" m);
  vout ← dart_int_of (obj_get "vout" m);
  value ← int_parse10 (dart_text (obj_get "value" m));
  mret {| oi_txidHex := txid; oi_vout := vout; oi_valueSatoshis := value; oi_derivationIndex := i;
          oi_pubkeyHashHex := _bytesToHexLocal pubkeyHash |}.

Definition candidates_at (xpub : string) (acc : list OfflineSignInput) (i : nat) : task (list OfflineSignInput) :=
  n ← gets net; address ← lift (deriveXpubAddress xpub n (Z.of_nat i));
  n ← gets net; d ← lift (decodeAddress address n);
  resp ← await (g_utxos address);
  new ← lift (dart_list_opt (obj_get "utxos" resp) ≫= mapR (candidate_of (Z.of_nat i) (d_hash d)));
  mret (acc ++ new).

(** What the form holds: the xpub, the number of addresses, the index of the
    change, the destination and the amount. *)
Definition read_form (f : offline_form) : result (string * nat * nat * string * Z) :=
  let xpubStr := js_trim (of_xpub f) in
  let count := default 0 (int_tryParse10 (js_trim (of_count f))) in
  let changeIndex := default (-1) (int_tryParse10 (js_trim (of_changeIndex f))) in
  let toAddress := js_trim (of_to f) in
  if String.eqb xpubStr "" || (count <? 1) || (50 <? count) || (changeIndex <? 0) || (count <=? changeIndex)
  then Throw (ArgumentError "Enter an xpub, a valid address count, and a change index within that range.") else
  match double_tryParse (js_trim (of_amount f)) with
  | None => Throw (ArgumentError "Enter a destination address and amount.")
  | Some amountCac =>
      if String.eqb toAddress "" || num_le0 amountCac then Throw (ArgumentError "Enter a destination address and amount.") else
      amount ← cac_satoshis amountCac;
      mret (xpubStr, Z.to_nat count, Z.to_nat changeIndex, toAddress, amount)
  end.

Definition build_request (f : offline_form) : task OfflineSignRequest :=
  '(xpubStr, count, changeIndex, toAddress, amountSatoshis) ← lift (read_form f);
  n ← gets net; decoded ← lift (decodeAddress toAddress n);
  let outScript := script_for decoded in
  candidates ← fold_task (candidates_at xpubStr) [] (seq 0 count);
  if bool_decide (candidates = [])
  then throw (StateError ("No spendable funds found across the first " +:+ show (Z.of_nat count) +:+ " derived addresses.")) else
  feeResp ← await g_feeEstimate;
  '(chosen, totalIn, feeSatoshis) ← lift (choose_coins oi_valueSatoshis (fee_rate feeResp) 2 amountSatoshis candidates);
  let change := dart_int (dart_int (totalIn - amountSatoshis) - feeSatoshis) in
  n ← gets net; changeAddress ← lift (deriveXpubAddress xpubStr n (Z.of_nat changeIndex));
  n ← gets net; changeDecoded ← lift (decodeAddress changeAddress n);
  let changeScript := p2pkhScriptPubKey (d_hash changeDecoded) in
  mret {| oq_locktime := 0; oq_inputs := chosen;
          oq_outputs := {| oo_scriptPubKeyHex := _bytesToHexLocal outScript; oo_valueSatoshis := amountSatoshis |} ::
            (if 0 <? change then [{| oo_scriptPubKeyHex := _bytesToHexLocal changeScript; oo_valueSatoshis := change |}] else []) |}.

(** The text the online side shows, as a QR code or to copy. *)
Definition _buildRequest (f : offline_form) : task string :=
  request ← build_request f; mret (stringify2 (request_toJson request)).
End offline.

(** ** The text of a request *)

Lemma trim_ends c l d : is_space c = false → is_space d = false → js_trim (of_chars (c :: l ++ [d])) = of_chars (c :: l ++ [d]).
Proof.
  intros Hc Hd. unfold js_trim. rewrite chars_of_chars. cbn [drop_spaces]. rewrite Hc.
  rewrite app_comm_cons, reverse_snoc. cbn [drop_spaces]. rewrite Hd. by rewrite reverse_cons, reverse_involutive.
Qed.

Lemma trim_object kv l : js_trim (stringify2 (JObj (kv :: l))) = stringify2 (JObj (kv :: l)).
Proof.
  unfold stringify2. cbn [write_json]. unfold enclose. rewrite fmap_cons. generalize (sepby (","%char :: newline 2 (0 + 2))
    ((str_json kv.1 ++ colon 2 ++ write_json 2 (0 + 2) kv.2) ::
     ((λ kv, str_json kv.1 ++ colon 2 ++ write_json 2 (0 + 2) kv.2) <$> l))).
  intros body. rewrite !app_assoc. by apply trim_ends.
Qed.

Lemma bytesEqual_spec a b : _bytesEqual a b = bool_decide (a = b).
Proof.
  unfold _bytesEqual. revert b. induction a as [|x a IH]; intros [|y b]; try done. cbn [length Nat.eqb zip zip_with forallb].
  specialize (IH b). destruct (Nat.eqb_spec (length a) (length b)) as [E|E]; cbn [negb] in *.
  - cbn [fst snd]. rewrite IH. apply eq_true_iff_eq. rewrite andb_true_iff, Z.eqb_eq, !bool_decide_eq_true. naive_solver.
  - symmetry. apply bool_decide_eq_false. intros [= _ ->]. done.
Qed.

Definition request_small (r : OfflineSignRequest) : Prop :=
  small (oq_locktime r) ∧
  Forall (λ i, small (oi_vout i) ∧ small (oi_valueSatoshis i) ∧ small (oi_derivationIndex i)) (oq_inputs r) ∧
  Forall (λ o, small (oo_valueSatoshis o)) (oq_outputs r).

Lemma request_json_ok r : request_small r → json_ok (request_toJson r).
Proof.
  intros (Hl & Hi & Ho). apply json_ok_obj. split; [by apply (bool_decide_unpack _)|].
  repeat (apply Forall_cons_iff; split); try apply Forall_nil; cbn [snd]; try (by apply jint_ok).
  all: try done.
  - apply json_ok_arr, Forall_fmap. eapply Forall_impl; [|exact Hi]. intros i (H1 & H2 & H3).
    apply json_ok_obj. split; [by apply (bool_decide_unpack _)|].
    repeat (apply Forall_cons_iff; split); try done; by apply jint_ok.
  - apply json_ok_arr, Forall_fmap. eapply Forall_impl; [|exact Ho]. intros o H1.
    apply json_ok_obj. split; [by apply (bool_decide_unpack _)|].
    repeat (apply Forall_cons_iff; split); try done; by apply jint_ok.
Qed.

(** What one device writes the other reads. *)
Lemma request_back r :
  request_small r →
  ((parse (js_trim (stringify2 (request_toJson r))) ≫= dart_map_of) ≫= request_fromJson) = Ok r.
Proof.
  intros Hr. unfold request_toJson at 1. rewrite trim_object. fold (request_toJson r). unfold stringify2.
  rewrite parse_write by (by apply request_json_ok). destruct Hr as (Hl & Hi & Ho). cbn [mbind result_bind].
  destruct r as [lt ins outs]. cbn [oq_locktime oq_inputs oq_outputs] in *. unfold request_toJson, dart_map_of.
  cbn [mbind result_bind oq_locktime oq_inputs oq_outputs]. unfold request_fromJson. cbn -[jint dart_int_of mapR].
  rewrite dart_int_jint by done. cbn [mbind result_bind].
  rewrite (mapR_back offline_input_fromJson), (mapR_back offline_output_fromJson); [done| |].
  - eapply Forall_impl; [|exact Ho]. intros [sc v] H. unfold offline_output_fromJson. cbn -[jint dart_int_of]. by rewrite dart_int_jint.
  - eapply Forall_impl; [|exact Hi]. intros [t o v x h] (H1 & H2 & H3). unfold offline_input_fromJson.
    cbn -[jint dart_int_of]. by repeat (rewrite dart_int_jint by done; cbn [mbind result_bind]).
Qed.

(** ** The watched addresses *)

Section watched.
Context {P : Primitives} {PL : PrimitiveLaws} {MP : MobilePackages} {ML : MobilePackageLaws}.
Context (n : CacNetwork) (m xpub : string).

(** An index of the account with a key, whose address does not look like a segwit
    address of the network (the decoder would take it for one). *)
Definition watched (i : nat) : Prop :=
  keyed m n (Z.of_nat i) ∧
  ∀ kp a, Keys.deriveKey m (web_network n) (Z.of_nat i) "" false = Ok kp →
    Address.p2pkhAddress (hash160 (publicKey kp)) (web_network n) = Ok a → looks_bech32 a (web_network n) = false.

Hypothesis Hvalid : bip39_valid m = true.
Hypothesis Hxpub : Keys.deriveAccountXpub m (web_network n) "" = Ok xpub.

(** The online device, with the account key alone, finds the hash of the key that
    the seed has at the index. *)
Lemma watched_key i :
  watched i → ∃ kp a, deriveKey m (forNetwork n) (Z.of_nat i) "" false = Ok kp ∧ owner kp ∧
    deriveXpubAddress xpub (forNetwork n) (Z.of_nat i) = Ok a ∧
    decodeAddress a (forNetwork n) = Ok {| d_type := P2pkh; d_hash := hash160 (publicKey kp) |}.
Proof.
  intros [Hk Hplain]. destruct (keyed_derives m n _ Hvalid Hk) as (kp & a & Hd & Ho & Ha).
  destruct Hk as (Hi & kp' & Hk & _). destruct (wallet_same n m _ false kp' Hvalid Hi Hk) as (Hd' & E & _ & Hx).
  rewrite Hd in Hd'. apply Toy.Ok_inj in Hd' as <-. destruct (Hx xpub Hxpub) as [_ Hx']. specialize (Hx' eq_refl).
  rewrite Ha in E. symmetry in E. exists kp, a. rewrite Hx', E. split; [done|]. split; [done|]. split; [done|].
  pose proof (Hplain kp a Hk E) as Hb. apply decode_base58; [done|]. destruct (pubkey_hash kp) as [Hhb Hhl].
  apply decode_p2pkh; try done. apply web_network_ok.
Qed.

(** A coin found for an index of the account, under the hash of its key. *)
Definition candidate (inp : OfflineSignInput) : Prop :=
  ∃ i kp, oi_derivationIndex inp = Z.of_nat i ∧ (i < 50)%nat ∧ deriveKey m (forNetwork n) (Z.of_nat i) "" false = Ok kp ∧
    owner kp ∧ oi_pubkeyHashHex inp = _bytesToHexLocal (hash160 (publicKey kp)).

Lemma candidates_run env st idxs :
  w_network st = n → Forall (λ i, watched i ∧ (i < 50)%nat) idxs → ∀ acc s all,
  run env (fold_task (candidates_at xpub) acc idxs) st = (s, Ok all) → s = st ∧ ∃ new, all = acc ++ new ∧ Forall candidate new.
Proof.
  intros Hn Hw. induction Hw as [|i idxs [Hi Hlt] _ IH]; intros acc s all H; cbn [fold_task] in H.
  { injection H as <- <-. split; [done|]. exists []. by rewrite app_nil_r. }
  apply run_ok_bind in H as (s1 & acc1 & H & Hrest). destruct (watched_key i Hi) as (kp & a & Hk & Ho & Ha & Hd).
  unfold candidates_at in H. rewrite task_run_bind, run_gets in H. unfold net in H. rewrite Hn, Ha, task_run_bind, run_lift in H.
  rewrite task_run_bind, run_gets in H. rewrite Hn, Hd, task_run_bind, run_lift in H. rewrite task_run_bind, run_await in H.
  assert (Er : ∃ r, run env (g_utxos a) st = (st, r)) by (eexists; apply run_request).
  destruct Er as [[resp|] Er]; rewrite Er in H; [|done]. rewrite task_run_bind, run_lift in H.
  destruct (dart_list_opt (obj_get "utxos" resp) ≫= _) as [new|] eqn:Enew; [|done]. injection H as <- <-.
  destruct (IH _ _ _ Hrest) as (-> & more & -> & Hmore). split; [done|]. exists (new ++ more). rewrite app_assoc. split; [done|].
  apply Forall_app. split; [|done]. apply bind_ok in Enew as (l & _ & Enew). apply mapR_ok in Enew. clear -Enew Hk Ho Hlt.
  induction Enew as [|j u l us Hu _ IH]; constructor; [|done]. unfold candidate_of in Hu. apply bind_ok in Hu as (mp & _ & Hu).
  apply bind_ok in Hu as (t & _ & Hu). apply bind_ok in Hu as (v & _ & Hu). apply bind_ok in Hu as (x & _ & [= <-]).
  by exists i, kp.
Qed.

(** A well-formed entry of the gateway's list. *)
Definition well_formed (inp : OfflineSignInput) : Prop :=
  hex_text (oi_txidHex inp) = true ∧ length (hexToBytes (oi_txidHex inp)) = 32%nat ∧ 0 <= oi_vout inp < 2 ^ 32 ∧ 0 <= oi_valueSatoshis inp.

(** The device with the seed takes the coin for its own. *)
Definition taken (inp : OfflineSignInput) (u : spend) : Prop :=
  offline_coin m (forNetwork n) inp = Ok u ∧ spend_ok None None u ∧ typed_spend None None u ∧
  u_txid u = rev (hexToBytes (oi_txidHex inp)) ∧ u_vout u = oi_vout inp ∧ u_value u = oi_valueSatoshis inp ∧
  u_pubkeyHash u = hexToBytes (oi_pubkeyHashHex inp).

Lemma offline_coin_ok inp : candidate inp → well_formed inp → ∃ u, taken inp u.
Proof.
  intros (i & kp & Ei & _ & Hk & ((Hs1 & Hs2) & Hty & Hp) & Eh) (Ht & Hl & Hv & _). destruct (pubkey_hash kp) as [Hb _].
  unfold taken, offline_coin. rewrite Ei, Hk. cbn [mbind result_bind]. rewrite Eh, hexToBytesLocal_hex by done. cbn [mbind result_bind].
  rewrite bytesEqual_spec, bool_decide_eq_true_2 by done. cbn [negb]. rewrite reverse_hex by done. cbn [mbind result_bind].
  eexists. split; [done|]. unfold spend_ok, typed_spend. cbn [u_txid u_vout u_value u_pubkeyHash u_privateKey u_publicKey u_sequence or_else].
  split; [|split; [|split; [done|split; [done|split; [done|]]]]].
  - exists (privateKey kp). rewrite Hp in *. rewrite length_rev. split_and!; try done; cbn; lia.
  - split; [apply Forall_rev, hexToBytes_bytes|]. split; [done|]. split; [by intros k [= <-]|]. intros pub [= <-]. rewrite Hp. apply secp_public_bytes.
  - by rewrite bytesToHexLocal_eq, hexToBytes_bytesToHex_aux.
Qed.

Lemma offline_coins_ok inps : Forall (λ inp, candidate inp ∧ well_formed inp) inps → ∃ us, Forall2 taken inps us.
Proof.
  induction 1 as [|inp l [H1 H2] _ [us IH]]; [by exists []|]. destruct (offline_coin_ok inp H1 H2) as (u & Hu).
  exists (u :: us). by constructor.
Qed.

Lemma candidates_small inps :
  Forall (λ inp, candidate inp ∧ well_formed inp) inps → sum_of oi_valueSatoshis inps <= 2 ^ 53 →
  Forall (λ i, small (oi_vout i) ∧ small (oi_valueSatoshis i) ∧ small (oi_derivationIndex i)) inps.
Proof.
  induction 1 as [|inp l [(i & _ & Ei & Hi & _) (_ & _ & Hv & H0)] Hl IH]; intros Hsum; [done|]. rewrite sum_of_cons in Hsum.
  assert (0 <= sum_of oi_valueSatoshis l) by (apply sum_of_nonneg; eapply Forall_impl; [|exact Hl]; intros x [_ Hx]; apply Hx).
  constructor; [unfold small; rewrite Ei; lia|]. apply IH. lia.
Qed.
End watched.

(** The scripts of a request come back. *)
Lemma outputs_back outs :
  Forall typed_out outs →
  mapR (λ o, script ← _hexToBytesLocal (oo_scriptPubKeyHex o);
      mret {| valueSatoshis := oo_valueSatoshis o; scriptPubKey := script |})
    ((λ o, {| oo_scriptPubKeyHex := _bytesToHexLocal (scriptPubKey o); oo_valueSatoshis := valueSatoshis o |}) <$> outs) = Ok outs.
Proof.
  intros Ho. apply mapR_ok, Forall2_fmap_l. induction Ho as [|[v sc] l Hty _ IH]; constructor; [|done].
  cbn -[_hexToBytesLocal _bytesToHexLocal]. by rewrite hexToBytesLocal_hex.
Qed.

(** ** Both devices together *)

Section airgap.
Context {P : Primitives} {PL : PrimitiveLaws} {MP : MobilePackages} {ML : MobilePackageLaws}.

(** The two devices and the gateway: the online wallet [st], whose form holds the
    account key of the phrase on the offline wallet [so], a destination that
    decodes, and coins that cover the amount and the fee of spending them all. *)
Record airgap (env : ∀ r, response r) (st so : wallet) (f : offline_form) (m xpub : string) (count changeIndex : nat)
    (to : string) (amount : Z) (d : decoded) (cands : list OfflineSignInput) (rate : Z) : Prop := {
  ag_seed : w_mnemonic so = Some m;
  ag_network : w_network so = w_network st;
  ag_valid : bip39_valid m = true;
  ag_xpub : Keys.deriveAccountXpub m (web_network (w_network st)) "" = Ok xpub;
  ag_form : read_form f = Ok (xpub, count, changeIndex, to, amount);
  ag_watched : ∀ i, (i < count)%nat → watched (w_network st) m i;
  ag_dest : decodeAddress to (net st) = Ok d;
  ag_cands : run env (fold_task (candidates_at xpub) [] (seq 0 count)) st = (st, Ok cands);
  ag_coins : Forall well_formed cands;
  ag_rate : ∃ feeResp, run env g_feeEstimate st = (st, Ok feeResp) ∧ fee_rate feeResp = rate;
  ag_bounds : 0 <= rate <= 2 ^ 31 ∧ sum_of oi_valueSatoshis cands <= 2 ^ 53 ∧ Z.of_nat (length cands) <= 100000;
  ag_funds : 0 < amount ∧ amount + fee_for rate (vsize_for (length cands) 2) <= sum_of oi_valueSatoshis cands
}.

#[global] Arguments ag_seed {_ _ _ _ _ _ _ _ _ _ _ _ _} _.
#[global] Arguments ag_network {_ _ _ _ _ _ _ _ _ _ _ _ _} _.
#[global] Arguments ag_valid {_ _ _ _ _ _ _ _ _ _ _ _ _} _.
#[global] Arguments ag_xpub {_ _ _ _ _ _ _ _ _ _ _ _ _} _.
#[global] Arguments ag_form {_ _ _ _ _ _ _ _ _ _ _ _ _} _.
#[global] Arguments ag_watched {_ _ _ _ _ _ _ _ _ _ _ _ _} _.
#[global] Arguments ag_dest {_ _ _ _ _ _ _ _ _ _ _ _ _} _.
#[global] Arguments ag_cands {_ _ _ _ _ _ _ _ _ _ _ _ _} _.
#[global] Arguments ag_coins {_ _ _ _ _ _ _ _ _ _ _ _ _} _.
#[global] Arguments ag_rate {_ _ _ _ _ _ _ _ _ _ _ _ _} _.
#[global] Arguments ag_bounds {_ _ _ _ _ _ _ _ _ _ _ _ _} _.
#[global] Arguments ag_funds {_ _ _ _ _ _ _ _ _ _ _ _ _} _.

Context (env : ∀ r, response r) (st so : wallet) (f : offline_form) (m xpub : string) (count changeIndex : nat)
  (to : string) (amount : Z) (d : decoded) (cands : list OfflineSignInput) (rate : Z).
Hypothesis Hag : airgap env st so f m xpub count changeIndex to amount d cands rate.

Lemma form_counts : (changeIndex < count <= 50)%nat.
Proof.
  pose proof (ag_form Hag) as H. unfold read_form in H.
  set (c := default 0 _) in H. set (i := default (-1) _) in H.
  destruct (_ || _) eqn:E in H; [done|]. rewrite !orb_false_iff, !Z.ltb_ge, Z.leb_gt in E.
  destruct (double_tryParse _) as [x|]; [|done]. destruct (_ || _) in H; [done|]. apply bind_ok in H as (z & _ & [= <- <- <- <- <-]). lia.
Qed.

Lemma cands_ok : Forall (λ inp, candidate (w_network st) m inp ∧ well_formed inp) cands.
Proof.
  pose proof form_counts. destruct (candidates_run (w_network st) m xpub (ag_valid Hag)
    (ag_xpub Hag) env st (seq 0 count) eq_refl) with (2 := ag_cands Hag)
    as (_ & new & E & Hc).
  - apply list.Forall_forall. intros i Hi%elem_of_seq. split; [apply (ag_watched Hag)|]; lia.
  - cbn [Datatypes.app] in E. subst new. apply list.Forall_and. split; [done|]. apply Hag.
Qed.

Lemma request_chooses :
  ∃ chosen tail, let fee := fee_for rate (vsize_for (length chosen) 2) in
    choose_coins oi_valueSatoshis rate 2 amount cands = Ok (chosen, sum_of oi_valueSatoshis chosen, fee) ∧
    cands = chosen ++ tail ∧ chosen ≠ [] ∧ 0 <= fee ∧ amount + fee <= sum_of oi_valueSatoshis chosen <= 2 ^ 53.
Proof.
  destruct (ag_bounds Hag) as (Hrate & H53 & Hcount).
  destruct (ag_funds Hag) as [Hpos Hfunds].
  assert (Hv : Forall (λ u, 0 <= oi_valueSatoshis u) cands)
    by (eapply Forall_impl; [|exact (ag_coins Hag)]; intros u Hu; apply Hu).
  apply (choose_enough oi_valueSatoshis rate 2 amount cands); try done; lia.
Qed.

(** The outputs both devices mean: the payment, and the change to the key at its index. *)
Definition airgap_outs (kp : keypair) (chosen : list OfflineSignInput) : list txout :=
  {| valueSatoshis := amount; scriptPubKey := script_for d |} ::
  change_to (hash160 (publicKey kp))
    (sum_of oi_valueSatoshis chosen - amount - fee_for rate (vsize_for (length chosen) 2)).

Definition request_of (kp : keypair) (chosen : list OfflineSignInput) : OfflineSignRequest :=
  {| oq_locktime := 0; oq_inputs := chosen;
     oq_outputs := (λ o, {| oo_scriptPubKeyHex := _bytesToHexLocal (scriptPubKey o); oo_valueSatoshis := valueSatoshis o |}) <$>
       airgap_outs kp chosen |}.

Lemma request_built :
  ∃ chosen tail kp, cands = chosen ++ tail ∧ chosen ≠ [] ∧
    let fee := fee_for rate (vsize_for (length chosen) 2) in
    0 <= fee ∧ amount + fee <= sum_of oi_valueSatoshis chosen <= 2 ^ 53 ∧
    deriveKey m (net st) (Z.of_nat changeIndex) "" false = Ok kp ∧
    run env (_buildRequest f) st = (st, Ok (stringify2 (request_toJson (request_of kp chosen)))).
Proof.
  destruct request_chooses as (chosen & tail & Ec & Ecands & Hne & Hf & Hs). pose proof form_counts as Hcount.
  destruct (watched_key (w_network st) m xpub (ag_valid Hag) (ag_xpub Hag)
    changeIndex) as (kp & a & Hk & _ & Ha & Hd); [apply (ag_watched Hag); lia|].
  exists chosen, tail, kp. split; [done|]. split; [done|]. cbv zeta. do 3 (split; [done|]).
  destruct (ag_rate Hag) as (feeResp & Efee & Erate). destruct (ag_funds Hag) as [Hpos _].
  unfold _buildRequest. rewrite task_run_bind. unfold build_request.
  rewrite task_run_bind, run_lift, (ag_form Hag), task_run_bind, run_gets.
  rewrite task_run_bind, run_lift, (ag_dest Hag).
  rewrite task_run_bind, (ag_cands Hag), bool_decide_eq_false_2 by (rewrite Ecands; by destruct chosen).
  rewrite task_run_bind, run_await, Efee, task_run_bind, run_lift, Erate, Ec, task_run_bind, run_gets, task_run_bind, run_lift.
  unfold net. rewrite Ha, task_run_bind, run_gets, task_run_bind, run_lift. unfold net. rewrite Hd. cbn [d_hash].
  unfold request_of, airgap_outs, change_to. rewrite (dart_int_small (sum_of _ _ - amount)) by lia. rewrite dart_int_small by lia.
  by destruct (0 <? _).
Qed.

Lemma airgap_outs_ok kp chosen :
  let fee := fee_for rate (vsize_for (length chosen) 2) in
  0 <= fee → amount + fee <= sum_of oi_valueSatoshis chosen <= 2 ^ 53 →
  Forall (λ o, txout_ok o ∧ typed_out o ∧ small (valueSatoshis o)) (airgap_outs kp chosen) ∧
  output_sum (airgap_outs kp chosen) + fee = sum_of oi_valueSatoshis chosen ∧ (length (airgap_outs kp chosen) <= 2)%nat.
Proof.
  intros fee Hf Hs. unfold airgap_outs. fold fee. destruct (ag_funds Hag) as [Hpos _].
  set (c := sum_of oi_valueSatoshis chosen - amount - fee).
  assert (Hd : txout_ok {| valueSatoshis := amount; scriptPubKey := script_for d |} ∧
    typed_out {| valueSatoshis := amount; scriptPubKey := script_for d |}).
  { pose proof (mobile_decoded_length _ _ _ (ag_dest Hag)) as Hl.
    unfold txout_ok, typed_out, MAX_SIZE, len, script_for. cbn [valueSatoshis scriptPubKey].
    destruct (d_type d); (split; [|apply fromList_all_bytes]);
      unfold p2pkhScriptPubKey, p2shScriptPubKey, p2wpkhScriptPubKey, fromList; rewrite length_fmap, !length_app, Hl; cbn; lia. }
  destruct Hd as [Hd1 Hd2]. unfold small. unfold change_to. destruct (Z.ltb_spec 0 c).
  - split; [|split; [unfold output_sum; cbn; unfold c; lia|cbn; lia]].
    apply Forall_cons_iff. split; [split_and!; try done; cbn; unfold c in *; lia|]. apply Forall_singleton.
    unfold txout_ok, typed_out, MAX_SIZE, len, p2pkhScriptPubKey. cbn [valueSatoshis scriptPubKey]. unfold fromList at 1.
    rewrite length_fmap, !length_app, (proj2 (pubkey_hash kp)). split; [cbn; unfold c in *; lia|]. split; [apply fromList_all_bytes|unfold c in *; lia].
  - split; [|split; [unfold output_sum; cbn; unfold c in *; lia|cbn; lia]]. apply Forall_singleton. split_and!; try done; cbn; unfold c in *; lia.
Qed.

(** The seed's device reads the text and signs the coins and outputs it names. *)
Lemma request_signed kp chosen tail :
  let fee := fee_for rate (vsize_for (length chosen) 2) in
  cands = chosen ++ tail → chosen ≠ [] → 0 <= fee → amount + fee <= sum_of oi_valueSatoshis chosen <= 2 ^ 53 →
  ∃ us, Forall2 (taken (w_network st) m) chosen us ∧
    _sign so (stringify2 (request_toJson (request_of kp chosen))) =
      (raw ← buildAndSignTransaction us (airgap_outs kp chosen) None None 0; mret (_bytesToHexLocal raw)).
Proof.
  intros fee Ecands Hne Hf Hs. destruct (airgap_outs_ok kp chosen Hf Hs) as (Ho & _). pose proof cands_ok as Hc.
  rewrite Ecands in Hc. apply Forall_app in Hc as [Hc _]. rewrite !list.Forall_and in Ho. destruct Ho as (_ & Hty & Hso).
  destruct (offline_coins_ok _ _ _ Hc) as [us Hus]. exists us. split; [done|]. unfold _sign.
  assert (Hsmall : request_small (request_of kp chosen)).
  { split; [unfold small; cbn; lia|]. split; [eapply candidates_small; [exact Hc|apply Hs]|]. by apply Forall_fmap. }
  pose proof (request_back _ Hsmall) as Hback. destruct (parse _ ≫= dart_map_of) as [j|]; [|done]. cbn [mbind result_bind] in *.
  rewrite Hback. cbn [mbind result_bind]. unfold signOfflineSignRequest. rewrite (ag_seed Hag).
  unfold signOfflineTransaction, request_of. cbn [oq_inputs oq_outputs oq_locktime]. rewrite bool_decide_eq_false_2 by done.
  assert (E1 : mapR (offline_coin m (net so)) chosen = Ok us).
  { unfold net. rewrite (ag_network Hag). apply mapR_ok. eapply Forall2_impl; [|exact Hus].
    intros inp u Hu. apply Hu. }
  rewrite E1. cbn [mbind result_bind]. by rewrite outputs_back.
Qed.
End airgap.

(** C4. A payment between an online phone without the seed and an offline one with it is
    right.  From the account key alone the online side builds a request for coins
    that cover the amount and the fee; the text reaches the offline side, which
    finds every coin to be its own and signs; the node reads what comes back, with
    the payment and the change as outputs and the fee as the difference, and accepts
    the script of every input.  The own addresses in play do not look like segwit
    addresses ([watched]), for which the decoder would take them. *)
Theorem airgap_accepted {P : Primitives} {PL : PrimitiveLaws} {MP : MobilePackages} {ML : MobilePackageLaws}
    (env : ∀ r, response r) (st so : wallet) (f : offline_form) (m xpub : string) (count changeIndex : nat)
    (to : string) (amount : Z) (d : decoded) (cands : list OfflineSignInput) (rate : Z)
    (Hag : airgap env st so f m xpub count changeIndex to amount d cands rate) :
  ∃ chosen tail kp text raw tx,
    cands = chosen ++ tail ∧ deriveKey m (net so) (Z.of_nat changeIndex) "" false = Ok kp ∧
    run env (_buildRequest f) st = (st, Ok text) ∧ _sign so text = Ok (_bytesToHexLocal raw) ∧
    UnserializeTransaction true raw = Ok (tx, []) ∧
    vout tx = node_out <$> airgap_outs amount d rate kp chosen ∧
    output_sum (airgap_outs amount d rate kp chosen) + fee_for rate (vsize_for (length chosen) 2) =
      sum_of oi_valueSatoshis chosen ∧
    length (vin tx) = length chosen ∧
    ∀ i inp, chosen !! i = Some inp → ∃ t, vin tx !! i = Some t ∧
      prevout t = {| op_hash := rev (hexToBytes (oi_txidHex inp)); op_n := oi_vout inp |} ∧
      VerifyScript tx i (txin_scriptSig t) (p2pkhScriptPubKey (hexToBytes (oi_pubkeyHashHex inp))) (scriptWitness t) = Ok tt.
Proof.
  destruct (request_built _ _ _ _ _ _ _ _ _ _ _ _ _ Hag) as (chosen & tail & kp & Ec & Hne & Hf & Hs & Hk & Hrun).
  destruct (request_signed _ _ _ _ _ _ _ _ _ _ _ _ _ Hag kp chosen tail Ec Hne Hf Hs) as (us & Hus & Hsign).
  destruct (airgap_outs_ok _ _ _ _ _ _ _ _ _ _ _ _ _ Hag kp chosen Hf Hs) as (Ho & Hsum & Hl).
  rewrite !list.Forall_and in Ho. destruct Ho as (Ho1 & Ho2 & _). destruct (ag_bounds Hag) as (_ & _ & Hcount).
  rewrite Ec, length_app in Hcount. pose proof (list.Forall2_length _ _ _ Hus) as Hlen.
  assert (Hgood : Forall (λ u, spend_ok None None u ∧ typed_spend None None u) us)
    by (clear -Hus; induction Hus as [|? ? ? ? H _ IH]; constructor; [split; apply H|done]).
  rewrite list.Forall_and in Hgood. destruct Hgood as [Hg1 Hg2].
  destruct (buildAndSign_accepted_aux us (airgap_outs amount d rate kp chosen) None None 0) as
    (raw & tx & Hraw & Hu & _ & _ & Hvo & Hvi & Hin); try done; try (unfold MAX_SIZE; lia).
  { intros ->. by destruct chosen. }
  apply mobile_signs_same_aux in Hraw; [|done|done]. rewrite Hraw in Hsign. cbn [mbind result_bind] in Hsign.
  eexists chosen, tail, kp, _, raw, tx. unfold net in *. rewrite (ag_network Hag).
  split_and!; try done; [by rewrite Hvi|]. intros i inp Hi. destruct (Forall2_lookup_l _ _ _ _ _ Hus Hi) as (u & Hui & (_ & _ & _ & E1 & E2 & _ & E4)).
  destruct (Hin i u Hui) as (t & H1 & H2 & _ & H3). exists t. rewrite <- E1, <- E2, <- E4. done.
Qed.

(** C24. The offline side signs for nobody else: when it returns a transaction, the seed
    has, at the index every input names, the key whose hash the request claims;
    one input that is not the wallet's stops the whole request. *)
Theorem offline_fails_closed {P : Primitives} {MP : MobilePackages}
    (request : OfflineSignRequest) (mnemonic : string) (network : NetworkConfig) (raw : bytes)
    (Hsigned : signOfflineTransaction request mnemonic network = Ok raw) :
  oq_inputs request ≠ [] ∧
  Forall (λ inp, ∃ key, deriveKey mnemonic network (oi_derivationIndex inp) "" false = Ok key ∧
    _hexToBytesLocal (oi_pubkeyHashHex inp) = Ok (hash160 (publicKey key))) (oq_inputs request).
Proof.
  unfold signOfflineTransaction in Hsigned. case_bool_decide as Hne; [done|]. split; [done|].
  apply bind_ok in Hsigned as (us & Hus & _). apply mapR_ok in Hus. clear Hne.
  induction Hus as [|inp u inps us Hu _ IH]; constructor; [|done]. unfold offline_coin in Hu.
  apply bind_ok in Hu as (key & Hk & Hu). apply bind_ok in Hu as (h & Hh & Hu). exists key. split; [done|].
  rewrite bytesEqual_spec in Hu. case_bool_decide as E; [by rewrite E|done].
Qed.

(** ** A payment between two devices *)

Module AirgapExample.
#[local] Existing Instances Toy.prims Toy.laws ToyPackages.packages ToyPackages.package_laws.

(** A phone without a wallet, and the one with the phrase. *)
Definition online : wallet := set_loaded (booted ∅).
Definition xpub : string := SendExample.get_ok "" (deriveAccountXpub "abandon ability" mainnetConfig "").
Definition form : offline_form :=
  {| of_xpub := xpub; of_count := "1"; of_changeIndex := " 0 "; of_to := PayExample.payee; of_amount := "0.005" |}.
Definition cands : list OfflineSignInput :=
  SendExample.get_ok [] (run PayExample.answers (fold_task (candidates_at xpub) [] (seq 0 1)) online).2.

Lemma devices_ready : airgap PayExample.answers online SessionExample.started form "abandon ability" xpub 1 0 PayExample.payee 500000
  {| d_type := P2pkh; d_hash := replicate 20 7 |} cands 100.
Proof.
  split.
  - by vm_compute.
  - by vm_compute.
  - by vm_compute.
  - by vm_compute.
  - by vm_compute.
  - intros i Hi. assert (i = 0%nat) as -> by lia. split; [exact (wr_active _ _ PayExample.started_ready)|].
    intros kp a Hk Ha. vm_compute in Hk. injection Hk as <-. vm_compute in Ha. injection Ha as <-. by vm_compute.
  - by vm_compute.
  - vm_compute. reflexivity.
  - assert (H : Forall (λ u, hex_text (oi_txidHex u) && (length (hexToBytes (oi_txidHex u)) =? 32)%nat &&
        (oi_vout u =? 1) && (0 <=? oi_valueSatoshis u) = true) cands)
      by (apply Forall_forall, forallb_forall; vm_compute; reflexivity).
    eapply Forall_impl; [|exact H]. intros u Hu. unfold well_formed.
    apply andb_true_iff in Hu as [[[H0 H1%Nat.eqb_eq]%andb_true_iff H2%Z.eqb_eq]%andb_true_iff H3%Z.leb_le].
    split; [done|]. lia.
  - exists [("fee_rate_sat_per_vbyte", JStr "100")]. split; vm_compute; reflexivity.
  - split_and!; vm_compute; congruence.
  - split; [lia|]. vm_compute. congruence.
Qed.
End AirgapExample.

Lemma airgap_accepted_witness :
  ∃ text raw tx, run PayExample.answers (_buildRequest (P := Toy.prims) (MP := ToyPackages.packages) AirgapExample.form)
      AirgapExample.online = (AirgapExample.online, Ok text) ∧
    _sign (P := Toy.prims) (MP := ToyPackages.packages) SessionExample.started text = Ok (_bytesToHexLocal raw) ∧
    UnserializeTransaction true raw = Ok (tx, []) ∧
    nth_error (vout tx) 0 = Some {| nValue := 500000; txout_scriptPubKey := p2pkhScriptPubKey (replicate 20 7) |}.
Proof.
  destruct (airgap_accepted (P := Toy.prims) (PL := Toy.laws) (MP := ToyPackages.packages) (ML := ToyPackages.package_laws)
    _ _ _ _ _ _ _ _ _ _ _ _ _ AirgapExample.devices_ready) as (chosen & tail & kp & text & raw & tx & _ & _ & H1 & H2 & H3 & H4 & _).
  exists text, raw, tx. split; [exact H1|]. split; [exact H2|]. split; [exact H3|]. rewrite H4. reflexivity.
Defined.

Lemma offline_fails_closed_witness :
  ∃ raw, signOfflineTransaction (P := Toy.prims) (MP := ToyPackages.packages)
      {| oq_locktime := 0; oq_inputs := AirgapExample.cands; oq_outputs := [] |} "abandon ability" mainnetConfig = Ok raw ∧
    Forall (λ inp, ∃ key, deriveKey (MP := ToyPackages.packages) "abandon ability" mainnetConfig (oi_derivationIndex inp) "" false = Ok key ∧
      _hexToBytesLocal (oi_pubkeyHashHex inp) = Ok (hash160 (P := Toy.prims) (publicKey key))) AirgapExample.cands.
Proof.
  destruct (signOfflineTransaction (P := Toy.prims) (MP := ToyPackages.packages)
      {| oq_locktime := 0; oq_inputs := AirgapExample.cands; oq_outputs := [] |} "abandon ability" mainnetConfig) as [raw|] eqn:E;
    [|vm_compute in E; discriminate E].
  exists raw. split; [reflexivity|].
  exact (proj2 (offline_fails_closed (P := Toy.prims) (MP := ToyPackages.packages) _ _ _ _ E)).
Defined.
