(* ===== verification/MobileMessage.v ===== *)
(** * Signed messages on the phone

    cac_wallet/lib/crypto/message.dart.  The package pointycastle signs but does not
    recover keys, so the file recovers them itself, with the package's points: to sign
    it tries the four recovery ids until one gives back the signer's key.  The points
    are the class [CurvePackage], what SEC 1 and SEC 2 say of them and of key recovery
    is [CurveLaws].  The theorems: the hand-written recovery finds the key the
    browser's library finds, the phone writes the very signature the browser writes,
    and accepts it for the signer's address only. *)

From S2P Require Import Prelude JsString Hex JsValue Primitives Base58 Address Keys NodeTx TxCodec Message Dart MobilePackages.
From S2P Require Import MobileAddress MobileTx MobileMultisig MobileOffline.

(** ** The points of pointycastle *)

Class CurvePackage := {
  ECPoint : Type;
  (** The generator, [domain.G]. *)
  G : ECPoint;
  (** [curve.decompressPoint(yTilde, x)]: throws if there is no such point. *)
  decompressPoint : Z → Z → result ECPoint;
  isInfinity : ECPoint → bool;
  (** The operators [*] and [-], whose results may be null. *)
  ec_mul : ECPoint → Z → option ECPoint;
  ec_sub : ECPoint → ECPoint → option ECPoint;
  (** [getEncoded(true)] *)
  getEncoded : ECPoint → bytes;
  (** The x coordinate of a finite point and the parity of its y. *)
  point_x : ECPoint → Z;
  point_odd : ECPoint → Z;
}.

(** The prime of the field. *)
Definition _secp256k1P : Z := 0xfffffffffffffffffffffffffffffffffffffffffffffffffffffffefffffc2f.

(** Equality of scalars. *)
Definition cong (a b : Z) : Prop := a mod secp_order = b mod secp_order.

(** [p] is the multiple [k] of the generator. *)
Definition times {C : CurvePackage} (k : Z) (p : ECPoint) : Prop := ec_mul G (k mod secp_order) = Some p.

(** [R] is the point a signature's r and recovery id [i] name. *)
Definition names {C : CurvePackage} (r i k : Z) (R : ECPoint) : Prop :=
  ¬ cong k 0 ∧ times k R ∧ point_x R = r + i / 2 * secp_order ∧ point_odd R = i mod 2.

Class CurveLaws `{P : Primitives} `{C : CurvePackage} := {
  (** The multiples of the generator are a group of order n. *)
  G_times : times 1 G;
  mul_times a p k : times a p → 0 <= k → ∃ q, ec_mul p k = Some q ∧ times (a * k) q;
  sub_times a b p q : times a p → times b q → ∃ d, ec_sub p q = Some d ∧ times (a - b) d;
  finite_times k p : times k p → ¬ cong k 0 →
    isInfinity p = false ∧ 0 <= point_x p < _secp256k1P ∧ (point_odd p = 0 ∨ point_odd p = 1);
  (** The cofactor is 1: every point of the curve is a multiple. *)
  decompress_spec y x p : y = 0 ∨ y = 1 → 0 <= x < _secp256k1P →
    decompressPoint y x = Ok p ↔ ∃ k, ¬ cong k 0 ∧ times k p ∧ point_x p = x ∧ point_odd p = y;
  encoded_times a b p q : times a p → times b q → getEncoded p = getEncoded q → cong a b;
  (** Key recovery, SEC 1 4.1.6: r Q = s R - z G. *)
  recover_sec1 r s i h pk : 0 < r < secp_order → 0 < s < secp_order → 0 <= i <= 3 →
    Z.gcd r secp_order = 1 → all_bytes h → length h = 32%nat →
    secp_recover (be_bytes 32 r ++ be_bytes 32 s) i h = Ok pk ↔
    ∃ k R q Q, names r i k R ∧ times q Q ∧ ¬ cong q 0 ∧ cong (r * q) (s * k - of_digits 256 h) ∧ pk = getEncoded Q;
  (** The order is prime, so r and s have inverses. *)
  sign_coprime h k sig : secp_sign h k = Ok sig →
    Z.gcd (sig_r sig) secp_order = 1 ∧ Z.gcd (sig_s sig) secp_order = 1;
}.

(** ** The standard library *)

(** [BigInt.modInverse] *)
Definition modInverse (a m : Z) : result Z :=
  let '(u, _, d) := Z.extgcd a m in
  if d =? 1 then Ok (u mod m) else Throw (ExHost "Exception" "Not coprime").

(** [base64.decode]: the usual alphabet or that of URLs; padding is required, as [=] or
    [%3D], and the bits it stands for are zero. *)
Definition dart_b64_val (c : ascii) : option Z :=
  if Ascii.eqb c "-" then Some 62 else if Ascii.eqb c "_" then Some 63
  else if b64_val c <? 0 then None else Some (b64_val c).

Fixpoint read_sextets (l : list ascii) : list Z * list ascii :=
  match l with
  | [] => ([], [])
  | c :: l' =>
      match dart_b64_val c with
      | None => ([], l)
      | Some v => let '(vs, rest) := read_sextets l' in (v :: vs, rest)
      end
  end.

(** How much padding the values need; a single value left over is an error. *)
Fixpoint pads (vs : list Z) : option nat :=
  match vs with
  | [] => Some 0%nat
  | [_] => None
  | [_; b] => if Z.land b 15 =? 0 then Some 2%nat else None
  | [_; _; c] => if Z.land c 3 =? 0 then Some 1%nat else None
  | _ :: _ :: _ :: _ :: vs => pads vs
  end.

Fixpoint padded (n : nat) (rest : list ascii) : bool :=
  match n, rest with
  | O, [] => true
  | S n, "="%char :: rest => padded n rest
  | S n, "%"%char :: "3"%char :: d :: rest => (Ascii.eqb d "D" || Ascii.eqb d "d") && padded n rest
  | _, _ => false
  end.

Definition base64_decode (s : string) : result bytes :=
  let '(vs, rest) := read_sextets (chars s) in
  match pads vs with
  | Some n => if padded n rest then Ok (fromList (unsextets vs)) else Throw (FormatException "Invalid padding character")
  | None => Throw (FormatException "Invalid encoding before padding")
  end.
Definition base64_encode (b : bytes) : string := of_chars (btoa b).

(** ** message.dart *)

Definition message_varInt (n : Z) : bytes :=
  if n <? 0xfd then fromList [n] else if n <=? 0xffff then 0xfd :: le_bytes 2 n else 0xfe :: le_bytes 4 n.

Fixpoint fill_bytes (i : nat) (value : Z) (out : bytes) : bytes :=
  match i with
  | O => out
  | S i => fill_bytes i (Z.shiftr value 8) (Z.land value 0xff :: out)
  end.
Definition _bigIntTo32Bytes (v : Z) : bytes := fill_bytes 32 v [].

Definition _mod (a n : Z) : Z := (a mod n + n) mod n.

Section message.
Context {P : Primitives} {MP : MobilePackages} {C : CurvePackage}.

Definition messageHash (message : string) : bytes :=
  let magicBytes := encode_utf8 MESSAGE_MAGIC in
  let msgBytes := encode_utf8 message in
  _doubleSha256 (fromList (message_varInt (len magicBytes) ++ magicBytes ++ message_varInt (len msgBytes) ++ msgBytes)).

Definition _recoverPublicKey (r s z recid : Z) : result (option ECPoint) :=
  let n := secp_order in
  let xOverflow := Z.shiftr recid 1 in
  let isYOdd := Z.land recid 1 in
  let x := r + xOverflow * n in
  if _secp256k1P <=? x then Ok None else
  match decompressPoint isYOdd x with
  | Throw _ => Ok None
  | Ok R =>
      if isInfinity R then Ok None else
      rInv ← modInverse r n;
      match ec_mul R s, ec_mul G (_mod z n) with
      | Some sR, Some zG =>
          match ec_sub sR zG with
          | Some diff => Ok (ec_mul diff rInv)
          | None => Ok None
          end
      | _, _ => Ok None
      end
  end.

(** The loop over the candidates. *)
Fixpoint find_recid (r s z : Z) (pub : bytes) (candidates : list Z) : result (option Z) :=
  match candidates with
  | [] => Ok None
  | candidate :: rest =>
      recovered ← _recoverPublicKey r s z candidate;
      match recovered with
      | None => find_recid r s z pub rest
      | Some q => if _bytesEqual (getEncoded q) pub then Ok (Some candidate) else find_recid r s z pub rest
      end
  end.

Definition signMessage (privateKey publicKeyCompressed : bytes) (message : string) : result string :=
  let hash := messageHash message in
  '(r, s) ← ec_sign hash (_bytesToBigInt privateKey);
  let n := secp_order in
  let s := if Z.shiftr n 1 <? s then n - s else s in
  let z := _bytesToBigInt hash in
  recid ← find_recid r s z publicKeyCompressed [0; 1; 2; 3];
  match recid with
  | None => Throw (StateError "Could not determine a recovery id for this signature")
  | Some recid =>
      let header := 27 + recid + 4 in
      mret (base64_encode (fromList ([header] ++ _bigIntTo32Bytes r ++ _bigIntTo32Bytes s)))
  end.

(** What [verifyMessage] does with the decoded bytes. *)
Definition check_signature (expected sigBytes : bytes) (message : string) : result bool :=
  if negb (length sigBytes =? 65)%nat then Throw (FormatException "Malformed signature (wrong length)") else
  header ← index sigBytes 0;
  if (header <? 27) || (42 <? header) then Throw (FormatException "Malformed signature (bad header byte)") else
  let recid := Z.land (header - 27) 3 in
  rBytes ← sublist sigBytes 1 33; sBytes ← sublist sigBytes 33 65;
  let z := _bytesToBigInt (messageHash message) in
  pubkeyPoint ← _recoverPublicKey (_bytesToBigInt rBytes) (_bytesToBigInt sBytes) z recid;
  match pubkeyPoint with
  | None => Ok false
  | Some q => Ok (_bytesEqual (hash160 (getEncoded q)) expected)
  end.

Definition verifyMessage (address signatureBase64 message : string) (network : NetworkConfig) : result bool :=
  decoded ← decodeAddress address network;
  if negb (bool_decide (d_type decoded = P2pkh))
  then Throw (FormatException "Only P2PKH addresses support message signing/verification") else
  match base64_decode (js_trim signatureBase64) with
  | Throw _ => Throw (FormatException "Malformed signature (not valid base64)")
  | Ok sigBytes => check_signature (d_hash decoded) sigBytes message
  end.
End message.

(** ** Scalars *)

Lemma order_odd : secp_order = 2 * (secp_order / 2) + 1 ∧ 0 < secp_order / 2 ∧ secp_order < 256 ^ Z.of_nat 32.
Proof. vm_compute. split_and!; congruence. Qed.

Lemma cong_exists a b : cong a b ↔ ∃ c, a = b + c * secp_order.
Proof.
  unfold cong. split.
  - intros H. exists (a / secp_order - b / secp_order). pose proof (Z.div_mod a secp_order). pose proof (Z.div_mod b secp_order).
    unfold secp_order in *. lia.
  - intros [c ->]. by rewrite Z.mod_add.
Qed.

Lemma modInverse_ok a : Z.gcd a secp_order = 1 → ∃ b, modInverse a secp_order = Ok b ∧ 0 <= b ∧ cong (a * b) 1.
Proof.
  intros Hg. unfold modInverse. destruct (Z.extgcd a secp_order) as [[u v] d] eqn:E.
  apply Z.extgcd_correct in E as [E ->]. rewrite Hg. exists (u mod secp_order). split; [done|].
  split; [by apply Z.mod_pos_bound|]. unfold cong. rewrite Z.mul_mod_idemp_r by done. fold (cong (a * u) 1).
  apply cong_exists. exists (- v). lia.
Qed.

Lemma cong_cancel s a b : Z.gcd s secp_order = 1 → cong (s * a) (s * b) → cong a b.
Proof.
  intros Hg H. destruct (modInverse_ok s Hg) as (i & _ & _ & Hi). apply cong_exists in H as [c H], Hi as [e Hi].
  apply cong_exists. exists (i * c - a * e + b * e). generalize dependent secp_order. intros n _ H Hi.
  pose proof (f_equal (Z.mul i) H). pose proof (f_equal (Z.mul a) Hi). pose proof (f_equal (Z.mul b) Hi). lia.
Qed.

Lemma times_cong {C : CurvePackage} a b p : cong a b → times a p → times b p.
Proof. unfold cong, times. by intros ->. Qed.

Lemma times_point {C : CurvePackage} a b p q : cong a b → times a p → times b q → p = q.
Proof. unfold cong, times. intros -> H1 H2. congruence. Qed.

(** ** Recovery *)

Section recovery.
Context {P : Primitives} {PL : PrimitiveLaws} {C : CurvePackage} {CL : CurveLaws}.

Lemma recid_bits i : 0 <= i <= 3 → Z.shiftr i 1 = i / 2 ∧ Z.land i 1 = i mod 2 ∧ (i mod 2 = 0 ∨ i mod 2 = 1) ∧ 0 <= i / 2.
Proof. intros H. assert (i = 0 ∨ i = 1 ∨ i = 2 ∨ i = 3) as [-> | [-> | [-> | ->]]] by lia; split_and!; first [done | by left | by right]. Qed.

(** What [_recoverPublicKey] computes, once the point of r is there. *)
Lemma recover_at r s z i k R : 0 < r → 0 <= s → 0 <= i <= 3 → Z.gcd r secp_order = 1 → names r i k R →
  ∃ q Q, _recoverPublicKey r s z i = Ok (Some Q) ∧ times q Q ∧ cong (r * q) (s * k - z).
Proof.
  intros Hr Hs Hi Hg (Hk & HR & Hx & Hy). destruct (recid_bits i Hi) as (E1 & E2 & Hbit & Hi2).
  destruct (finite_times k R HR Hk) as (Hfin & Hrange & _). unfold _recoverPublicKey. rewrite E1, E2, <- Hx, <- Hy.
  destruct (Z.leb_spec _secp256k1P (point_x R)); [lia|].
  assert (Hd : decompressPoint (point_odd R) (point_x R) = Ok R) by (apply decompress_spec; [lia|done|by exists k]).
  rewrite Hd, Hfin. destruct (modInverse_ok r Hg) as (rInv & -> & Hinv & Hc). cbn [mbind result_bind].
  destruct (mul_times k R s HR Hs) as (sR & -> & HsR).
  destruct (mul_times 1 G (_mod z secp_order) G_times) as (zG & -> & HzG); [by apply Z.mod_pos_bound|].
  destruct (sub_times _ _ _ _ HsR HzG) as (d & -> & Hd'). destruct (mul_times _ _ rInv Hd' Hinv) as (Q & -> & HQ).
  exists ((k * s - 1 * _mod z secp_order) * rInv), Q. split; [done|]. split; [done|].
  apply cong_exists in Hc as [c Hc]. apply cong_exists.
  assert (Hz : cong (_mod z secp_order) z).
  { unfold cong, _mod. rewrite Z.mod_mod by done. replace (z mod secp_order + secp_order) with (z mod secp_order + 1 * secp_order) by lia.
    by rewrite Z.mod_add, Z.mod_mod. }
  apply cong_exists in Hz as [e Hz]. rewrite Hz. exists (c * (k * s - z - e * secp_order) - e).
  clear -Hc. generalize dependent secp_order. intros n Hc. pose proof (f_equal (Z.mul (k * s - z - e * n)) Hc). lia.
Qed.

(** Conversely, a key it returns comes from such a point. *)
Lemma recover_names r s z i Q : 0 < r → 0 <= i <= 3 → _recoverPublicKey r s z i = Ok (Some Q) → ∃ k R, names r i k R.
Proof.
  intros Hr Hi H. destruct (recid_bits i Hi) as (E1 & E2 & Hbit & Hi2). unfold _recoverPublicKey in H. rewrite E1, E2 in H.
  destruct (Z.leb_spec _secp256k1P (r + i / 2 * secp_order)) as [|Hx]; [done|].
  destruct (decompressPoint _ _) as [R|] eqn:Hd; [|done].
  apply decompress_spec in Hd as (k & Hk & HR & Ex & Ey); [|done|unfold secp_order in *; lia]. by exists k, R.
Qed.

Lemma recover_total r s z i : 0 < r → 0 <= s → 0 <= i <= 3 → Z.gcd r secp_order = 1 → ∃ o, _recoverPublicKey r s z i = Ok o.
Proof.
  intros Hr Hs Hi Hg. destruct (recid_bits i Hi) as (E1 & E2 & Hbit & Hi2).
  destruct (_recoverPublicKey r s z i) as [o|e] eqn:H; [by exists o|]. exfalso. pose proof H as H'.
  unfold _recoverPublicKey in H. rewrite E1, E2 in H.
  destruct (Z.leb_spec _secp256k1P (r + i / 2 * secp_order)) as [|Hx]; [done|].
  destruct (decompressPoint _ _) as [R|] eqn:Hd; [|done].
  apply decompress_spec in Hd as (k & Hk & HR & Ex & Ey); [|done|unfold secp_order in *; lia].
  destruct (recover_at r s z i k R Hr Hs Hi Hg) as (q & Q & HQ & _); [done|congruence].
Qed.

(** One recovery id at most gives a key. *)
Lemma recover_unique r s z i j Q Q' :
  0 < r → 0 <= s → 0 <= i <= 3 → 0 <= j <= 3 → Z.gcd r secp_order = 1 → Z.gcd s secp_order = 1 →
  _recoverPublicKey r s z i = Ok (Some Q) → _recoverPublicKey r s z j = Ok (Some Q') → getEncoded Q = getEncoded Q' → i = j.
Proof.
  intros Hr Hs Hi Hj Hgr Hgs H1 H2 Henc.
  destruct (recover_names _ _ _ _ _ Hr Hi H1) as (k & R & HR). destruct (recover_names _ _ _ _ _ Hr Hj H2) as (k' & R' & HR').
  destruct (recover_at r s z i k R Hr Hs Hi Hgr HR) as (q & Q1 & E1 & Hq & Hc).
  destruct (recover_at r s z j k' R' Hr Hs Hj Hgr HR') as (q' & Q1' & E1' & Hq' & Hc').
  rewrite H1 in E1. rewrite H2 in E1'. injection E1 as <-. injection E1' as <-.
  pose proof (encoded_times _ _ _ _ Hq Hq' Henc) as Hqq.
  assert (Hk : cong k k').
  { apply (cong_cancel s); [done|]. apply cong_exists in Hc as [c Hc], Hc' as [c' Hc'], Hqq as [e He]. apply cong_exists.
    exists (c' - c + r * e). clear -Hc Hc' He. generalize dependent secp_order. intros n Hc' Hc ->. lia. }
  destruct HR as (_ & HR & Ex & Ey), HR' as (_ & HR' & Ex' & Ey'). pose proof (times_point _ _ _ _ Hk HR HR') as <-.
  pose proof (Z.div_mod i 2). pose proof (Z.div_mod j 2). assert (i / 2 = j / 2) by (unfold secp_order in *; lia). lia.
Qed.

(** The recovery written by hand agrees with the browser's and the node's library. *)
Lemma recover_same r s i h pk :
  0 < r < secp_order → 0 < s < secp_order → 0 <= i <= 3 → Z.gcd r secp_order = 1 → all_bytes h → length h = 32%nat →
  secp_recover (be_bytes 32 r ++ be_bytes 32 s) i h = Ok pk →
  ∃ Q, _recoverPublicKey r s (of_digits 256 h) i = Ok (Some Q) ∧ getEncoded Q = pk.
Proof.
  intros Hr Hs Hi Hg Hb Hl H. apply recover_sec1 in H as (k & R & q & Q & HR & HQ & _ & Hc & ->); try done.
  destruct (recover_at r s (of_digits 256 h) i k R) as (q' & Q' & H' & HQ' & Hc'); [lia|lia|done|done|done|].
  exists Q'. split; [done|]. f_equal. eapply (times_point q' q); [|done|done]. apply (cong_cancel r); [done|].
  unfold cong in *. congruence.
Qed.
End recovery.

(** ** Texts *)

Lemma dart_b64_char n : 0 <= n < 64 → dart_b64_val (b64_char n) = Some n.
Proof.
  intros Hn. assert (H : bool_decide (n < 64 → dart_b64_val (b64_char n) = Some n) = true).
  { assert (Hb : is_byte n) by (unfold is_byte; lia). clear Hn. revert n Hb. apply byte_cases. by vm_compute. }
  apply bool_decide_eq_true in H. apply H. lia.
Qed.

Lemma read_chars vs rest : Forall (λ n, 0 <= n < 64) vs → match rest with [] => True | c :: _ => dart_b64_val c = None end →
  read_sextets ((b64_char <$> vs) ++ rest) = (vs, rest).
Proof.
  intros Hv Hr. induction Hv as [|n vs Hn _ IH].
  - destruct rest as [|c rest]; [done|]. cbn [fmap list_fmap app read_sextets]. by rewrite Hr.
  - rewrite fmap_cons. cbn [app read_sextets]. by rewrite dart_b64_char, IH.
Qed.

Lemma pads_sextets l : all_bytes l → pads (sextets l) = Some (length (padding l)).
Proof.
  induction l as [|a|a b|a b c l IH] using triples_ind; intros H; [done|..];
    unfold all_bytes in H; rewrite ?Forall_cons_iff in H.
  - cbn [sextets pads]. change 15 with (Z.ones 4). rewrite Z.land_ones, (Z.mod_mul _ 16) by lia. done.
  - cbn [sextets pads]. change 3 with (Z.ones 2) at 1. rewrite Z.land_ones, (Z.mod_mul _ 4) by lia. done.
  - rewrite padding_step. cbn [sextets pads]. apply IH. tauto.
Qed.

Lemma padded_padding l : padded (length (padding l)) (padding l) = true.
Proof. unfold padding. by destruct (length l mod 3)%nat as [|[|]]. Qed.

Lemma base64_back l : all_bytes l → base64_decode (js_trim (base64_encode l)) = Ok l.
Proof.
  intros Hl. change (base64_encode l) with (base64Encode l). rewrite trim_base64 by done. unfold base64_decode, base64Encode.
  rewrite chars_of_chars, btoa_sextets, read_chars.
  - rewrite pads_sextets, padded_padding, unsextets_sextets by done. by rewrite fromList_bytes.
  - by apply sextets_range.
  - unfold padding. by destruct (length l mod 3)%nat as [|[|]].
Qed.

Lemma fill_bytes_be n v out : fill_bytes n v out = be_bytes n v ++ out.
Proof.
  revert v out. induction n as [|n IH]; intros v out; [done|]. cbn [fill_bytes be_bytes]. rewrite IH, <- app_assoc. cbn [app].
  rewrite Z.shiftr_div_pow2 by lia. change 0xff with (Z.ones 8). by rewrite Z.land_ones.
Qed.

Lemma messageHash_same {P : Primitives} message :
  len (encode_utf8 message) < 2 ^ 32 → messageHash message = MessageHash message.
Proof.
  intros Hl. assert (E : ∀ n, 0 <= n < 2 ^ 32 → message_varInt n = WriteCompactSize n).
  { intros n Hn. rewrite <- _varInt_WriteCompactSize by lia. unfold message_varInt, _varInt.
    by rewrite (proj2 (Z.leb_le n 0xffffffff)) by lia. }
  assert (Hb : ∀ s, all_bytes (encode_utf8 s)) by (intros s; apply Toy.codes_bytes).
  unfold messageHash, MessageHash, _doubleSha256, doubleSha256, write_script. rewrite !E by (unfold len in *; lia || (by vm_compute)).
  rewrite fromList_bytes; [by rewrite !app_assoc|]. rewrite !all_bytes_app. auto using WriteCompactSize_bytes.
Qed.

(** ** Signing and verifying *)

(** The parts of a signature, as [verifyMessage] cuts them out. *)
Lemma check_parts {P : Primitives} {PL : PrimitiveLaws} {C : CurvePackage} header a b message h :
  length a = 32%nat → length b = 32%nat → all_bytes a → all_bytes b → 27 <= header <= 42 → len (encode_utf8 message) < 2 ^ 32 →
  check_signature h (header :: a ++ b) message =
    (o ← _recoverPublicKey (of_digits 256 a) (of_digits 256 b) (of_digits 256 (MessageHash message)) (Z.land (header - 27) 3);
     match o with None => Ok false | Some q => Ok (bool_decide (hash160 (getEncoded q) = h)) end).
Proof.
  intros Ha Hb Hba Hbb Hh Hlen. unfold check_signature.
  assert (Hl : length (header :: a ++ b) = 65%nat) by (cbn [length]; rewrite length_app; lia).
  rewrite Hl. cbn [Nat.eqb negb]. change (index (header :: a ++ b) 0) with (Ok header). cbn [mbind result_bind].
  destruct (Z.ltb_spec header 27); [lia|]. destruct (Z.ltb_spec 42 header); [lia|]. cbn [orb].
  unfold sublist. rewrite Hl. cbn [Nat.leb andb Nat.sub mbind result_bind].
  change (drop 1 (header :: a ++ b)) with (a ++ b). change (drop 33 (header :: a ++ b)) with (drop 32 (a ++ b)).
  rewrite take_app_length', drop_app_length' by done. rewrite take_ge by lia. rewrite messageHash_same by done.
  rewrite !bytesToBigInt_value by (done || apply sha256_bytes).
  destruct (_recoverPublicKey _ _ _ _) as [[q|]|]; [|done..]. cbn [mbind result_bind]. by rewrite bytesEqual_spec.
Qed.

Section signing.
Context {P : Primitives} {PL : PrimitiveLaws} {MP : MobilePackages} {ML : MobilePackageLaws} {C : CurvePackage} {CL : CurveLaws}.
Context (k : bytes) (message : string) (sig : ecdsa_sig).
Hypothesis Hk : typed_key k.
Hypothesis Hlen : len (encode_utf8 message) < 2 ^ 32.
Hypothesis Hs : secp_sign (MessageHash message) k = Ok sig.

Let z := of_digits 256 (MessageHash message).

Lemma recovers_key : ∃ Q, _recoverPublicKey (sig_r sig) (sig_s sig) z (sig_recovery sig) = Ok (Some Q) ∧ getEncoded Q = secp_public k.
Proof.
  destruct (secp_sign_range _ _ _ Hs) as (Hr & Hss & Hi). destruct (sign_coprime _ _ _ Hs) as [Hg _].
  apply recover_same; try done; [split; [lia|]|apply sha256_bytes|apply sha256_length|exact (secp_sign_recover _ _ _ Hs)].
  pose proof order_odd. lia.
Qed.

(** No other candidate gives the key, so the loop stops at the library's recovery id. *)
Lemma finds_recid cs : Forall (λ c, 0 <= c <= 3) cs → sig_recovery sig ∈ cs →
  find_recid (sig_r sig) (sig_s sig) z (secp_public k) cs = Ok (Some (sig_recovery sig)).
Proof.
  destruct recovers_key as (Q & HQ & EQ). destruct (secp_sign_range _ _ _ Hs) as (Hr & Hss & Hi).
  destruct (sign_coprime _ _ _ Hs) as [Hg1 Hg2]. intros Hcs. induction Hcs as [|c cs Hc _ IH]; intros Hin; [by apply elem_of_nil in Hin|].
  cbn [find_recid]. destruct (decide (c = sig_recovery sig)) as [->|Hne].
  - rewrite HQ. cbn [mbind result_bind]. by rewrite bytesEqual_spec, EQ, bool_decide_eq_true_2.
  - apply elem_of_cons in Hin as [?|Hin]; [congruence|]. specialize (IH Hin).
    destruct (recover_total (sig_r sig) (sig_s sig) z c) as [[Q'|] HQ']; [lia|lia|done|done| |]; rewrite HQ'; cbn [mbind result_bind]; [|done].
    rewrite bytesEqual_spec. case_bool_decide as E; [|done]. destruct Hne.
    eapply (recover_unique (sig_r sig) (sig_s sig) z c); [lia|lia|done|done|done|done|exact HQ'|exact HQ|congruence].
Qed.

Lemma signMessage_text : signMessage k (secp_public k) message = Ok (base64Encode (signature_bytes sig)).
Proof.
  destruct Hk as [Hkb Hkl]. destruct (ec_sign_rfc6979 _ _ _ Hkb Hkl Hs) as (s & Hec & Hlow).
  destruct (secp_sign_range _ _ _ Hs) as (Hr & Hss & Hi). destruct (signature_bytes_spec _ _ _ Hs) as (Hb & _ & _).
  unfold signMessage. rewrite messageHash_same by done. rewrite (bytesToBigInt_value k Hkb), Hec. cbn [mbind result_bind].
  assert (Es : (if Z.shiftr secp_order 1 <? s then secp_order - s else s) = sig_s sig).
  { rewrite Z.shiftr_div_pow2 by lia. change (2 ^ 1) with 2. pose proof order_odd. destruct (Z.ltb_spec (secp_order / 2) s); lia. }
  rewrite Es, bytesToBigInt_value by apply sha256_bytes. fold z. rewrite finds_recid.
  - cbn [mbind result_bind]. change (base64_encode ?x) with (base64Encode x). do 2 f_equal. unfold _bigIntTo32Bytes.
    rewrite !fill_bytes_be, !app_nil_r. replace (27 + sig_recovery sig + 4) with (31 + sig_recovery sig) by lia. by apply fromList_bytes.
  - rewrite !Forall_cons_iff. split_and!; [lia..|constructor].
  - assert (sig_recovery sig = 0 ∨ sig_recovery sig = 1 ∨ sig_recovery sig = 2 ∨ sig_recovery sig = 3) by lia. set_solver.
Qed.

Lemma checkSignature_ok h : check_signature h (signature_bytes sig) message = Ok (bool_decide (h = hash160 (secp_public k))).
Proof.
  destruct (secp_sign_range _ _ _ Hs) as (Hr & Hss & Hi). pose proof order_odd. unfold signature_bytes, compact_bytes.
  rewrite check_parts; [|by rewrite be_bytes_length|by rewrite be_bytes_length|apply be_bytes_bytes|apply be_bytes_bytes|lia|done].
  rewrite !be_bytes_value, !Z.mod_small by lia. destruct (header_bits (sig_recovery sig) Hi) as (-> & _).
  destruct recovers_key as (Q & HQ & EQ). unfold z in HQ. rewrite HQ. cbn [mbind result_bind]. rewrite EQ. f_equal.
  apply bool_decide_ext. split; congruence.
Qed.

Lemma verifyMessage_text address net h :
  decodeAddress address net = Ok {| d_type := P2pkh; d_hash := h |} →
  verifyMessage address (base64Encode (signature_bytes sig)) message net = Ok (bool_decide (h = hash160 (secp_public k))).
Proof.
  intros Ha. destruct (signature_bytes_spec _ _ _ Hs) as (Hb & _ & _). unfold verifyMessage. rewrite Ha.
  cbn [mbind result_bind d_type d_hash negb]. rewrite bool_decide_eq_true_2 by done. cbn [negb].
  rewrite <- checkSignature_ok. generalize dependent (signature_bytes sig). intros raw Hb. by rewrite base64_back.
Qed.
End signing.

(** C38. A message signed on the phone is signed for everyone.  The phone's signature is,
    character by character, the browser's; the phone accepts it for the address of the
    key and no other, so does the browser, and the node recovers the key from it. *)
Theorem mobile_message_same {P : Primitives} {PL : PrimitiveLaws} {MP : MobilePackages} {ML : MobilePackageLaws}
    {C : CurvePackage} {CL : CurveLaws}
    (n : CacNetwork) (k : bytes) (message address : string) (h : bytes) (uncompressed : bytes → bytes)
    (Hk : typed_key k) (Hlen : len (encode_utf8 message) < 2 ^ 32)
    (Hsign : is_ok (secp_sign (MessageHash message) k) = true) (Hh : all_bytes h)
    (Haddr : decodeAddress address (forNetwork n) = Ok {| d_type := P2pkh; d_hash := h |}) :
  ∃ signature raw,
    signMessage k (secp_public k) message = Ok signature ∧ Message.signMessage k message = Ok signature ∧
    verifyMessage address signature message (forNetwork n) = Ok (bool_decide (h = hash160 (secp_public k))) ∧
    verify_signature h signature message = Ok (bool_decide (h = hash160 (secp_public k))) ∧
    base64Decode signature = Ok raw ∧ RecoverCompact uncompressed (MessageHash message) raw = Ok (secp_public k).
Proof.
  destruct (secp_sign (MessageHash message) k) as [sig|] eqn:Hs; [|done].
  exists (base64Encode (signature_bytes sig)), (signature_bytes sig).
  split; [by apply signMessage_text|]. split; [by apply signMessage_ok|]. split; [by apply verifyMessage_text|].
  split; [by apply verify_signature_ok|]. split; [apply base64_roundtrip_aux; by eapply signature_bytes_spec|by apply recover_node].
Qed.

(** Like the browser the phone ignores the compression bit of the header: without it the
    node compares the hash of the uncompressed key, and the phone still accepts the
    signature for the address of the compressed one. *)
Theorem phone_ignores_compression_bit {P : Primitives} {PL : PrimitiveLaws} {C : CurvePackage} {CL : CurveLaws}
    (k : bytes) (message : string) (uncompressed : bytes → bytes) (sig : ecdsa_sig)
    (Hlen : len (encode_utf8 message) < 2 ^ 32) (Hs : secp_sign (MessageHash message) k = Ok sig) :
  let raw := (27 + sig_recovery sig) :: compact_bytes sig in
  check_signature (hash160 (secp_public k)) raw message = Ok true ∧
  RecoverCompact uncompressed (MessageHash message) raw = Ok (uncompressed (secp_public k)).
Proof.
  destruct (secp_sign_range _ _ _ Hs) as (Hr & Hss & Hi). pose proof order_odd.
  destruct (header_bits (sig_recovery sig) Hi) as (_ & _ & E1 & E2 & _). split.
  - unfold compact_bytes. rewrite check_parts; [|by rewrite be_bytes_length|by rewrite be_bytes_length|apply be_bytes_bytes|apply be_bytes_bytes|lia|done].
    rewrite !be_bytes_value, !Z.mod_small, E1 by lia. destruct (recovers_key _ _ _ Hs) as (Q & -> & EQ). cbn [mbind result_bind].
    by rewrite EQ, bool_decide_eq_true_2.
  - pose proof (secp_sign_recover _ _ _ Hs) as Hrec. pose proof (signature_bytes_spec _ _ _ Hs) as (_ & Hl & _).
    unfold signature_bytes in Hl. cbn [length] in Hl. generalize dependent (compact_bytes sig). intros raw Hrec Hl.
    unfold RecoverCompact. cbn [length]. rewrite Hl. cbn [Nat.eqb negb]. change (at_ (?x :: raw) 0) with x.
    change (drop 1 (?x :: raw)) with raw. by rewrite E1, E2, Hrec.
Qed.

(** ** A concrete curve

    The points are the residues modulo n themselves, a point and its negative share
    the coordinate x, and the nonce of every signature is 1. *)

Module ResidueCurve.
#[local] Abbreviation n := secp_order.

Definition x_of (p : Z) : Z := Z.min p (n - p).
Definition odd_of (p : Z) : Z := if p <=? n / 2 then 0 else 1.
Definition encoded (p : Z) : bytes := (2 + odd_of p) :: be_bytes 32 (x_of p).
Definition at_x (y x : Z) : result Z :=
  if (0 <? x) && (x <=? n / 2) && ((y =? 0) || (y =? 1)) then Ok (if y =? 0 then x else n - x) else Throw (ArgumentError "Invalid point compression").

#[export] Instance curve : CurvePackage := {|
  ECPoint := Z; G := 1; decompressPoint := at_x; isInfinity p := p =? 0;
  ec_mul p k := Some (p * k mod n); ec_sub p q := Some ((p - q) mod n); getEncoded := encoded; point_x := x_of; point_odd := odd_of
|}.

Definition public (k : bytes) : bytes := encoded (of_digits 256 k mod n).

(** With nonce 1, r is 1 and s is z + d, or its negative if that is lower. *)
Definition sign (h k : bytes) : result ecdsa_sig :=
  let s := (of_digits 256 h + of_digits 256 k) mod n in
  if negb (Z.gcd s n =? 1) || (of_digits 256 k mod n =? 0) then Throw (ExError "sign") else
  Ok (if s <=? n / 2 then {| sig_r := 1; sig_s := s; sig_recovery := 0 |} else {| sig_r := 1; sig_s := n - s; sig_recovery := 1 |}).

Definition recover (b : bytes) (i : Z) (h : bytes) : result bytes :=
  let r := of_digits 256 (take 32 b) in
  let s := of_digits 256 (drop 32 b) in
  R ← at_x (i mod 2) (r + i / 2 * n);
  rInv ← modInverse r n;
  let q := (s * R - of_digits 256 h) * rInv mod n in
  if q =? 0 then Throw (ExError "infinity") else Ok (encoded q).

Definition verify (r s : Z) (h pk : bytes) : bool :=
  (r =? 1) && (bool_decide (pk = encoded ((s - of_digits 256 h) mod n)) || bool_decide (pk = encoded ((- s - of_digits 256 h) mod n))).

#[export] Instance prims : Primitives := {|
  sha256 := Toy.hash 32; ripemd160 := Toy.hash 20;
  secp_sign := sign; secp_public := public; secp_verify := verify; secp_recover := recover;
  bip39_valid := bip39_valid (Primitives := Toy.prims); bip39_generate := bip39_generate (Primitives := Toy.prims);
  bip39_seed := bip39_seed (Primitives := Toy.prims);
  hd_derive seed path := kp ← hd_derive (Primitives := Toy.prims) seed path;
    Ok {| privateKey := privateKey kp; publicKey := public (privateKey kp) |};
  hd_xpub := hd_xpub (Primitives := Toy.prims);
  hd_xpub_derive x vs path :=
    let b := code <$> chars x in
    if bool_decide (take 4 b = be_bytes 4 (v_public vs))
    then Ok (public (Toy.hash 32 (drop 4 b ++ drop 1 (code <$> chars path))))
    else Throw (ExError "Version mismatch");
  pbkdf2 := pbkdf2 (Primitives := Toy.prims); aes_encrypt := aes_encrypt (Primitives := Toy.prims);
  aes_decrypt := aes_decrypt (Primitives := Toy.prims)
|}.

Lemma x_of_bound p : 0 <= p < n → 0 <= x_of p <= n / 2 ∧ x_of p < 256 ^ Z.of_nat 32.
Proof. pose proof order_odd. unfold x_of. lia. Qed.

Lemma encoded_inj p q : 0 <= p < n → 0 <= q < n → encoded p = encoded q → p = q.
Proof.
  intros Hp Hq E. pose proof order_odd. pose proof (x_of_bound p Hp). pose proof (x_of_bound q Hq).
  unfold encoded in E. pose proof (f_equal (hd 0) E) as Eo. pose proof (f_equal (@tl Z) E) as Ex. cbn [hd tl] in Eo, Ex.
  apply (f_equal (of_digits 256)) in Ex. rewrite !be_bytes_value, !Z.mod_small in Ex by lia.
  unfold x_of, odd_of in *. destruct (Z.leb_spec p (n / 2)), (Z.leb_spec q (n / 2)); lia.
Qed.

Lemma at_x_spec y x p : y = 0 ∨ y = 1 → at_x y x = Ok p ↔ 0 < p < n ∧ x_of p = x ∧ odd_of p = y.
Proof.
  intros Hy. pose proof order_odd. unfold at_x, x_of, odd_of. split.
  - destruct (Z.ltb_spec 0 x), (Z.leb_spec x (n / 2)); cbn [andb]; try done.
    destruct Hy as [-> | ->]; cbn [Z.eqb orb]; intros [= <-]; [destruct (Z.leb_spec x (n / 2))|destruct (Z.leb_spec (n - x) (n / 2))]; lia.
  - intros (Hp & <- & <-). destruct (Z.leb_spec p (n / 2)).
    + rewrite Z.min_l by lia. rewrite (proj2 (Z.ltb_lt 0 p)), (proj2 (Z.leb_le p (n / 2))) by lia. done.
    + rewrite Z.min_r by lia. rewrite (proj2 (Z.ltb_lt 0 (n - p))), (proj2 (Z.leb_le (n - p) (n / 2))) by lia. cbn. f_equal. lia.
Qed.

Lemma times_residue k p : times k p ↔ p = k mod n.
Proof.
  unfold times. cbn [ec_mul curve G]. rewrite Z.mul_1_l, Z.mod_mod by done. split; [by intros [= <-]|by intros ->].
Qed.

Lemma nonzero k : ¬ cong k 0 ↔ k mod n ≠ 0.
Proof. unfold cong. by rewrite Z.mod_0_l. Qed.

Lemma names_residue r i k R : 0 <= i <= 3 →
  names r i k R ↔ R = k mod n ∧ at_x (i mod 2) (r + i / 2 * n) = Ok R.
Proof.
  intros Hi. destruct (recid_bits i Hi) as (_ & _ & Hbit & _). unfold names. rewrite times_residue, nonzero, at_x_spec by done.
  cbn [point_x point_odd curve]. pose proof (Z.mod_pos_bound k n eq_refl). split; [intros (? & -> & ? & ?)|intros (-> & ? & ? & ?)]; split_and!; try done; lia.
Qed.

Lemma recover_residue r s i h pk : 0 < r < n → 0 < s < n → 0 <= i <= 3 → Z.gcd r n = 1 →
  recover (be_bytes 32 r ++ be_bytes 32 s) i h = Ok pk ↔
  ∃ k R q Q, names r i k R ∧ times q Q ∧ ¬ cong q 0 ∧ cong (r * q) (s * k - of_digits 256 h) ∧ pk = encoded Q.
Proof.
  intros Hr Hs Hi Hg. pose proof order_odd. unfold recover. rewrite take_app_length', drop_app_length' by (by rewrite be_bytes_length).
  rewrite !be_bytes_value, !Z.mod_small by lia. set (z := of_digits 256 h).
  destruct (modInverse_ok r Hg) as (rInv & -> & _ & Hinv). apply cong_exists in Hinv as [c Hinv]. split.
  - destruct (at_x _ _) as [R|] eqn:ER; [|done]. cbn [mbind result_bind]. destruct (Z.eqb_spec ((s * R - z) * rInv mod n) 0) as [|Hq]; [done|].
    intros [= <-]. assert (HR : names r i R R).
    { apply names_residue; [done|]. split; [|done]. destruct (recid_bits i Hi) as (_ & _ & Hbit & _).
      apply at_x_spec in ER; [|done]. by rewrite Z.mod_small by lia. }
    eexists R, R, ((s * R - z) * rInv), _. split; [done|]. split; [by apply times_residue|]. split; [by apply nonzero|].
    split; [|done]. apply cong_exists. exists ((s * R - z) * c). generalize dependent n. intros. pose proof (f_equal (Z.mul (s * R - z)) Hinv). lia.
  - intros (k & R & q & Q & HR & HQ & Hq & Hc & ->). apply names_residue in HR as [-> ->]; [|done]. cbn [mbind result_bind].
    apply times_residue in HQ as ->. assert (E : cong ((s * (k mod n) - z) * rInv) q).
    { apply cong_exists in Hc as [e Hc]. pose proof (Z.div_mod k n ltac:(done)) as Hk. apply cong_exists.
      exists (q * c - e * rInv - s * (k / n) * rInv). generalize dependent (k mod n). generalize dependent (k / n).
      clear -Hinv Hc. generalize dependent n. intros N Hinv Hc d m Hk. rewrite Hk in Hc.
      pose proof (f_equal (Z.mul rInv) Hc). pose proof (f_equal (Z.mul q) Hinv). lia. }
    unfold cong in E. rewrite E. rewrite nonzero in Hq. by destruct (Z.eqb_spec (q mod n) 0).
Qed.

#[export] Instance curve_laws : CurveLaws.
Proof.
  split; intros; cbn [curve prims G ec_mul ec_sub isInfinity getEncoded decompressPoint secp_recover secp_sign] in *.
  - by apply times_residue.
  - eexists. split; [done|]. apply times_residue. apply times_residue in H as ->. by rewrite Z.mul_mod_idemp_l.
  - eexists. split; [done|]. apply times_residue. apply times_residue in H as ->, H0 as ->. by rewrite <- Zminus_mod.
  - apply times_residue in H as ->. rewrite nonzero in H0. pose proof (Z.mod_pos_bound k n eq_refl). pose proof order_odd.
    destruct (x_of_bound (k mod n)); [done|]. split; [by apply Z.eqb_neq|]. split; [|unfold point_odd; cbn; unfold odd_of; destruct (_ <=? _); auto].
    cbn [point_x curve]. assert (n < _secp256k1P) by (by vm_compute). lia.
  - rewrite at_x_spec by done. cbn [point_x point_odd curve]. split.
    + intros (Hp & Hx & Hy). exists p. rewrite nonzero, times_residue, Z.mod_small by lia. split; [lia|done].
    + intros (k & Hk & Hp & Hx & Hy). apply times_residue in Hp as ->. rewrite nonzero in Hk.
      pose proof (Z.mod_pos_bound k n eq_refl). split; [lia|done].
  - apply times_residue in H as ->, H0 as ->. by apply encoded_inj in H1; [|apply Z.mod_pos_bound..].
  - by apply recover_residue.
  - unfold sign in H. set (s := (_ + _) mod n) in H. destruct (Z.eqb_spec (Z.gcd s n) 1) as [Hg|]; [|done].
    destruct (_ =? 0) in H; [done|]. cbn [negb orb] in H. apply Toy.Ok_inj in H as <-.
    destruct (s <=? n / 2); cbn [sig_r sig_s]; (split; [by vm_compute|]); [done|].
    rewrite <- Hg, (Z.gcd_comm s). rewrite Z.gcd_comm. rewrite <- (Z.gcd_opp_r n (n - s)).
    replace (- (n - s)) with (s + (-1) * n) by lia. by rewrite Z.gcd_add_mult_diag_r.
Qed.

(** What [sign] returns. *)
Lemma sign_inv h k sig : sign h k = Ok sig →
  of_digits 256 k mod n ≠ 0 ∧ 0 < sig_s sig <= n / 2 ∧ sig_r sig = 1 ∧
  ∃ e, (e = 1 ∧ sig_recovery sig = 0 ∨ e = -1 ∧ sig_recovery sig = 1) ∧ cong (sig_s sig) (e * (of_digits 256 h + of_digits 256 k)).
Proof.
  unfold sign. set (s := (_ + _) mod n). intros H. destruct (Z.eqb_spec (Z.gcd s n) 1) as [Hg|]; [|done].
  destruct (Z.eqb_spec (of_digits 256 k mod n) 0) as [|Hd]; [done|]. cbn [negb orb] in H. apply Toy.Ok_inj in H as <-.
  pose proof order_odd. assert (Hs : 0 <= s < n) by (by apply Z.mod_pos_bound).
  assert (s ≠ 0) by (intros E; rewrite E in Hg; by vm_compute in Hg).
  assert (Hc : cong s (of_digits 256 h + of_digits 256 k)) by (unfold cong, s; by rewrite Z.mod_mod).
  destruct (Z.leb_spec s (n / 2)); cbn [sig_s sig_r sig_recovery];
    (split; [exact Hd|]; split; [lia|]; split; [reflexivity|]).
  - exists 1. rewrite Z.mul_1_l. auto.
  - exists (-1). split; [auto|]. apply cong_exists in Hc as [c Hc]. apply cong_exists. exists (1 - c). lia.
Qed.

Lemma encoded_bytes p : all_bytes (encoded p) ∧ length (encoded p) = 33%nat ∧ (encoded p !! 0%nat = Some 2 ∨ encoded p !! 0%nat = Some 3).
Proof.
  unfold encoded. generalize (be_bytes_bytes 32 (x_of p)) (be_bytes_length 32 (x_of p)). generalize (be_bytes 32 (x_of p)). intros l Hb Hl.
  unfold odd_of. split; [apply all_bytes_cons; split; [|done]; unfold is_byte; destruct (_ <=? _); lia|].
  split; [cbn [length]; by rewrite Hl|]. destruct (_ <=? _); auto.
Qed.

Lemma sign_recovers h k sig : sign h k = Ok sig → recover (compact_bytes sig) (sig_recovery sig) h = Ok (public k).
Proof.
  intros H. destruct (sign_inv _ _ _ H) as (Hd & Hs & Er & e & He & Hc). unfold compact_bytes. rewrite Er. pose proof order_odd.
  apply recover_residue; [lia|lia|lia|by vm_compute|]. exists e, (e mod n), (of_digits 256 k), (of_digits 256 k mod n).
  split; [apply names_residue; [lia|]; split; [done|]; by destruct He as [[-> ->]|[-> ->]]; vm_compute|].
  split; [by apply times_residue|]. split; [by rewrite nonzero|]. split; [|done].
  apply cong_exists in Hc as [c Hc]. apply cong_exists. exists (- e * c). rewrite Hc. destruct He as [[-> _]|[-> _]]; lia.
Qed.

Lemma sign_verifies h k sig : sign h k = Ok sig → verify (sig_r sig) (sig_s sig) h (public k) = true.
Proof.
  intros H. destruct (sign_inv _ _ _ H) as (_ & _ & -> & e & He & Hc). unfold verify, public. cbn [Z.eqb Pos.eqb andb].
  apply cong_exists in Hc as [c Hc]. rewrite Hc. set (z := of_digits 256 h). apply orb_true_iff. rewrite !bool_decide_eq_true.
  destruct He as [[-> _]|[-> _]]; [left|right]; f_equal; symmetry; apply cong_exists; [exists c|exists (- c)]; lia.
Qed.

#[export] Instance laws : PrimitiveLaws.
Proof.
  split; intros; cbn [prims Toy.prims sha256 ripemd160 secp_sign secp_public secp_verify secp_recover bip39_valid bip39_generate
    hd_derive hd_xpub hd_xpub_derive pbkdf2 aes_encrypt aes_decrypt mbind result_bind] in *.
  - apply be_bytes_bytes.
  - apply be_bytes_length.
  - apply be_bytes_bytes.
  - apply be_bytes_length.
  - apply encoded_bytes.
  - apply encoded_bytes.
  - apply encoded_bytes.
  - destruct (sign_inv _ _ _ H) as (_ & Hs & -> & e & He & _). split; [by vm_compute|]. split; [done|]. lia.
  - by apply sign_verifies.
  - by apply sign_recovers.
  - done.
  - by apply Toy.Ok_inj in H as <-.
  - apply Toy.Ok_inj in H1 as <-, H2 as <-. rewrite Toy.xpub_bytes, take_app_length', drop_app_length' by (by rewrite be_bytes_length).
    rewrite bool_decide_eq_true_2 by done. cbn [publicKey privateKey].
    change ("m/" +:+ show c +:+ "/" +:+ show i) with ("m" +:+ ("/" +:+ show c +:+ "/" +:+ show i)).
    rewrite (chars_app account), (chars_app "m"), !fmap_app. change (drop 1 ((code <$> chars "m") ++ ?l)) with l. by rewrite <- app_assoc.
  - apply Toy.Ok_inj in H as <-. rewrite Toy.xpub_bytes, take_app_length' by (by rewrite be_bytes_length).
    rewrite bool_decide_eq_false_2; [done|]. intros E. apply (f_equal (of_digits 256)) in E.
    rewrite !be_bytes_value in E. change (256 ^ Z.of_nat 4) with (2 ^ 32) in E.
    rewrite !Z.mod_small in E by lia. done.
  - exact (aes_roundtrip (PrimitiveLaws := Toy.laws) key iv msg H).
  - exact (aes_encrypt_bytes (PrimitiveLaws := Toy.laws) key iv msg).
Qed.

#[export] Instance packages : MobilePackages := ToyPackages.packages_of (P := prims).
#[export] Instance package_laws : MobilePackageLaws (H := prims) (H0 := packages).
Proof.
  apply (ToyPackages.packages_of_laws (P := prims) (PL := laws)). intros seed path kp H. cbn [prims Toy.prims hd_derive mbind result_bind] in H.
  apply Toy.Ok_inj in H as <-. cbn [privateKey]. split; [apply be_bytes_bytes|apply be_bytes_length].
Qed.
End ResidueCurve.

(** ** A signed message *)

Module MessageExample.
#[local] Existing Instances ResidueCurve.prims ResidueCurve.packages ResidueCurve.curve.
Definition key : bytes := replicate 31 0 ++ [5].
Definition text : string := "pay to the bearer".
Definition hash : bytes := hash160 (secp_public key).
Definition address : string := match p2pkhAddress hash mainnetConfig with Ok a => a | Throw _ => "" end.
Definition signs : result string := signMessage key (secp_public key) text.
Definition verifies (signature : string) : result bool := verifyMessage address signature text mainnetConfig.

Lemma key_typed : typed_key key.
Proof. split; [|reflexivity]. unfold key. apply all_bytes_app. split; [|repeat constructor; unfold is_byte; lia]. apply Forall_replicate. unfold is_byte. lia. Qed.

Lemma text_short : len (encode_utf8 text) < 2 ^ 32.
Proof. by vm_compute. Qed.

Lemma key_signs : is_ok (secp_sign (MessageHash text) key) = true.
Proof. vm_compute. reflexivity. Qed.

Lemma address_decodes : decodeAddress address mainnetConfig = Ok {| d_type := P2pkh; d_hash := hash |}.
Proof. vm_compute. reflexivity. Qed.
End MessageExample.

Lemma mobile_message_same_witness :
  ∃ signature, MessageExample.signs = Ok signature ∧ MessageExample.verifies signature = Ok true.
Proof.
  destruct (mobile_message_same (P := ResidueCurve.prims) (PL := ResidueCurve.laws) (MP := ResidueCurve.packages)
    (ML := ResidueCurve.package_laws) (C := ResidueCurve.curve) (CL := ResidueCurve.curve_laws)
    CacMainnet MessageExample.key MessageExample.text MessageExample.address MessageExample.hash id
    MessageExample.key_typed MessageExample.text_short MessageExample.key_signs (be_bytes_bytes _ _) MessageExample.address_decodes)
    as (signature & raw & H1 & _ & H3 & _).
  exists signature. split; [exact H1|]. unfold MessageExample.verifies. rewrite bool_decide_eq_true_2 in H3 by reflexivity. exact H3.
Defined.

Lemma phone_ignores_compression_bit_witness :
  ∃ raw, check_signature (P := ResidueCurve.prims) (C := ResidueCurve.curve) MessageExample.hash raw MessageExample.text = Ok true.
Proof.
  pose proof MessageExample.key_signs as H.
  destruct (secp_sign (Primitives := ResidueCurve.prims) (MessageHash (P := ResidueCurve.prims) MessageExample.text) MessageExample.key) as [sig|] eqn:E; [|discriminate H].
  eexists. exact (proj1 (phone_ignores_compression_bit (P := ResidueCurve.prims) (PL := ResidueCurve.laws) (C := ResidueCurve.curve)
    (CL := ResidueCurve.curve_laws) MessageExample.key MessageExample.text id sig MessageExample.text_short E)).
Defined.
