(* ===== verification/BlockIndex.v ===== *)
(** * The node's block index (codexacoin-core/src/chain.cpp, node/blockstorage.cpp)

    A block of the index knows its parent and, one jump further back, the ancestor
    [pskip] at the height [GetSkipHeight] picks.  [GetAncestor] walks these
    pointers; [BuildSkip] uses it to set the pointer of a new block.  The walk
    never meets a null parent and ends at the ancestor of the height asked for. *)

From stdpp Require Import relations.
From S2P Require Import Prelude.

Inductive CBlockIndex :=
  BlockIndex (nHeight nTime : Z) (nStakeModifier : bytes) (pprev pskip : option CBlockIndex).

Definition nHeight (i : CBlockIndex) : Z := let '(BlockIndex h _ _ _ _) := i in h.
Definition nTime (i : CBlockIndex) : Z := let '(BlockIndex _ t _ _ _) := i in t.
Definition nStakeModifier (i : CBlockIndex) : bytes := let '(BlockIndex _ _ m _ _) := i in m.
Definition pprev (i : CBlockIndex) : option CBlockIndex := let '(BlockIndex _ _ _ p _) := i in p.
Definition pskip (i : CBlockIndex) : option CBlockIndex := let '(BlockIndex _ _ _ _ s) := i in s.

(** Turns the lowest 1 bit into a 0. *)
Definition InvertLowestOne (n : Z) : Z := Z.land n (n - 1).

Definition GetSkipHeight (height : Z) : Z :=
  if height <? 2 then 0
  else if Z.land height 1 =? 1 then InvertLowestOne (InvertLowestOne (height - 1)) + 1
  else InvertLowestOne height.

(** The loop of [GetAncestor]; a null parent is a failed assertion. *)
Fixpoint walk (fuel : nat) (pindexWalk : CBlockIndex) (heightWalk height : Z) : result CBlockIndex :=
  match fuel with
  | O => Throw (ExHost "fuel" "walk")
  | S fuel =>
      if height <? heightWalk then
        let heightSkip := GetSkipHeight heightWalk in
        let heightSkipPrev := GetSkipHeight (heightWalk - 1) in
        let jump := (heightSkip =? height) ||
          ((height <? heightSkip) && negb ((heightSkipPrev <? heightSkip - 2) && (height <=? heightSkipPrev))) in
        match pskip pindexWalk, jump with
        | Some s, true => walk fuel s heightSkip height
        | _, _ =>
            match pprev pindexWalk with
            | None => Throw (ExHost "assert" "pindexWalk->pprev")
            | Some p => walk fuel p (heightWalk - 1) height
            end
        end
      else Ok pindexWalk
  end.

Definition GetAncestor (i : CBlockIndex) (height : Z) : result (option CBlockIndex) :=
  if (nHeight i <? height) || (height <? 0) then Ok None
  else Some <$> walk (S (Z.to_nat (nHeight i))) i (nHeight i) height.

(** [AddToBlockIndex]: a block without a parent in the index is the genesis block;
    any other is one higher than its parent, and [BuildSkip] sets its jump. *)
Definition AddToBlockIndex (prev : option CBlockIndex) (time : Z) (modifier : bytes) : result CBlockIndex :=
  match prev with
  | None => Ok (BlockIndex 0 time modifier None None)
  | Some p =>
      skip ← GetAncestor p (GetSkipHeight (nHeight p + 1));
      Ok (BlockIndex (nHeight p + 1) time modifier (Some p) skip)
  end.

(** The blocks an index can hold. *)
Inductive indexed : CBlockIndex → Prop :=
  | indexed_add prev time modifier i :
      (∀ p, prev = Some p → indexed p) → AddToBlockIndex prev time modifier = Ok i → indexed i.

Definition parent (i p : CBlockIndex) : Prop := pprev i = Some p.

(** ** The heights *)

Lemma land_le a b : 0 <= a → 0 <= b → Z.land a b <= b.
Proof.
  intros Ha Hb. rewrite <- (Z2N.id a), <- (Z2N.id b) by done. rewrite <- N2Z.inj_land. apply N2Z.inj_le, N.land_le_r.
Qed.

Lemma invert_lowest n : 0 <= n → 0 <= InvertLowestOne n <= Z.max 0 (n - 1).
Proof.
  intros Hn. unfold InvertLowestOne. destruct (Z.eq_dec n 0) as [->|]; [done|].
  split; [apply Z.land_nonneg; lia|]. pose proof (land_le n (n - 1)). lia.
Qed.

(** The jump of a block that has one goes strictly back. *)
Lemma skip_range h : 1 <= h → 0 <= GetSkipHeight h < h.
Proof.
  intros Hh. unfold GetSkipHeight. destruct (Z.ltb_spec h 2); [lia|].
  pose proof (invert_lowest h). pose proof (invert_lowest (h - 1)). pose proof (invert_lowest (InvertLowestOne (h - 1))).
  destruct (Z.eqb_spec (Z.land h 1) 1) as [Hodd|]; [|lia].
  destruct (Z.eq_dec (InvertLowestOne (h - 1)) (h - 2)) as [E|]; [|lia]. exfalso.
  (* h - 1 is even, so is what is left of it *)
  assert (Hb : Z.testbit h 0 = true) by (pose proof (f_equal (λ z, Z.testbit z 0) Hodd) as Hb; cbn beta in Hb; by rewrite Z.land_spec, andb_true_r in Hb).
  assert (Ho : Z.odd h = true) by (by rewrite <- Z.bit0_odd).
  assert (He : Z.odd (h - 2) = false).
  { rewrite <- E, <- Z.bit0_odd. unfold InvertLowestOne. rewrite Z.land_spec, !Z.bit0_odd, Z.odd_sub, Ho. done. }
  rewrite Z.odd_sub, Ho in He. done.
Qed.

(** ** The walk *)

Lemma indexed_parent i p : indexed i → parent i p → indexed p ∧ nHeight i = nHeight p + 1.
Proof.
  unfold parent. destruct 1 as [[q|] time modifier i Hp Ha]; cbn [AddToBlockIndex] in Ha.
  - apply bind_ok in Ha as (s & _ & [= <-]). cbn. intros [= <-]. split; [by apply Hp|done].
  - injection Ha as <-. done.
Qed.

Lemma indexed_height i : indexed i → 0 <= nHeight i ∧ (0 < nHeight i → ∃ p, parent i p).
Proof.
  induction 1 as [[q|] time modifier i Hp IH Ha]; cbn [AddToBlockIndex] in Ha.
  - apply bind_ok in Ha as (s & _ & [= <-]). cbn. destruct (IH q eq_refl). split; [lia|]. intros _. by exists q.
  - injection Ha as <-. cbn. split; lia.
Qed.

Lemma indexed_skip i s : indexed i → pskip i = Some s → ∃ p, parent i p ∧ GetAncestor p (GetSkipHeight (nHeight i)) = Ok (Some s).
Proof.
  destruct 1 as [[q|] time modifier i Hp Ha]; cbn [AddToBlockIndex] in Ha.
  - apply bind_ok in Ha as (s' & Hs & [= <-]). cbn. intros ->. by exists q.
  - injection Ha as <-. done.
Qed.

(** The walk from a block of height [n] ends at an ancestor of the height asked for. *)
Lemma walk_ok n : ∀ i fuel height,
  indexed i → nHeight i = Z.of_nat n → 0 <= height <= nHeight i → (n < fuel)%nat →
  ∃ b, walk fuel i (nHeight i) height = Ok b ∧ rtc parent i b ∧ indexed b ∧ nHeight b = height.
Proof.
  induction (lt_wf n) as [n _ IH]. intros i [|fuel] height Hi Hn Hh Hf; [lia|]. cbn [walk].
  destruct (Z.ltb_spec height (nHeight i)); [|exists i; split; [done|]; split; [done|]; split; [done|lia]].
  destruct (indexed_height i Hi) as [_ Hpar]. destruct Hpar as [p Hp]; [lia|]. destruct (indexed_parent i p Hi Hp) as [Hip Ehp].
  assert (Hback : ∃ b, walk fuel p (nHeight i - 1) height = Ok b ∧ rtc parent i b ∧ indexed b ∧ nHeight b = height).
  { replace (nHeight i - 1) with (nHeight p) by lia.
    destruct (IH (n - 1)%nat ltac:(lia) p fuel height Hip) as (b & H1 & H2 & H3); [lia..|].
    exists b. split; [done|]. split; [by eapply rtc_l|done]. }
  rewrite Hp. destruct (pskip i) as [s|] eqn:Es; [|done].
  destruct (_ || _) eqn:Ej; [|done]. destruct (indexed_skip i s Hi Es) as (p' & Hp' & Hs).
  unfold parent in Hp, Hp'. rewrite Hp in Hp'. injection Hp' as <-. pose proof (skip_range (nHeight i) ltac:(lia)) as Hr.
  unfold GetAncestor in Hs. destruct (Z.ltb_spec (nHeight p) (GetSkipHeight (nHeight i))); [done|].
  destruct (Z.ltb_spec (GetSkipHeight (nHeight i)) 0); [done|]. cbn [orb] in Hs.
  destruct (IH (n - 1)%nat ltac:(lia) p (S (Z.to_nat (nHeight p))) (GetSkipHeight (nHeight i)) Hip) as (b & W1 & W2 & W3 & W4); [lia..|].
  rewrite W1 in Hs. injection Hs as <-. rewrite <- W4.
  assert (Hle : height <= GetSkipHeight (nHeight i)).
  { apply orb_true_iff in Ej as [E%Z.eqb_eq|[E%Z.ltb_lt _]%andb_true_iff]; lia. }
  destruct (IH (Z.to_nat (GetSkipHeight (nHeight i))) ltac:(lia) b fuel height W3) as (c & H5 & H6 & H7); [lia..|].
  exists c. split; [done|]. split; [|done]. eapply rtc_l; [exact Hp|]. by etrans.
Qed.

Lemma rtc_parent_height i b : indexed i → rtc parent i b → indexed b ∧ nHeight b <= nHeight i ∧ (nHeight b = nHeight i → b = i).
Proof.
  intros Hi H. induction H as [i|i p b Hp _ IH]; [by split; [|split; [lia|]]|].
  destruct (indexed_parent i p Hi Hp) as [Hip E]. destruct (IH Hip) as (Hb & Hle & _). split; [done|]. split; [lia|]. lia.
Qed.

(** There is one ancestor of every height. *)
Lemma ancestor_unique i b c : indexed i → rtc parent i b → rtc parent i c → nHeight b = nHeight c → b = c.
Proof.
  intros Hi Hb. revert c. induction Hb as [i|i p b Hp Hpb IH]; intros c Hc E.
  - destruct (rtc_parent_height i c Hi Hc) as (_ & _ & Heq). symmetry. by apply Heq.
  - destruct (indexed_parent i p Hi Hp) as [Hip Eh]. apply IH; [done| |done].
    inversion Hc as [|? q ? Hq Hqc]; subst.
    + destruct (rtc_parent_height p b Hip Hpb) as (_ & Hle & _). lia.
    + unfold parent in Hp, Hq. rewrite Hp in Hq. by injection Hq as <-.
Qed.

(** C16. [GetAncestor] finds exactly the ancestor of a height: in an index built block by
    block, for every height from 0 to the block's own, it returns the block that
    following the parents reaches at that height, and null for any other height;
    the assertion never fails. *)
Theorem GetAncestor_correct (i : CBlockIndex) (height : Z) (Hi : indexed i) :
  if bool_decide (0 <= height <= nHeight i)
  then ∃ b, GetAncestor i height = Ok (Some b) ∧ ∀ c, c = b ↔ rtc parent i c ∧ nHeight c = height
  else GetAncestor i height = Ok None.
Proof.
  unfold GetAncestor. destruct (indexed_height i Hi) as [H0 _].
  case_bool_decide as Hh; destruct (Z.ltb_spec (nHeight i) height), (Z.ltb_spec height 0); try done; try lia. cbn [orb].
  destruct (walk_ok (Z.to_nat (nHeight i)) i (S (Z.to_nat (nHeight i))) height Hi) as (b & Hw & Hb & _ & Eb); [lia..|].
  rewrite Hw. exists b. split; [done|]. intros c. split; [by intros ->|]. intros [Hc Ec].
  apply (ancestor_unique i c b Hi Hc Hb). congruence.
Qed.

(** A block can always be added. *)
Theorem AddToBlockIndex_total (prev : option CBlockIndex) (time : Z) (modifier : bytes)
    (Hprev : ∀ p, prev = Some p → indexed p) :
  ∃ i, AddToBlockIndex prev time modifier = Ok i ∧ indexed i ∧ pprev i = prev.
Proof.
  assert (H : ∃ i, AddToBlockIndex prev time modifier = Ok i ∧ pprev i = prev).
  { destruct prev as [p|]; [|by eexists]. cbn [AddToBlockIndex]. specialize (Hprev p eq_refl).
    destruct (indexed_height p Hprev) as [H0 _]. pose proof (skip_range (nHeight p + 1) ltac:(lia)).
    unfold GetAncestor. destruct (Z.ltb_spec (nHeight p) (GetSkipHeight (nHeight p + 1))); [lia|].
    destruct (Z.ltb_spec (GetSkipHeight (nHeight p + 1)) 0); [lia|]. cbn [orb].
    destruct (walk_ok (Z.to_nat (nHeight p)) p (S (Z.to_nat (nHeight p))) (GetSkipHeight (nHeight p + 1)) Hprev) as (b & -> & _); [lia..|].
    by eexists. }
  destruct H as (i & Hi & Hp). exists i. split; [done|]. split; [by eapply indexed_add|done].
Qed.

(** ** A short chain *)

Module ChainExample.
Fixpoint chain (n : nat) : CBlockIndex :=
  let prev := match n with O => None | S k => Some (chain k) end in
  match AddToBlockIndex prev (1000 * Z.of_nat n) [Z.of_nat n] with Ok i => i | Throw _ => BlockIndex 0 0 [] None None end.

Lemma chain_indexed n : indexed (chain n).
Proof.
  induction n as [|n IH]; cbn [chain].
  - by apply (indexed_add None 0 [0]).
  - destruct (AddToBlockIndex_total (Some (chain n)) (1000 * Z.of_nat (S n)) [Z.of_nat (S n)]) as (i & Ei & Hi & _).
    + by intros p [= <-].
    + by rewrite Ei.
Qed.
End ChainExample.

Lemma GetAncestor_correct_witness :
  ∃ b, GetAncestor (ChainExample.chain 13) 5 = Ok (Some b) ∧ nTime b = 5000.
Proof.
  pose proof (GetAncestor_correct (ChainExample.chain 13) 5 (ChainExample.chain_indexed 13)) as H.
  rewrite bool_decide_eq_true_2 in H by (vm_compute; split; congruence). destruct H as (b & Hb & _).
  exists b. split; [exact Hb|]. vm_compute in Hb. injection Hb as <-. reflexivity.
Defined.
