(* ===== verification/StakeKernel.v ===== *)
(** * The stake kernel (codexacoin-core/src/pos.cpp)

    Which coin may make a block at which second: [CheckStakeKernelHash] compares a
    hash with the target times the value of the coin, in 256-bit arithmetic;
    [CheckKernel] is what the staking wallet asks, with or without its cache, and
    [CheckProofOfStake] what every node asks of the block.  The script check of the
    coinstake's first input (with no flags and no witness) is a parameter. *)

From S2P Require Import Prelude Primitives Base58 StakeReward NodeTx Fee BlockIndex.

#[export] Instance COutPoint_eq_dec : EqDecision COutPoint.
Proof. solve_decision. Defined.

Record consensus := { nCoinbaseMaturity : Z; nStakeTimestampMask : Z; nProtocolV2Time : Z }.
Definition main_consensus : consensus :=
  {| nCoinbaseMaturity := 500; nStakeTimestampMask := 15; nProtocolV2Time := 1407053625 |}.

Definition IsProtocolV2 (c : consensus) (nTime : Z) : bool := (nProtocolV2Time c <? nTime) && negb (nTime =? 1407053678).
Definition CheckCoinStakeTimestamp (c : consensus) (nTimeBlock nTimeTx : Z) : bool :=
  if IsProtocolV2 c nTimeBlock
  then (nTimeBlock =? nTimeTx) && (Z.land nTimeTx (nStakeTimestampMask c) =? 0)
  else nTimeBlock =? nTimeTx.

(** [arith_uint256::SetCompact] *)
Definition SetCompact (nCompact : Z) : Z :=
  let nSize := Z.shiftr nCompact 24 in
  let nWord := Z.land nCompact 0x007fffff in
  if nSize <=? 3 then Z.shiftr nWord (8 * (3 - nSize)) else u256 (Z.shiftl nWord (8 * (nSize - 3))).

(** [bnTarget *= bnWeight] *)
Definition weighted_target (nBits value : Z) : Z := u256 (SetCompact nBits * u64 value).

(** The number a hash stands for; a [uint256] keeps its lowest byte first. *)
Definition UintToArith256 (h : bytes) : Z := of_digits 256 (rev h).

Section kernel.
Context {P : Primitives}.

Definition ComputeStakeModifier (pindexPrev : option CBlockIndex) (kernel : bytes) : bytes :=
  match pindexPrev with
  | None => replicate 32 0
  | Some p => doubleSha256 (kernel ++ nStakeModifier p)
  end.

Definition kernel_hash (modifier : bytes) (blockFromTime : Z) (prevout : COutPoint) (nTimeTx : Z) : bytes :=
  doubleSha256 (modifier ++ le_bytes 4 blockFromTime ++ op_hash prevout ++ le_bytes 4 (op_n prevout) ++ le_bytes 4 nTimeTx).

Definition CheckStakeKernelHash (pindexPrev : CBlockIndex) (nBits blockFromTime prevoutValue : Z) (prevout : COutPoint)
    (nTimeTx : Z) : bool :=
  if nTimeTx <? blockFromTime then false
  else if prevoutValue =? 0 then false
  else
    let bnTarget := weighted_target nBits prevoutValue in
    let hashProofOfStake := kernel_hash (nStakeModifier pindexPrev) blockFromTime prevout nTimeTx in
    negb (bnTarget <? UintToArith256 hashProofOfStake).

(** ** Coins *)

Definition invalid_block {A} (reason : string) : result A := Throw (ExHost "BlockValidationState" reason).

Context (c : consensus) (view : COutPoint → option Coin) (VerifySignature : Coin → CTransaction → bool).

(** [coinPrev.nTime ? coinPrev.nTime : blockFrom->nTime] *)
Definition origin_time (coinPrev : Coin) (blockFrom : CBlockIndex) : Z :=
  if coin_time coinPrev =? 0 then nTime blockFrom else coin_time coinPrev.

Definition CheckProofOfStake (pindexPrev : CBlockIndex) (tx : CTransaction) (nBits nTimeTx : Z) : result unit :=
  if negb (IsCoinStake tx) then Throw (ExHost "error" "CheckProofOfStake() : called on non-coinstake") else
  match vin tx with
  | [] => Throw (ExHost "undefined behaviour" "vin[0]")
  | txin :: _ =>
      match view (prevout txin) with
      | None => invalid_block "stake-prevout-not-exist"
      | Some coinPrev =>
          if nHeight pindexPrev + 1 - coin_height coinPrev <? nCoinbaseMaturity c then invalid_block "stake-prevout-not-mature" else
          blockFrom ← GetAncestor pindexPrev (coin_height coinPrev);
          match blockFrom with
          | None => invalid_block "stake-prevout-not-loaded"
          | Some blockFrom =>
              if negb (VerifySignature coinPrev tx) then invalid_block "stake-verify-signature-failed" else
              if CheckStakeKernelHash pindexPrev nBits (origin_time coinPrev blockFrom) (nValue (coin_out coinPrev)) (prevout txin) nTimeTx
              then Ok () else invalid_block "stake-check-kernel-failed"
          end
      end
  end.

(** [CheckKernel] without a cache; [GetCoin] only returns coins that are not spent. *)
Definition CheckKernel0 (pindexPrev : CBlockIndex) (nBits nTime : Z) (prevout : COutPoint) : result bool :=
  match view prevout with
  | None => Ok false
  | Some coinPrev =>
      if nHeight pindexPrev + 1 - coin_height coinPrev <? nCoinbaseMaturity c then Ok false else
      blockFrom ← GetAncestor pindexPrev (coin_height coinPrev);
      match blockFrom with
      | None => Ok false
      | Some blockFrom =>
          Ok (CheckStakeKernelHash pindexPrev nBits (origin_time coinPrev blockFrom) (nValue (coin_out coinPrev)) prevout nTime)
      end
  end.

Record CStakeCache := { blockFromTime : Z; amount : Z }.
Definition stake_cache : Type := COutPoint → option CStakeCache.

Definition CheckKernel (pindexPrev : CBlockIndex) (nBits nTime : Z) (prevout : COutPoint) (cache : stake_cache) : result bool :=
  match cache prevout with
  | None => CheckKernel0 pindexPrev nBits nTime prevout
  | Some stake =>
      if CheckStakeKernelHash pindexPrev nBits (blockFromTime stake) (amount stake) prevout nTime
      then CheckKernel0 pindexPrev nBits nTime prevout
      else Ok false
  end.

Definition CacheKernel (cache : stake_cache) (prevout : COutPoint) (pindexPrev : CBlockIndex) : result stake_cache :=
  match cache prevout with
  | Some _ => Ok cache
  | None =>
      match view prevout with
      | None => Ok cache
      | Some coinPrev =>
          if nHeight pindexPrev + 1 - coin_height coinPrev <? nCoinbaseMaturity c then Ok cache else
          blockFrom ← GetAncestor pindexPrev (coin_height coinPrev);
          match blockFrom with
          | None => Ok cache
          | Some blockFrom =>
              Ok (λ o, if decide (o = prevout)
                       then Some {| blockFromTime := origin_time coinPrev blockFrom; amount := nValue (coin_out coinPrev) |}
                       else cache o)
          end
      end
  end.
End kernel.

(** ** The two checks *)

Section checks.
Context {P : Primitives} (c : consensus) (view : COutPoint → option Coin) (VerifySignature : Coin → CTransaction → bool).

(** A signed coinstake passes the block's check exactly when its first input passes
    the wallet's. *)
Lemma proof_iff_kernel pindexPrev tx txin rest nBits t :
  IsCoinStake tx = true → vin tx = txin :: rest →
  (∀ coin, view (prevout txin) = Some coin → VerifySignature coin tx = true) →
  CheckProofOfStake c view VerifySignature pindexPrev tx nBits t = Ok () ↔
  CheckKernel0 c view pindexPrev nBits t (prevout txin) = Ok true.
Proof.
  intros Hcs Hv Hs. unfold CheckProofOfStake, CheckKernel0. rewrite Hcs, Hv. cbn [negb].
  destruct (view (prevout txin)) as [coin|] eqn:Ec; [|done]. destruct (_ <? nCoinbaseMaturity c); [done|].
  destruct (GetAncestor pindexPrev (coin_height coin)) as [[b|]|]; [|done|done]. cbn [mbind result_bind].
  rewrite (Hs coin eq_refl). cbn [negb]. by destruct (CheckStakeKernelHash _ _ _ _ _ _).
Qed.

(** No cache, however stale, makes the wallet take a coin for a kernel that is not one. *)
Lemma cache_no_false_positive pindexPrev nBits t o cache :
  CheckKernel c view pindexPrev nBits t o cache = Ok true → CheckKernel0 c view pindexPrev nBits t o = Ok true.
Proof. unfold CheckKernel. destruct (cache o); [|done]. by destruct (CheckStakeKernelHash _ _ _ _ _ _). Qed.

(** An entry that [CacheKernel] makes for a chain. *)
Definition entry_of (pindexPrev : CBlockIndex) (o : COutPoint) (s : CStakeCache) : Prop :=
  ∃ coin b, view o = Some coin ∧ (nHeight pindexPrev + 1 - coin_height coin <? nCoinbaseMaturity c) = false ∧
    GetAncestor pindexPrev (coin_height coin) = Ok (Some b) ∧
    s = {| blockFromTime := origin_time coin b; amount := nValue (coin_out coin) |}.
Definition cache_of (pindexPrev : CBlockIndex) (cache : stake_cache) : Prop :=
  ∀ o s, cache o = Some s → entry_of pindexPrev o s.

Lemma CacheKernel_ok pindexPrev cache o cache' :
  cache_of pindexPrev cache → CacheKernel c view cache o pindexPrev = Ok cache' → cache_of pindexPrev cache'.
Proof.
  intros Hc. unfold CacheKernel. destruct (cache o); [by intros [= <-]|]. destruct (view o) as [coin|] eqn:Ev; [|by intros [= <-]].
  destruct (_ <? nCoinbaseMaturity c) eqn:Em; [by intros [= <-]|].
  destruct (GetAncestor pindexPrev (coin_height coin)) as [[b|]|] eqn:Ea; [|by intros [= <-]|done].
  intros [= <-] o' s. destruct (decide (o' = o)) as [->|]; [|apply Hc]. intros [= <-]. by exists coin, b.
Qed.

Lemma cache_of_same pindexPrev nBits t o cache :
  cache_of pindexPrev cache → CheckKernel c view pindexPrev nBits t o cache = CheckKernel0 c view pindexPrev nBits t o.
Proof.
  intros Hc. unfold CheckKernel. destruct (cache o) as [s|] eqn:Es; [|done].
  destruct (Hc o s Es) as (coin & b & Hv & Hm & Ha & ->). unfold CheckKernel0. rewrite Hv, Hm, Ha. cbn [mbind result_bind blockFromTime amount].
  by destruct (CheckStakeKernelHash _ _ _ _ _ _).
Qed.
End checks.

(** C25. The cache of the staking wallet is safe.  Filled with any coins on a chain it
    never changes an answer of [CheckKernel] on that chain; and kept across a
    reorganisation, when its entries may be wrong, it can only lose kernels: what it
    accepts is accepted without it. *)
Theorem stake_cache_safe {P : Primitives} (c : consensus) (view view' : COutPoint → option Coin)
    (pindex pindex' : CBlockIndex) (coins : list COutPoint) (cache : stake_cache) (nBits t : Z) (o : COutPoint)
    (Hcache : foldR (λ cache o, CacheKernel c view cache o pindex) (λ _, None) coins = Ok cache) :
  CheckKernel c view pindex nBits t o cache = CheckKernel0 c view pindex nBits t o ∧
  (CheckKernel c view' pindex' nBits t o cache = Ok true → CheckKernel0 c view' pindex' nBits t o = Ok true).
Proof.
  split; [|apply cache_no_false_positive]. apply cache_of_same.
  assert (H0 : cache_of c view pindex (λ _, None)) by done. revert H0 Hcache. generalize (λ _ : COutPoint, @None CStakeCache).
  induction coins as [|x coins IH]; intros c0 H0 H; cbn [foldR] in H; [by injection H as <-|].
  apply bind_ok in H as (c1 & H1 & H). eapply IH; [|exact H]. by eapply CacheKernel_ok.
Qed.

(** ** The coinstakes of the wallet *)

Lemma combine_keeps N p t kernel script a coins i :
  ∃ l, in_vin (combine_inputs N p t kernel script a coins i) = in_vin i ++ l.
Proof.
  revert i. induction coins as [|x coins IH]; intros i; cbn [combine_inputs]; [exists []; by rewrite app_nil_r|].
  assert (Hstay : ∃ l, in_vin i = in_vin i ++ l) by (exists []; by rewrite app_nil_r).
  assert (Hadd : ∃ l, in_vin (combine_inputs N p t kernel script a coins (add_input N p t x i)) = in_vin i ++ l).
  { destruct (IH (add_input N p t x i)) as [l ->]. cbn [add_input in_vin]. rewrite <- app_assoc. by eexists. }
  repeat (match goal with |- context [if ?b then _ else _] => destruct b end); auto.
Qed.

Lemma search_kernel_true N t x n steps k : search_kernel N t x n steps = Some k → StakeReward.CheckKernel N (u32 (t - k.1.1)) (StakeReward.prevout x) = true.
Proof.
  revert n. induction steps as [|steps IH]; intros n H; cbn [search_kernel] in H; [done|].
  destruct (StakeReward.CheckKernel N (u32 (t - n)) (StakeReward.prevout x)) eqn:E; [|by eapply IH].
  destruct (staking_script N x) as [[sc mi]|]; [|done]. by injection H as <-.
Qed.

Lemma find_kernel_true N t s coins x k : find_kernel N t s coins = Some (x, k) → StakeReward.CheckKernel N (u32 (t - k.1.1)) (StakeReward.prevout x) = true.
Proof.
  induction coins as [|y coins IH]; cbn [find_kernel]; [done|]. destruct (negb _); [done|].
  destruct (search_kernel N t y 0 _) as [k'|] eqn:E; [|done]. intros [= <- <-]. by eapply search_kernel_true.
Qed.

(** The first input of a coinstake is its kernel. *)
Lemma coinstake_kernel N W p nTime interval fees cs :
  CreateCoinStake N W p nTime interval fees = Some cs →
  ∃ o rest, cs_vin cs = o :: rest ∧ StakeReward.CheckKernel N (cs_time cs) o = true.
Proof.
  unfold CreateCoinStake. destruct (_ <=? _); [done|]. destruct (find_kernel _ _ _ _) as [[x [[n script] minter]]|] eqn:Ek; [|done].
  destruct (_ || _); [done|]. destruct (_ <? 0); [done|]. intros [= <-]. cbn [cs_vin cs_time].
  apply find_kernel_true in Ek. cbn [fst] in Ek. exists (StakeReward.prevout x).
  destruct minter; [by exists []|]. destruct (combine_keeps N p (u32 (nTime - n)) x script (i64 (sw_balance W - sw_reserve W))
    (set_order N (SelectCoinsForStaking (i64 (sw_balance W - sw_reserve W)) (sw_coins W))) (add_input N p (u32 (nTime - n)) x (Inputs [] 0 0))) as [l ->].
  by exists l.
Qed.

(** C11. What the wallet stakes the network takes for staked.  The wallet searches with the
    node's [CheckKernel]; whenever [CreateCoinStake] returns a coinstake, the
    transaction with those inputs, once its first input is signed for the coin it
    spends, passes [CheckProofOfStake] at its own
    time on the same chain. *)
Theorem staked_kernel_valid {P : Primitives} (c : consensus) (view : COutPoint → option Coin)
    (VerifySignature : Coin → CTransaction → bool) (pindexPrev : CBlockIndex) (nBits : Z)
    (N : node) (W : stake_wallet) (p : StakeReward.params) (nTime nSearchInterval nFees : Z) (cs : coinstake_tx)
    (outpoint_of : outpoint → COutPoint) (tx : CTransaction)
    (HN : ∀ t o, StakeReward.CheckKernel N t o =
      match CheckKernel0 c view pindexPrev nBits t (outpoint_of o) with Ok b => b | Throw _ => false end)
    (Hcs : CreateCoinStake N W p nTime nSearchInterval nFees = Some cs)
    (Hvin : prevout <$> vin tx = outpoint_of <$> cs_vin cs) (Htx : IsCoinStake tx = true)
    (Hsigned : ∀ txin rest coin, vin tx = txin :: rest → view (prevout txin) = Some coin → VerifySignature coin tx = true) :
  CheckProofOfStake c view VerifySignature pindexPrev tx nBits (cs_time cs) = Ok ().
Proof.
  destruct (coinstake_kernel _ _ _ _ _ _ _ Hcs) as (o & rest & Eo & Hk). rewrite Eo, fmap_cons in Hvin.
  destruct (vin tx) as [|txin ins] eqn:Ev; [done|]. rewrite fmap_cons in Hvin. injection Hvin as Ep _.
  apply (proof_iff_kernel c view VerifySignature pindexPrev tx txin ins); [done|done|intros coin; by apply (Hsigned txin ins)|].
  rewrite HN in Hk. rewrite Ep. by destruct (CheckKernel0 _ _ _ _ _ _) as [[]|].
Qed.

(** ** The target *)

(** The easiest target of the network, and its compact form. *)
Definition posLimitV2 : Z := 2 ^ 208 - 1.
Definition easiest_bits : Z := 0x1b00ffff.

Lemma weighted_exact nBits v : 0 <= SetCompact nBits → 0 <= v < 2 ^ 63 → SetCompact nBits * v < 2 ^ 256 → weighted_target nBits v = SetCompact nBits * v.
Proof. intros H0 Hv Hp. unfold weighted_target, u256, u64. rewrite (Z.mod_small v) by lia. apply Z.mod_small. nia. Qed.

Lemma SetCompact_nonneg nBits : 0 <= SetCompact nBits.
Proof.
  unfold SetCompact. destruct (_ <=? 3); [|apply Z.mod_pos_bound; lia]. apply Z.shiftr_nonneg, Z.land_nonneg. lia.
Qed.

(** As long as the target times the value fits 256 bits, a coin stakes in proportion to
    its value: the hash is compared with exactly the product, so a coin that is a
    kernel would be one with any larger value. *)
Theorem kernel_proportional {P : Primitives} (pindexPrev : CBlockIndex) (nBits from v v' : Z) (o : COutPoint) (t : Z)
    (Hv : 0 < v <= v') (Hv' : v' < 2 ^ 63) (Hfits : SetCompact nBits * v' < 2 ^ 256) :
  CheckStakeKernelHash pindexPrev nBits from v o t =
    (from <=? t) && (UintToArith256 (kernel_hash (nStakeModifier pindexPrev) from o t) <=? SetCompact nBits * v) ∧
  (CheckStakeKernelHash pindexPrev nBits from v o t = true → CheckStakeKernelHash pindexPrev nBits from v' o t = true).
Proof.
  pose proof (SetCompact_nonneg nBits) as H0. unfold CheckStakeKernelHash.
  rewrite (weighted_exact nBits v H0), (weighted_exact nBits v' H0) by (lia || nia).
  set (h := UintToArith256 _). destruct (Z.eqb_spec v 0), (Z.eqb_spec v' 0); try lia.
  split.
  - rewrite (Z.ltb_antisym from t), (Z.ltb_antisym h). by destruct (from <=? t), (h <=? SetCompact nBits * v).
  - destruct (t <? from); [done|]. rewrite !negb_true_iff, !Z.ltb_ge. nia.
Qed.

(** C28. Beyond it is not so: at the easiest target a coin of 2,814,792.71743489 CAC is a kernel
    for all hashes but one in 2^64, and with one satoshi more, for one in 2^48, because
    the product wraps around. *)
Theorem kernel_target_wraps {P : Primitives} (pindexPrev : CBlockIndex) (from t : Z) (o : COutPoint) :
  let h := UintToArith256 (kernel_hash (nStakeModifier pindexPrev) from o t) in
  SetCompact easiest_bits <= posLimitV2 ∧
  CheckStakeKernelHash pindexPrev easiest_bits from 281479271743489 o t = (from <=? t) && (h <=? 2 ^ 256 - 2 ^ 192) ∧
  CheckStakeKernelHash pindexPrev easiest_bits from 281479271743490 o t = (from <=? t) && (h <=? 65534 * 2 ^ 192).
Proof.
  intros h. split; [vm_compute; congruence|]. unfold CheckStakeKernelHash. fold h. rewrite !Z.ltb_antisym.
  replace (weighted_target easiest_bits 281479271743489) with (2 ^ 256 - 2 ^ 192) by (vm_compute; reflexivity).
  replace (weighted_target easiest_bits 281479271743490) with (65534 * 2 ^ 192) by (vm_compute; reflexivity).
  split; by destruct (from <=? t), (h <=? _).
Qed.

(** ** A staked block *)

Module KernelExample.
#[local] Existing Instance Toy.prims.

Definition cons : consensus := {| nCoinbaseMaturity := 10; nStakeTimestampMask := 15; nProtocolV2Time := 1407053625 |}.
Definition outpoint_of (o : outpoint) : COutPoint := {| op_hash := replicate 32 (if String.eqb o.1 "a" then 10 else 11); op_n := o.2 |}.
Definition coin_at (o : COutPoint) : option Coin :=
  Some {| coin_out := {| nValue := if op_n o =? 0 then 40000000000 else 20000000000; txout_scriptPubKey := [] |};
          fCoinBase := false; fCoinStake := false; coin_height := 2; coin_time := 1700000000 |}.
Definition bits : Z := 0x1c180000.
Definition tip : CBlockIndex := ChainExample.chain 13.
Definition node : node := Node
  (λ t o, match CheckKernel0 cons coin_at tip bits t (outpoint_of o) with Ok b => b | Throw _ => false end)
  (λ _, true) (λ w, Some (wc_script w, false)) (λ _, Some 1700000000) (λ l, l).
Definition made : option coinstake_tx := CreateCoinStake node Staker.wallet main_params 1702000000 60 0.
(** A signature that names the coin it is for, by its value. *)
Definition sign_for (coin : Coin) : bytes := 8 :: le_bytes 8 (nValue (coin_out coin)).
Definition verify (coin : Coin) (tx : CTransaction) : bool :=
  match vin tx with txin :: _ => bool_decide (txin_scriptSig txin = sign_for coin) | [] => false end.
Definition tx_of (cs : coinstake_tx) : CTransaction :=
  {| nVersion := 2; NodeTx.nTime := cs_time cs;
     vin := (λ o, {| prevout := outpoint_of o; txin_scriptSig := from_option sign_for [] (coin_at (outpoint_of o)); nSequence := 0xffffffff; scriptWitness := [] |}) <$> cs_vin cs;
     vout := (λ vs, {| nValue := vs.1; txout_scriptPubKey := if vs.1 =? 0 then [] else [0x51] |}) <$> cs_vout cs; nLockTime := 0 |}.
End KernelExample.

Lemma staked_kernel_valid_witness :
  ∃ cs, KernelExample.made = Some cs ∧
    (∃ coin, KernelExample.verify coin (KernelExample.tx_of cs) = false) ∧
    CheckProofOfStake (P := Toy.prims) KernelExample.cons KernelExample.coin_at KernelExample.verify KernelExample.tip
      (KernelExample.tx_of cs) KernelExample.bits (cs_time cs) = Ok ().
Proof.
  destruct KernelExample.made as [cs|] eqn:E; [|vm_compute in E; discriminate E]. exists cs. split; [reflexivity|]. split.
  { exists {| coin_out := {| nValue := 1; txout_scriptPubKey := [] |}; fCoinBase := false; fCoinStake := false; coin_height := 2; coin_time := 0 |}.
    vm_compute in E. injection E as <-. reflexivity. }
  refine (staked_kernel_valid (P := Toy.prims) KernelExample.cons KernelExample.coin_at KernelExample.verify KernelExample.tip KernelExample.bits
    KernelExample.node Staker.wallet main_params 1702000000 60 0 cs KernelExample.outpoint_of _ _ E _ _ _).
  - reflexivity.
  - unfold KernelExample.tx_of. cbn [vin]. rewrite <- list_fmap_compose. reflexivity.
  - vm_compute in E. injection E as <-. reflexivity.
  - intros txin rest coin Hv Hc. unfold KernelExample.verify. rewrite Hv. apply bool_decide_eq_true. unfold KernelExample.tx_of in Hv. cbn [vin] in Hv.
    destruct (cs_vin cs) as [|o os]; [done|]. rewrite fmap_cons in Hv. apply (f_equal head) in Hv. cbn [head] in Hv. apply (inj Some) in Hv as <-. change (KernelExample.coin_at (KernelExample.outpoint_of o) = Some coin) in Hc.
    change (from_option KernelExample.sign_for [] (KernelExample.coin_at (KernelExample.outpoint_of o)) = KernelExample.sign_for coin). by rewrite Hc.
Defined.

Lemma stake_cache_safe_witness :
  ∃ cache, foldR (λ cache o, CacheKernel KernelExample.cons KernelExample.coin_at cache o KernelExample.tip) (λ _, None)
      [KernelExample.outpoint_of ("a", 0)] = Ok cache ∧
    CheckKernel (P := Toy.prims) KernelExample.cons KernelExample.coin_at KernelExample.tip KernelExample.bits 1702000000
      (KernelExample.outpoint_of ("a", 0)) cache =
    CheckKernel0 (P := Toy.prims) KernelExample.cons KernelExample.coin_at KernelExample.tip KernelExample.bits 1702000000
      (KernelExample.outpoint_of ("a", 0)).
Proof.
  destruct (foldR (λ cache o, CacheKernel KernelExample.cons KernelExample.coin_at cache o KernelExample.tip) (λ _, None)
      [KernelExample.outpoint_of ("a", 0)]) as [cache|] eqn:E; [|vm_compute in E; discriminate E].
  exists cache. split; [reflexivity|].
  exact (proj1 (stake_cache_safe (P := Toy.prims) KernelExample.cons KernelExample.coin_at KernelExample.coin_at KernelExample.tip
    KernelExample.tip _ cache KernelExample.bits 1702000000 (KernelExample.outpoint_of ("a", 0)) E)).
Defined.

Lemma kernel_proportional_witness :
  CheckStakeKernelHash (P := Toy.prims) KernelExample.tip KernelExample.bits 1700000000 40000000000 (KernelExample.outpoint_of ("a", 0)) 1702000000 =
  (1700000000 <=? 1702000000) && (UintToArith256 (kernel_hash (P := Toy.prims) (nStakeModifier KernelExample.tip) 1700000000
    (KernelExample.outpoint_of ("a", 0)) 1702000000) <=? SetCompact KernelExample.bits * 40000000000).
Proof.
  refine (proj1 (kernel_proportional (P := Toy.prims) KernelExample.tip KernelExample.bits 1700000000 40000000000 40000000000
    (KernelExample.outpoint_of ("a", 0)) 1702000000 _ _ _)); [lia|lia|vm_compute; reflexivity].
Defined.
